(* ===== verification/_CoqProject ===== *)
-Q . S2P
Prelude.v
RtList.v
SList.v
RingBlk.v
RingBuffer.v
Kservice.v
KString.v
KMem.v
Kprintf.v
DataRuns.v
Kernel.v
Sched.v
Timer.v
Object.v
Thread.v
Lifecycle.v
Idle.v
Boot.v
Ipc.v
Sem.v
Mutex.v
Event.v
Mailbox.v
MsgQueue.v
MemPool.v
Mem.v
Malloc.v
HeapBytes.v
System.v
MallocAlign.v
Ticks.v
Creation.v
DevIpc.v
Parking.v
WaitQueue.v
WorkQueue.v
Device.v
DevCalls.v
Serial.v
SerialTx.v
I2c.v
Crc.v
Flash.v
Fal.v
Conf.v
Syscalls.v
Checks.v
Startup.v
Scenarios.v
IpcRuns.v
MemRuns.v
DevRuns.v
DriverRuns.v
FlashRuns.v
QueueRuns.v
I2cRuns.v
