(* ===== verification/Prelude.v ===== *)
(** * The RT-Thread kernel of the charging-pile firmware

    The firmware is a C++ application on the RT-Thread kernel (C, under
    src/rt-thread) for one STM32 processor.  This development models the kernel, with the
    device layer and the storage under the application's configuration:
    the part everything else relies on, and the part that is written in C.

    ** The program

    - Threads are control blocks ([struct rt_thread]) threaded through intrusive
      doubly linked lists: one ready list per priority (32 of them, with a bitmap of
      the non-empty ones), one waiting list per IPC object, one list of defunct
      threads.  rt_schedule picks the first thread of the highest ready list.
    - Timers sit in two lists ordered by expiry, the hard one served by the tick
      interrupt rt_tick_increase, the soft one by the timer thread.  Every thread
      owns a timer for its timeouts.
    - IPC objects (semaphore, mutex, event, mailbox, message queue) suspend the
      caller on their list, arm its timer and call rt_schedule; a release, send or
      timeout puts the thread back into its ready list.
    - Every object is entered in a container under its name.  The idle thread
      deletes the threads that have ended.
    - Memory comes from fixed-size block pools and from the heap.
    - Devices are objects with driver functions; open, close, read and write go through
      device.c, the console of rt_kprintf is one of them, and serial.c is the driver
      framework of the UARTs, with a receive FIFO filled by the interrupt or by DMA.
    - The configuration of the lower board lies in a partition of the on-chip flash, behind a
      CRC-16: lower_conf.cxx calls FAL (partitions), FAL the driver drv_flash_f1.c, and that the
      vendor HAL.

    ** Files, in dependency order

    - Prelude: machine-width integers ([u8], [u16], [u32], [s16], [s32]), the state
      and error monad [M] ([None] is undefined behaviour: an access to a cell, control
      block or array element that does not exist), the tactics [munfold], list lemmas.
    - RtList: rtservice.h.  The pointer operations on linked cells, and the queue
      store [gmap head (list node)] they implement ([qrep], [list_program_refines]).
      The kernel files work on the queue store.
    - SList, RingBlk: the singly linked lists of rtservice.h, and the ring block buffer of
      components/drivers/src/ringblk_buf.c with its blocks in ring order ([rbb_inv]).
    - RingBuffer: components/drivers/src/ringbuffer.c.
    - Kservice, KString, KMem: the bit scan, the string functions and the memory functions
      of src/kservice.c.
    - Kprintf: the printf family of src/kservice.c, on the bytes of a memory; the same
      code run on a list of characters gives the text ([text]).
    - Kernel: the control blocks and globals as records ([rt_thread], [rt_timer],
      [rt_object], the IPC objects; [sched], [timers], [objects], [kernel]).
    - Sched: src/scheduler.c.  State [sched] (threads, ready lists, bitmap
      rt_thread_ready_priority_group, rt_current_thread, lock depth); invariant [sinv].
    - Timer: the list part of src/timer.c and src/clock.c; state [timers]; invariant
      [tinv] and the order [tsorted].
    - Object: src/object.c; state [objects]; invariant [oinv].
    - Thread: src/thread.c, the rest of timer.c and clock.c (everything that needs
      threads and timers together); invariant [kinv]; interface [TimeoutSpec], what a
      timeout function of the application promises.
    - Lifecycle: the theorems on creating, starting, sleeping, ending threads.
    - Idle: src/idle.c; interface [CleanupSpec] for cleanup functions.
    - Boot: src/components.c, rtthread_startup; decision procedures for the
      invariants ([kinv_check] and others).
    - Ipc, Sem, Mutex, Event, Mailbox, MsgQueue: src/ipc.c, one file per object.
    - MemPool: src/mempool.c; the free list runs through exactly the free blocks ([mp_rep]).
    - Mem: src/mem.c, the sections that hold the lock of the heap, on a memory of 32-bit
      words; the headers form one contiguous chain ([heap_rep]); [heap_state] lists the
      allocated blocks.
    - Malloc: rt_malloc, rt_free, rt_realloc and rt_calloc as threads call them, blocking
      on the semaphore heap_sem.
    - HeapBytes: the data of the heap as bytes; the word copies of Malloc are rt_memcpy.
    - System: the invariant of the whole kernel, [sys_inv], with timer lists in order and
      every armed timer due within half the range of the tick ([timed]); a frame theory ([calm]) for
      what the operations of one component leave alone in the others; the theorems on the
      operations of IPC objects, pools and heap, each of which keeps [sys_inv].
    - MallocAlign: rt_malloc_align and rt_free_align of src/kservice.c.
    - Ticks: the tick interrupt keeps [sys_inv]; interface [SysTimeout], what the timeout
      functions of application timers promise.
    - Creation: initialising, resetting and removing IPC objects and pools keeps [sys_inv].
    - DevIpc: components/drivers/src/completion.c and dataqueue.c, on a state [dstate] with the
      control blocks of the drivers beside the kernel; invariant [drv_inv].
    - Parking: threads that sleep on no list, for the next two.
    - WaitQueue, WorkQueue: components/drivers/src/waitqueue.c and workqueue.c on states [wstate]
      and [qstate] with their control blocks beside the kernel; their runs are step
      relations ([wq_step], [work_step]) with invariants [wq_inv] and [work_inv].
    - Device: src/device.c, src/irq.c, errno and the console of src/kservice.c, on a state
      [dsys] that holds the kernel, the devices and the state of the drivers; interface
      [DriverSpec], what a driver promises; invariant [dinv].
    - DevCalls: sequences of device and console calls, and their theorems.
    - Serial: components/drivers/serial/serial.c, on the state of one serial device
      ([serial]) with the functions of the UART as a parameter ([rt_uart_ops]).
    - SerialTx: the transmission of serial.c with its completion or data queue ([txsys]); the
      interface [UartTx] notes what the UART was given to send.
    - I2c: components/drivers/i2c/i2c-bit-ops.c on a state [i2c] with the levels of the two lines
      and a monitor of the bus; the hardware with the slaves is a parameter ([I2cHw]).  Fuel bounds the
      rounds of SCL_H's wait for the clock: four are enough for every timeout.
    - Crc: packages/crclib-v1.00, the three table-driven check sums, against the shift
      register [crc_reg]; utilities/crc16.cxx.
    - Flash: the polling flash functions of the vendor HAL and drivers/drv_flash_f1.c on a state
      [flash] (memory, controller registers, handle); the controller is a parameter ([Fpec])
      with the reactions its manual documents ([FpecSpec]).
    - Fal: packages/fal-v0.5.0 on a state [fal]; interface [FlashDev], what a flash device
      promises, and isolation of partitions proved against it.
    - Conf: fal_cfg.h, the driver as an instance of [FlashDev] ([onchip_dev]), and
      components/lower/lower_conf.cxx, the configuration store.
    - Syscalls: the kernel calls (with those that create and remove objects and threads) and
      the tick interrupt as the steps of a transition
      system ([sys_step]), and safety of every reachable state.
    - Startup: the heap initialisation of drivers/board.c and rtthread_startup establish
      [sys_inv].
    - Checks: decision procedures for the invariants on concrete kernels.
    - DataRuns, Scenarios, IpcRuns, MemRuns, DevRuns, DriverRuns, FlashRuns, QueueRuns, I2cRuns: concrete inputs and runs of the model, and the
      theorems applied to them.

    ** How code becomes definitions

    A C function is the definition of the same name, a computation [M kernel A] (or on
    a part of the kernel, lifted by [on_sched], [on_timers], [on_objs]).  Sections
    between rt_hw_interrupt_disable and _enable are atomic; where a function enables
    interrupts in the middle (message queues, the thread of a work queue) its sections are separate definitions
    and a step relation interleaves them.  A call that blocks ends at its rt_schedule
    with [inr] of what it keeps on its stack; the rest of its body is the definition
    with suffix [_resume].  Objects are identified by numbers in place of addresses;
    rt_malloc is an argument ([option] of the number of the new block).  The
    configuration is that of rtconfig.h: one processor, 32 priorities, 1000 ticks per
    second, alignment 4, names of 8 bytes, soft timers, no signals, no modules,
    RT_DEBUG off (RT_ASSERT is empty), hooks unset.

    ** What the theorems show

    - Scheduler: rt_schedule runs the highest ready priority, takes turns within a
      priority at the end of a slice, keeps [sinv].
    - Time: the tick interrupt terminates, wakes every thread whose timeout came and
      leaves the timer list ordered (across the wrap-around of the 32-bit tick).
    - Threads: starting, sleeping, timing out, ending and reaping keep all invariants
      and have the intended effect; rtthread_startup establishes the invariants.
    - IPC: each operation on every branch, refinement of an abstract counting
      semaphore and of a FIFO queue under all interleavings, priority inheritance.
    - Devices: with every driver that keeps its contract ([DriverSpec]) all sequences of
      device and console calls are defined and keep the invariants, reference counts are
      open sessions, names are unique; serial reception is a lossy bounded queue under all
      interleavings of interrupts with reads; data queues are bounded FIFO queues, and DMA
      transmission sends the written blocks in order.
    - Output: rt_vsnprintf stays within its buffer and truncates the text; numbers are laid
      out as asked for and read back as themselves.
    - Data: lists refine the queue store, ring buffers refine byte sequences, the
      bit scan and string search agree with their specifications.
    - Memory: rt_malloc never hands out memory that is in use and never touches the data
      of allocated blocks, rt_free merges and gives back exactly the block, rt_realloc
      keeps the contents, rt_calloc zeroes; pool blocks are handed out once.
    - System: power-on establishes the invariants of all components together, every kernel
      call keeps them whatever object it works on, and so in every reachable state every
      call of a running thread that respects its contract is defined ([system_safe]).
    - Wait and work queues: no waiting thread is forgotten; a work queue refines a FIFO
      queue and never sleeps on its works, under two conditions that the code does not enforce.
    - Ring blocks: the blocks of a ring block buffer lie inside its area and never overlap.
    - I2C: what is on the bus during a transfer is a transaction the bus allows for the messages,
      with its result; transfers end even if a slave holds the clock.
    - Storage: table-driven check sums agree with the shift register and detect bursts; flash
      partitions are isolated from each other down to the HAL, whatever the calls return;
      the stored configuration survives a restart, and a damaged one is replaced by the
      default.
    - Deviations: overflow of counters, lost ring-buffer contents, the wrong delay of
      rt_thread_delay_until and others are theorems, too.

    ** Bounds and fuel

    Loops over lists take fuel or recurse on the list; the theorems give a fuel that
    suffices (the number of due timers plus one for rt_timer_check, the length of the
    defunct list plus one for the idle work, the length of the ring for rt_list_len)
    and show that the result is there.  Integers carry their C width.

    ** Not modelled

    The SMP variants, signals and modules (compiled out), the slab and memheap
    allocators (not selected), the linker-section walk of the component initialisers, the
    context switch itself (assembly), the board drivers but the flash one (hardware access through the
    vendor HAL; a parameter of the device and serial models), the POSIX part of serial.c, the rest of the
    C++ application and the other RT-Thread components.
    rt_ffs is the table search of kservice.c.  The creation functions
    (rt_thread_create, rt_sem_create and so on) take the address that rt_malloc returns as
    an argument and do not run the model of rt_malloc.  The NOR flash of the upper board is left out. *)
From stdpp Require Import base gmap sets list strings.
From Stdlib Require Import ZArith Lia.

(** ** Scope and machine-width integers *)

Declare Scope rt_scope.
Delimit Scope rt_scope with rt.
Open Scope Z_scope.
Open Scope rt_scope.

(** The unsigned types of rtdef.h: a value of width [w] is kept in [Z] and
    every arithmetic result is brought back by [wrap w]. *)
Definition wrap (w z : Z) : Z := z mod 2 ^ w.

Abbreviation u8 := (wrap 8).
Abbreviation u16 := (wrap 16).
Abbreviation u32 := (wrap 32).

(** Conversion to a signed type of width [w] (two's complement). *)
Definition swrap (w z : Z) : Z :=
  let u := wrap w z in if bool_decide (u < 2 ^ (w - 1)) then u else u - 2 ^ w.
Abbreviation s16 := (swrap 16).
Abbreviation s32 := (swrap 32).

(** RT_ALIGN and RT_ALIGN_DOWN of rtdef.h for RT_ALIGN_SIZE = 4. *)
Definition RT_ALIGN_SIZE : Z := 4.
Definition RT_ALIGN (size : Z) : Z :=
  Z.land (u32 (size + RT_ALIGN_SIZE - 1)) (Z.lnot (RT_ALIGN_SIZE - 1)).
Definition RT_ALIGN_DOWN (size : Z) : Z :=
  Z.land size (Z.lnot (RT_ALIGN_SIZE - 1)).

Lemma wrap_range w z : 0 <= w -> 0 <= wrap w z < 2 ^ w.
Proof. intros; apply Z.mod_pos_bound; lia. Qed.

Lemma wrap_id w z : 0 <= z < 2 ^ w -> wrap w z = z.
Proof. apply Z.mod_small. Qed.

Lemma swrap_id w z : 0 < w -> - 2 ^ (w - 1) <= z < 2 ^ (w - 1) -> swrap w z = z.
Proof.
  intros Hw Hz. unfold swrap, wrap.
  assert (2 ^ w = 2 * 2 ^ (w - 1)) by (rewrite <- Z.pow_succ_r by lia; f_equal; lia).
  destruct (decide (0 <= z)).
  - rewrite Z.mod_small by lia. by rewrite bool_decide_true by lia.
  - rewrite <- (Z.mod_add z 1) by lia. rewrite Z.mod_small by lia.
    rewrite bool_decide_false; lia.
Qed.

Lemma align_down_eq z : RT_ALIGN_DOWN z = 4 * (z / 4).
Proof.
  unfold RT_ALIGN_DOWN, RT_ALIGN_SIZE.
  change (Z.lnot (4 - 1)) with (Z.lnot (Z.ones 2)).
  rewrite <- Z.ldiff_land, Z.ldiff_ones_r by lia.
  rewrite Z.shiftl_mul_pow2, Z.shiftr_div_pow2 by lia.
  change (2 ^ 2) with 4. lia.
Qed.

Lemma align_eq z : 0 <= z < 2 ^ 32 - 3 -> RT_ALIGN z = 4 * ((z + 3) / 4).
Proof.
  intros H. unfold RT_ALIGN, RT_ALIGN_SIZE.
  rewrite wrap_id by lia. replace (z + 4 - 1) with (z + 3) by lia. apply align_down_eq.
Qed.

Lemma land_le_l a b : 0 <= a -> Z.land a b <= a.
Proof.
  intros Ha. apply Z.ldiff_le; [done|]. apply Z.bits_inj'. intros i Hi.
  rewrite Z.ldiff_spec, Z.land_spec, Z.bits_0.
  by destruct (Z.testbit a i), (Z.testbit b i).
Qed.

Lemma testbit_pow2 p j : 0 <= p -> 0 <= j -> Z.testbit (2 ^ p) j = bool_decide (p = j).
Proof. intros Hp Hj. rewrite Z.pow2_bits_eqb by lia. by destruct (Z.eqb_spec p j); case_bool_decide. Qed.

Lemma lor_range a b n : 0 <= n -> 0 <= a < 2 ^ n -> 0 <= b < 2 ^ n -> 0 <= Z.lor a b < 2 ^ n.
Proof.
  intros Hn Ha Hb. split; [apply Z.lor_nonneg; lia|].
  destruct (decide (Z.lor a b = 0)) as [->|Hz]; [lia|].
  assert (0 <= Z.lor a b) by (apply Z.lor_nonneg; lia).
  apply Z.log2_lt_pow2; [lia|]. rewrite Z.log2_lor by lia.
  assert (n <> 0).
  { intros ->. change (2 ^ 0) with 1 in *. assert (a = 0) by lia. assert (b = 0) by lia. by subst. }
  assert (forall z, 0 <= z < 2 ^ n -> Z.log2 z < n).
  { intros z Hz'. destruct (decide (z = 0)) as [->|]; [cbn; lia|]. apply Z.log2_lt_pow2; lia. }
  apply Z.max_lub_lt; auto.
Qed.

(** ** The state monad with undefined behaviour

    A C function that reads and writes a state [S] is a function from [S] to
    [option (A * S)].  [None] stands for undefined behaviour: a dereference
    of a dead object, a corrupted intrusive list, an index outside an array.
    The theorems of the components show that it does not happen. *)

Definition M (S A : Type) : Type := S -> option (A * S).

Definition ub {S A} : M S A := fun _ => None.
Definition gets {S A} (f : S -> A) : M S A := fun s => Some (f s, s).
Definition modify {S} (f : S -> S) : M S unit := fun s => Some (tt, f s).
Definition liftO {S A} (o : option A) : M S A :=
  fun s => match o with Some a => Some (a, s) | None => None end.
Definition zoom {S T A} (get : S -> T) (set : T -> S -> S) (c : M T A) : M S A :=
  fun s => match c (get s) with
           | Some (a, t) => Some (a, set t s)
           | None => None
           end.

#[export] Instance M_ret {S} : MRet (M S) := fun A a s => Some (a, s).
#[export] Instance M_bind {S} : MBind (M S) := fun A B k c s =>
  match c s with Some (a, s') => k a s' | None => None end.

(** Total correctness: from a state in [P] the call is defined and ends in [Q]. *)
Definition triple {S A} (P : S -> Prop) (c : M S A) (Q : A -> S -> Prop) : Prop :=
  forall s, P s -> exists a s', c s = Some (a, s') /\ Q a s'.

Section Triples.
Context {S : Type}.

Lemma bind_run {A B} (c : M S A) (k : A -> M S B) s a s' :
  c s = Some (a, s') -> (c ≫= k) s = k a s'.
Proof. intros H. unfold mbind, M_bind. by rewrite H. Qed.

Lemma triple_bind {A B} P (Q : A -> S -> Prop) R (c : M S A) (k : A -> M S B) :
  triple P c Q -> (forall a, triple (Q a) (k a) R) -> triple P (c ≫= k) R.
Proof.
  intros Hc Hk s Hs. destruct (Hc s Hs) as (a & s1 & E & HQ).
  rewrite (bind_run _ _ _ _ _ E). by apply Hk.
Qed.

Lemma triple_conseq {A} (P P' : S -> Prop) (Q Q' : A -> S -> Prop) c :
  triple P' c Q' -> (forall s, P s -> P' s) -> (forall a s, Q' a s -> Q a s) ->
  triple P c Q.
Proof. intros H HP HQ s Hs. destruct (H s (HP s Hs)) as (a & s' & E & ?). eauto. Qed.

Lemma triple_ret {A} (P : S -> Prop) (Q : A -> S -> Prop) a :
  (forall s, P s -> Q a s) -> triple P (mret a) Q.
Proof. intros H s Hs. exists a, s. split; [done | auto]. Qed.

Lemma triple_gets {A} (P : S -> Prop) (Q : A -> S -> Prop) (f : S -> A) :
  (forall s, P s -> Q (f s) s) -> triple P (gets f) Q.
Proof. intros H s Hs. exists (f s), s. split; [done | auto]. Qed.

Lemma triple_modify (P : S -> Prop) (Q : unit -> S -> Prop) (f : S -> S) :
  (forall s, P s -> Q tt (f s)) -> triple P (modify f) Q.
Proof. intros H s Hs. exists tt, (f s). split; [done | auto]. Qed.
End Triples.

(** Unfolds the monadic combinators of a goal into nested matches. *)
Tactic Notation "munfold" "in" hyp(H) :=
  cbv beta iota delta [mbind M_bind mret M_ret gets modify liftO zoom ub] in H.
Ltac munfold :=
  cbv beta iota delta [mbind M_bind mret M_ret gets modify liftO zoom ub].

(** Runs monadic steps whose outcome is known from the context. *)
Ltac mrun :=
  repeat first
    [ progress munfold
    | match goal with
      | H : ?c ?s = Some _ |- context [?c ?s] => rewrite H
      end ].

(** ** Generic lemmas on lists *)

Section Lists.
Context {A : Type} `{EqDecision A}.
Implicit Types (l : list A) (x y : A).

(** Removing a node from a list without duplicates. *)
Definition list_del (x : A) (l : list A) : list A := filter (fun y => y <> x) l.

Lemma elem_of_list_del x y l : y ∈ list_del x l <-> y ∈ l /\ y <> x.
Proof. unfold list_del. rewrite list_elem_of_filter. tauto. Qed.

Lemma list_del_notin x l : x ∉ l -> list_del x l = l.
Proof.
  induction l as [|y l IH]; intros H; [done|]. unfold list_del.
  rewrite filter_cons. apply not_elem_of_cons in H as [H1 H2].
  rewrite decide_True by done. f_equal. by apply IH.
Qed.

Lemma NoDup_list_del x l : NoDup l -> NoDup (list_del x l).
Proof. apply NoDup_filter. Qed.

Lemma list_del_app x l1 l2 : list_del x (l1 ++ l2) = list_del x l1 ++ list_del x l2.
Proof. apply filter_app. Qed.

Lemma list_del_middle x l1 l2 :
  x ∉ l1 -> x ∉ l2 -> list_del x (l1 ++ x :: l2) = l1 ++ l2.
Proof.
  intros H1 H2. rewrite list_del_app, (list_del_notin x l1) by done.
  f_equal. unfold list_del. rewrite filter_cons, decide_False by (intros H; by apply H).
  by apply list_del_notin.
Qed.

Lemma list_del_head x l : NoDup (x :: l) -> list_del x (x :: l) = l.
Proof. intros [H _]%NoDup_cons. by apply (list_del_middle x [] l); [apply not_elem_of_nil|]. Qed.
End Lists.

Create HintDb rt.
#[export] Hint Resolve NoDup_list_del : rt.
