(* ===== verification/RtList.v ===== *)
(** * Intrusive doubly linked lists (rt-thread/include/rtservice.h)

    [mem] is the part of the memory that holds [struct rt_list_node] cells.
    The pointer operations are modelled statement by statement; [is_ring]
    says that the cells reachable from a head form one circular list, and the
    refinement theorems show that the pointer operations implement the queue
    store [gmap H (list N)] that the kernel components are built on. *)
From S2P Require Import Prelude.
From stdpp Require Import base gmap sets list.
From Stdlib Require Import ZArith Lia.
#[local] Open Scope Z_scope.

(** struct rt_list_node *)
Record rt_list_node (addr : Type) := ListNode { ln_next : addr; ln_prev : addr }.
Arguments ListNode {addr} _ _.
Arguments ln_next {addr} _.
Arguments ln_prev {addr} _.

Section Pointers.
Context {addr : Type} `{Countable addr}.
Abbreviation mem := (gmap addr (rt_list_node addr)).
Implicit Types (m : mem) (a b n p q x y : addr) (l : list addr).

Definition rd_next a : M mem addr := fun m =>
  match m !! a with Some c => Some (ln_next c, m) | None => None end.
Definition rd_prev a : M mem addr := fun m =>
  match m !! a with Some c => Some (ln_prev c, m) | None => None end.
Definition wr_next a v : M mem unit := fun m =>
  match m !! a with
  | Some c => Some (tt, <[a := ListNode v (ln_prev c)]> m)
  | None => None
  end.
Definition wr_prev a v : M mem unit := fun m =>
  match m !! a with
  | Some c => Some (tt, <[a := ListNode (ln_next c) v]> m)
  | None => None
  end.

Definition rt_list_init (l : addr) : M mem unit :=
  wr_prev l l ;; wr_next l l.

Definition rt_list_insert_after (l n : addr) : M mem unit :=
  nx ← rd_next l; wr_prev nx n ;;
  nx ← rd_next l; wr_next n nx ;;
  wr_next l n ;;
  wr_prev n l.

Definition rt_list_insert_before (l n : addr) : M mem unit :=
  pv ← rd_prev l; wr_next pv n ;;
  pv ← rd_prev l; wr_prev n pv ;;
  wr_prev l n ;;
  wr_next n l.

Definition rt_list_remove (n : addr) : M mem unit :=
  nx ← rd_next n; pv ← rd_prev n; wr_prev nx pv ;;
  pv ← rd_prev n; nx ← rd_next n; wr_next pv nx ;;
  wr_prev n n ;; wr_next n n.

Definition rt_list_isempty (l : addr) : M mem bool :=
  nx ← rd_next l; mret (bool_decide (nx = l)).

(** The counting loop; [fuel] bounds the walk, [None] on exhaustion. *)
Fixpoint rt_list_len_from (fuel : nat) (l p : addr) (len : Z) : M mem Z :=
  match fuel with
  | O => ub
  | S fuel =>
      nx ← rd_next p;
      if bool_decide (nx = l) then mret len
      else rt_list_len_from fuel l nx (u32 (len + 1))
  end.
Definition rt_list_len (fuel : nat) (l : addr) : M mem Z :=
  rt_list_len_from fuel l l 0.

(** ** Rings *)

Definition nxt m a : option addr := ln_next <$> m !! a.
Definition prv m a : option addr := ln_prev <$> m !! a.

Fixpoint chain m a l b : Prop :=
  match l with
  | [] => nxt m a = Some b /\ prv m b = Some a
  | x :: l => nxt m a = Some x /\ prv m x = Some a /\ chain m x l b
  end.

Definition is_ring m h l : Prop := chain m h l h /\ NoDup (h :: l).

Lemma chain_app m a l1 x l2 b :
  chain m a (l1 ++ x :: l2) b <-> chain m a l1 x /\ chain m x l2 b.
Proof. revert a; induction l1 as [|y l1 IH]; intros a; cbn; [|rewrite IH]; tauto. Qed.

Lemma chain_frame m m' a l b :
  chain m a l b ->
  (forall x, x ∈ a :: l -> nxt m' x = nxt m x) ->
  (forall x, x ∈ l ++ [b] -> prv m' x = prv m x) ->
  chain m' a l b.
Proof.
  revert a; induction l as [|y l IH]; intros a Hc Hn Hp; cbn in *.
  - destruct Hc as [Hc1 Hc2]. rewrite Hn, Hp by set_solver. done.
  - destruct Hc as (Hc1 & Hc2 & Hc3). rewrite Hn, Hp by set_solver.
    split_and!; [done..|]. apply IH; set_solver.
Qed.

(** Relinking the end of a chain to another successor. *)
Lemma chain_relink m m' a l b p b' :
  chain m a l b -> NoDup (a :: l) ->
  nxt m p = Some b -> p ∈ a :: l ->
  (forall x, x ∈ a :: l -> x <> p -> nxt m' x = nxt m x) ->
  (forall x, x ∈ l -> prv m' x = prv m x) ->
  nxt m' p = Some b' -> prv m' b' = Some p -> b ∉ l ->
  chain m' a l b'.
Proof.
  revert a; induction l as [|y l IH]; intros a Hc Hd Hpb Hin Hn Hp Hn' Hp' Hb; cbn in *.
  - apply list_elem_of_singleton in Hin as ->. done.
  - destruct Hc as (Hc1 & Hc2 & Hc3). apply NoDup_cons in Hd as [Hd1 Hd2].
    apply not_elem_of_cons in Hb as [Hb1 Hb2].
    assert (p <> a) by (intros ->; congruence).
    rewrite Hn, Hp by set_solver. split_and!; [done..|].
    apply elem_of_cons in Hin as [Hin|Hin]; [congruence|].
    apply IH; try done; set_solver.
Qed.

Lemma chain_last m a l b :
  chain m a l b -> exists p, p ∈ a :: l /\ nxt m p = Some b /\ prv m b = Some p.
Proof.
  revert a; induction l as [|y l IH]; intros a Hc; cbn in *.
  - exists a. set_solver.
  - destruct Hc as (_ & _ & Hc). destruct (IH y Hc) as (p & Hp & ?). exists p. set_solver.
Qed.

(** The effect of the three mutators on the two link functions. *)
Definition relinked m m' (fn fp : addr -> option addr) : Prop :=
  dom m' = dom m /\ (forall x, nxt m' x = fn x) /\ (forall x, prv m' x = fp x).

Lemma nxt_Some m a b : nxt m a = Some b -> exists c, m !! a = Some c /\ ln_next c = b.
Proof. unfold nxt. destruct (m !! a); naive_solver. Qed.
Lemma prv_Some m a b : prv m a = Some b -> exists c, m !! a = Some c /\ ln_prev c = b.
Proof. unfold prv. destruct (m !! a); naive_solver. Qed.

Lemma rd_next_ok m a b : nxt m a = Some b -> rd_next a m = Some (b, m).
Proof. intros (c & E & <-)%nxt_Some. unfold rd_next. by rewrite E. Qed.
Lemma rd_prev_ok m a b : prv m a = Some b -> rd_prev a m = Some (b, m).
Proof. intros (c & E & <-)%prv_Some. unfold rd_prev. by rewrite E. Qed.

Lemma wr_next_ok m a v :
  a ∈ dom m -> exists m', wr_next a v m = Some (tt, m') /\
    relinked m m' (fun x => if decide (x = a) then Some v else nxt m x) (prv m).
Proof.
  intros [c Hc]%elem_of_dom. unfold wr_next. rewrite Hc. eexists. split; [done|].
  split_and!; [rewrite dom_insert_L; apply elem_of_dom_2 in Hc; set_solver| |];
    intros x; unfold nxt, prv; rewrite lookup_insert;
    repeat case_decide; subst; rewrite ?Hc; naive_solver.
Qed.
Lemma wr_prev_ok m a v :
  a ∈ dom m -> exists m', wr_prev a v m = Some (tt, m') /\
    relinked m m' (nxt m) (fun x => if decide (x = a) then Some v else prv m x).
Proof.
  intros [c Hc]%elem_of_dom. unfold wr_prev. rewrite Hc. eexists. split; [done|].
  split_and!; [rewrite dom_insert_L; apply elem_of_dom_2 in Hc; set_solver| |];
    intros x; unfold nxt, prv; rewrite lookup_insert;
    repeat case_decide; subst; rewrite ?Hc; naive_solver.
Qed.

Lemma nxt_dom m a b : nxt m a = Some b -> a ∈ dom m.
Proof. intros (c & E & _)%nxt_Some. by apply elem_of_dom_2 in E. Qed.
Lemma prv_dom m a b : prv m a = Some b -> a ∈ dom m.
Proof. intros (c & E & _)%prv_Some. by apply elem_of_dom_2 in E. Qed.
End Pointers.

(** Symbolic execution of the pointer code: each step is discharged by the
    corresponding read or write lemma. *)
Ltac ptr_val :=
  repeat match goal with
  | H : forall x, nxt ?m x = _ |- context [nxt ?m _] => rewrite H
  | H : forall x, prv ?m x = _ |- context [prv ?m _] => rewrite H
  end; repeat case_decide; try congruence; try reflexivity; try eassumption.
Ltac ptr_dom :=
  repeat match goal with H : dom ?m = dom _ |- _ ∈ dom ?m => rewrite H end;
  first [ eassumption | eapply nxt_dom; eassumption | eapply prv_dom; eassumption ].
Ltac ptr_write lem :=
  let m' := fresh "m" in let E := fresh "E" in
  let D := fresh "D" in let N := fresh "N" in let P := fresh "P" in
  destruct lem as (m' & E & D & N & P); [ptr_dom | rewrite E; clear E].
Ltac ptr_step :=
  munfold;
  match goal with
  | |- context [match rd_next ?a ?m with _ => _ end] =>
      erewrite (rd_next_ok m a) by (ptr_val)
  | |- context [match rd_prev ?a ?m with _ => _ end] =>
      erewrite (rd_prev_ok m a) by (ptr_val)
  | |- context [wr_next ?a ?v ?m] => ptr_write (wr_next_ok m a v)
  | |- context [wr_prev ?a ?v ?m] => ptr_write (wr_prev_ok m a v)
  end.

Section Rings.
Context {addr : Type} `{Countable addr}.
Abbreviation mem := (gmap addr (rt_list_node addr)).
Implicit Types (m : mem) (a b h n p q x y : addr) (l : list addr).

(** [n] linked between the neighbours [p] and [q]. *)
Definition linked_between m m' p n q : Prop :=
  relinked m m'
    (fun x => if decide (x = n) then Some q else if decide (x = p) then Some n else nxt m x)
    (fun x => if decide (x = n) then Some p else if decide (x = q) then Some n else prv m x).

Lemma insert_after_effect m p q n :
  nxt m p = Some q -> prv m q = Some p -> n ∈ dom m -> n <> p -> n <> q ->
  exists m', rt_list_insert_after p n m = Some (tt, m') /\ linked_between m m' p n q.
Proof.
  intros Hn Hp Hd Hnp Hnq. unfold rt_list_insert_after.
  repeat ptr_step. eexists; split; [done|].
  split_and!; [congruence| |]; intros x; ptr_val; repeat case_decide; congruence.
Qed.

Lemma insert_before_effect m p q n :
  nxt m p = Some q -> prv m q = Some p -> n ∈ dom m -> n <> p -> n <> q ->
  exists m', rt_list_insert_before q n m = Some (tt, m') /\ linked_between m m' p n q.
Proof.
  intros Hn Hp Hd Hnp Hnq. unfold rt_list_insert_before.
  repeat ptr_step. eexists; split; [done|].
  split_and!; [congruence| |]; intros x; ptr_val; repeat case_decide; congruence.
Qed.

Lemma remove_effect m p q n :
  nxt m n = Some q -> prv m n = Some p -> p ∈ dom m -> q ∈ dom m ->
  (p = n <-> q = n) ->
  exists m', rt_list_remove n m = Some (tt, m') /\
    relinked m m'
      (fun x => if decide (x = n) then Some n else if decide (x = p) then Some q else nxt m x)
      (fun x => if decide (x = n) then Some n else if decide (x = q) then Some p else prv m x).
Proof.
  intros Hn Hp Hdp Hdq Hpq. unfold rt_list_remove.
  ptr_step. ptr_step. ptr_step.
  erewrite rd_prev_ok by (ptr_val; f_equal; naive_solver).
  repeat ptr_step. eexists; split; [done|].
  split_and!; [congruence| |]; intros x; ptr_val; repeat case_decide; naive_solver congruence.
Qed.

Lemma ring_frame m m' h l :
  is_ring m h l -> (forall x, x ∈ h :: l -> nxt m' x = nxt m x /\ prv m' x = prv m x) ->
  is_ring m' h l.
Proof.
  intros [Hc Hd] Hf. split; [|done].
  apply (chain_frame m); [done| |]; intros x Hx; apply Hf; set_solver.
Qed.

(** The two neighbours at a position of a ring. *)
Lemma ring_split m h l1 l2 :
  is_ring m h (l1 ++ l2) ->
  exists p, p ∈ h :: l1 /\ chain m h l1 (List.hd h l2) /\
    nxt m p = Some (List.hd h l2) /\ prv m (List.hd h l2) = Some p.
Proof.
  intros [Hc _].
  assert (Hc1 : chain m h l1 (List.hd h l2)).
  { destruct l2 as [|y l2]; [by rewrite app_nil_r in Hc|]. by apply chain_app in Hc as [? _]. }
  destruct (chain_last _ _ _ _ Hc1) as (p & ? & ? & ?). by exists p.
Qed.

Lemma NoDup_ring h l1 l2 :
  NoDup (h :: l1 ++ l2) ->
  h ∉ l1 /\ h ∉ l2 /\ NoDup l1 /\ NoDup l2 /\ (forall x, x ∈ l1 -> x ∉ l2).
Proof.
  intros [Hh (H1 & H2 & H3)%NoDup_app]%NoDup_cons.
  apply not_elem_of_app in Hh as [??]. by split_and!.
Qed.

Lemma NoDup_ring_hd h l1 l2 : NoDup (h :: l1 ++ l2) -> List.hd h l2 ∉ l1.
Proof.
  intros (H1 & H2 & _ & _ & H3)%NoDup_ring. destruct l2 as [|y l2]; cbn; [done|].
  intros Hy. apply (H3 y Hy). set_solver.
Qed.

Lemma NoDup_ring_middle h l1 n l2 :
  NoDup (h :: l1 ++ n :: l2) <-> n ∉ h :: l1 ++ l2 /\ NoDup (h :: l1 ++ l2).
Proof.
  assert (E : h :: l1 ++ n :: l2 ≡ₚ n :: h :: l1 ++ l2).
  { rewrite <- Permutation_middle. apply perm_swap. }
  rewrite E. apply NoDup_cons.
Qed.

Lemma ring_insert m m' h l1 l2 p n :
  is_ring m h (l1 ++ l2) -> p ∈ h :: l1 -> nxt m p = Some (List.hd h l2) ->
  n ∉ h :: l1 ++ l2 -> linked_between m m' p n (List.hd h l2) ->
  is_ring m' h (l1 ++ n :: l2).
Proof.
  intros Hr Hp Hnp Hn (_ & HN & HP). pose proof Hr as [Hc Hd].
  split; [|by apply NoDup_ring_middle].
  destruct (ring_split m h l1 l2 Hr) as (p' & _ & Hc1 & _ & _).
  pose proof (NoDup_ring_hd _ _ _ Hd) as Hhd.
  apply NoDup_ring in Hd as (Hd1 & Hd2 & Hd3 & Hd4 & Hd5).
  assert (Hq : List.hd h l2 <> n) by (destruct l2; set_solver).
  apply chain_app; split.
  - apply (chain_relink m m' _ _ (List.hd h l2) p); try done.
    + by apply NoDup_cons.
    + intros x Hx Hxp. rewrite HN, !decide_False by set_solver. done.
    + intros x Hx. rewrite HP, !decide_False by set_solver. done.
    + rewrite HN, decide_False, decide_True by set_solver. done.
    + by rewrite HP, decide_True.
  - assert (Hnn : nxt m' n = Some (List.hd h l2)) by (by rewrite HN, decide_True).
    assert (Hqn : prv m' (List.hd h l2) = Some n).
    { by rewrite HP, decide_False, decide_True. }
    destruct l2 as [|y l2]; cbn in *; [done|]. split_and!; [done..|].
    apply chain_app in Hc as [_ Hc2]. apply NoDup_cons in Hd4 as [Hd4 _].
    apply (chain_frame m); [done| |]; intros x Hx.
    + rewrite HN, !decide_False by set_solver. done.
    + rewrite HP, !decide_False by set_solver. done.
Qed.

Lemma ring_remove m h l1 n l2 :
  is_ring m h (l1 ++ n :: l2) ->
  exists m', rt_list_remove n m = Some (tt, m') /\
    is_ring m' h (l1 ++ l2) /\ is_ring m' n [] /\ dom m' = dom m /\
    (forall x, x ∉ h :: l1 ++ n :: l2 -> nxt m' x = nxt m x /\ prv m' x = prv m x).
Proof.
  intros Hr. pose proof Hr as [Hc Hd].
  destruct (ring_split m h l1 (n :: l2) Hr) as (p & Hp & Hc1 & Hpn & Hnp).
  replace (l1 ++ n :: l2) with ((l1 ++ [n]) ++ l2) in Hr by (by rewrite <- app_assoc).
  destruct (ring_split m h (l1 ++ [n]) l2 Hr) as (n' & _ & Hc2 & Hnq & Hqn).
  apply chain_app in Hc2 as [_ [Hn'1 Hn'2]].
  apply chain_app in Hc as [_ Hc3].
  set (q := List.hd h l2) in *. cbn [List.hd] in *.
  apply NoDup_ring_middle in Hd as [Hn Hd]. pose proof (NoDup_ring_hd _ _ _ Hd) as Hhd.
  pose proof Hd as Hd'. apply NoDup_ring in Hd' as (Hd1 & Hd2 & Hd3 & Hd4 & Hd5).
  assert (Hqne : q <> n) by (unfold q; destruct l2; set_solver).
  assert (Hpne : p <> n) by set_solver.
  destruct (remove_effect m p q n) as (m' & E & D & HN & HP); [done..|by eapply nxt_dom|by eapply prv_dom|naive_solver|].
  exists m'. split_and!; [done| | |done|]; cycle 1.
  - split; [|apply NoDup_singleton]. cbn. by rewrite HN, HP, !decide_True.
  - intros x Hx. rewrite HN, HP, !decide_False by (unfold q; destruct l2; set_solver). done.
  - split; [|done].
    assert (Hl1 : chain m' h l1 q).
    { apply (chain_relink m m' _ _ n p); try done; [by apply NoDup_cons|..|set_solver].
      - intros x Hx Hxp. rewrite HN, !decide_False by set_solver. done.
      - intros x Hx. rewrite HP, !decide_False by set_solver. done.
      - by rewrite HN, decide_False, decide_True.
      - by rewrite HP, decide_False, decide_True. }
    destruct l2 as [|y l2]; cbn in *; subst q; [by rewrite app_nil_r|].
    apply chain_app; split; [done|]. apply NoDup_cons in Hd4 as [Hd4 _].
    apply (chain_frame m); [tauto| |]; intros x Hx.
    + rewrite HN, !decide_False by set_solver. done.
    + rewrite HP, !decide_False by set_solver. done.
Qed.

Lemma ring_remove_self m n :
  is_ring m n [] ->
  exists m', rt_list_remove n m = Some (tt, m') /\ dom m' = dom m /\
    (forall x, nxt m' x = nxt m x /\ prv m' x = prv m x).
Proof.
  intros [[Hn Hp] _].
  destruct (remove_effect m n n n) as (m' & E & D & HN & HP); [done..|by eapply nxt_dom|by eapply nxt_dom|done|].
  exists m'. split_and!; [done..|]. intros x. rewrite HN, HP. repeat case_decide; subst; done.
Qed.

Lemma ring_isempty m h l :
  is_ring m h l -> rt_list_isempty h m = Some (bool_decide (l = []), m).
Proof.
  intros [Hc Hd]. unfold rt_list_isempty. apply NoDup_cons in Hd as [Hd _].
  assert (Hn : nxt m h = Some (List.hd h l)) by (destruct l; cbn in *; tauto).
  munfold. rewrite (rd_next_ok _ _ _ Hn). do 2 f_equal. apply bool_decide_ext.
  destruct l; cbn; set_solver.
Qed.
End Rings.

Section Length.
Context {addr : Type} `{Countable addr}.
Implicit Types (m : gmap addr (rt_list_node addr)).

Lemma rt_list_len_from_ok m h (l : list addr) a len fuel :
  chain m a l h -> h ∉ l -> (length l < fuel)%nat ->
  rt_list_len_from fuel h a len m =
    Some (if decide (l = []) then len else u32 (len + Z.of_nat (length l)), m).
Proof.
  revert a len fuel; induction l as [|x l IH]; intros a len fuel Hc Hh Hf;
    (destruct fuel as [|fuel]; cbn in Hf; [lia|]); cbn [rt_list_len_from]; munfold.
  - destruct Hc as [Hc _]. rewrite (rd_next_ok _ _ _ Hc). by rewrite bool_decide_true.
  - destruct Hc as (Hc1 & _ & Hc2). rewrite (rd_next_ok _ _ _ Hc1).
    rewrite bool_decide_false by set_solver.
    rewrite (IH x _ fuel Hc2) by (first [lia | set_solver]). do 2 f_equal.
    case_decide; subst; cbn [length]; [f_equal; lia|].
    unfold wrap. rewrite Zplus_mod_idemp_l. f_equal; lia.
Qed.

(** Rt_list_len terminates on every ring and returns the number of its nodes. *)
Theorem list_len_correct m h (l : list addr) fuel :
  is_ring m h l -> (length l < fuel)%nat -> Z.of_nat (length l) < 2 ^ 32 ->
  rt_list_len fuel h m = Some (Z.of_nat (length l), m).
Proof.
  intros [Hc Hnd] Hf Hl. apply NoDup_cons in Hnd as [Hh _]. unfold rt_list_len.
  rewrite (rt_list_len_from_ok m h l h 0 fuel Hc Hh Hf). do 2 f_equal.
  case_decide; subst; [done|]. rewrite Z.add_0_l. apply wrap_id. lia.
Qed.
End Length.

(** ** The queue store

    The kernel keeps every thread node, timer node and object node on at most
    one list.  [gmap H (list N)] maps each list head to the nodes behind it;
    linking a node that is already on a list is undefined behaviour, as it
    would corrupt both rings. *)
Section Queues.
Context {H N : Type} `{Countable H, Countable N}.
Abbreviation queues := (gmap H (list N)).
Implicit Types (q : queues) (h : H) (n x : N) (l : list N).

Definition q_free q n : Prop := map_Forall (fun _ l => n ∉ l) q.
#[global] Instance q_free_dec q n : Decision (q_free q n).
Proof. unfold q_free. apply _. Defined.

Definition qwf q : Prop :=
  (forall h l, q !! h = Some l -> NoDup l) /\
  (forall h1 h2 l1 l2 n, q !! h1 = Some l1 -> q !! h2 = Some l2 ->
     n ∈ l1 -> n ∈ l2 -> h1 = h2).

Definition q_init h : M queues unit := fun q =>
  match q !! h with
  | Some (_ :: _) => None
  | _ => Some (tt, <[h := []]> q)
  end.
Definition q_list h : M queues (list N) := fun q =>
  match q !! h with Some l => Some (l, q) | None => None end.
Definition q_isempty h : M queues bool := fun q =>
  match q !! h with Some l => Some (bool_decide (l = []), q) | None => None end.
Definition q_update h n (f : list N -> list N) : M queues unit := fun q =>
  match q !! h with
  | Some l => if decide (q_free q n) then Some (tt, <[h := f l]> q) else None
  | None => None
  end.
(** rt_list_init of the node inside an object: only safe while it is on no list. *)
Definition q_node_init n : M queues unit := fun q =>
  if decide (q_free q n) then Some (tt, q) else None.
Definition q_insert_before h n : M queues unit := q_update h n (fun l => l ++ [n]).
Definition q_insert_after h n : M queues unit := q_update h n (fun l => n :: l).
Definition q_remove n : M queues unit := modify (fmap (list_del n)).

(** The node list with [n] linked in front of the first [x]. *)
Fixpoint before_node x n l : list N :=
  match l with
  | [] => [n]
  | y :: l => if decide (y = x) then n :: y :: l else y :: before_node x n l
  end.
Definition q_insert_before_node h x n : M queues unit := q_update h n (before_node x n).

Lemma before_node_split x n l :
  x ∈ l -> exists l1 l2, l = l1 ++ x :: l2 /\ before_node x n l = l1 ++ n :: x :: l2.
Proof.
  induction l as [|y l IH]; intros Hx; [by apply not_elem_of_nil in Hx|]. cbn.
  case_decide as Hy.
  - subst. by exists [], l.
  - apply elem_of_cons in Hx as [Hx|Hx]; [done|].
    destruct (IH Hx) as (l1 & l2 & -> & ->). by exists (y :: l1), l2.
Qed.

(** The memory [m] holds the rings of the store [q]: one per head, and a
    self-linked cell for every node that is on no list. *)
Definition qrep (m : gmap (H + N) (rt_list_node (H + N))) q : Prop :=
  (forall h l, q !! h = Some l -> is_ring m (inl h) (inr <$> l)) /\
  (forall n, inr n ∈ dom m -> q_free q n -> is_ring m (inr n) []) /\
  qwf q.

Lemma inr_elem n l : inr n ∈ (inr <$> l : list (H + N)) <-> n ∈ l.
Proof. rewrite list_elem_of_fmap. naive_solver. Qed.

Lemma q_free_insert q h l l' n :
  q !! h = Some l -> q_free (<[h := l']> q) n <->
    n ∉ l' /\ (forall h' l0, h' <> h -> q !! h' = Some l0 -> n ∉ l0).
Proof.
  intros Hh. unfold q_free. rewrite <- insert_delete_eq.
  rewrite map_Forall_insert by apply lookup_delete_eq.
  apply and_iff_compat_l. unfold map_Forall. setoid_rewrite lookup_delete_Some.
  naive_solver.
Qed.

Lemma qwf_insert q h l l' n :
  qwf q -> q !! h = Some l -> q_free q n -> NoDup l' ->
  (forall x, x ∈ l' <-> x = n \/ x ∈ l) -> qwf (<[h := l']> q).
Proof.
  intros [Hd Hj] Hh Hf Hn' He. split.
  - intros h0 l0. rewrite lookup_insert. case_decide; naive_solver.
  - intros h1 h2 l1 l2 x. rewrite !lookup_insert.
    pose proof (Hf h l Hh). unfold q_free, map_Forall in Hf.
    repeat case_decide; subst; intros E1 E2; simplify_eq; rewrite ?He;
      intros ? ?; naive_solver.
Qed.

Lemma q_free_del q n : q_free (list_del n <$> q) n.
Proof.
  intros h l. rewrite lookup_fmap. destruct (q !! h) as [l0|]; [|done]. cbn. intros [= <-] Hin. by apply elem_of_list_del in Hin as [_ ?].
Qed.
Lemma q_del_free q n : q_free q n -> list_del n <$> q = q.
Proof.
  intros Hf. apply map_eq. intros h. rewrite lookup_fmap. destruct (q !! h) as [l|] eqn:El; [|done]. cbn. by rewrite list_del_notin by (by apply (Hf h l)).
Qed.
Lemma qwf_remove q n : qwf q -> qwf (list_del n <$> q).
Proof.
  intros [Hd Hj]. split.
  - intros h l. rewrite lookup_fmap, fmap_Some. intros (l0 & E & ->). eauto with rt.
  - intros h1 h2 l1 l2 x. rewrite !lookup_fmap, !fmap_Some.
    intros (k1 & E1 & ->) (k2 & E2 & ->) [? _]%elem_of_list_del [? _]%elem_of_list_del.
    eauto.
Qed.
End Queues.

Section Refinement.
Context {H N : Type} `{Countable H, Countable N}.
Implicit Types (m : gmap (H + N) (rt_list_node (H + N))).
Implicit Types (q : gmap H (list N)) (h : H) (n x : N) (l : list N).

(** Rewiring the ring of head [h] only: all other rings are kept. *)
Lemma qrep_update m m' q h l l' n :
  qrep m q -> q !! h = Some l -> q_free q n -> dom m' = dom m ->
  (forall x, x ∈ l' <-> x = n \/ x ∈ l) ->
  is_ring m' (inl h) (inr <$> l') ->
  (forall a, a ∉ inl h :: inr n :: (inr <$> l) -> nxt m' a = nxt m a /\ prv m' a = prv m a) ->
  qrep m' (<[h := l']> q).
Proof.
  intros (Hr & Hs & Hw) Hh Hf Hdom He Hr' Hk. split_and!.
  - intros h0 l0. rewrite lookup_insert. case_decide as Hne; [naive_solver|]. intros E.
    apply (ring_frame m); [by apply Hr|]. intros a Ha. apply Hk.
    assert (n ∉ l0) by (by apply (Hf h0 l0)).
    assert (forall y, y ∈ l0 -> y ∉ l).
    { intros y Hy Hy'. apply Hne. by apply (proj2 Hw h h0 l l0 y). }
    rewrite !not_elem_of_cons. apply elem_of_cons in Ha as [->|Ha].
    { split_and!; [congruence|done|]. rewrite list_elem_of_fmap. naive_solver. }
    apply list_elem_of_fmap in Ha as (y & -> & Hy). rewrite inr_elem.
    split_and!; [done| |naive_solver]. intros [= ->]. done.
  - intros y Hy Hfy. apply (q_free_insert q h l l' y Hh) in Hfy as [Hy1 Hy2].
    assert (y <> n /\ y ∉ l) as [Hy3 Hy4] by (rewrite He in Hy1; tauto).
    apply (ring_frame m).
    + apply Hs; [by rewrite <- Hdom|]. intros h0 l0 E.
      destruct (decide (h0 = h)) as [->|]; [congruence|by apply (Hy2 h0)].
    + intros a ->%list_elem_of_singleton. apply Hk.
      rewrite !not_elem_of_cons, inr_elem. naive_solver.
  - apply (qwf_insert q h l l' n); try done.
    destruct Hr' as [_ Hd]. apply NoDup_cons in Hd as [_ Hd]. by apply NoDup_fmap_1 in Hd.
Qed.

(** Linking [n] at a position of the ring of [h]. *)
Lemma qrep_insert m q h l1 l2 n (op : M _ unit) :
  qrep m q -> q !! h = Some (l1 ++ l2) -> q_free q n -> inr n ∈ dom m ->
  (forall p, p ∈ (inl h :: (inr <$> l1) : list (H + N)) ->
     nxt m p = Some (List.hd (inl h) (inr <$> l2)) ->
     prv m (List.hd (inl h) (inr <$> l2)) = Some p ->
     inr n <> p -> inr n <> List.hd (inl h) (inr <$> l2) ->
     exists m', op m = Some (tt, m') /\
       linked_between m m' p (inr n) (List.hd (inl h) (inr <$> l2))) ->
  exists m', op m = Some (tt, m') /\ qrep m' (<[h := l1 ++ n :: l2]> q).
Proof.
  intros Hq Hh Hf Hdn Hop. pose proof Hq as (Hr & _ & _).
  pose proof (Hr h _ Hh) as Hring. rewrite fmap_app in Hring.
  pose proof (Hf h _ Hh) as Hn. cbn in Hn.
  assert (Hn' : inr n ∉ (inl h :: (inr <$> l1) ++ (inr <$> l2) : list (H + N))).
  { rewrite <- fmap_app, not_elem_of_cons, inr_elem. done. }
  destruct (ring_split _ _ _ _ Hring) as (p & Hp & _ & Hp1 & Hp2).
  destruct (Hop p Hp Hp1 Hp2) as (m' & E & Hl); [set_solver| |].
  { destruct l2; set_solver. }
  exists m'. split; [done|].
  apply (qrep_update m m' q h (l1 ++ l2) _ n Hq Hh Hf); [by destruct Hl|..].
  - intros x. rewrite elem_of_app, elem_of_cons, elem_of_app. tauto.
  - rewrite fmap_app, fmap_cons. by eapply ring_insert.
  - destruct Hl as (_ & HN & HP). intros a Ha. rewrite fmap_app in Ha.
    rewrite HN, HP, !decide_False; [done|..]; try (destruct l2; set_solver).
Qed.

Definition sim (P : gmap (H + N) (rt_list_node (H + N)) -> Prop)
    (ptr : M (gmap (H + N) (rt_list_node (H + N))) unit) (abs : M (gmap H (list N)) unit) : Prop :=
  forall m q q', P m -> qrep m q -> abs q = Some (tt, q') ->
    exists m', ptr m = Some (tt, m') /\ qrep m' q'.

Lemma q_update_inv q q' h n f :
  q_update h n f q = Some (tt, q') ->
  exists l, q !! h = Some l /\ q_free q n /\ q' = <[h := f l]> q.
Proof. unfold q_update. destruct (q !! h); [|done]. case_decide; naive_solver. Qed.

Lemma insert_before_sim h n :
  sim (fun m => inr n ∈ dom m) (rt_list_insert_before (inl h) (inr n)) (q_insert_before h n).
Proof.
  intros m q q' Hd Hq (l & Hh & Hf & ->)%q_update_inv.
  apply qrep_insert; try done; [by rewrite app_nil_r|].
  intros p Hp Hp1 Hp2 Hn1 Hn2. by apply insert_before_effect.
Qed.

Lemma insert_after_sim h n :
  sim (fun m => inr n ∈ dom m) (rt_list_insert_after (inl h) (inr n)) (q_insert_after h n).
Proof.
  intros m q q' Hd Hq (l & Hh & Hf & ->)%q_update_inv.
  apply (qrep_insert m q h [] l n); try done.
  intros p ->%list_elem_of_singleton Hp1 Hp2 Hn1 Hn2. by apply insert_after_effect.
Qed.

Lemma remove_linked_sim m q h l n :
  qrep m q -> q !! h = Some l -> n ∈ l ->
  exists m', rt_list_remove (inr n) m = Some (tt, m') /\ qrep m' (list_del n <$> q).
Proof.
  intros (Hr & Hs & Hw) Hh Hn. pose proof (Hr h l Hh) as Hring.
  apply list_elem_of_split in Hn as (l1 & l2 & ->).
  rewrite fmap_app, fmap_cons in Hring.
  destruct (ring_remove _ _ _ _ _ Hring) as (m' & E & R1 & R2 & D & F).
  exists m'. split; [done|]. pose proof (proj1 Hw _ _ Hh) as Hnd.
  assert (Hdel : list_del n (l1 ++ n :: l2) = l1 ++ l2).
  { apply NoDup_app in Hnd as (_ & Hd1 & Hd2). apply NoDup_cons in Hd2 as [Hd2 _].
    apply list_del_middle; set_solver. }
  assert (Hother : forall h0 l0, h0 <> h -> q !! h0 = Some l0 ->
    forall y, y ∈ l0 -> y ∉ l1 ++ n :: l2).
  { intros h0 l0 Hne E0 y Hy Hy'. apply Hne. by eapply (proj2 Hw). }
  split_and!; [| |by apply qwf_remove].
  - intros h0 l0. rewrite lookup_fmap, fmap_Some. intros (k & E0 & ->).
    destruct (decide (h0 = h)) as [->|Hne].
    { rewrite Hh in E0. injection E0 as <-. rewrite Hdel, fmap_app. done. }
    rewrite list_del_notin; [|intros Hk; apply (Hother h0 k Hne E0 n Hk); set_solver].
    apply (ring_frame m); [by apply Hr|]. intros a Ha. apply F.
    rewrite <- fmap_cons, <- fmap_app.
    apply elem_of_cons in Ha as [->|(y & -> & Hy)%list_elem_of_fmap].
    + rewrite not_elem_of_cons, list_elem_of_fmap. naive_solver.
    + rewrite not_elem_of_cons, inr_elem. naive_solver.
  - intros y Hy Hfy. destruct (decide (y = n)) as [->|Hne]; [done|].
    assert (Hfy' : q_free q y).
    { intros h0 l0 E0 Hy0. apply (Hfy h0 (list_del n l0)); [by rewrite lookup_fmap, E0|].
      by apply elem_of_list_del. }
    apply (ring_frame m); [apply Hs; [by rewrite <- D|done]|].
    intros a ->%list_elem_of_singleton. apply F.
    rewrite <- fmap_cons, <- fmap_app, not_elem_of_cons, inr_elem.
    split; [done|]. by apply (Hfy' h).
Qed.

Lemma remove_sim n : sim (fun m => inr n ∈ dom m) (rt_list_remove (inr n)) (q_remove n).
Proof.
  intros m q q' Hd Hq [= <-]. destruct (decide (q_free q n)) as [Hf|Hf].
  - pose proof Hq as (Hr & Hs & Hw). destruct (ring_remove_self m (inr n)) as (m' & E & D & F); [by apply Hs|].
    exists m'. split; [done|]. replace (list_del n <$> q) with q; cycle 1.
    { apply map_eq. intros h. rewrite lookup_fmap. destruct (q !! h) eqn:E0; [|done].
      cbn. by rewrite list_del_notin by (by apply (Hf h)). }
    split_and!; [| |done].
    + intros h l Hh. apply (ring_frame m); [by apply Hr|naive_solver].
    + intros y Hy Hy'. apply (ring_frame m); [|naive_solver]. apply Hs; [by rewrite <- D|done].
  - unfold q_free in Hf. rewrite map_not_Forall in Hf by apply _.
    destruct Hf as (h & l & Hh & Hn). apply dec_stable in Hn. by eapply remove_linked_sim.
Qed.

Lemma isempty_sim m q h b q' :
  qrep m q -> q_isempty h q = Some (b, q') -> rt_list_isempty (inl h) m = Some (b, m) /\ q' = q.
Proof.
  intros (Hr & _) E. unfold q_isempty in E. destruct (q !! h) as [l|] eqn:Hh; [|done].
  injection E as <- <-. rewrite (ring_isempty m _ _ (Hr h l Hh)). split; [|done].
  do 2 f_equal. apply bool_decide_ext. by destruct l.
Qed.

(** ** Programs of list operations *)

Inductive list_op :=
| OpInsertBefore (h : H) (n : N) | OpInsertAfter (h : H) (n : N)
| OpInsertNode (h : H) (x n : N) | OpRemove (n : N).

Definition op_node (o : list_op) : N :=
  match o with OpInsertBefore _ n | OpInsertAfter _ n | OpInsertNode _ _ n | OpRemove n => n end.

Definition ptr_op (o : list_op) : M (gmap (H + N) (rt_list_node (H + N))) unit :=
  match o with
  | OpInsertBefore h n => rt_list_insert_before (inl h) (inr n)
  | OpInsertAfter h n => rt_list_insert_after (inl h) (inr n)
  | OpInsertNode _ x n => rt_list_insert_before (inr x) (inr n)
  | OpRemove n => rt_list_remove (inr n)
  end.
Definition abs_op (o : list_op) : M (gmap H (list N)) unit :=
  match o with
  | OpInsertBefore h n => q_insert_before h n
  | OpInsertAfter h n => q_insert_after h n
  | OpInsertNode h x n => fun q =>
      match q !! h with
      | Some l => if decide (x ∈ l) then q_insert_before_node h x n q else None
      | None => None
      end
  | OpRemove n => q_remove n
  end.
Fixpoint run_ops {S} (f : list_op -> M S unit) (ops : list list_op) : M S unit :=
  match ops with [] => mret tt | o :: ops => f o ;; run_ops f ops end.

Lemma rd_next_inv m m' a b : rd_next a m = Some (b, m') -> m' = m.
Proof. unfold rd_next. destruct (m !! a); congruence. Qed.
Lemma rd_prev_inv m m' a b : rd_prev a m = Some (b, m') -> m' = m.
Proof. unfold rd_prev. destruct (m !! a); congruence. Qed.
Lemma wr_next_dom m m' a v : wr_next a v m = Some (tt, m') -> dom m' = dom m.
Proof. unfold wr_next. destruct (m !! a) eqn:E; [|done]. intros [= <-]. apply dom_insert_lookup_L. eauto. Qed.
Lemma wr_prev_dom m m' a v : wr_prev a v m = Some (tt, m') -> dom m' = dom m.
Proof. unfold wr_prev. destruct (m !! a) eqn:E; [|done]. intros [= <-]. apply dom_insert_lookup_L. eauto. Qed.

(** No list operation allocates or frees a cell. *)
Lemma ptr_op_dom o m m' : ptr_op o m = Some (tt, m') -> dom m' = dom m.
Proof.
  destruct o; cbn; unfold rt_list_insert_before, rt_list_insert_after, rt_list_remove; munfold; intros E;
    repeat match goal with
    | E : context [match rd_next ?a ?m with _ => _ end] |- _ =>
        let X := fresh "X" in destruct (rd_next a m) as [[? ?]|] eqn:X; [apply rd_next_inv in X; subst|done]
    | E : context [match rd_prev ?a ?m with _ => _ end] |- _ =>
        let X := fresh "X" in destruct (rd_prev a m) as [[? ?]|] eqn:X; [apply rd_prev_inv in X; subst|done]
    | E : context [match wr_next ?a ?v ?m with _ => _ end] |- _ =>
        let X := fresh "X" in destruct (wr_next a v m) as [[[] ?]|] eqn:X; [apply wr_next_dom in X|done]
    | E : context [match wr_prev ?a ?v ?m with _ => _ end] |- _ =>
        let X := fresh "X" in destruct (wr_prev a v m) as [[[] ?]|] eqn:X; [apply wr_prev_dom in X|done]
    end; (apply wr_next_dom in E || apply wr_prev_dom in E); congruence.
Qed.

Lemma ptr_op_sim o m q q' :
  qrep m q -> inr (op_node o) ∈ dom m -> abs_op o q = Some (tt, q') ->
  exists m', ptr_op o m = Some (tt, m') /\ qrep m' q'.
Proof.
  intros Hq Hd. destruct o as [h n|h n|h x n|n]; cbn.
  - by apply insert_before_sim.
  - by apply insert_after_sim.
  - destruct (q !! h) as [l|] eqn:Hh; [|done]. destruct (decide (x ∈ l)) as [Hx|]; [|done].
    intros (l0 & E0 & Hf & ->)%q_update_inv. rewrite Hh in E0. injection E0 as <-.
    destruct (before_node_split x n l Hx) as (l1 & l2 & -> & ->).
    apply (qrep_insert m q h l1 (x :: l2) n); try done.
    intros p Hp Hp1 Hp2 Hn1 Hn2. by apply insert_before_effect.
  - by apply remove_sim.
Qed.

(** C30: the pointer operations rt_list_insert_before, rt_list_insert_after (with a
    list head or a node as position) and rt_list_remove implement the queue
    store: every program of list operations that the store accepts runs on the
    linked cells without touching an unallocated cell, and afterwards the cells
    form exactly the circular lists of the resulting store. *)
Theorem list_program_refines ops m q q' :
  qrep m q -> (forall o, o ∈ ops -> inr (op_node o) ∈ dom m) -> run_ops abs_op ops q = Some (tt, q') ->
  exists m', run_ops ptr_op ops m = Some (tt, m') /\ qrep m' q' /\ dom m' = dom m.
Proof.
  revert m q. induction ops as [|o ops IH]; intros m q Hq Hd; cbn; munfold; [intros [= <-]; by exists m|].
  destruct (abs_op o q) as [[[] q1]|] eqn:E; [|done]. intros E'.
  destruct (ptr_op_sim o m q q1 Hq ltac:(apply Hd, elem_of_cons; by left) E) as (m1 & E1 & Hq1).
  pose proof (ptr_op_dom _ _ _ E1) as Hd1. rewrite E1.
  destruct (IH m1 q1 Hq1) as (m' & E2 & Hq' & Hd'); [|done|exists m'; by rewrite Hd', Hd1].
  intros o' Ho'. rewrite Hd1. apply Hd, elem_of_cons. by right.
Qed.
End Refinement.
