(* ===== verification/SList.v ===== *)
(** * Singly linked lists (rt-thread/include/rtservice.h)

    [smem] holds the [next] pointers of [struct rt_slist_node] cells; NULL is [None].  The
    operations are modelled statement by statement, their loops with fuel.  [slist m h l] says
    that the cells behind the head [h] are those of [l], and the lemmas show that the
    operations are append, cons, removal and length on [l]. *)
From S2P Require Import Prelude.
From stdpp Require Import base gmap sets list.
From Stdlib Require Import ZArith Lia.
#[local] Open Scope Z_scope.

Section Pointers.
Context {addr : Type} `{Countable addr}.
Abbreviation smem := (gmap addr (option addr)).
Implicit Types (m : smem) (a b h n x : addr) (l : list addr).

Definition rd_snext a : M smem (option addr) := fun m =>
  match m !! a with Some v => Some (v, m) | None => None end.
Definition wr_snext a (v : option addr) : M smem unit := fun m =>
  match m !! a with Some _ => Some (tt, <[a := v]> m) | None => None end.

Definition rt_slist_init (l : addr) : M smem unit := wr_snext l None.

(** [while (node->next) node = node->next;] *)
Fixpoint rt_slist_tail (fuel : nat) (l : addr) : M smem addr :=
  match fuel with
  | O => ub
  | S fuel => nx ← rd_snext l; match nx with Some b => rt_slist_tail fuel b | None => mret l end
  end.

Definition rt_slist_append (fuel : nat) (l n : addr) : M smem unit :=
  node ← rt_slist_tail fuel l;
  wr_snext node (Some n) ;;
  wr_snext n None.

Definition rt_slist_insert (l n : addr) : M smem unit :=
  nx ← rd_snext l; wr_snext n nx ;;
  wr_snext l (Some n).

Fixpoint slist_len_from (fuel : nat) (list : option addr) (len : Z) : M smem Z :=
  match list with
  | None => mret len
  | Some a =>
    match fuel with
    | O => ub
    | S fuel => nx ← rd_snext a; slist_len_from fuel nx (u32 (len + 1))
    end
  end.
Definition rt_slist_len (fuel : nat) (l : addr) : M smem Z :=
  nx ← rd_snext l; slist_len_from fuel nx 0.

(** [while (node->next && node->next != n) node = node->next;] *)
Fixpoint slist_find (fuel : nat) (node n : addr) : M smem addr :=
  match fuel with
  | O => ub
  | S fuel =>
    nx ← rd_snext node;
    match nx with
    | Some b => if bool_decide (b <> n) then slist_find fuel b n else mret node
    | None => mret node
    end
  end.
Definition rt_slist_remove (fuel : nat) (l n : addr) : M smem unit :=
  node ← slist_find fuel l n;
  nx ← rd_snext node;
  match nx with
  | Some b => nn ← rd_snext b; wr_snext node nn
  | None => mret tt
  end.

Definition rt_slist_first (l : addr) : M smem (option addr) := rd_snext l.
Definition rt_slist_next (n : addr) : M smem (option addr) := rd_snext n.
Definition rt_slist_isempty (l : addr) : M smem bool :=
  nx ← rd_snext l; mret (bool_decide (nx = None)).

(** ** Lists in memory *)

Fixpoint schain m a l : Prop :=
  match l with
  | [] => m !! a = Some None
  | b :: l' => m !! a = Some (Some b) /\ schain m b l'
  end.
Definition slist m h l : Prop := NoDup (h :: l) /\ schain m h l.

Lemma rd_snext_run m a v : m !! a = Some v -> rd_snext a m = Some (v, m).
Proof. intros E. unfold rd_snext. by rewrite E. Qed.
Lemma wr_snext_run m a v v' : m !! a = Some v -> wr_snext a v' m = Some (tt, <[a := v']> m).
Proof. intros E. unfold wr_snext. by rewrite E. Qed.

Lemma schain_head m a l : schain m a l -> m !! a = Some (head l).
Proof. destruct l; cbn; tauto. Qed.

Lemma schain_insert m a l x v : x ∉ a :: l -> schain m a l -> schain (<[x := v]> m) a l.
Proof.
  revert a. induction l as [|b l IH]; intros a Hx; cbn; rewrite lookup_insert_ne by set_solver; [done|].
  intros [? ?]. split; [done|]. apply IH; [set_solver|done].
Qed.

Lemma default_last a b l : default a (last (b :: l)) = default b (last l).
Proof. rewrite last_cons. by destruct (last l). Qed.

Lemma default_last_in a l : default a (last l) ∈ a :: l.
Proof. destruct (last l) as [y|] eqn:E; cbn; [|set_solver]. apply last_Some in E as [l' ->]. set_solver. Qed.

Lemma tail_run m a l fuel : schain m a l -> (length l < fuel)%nat ->
  rt_slist_tail fuel a m = Some (default a (last l), m).
Proof.
  revert a fuel. induction l as [|b l IH]; intros a [|fuel] Hc Hf; cbn in Hf; try lia; cbn [rt_slist_tail].
  - by rewrite (bind_run _ _ _ _ _ (rd_snext_run m a None Hc)).
  - destruct Hc as [Ha Hc]. rewrite (bind_run _ _ _ _ _ (rd_snext_run m a _ Ha)). rewrite (IH b fuel) by (done || lia).
    by rewrite default_last.
Qed.

Lemma schain_snoc m a l n :
  NoDup (a :: l) -> n ∉ a :: l -> schain m a l ->
  schain (<[n := None]> (<[default a (last l) := Some n]> m)) a (l ++ [n]).
Proof.
  revert a. induction l as [|b l IH]; intros a Hnd Hn Hc; cbn [app schain].
  - cbn [last default]. rewrite lookup_insert_ne by set_solver. by rewrite !lookup_insert_eq.
  - apply NoDup_cons in Hnd as [Ha Hnd]. destruct Hc as [Hh Hc].
    rewrite default_last. pose proof (default_last_in b l) as Hin.
    split; [|apply IH; [done|set_solver|done]].
    rewrite !lookup_insert_ne; [done|set_solver..].
Qed.

(** rt_slist_append puts the node at the end. *)
Lemma slist_append_ok m h l n v fuel :
  slist m h l -> n ∉ h :: l -> m !! n = Some v -> (length l < fuel)%nat ->
  exists m', rt_slist_append fuel h n m = Some (tt, m') /\ slist m' h (l ++ [n]) /\
    forall x, x ∉ h :: l -> x <> n -> m' !! x = m !! x.
Proof.
  intros [Hnd Hc] Hn Hv Hf. exists (<[n := None]> (<[default h (last l) := Some n]> m)).
  pose proof (default_last_in h l) as Hin.
  assert (exists u, m !! default h (last l) = Some u) as [u Hu].
  { clear Hnd Hn Hf Hin. revert h Hc. induction l as [|b l IH]; intros h Hc; [by eexists|].
    destruct Hc as [_ Hc]. destruct (IH b Hc) as [u Hu]. exists u. by rewrite default_last. }
  split; [|split].
  - unfold rt_slist_append. rewrite (bind_run _ _ _ _ _ (tail_run m h l fuel Hc Hf)).
    rewrite (bind_run _ _ _ _ _ (wr_snext_run m _ _ _ Hu)). apply (wr_snext_run _ _ v).
    by rewrite lookup_insert_ne by set_solver.
  - split; [|by apply schain_snoc].
    apply NoDup_cons in Hnd as [Hh Hl]. apply not_elem_of_cons in Hn as [Hnh Hnl].
    apply NoDup_cons. split; [set_solver|]. apply NoDup_app. split_and!; [done|set_solver|apply NoDup_singleton].
  - intros x Hx Hxn. rewrite !lookup_insert_ne; [done|set_solver..].
Qed.

(** rt_slist_insert puts the node in front. *)
Lemma slist_insert_ok m h l n v :
  slist m h l -> n ∉ h :: l -> m !! n = Some v ->
  exists m', rt_slist_insert h n m = Some (tt, m') /\ slist m' h (n :: l).
Proof.
  intros [Hnd Hc] Hn Hv. exists (<[h := Some n]> (<[n := head l]> m)). pose proof (schain_head _ _ _ Hc) as Hh.
  apply not_elem_of_cons in Hn as [Hnh Hnl]. apply NoDup_cons in Hnd as [Hhl Hl]. split.
  - unfold rt_slist_insert. rewrite (bind_run _ _ _ _ _ (rd_snext_run m h _ Hh)).
    rewrite (bind_run _ _ _ _ _ (wr_snext_run m n _ _ Hv)). apply (wr_snext_run _ _ (head l)). by rewrite lookup_insert_ne.
  - split; [repeat (apply NoDup_cons; split); set_solver|]. cbn. rewrite lookup_insert_eq. split; [done|].
    destruct l as [|b l]; cbn in *.
    + rewrite lookup_insert_ne by done. by rewrite lookup_insert_eq.
    + rewrite lookup_insert_ne by done. rewrite lookup_insert_eq. split; [done|].
      apply schain_insert; [set_solver|]. apply schain_insert; [set_solver|]. tauto.
Qed.

Lemma len_from_run m l o k fuel :
  (match o with Some a => schain m a (tail l) /\ l <> [] /\ head l = Some a | None => l = [] end) ->
  (length l <= fuel)%nat -> 0 <= k -> k + Z.of_nat (length l) < 2 ^ 32 ->
  slist_len_from fuel o k m = Some (k + Z.of_nat (length l), m).
Proof.
  revert o k fuel. induction l as [|b l IH]; intros o k fuel Ho Hf Hk Hb.
  - destruct o as [a|]; [naive_solver|]. cbn [length]. rewrite Z.add_0_r. by destruct fuel.
  - destruct o as [a|]; [|done]. destruct Ho as (Hc & _ & [= ->]). destruct fuel as [|fuel]; cbn in Hf; [lia|].
    cbn [slist_len_from]. cbn [tail] in Hc. rewrite (bind_run _ _ _ _ _ (rd_snext_run m a _ (schain_head _ _ _ Hc))).
    cbn [length] in Hb. rewrite wrap_id by lia. rewrite (IH (head l) (k + 1) fuel).
    + do 2 f_equal. cbn [length]. lia.
    + destruct l as [|b l]; [done|]. by destruct Hc.
    + lia.
    + lia.
    + lia.
Qed.

(** rt_slist_len counts the nodes. *)
Lemma slist_len_ok m h l fuel :
  slist m h l -> (length l <= fuel)%nat -> Z.of_nat (length l) < 2 ^ 32 ->
  rt_slist_len fuel h m = Some (Z.of_nat (length l), m).
Proof.
  intros [_ Hc] Hf Hb. unfold rt_slist_len. rewrite (bind_run _ _ _ _ _ (rd_snext_run m h _ (schain_head _ _ _ Hc))).
  rewrite (len_from_run m l (head l) 0 fuel); [done|..|lia|lia|lia]. destruct l; [done|]. by destruct Hc.
Qed.

Lemma slist_find_run m a l n fuel :
  schain m a l -> (length l < fuel)%nat ->
  (n ∉ l /\ slist_find fuel a n m = Some (default a (last l), m) /\ m !! default a (last l) = Some None) \/
  (exists l1 l2, l = l1 ++ n :: l2 /\ n ∉ l1 /\ slist_find fuel a n m = Some (default a (last l1), m) /\
     m !! default a (last l1) = Some (Some n)).
Proof.
  revert a fuel. induction l as [|b l IH]; intros a [|fuel] Hc Hf; cbn in Hf; try lia; cbn [slist_find].
  - left. rewrite (bind_run _ _ _ _ _ (rd_snext_run m a None Hc)). split; [set_solver|done].
  - destruct Hc as [Ha Hc]. rewrite (bind_run _ _ _ _ _ (rd_snext_run m a _ Ha)). case_bool_decide as Hb.
    + destruct (IH b fuel Hc ltac:(lia)) as [(Hn & E & El)|(l1 & l2 & -> & Hn & E & El)].
      * left. rewrite default_last. split; [set_solver|done].
      * right. exists (b :: l1), l2. rewrite default_last. split; [done|]. split; [set_solver|done].
    + right. assert (b = n) as -> by (destruct (decide (b = n)); naive_solver). exists [], l. split; [done|].
      split; [set_solver|]. done.
Qed.

Lemma schain_remove m a l1 l2 n v :
  NoDup (a :: l1 ++ n :: l2) -> schain m a (l1 ++ n :: l2) -> m !! n = Some v ->
  schain (<[default a (last l1) := v]> m) a (l1 ++ l2).
Proof.
  revert a. induction l1 as [|b l1 IH]; intros a Hnd Hc Hv; cbn [app schain] in *.
  - cbn [last default] in *. destruct Hc as [_ Hc]. pose proof (schain_head _ _ _ Hc) as Hh. rewrite Hv in Hh. injection Hh as ->.
    apply NoDup_cons in Hnd as [Ha Hnd].
    destruct l2 as [|c l2]; cbn in *; rewrite lookup_insert_eq; [done|]. split; [done|].
    apply schain_insert; [set_solver|]. tauto.
  - destruct Hc as [Ha Hc]. apply NoDup_cons in Hnd as [Hna Hnd].
    rewrite default_last. pose proof (default_last_in b l1) as Hin.
    split; [|by apply IH]. rewrite lookup_insert_ne; [done|]. set_solver.
Qed.

(** rt_slist_remove takes the node out of the list and leaves its own [next] pointer (and, if the
    node is not in the list, everything) as it is. *)
Lemma slist_remove_ok m h l n fuel :
  slist m h l -> n <> h -> (length l < fuel)%nat ->
  exists m', rt_slist_remove fuel h n m = Some (tt, m') /\ slist m' h (list_del n l) /\
    m' !! n = m !! n /\ (n ∉ l -> m' = m) /\ (forall x, x ∉ h :: l -> m' !! x = m !! x).
Proof.
  intros [Hnd Hc] Hnh Hf. destruct (slist_find_run m h l n fuel Hc Hf) as [(Hn & E & El)|(l1 & l2 & -> & Hn & E & El)].
  - exists m. rewrite list_del_notin by done. split; [|done].
    unfold rt_slist_remove. rewrite (bind_run _ _ _ _ _ E), (bind_run _ _ _ _ _ (rd_snext_run m _ _ El)). done.
  - assert (exists v, m !! n = Some v) as [v Hv].
    { clear -Hc. revert h Hc. induction l1 as [|b l1 IH]; intros h [_ Hc]; cbn in *; [|by eapply IH].
      rewrite (schain_head _ _ _ Hc). eauto. }
    pose proof (default_last_in h l1) as Hin.
    pose proof Hnd as Hnd'. apply NoDup_cons in Hnd' as [Hh Hl]. apply NoDup_app in Hl as (Hl1 & Hd & Hl2).
    apply NoDup_cons in Hl2 as [Hn2 Hl2].
    exists (<[default h (last l1) := v]> m). rewrite list_del_middle by done. split_and!.
    + unfold rt_slist_remove. rewrite (bind_run _ _ _ _ _ E), (bind_run _ _ _ _ _ (rd_snext_run m _ _ El)).
      rewrite (bind_run _ _ _ _ _ (rd_snext_run m _ _ Hv)). by apply (wr_snext_run _ _ (Some n)).
    + split; [|by apply schain_remove with n].
      apply NoDup_cons. split; [set_solver|]. apply NoDup_app. split_and!; [done|set_solver|done].
    + rewrite lookup_insert_ne; [done|]. set_solver.
    + set_solver.
    + intros x Hx. rewrite lookup_insert_ne; [done|]. set_solver.
Qed.
End Pointers.
