(* ===== verification/RingBlk.v ===== *)
(** * Ring block buffers (rt-thread/components/drivers/src/ringblk_buf.c)

    A ring block buffer hands out blocks of one memory area in ring order.  The state [rt_rbb]
    holds the area, the control blocks (an array: a pointer to one is its index) and the list of
    the blocks in allocation order; the list is a singly linked one, kept here as the list of
    its nodes (SList.v shows that the pointer operations are the list operations).  RT_ASSERT is
    empty.  An index outside the array is undefined ([None]).

    The invariant [rbb_inv]: the listed blocks lie in the area one behind the other, wrapping
    around at most once.  It gives that no two of them overlap ([rbb_calls_keep_blocks_apart]).  The
    runs at the end show where the contract that theorem needs is not checked by the code. *)
From S2P Require Import Prelude SList.
From stdpp Require Import base sets list.
From Stdlib Require Import ZArith Lia.
#[local] Open Scope Z_scope.

(** ** Data *)

Inductive rt_rbb_status := RT_RBB_BLK_UNUSED | RT_RBB_BLK_INITED | RT_RBB_BLK_PUT | RT_RBB_BLK_GET.
#[export] Instance rt_rbb_status_eq_dec : EqDecision rt_rbb_status.
Proof. solve_decision. Defined.

Record rt_rbb_blk := RbbBlk { bk_status : rt_rbb_status; bk_size : Z; bk_buf : Z }.
Record rt_rbb_blk_queue := BlkQueue { bq_blocks : nat; bq_num : Z }.
Record rt_rbb := Rbb {
  rbb_buf : Z;
  rbb_buf_size : Z;
  rbb_blk_set : list rt_rbb_blk;
  rbb_blk_max_num : Z;
  rbb_blk_list : list nat
}.

Definition set_blk_set s r := Rbb (rbb_buf r) (rbb_buf_size r) s (rbb_blk_max_num r) (rbb_blk_list r).
Definition set_blk_list l r := Rbb (rbb_buf r) (rbb_buf_size r) (rbb_blk_set r) (rbb_blk_max_num r) l.
Definition set_bk_status s b := RbbBlk s (bk_size b) (bk_buf b).

Definition rd_blk (i : nat) : M rt_rbb rt_rbb_blk := fun r =>
  match rbb_blk_set r !! i with Some b => Some (b, r) | None => None end.
Definition upd_blk (i : nat) (f : rt_rbb_blk -> rt_rbb_blk) : M rt_rbb unit := fun r =>
  match rbb_blk_set r !! i with Some b => Some (tt, set_blk_set (<[i := f b]> (rbb_blk_set r)) r) | None => None end.

(** The operations of SList on [rbb->blk_list]. *)
Definition list_append (n : nat) : M rt_rbb unit := modify (fun r => set_blk_list (rbb_blk_list r ++ [n]) r).
Definition list_remove (n : nat) : M rt_rbb unit := modify (fun r => set_blk_list (list_del n (rbb_blk_list r)) r).

(** ** Operations *)

Fixpoint init_status (n : nat) (s : list rt_rbb_blk) : option (list rt_rbb_blk) :=
  match n, s with
  | O, _ => Some s
  | S n', b :: s' => s'' ← init_status n' s'; Some (set_bk_status RT_RBB_BLK_UNUSED b :: s'')
  | S _, [] => None
  end.
Definition rt_rbb_init (buf buf_size : Z) (block_set : list rt_rbb_blk) (blk_max_num : Z) : option rt_rbb :=
  s ← init_status (Z.to_nat blk_max_num) block_set;
  Some (Rbb buf buf_size s blk_max_num []).

(** rt_rbb_create: the results of the three rt_malloc calls are arguments (the address of the
    area, the array as it comes from the heap). *)
Definition rt_rbb_create (rbb : bool) (buf : option Z) (blk_set : option (list rt_rbb_blk)) (buf_size blk_max_num : Z) :
    option (option rt_rbb) :=
  if negb rbb then Some None else
  match buf, blk_set with
  | Some b, Some s => r ← rt_rbb_init b buf_size s blk_max_num; Some (Some r)
  | _, _ => Some None
  end.

Fixpoint find_empty_from (todo i : nat) (s : list rt_rbb_blk) : option (option nat) :=
  match todo with
  | O => Some None
  | S todo' =>
    b ← s !! i;
    if bool_decide (bk_status b = RT_RBB_BLK_UNUSED) then Some (Some i) else find_empty_from todo' (S i) s
  end.
Definition find_empty_blk_in_set : M rt_rbb (option nat) :=
  r ← gets id; liftO (find_empty_from (Z.to_nat (rbb_blk_max_num r)) 0 (rbb_blk_set r)).

(** The four assignments of an allocation; [size] is a field of 24 bits. *)
Definition blk_place (n : nat) (addr blk_size : Z) : M rt_rbb (option nat) :=
  list_append n ;;
  upd_blk n (fun _ => RbbBlk RT_RBB_BLK_INITED (wrap 24 blk_size) addr) ;;
  mret (Some n).

Definition rt_rbb_blk_alloc (blk_size : Z) : M rt_rbb (option nat) :=
  new_rbb ← find_empty_blk_in_set;
  r ← gets id;
  match new_rbb with
  | Some n =>
    if bool_decide (Z.of_nat (length (rbb_blk_list r)) < rbb_blk_max_num r) then
      match rbb_blk_list r with
      | h :: l =>
        head ← rd_blk h;
        tail ← rd_blk (default h (last l));
        if bool_decide (bk_buf head <= bk_buf tail) then
          let empty1 := u32 ((rbb_buf r + rbb_buf_size r) - (bk_buf tail + bk_size tail)) in
          let empty2 := u32 (bk_buf head - rbb_buf r) in
          if bool_decide (empty1 >= blk_size) then blk_place n (bk_buf tail + bk_size tail) blk_size
          else if bool_decide (empty2 >= blk_size) then blk_place n (rbb_buf r) blk_size
          else mret None
        else
          let empty1 := u32 (bk_buf head - (bk_buf tail + bk_size tail)) in
          if bool_decide (empty1 >= blk_size) then blk_place n (bk_buf tail + bk_size tail) blk_size
          else mret None
      | [] => blk_place n (rbb_buf r) blk_size
      end
    else mret None
  | None => mret None
  end.

Definition rt_rbb_blk_put (block : nat) : M rt_rbb unit := upd_blk block (set_bk_status RT_RBB_BLK_PUT).

Fixpoint get_loop (nodes : list nat) : M rt_rbb (option nat) :=
  match nodes with
  | [] => mret None
  | n :: nodes' =>
    b ← rd_blk n;
    if bool_decide (bk_status b = RT_RBB_BLK_PUT) then upd_blk n (set_bk_status RT_RBB_BLK_GET) ;; mret (Some n)
    else get_loop nodes'
  end.
Definition rt_rbb_blk_get : M rt_rbb (option nat) := r ← gets id; get_loop (rbb_blk_list r).

Definition rt_rbb_blk_size (block : nat) : M rt_rbb Z := b ← rd_blk block; mret (bk_size b).
Definition rt_rbb_blk_buf (block : nat) : M rt_rbb Z := b ← rd_blk block; mret (bk_buf b).

Definition rt_rbb_blk_free (block : nat) : M rt_rbb unit :=
  list_remove block ;; upd_blk block (set_bk_status RT_RBB_BLK_UNUSED).

(** The loop of rt_rbb_blk_queue_get.  A node keeps its [next] pointer when it is removed, so
    the loop walks the list as it was at the start.  [last] is last_block, [q] what was stored at
    blk_queue. *)
Fixpoint queue_loop (nodes : list nat) (queue_data_len : Z) (last : option nat) (total : Z) (q : option rt_rbb_blk_queue) :
    M rt_rbb (Z * option rt_rbb_blk_queue) :=
  match nodes with
  | [] => mret (total, q)
  | n :: nodes' =>
    block ← rd_blk n;
    match last with
    | None =>
      if bool_decide (bk_status block = RT_RBB_BLK_PUT) then
        list_remove n ;; upd_blk n (set_bk_status RT_RBB_BLK_GET) ;;
        queue_loop nodes' queue_data_len (Some n) (u32 (total + bk_size block)) (Some (BlkQueue n 1))
      else queue_loop nodes' queue_data_len None total q
    | Some lb =>
      last_block ← rd_blk lb;
      if bool_decide (bk_status block <> RT_RBB_BLK_PUT) || bool_decide (bk_buf last_block > bk_buf block) ||
         bool_decide (u32 (total + bk_size block) > queue_data_len)
      then mret (total, q)
      else
        list_remove n ;; upd_blk n (set_bk_status RT_RBB_BLK_GET) ;;
        queue_loop nodes' queue_data_len (Some n) (u32 (total + bk_size block))
          (match q with Some q => Some (BlkQueue (bq_blocks q) (u32 (bq_num q + 1))) | None => None end)
    end
  end.
Definition rt_rbb_blk_queue_get (queue_data_len : Z) : M rt_rbb (Z * option rt_rbb_blk_queue) :=
  r ← gets id; queue_loop (rbb_blk_list r) queue_data_len None 0 None.

(** blk_queue->blocks[i] is the [i]-th control block behind the first. *)
Fixpoint queue_len_loop (todo : nat) (i : nat) (total : Z) : M rt_rbb Z :=
  match todo with
  | O => mret total
  | S todo' => b ← rd_blk i; queue_len_loop todo' (S i) (u32 (total + bk_size b))
  end.
Definition rt_rbb_blk_queue_len (q : rt_rbb_blk_queue) : M rt_rbb Z := queue_len_loop (Z.to_nat (bq_num q)) (bq_blocks q) 0.
Definition rt_rbb_blk_queue_buf (q : rt_rbb_blk_queue) : M rt_rbb Z := rt_rbb_blk_buf (bq_blocks q).

Fixpoint queue_free_loop (todo i : nat) : M rt_rbb unit :=
  match todo with
  | O => mret tt
  | S todo' => rt_rbb_blk_free i ;; queue_free_loop todo' (S i)
  end.
Definition rt_rbb_blk_queue_free (q : rt_rbb_blk_queue) : M rt_rbb unit := queue_free_loop (Z.to_nat (bq_num q)) (bq_blocks q).

Fixpoint next_len_loop (nodes : list nat) (last : option nat) (data_len : Z) : M rt_rbb Z :=
  match nodes with
  | [] => mret data_len
  | n :: nodes' =>
    block ← rd_blk n;
    match last with
    | None =>
      if bool_decide (bk_status block <> RT_RBB_BLK_PUT) then next_len_loop nodes' None data_len
      else next_len_loop nodes' (Some n) (u32 (data_len + bk_size block))
    | Some lb =>
      last_block ← rd_blk lb;
      if bool_decide (bk_status block <> RT_RBB_BLK_PUT) || bool_decide (bk_buf last_block > bk_buf block)
      then mret data_len
      else next_len_loop nodes' (Some n) (u32 (data_len + bk_size block))
    end
  end.
Definition rt_rbb_next_blk_queue_len : M rt_rbb Z := r ← gets id; next_len_loop (rbb_blk_list r) None 0.

Definition rt_rbb_get_buf_size : M rt_rbb Z := gets rbb_buf_size.

(** ** Invariant *)

(** Blocks (start, size) one behind the other between [lo] and [hi]. *)
Fixpoint asc (lo hi : Z) (sp : list (Z * Z)) : Prop :=
  match sp with
  | [] => lo <= hi
  | (s, n) :: sp' => lo <= s /\ 0 < n /\ asc (s + n) hi sp'
  end.

(** Blocks in ring order: an older part up to the end of the area, then a younger one from its start. *)
Definition ring (lo hi : Z) (sp : list (Z * Z)) : Prop :=
  exists s1 s2 m, sp = s1 ++ s2 /\ asc m hi s1 /\ asc lo m s2 /\ (s1 = [] -> s2 = []).

(** The listed block [i] occupies [sp]. *)
Definition occupies (r : rt_rbb) (i : nat) (sp : Z * Z) : Prop :=
  exists b, rbb_blk_set r !! i = Some b /\ sp = (bk_buf b, bk_size b) /\ bk_status b <> RT_RBB_BLK_UNUSED.

Record rbb_inv (r : rt_rbb) : Prop := {
  ri_area : 0 <= rbb_buf r /\ 0 <= rbb_buf_size r < 2 ^ 24 /\ rbb_buf r + rbb_buf_size r < 2 ^ 32;
  ri_set : Z.of_nat (length (rbb_blk_set r)) = rbb_blk_max_num r;
  ri_nodup : NoDup (rbb_blk_list r);
  ri_ring : exists sp, Forall2 (occupies r) (rbb_blk_list r) sp /\ ring (rbb_buf r) (rbb_buf r + rbb_buf_size r) sp
}.

(** ** Lemmas on ring order *)

Lemma asc_le lo hi sp : asc lo hi sp -> lo <= hi.
Proof. revert lo. induction sp as [|[s n] sp IH]; intros lo; cbn; [done|]. intros (? & ? & ?%IH). lia. Qed.

Lemma asc_app lo hi a b : asc lo hi (a ++ b) <-> exists m, asc lo m a /\ asc m hi b.
Proof.
  revert lo. induction a as [|[s n] a IH]; intros lo; cbn.
  - split; [intros H; exists lo; split; [lia|done]|]. intros (m & Hm & Hb).
    revert lo m Hm Hb. destruct b as [|[s n] b]; cbn; intros; [lia|]. split_and!; [lia|tauto|tauto].
  - rewrite IH. naive_solver.
Qed.

Lemma asc_widen lo hi lo' hi' sp : asc lo hi sp -> lo' <= lo -> hi <= hi' -> asc lo' hi' sp.
Proof.
  revert lo lo'. induction sp as [|[s n] sp IH]; intros lo lo'; cbn; [lia|]. intros (? & ? & ?) ? ?.
  split_and!; [lia|done|]. by apply (IH (s + n)).
Qed.

Lemma asc_delete lo hi a x b : asc lo hi (a ++ x :: b) -> asc lo hi (a ++ b).
Proof.
  rewrite !asc_app. destruct x as [s n]. cbn. intros (m & Ha & ? & ? & Hb). exists m. split; [done|].
  apply (asc_widen (s + n) hi); [done|lia|lia].
Qed.

Lemma asc_bounds lo hi sp s n : asc lo hi sp -> (s, n) ∈ sp -> lo <= s /\ 0 < n /\ s + n <= hi.
Proof.
  revert lo. induction sp as [|[s' n'] sp IH]; intros lo Ha Hin; [by apply elem_of_nil in Hin|].
  destruct Ha as (? & ? & Ha). pose proof (asc_le _ _ _ Ha). apply elem_of_cons in Hin as [[= -> ->]|Hin]; [lia|].
  destruct (IH _ Ha Hin). lia.
Qed.

(** Everything before a position of [sp] ends before everything behind it starts. *)
Lemma asc_order lo hi sp i j si ni sj nj :
  asc lo hi sp -> (i < j)%nat -> sp !! i = Some (si, ni) -> sp !! j = Some (sj, nj) -> si + ni <= sj.
Proof.
  revert lo i j. induction sp as [|[s n] sp IH]; intros lo i j Ha Hij Hi Hj; [done|]. destruct Ha as (H1 & H2 & Ha).
  destruct j as [|j]; [lia|]. destruct i as [|i]; cbn in Hi, Hj.
  - injection Hi as -> ->. apply list_elem_of_lookup_2 in Hj. pose proof (asc_bounds _ _ _ _ _ Ha Hj). lia.
  - apply (IH (s + n) i j); [done|lia|done|done].
Qed.

Definition apart_spans (x y : Z * Z) : Prop := x.1 + x.2 <= y.1 \/ y.1 + y.2 <= x.1.

Lemma ring_apart lo hi sp :
  ring lo hi sp ->
  (forall x, x ∈ sp -> lo <= x.1 /\ 0 < x.2 /\ x.1 + x.2 <= hi) /\
  (forall i j x y, i <> j -> sp !! i = Some x -> sp !! j = Some y -> apart_spans x y).
Proof.
  intros (s1 & s2 & m & -> & H1 & H2 & _). pose proof (asc_le _ _ _ H1). pose proof (asc_le _ _ _ H2).
  assert (asc lo hi (s2 ++ s1)) as Hs by (apply asc_app; by exists m).
  assert (forall i j x y, (i < j)%nat -> (s1 ++ s2) !! i = Some x -> (s1 ++ s2) !! j = Some y -> apart_spans x y) as Hap.
  { intros i j [si ni] [sj nj] Hij Hi Hj. unfold apart_spans. cbn.
    apply lookup_app_Some in Hi as [Hi|[Hi0 Hi]]; apply lookup_app_Some in Hj as [Hj|[Hj0 Hj]].
    - left. by eapply (asc_order m hi s1 i j).
    - right. apply list_elem_of_lookup_2 in Hi, Hj. pose proof (asc_bounds _ _ _ _ _ H1 Hi).
      pose proof (asc_bounds _ _ _ _ _ H2 Hj). lia.
    - apply lookup_lt_Some in Hj. lia.
    - left. eapply (asc_order lo m s2 (i - length s1) (j - length s1)); eauto. lia. }
  split.
  - intros [s n] Hx. cbn. apply (asc_bounds lo hi (s2 ++ s1)); [done|]. set_solver.
  - intros i j x y Hne Hi Hj. destruct (decide (i < j)%nat); [by eapply Hap|].
    destruct (Hap j i y x) as [|]; [lia|done..|by right|by left].
Qed.

Lemma ring_delete lo hi a x b : ring lo hi (a ++ x :: b) -> ring lo hi (a ++ b).
Proof.
  intros (s1 & s2 & m & E & H1 & H2 & Hne). pose proof (asc_le _ _ _ H1). pose proof (asc_le _ _ _ H2).
  assert (forall s1' s2', asc m hi s1' -> asc lo m s2' -> ring lo hi (s1' ++ s2')) as Hmk.
  { intros s1' s2' H1' H2'. destruct s1' as [|y s1'].
    - exists s2', [], lo. rewrite app_nil_r. split_and!; [done|by apply (asc_widen lo m); [|lia|lia]|cbn; lia|done].
    - by exists (y :: s1'), s2', m. }
  symmetry in E. apply app_eq_inv in E as [(k & -> & E2)|(k & -> & E2)].
  - destruct k as [|y k]; cbn in E2.
    + subst s2. rewrite app_nil_r in *. apply Hmk; [done|]. by apply (asc_delete lo m [] x b).
    + injection E2 as <- ->. rewrite (assoc_L (++)). apply Hmk; [by apply (asc_delete m hi a x k)|done].
  - subst s2. rewrite <- (assoc_L (++)). apply Hmk; [done|by apply (asc_delete lo m k x b)].
Qed.

Lemma asc_snoc lo hi a s n : asc lo hi (a ++ [(s, n)]) <-> asc lo s a /\ 0 < n /\ s + n <= hi.
Proof.
  rewrite asc_app. cbn. split.
  - intros (m & Ha & ? & ? & ?). split_and!; [|lia|lia]. by apply (asc_widen lo m); [|lia|lia].
  - intros (? & ? & ?). exists s. split_and!; done || lia.
Qed.

Lemma asc_end lo hi sp s n : asc lo hi sp -> last sp = Some (s, n) -> asc lo (s + n) sp /\ 0 < n /\ s + n <= hi.
Proof.
  intros Ha [a ->]%last_Some. apply asc_snoc in Ha as (H1 & H2 & H3). split_and!; [|done|done].
  apply asc_snoc. split_and!; done || lia.
Qed.

Lemma asc_start lo hi s n sp : asc lo hi ((s, n) :: sp) -> lo <= s /\ asc s hi ((s, n) :: sp).
Proof. cbn. intros (? & ? & ?). split_and!; done || lia. Qed.

(** The three places at which rt_rbb_blk_alloc puts a block behind others keep the ring order. *)
Lemma ring_append lo hi hs hn l ts tn sz :
  ring lo hi ((hs, hn) :: l) -> last ((hs, hn) :: l) = Some (ts, tn) -> 0 < sz ->
  (hs <= ts -> lo <= hs /\ ts + tn <= hi /\ (ts + tn + sz <= hi -> ring lo hi (((hs, hn) :: l) ++ [(ts + tn, sz)])) /\
               (lo + sz <= hs -> ring lo hi (((hs, hn) :: l) ++ [(lo, sz)]))) /\
  (ts < hs -> ts + tn <= hs /\ hs <= hi /\ (ts + tn + sz <= hs -> ring lo hi (((hs, hn) :: l) ++ [(ts + tn, sz)]))).
Proof.
  intros (s1 & s2 & m & E & H1 & H2 & Hne) Hlast Hsz. rewrite E in *.
  pose proof (asc_le _ _ _ H1). pose proof (asc_le _ _ _ H2).
  destruct s1 as [|x s1]; [by rewrite (Hne eq_refl) in E|]. cbn in E. injection E as <- E.
  destruct (asc_start _ _ _ _ _ H1) as [Hm H1'].
  rewrite last_app in Hlast. destruct (last s2) as [t2|] eqn:El.
  - injection Hlast as ->. destruct (asc_end _ _ _ _ _ H2 El) as (He & Htn & Hle).
    assert (asc hs hi ((hs, hn) :: s1)) as Hs by done. pose proof (asc_le _ _ _ Hs).
    split; [lia|]. intros Hlt. split_and!; [lia|lia|]. intros Hroom.
    exists ((hs, hn) :: s1), (s2 ++ [(ts + tn, sz)]), hs. split_and!; [by rewrite (assoc_L (++))|done| |done].
    apply asc_snoc. split_and!; done || lia.
  - apply last_None in El. subst s2. rewrite app_nil_r in *. cbn in H2.
    destruct (asc_end _ _ _ _ _ H1 Hlast) as (He & Htn & Hle).
    split.
    + intros Hlt. split_and!; [lia|lia| |].
      * intros Hroom. exists (((hs, hn) :: s1) ++ [(ts + tn, sz)]), [], m. rewrite app_nil_r. split_and!; [done| |done|done].
        apply asc_snoc. split_and!; done || lia.
      * intros Hroom. exists ((hs, hn) :: s1), [(lo, sz)], hs. split_and!; [done|done| |done]. cbn. lia.
    + intros Hlt. exfalso. apply last_Some in Hlast as [a Ea]. destruct a as [|y a]; cbn in Ea.
      * injection Ea as -> -> ->. lia.
      * injection Ea as <- ->. rewrite app_comm_cons in H1'. apply asc_snoc in H1' as (H1' & _). apply asc_le in H1'. lia.
Qed.

(** ** The operations keep the invariant *)

Lemma occupies_other r n b i sp : i <> n -> occupies r i sp -> occupies (set_blk_set (<[n := b]> (rbb_blk_set r)) r) i sp.
Proof. intros Hne (b' & E & ?). exists b'. cbn. by rewrite list_lookup_insert_ne. Qed.

Lemma occupies_others r n b l sp : n ∉ l -> Forall2 (occupies r) l sp ->
  Forall2 (occupies (set_blk_set (<[n := b]> (rbb_blk_set r)) r)) l sp.
Proof.
  intros Hn H. induction H as [|i sp0 l sp Hi H IH]; constructor.
  - apply occupies_other; [set_solver|done].
  - apply IH. set_solver.
Qed.

Lemma inv_unlisted r n b : rbb_inv r -> n ∉ rbb_blk_list r -> rbb_inv (set_blk_set (<[n := b]> (rbb_blk_set r)) r).
Proof.
  intros [H1 H2 H3 (sp & H4 & H5)] Hn. split; cbn; [done|by rewrite length_insert|done|].
  exists sp. split; [by apply occupies_others|done].
Qed.

Lemma inv_status r n b st : rbb_inv r -> rbb_blk_set r !! n = Some b -> st <> RT_RBB_BLK_UNUSED ->
  rbb_inv (set_blk_set (<[n := set_bk_status st b]> (rbb_blk_set r)) r).
Proof.
  intros [H1 H2 H3 (sp & H4 & H5)] Hb Hst. split; cbn; [done|by rewrite length_insert|done|].
  exists sp. split; [|done]. eapply Forall2_impl; [exact H4|]. intros i x Hi.
  destruct (decide (i = n)) as [->|Hne]; [|by apply occupies_other].
  destruct Hi as (b' & E & -> & _). rewrite Hb in E. injection E as <-. exists (set_bk_status st b).
  cbn. rewrite list_lookup_insert_eq by (by apply lookup_lt_Some in Hb). done.
Qed.

Lemma inv_remove r n : rbb_inv r -> rbb_inv (set_blk_list (list_del n (rbb_blk_list r)) r).
Proof.
  intros [H1 H2 H3 (sp & H4 & H5)]. split; cbn; [done|done|by apply NoDup_list_del|].
  destruct (decide (n ∈ rbb_blk_list r)) as [Hin|Hin]; [|rewrite list_del_notin by done; by exists sp].
  apply list_elem_of_split in Hin as (l1 & l2 & El). rewrite El in *.
  apply NoDup_app in H3 as (_ & Hd & [Hn2 _]%NoDup_cons).
  rewrite list_del_middle by (done || (intros F; apply (Hd n F); set_solver)).
  apply Forall2_app_inv_l in H4 as (sp1 & sp2 & F1 & F2 & ->). apply Forall2_cons_inv_l in F2 as (x & sp2' & _ & F2 & ->).
  exists (sp1 ++ sp2'). split; [by apply Forall2_app|by apply ring_delete with x].
Qed.

Lemma place_ok r n sp addr sz :
  rbb_inv r -> n ∉ rbb_blk_list r -> (n < length (rbb_blk_set r))%nat ->
  Forall2 (occupies r) (rbb_blk_list r) sp -> 0 < sz < 2 ^ 24 ->
  ring (rbb_buf r) (rbb_buf r + rbb_buf_size r) (sp ++ [(addr, sz)]) ->
  exists r', blk_place n addr sz r = Some (Some n, r') /\ rbb_inv r' /\
    rbb_blk_list r' = rbb_blk_list r ++ [n] /\
    rbb_blk_set r' = <[n := RbbBlk RT_RBB_BLK_INITED sz addr]> (rbb_blk_set r).
Proof.
  intros Hi Hn Hlt Hf Hsz Hr. destruct (lookup_lt_is_Some_2 _ _ Hlt) as [b Hb].
  unfold blk_place, list_append, upd_blk. munfold. cbn [rbb_blk_set set_blk_list]. rewrite Hb, wrap_id by lia.
  eexists. split; [done|]. split; [|done]. destruct Hi as [H1 H2 H3 _].
  split; cbn; [done|by rewrite length_insert| |].
  - apply NoDup_app. split_and!; [done|set_solver|apply NoDup_singleton].
  - exists (sp ++ [(addr, sz)]). split; [|done]. apply Forall2_app.
    + exact (occupies_others r n _ _ _ Hn Hf).
    + constructor; [|constructor]. eexists. cbn. rewrite list_lookup_insert_eq by done. by split_and!.
Qed.

Lemma find_empty_ok s todo i : (i + todo = length s)%nat ->
  exists o, find_empty_from todo i s = Some o /\
    match o with
    | Some n => exists b, s !! n = Some b /\ bk_status b = RT_RBB_BLK_UNUSED
    | None => forall n b, (i <= n)%nat -> s !! n = Some b -> bk_status b <> RT_RBB_BLK_UNUSED
    end.
Proof.
  revert i. induction todo as [|todo IH]; intros i Hi; cbn.
  - exists None. split; [done|]. intros n b Hn E%lookup_lt_Some. lia.
  - destruct (lookup_lt_is_Some_2 s i ltac:(lia)) as [b Hb]. rewrite Hb. cbn. case_bool_decide as Hst.
    + exists (Some i). eauto.
    + destruct (IH (S i) ltac:(lia)) as (o & E & Ho). exists o. split; [done|]. destruct o; [done|].
      intros n b' Hn E'. destruct (decide (n = i)) as [->|]; [by simplify_eq|]. apply (Ho n); [lia|done].
Qed.

Lemma listed_used r n : rbb_inv r -> n ∈ rbb_blk_list r -> exists b, rbb_blk_set r !! n = Some b /\ bk_status b <> RT_RBB_BLK_UNUSED.
Proof.
  intros [_ _ _ (sp & H & _)] Hn. apply list_elem_of_lookup in Hn as [k Hk].
  destruct (Forall2_lookup_l _ _ _ _ _ H Hk) as (x & _ & b & E & _ & ?). eauto.
Qed.

(** ** Allocation *)

(** What an allocation does: a new block of the size at the end of the list, or nothing. *)
Definition alloc_post (sz : Z) (r r' : rt_rbb) (o : option nat) : Prop :=
  match o with
  | None => r' = r
  | Some n => n ∉ rbb_blk_list r /\ rbb_blk_list r' = rbb_blk_list r ++ [n] /\
      exists addr, rbb_blk_set r' = <[n := RbbBlk RT_RBB_BLK_INITED sz addr]> (rbb_blk_set r) /\
        (n < length (rbb_blk_set r))%nat
  end.

(** The tail of the list and the last span. *)
Lemma tail_span r h l bh l' :
  Forall2 (occupies r) l l' -> rbb_blk_set r !! h = Some bh ->
  exists t, rbb_blk_set r !! default h (last l) = Some t /\
    last ((bk_buf bh, bk_size bh) :: l') = Some (bk_buf t, bk_size t).
Proof.
  intros Hl Eh. destruct l as [|x l _] using rev_ind.
  - apply Forall2_nil_inv_l in Hl. subst l'. eauto.
  - rewrite last_snoc. apply Forall2_app_inv_l in Hl as (k1 & k2 & _ & Hx & ->).
    apply Forall2_cons_inv_l in Hx as (y & k & (t & Et & -> & _) & Hk & ->). apply Forall2_nil_inv_l in Hk. subst k.
    exists t. split; [done|]. rewrite app_comm_cons. apply last_snoc.
Qed.

Lemma rbb_alloc_ok sz r :
  rbb_inv r -> 0 < sz <= rbb_buf_size r ->
  exists o r', rt_rbb_blk_alloc sz r = Some (o, r') /\ rbb_inv r' /\ alloc_post sz r r' o.
Proof.
  intros Hi Hsz. pose proof Hi as [(Hb0 & Hbs & Hb32) Hset Hnd (sp & Hf & Hr)].
  unfold rt_rbb_blk_alloc, find_empty_blk_in_set. munfold. cbn [id].
  destruct (find_empty_ok (rbb_blk_set r) (Z.to_nat (rbb_blk_max_num r)) 0) as (o & -> & Ho); [lia|].
  destruct o as [n|]; [|by exists None, r].
  destruct Ho as (b & Eb & Hst).
  assert (n ∉ rbb_blk_list r) as Hn by (intros Hin; destruct (listed_used r n Hi Hin) as (b' & ? & ?); simplify_eq).
  pose proof (lookup_lt_Some _ _ _ Eb) as Hlt.
  case_bool_decide; [|by exists None, r].
  assert (forall addr, ring (rbb_buf r) (rbb_buf r + rbb_buf_size r) (sp ++ [(addr, sz)]) ->
    exists o r', blk_place n addr sz r = Some (o, r') /\ rbb_inv r' /\ alloc_post sz r r' o) as Hplace.
  { intros addr Hra. destruct (place_ok r n sp addr sz Hi Hn Hlt Hf ltac:(lia) Hra) as (r' & E & ? & ? & ?).
    exists (Some n), r'. unfold alloc_post. eauto 10. }
  destruct (rbb_blk_list r) as [|h l] eqn:El.
  { apply Forall2_nil_inv_l in Hf. subst sp. apply Hplace.
    exists [(rbb_buf r, sz)], [], (rbb_buf r). cbn. split_and!; done || lia. }
  apply Forall2_cons_inv_l in Hf as ([hs hn] & l' & (bh & Eh & [= -> ->] & _) & Hl & ->).
  destruct (tail_span r h l bh l' Hl Eh) as (t & Et & Elast).
  unfold rd_blk. rewrite Eh, Et.
  destruct (ring_append _ _ _ _ _ _ _ sz Hr Elast ltac:(lia)) as [Hle Hgt].
  assert (rbb_buf r <= bk_buf t /\ 0 < bk_size t) as [Ht1 Ht2].
  { destruct (proj1 (ring_apart _ _ _ Hr) (bk_buf t, bk_size t)) as (? & ? & _); [|done].
    apply last_Some in Elast as [k ->]. set_solver. }
  case_bool_decide as Hcmp.
  - destruct (Hle Hcmp) as (L1 & L2 & R1 & R2).
    rewrite (wrap_id 32 (rbb_buf r + rbb_buf_size r - _)), (wrap_id 32 (bk_buf bh - rbb_buf r)) by lia.
    case_bool_decide; [apply Hplace, R1; lia|]. case_bool_decide; [apply Hplace, R2; lia|by exists None, r].
  - destruct (Hgt ltac:(lia)) as (L1 & L2 & R1). rewrite wrap_id by lia.
    case_bool_decide; [apply Hplace, R1; lia|by exists None, r].
Qed.

(** ** The other calls *)

Lemma rd_blk_run r n b : rbb_blk_set r !! n = Some b -> rd_blk n r = Some (b, r).
Proof. intros E. unfold rd_blk. by rewrite E. Qed.

Lemma get_loop_ok r nodes :
  (forall n, n ∈ nodes -> is_Some (rbb_blk_set r !! n)) ->
  (exists l1 n l2 b, nodes = l1 ++ n :: l2 /\ rbb_blk_set r !! n = Some b /\ bk_status b = RT_RBB_BLK_PUT /\
     (forall k c, k ∈ l1 -> rbb_blk_set r !! k = Some c -> bk_status c <> RT_RBB_BLK_PUT) /\
     get_loop nodes r = Some (Some n, set_blk_set (<[n := set_bk_status RT_RBB_BLK_GET b]> (rbb_blk_set r)) r)) \/
  ((forall k c, k ∈ nodes -> rbb_blk_set r !! k = Some c -> bk_status c <> RT_RBB_BLK_PUT) /\ get_loop nodes r = Some (None, r)).
Proof.
  induction nodes as [|n nodes IH]; intros Hin; [right; split; [set_solver|done]|].
  destruct (Hin n ltac:(set_solver)) as [b Hb]. cbn [get_loop]. rewrite (bind_run _ _ _ _ _ (rd_blk_run r n b Hb)).
  case_bool_decide as Hst.
  - left. exists [], n, nodes, b. split_and!; [done..|set_solver|]. unfold upd_blk. munfold. by rewrite Hb.
  - destruct IH as [(l1 & m & l2 & c & -> & Hc & Hs & Hno & E)|[Hno E]]; [set_solver| |].
    + left. exists (n :: l1), m, l2, c. split_and!; [done..| |done].
      intros k d [->|Hk]%elem_of_cons Hd; [by simplify_eq|by apply (Hno k)].
    + right. split; [|done]. intros k d [->|Hk]%elem_of_cons Hd; [by simplify_eq|by apply (Hno k)].
Qed.

(** rt_rbb_blk_get returns the block that was allocated first among those that were put. *)
Lemma rbb_get_ok r : rbb_inv r ->
  (exists l1 n l2 b, rbb_blk_list r = l1 ++ n :: l2 /\ rbb_blk_set r !! n = Some b /\ bk_status b = RT_RBB_BLK_PUT /\
     (forall k c, k ∈ l1 -> rbb_blk_set r !! k = Some c -> bk_status c <> RT_RBB_BLK_PUT) /\
     rt_rbb_blk_get r = Some (Some n, set_blk_set (<[n := set_bk_status RT_RBB_BLK_GET b]> (rbb_blk_set r)) r)) \/
  ((forall k c, k ∈ rbb_blk_list r -> rbb_blk_set r !! k = Some c -> bk_status c <> RT_RBB_BLK_PUT) /\
   rt_rbb_blk_get r = Some (None, r)).
Proof.
  intros Hi. apply (get_loop_ok r (rbb_blk_list r)). intros n Hn.
  destruct (listed_used r n Hi Hn) as (b & -> & _). by eexists.
Qed.

Lemma take_ok r n b : rbb_inv r -> rbb_blk_set r !! n = Some b ->
  exists r', (list_remove n ;; upd_blk n (set_bk_status RT_RBB_BLK_GET)) r = Some (tt, r') /\ rbb_inv r' /\
    length (rbb_blk_set r') = length (rbb_blk_set r).
Proof.
  intros Hi Hb. unfold list_remove, upd_blk. munfold. cbn [rbb_blk_set set_blk_list]. rewrite Hb. eexists. split; [done|].
  split; [|apply length_insert]. apply (inv_status _ n b RT_RBB_BLK_GET (inv_remove r n Hi)); done.
Qed.

Lemma queue_loop_ok nodes len lst total q r :
  rbb_inv r -> (forall n, n ∈ nodes -> (n < length (rbb_blk_set r))%nat) ->
  (forall n, lst = Some n -> (n < length (rbb_blk_set r))%nat) ->
  exists res r', queue_loop nodes len lst total q r = Some (res, r') /\ rbb_inv r'.
Proof.
  revert lst total q r. induction nodes as [|n nodes IH]; intros lst total q r Hi Hn Hl; [by exists (total, q), r|].
  destruct (lookup_lt_is_Some_2 _ _ (Hn n ltac:(set_solver))) as [b Hb].
  destruct (take_ok r n b Hi Hb) as (r1 & E1 & Hi1 & Hl1).
  assert (forall total q, exists res r', queue_loop nodes len (Some n) total q r1 = Some (res, r') /\ rbb_inv r') as Hgo.
  { intros. apply IH; [done|intros; rewrite Hl1; apply Hn; set_solver|intros ? [= <-]; rewrite Hl1; apply Hn; set_solver]. }
  cbn [queue_loop]. rewrite (bind_run _ _ _ _ _ (rd_blk_run r n b Hb)).
  unfold list_remove, upd_blk in E1. munfold in E1. cbn [rbb_blk_set set_blk_list] in E1. rewrite Hb in E1. injection E1 as <-.
  destruct lst as [lb|].
  - destruct (lookup_lt_is_Some_2 _ _ (Hl lb eq_refl)) as [bl Hbl]. rewrite (bind_run _ _ _ _ _ (rd_blk_run r lb bl Hbl)).
    case_match; [by eexists _, r|]. unfold list_remove, upd_blk. munfold. cbn [rbb_blk_set set_blk_list]. rewrite Hb. apply Hgo.
  - case_bool_decide; [|apply IH; [done|set_solver|done]].
    unfold list_remove, upd_blk. munfold. cbn [rbb_blk_set set_blk_list]. rewrite Hb. apply Hgo.
Qed.

(** ** Sequences of calls *)

Inductive rbb_call := CAlloc (size : Z) | CPut (n : nat) | CGet | CFree (n : nat) | CQueueGet (len : Z).

Definition rbb_exec (c : rbb_call) : M rt_rbb unit :=
  match c with
  | CAlloc size => o ← rt_rbb_blk_alloc size; mret tt
  | CPut n => rt_rbb_blk_put n
  | CGet => o ← rt_rbb_blk_get; mret tt
  | CFree n => rt_rbb_blk_free n
  | CQueueGet len => o ← rt_rbb_blk_queue_get len; mret tt
  end.
Fixpoint rbb_run (cs : list rbb_call) : M rt_rbb unit :=
  match cs with [] => mret tt | c :: cs' => rbb_exec c ;; rbb_run cs' end.

(** The contract: sizes fit the area and are not zero, put and free name blocks that are in use. *)
Definition rbb_legal (c : rbb_call) (r : rt_rbb) : Prop :=
  match c with
  | CAlloc size => 0 < size <= rbb_buf_size r
  | CPut n => exists b, rbb_blk_set r !! n = Some b /\ bk_status b = RT_RBB_BLK_INITED
  | CFree n => exists b, rbb_blk_set r !! n = Some b /\ bk_status b <> RT_RBB_BLK_UNUSED
  | CGet | CQueueGet _ => True
  end.
Fixpoint rbb_legal_run (cs : list rbb_call) (r : rt_rbb) : Prop :=
  match cs with
  | [] => True
  | c :: cs' => rbb_legal c r /\ forall r', rbb_exec c r = Some (tt, r') -> rbb_legal_run cs' r'
  end.

Lemma rbb_exec_ok c r : rbb_inv r -> rbb_legal c r -> exists r', rbb_exec c r = Some (tt, r') /\ rbb_inv r'.
Proof.
  intros Hi Hl. destruct c as [sz|n| |n|len]; cbn [rbb_exec rbb_legal] in *.
  - destruct (rbb_alloc_ok sz r Hi Hl) as (o & r' & E & Hi' & _). exists r'. by rewrite (bind_run _ _ _ _ _ E).
  - destruct Hl as (b & Hb & _). unfold rt_rbb_blk_put, upd_blk. rewrite Hb. eexists. split; [done|]. by apply inv_status.
  - destruct (rbb_get_ok r Hi) as [(l1 & n & l2 & b & _ & Hb & _ & _ & E)|[_ E]]; rewrite (bind_run _ _ _ _ _ E).
    + eexists. split; [done|]. by apply inv_status.
    + by exists r.
  - destruct Hl as (b & Hb & _). unfold rt_rbb_blk_free, list_remove, upd_blk. munfold. cbn [rbb_blk_set set_blk_list].
    rewrite Hb. eexists. split; [done|]. apply (inv_unlisted _ n _ (inv_remove r n Hi)). cbn. rewrite elem_of_list_del. tauto.
  - destruct (queue_loop_ok (rbb_blk_list r) len None 0 None r Hi) as (res & r' & E & Hi'); [|done|].
    + intros n Hn. destruct (listed_used r n Hi Hn) as (b & Hb & _). by apply lookup_lt_Some in Hb.
    + exists r'. unfold rt_rbb_blk_queue_get. munfold. cbn [id]. by rewrite E.
Qed.

Lemma rbb_run_ok cs r : rbb_inv r -> rbb_legal_run cs r -> exists r', rbb_run cs r = Some (tt, r') /\ rbb_inv r'.
Proof.
  revert r. induction cs as [|c cs IH]; intros r Hi Hl; [by exists r|]. destruct Hl as [Hc Hrest].
  destruct (rbb_exec_ok c r Hi Hc) as (r1 & E & Hi1). destruct (IH r1 Hi1 (Hrest r1 E)) as (r2 & E2 & Hi2).
  exists r2. cbn [rbb_run]. by rewrite (bind_run _ _ _ _ _ E).
Qed.

Lemma init_status_ok n s : (n = length s)%nat -> exists s', init_status n s = Some s' /\ length s' = n.
Proof.
  revert n. induction s as [|b s IH]; intros n ->; cbn; [by exists []|]. destruct (IH _ eq_refl) as (s' & -> & Hl). cbn.
  eexists. split; [done|]. cbn. by rewrite Hl.
Qed.

Lemma rbb_init_ok buf size s :
  0 <= buf -> 0 <= size < 2 ^ 24 -> buf + size < 2 ^ 32 ->
  exists r, rt_rbb_init buf size s (Z.of_nat (length s)) = Some r /\ rbb_inv r.
Proof.
  intros H1 H2 H3. unfold rt_rbb_init. rewrite Nat2Z.id. destruct (init_status_ok _ s eq_refl) as (s' & -> & Hl).
  eexists. split; [done|]. split; cbn; [lia|by rewrite Hl|apply NoDup_nil_2|].
  exists []. split; [constructor|]. exists [], [], buf. cbn. split_and!; done || lia.
Qed.

(** C38: after any sequence of allocations, puts, gets, frees and queue gets on a ring block buffer
    that respects the contract (block sizes between one byte and the whole area; put and free on
    blocks in use), every call returns, the blocks in the list lie inside the area, and no two of
    them overlap. *)
Theorem rbb_calls_keep_blocks_apart buf size s cs r :
  0 <= buf -> 0 <= size < 2 ^ 24 -> buf + size < 2 ^ 32 ->
  rt_rbb_init buf size s (Z.of_nat (length s)) = Some r -> rbb_legal_run cs r ->
  exists r', rbb_run cs r = Some (tt, r') /\
    forall i b, rbb_blk_list r' !! i = Some b -> exists k, rbb_blk_set r' !! b = Some k /\
      bk_status k <> RT_RBB_BLK_UNUSED /\
      rbb_buf r' <= bk_buf k /\ 0 < bk_size k /\ bk_buf k + bk_size k <= rbb_buf r' + rbb_buf_size r' /\
      forall j c, i <> j -> rbb_blk_list r' !! j = Some c -> exists k', rbb_blk_set r' !! c = Some k' /\
        (bk_buf k + bk_size k <= bk_buf k' \/ bk_buf k' + bk_size k' <= bk_buf k).
Proof.
  intros H1 H2 H3 E Hl. destruct (rbb_init_ok buf size s H1 H2 H3) as (r0 & E0 & Hi). rewrite E in E0. injection E0 as <-.
  destruct (rbb_run_ok cs r Hi Hl) as (r' & Er & [_ _ _ (sp & Hf & Hr)]). exists r'. split; [done|].
  destruct (ring_apart _ _ _ Hr) as [Hin Hap]. intros i b Hb.
  destruct (Forall2_lookup_l _ _ _ _ _ Hf Hb) as (x & Hx & k & Ek & -> & Hst). exists k.
  destruct (Hin _ (list_elem_of_lookup_2 _ _ _ Hx)) as (? & ? & ?). split_and!; [done..|].
  intros j c Hne Hc. destruct (Forall2_lookup_l _ _ _ _ _ Hf Hc) as (y & Hy & k' & Ek' & -> & _). exists k'.
  split; [done|]. exact (Hap i j _ _ Hne Hx Hy).
Qed.

(** ** Runs *)

(** A buffer of 100 bytes at 0x1000 with three control blocks. *)
Definition rbb0 : rt_rbb := Rbb 0x1000 100 (replicate 3 (RbbBlk RT_RBB_BLK_UNUSED 0 0)) 3 [].

Definition rbb_demo : list rbb_call :=
  [CAlloc 40; CAlloc 40; CPut 0; CGet; CFree 0; CAlloc 30; CPut 1; CAlloc 10].

(** Blocks are allocated to the end, the first is freed, and the next ones go to its place. *)
Lemma rbb_calls_keep_blocks_apart_witness :
  rbb_run rbb_demo rbb0 =
    Some (tt, Rbb 0x1000 100 [RbbBlk RT_RBB_BLK_INITED 30 0x1000; RbbBlk RT_RBB_BLK_PUT 40 0x1028;
                              RbbBlk RT_RBB_BLK_INITED 10 0x101E] 3 [1%nat; 0%nat; 2%nat]) /\
  exists r', rbb_run rbb_demo rbb0 = Some (tt, r') /\
    forall i b, rbb_blk_list r' !! i = Some b -> exists k, rbb_blk_set r' !! b = Some k /\
      bk_status k <> RT_RBB_BLK_UNUSED /\
      rbb_buf r' <= bk_buf k /\ 0 < bk_size k /\ bk_buf k + bk_size k <= rbb_buf r' + rbb_buf_size r' /\
      forall j c, i <> j -> rbb_blk_list r' !! j = Some c -> exists k', rbb_blk_set r' !! c = Some k' /\
        (bk_buf k + bk_size k <= bk_buf k' \/ bk_buf k' + bk_size k' <= bk_buf k).
Proof.
  split; [vm_compute; reflexivity|].
  apply (rbb_calls_keep_blocks_apart 0x1000 100 (replicate 3 (RbbBlk RT_RBB_BLK_UNUSED 0 0)) rbb_demo rbb0);
    [lia|lia|lia|vm_compute; reflexivity|].
  cbn [rbb_demo rbb_legal_run rbb_legal].
  repeat (split; [first [exact I|vm_compute; intuition congruence|eexists; split; [vm_compute; reflexivity|vm_compute; congruence]]|];
          let r' := fresh "r" in let E := fresh "E" in intros r' E; vm_compute in E; injection E as <-).
  exact I.
Defined.

(** *** Where the contract matters *)

(** The control blocks after a sequence of calls. *)
Definition blocks_after (cs : list rbb_call) (r : rt_rbb) : option (list rt_rbb_blk) :=
  match rbb_run cs r with Some (_, r') => Some (rbb_blk_set r') | None => None end.

(** The result of a queue get after them, and the length rt_rbb_blk_queue_len then gives. *)
Definition queue_after (cs : list rbb_call) (len : Z) (r : rt_rbb) : option (Z * Z * list rt_rbb_blk) :=
  match rbb_run cs r with
  | Some (_, r1) =>
    match rt_rbb_blk_queue_get len r1 with
    | Some ((total, Some q), r2) =>
      match rt_rbb_blk_queue_len q r2 with Some (n, _) => Some (total, n, rbb_blk_set r2) | None => None end
    | _ => None
    end
  | None => None
  end.

(** An empty buffer hands out a block that is larger than its area. *)
Lemma rbb_alloc_overruns :
  head <$> blocks_after [CAlloc 200] rbb0 = Some (Some (RbbBlk RT_RBB_BLK_INITED 200 0x1000)).
Proof. vm_compute. reflexivity. Qed.

(** A block of no bytes behind a block that wrapped around hides the wrap: the next block overlaps
    the oldest one. *)
Lemma rbb_zero_block_overlaps :
  blocks_after [CAlloc 50; CAlloc 25; CFree 0; CAlloc 50; CAlloc 0; CAlloc 25]
    (Rbb 0x1000 75 (replicate 4 (RbbBlk RT_RBB_BLK_UNUSED 0 0)) 4 []) =
  Some [RbbBlk RT_RBB_BLK_INITED 50 0x1000; RbbBlk RT_RBB_BLK_INITED 25 0x1032;
        RbbBlk RT_RBB_BLK_INITED 0 0x1032; RbbBlk RT_RBB_BLK_INITED 25 0x1032].
Proof. vm_compute. reflexivity. Qed.

(** rt_rbb_blk_queue_get takes its blocks off the list: the next allocation gets their memory while
    the queue is still being read. *)
Lemma rbb_queue_reused :
  blocks_after [CAlloc 40; CPut 0; CQueueGet 100; CAlloc 40] rbb0 =
  Some [RbbBlk RT_RBB_BLK_GET 40 0x1000; RbbBlk RT_RBB_BLK_INITED 40 0x1000; RbbBlk RT_RBB_BLK_UNUSED 0 0].
Proof. vm_compute. reflexivity. Qed.

(** A queue names its blocks by the first one and their number, as if they were neighbours in the
    array of control blocks; here they are the blocks 1 and 0, but the length is that of 1 and 2. *)
Lemma rbb_queue_wrong_blocks :
  queue_after [CAlloc 10; CAlloc 20; CAlloc 30; CFree 0; CPut 1; CFree 2; CAlloc 40; CPut 0] 100 rbb0 =
  Some (60, 50, [RbbBlk RT_RBB_BLK_GET 40 0x101E; RbbBlk RT_RBB_BLK_GET 20 0x100A; RbbBlk RT_RBB_BLK_UNUSED 30 0x101E]).
Proof. vm_compute. reflexivity. Qed.

(** The blocks of a queue need not be continuous in memory. *)
Lemma rbb_queue_gap :
  queue_after [CAlloc 10; CAlloc 20; CAlloc 30; CFree 1; CPut 0; CPut 2] 100 rbb0 =
  Some (40, 30, [RbbBlk RT_RBB_BLK_GET 10 0x1000; RbbBlk RT_RBB_BLK_UNUSED 20 0x100A; RbbBlk RT_RBB_BLK_GET 30 0x101E]).
Proof. vm_compute. reflexivity. Qed.

(** The first block of a queue may exceed the given limit. *)
Lemma rbb_queue_over_limit :
  queue_after [CAlloc 40; CPut 0] 16 rbb0 =
  Some (40, 40, [RbbBlk RT_RBB_BLK_GET 40 0x1000; RbbBlk RT_RBB_BLK_UNUSED 0 0; RbbBlk RT_RBB_BLK_UNUSED 0 0]).
Proof. vm_compute. reflexivity. Qed.
