(* ===== verification/RingBuffer.v ===== *)
(** * Byte ring buffer with mirror bits
    (rt-thread/components/drivers/src/ringbuffer.c and include/ipc/ringbuffer.h)

    The serial drivers of the pile queue received bytes in this structure.
    The component's contract is a bounded FIFO of bytes; [rb_contents] is the
    abstraction function and the theorems at the end relate every operation
    to the FIFO. *)
From S2P Require Import Prelude.
From stdpp Require Import base gmap sets list.
From Stdlib Require Import ZArith Lia.
#[local] Open Scope Z_scope.

Module RingBuffer.

(** struct rt_ringbuffer; the bit fields are 1 bit (mirrors) and 15 bits
    (indices) wide, [buffer_size] is an int16. *)
Record rt_ringbuffer := RB {
  buffer_ptr : list Z;
  read_mirror : Z;
  read_index : Z;
  write_mirror : Z;
  write_index : Z;
  buffer_size : Z;
}.

Inductive rt_ringbuffer_state :=
| RT_RINGBUFFER_EMPTY
| RT_RINGBUFFER_FULL
| RT_RINGBUFFER_HALFFULL.

#[global] Instance state_eq_dec : EqDecision rt_ringbuffer_state.
Proof. solve_decision. Defined.

(** Bit-field stores. *)
Definition bit1 (z : Z) : Z := wrap 1 z.
Definition bits15 (z : Z) : Z := wrap 15 z.

Definition set_read (mir idx : Z) (rb : rt_ringbuffer) : rt_ringbuffer :=
  RB (buffer_ptr rb) (bit1 mir) (bits15 idx) (write_mirror rb) (write_index rb) (buffer_size rb).
Definition set_write (mir idx : Z) (rb : rt_ringbuffer) : rt_ringbuffer :=
  RB (buffer_ptr rb) (read_mirror rb) (read_index rb) (bit1 mir) (bits15 idx) (buffer_size rb).
Definition set_buffer (b : list Z) (rb : rt_ringbuffer) : rt_ringbuffer :=
  RB b (read_mirror rb) (read_index rb) (write_mirror rb) (write_index rb) (buffer_size rb).

(** [memcpy] between arrays: reads and writes outside an array are undefined. *)
Definition slice (src : list Z) (off len : Z) : option (list Z) :=
  if bool_decide (0 <= off /\ 0 <= len /\ off + len <= Z.of_nat (length src))
  then Some (take (Z.to_nat len) (drop (Z.to_nat off) src)) else None.
Definition blit (dst : list Z) (off : Z) (src : list Z) : option (list Z) :=
  if bool_decide (0 <= off /\ off + Z.of_nat (length src) <= Z.of_nat (length dst))
  then Some (take (Z.to_nat off) dst ++ src ++ drop (Z.to_nat off + length src) dst)
  else None.

Definition rt_ringbuffer_status (rb : rt_ringbuffer) : rt_ringbuffer_state :=
  if bool_decide (read_index rb = write_index rb) then
    if bool_decide (read_mirror rb = write_mirror rb) then RT_RINGBUFFER_EMPTY
    else RT_RINGBUFFER_FULL
  else RT_RINGBUFFER_HALFFULL.

Definition rt_ringbuffer_init (pool : list Z) (size : Z) : rt_ringbuffer :=
  RB pool 0 0 0 0 (RT_ALIGN_DOWN size).

Definition rt_ringbuffer_data_len (rb : rt_ringbuffer) : Z :=
  match rt_ringbuffer_status rb with
  | RT_RINGBUFFER_EMPTY => 0
  | RT_RINGBUFFER_FULL => u32 (buffer_size rb)
  | RT_RINGBUFFER_HALFFULL =>
      if bool_decide (write_index rb > read_index rb)
      then u32 (write_index rb - read_index rb)
      else u32 (buffer_size rb - (read_index rb - write_index rb))
  end.

Definition rt_ringbuffer_get_size (rb : rt_ringbuffer) : Z := u16 (buffer_size rb).

(** The macro rt_ringbuffer_space_len: unsigned 32-bit subtraction. *)
Definition rt_ringbuffer_space_len (rb : rt_ringbuffer) : Z :=
  u32 (buffer_size rb - rt_ringbuffer_data_len rb).

Definition rt_ringbuffer_put (rb : rt_ringbuffer) (ptr : list Z) (length : Z)
    : option (Z * rt_ringbuffer) :=
  let size := u16 (rt_ringbuffer_space_len rb) in
  if bool_decide (size = 0) then Some (0, rb) else
  let length := if bool_decide (size < length) then size else length in
  if bool_decide (buffer_size rb - write_index rb > length) then
    src ← slice ptr 0 length;
    b ← blit (buffer_ptr rb) (write_index rb) src;
    Some (length, set_write (write_mirror rb) (write_index rb + length) (set_buffer b rb))
  else
    let first := buffer_size rb - write_index rb in
    src1 ← slice ptr 0 first;
    b ← blit (buffer_ptr rb) (write_index rb) src1;
    src2 ← slice ptr first (length - first);
    b ← blit b 0 src2;
    Some (length, set_write (Z.lnot (write_mirror rb)) (length - first) (set_buffer b rb)).

Definition rt_ringbuffer_put_force (rb : rt_ringbuffer) (ptr : list Z) (length : Z)
    : option (Z * rt_ringbuffer) :=
  let space_length := u16 (rt_ringbuffer_space_len rb) in
  let '(ptr, length) :=
    if bool_decide (length > buffer_size rb)
    then (drop (Z.to_nat (length - buffer_size rb)) ptr, u16 (buffer_size rb))
    else (ptr, length) in
  if bool_decide (buffer_size rb - write_index rb > length) then
    src ← slice ptr 0 length;
    b ← blit (buffer_ptr rb) (write_index rb) src;
    let rb := set_write (write_mirror rb) (write_index rb + length) (set_buffer b rb) in
    let rb := if bool_decide (length > space_length)
              then set_read (read_mirror rb) (write_index rb) rb else rb in
    Some (length, rb)
  else
    let first := buffer_size rb - write_index rb in
    src1 ← slice ptr 0 first;
    b ← blit (buffer_ptr rb) (write_index rb) src1;
    src2 ← slice ptr first (length - first);
    b ← blit b 0 src2;
    let rb := set_write (Z.lnot (write_mirror rb)) (length - first) (set_buffer b rb) in
    let rb := if bool_decide (length > space_length)
              then set_read (Z.lnot (read_mirror rb)) (write_index rb) rb else rb in
    Some (length, rb).

(** The bytes copied to the caller's buffer are the third component. *)
Definition rt_ringbuffer_get (rb : rt_ringbuffer) (length : Z)
    : option (Z * list Z * rt_ringbuffer) :=
  let size := rt_ringbuffer_data_len rb in
  if bool_decide (size = 0) then Some (0, [], rb) else
  let length := if bool_decide (size < length) then u16 size else length in
  if bool_decide (buffer_size rb - read_index rb > length) then
    out ← slice (buffer_ptr rb) (read_index rb) length;
    Some (length, out, set_read (read_mirror rb) (read_index rb + length) rb)
  else
    let first := buffer_size rb - read_index rb in
    out1 ← slice (buffer_ptr rb) (read_index rb) first;
    out2 ← slice (buffer_ptr rb) 0 (length - first);
    Some (length, out1 ++ out2, set_read (Z.lnot (read_mirror rb)) (length - first) rb).

(** [buffer_ptr[i] = ch]. *)
Definition store_byte (b : list Z) (i ch : Z) : option (list Z) :=
  if bool_decide (0 <= i < Z.of_nat (length b)) then Some (<[Z.to_nat i := ch]> b) else None.

Definition rt_ringbuffer_putchar (rb : rt_ringbuffer) (ch : Z) : option (Z * rt_ringbuffer) :=
  if bool_decide (rt_ringbuffer_space_len rb = 0) then Some (0, rb) else
  b ← store_byte (buffer_ptr rb) (write_index rb) ch;
  let rb := set_buffer b rb in
  if bool_decide (write_index rb = buffer_size rb - 1)
  then Some (1, set_write (Z.lnot (write_mirror rb)) 0 rb)
  else Some (1, set_write (write_mirror rb) (write_index rb + 1) rb).

Definition rt_ringbuffer_putchar_force (rb : rt_ringbuffer) (ch : Z)
    : option (Z * rt_ringbuffer) :=
  let old_state := rt_ringbuffer_status rb in
  b ← store_byte (buffer_ptr rb) (write_index rb) ch;
  let rb := set_buffer b rb in
  if bool_decide (write_index rb = buffer_size rb - 1) then
    let rb := set_write (Z.lnot (write_mirror rb)) 0 rb in
    Some (1, if bool_decide (old_state = RT_RINGBUFFER_FULL)
             then set_read (Z.lnot (read_mirror rb)) (write_index rb) rb else rb)
  else
    let rb := set_write (write_mirror rb) (write_index rb + 1) rb in
    Some (1, if bool_decide (old_state = RT_RINGBUFFER_FULL)
             then set_read (read_mirror rb) (write_index rb) rb else rb).

Definition rt_ringbuffer_getchar (rb : rt_ringbuffer) : option (Z * option Z * rt_ringbuffer) :=
  if bool_decide (rt_ringbuffer_data_len rb = 0) then Some (0, None, rb) else
  ch ← buffer_ptr rb !! Z.to_nat (read_index rb);
  if bool_decide (read_index rb = buffer_size rb - 1)
  then Some (1, Some ch, set_read (Z.lnot (read_mirror rb)) 0 rb)
  else Some (1, Some ch, set_read (read_mirror rb) (read_index rb + 1) rb).

Definition rt_ringbuffer_reset (rb : rt_ringbuffer) : rt_ringbuffer :=
  set_write 0 0 (set_read 0 0 rb).

(** The two [rt_malloc] answers (control block, pool) are inputs; [None] is a
    failed allocation, after which no buffer is returned. *)
Definition rt_ringbuffer_create (rb_block : bool) (pool : option (list Z)) (size : Z)
    : option rt_ringbuffer :=
  let size := u16 (RT_ALIGN_DOWN size) in
  if rb_block then
    match pool with
    | None => None
    | Some p => Some (rt_ringbuffer_init p (s16 size))
    end
  else None.

(** ** Cyclic reads and writes *)

Definition pos (size j : nat) : nat := if decide (j < size)%nat then j else (j - size)%nat.
Definition byte_at (b : list Z) (j : nat) : Z := default 0 (b !! j).

(** The [n] bytes found from index [r] on, going round at [size]. *)
Definition cyc (b : list Z) (size r n : nat) : list Z :=
  (fun i => byte_at b (pos size (r + i))) <$> seq 0 n.

(** [b'] is [b] with [src] stored from index [w] on, going round at [size]. *)
Definition cyc_write (b b' : list Z) (size w : nat) (src : list Z) : Prop :=
  length b' = length b /\
  forall k, (k < size)%nat ->
    byte_at b' (pos size (w + k)) =
      if decide (k < length src)%nat then byte_at src k else byte_at b (pos size (w + k)).

Lemma length_cyc b size r n : length (cyc b size r n) = n.
Proof. unfold cyc. by rewrite length_fmap, length_seq. Qed.

Lemma cyc_lookup b size r n i :
  (i < n)%nat -> cyc b size r n !! i = Some (byte_at b (pos size (r + i))).
Proof. intros Hi. unfold cyc. by rewrite list_lookup_fmap, lookup_seq_lt. Qed.

Lemma byte_at_lookup (l : list Z) i : (i < length l)%nat -> l !! i = Some (byte_at l i).
Proof. intros [x Hx]%lookup_lt_is_Some. unfold byte_at. by rewrite Hx. Qed.

Ltac ring_arith := unfold pos in *; repeat case_decide; lia.

Lemma cyc_after_write b b' size r len w src d :
  cyc_write b b' size w src -> (r < size)%nat -> w = pos size (r + len) ->
  (len <= size)%nat -> (length src <= size)%nat -> (d <= size)%nat ->
  (d <= len + length src)%nat -> (len + length src - d <= size)%nat ->
  cyc b' size (pos size (r + d)) (len + length src - d) = drop d (cyc b size r len ++ src).
Proof.
  intros [_ Hw] Hr Ew Hl Hs Hd Hd1 Hd2. apply list_eq. intros i.
  rewrite lookup_drop. destruct (decide (i < len + length src - d)%nat) as [Hi|Hi]; cycle 1.
  { rewrite !lookup_ge_None_2; [done|rewrite length_app, length_cyc; lia|rewrite length_cyc; lia]. }
  rewrite cyc_lookup by done. destruct (decide (d + i < len)%nat) as [Ht|Ht].
  - rewrite lookup_app_l by (rewrite length_cyc; lia). rewrite cyc_lookup by lia. f_equal.
    specialize (Hw (d + i + size - len)%nat).
    replace (pos size (w + (d + i + size - len))) with (pos size (r + (d + i))) in Hw by ring_arith.
    replace (pos size (pos size (r + d) + i)) with (pos size (r + (d + i))) by ring_arith.
    rewrite Hw by lia. rewrite decide_False by lia. done.
  - rewrite lookup_app_r by (rewrite length_cyc; lia). rewrite length_cyc.
    rewrite byte_at_lookup by lia. f_equal. specialize (Hw (d + i - len)%nat).
    replace (pos size (pos size (r + d) + i)) with (pos size (w + (d + i - len))) by ring_arith.
    rewrite Hw by lia. by rewrite decide_True by lia.
Qed.

Lemma cyc_drop b size r n d :
  (r < size)%nat -> (n <= size)%nat -> (d <= n)%nat ->
  cyc b size (pos size (r + d)) (n - d) = drop d (cyc b size r n).
Proof.
  intros Hr Hn Hd. apply list_eq. intros i. rewrite lookup_drop.
  destruct (decide (i < n - d)%nat).
  - rewrite !cyc_lookup by lia. do 2 f_equal. ring_arith.
  - rewrite !lookup_ge_None_2; [done|rewrite length_cyc; lia..].
Qed.

Lemma cyc_take b size r n d : (d <= n)%nat -> cyc b size r d = take d (cyc b size r n).
Proof.
  intros Hd. apply list_eq. intros i. rewrite lookup_take.
  case_decide; [by rewrite !cyc_lookup by lia|].
  rewrite lookup_ge_None_2; [done|rewrite length_cyc; lia].
Qed.

(** ** [memcpy] as cyclic reads and writes *)

Lemma slice_Some src off len :
  0 <= off -> 0 <= len -> off + len <= Z.of_nat (length src) ->
  slice src off len = Some (take (Z.to_nat len) (drop (Z.to_nat off) src)).
Proof. intros. unfold slice. by rewrite bool_decide_true by lia. Qed.

Lemma blit_Some dst off src :
  0 <= off -> off + Z.of_nat (length src) <= Z.of_nat (length dst) ->
  exists b, blit dst off src = Some b /\ length b = length dst /\
    forall j, b !! j = if decide (Z.to_nat off <= j < Z.to_nat off + length src)%nat
                       then src !! (j - Z.to_nat off)%nat else dst !! j.
Proof.
  intros Ho Hl. unfold blit. rewrite bool_decide_true by lia. eexists. split; [done|].
  split; [rewrite !length_app, length_take, length_drop; lia|]. intros j.
  destruct (decide (j < Z.to_nat off)%nat).
  { rewrite lookup_app_l by (rewrite length_take; lia).
    rewrite lookup_take_lt by lia. by rewrite decide_False by lia. }
  rewrite lookup_app_r by (rewrite length_take; lia). rewrite length_take.
  replace (j - Z.to_nat off `min` length dst)%nat with (j - Z.to_nat off)%nat by lia.
  case_decide.
  - by rewrite lookup_app_l by lia.
  - rewrite lookup_app_r by lia. rewrite lookup_drop. f_equal. lia.
Qed.

Lemma blit_cyc1 b size w src :
  (size <= length b)%nat -> (w < size)%nat -> (w + length src <= size)%nat ->
  exists b', blit b (Z.of_nat w) src = Some b' /\ cyc_write b b' size w src.
Proof.
  intros Hb Hw Hs. destruct (blit_Some b (Z.of_nat w) src) as (b' & E & Hl & Hj); [lia..|].
  exists b'. split; [done|]. split; [done|]. intros k Hk. unfold byte_at. rewrite Hj, Nat2Z.id.
  unfold pos. repeat case_decide; try lia; try done. do 2 f_equal. lia.
Qed.

Lemma blit_cyc2 b size w src1 src2 :
  (size <= length b)%nat -> (w < size)%nat -> (w + length src1 = size)%nat ->
  (length src2 <= w)%nat ->
  exists b1 b', blit b (Z.of_nat w) src1 = Some b1 /\ blit b1 0 src2 = Some b' /\
    cyc_write b b' size w (src1 ++ src2).
Proof.
  intros Hb Hw Hs1 Hs2. destruct (blit_Some b (Z.of_nat w) src1) as (b1 & E1 & Hl1 & Hj1); [lia..|].
  destruct (blit_Some b1 0 src2) as (b' & E & Hl & Hj); [lia..|].
  exists b1, b'. split_and!; [done..|]. split; [lia|]. intros k Hk.
  unfold byte_at. rewrite Hj, Hj1, Nat2Z.id, length_app. unfold pos.
  repeat case_decide; try lia; try done.
  all: first [rewrite lookup_app_l by lia | rewrite lookup_app_r by lia]; do 2 f_equal; lia.
Qed.

(** ** Invariant and abstraction *)

Record rb_wf (rb : rt_ringbuffer) : Prop := {
  wf_size : 0 < buffer_size rb < 2 ^ 15;
  wf_pool : buffer_size rb <= Z.of_nat (length (buffer_ptr rb));
  wf_read : 0 <= read_index rb < buffer_size rb;
  wf_write : 0 <= write_index rb < buffer_size rb;
  wf_rm : read_mirror rb = 0 \/ read_mirror rb = 1;
  wf_wm : write_mirror rb = 0 \/ write_mirror rb = 1;
  wf_same : read_mirror rb = write_mirror rb -> read_index rb <= write_index rb;
  wf_diff : read_mirror rb <> write_mirror rb -> write_index rb <= read_index rb;
}.

Definition rb_len (rb : rt_ringbuffer) : Z :=
  if decide (read_mirror rb = write_mirror rb) then write_index rb - read_index rb
  else buffer_size rb - read_index rb + write_index rb.

(** The abstract FIFO: oldest byte first. *)
Definition rb_contents (rb : rt_ringbuffer) : list Z :=
  cyc (buffer_ptr rb) (Z.to_nat (buffer_size rb)) (Z.to_nat (read_index rb)) (Z.to_nat (rb_len rb)).

Lemma rb_len_range rb : rb_wf rb -> 0 <= rb_len rb <= buffer_size rb.
Proof. intros []. unfold rb_len. case_decide; lia. Qed.

Lemma length_contents rb : rb_wf rb -> Z.of_nat (length (rb_contents rb)) = rb_len rb.
Proof. intros H%rb_len_range. unfold rb_contents. rewrite length_cyc. lia. Qed.

Lemma data_len_eq rb : rb_wf rb -> rt_ringbuffer_data_len rb = rb_len rb.
Proof.
  intros []. unfold rt_ringbuffer_data_len, rt_ringbuffer_status, rb_len.
  repeat case_bool_decide; case_decide; try lia; rewrite ?wrap_id by lia; lia.
Qed.

Lemma space_len_eq rb : rb_wf rb -> rt_ringbuffer_space_len rb = buffer_size rb - rb_len rb.
Proof.
  intros H. unfold rt_ringbuffer_space_len. rewrite data_len_eq by done.
  pose proof (rb_len_range rb H). destruct H. apply wrap_id. lia.
Qed.

Lemma bit1_id z : z = 0 \/ z = 1 -> bit1 z = z.
Proof. by intros [->| ->]. Qed.
Lemma bit1_lnot z : z = 0 \/ z = 1 -> bit1 (Z.lnot z) = 1 - z.
Proof. by intros [->| ->]. Qed.
Lemma bits15_id z : 0 <= z < 2 ^ 15 -> bits15 z = z.
Proof. apply wrap_id. Qed.

(** The writer's position after storing [n] bytes. *)
Definition advance_write (n : Z) (b' : list Z) (rb : rt_ringbuffer) : rt_ringbuffer :=
  if bool_decide (buffer_size rb - write_index rb > n)
  then set_write (write_mirror rb) (write_index rb + n) (set_buffer b' rb)
  else set_write (Z.lnot (write_mirror rb)) (n - (buffer_size rb - write_index rb)) (set_buffer b' rb).

Lemma advance_write_ok rb b' src n :
  rb_wf rb -> n = Z.of_nat (length src) ->
  cyc_write (buffer_ptr rb) b' (Z.to_nat (buffer_size rb)) (Z.to_nat (write_index rb)) src ->
  n <= buffer_size rb - rb_len rb ->
  rb_wf (advance_write n b' rb) /\ rb_contents (advance_write n b' rb) = rb_contents rb ++ src /\
  buffer_size (advance_write n b' rb) = buffer_size rb.
Proof.
  intros Hwf Hn Hcw Hsp. pose proof (rb_len_range rb Hwf) as Hr. destruct Hwf.
  assert (E : rb_wf (advance_write n b' rb) /\ rb_len (advance_write n b' rb) = rb_len rb + n /\
     buffer_ptr (advance_write n b' rb) = b' /\ read_index (advance_write n b' rb) = read_index rb /\
     buffer_size (advance_write n b' rb) = buffer_size rb).
  { destruct Hcw as [Hcl _].
    assert (read_mirror rb <> 1 - read_mirror rb) by lia.
    unfold advance_write, rb_len in *; case_bool_decide; cbn;
      rewrite ?bit1_id, ?bit1_lnot, ?bits15_id by (first [done | repeat case_decide; lia]);
      (split_and!; [split; cbn; rewrite ?bit1_id, ?bit1_lnot, ?bits15_id by (first [done | repeat case_decide; lia]);
        repeat case_decide; try lia | repeat case_decide; lia | done..]). }
  destruct E as (E1 & E2 & E3 & E4 & E5). split_and!; [done| |done].
  unfold rb_contents. rewrite E2, E3, E4, E5.
  rewrite <- (drop_0 (_ ++ src)), <- (cyc_after_write _ b' _ _ _ (Z.to_nat (write_index rb)) src 0);
    try done; try lia.
  - f_equal; [ring_arith | lia].
  - unfold rb_len in *; unfold pos; repeat case_decide; lia.
Qed.

(** The two [memcpy] shapes of the writers, for [n] bytes of [ptr]. *)
Lemma write_bytes rb ptr n :
  rb_wf rb -> 0 <= n <= buffer_size rb -> n <= Z.of_nat (length ptr) ->
  let src := take (Z.to_nat n) ptr in
  let first := buffer_size rb - write_index rb in
  if bool_decide (first > n) then
    exists b', (src' ← slice ptr 0 n; blit (buffer_ptr rb) (write_index rb) src') = Some b' /\
      slice ptr 0 n = Some src /\
      cyc_write (buffer_ptr rb) b' (Z.to_nat (buffer_size rb)) (Z.to_nat (write_index rb)) src
  else
    exists s1 s2 b1 b', slice ptr 0 first = Some s1 /\ blit (buffer_ptr rb) (write_index rb) s1 = Some b1 /\
      slice ptr first (n - first) = Some s2 /\ blit b1 0 s2 = Some b' /\
      cyc_write (buffer_ptr rb) b' (Z.to_nat (buffer_size rb)) (Z.to_nat (write_index rb)) src.
Proof.
  intros Hwf Hn Hp src first. destruct Hwf.
  assert (Hsrc : length src = Z.to_nat n) by (unfold src; rewrite length_take; lia).
  case_bool_decide as Hf.
  - rewrite slice_Some by lia. cbn [Z.to_nat drop]. fold src.
    destruct (blit_cyc1 (buffer_ptr rb) (Z.to_nat (buffer_size rb)) (Z.to_nat (write_index rb)) src)
      as (b' & E & Hcw); [lia..|]. rewrite Z2Nat.id in E by lia. by exists b'.
  - rewrite !slice_Some by lia. cbn [Z.to_nat drop].
    destruct (blit_cyc2 (buffer_ptr rb) (Z.to_nat (buffer_size rb)) (Z.to_nat (write_index rb))
      (take (Z.to_nat first) ptr) (take (Z.to_nat (n - first)) (drop (Z.to_nat first) ptr)))
      as (b1 & b' & E1 & E2 & Hcw); [rewrite ?length_take, ?length_drop; lia..|].
    rewrite Z2Nat.id in E1 by lia. do 4 eexists. split_and!; try done.
    enough (Hs : src = take (Z.to_nat first) ptr ++ take (Z.to_nat (n - first)) (drop (Z.to_nat first) ptr))
      by (by rewrite Hs).
    unfold src. replace (Z.to_nat n) with (Z.to_nat first + Z.to_nat (n - first))%nat by lia.
    by rewrite <- take_take_drop.
Qed.

Lemma put_run rb ptr n :
  rb_wf rb -> 0 <= n <= buffer_size rb - rb_len rb -> n <= Z.of_nat (length ptr) ->
  exists b', cyc_write (buffer_ptr rb) b' (Z.to_nat (buffer_size rb)) (Z.to_nat (write_index rb))
      (take (Z.to_nat n) ptr) /\
    (if bool_decide (buffer_size rb - write_index rb > n) then
      src ← slice ptr 0 n;
      b ← blit (buffer_ptr rb) (write_index rb) src;
      Some (n, set_write (write_mirror rb) (write_index rb + n) (set_buffer b rb))
    else
      let first := buffer_size rb - write_index rb in
      src1 ← slice ptr 0 first;
      b ← blit (buffer_ptr rb) (write_index rb) src1;
      src2 ← slice ptr first (n - first);
      b ← blit b 0 src2;
      Some (n, set_write (Z.lnot (write_mirror rb)) (n - first) (set_buffer b rb)))
    = Some (n, advance_write n b' rb).
Proof.
  intros Hwf Hn Hp. pose proof (rb_len_range rb Hwf).
  pose proof (write_bytes rb ptr n Hwf ltac:(lia) Hp) as Hw. cbn zeta in Hw.
  unfold advance_write. case_bool_decide as Hf.
  - destruct Hw as (b' & E & Es & Hcw). exists b'. split; [done|].
    rewrite Es in E |- *. cbn in E |- *. by rewrite E.
  - destruct Hw as (s1 & s2 & b1 & b' & E1 & E2 & E3 & E4 & Hcw). exists b'. split; [done|].
    rewrite E1. cbn. rewrite E2. cbn. rewrite E3. cbn. by rewrite E4.
Qed.

(** Rt_ringbuffer_put is a bounded append: it stores as many bytes of the buffer as fit,
    in order behind the bytes already there, returns their number and keeps the ring
    well formed; bytes beyond the free space are not written. *)
Theorem ringbuffer_put_correct rb ptr len :
  rb_wf rb -> 0 <= len < 2 ^ 16 -> len <= Z.of_nat (length ptr) ->
  exists n rb', rt_ringbuffer_put rb ptr len = Some (n, rb') /\ rb_wf rb' /\
    buffer_size rb' = buffer_size rb /\
    n = Z.min len (buffer_size rb - Z.of_nat (length (rb_contents rb))) /\
    rb_contents rb' = rb_contents rb ++ take (Z.to_nat n) ptr.
Proof.
  intros Hwf Hl Hp. pose proof (rb_len_range rb Hwf) as Hr.
  rewrite length_contents by done. unfold rt_ringbuffer_put.
  rewrite space_len_eq by done. destruct (wf_size rb Hwf). rewrite wrap_id by lia.
  case_bool_decide as Hz.
  { exists 0, rb. split_and!; try done; [lia|]. by rewrite take_0, app_nil_r. }
  set (n := if bool_decide (buffer_size rb - rb_len rb < len) then buffer_size rb - rb_len rb else len).
  assert (Hn : n = Z.min len (buffer_size rb - rb_len rb)) by (unfold n; case_bool_decide; lia).
  destruct (put_run rb ptr n Hwf ltac:(lia) ltac:(lia)) as (b' & Hcw & E).
  exists n, (advance_write n b' rb). split; [exact E|].
  destruct (advance_write_ok rb b' (take (Z.to_nat n) ptr) n Hwf ltac:(rewrite length_take; lia) Hcw) as (W1 & W2 & W3); [lia|].
  done.
Qed.

Lemma store_byte_ok rb ch :
  rb_wf rb -> exists b', store_byte (buffer_ptr rb) (write_index rb) ch = Some b' /\
    cyc_write (buffer_ptr rb) b' (Z.to_nat (buffer_size rb)) (Z.to_nat (write_index rb)) [ch].
Proof.
  intros []. unfold store_byte. rewrite bool_decide_true by lia. eexists. split; [done|].
  split; [apply length_insert|]. intros k Hk. unfold byte_at.
  destruct (decide (k < length [ch])%nat) as [Hk1|Hk1]; cbn in Hk1.
  - assert (k = O) as -> by lia. replace (pos _ _) with (Z.to_nat (write_index rb)) by ring_arith.
    rewrite list_lookup_insert_eq by lia. done.
  - rewrite list_lookup_insert_ne by ring_arith. done.
Qed.

Lemma putchar_refines rb ch :
  rb_wf rb ->
  exists n rb', rt_ringbuffer_putchar rb ch = Some (n, rb') /\ rb_wf rb' /\
    if decide (Z.of_nat (length (rb_contents rb)) = buffer_size rb)
    then n = 0 /\ rb' = rb else n = 1 /\ rb_contents rb' = rb_contents rb ++ [ch].
Proof.
  intros Hwf. pose proof (rb_len_range rb Hwf) as Hr. rewrite length_contents by done.
  unfold rt_ringbuffer_putchar. rewrite space_len_eq by done.
  case_bool_decide as Hz; case_decide; try lia.
  { by exists 0, rb. }
  destruct (store_byte_ok rb ch Hwf) as (b' & E & Hcw). rewrite E. cbn [mbind option_bind].
  destruct (advance_write_ok rb b' [ch] 1 Hwf ltac:(done) Hcw) as (W1 & W2 & _); [lia|].
  exists 1, (advance_write 1 b' rb). unfold advance_write in *. cbn [write_index buffer_size set_buffer].
  destruct (wf_write rb Hwf).
  repeat case_bool_decide; try lia; split_and!; try done.
  replace (1 - (buffer_size rb - write_index rb)) with 0 by lia. done.
Qed.

Lemma advance_read_ok rb n :
  rb_wf rb -> 0 <= n <= rb_len rb ->
  let rb' := if bool_decide (buffer_size rb - read_index rb > n)
             then set_read (read_mirror rb) (read_index rb + n) rb
             else set_read (Z.lnot (read_mirror rb)) (n - (buffer_size rb - read_index rb)) rb in
  rb_wf rb' /\ rb_contents rb' = drop (Z.to_nat n) (rb_contents rb) /\ buffer_size rb' = buffer_size rb.
Proof.
  intros Hwf Hn rb'. pose proof (rb_len_range rb Hwf) as Hr. destruct Hwf.
  assert (E : rb_wf rb' /\ rb_len rb' = rb_len rb - n /\ buffer_ptr rb' = buffer_ptr rb /\
     Z.to_nat (read_index rb') = pos (Z.to_nat (buffer_size rb)) (Z.to_nat (read_index rb) + Z.to_nat n) /\
     buffer_size rb' = buffer_size rb).
  { assert (write_mirror rb <> 1 - write_mirror rb) by lia.
    unfold rb', rb_len in *; case_bool_decide; cbn;
      rewrite ?bit1_id, ?bit1_lnot, ?bits15_id by (first [done | repeat case_decide; lia]);
      (split_and!; [split; cbn; rewrite ?bit1_id, ?bit1_lnot, ?bits15_id by (first [done | repeat case_decide; lia]);
        repeat case_decide; try lia | repeat case_decide; lia | done | ring_arith | done]). }
  destruct E as (E1 & E2 & E3 & E4 & E5). split_and!; [done| |done].
  unfold rb_contents. rewrite E2, E3, E4, E5, <- cyc_drop by lia. f_equal. lia.
Qed.

(** Rt_ringbuffer_get removes and returns the oldest bytes, as many as are there and
    asked for, so that with rt_ringbuffer_put the ring is a FIFO queue of bytes. *)
Theorem ringbuffer_get_correct rb len :
  rb_wf rb -> 0 <= len < 2 ^ 16 ->
  exists n out rb', rt_ringbuffer_get rb len = Some (n, out, rb') /\ rb_wf rb' /\
    buffer_size rb' = buffer_size rb /\
    n = Z.min len (Z.of_nat (length (rb_contents rb))) /\
    out = take (Z.to_nat n) (rb_contents rb) /\ rb_contents rb' = drop (Z.to_nat n) (rb_contents rb).
Proof.
  intros Hwf Hl. pose proof (rb_len_range rb Hwf) as Hr.
  rewrite length_contents by done. unfold rt_ringbuffer_get.
  rewrite data_len_eq by done. destruct (wf_size rb Hwf) as [Hs1 Hs2].
  case_bool_decide as Hz.
  { exists 0, [], rb. split_and!; try done. lia. }
  rewrite wrap_id by lia.
  set (n := if bool_decide (rb_len rb < len) then rb_len rb else len).
  assert (Hn : n = Z.min len (rb_len rb)) by (unfold n; case_bool_decide; lia).
  pose proof (advance_read_ok rb n Hwf ltac:(lia)) as Ha. cbn zeta in Ha.
  assert (Hout : take (Z.to_nat n) (rb_contents rb) =
    cyc (buffer_ptr rb) (Z.to_nat (buffer_size rb)) (Z.to_nat (read_index rb)) (Z.to_nat n)).
  { unfold rb_contents. rewrite <- cyc_take by lia. done. }
  destruct (wf_read rb Hwf) as [Hr1 Hr2]. pose proof (wf_pool rb Hwf) as Hpl.
  case_bool_decide as Hf; destruct Ha as (A1 & A2 & A3).
  - rewrite slice_Some by lia. cbn [mbind option_bind]. do 3 eexists. split_and!; try done.
    rewrite Hout. apply list_eq. intros i. rewrite lookup_take.
    case_decide; [|rewrite lookup_ge_None_2; [done|rewrite length_cyc; lia]].
    rewrite lookup_drop, cyc_lookup by done. rewrite byte_at_lookup by lia.
    do 2 f_equal. ring_arith.
  - rewrite !slice_Some by lia. cbn [mbind option_bind]. do 3 eexists. split_and!; try done.
    rewrite Hout. change (Z.to_nat 0) with O. rewrite drop_0. apply list_eq. intros i.
    destruct (decide (i < Z.to_nat n)%nat).
    + rewrite cyc_lookup by done. destruct (decide (i < Z.to_nat (buffer_size rb - read_index rb))%nat).
      * rewrite lookup_app_l by (rewrite length_take, length_drop; lia).
        rewrite lookup_take_lt, lookup_drop, byte_at_lookup by lia. do 2 f_equal. ring_arith.
      * rewrite lookup_app_r by (rewrite length_take, length_drop; lia).
        rewrite length_take, length_drop, lookup_take_lt, byte_at_lookup by lia. do 2 f_equal. ring_arith.
    + rewrite !lookup_ge_None_2; [done|rewrite length_cyc; lia|].
      rewrite length_app, !length_take, length_drop. lia.
Qed.

Lemma getchar_refines rb :
  rb_wf rb ->
  exists n o rb', rt_ringbuffer_getchar rb = Some (n, o, rb') /\ rb_wf rb' /\
    match rb_contents rb with
    | [] => n = 0 /\ o = None /\ rb' = rb
    | ch :: rest => n = 1 /\ o = Some ch /\ rb_contents rb' = rest
    end.
Proof.
  intros Hwf. pose proof (rb_len_range rb Hwf) as Hr. pose proof (length_contents rb Hwf) as Hlen.
  unfold rt_ringbuffer_getchar. rewrite data_len_eq by done.
  case_bool_decide as Hz.
  { exists 0, None, rb. destruct (rb_contents rb); [done|cbn in Hlen; lia]. }
  pose proof (advance_read_ok rb 1 Hwf ltac:(lia)) as Ha. cbn zeta in Ha.
  destruct (wf_read rb Hwf) as [Hr1 Hr2]. pose proof (wf_pool rb Hwf) as Hpl.
  rewrite byte_at_lookup by lia. cbn [mbind option_bind].
  assert (Hhd : head (rb_contents rb) = Some (byte_at (buffer_ptr rb) (Z.to_nat (read_index rb)))).
  { rewrite head_lookup. unfold rb_contents. rewrite cyc_lookup by lia. do 2 f_equal. ring_arith. }
  destruct (rb_contents rb) as [|ch rest] eqn:Ec; [cbn in Hlen; lia|]. cbn in Hhd. injection Hhd as ->.
  repeat case_bool_decide; try lia; destruct Ha as (A1 & A2 & _); 
    try replace (1 - (buffer_size rb - read_index rb)) with 0 in * by lia;
    do 3 eexists; split_and!; try done; rewrite A2; reflexivity.
Qed.

(** ** Overwriting writers *)

Ltac rb_simp :=
  unfold set_read, set_write, set_buffer;
  cbn [buffer_ptr read_mirror read_index write_mirror write_index buffer_size];
  repeat match goal with
  | |- context [bit1 (Z.lnot ?z)] => rewrite (bit1_lnot z) by assumption
  | |- context [bit1 ?z] => rewrite (bit1_id z) by (first [assumption | lia])
  | |- context [bits15 ?z] => rewrite (bits15_id z) by lia
  end.

(** A write that runs over the reader, with the reader moved to the writer's
    new position in the opposite mirror. *)
Lemma overwrite_ok rb rb' b' src :
  rb_wf rb ->
  cyc_write (buffer_ptr rb) b' (Z.to_nat (buffer_size rb)) (Z.to_nat (write_index rb)) src ->
  Z.of_nat (length src) <= buffer_size rb -> buffer_size rb < rb_len rb + Z.of_nat (length src) ->
  buffer_ptr rb' = b' -> buffer_size rb' = buffer_size rb ->
  read_index rb' = write_index rb' -> read_mirror rb' = 0 \/ read_mirror rb' = 1 ->
  write_mirror rb' = 0 \/ write_mirror rb' = 1 -> read_mirror rb' <> write_mirror rb' ->
  Z.to_nat (write_index rb') = pos (Z.to_nat (buffer_size rb)) (Z.to_nat (write_index rb) + length src) ->
  0 <= write_index rb' ->
  rb_wf rb' /\ rb_contents rb' =
    drop (Z.to_nat (rb_len rb + Z.of_nat (length src) - buffer_size rb)) (rb_contents rb ++ src).
Proof.
  intros Hwf Hcw Hs Hov Eb Es Eri Hrm Hwm Hne Ew Hw0. pose proof (rb_len_range rb Hwf) as Hr.
  assert (Hl : rb_len rb' = buffer_size rb) by (unfold rb_len; rewrite decide_False by done; lia).
  destruct Hwf. assert (write_index rb' < buffer_size rb) by ring_arith. split.
  { destruct Hcw. split; rewrite ?Es, ?Eri, ?Eb; try done; lia. }
  unfold rb_contents. rewrite Hl, Es, Eb, Eri, Ew.
  rewrite <- (cyc_after_write _ b' _ _ _ (Z.to_nat (write_index rb)) src); try done; try lia.
  - f_equal; [|lia]. unfold rb_len in *. unfold pos. repeat case_decide; lia.
  - unfold rb_len in *; unfold pos; repeat case_decide; lia.
Qed.

(** Rt_ringbuffer_putchar_force always stores its byte; on a full ring it drops the
    oldest one. *)
Theorem ringbuffer_putchar_force_correct rb ch :
  rb_wf rb ->
  exists rb', rt_ringbuffer_putchar_force rb ch = Some (1, rb') /\ rb_wf rb' /\
    rb_contents rb' =
      drop (length (rb_contents rb) + 1 - Z.to_nat (buffer_size rb)) (rb_contents rb ++ [ch]).
Proof.
  intros Hwf. pose proof (rb_len_range rb Hwf) as Hr. pose proof (length_contents rb Hwf) as Hc.
  unfold rt_ringbuffer_putchar_force.
  destruct (store_byte_ok rb ch Hwf) as (b' & E & Hcw). rewrite E. cbn [mbind option_bind].
  destruct (decide (rb_len rb = buffer_size rb)) as [Hfull|Hfull].
  - assert (Hst : rt_ringbuffer_status rb = RT_RINGBUFFER_FULL).
    { destruct Hwf. unfold rt_ringbuffer_status, rb_len in *. repeat case_decide; repeat case_bool_decide; try done; lia. }
    rewrite Hst. rewrite (bool_decide_true (RT_RINGBUFFER_FULL = _)) by done.
    assert (read_mirror rb <> write_mirror rb).
    { destruct Hwf. unfold rb_len in Hfull. case_decide; lia. }
    replace (length (rb_contents rb) + 1 - Z.to_nat (buffer_size rb))%nat
      with (Z.to_nat (rb_len rb + Z.of_nat (length [ch]) - buffer_size rb)) by (cbn; lia).
    pose proof Hwf as []. cbn [write_index buffer_size set_buffer].
    case_bool_decide; eexists; (split; [done|]);
      (apply (overwrite_ok rb _ b' [ch]); rb_simp; cbn [length]; first [done | lia | ring_arith]).
  - assert (Hst : rt_ringbuffer_status rb <> RT_RINGBUFFER_FULL).
    { destruct Hwf. unfold rt_ringbuffer_status, rb_len in *. repeat case_decide; repeat case_bool_decide; try done; lia. }
    rewrite (bool_decide_false (_ = RT_RINGBUFFER_FULL)) by done.
    destruct (advance_write_ok rb b' [ch] 1 Hwf ltac:(done) Hcw) as (W1 & W2 & _); [lia|].
    replace (_ - Z.to_nat (buffer_size rb))%nat with O by lia. rewrite drop_0.
    unfold advance_write in *. destruct (wf_write rb Hwf). cbn [write_index buffer_size set_buffer].
    repeat case_bool_decide; try lia;
      try replace (1 - (buffer_size rb - write_index rb)) with 0 in * by lia; eexists; split_and!; done.
Qed.

(** What [rt_ringbuffer_put_force] does after clipping, for [n <= buffer_size]. *)
Lemma put_force_run rb ptr len :
  rb_wf rb -> 0 <= len < 2 ^ 16 -> len <= Z.of_nat (length ptr) ->
  let n := Z.min len (buffer_size rb) in
  let src := drop (Z.to_nat (len - n)) (take (Z.to_nat len) ptr) in
  exists b', cyc_write (buffer_ptr rb) b' (Z.to_nat (buffer_size rb)) (Z.to_nat (write_index rb)) src /\
    rt_ringbuffer_put_force rb ptr len = Some (n,
      let rb1 := advance_write n b' rb in
      if bool_decide (n > buffer_size rb - rb_len rb) then
        if bool_decide (buffer_size rb - write_index rb > n)
        then set_read (read_mirror rb1) (write_index rb1) rb1
        else set_read (Z.lnot (read_mirror rb1)) (write_index rb1) rb1
      else rb1).
Proof.
  intros Hwf Hl Hp n src. pose proof (rb_len_range rb Hwf) as Hr. pose proof (wf_size rb Hwf) as Hsz.
  unfold rt_ringbuffer_put_force. rewrite space_len_eq by done. rewrite !(wrap_id 16) by lia.
  set (ptr' := drop (Z.to_nat (len - n)) ptr).
  assert (Hsrc : src = take (Z.to_nat n) ptr').
  { unfold src, ptr'. rewrite skipn_firstn_comm. f_equal. lia. }
  assert (Hp' : n <= Z.of_nat (length ptr')) by (unfold ptr'; rewrite length_drop; lia).
  replace (if bool_decide (len > buffer_size rb) then _ else _) with (ptr', n); cycle 1.
  { unfold ptr', n. case_bool_decide; f_equal; try lia; [f_equal; lia|].
    replace (Z.to_nat (len - _)) with O by lia. by rewrite drop_0. }
  pose proof (write_bytes rb ptr' n Hwf ltac:(lia) Hp') as Hw. cbn zeta in Hw. rewrite <- Hsrc in Hw.
  unfold advance_write. case_bool_decide as Hf.
  - destruct Hw as (b' & E & Es & Hcw). exists b'. split; [done|].
    rewrite Es in E |- *. cbn in E |- *. by rewrite E.
  - destruct Hw as (s1 & s2 & b1 & b' & E1 & E2 & E3 & E4 & Hcw). exists b'. split; [done|].
    rewrite E1. cbn. rewrite E2. cbn. rewrite E3. cbn. by rewrite E4.
Qed.

(** Rt_ringbuffer_put_force appends all bytes and drops the oldest ones that do not fit,
    as long as the mirror bits of the read and write index differ or the bytes fit into
    the free space. *)
Theorem ringbuffer_put_force_correct rb ptr len :
  rb_wf rb -> 0 <= len < 2 ^ 16 -> len <= Z.of_nat (length ptr) ->
  read_mirror rb <> write_mirror rb \/ Z.of_nat (length (rb_contents rb)) + len <= buffer_size rb ->
  exists rb', rt_ringbuffer_put_force rb ptr len = Some (Z.min len (buffer_size rb), rb') /\ rb_wf rb' /\
    rb_contents rb' =
      drop (length (rb_contents rb) + Z.to_nat len - Z.to_nat (buffer_size rb))
        (rb_contents rb ++ take (Z.to_nat len) ptr).
Proof.
  intros Hwf Hl Hp Hok. pose proof (rb_len_range rb Hwf) as Hr. pose proof (length_contents rb Hwf) as Hc.
  destruct (put_force_run rb ptr len Hwf Hl Hp) as (b' & Hcw & E). cbn zeta in E. rewrite E. clear E.
  set (n := Z.min len (buffer_size rb)) in *.
  set (src := drop (Z.to_nat (len - n)) (take (Z.to_nat len) ptr)) in *.
  pose proof (wf_size rb Hwf) as Hsz.
  assert (Hsrc : n = Z.of_nat (length src)) by (unfold src; rewrite length_drop, length_take; lia).
  eexists. split; [done|]. case_bool_decide as Hov.
  - destruct Hok as [Hne|]; [|lia].
    assert (Hd : drop (length (rb_contents rb) + Z.to_nat len - Z.to_nat (buffer_size rb))
        (rb_contents rb ++ take (Z.to_nat len) ptr) =
      drop (Z.to_nat (rb_len rb + Z.of_nat (length src) - buffer_size rb)) (rb_contents rb ++ src)).
    { destruct (decide (len <= buffer_size rb)).
      - assert (Es : src = take (Z.to_nat len) ptr)
          by (unfold src; replace (Z.to_nat (len - n)) with O by lia; apply drop_0).
        rewrite <- Es. f_equal. lia.
      - rewrite !drop_app_ge by lia.
        replace (Z.to_nat (rb_len rb + _ - _) - length (rb_contents rb))%nat with O by lia.
        rewrite drop_0. unfold src. f_equal. lia. }
    rewrite Hd. clear Hd. unfold advance_write. pose proof Hwf as [].
    case_bool_decide;
      (apply (overwrite_ok rb _ b' src); rb_simp; first [done | lia | ring_arith]).
  - destruct (advance_write_ok rb b' src n Hwf Hsrc Hcw) as (W1 & W2 & _); [lia|].
    split; [done|]. rewrite W2. unfold src. destruct (decide (len <= buffer_size rb)).
    + replace (_ + _ - Z.to_nat (buffer_size rb))%nat with O by lia.
      by replace (Z.to_nat (len - n)) with O by lia.
    + rewrite (nil_length_inv (rb_contents rb)) by lia. cbn [app length]. f_equal. lia.
Qed.

(** When the bytes do not fit and the mirror bits are equal, rt_ringbuffer_put_force
    flips both mirror bits, so the full ring it meant to leave is reported empty: every
    byte in it, old and new, is lost. *)
Theorem ringbuffer_put_force_loses rb ptr len :
  rb_wf rb -> 0 <= len < 2 ^ 16 -> len <= Z.of_nat (length ptr) ->
  read_mirror rb = write_mirror rb ->
  buffer_size rb < Z.of_nat (length (rb_contents rb)) + Z.min len (buffer_size rb) ->
  exists rb', rt_ringbuffer_put_force rb ptr len = Some (Z.min len (buffer_size rb), rb') /\
    rt_ringbuffer_status rb' = RT_RINGBUFFER_EMPTY /\ rb_contents rb' = [].
Proof.
  intros Hwf Hl Hp Hm Hov. pose proof (rb_len_range rb Hwf) as Hr. rewrite length_contents in Hov by done.
  destruct (put_force_run rb ptr len Hwf Hl Hp) as (b' & _ & E). cbn zeta in E. rewrite E. clear E.
  eexists. split; [done|]. rewrite bool_decide_true by lia. pose proof Hwf as [].
  unfold rb_len in *. rewrite decide_True in * by done.
  rewrite bool_decide_false by lia. unfold advance_write. rewrite bool_decide_false by lia.
  unfold rt_ringbuffer_status, rb_contents, rb_len. rb_simp.
  rewrite Hm, !bool_decide_true, decide_True by done. by rewrite Z.sub_diag.
Qed.

End RingBuffer.
