(* ===== verification/Kservice.v ===== *)
(** * Kernel services (rt-thread/src/kservice.c)

    The find-first-set routine that the scheduler uses to pick a priority. *)
From S2P Require Import Prelude.
From stdpp Require Import base gmap sets list.
From Stdlib Require Import ZArith Lia.
#[local] Open Scope Z_scope.

(** One row of 16 entries of the table: only its first entry varies. *)
Definition bitmap_row (first : Z) : list Z := [first; 0; 1; 0; 2; 0; 1; 0; 3; 0; 1; 0; 2; 0; 1; 0].

Definition lowest_bit_bitmap : list Z :=
  bitmap_row 0 ++ bitmap_row 4 ++ bitmap_row 5 ++ bitmap_row 4 ++
  bitmap_row 6 ++ bitmap_row 4 ++ bitmap_row 5 ++ bitmap_row 4 ++
  bitmap_row 7 ++ bitmap_row 4 ++ bitmap_row 5 ++ bitmap_row 4 ++
  bitmap_row 6 ++ bitmap_row 4 ++ bitmap_row 5 ++ bitmap_row 4.

Definition bitmap_at (i : Z) : Z := default 0 (lowest_bit_bitmap !! Z.to_nat i).

Definition rt_ffs (value : Z) : Z :=
  if bool_decide (value = 0) then 0
  else if bool_decide (Z.land value 0xff <> 0) then bitmap_at (Z.land value 0xff) + 1
  else if bool_decide (Z.land value 0xff00 <> 0) then
    bitmap_at (Z.shiftr (Z.land value 0xff00) 8) + 9
  else if bool_decide (Z.land value 0xff0000 <> 0) then
    bitmap_at (Z.shiftr (Z.land value 0xff0000) 16) + 17
  else bitmap_at (Z.shiftr (Z.land value 0xff000000) 24) + 25.

(** The reference: [p] is the lowest set bit of [v]. *)
Definition lowest_bit (v p : Z) : Prop :=
  0 <= p /\ Z.testbit v p = true /\ forall j, 0 <= j < p -> Z.testbit v j = false.

Definition lowest_bitb (v p : Z) : bool :=
  (0 <=? p) && Z.testbit v p && forallb (fun j => negb (Z.testbit v (Z.of_nat j))) (seq 0 (Z.to_nat p)).

Lemma lowest_bitb_ok v p : lowest_bitb v p = true -> lowest_bit v p.
Proof.
  unfold lowest_bitb. rewrite !andb_true_iff, forallb_forall. intros [[H1 H2] H3].
  split_and!; [lia|done|]. intros j Hj. specialize (H3 (Z.to_nat j)).
  rewrite Z2Nat.id, negb_true_iff in H3 by lia. apply H3. apply in_seq. lia.
Qed.

Lemma bitmap_byte b : 0 < b < 256 -> lowest_bit b (bitmap_at b).
Proof.
  intros Hb. apply lowest_bitb_ok.
  assert (H : forallb (fun n => lowest_bitb (Z.of_nat n) (bitmap_at (Z.of_nat n))) (seq 1 255) = true)
    by (by vm_compute).
  rewrite forallb_forall in H. specialize (H (Z.to_nat b)).
  rewrite Z2Nat.id in H by lia. apply H. apply in_seq. lia.
Qed.

(** The byte of [v] at bit position [k]. *)
Lemma byte_testbit v k j :
  0 <= k -> 0 <= j -> Z.testbit (Z.shiftr (Z.land v (Z.shiftl 255 k)) k) j = (j <? 8) && Z.testbit v (j + k).
Proof.
  intros Hk Hj. rewrite Z.shiftr_spec, Z.land_spec, Z.shiftl_spec by lia.
  replace (j + k - k) with j by lia. change 255 with (Z.ones 8).
  destruct (Z.ltb_spec j 8); [rewrite Z.ones_spec_low by lia|rewrite Z.ones_spec_high by lia];
    rewrite ?andb_true_r, ?andb_false_r; done.
Qed.

Lemma byte_range v k : 0 <= v -> 0 <= k -> 0 <= Z.shiftr (Z.land v (Z.shiftl 255 k)) k < 256.
Proof.
  intros Hv Hk. assert (H0 : 0 <= Z.land v (Z.shiftl 255 k)).
  { apply Z.land_nonneg. by left. }
  rewrite Z.shiftr_land, Z.shiftr_shiftl_l, Z.sub_diag, Z.shiftl_0_r by lia.
  change 255 with (Z.ones 8). rewrite Z.land_ones by lia. apply Z.mod_pos_bound. lia.
Qed.

Lemma byte_lowest v k :
  0 <= v -> 0 <= k -> (forall j, 0 <= j < k -> Z.testbit v j = false) ->
  Z.land v (Z.shiftl 255 k) <> 0 ->
  lowest_bit v (bitmap_at (Z.shiftr (Z.land v (Z.shiftl 255 k)) k) + k).
Proof.
  intros Hv Hk Hlow Hne. set (b := Z.shiftr _ k).
  assert (Hb : 0 < b < 256).
  { pose proof (byte_range v k Hv Hk) as Hr. fold b in Hr. enough (b <> 0) by lia. intros Hz.
    apply Hne. apply Z.bits_inj'. intros i Hi. rewrite Z.bits_0.
    destruct (Z.ltb_spec i k).
    - by rewrite Z.land_spec, Hlow by lia.
    - pose proof (Z.shiftr_spec (Z.land v (Z.shiftl 255 k)) k (i - k) ltac:(lia)) as E.
      fold b in E. rewrite Hz, Z.bits_0 in E. by replace (i - k + k) with i in E by lia. }
  destruct (bitmap_byte b Hb) as (P1 & P2 & P3). set (p := bitmap_at b) in *.
  unfold b in P2. rewrite byte_testbit, andb_true_iff in P2 by lia. destruct P2 as [P2 P4].
  split_and!; [lia|done|]. intros j Hj. destruct (Z.ltb_spec j k); [apply Hlow; lia|].
  specialize (P3 (j - k) ltac:(lia)). unfold b in P3. rewrite byte_testbit in P3 by lia.
  replace (j - k + k) with j in P3 by lia. rewrite (proj2 (Z.ltb_lt (j - k) 8)) in P3 by lia. done.
Qed.

Lemma byte_zero v k j :
  0 <= k -> Z.land v (Z.shiftl 255 k) = 0 -> k <= j < k + 8 -> Z.testbit v j = false.
Proof.
  intros Hk H Hj. pose proof (byte_testbit v k (j - k) Hk ltac:(lia)) as E.
  rewrite H, Z.shiftr_0_l, Z.bits_0 in E. replace (j - k + k) with j in E by lia.
  rewrite (proj2 (Z.ltb_lt (j - k) 8)) in E by lia. done.
Qed.

(** [rt_ffs] returns one more than the lowest set bit. *)
Lemma rt_ffs_lowest v : 0 < v < 2 ^ 32 -> lowest_bit v (rt_ffs v - 1).
Proof.
  intros Hv. unfold rt_ffs. rewrite bool_decide_false by lia.
  pose proof (byte_zero v 0) as Z0. pose proof (byte_zero v 8) as Z1.
  pose proof (byte_zero v 16) as Z2. pose proof (byte_zero v 24) as Z3.
  change (Z.shiftl 255 0) with 0xff in *. change (Z.shiftl 255 8) with 0xff00 in *.
  change (Z.shiftl 255 16) with 0xff0000 in *. change (Z.shiftl 255 24) with 0xff000000 in *.
  repeat case_bool_decide.
  - pose proof (byte_lowest v 0 ltac:(lia) ltac:(lia) ltac:(lia) H) as L.
    change (Z.shiftl 255 0) with 0xff in L. rewrite Z.shiftr_0_r in L.
    by replace (_ + 1 - 1) with (bitmap_at (Z.land v 0xff) + 0) by lia.
  - replace (_ + 9 - 1) with (bitmap_at (Z.shiftr (Z.land v 0xff00) 8) + 8) by lia.
    apply (byte_lowest v 8); try done; [lia|]. intros j Hj. apply Z0; [lia|lia|lia].
  - replace (_ + 17 - 1) with (bitmap_at (Z.shiftr (Z.land v 0xff0000) 16) + 16) by lia.
    apply (byte_lowest v 16); try done; [lia|]. intros j Hj.
    destruct (decide (j < 8)); [apply Z0|apply Z1]; first [lia | lia].
  - replace (_ + 25 - 1) with (bitmap_at (Z.shiftr (Z.land v 0xff000000) 24) + 24) by lia.
    assert (Hlow : forall j, 0 <= j < 24 -> Z.testbit v j = false).
    { intros j Hj. destruct (decide (j < 8)); [apply Z0|destruct (decide (j < 16)); [apply Z1|apply Z2]];
        first [lia | lia]. }
    apply (byte_lowest v 24); try done; [lia|]. intros Hz. change (Z.shiftl 255 24) with 0xff000000 in Hz.
    assert (v = 0); [|lia]. apply Z.bits_inj'. intros i Hi. rewrite Z.bits_0.
    destruct (decide (i < 24)); [by apply Hlow|]. destruct (decide (i < 32)); [apply Z3; lia|].
    apply Z.bits_above_log2; [lia|]. apply Z.log2_lt_pow2; [lia|].
    apply Z.lt_le_trans with (2 ^ 32); [lia|]. apply Z.pow_le_mono_r; lia.
Qed.

(** __rt_ffs, the table lookup behind the choice of the highest ready
    priority, returns 0 for 0 and otherwise one more than the position of the
    lowest set bit of its 32-bit argument. *)
Theorem ffs_lowest_set_bit v :
  0 <= v < 2 ^ 32 -> if decide (v = 0) then rt_ffs v = 0 else lowest_bit v (rt_ffs v - 1).
Proof. intros Hv. case_decide; [by subst|]. apply rt_ffs_lowest. lia. Qed.
