(* ===== verification/KString.v ===== *)
(** * Strings (rt-thread/src/kservice.c)

    A C string is the list of its bytes before the terminating NUL; reading
    the byte at the end of the list yields the NUL.  A byte 0 inside a list ends
    the string there, which is how a padded name array is read.  [char] is
    unsigned, as on ARM. *)
From S2P Require Import Prelude.
From stdpp Require Import base list.
From Stdlib Require Import ZArith Lia.
#[local] Open Scope Z_scope.

(** [*p] for a pointer to the rest of a string. *)
Definition chr (s : list Z) : Z := match s with [] => 0 | c :: _ => c end.

Definition s8 : Z -> Z := swrap 8.

(** The [n] bytes rt_strncpy stores at [dst]. *)
Fixpoint rt_strncpy (src : list Z) (n : nat) : list Z :=
  match n with
  | O => []
  | S n' => if bool_decide (chr src = 0) then 0 :: replicate n' 0
            else chr src :: rt_strncpy (tail src) n'
  end.

Fixpoint rt_strncmp (cs ct : list Z) (count : nat) : Z :=
  match count with
  | O => 0
  | S count' =>
    let res := s8 (chr cs - chr ct) in
    if bool_decide (res <> 0) || bool_decide (chr cs = 0) then res
    else rt_strncmp (tail cs) (tail ct) count'
  end.

(** The loops below end at the NUL of their first argument: the length of the
    list bounds their iterations. *)
Fixpoint strcmp_loop (fuel : nat) (cs ct : list Z) : Z :=
  match fuel with
  | O => chr cs - chr ct
  | S fuel' =>
    if bool_decide (chr cs <> 0) && bool_decide (chr cs = chr ct) then strcmp_loop fuel' (tail cs) (tail ct)
    else chr cs - chr ct
  end.
Definition rt_strcmp (cs ct : list Z) : Z := strcmp_loop (length cs) cs ct.

(** rt_strnlen on the bytes [buf] that may be read, NUL included: [*sc] is read
    before the length is compared; a read past the end is undefined. *)
Fixpoint rt_strnlen (buf : list Z) (maxlen : nat) : option nat :=
  match buf with
  | [] => None
  | c :: buf' =>
    if bool_decide (c = 0) then Some 0%nat
    else match maxlen with
         | O => Some 0%nat
         | S n => S <$> rt_strnlen buf' n
         end
  end.

Fixpoint strlen_loop (fuel : nat) (s : list Z) : nat :=
  match fuel with
  | O => 0%nat
  | S n => if bool_decide (chr s <> 0) then S (strlen_loop n (tail s)) else 0%nat
  end.
Definition rt_strlen (s : list Z) : nat := strlen_loop (length s) s.

Definition lower (c : Z) : Z := if bool_decide (65 <= c <= 90) then c + (97 - 65) else c.
Fixpoint strcasecmp_loop (fuel : nat) (a b : list Z) : Z :=
  let ca := lower (Z.land (chr a) 0xff) in
  let cb := lower (Z.land (chr b) 0xff) in
  match fuel with
  | O => u32 (ca - cb)
  | S fuel' =>
    if bool_decide (ca = cb) && bool_decide (ca <> 0) then strcasecmp_loop fuel' (tail a) (tail b)
    else u32 (ca - cb)
  end.
Definition rt_strcasecmp (a b : list Z) : Z := strcasecmp_loop (length a) a b.

(** rt_memcmp on the first [count] bytes of two areas. *)
Fixpoint rt_memcmp (cs ct : list Z) (count : nat) : Z :=
  match count with
  | O => 0
  | S n => let res := chr cs - chr ct in
           if bool_decide (res <> 0) then res else rt_memcmp (tail cs) (tail ct) n
  end.

(** The offset in [s1] of the first occurrence of [s2]. *)
Fixpoint strstr_loop (l1 l2 : nat) (s1 s2 : list Z) : option nat :=
  match l1 with
  | O => if bool_decide (l2 = 0%nat) then Some 0%nat else None
  | S l1' =>
    if bool_decide (l2 <= l1)%nat then
      if bool_decide (rt_memcmp s1 s2 l2 = 0) then Some 0%nat
      else S <$> strstr_loop l1' l2 (tail s1) s2
    else None
  end.
Definition rt_strstr (s1 s2 : list Z) : option nat :=
  let l2 := rt_strlen s2 in
  if bool_decide (l2 = 0%nat) then Some 0%nat else strstr_loop (rt_strlen s1) l2 s1 s2.

(** ** Well-formed strings *)

(** Bytes other than NUL. *)
Definition cstr (s : list Z) : Prop := Forall (fun c => 0 < c < 256) s.

Lemma s8_zero a b : 0 <= a < 256 -> 0 <= b < 256 -> s8 (a - b) = 0 <-> a = b.
Proof.
  intros Ha Hb. unfold s8, swrap, wrap. change (2 ^ 8) with 256. change (2 ^ (8 - 1)) with 128.
  destruct (decide (b <= a)).
  - rewrite Z.mod_small by lia. case_bool_decide; lia.
  - rewrite <- (Z.mod_add (a - b) 1) by lia. rewrite Z.mod_small by lia. case_bool_decide; lia.
Qed.

Lemma cstr_tail s : cstr s -> cstr (tail s).
Proof. unfold cstr. destruct s; cbn; [done|]. by intros [_ ?]%Forall_cons. Qed.
Lemma cstr_chr s : cstr s -> 0 <= chr s < 256 /\ (chr s = 0 <-> s = []).
Proof. destruct 1; cbn; [split; [lia|done]|]. split; [lia|]. split; [lia|done]. Qed.

Lemma take_step n a b :
  cstr a -> cstr b ->
  take (S n) a = take (S n) b <-> chr a = chr b /\ (chr a = 0 \/ take n (tail a) = take n (tail b)).
Proof.
  intros Ha Hb. destruct Ha as [|c a Hc _], Hb as [|c' b Hc' _]; cbn; [naive_solver|..].
  - split; [done|]. lia.
  - split; [done|]. lia.
  - split; [intros [= -> ->]; auto|]. intros [-> [?|E]]; [lia|by rewrite E].
Qed.

(** rt_strncmp compares the first [n] bytes of two strings. *)
Lemma strncmp_zero n cs ct :
  cstr cs -> cstr ct -> rt_strncmp cs ct n = 0 <-> take n cs = take n ct.
Proof.
  revert cs ct. induction n as [|n IH]; intros cs ct Hs Ht; [done|]. rewrite take_step by done.
  cbn [rt_strncmp]. destruct (cstr_chr cs Hs) as [Rs _], (cstr_chr ct Ht) as [Rt _].
  rewrite <- (IH (tail cs) (tail ct)) by (by apply cstr_tail).
  pose proof (s8_zero _ _ Rs Rt). repeat case_bool_decide; cbn; tauto.
Qed.

(** What rt_strncpy stored reads back as the first [n] bytes of the source. *)
Lemma strncmp_strncpy n s ct :
  cstr s -> cstr ct -> rt_strncmp (rt_strncpy s n) ct n = 0 <-> take n s = take n ct.
Proof.
  revert s ct. induction n as [|n IH]; intros s ct Hs Ht; [done|]. rewrite take_step by done.
  cbn [rt_strncmp rt_strncpy]. destruct (cstr_chr s Hs) as [Rs _], (cstr_chr ct Ht) as [Rt _].
  rewrite <- (IH (tail s) (tail ct)) by (by apply cstr_tail).
  pose proof (s8_zero _ _ Rs Rt). pose proof (s8_zero 0 (chr ct) ltac:(lia) Rt).
  destruct (decide (chr s = 0)) as [Hc|Hc]; [rewrite (bool_decide_true (chr s = 0)) by done|
    rewrite (bool_decide_false (chr s = 0)) by done]; cbn [chr tail].
  - rewrite Hc. repeat case_bool_decide; cbn; tauto.
  - repeat case_bool_decide; cbn; tauto.
Qed.

Lemma length_strncpy s n : length (rt_strncpy s n) = n.
Proof.
  revert s. induction n as [|n IH]; intros s; [done|]. cbn. case_bool_decide; cbn; [by rewrite length_replicate|by rewrite IH].
Qed.

(** ** Searching *)

Lemma strlen_cstr s : cstr s -> rt_strlen s = length s.
Proof.
  unfold rt_strlen. induction 1 as [|c s Hc Hs IH]; [done|]. cbn. rewrite bool_decide_true by lia. by rewrite IH.
Qed.

Lemma memcmp_prefix s1 s2 : cstr s1 -> cstr s2 -> (length s2 <= length s1)%nat ->
  rt_memcmp s1 s2 (length s2) = 0 <-> take (length s2) s1 = s2.
Proof.
  intros H1 H2. revert s1 H1. induction H2 as [|c s2 Hc H2 IH]; intros s1 H1 Hl; [done|].
  destruct H1 as [|d s1 Hd H1]; cbn in Hl; [lia|]. cbn. case_bool_decide as Hne.
  - split; [done|]. intros [= -> _]. lia.
  - rewrite (IH s1 H1) by lia. split; [intros ->; f_equal; lia|]. by intros [= _ ?].
Qed.

(** [s2] occurs in [s1] at offset [i]. *)
Definition occurs_at (s1 s2 : list Z) (i : nat) : Prop := take (length s2) (drop i s1) = s2.

Lemma occurs_bound s1 s2 i : occurs_at s1 s2 i -> (length s2 <= length s1 - i)%nat.
Proof. unfold occurs_at. intros E. apply (f_equal length) in E. rewrite length_take, length_drop in E. lia. Qed.

Lemma strstr_loop_first s1 s2 : cstr s1 -> cstr s2 -> s2 <> [] ->
  match strstr_loop (length s1) (length s2) s1 s2 with
  | Some i => occurs_at s1 s2 i /\ forall j, (j < i)%nat -> ~ occurs_at s1 s2 j
  | None => forall j, ~ occurs_at s1 s2 j
  end.
Proof.
  intros H1 H2 Hne. assert (Hl2 : (0 < length s2)%nat) by (destruct s2; [done|cbn; lia]).
  induction H1 as [|c s1 Hc H1 IH].
  - cbn. rewrite bool_decide_false by lia. intros j Hj. apply occurs_bound in Hj. cbn in Hj. lia.
  - cbn [length strstr_loop]. case_bool_decide as Hle; cycle 1.
    { intros j Hj. apply occurs_bound in Hj. cbn in Hj. lia. }
    assert (H1' : cstr (c :: s1)) by (by constructor).
    pose proof (memcmp_prefix (c :: s1) s2 H1' H2 Hle) as Hm. case_bool_decide as Hz.
    { apply Hm in Hz. split; [done|]. lia. }
    assert (H0 : ~ occurs_at (c :: s1) s2 0) by (intros Ho; apply Hz, Hm, Ho).
    cbn [tail]. destruct (strstr_loop (length s1) (length s2) s1 s2) as [i|]; cbn.
    + destruct IH as [Hi Hj]. split; [done|]. intros [|j] Hlt; [done|]. apply Hj. lia.
    + intros [|j]; [done|]. apply IH.
Qed.

(** Rt_strstr returns the first offset at which the second string occurs in the
    first one, and null exactly when there is none. *)
Theorem strstr_first_occurrence s1 s2 :
  cstr s1 -> cstr s2 ->
  match rt_strstr s1 s2 with
  | Some i => occurs_at s1 s2 i /\ forall j, (j < i)%nat -> ~ occurs_at s1 s2 j
  | None => forall j, ~ occurs_at s1 s2 j
  end.
Proof.
  intros H1 H2. unfold rt_strstr. rewrite !strlen_cstr by done. case_bool_decide as Hz.
  - destruct s2; [|done]. split; [done|]. lia.
  - apply strstr_loop_first; try done. by intros ->.
Qed.
