(* ===== verification/KMem.v ===== *)
(** * Memory blocks (rt-thread/src/kservice.c)

    rt_memset, rt_memcpy and rt_memmove on a memory of bytes.  The first two work on
    blocks of sixteen and of four bytes where the addresses are aligned; the theorems show
    that this makes no difference to what a loop over the bytes does. *)
From S2P Require Import Prelude.
From stdpp Require Import base gmap sets list.
From Stdlib Require Import ZArith Lia.
#[local] Open Scope Z_scope.

(** ** Memory *)

(** The bytes of the memory; an address without a byte may not be accessed. *)
Notation bytes := (gmap Z Z).
Definition ldb (a : Z) : M bytes Z := fun m => match m !! a with Some v => Some (v, m) | None => None end.
Definition stb (a v : Z) : M bytes unit := fun m => match m !! a with Some _ => Some (tt, <[a := v]> m) | None => None end.
(** An aligned unsigned long: four bytes, the lowest one first. *)
Definition ldw (a : Z) : M bytes Z :=
  b0 ← ldb a; b1 ← ldb (a + 1); b2 ← ldb (a + 2); b3 ← ldb (a + 3);
  mret (b0 + 2 ^ 8 * b1 + 2 ^ 16 * b2 + 2 ^ 24 * b3).
Definition stw (a v : Z) : M bytes unit :=
  stb a (v mod 2 ^ 8) ;;
  stb (a + 1) (v / 2 ^ 8 mod 2 ^ 8) ;;
  stb (a + 2) (v / 2 ^ 16 mod 2 ^ 8) ;;
  stb (a + 3) (v / 2 ^ 24 mod 2 ^ 8).

(** ** rt_memset *)

Fixpoint set_bytes (count : nat) (m d : Z) : M bytes unit :=
  match count with
  | O => mret tt
  | S count => stb m d ;; set_bytes count (m + 1) d
  end.
(** The loops over blocks give the address and the number of bytes that are left. *)
Fixpoint set_words (fuel : nat) (aligned_addr count buffer : Z) : M bytes (Z * Z) :=
  if bool_decide (count >= 4) then
    match fuel with
    | O => ub
    | S fuel => stw aligned_addr buffer ;; set_words fuel (aligned_addr + 4) (count - 4) buffer
    end
  else mret (aligned_addr, count).
Fixpoint set_blocks (fuel : nat) (aligned_addr count buffer : Z) : M bytes (Z * Z) :=
  if bool_decide (count >= 4 * 4) then
    match fuel with
    | O => ub
    | S fuel =>
        stw aligned_addr buffer ;;
        stw (aligned_addr + 4) buffer ;;
        stw (aligned_addr + 8) buffer ;;
        stw (aligned_addr + 12) buffer ;;
        set_blocks fuel (aligned_addr + 16) (count - 4 * 4) buffer
    end
  else mret (aligned_addr, count).

Definition unaligned (a : Z) : Z := Z.land a 3.
(** The byte in every byte of a word. *)
Definition spread (d : Z) : Z :=
  let buffer := Z.lor (u32 (Z.shiftl d 8)) d in
  Z.lor buffer (u32 (Z.shiftl buffer 16)).

Definition rt_memset (s c count : Z) : M bytes Z :=
  let d := Z.land c 0xff in
  '(m, cnt) ←
    (if negb (bool_decide (count < 4)) && bool_decide (unaligned s = 0) then
       let fuel := Z.to_nat count in
       '(aligned_addr, cnt) ← set_blocks fuel s count (spread d);
       set_words fuel aligned_addr cnt (spread d)
     else mret (s, count));
  set_bytes (Z.to_nat cnt) m d ;;
  mret s.

(** ** rt_memcpy *)

Fixpoint copy_bytes (len : nat) (dst_ptr src_ptr : Z) : M bytes unit :=
  match len with
  | O => mret tt
  | S len => v ← ldb src_ptr; stb dst_ptr v ;; copy_bytes len (dst_ptr + 1) (src_ptr + 1)
  end.
Definition copy_word (aligned_dst aligned_src : Z) : M bytes unit := v ← ldw aligned_src; stw aligned_dst v.
(** The tests compare the int len with the unsigned size of a block. *)
Fixpoint copy_words4 (fuel : nat) (aligned_dst aligned_src len : Z) : M bytes (Z * Z * Z) :=
  if bool_decide (u32 len >= 4) then
    match fuel with
    | O => ub
    | S fuel => copy_word aligned_dst aligned_src ;; copy_words4 fuel (aligned_dst + 4) (aligned_src + 4) (len - 4)
    end
  else mret (aligned_dst, aligned_src, len).
Fixpoint copy_blocks (fuel : nat) (aligned_dst aligned_src len : Z) : M bytes (Z * Z * Z) :=
  if bool_decide (u32 len >= 16) then
    match fuel with
    | O => ub
    | S fuel =>
        copy_word aligned_dst aligned_src ;;
        copy_word (aligned_dst + 4) (aligned_src + 4) ;;
        copy_word (aligned_dst + 8) (aligned_src + 8) ;;
        copy_word (aligned_dst + 12) (aligned_src + 12) ;;
        copy_blocks fuel (aligned_dst + 16) (aligned_src + 16) (len - 16)
    end
  else mret (aligned_dst, aligned_src, len).

(** The last loop counts a negative len down to its overflow. *)
Definition rt_memcpy (dst src count : Z) : M bytes Z :=
  let len := s32 count in
  '(dst_ptr, src_ptr, len) ←
    (if negb (bool_decide (u32 len < 16)) && bool_decide (Z.lor (unaligned src) (unaligned dst) = 0) then
       let fuel := Z.to_nat count in
       '(aligned_dst, aligned_src, len) ← copy_blocks fuel dst src len;
       copy_words4 fuel aligned_dst aligned_src len
     else mret (dst, src, len));
  (if bool_decide (len < 0) then ub else copy_bytes (Z.to_nat len) dst_ptr src_ptr) ;;
  mret dst.

(** ** rt_memmove *)

(** The loop from the end; the addresses point behind the next byte. *)
Fixpoint move_down (n : nat) (tmp s : Z) : M bytes unit :=
  match n with
  | O => mret tt
  | S n => v ← ldb (s - 1); stb (tmp - 1) v ;; move_down n (tmp - 1) (s - 1)
  end.
Definition rt_memmove (dest src n : Z) : M bytes Z :=
  (if bool_decide (src < dest) && bool_decide (dest < src + n) then
     move_down (Z.to_nat n) (dest + n) (src + n)
   else copy_bytes (Z.to_nat n) dest src) ;;
  mret dest.

(** ** Filling *)

Definition mapped (m : bytes) (a n : Z) : Prop := forall x, a <= x < a + n -> is_Some (m !! x).
(** The [n] bytes from [a] on are [d], the others are those of [m]. *)
Definition filled (m : bytes) (a n d : Z) (m' : bytes) : Prop :=
  forall x, m' !! x = if bool_decide (a <= x < a + n) then Some d else m !! x.

Lemma filled_nil m a d : filled m a 0 d m.
Proof. intros x. by rewrite bool_decide_false by lia. Qed.
Lemma filled_trans m a n1 n2 d m1 m2 :
  0 <= n1 -> 0 <= n2 -> filled m a n1 d m1 -> filled m1 (a + n1) n2 d m2 -> filled m a (n1 + n2) d m2.
Proof.
  intros H1 H2 F1 F2 x. rewrite F2, F1. repeat case_bool_decide; try done; lia.
Qed.
Lemma filled_mapped m a n d m' b k : filled m a n d m' -> mapped m b k -> mapped m' b k.
Proof. intros F Hm x Hx. rewrite F. case_bool_decide; [by eexists|by apply Hm]. Qed.
Lemma filled_unique m a n d m1 m2 : filled m a n d m1 -> filled m a n d m2 -> m1 = m2.
Proof. intros F1 F2. apply map_eq. intros x. by rewrite F1, F2. Qed.

Lemma stb_run m a v : is_Some (m !! a) -> stb a v m = Some (tt, <[a := v]> m).
Proof. intros [w E]. unfold stb. by rewrite E. Qed.
Lemma stb_filled m a d : filled m a 1 d (<[a := d]> m).
Proof. intros x. rewrite lookup_insert. repeat case_decide; case_bool_decide; try done; lia. Qed.
(** Storing four bytes one after the other. *)
Lemma stw_run m a v :
  mapped m a 4 -> stw a v m = Some (tt, <[a + 3 := v / 2 ^ 24 mod 2 ^ 8]> (<[a + 2 := v / 2 ^ 16 mod 2 ^ 8]>
    (<[a + 1 := v / 2 ^ 8 mod 2 ^ 8]> (<[a := v mod 2 ^ 8]> m)))).
Proof.
  intros Hm. unfold stw. munfold.
  rewrite stb_run by (apply Hm; lia).
  rewrite stb_run by (rewrite !lookup_insert_ne by lia; apply Hm; lia).
  rewrite stb_run by (rewrite !lookup_insert_ne by lia; apply Hm; lia).
  by rewrite stb_run by (rewrite !lookup_insert_ne by lia; apply Hm; lia).
Qed.

Lemma spread_eq d : 0 <= d < 256 -> spread d = d + 2 ^ 8 * d + 2 ^ 16 * d + 2 ^ 24 * d.
Proof.
  intros Hd. assert (H : forallb (fun n => let d := Z.of_nat n in spread d =? d + 2 ^ 8 * d + 2 ^ 16 * d + 2 ^ 24 * d) (seq 0 256) = true)
    by (vm_compute; reflexivity).
  rewrite forallb_forall in H. specialize (H (Z.to_nat d)). rewrite Z2Nat.id in H by lia. apply Z.eqb_eq, H, in_seq. lia.
Qed.
Lemma word_bytes b0 b1 b2 b3 :
  0 <= b0 < 256 -> 0 <= b1 < 256 -> 0 <= b2 < 256 -> 0 <= b3 < 256 ->
  let w := b0 + 2 ^ 8 * b1 + 2 ^ 16 * b2 + 2 ^ 24 * b3 in
  w mod 2 ^ 8 = b0 /\ w / 2 ^ 8 mod 2 ^ 8 = b1 /\ w / 2 ^ 16 mod 2 ^ 8 = b2 /\ w / 2 ^ 24 mod 2 ^ 8 = b3.
Proof.
  intros H0 H1 H2 H3 w. change (2 ^ 8) with 256 in *. change (2 ^ 16) with 65536 in *. change (2 ^ 24) with 16777216 in *.
  assert (E1 : w / 256 = b1 + 256 * b2 + 65536 * b3) by (symmetry; apply (Z.div_unique_pos _ _ _ b0); unfold w; lia).
  assert (E2 : w / 65536 = b2 + 256 * b3) by (symmetry; apply (Z.div_unique_pos _ _ _ (b0 + 256 * b1)); unfold w; lia).
  assert (E3 : w / 16777216 = b3) by (symmetry; apply (Z.div_unique_pos _ _ _ (b0 + 256 * b1 + 65536 * b2)); unfold w; lia).
  rewrite E1, E2, E3. split; [|split; [|split]]; symmetry.
  - apply (Z.mod_unique_pos _ _ (b1 + 256 * b2 + 65536 * b3)); unfold w; lia.
  - apply (Z.mod_unique_pos _ _ (b2 + 256 * b3)); lia.
  - apply (Z.mod_unique_pos _ _ b3); lia.
  - apply (Z.mod_unique_pos _ _ 0); lia.
Qed.

Lemma set_word_ok m a d :
  0 <= d < 256 -> mapped m a 4 -> exists m', stw a (spread d) m = Some (tt, m') /\ filled m a 4 d m'.
Proof.
  intros Hd Hm. rewrite stw_run, spread_eq by done. destruct (word_bytes d d d d) as (-> & -> & -> & ->); [done..|].
  eexists. split; [done|]. intros x. rewrite !lookup_insert. repeat case_decide; case_bool_decide; try done; lia.
Qed.
Lemma set_bytes_ok n m a d :
  mapped m a (Z.of_nat n) -> exists m', set_bytes n a d m = Some (tt, m') /\ filled m a (Z.of_nat n) d m'.
Proof.
  revert m a. induction n as [|n IH]; intros m a Hm; cbn -[Z.of_nat]; [exists m; split; [done|apply filled_nil]|].
  munfold. rewrite stb_run by (apply Hm; lia). pose proof (stb_filled m a d) as F.
  destruct (IH (<[a := d]> m) (a + 1)) as (m' & E & F').
  { intros x Hx. apply (filled_mapped _ _ _ _ _ _ _ F Hm). lia. }
  exists m'. split; [done|]. replace (Z.of_nat (S n)) with (1 + Z.of_nat n) by lia. by apply (filled_trans m a 1 _ d (<[a := d]> m)); [lia..| |].
Qed.

(** What a loop over blocks of [b] bytes leaves over. *)
Definition loop_set (loop : nat -> Z -> Z -> Z -> M bytes (Z * Z)) (b : Z) : Prop := forall fuel m a count d,
  0 <= d < 256 -> 0 <= count <= Z.of_nat fuel -> mapped m a count ->
  exists m' cnt, loop fuel a count (spread d) m = Some ((a + (count - cnt), cnt), m') /\
    0 <= cnt < b /\ cnt <= count /\ filled m a (count - cnt) d m'.

Lemma set_words_ok : loop_set set_words 4.
Proof.
  intros fuel. induction fuel as [|fuel IH]; intros m a count d Hd Hc Hm; cbn [set_words].
  - rewrite bool_decide_false by lia. exists m, count. munfold. rewrite Z.sub_diag, Z.add_0_r. split; [done|]. split; [lia|]. split; [lia|apply filled_nil].
  - case_bool_decide as Hb.
    + destruct (set_word_ok m a d Hd) as (m1 & E1 & F1); [intros x Hx; apply Hm; lia|].
      destruct (IH m1 (a + 4) (count - 4) d Hd) as (m' & cnt & E & Hl & Hle & F'); [lia|intros x Hx; apply (filled_mapped _ _ _ _ _ _ _ F1 Hm); lia|].
      exists m', cnt. rewrite (bind_run _ _ _ _ _ E1), E. split; [do 3 f_equal; lia|]. split; [lia|]. split; [lia|].
      replace (count - cnt) with (4 + (count - 4 - cnt)) by lia. by apply (filled_trans m a 4 _ d m1); [lia..| |].
    + exists m, count. munfold. rewrite Z.sub_diag, Z.add_0_r. split; [done|]. split; [lia|]. split; [lia|apply filled_nil].
Qed.
(** Four words in a row. *)
Lemma set_block_ok {A} m a d (rest : M bytes A) :
  0 <= d < 256 -> mapped m a 16 ->
  exists m', filled m a 16 d m' /\
    (stw a (spread d) ;; stw (a + 4) (spread d) ;; stw (a + 8) (spread d) ;; stw (a + 12) (spread d) ;; rest) m = rest m'.
Proof.
  intros Hd Hm.
  destruct (set_word_ok m a d Hd) as (m1 & E1 & F1); [intros x Hx; apply Hm; lia|].
  pose proof (filled_mapped _ _ _ _ _ _ _ F1 Hm) as Hm1.
  destruct (set_word_ok m1 (a + 4) d Hd) as (m2 & E2 & F2); [intros x Hx; apply Hm1; lia|].
  pose proof (filled_mapped _ _ _ _ _ _ _ F2 Hm1) as Hm2.
  destruct (set_word_ok m2 (a + 8) d Hd) as (m3 & E3 & F3); [intros x Hx; apply Hm2; lia|].
  pose proof (filled_mapped _ _ _ _ _ _ _ F3 Hm2) as Hm3.
  destruct (set_word_ok m3 (a + 12) d Hd) as (m4 & E4 & F4); [intros x Hx; apply Hm3; lia|].
  exists m4. split.
  - apply (filled_trans m a 12 4 d m3); [lia..| |exact F4]. apply (filled_trans m a 8 4 d m2); [lia..| |exact F3].
    by apply (filled_trans m a 4 4 d m1); [lia..| |].
  - by rewrite (bind_run _ _ _ _ _ E1), (bind_run _ _ _ _ _ E2), (bind_run _ _ _ _ _ E3), (bind_run _ _ _ _ _ E4).
Qed.
Lemma set_blocks_ok : loop_set set_blocks 16.
Proof.
  intros fuel. induction fuel as [|fuel IH]; intros m a count d Hd Hc Hm; cbn [set_blocks].
  - rewrite bool_decide_false by lia. exists m, count. munfold. rewrite Z.sub_diag, Z.add_0_r. split; [done|]. split; [lia|]. split; [lia|apply filled_nil].
  - case_bool_decide as Hb.
    + destruct (set_block_ok m a d (set_blocks fuel (a + 16) (count - 4 * 4) (spread d)) Hd) as (m1 & F1 & ->); [intros x Hx; apply Hm; lia|].
      destruct (IH m1 (a + 16) (count - 4 * 4) d Hd) as (m' & cnt & E & Hl & Hle & F'); [lia|intros x Hx; apply (filled_mapped _ _ _ _ _ _ _ F1 Hm); lia|].
      exists m', cnt. rewrite E. split; [do 3 f_equal; lia|]. split; [lia|]. split; [lia|].
      replace (count - cnt) with (16 + (count - 4 * 4 - cnt)) by lia. by apply (filled_trans m a 16 _ d m1); [lia..| |].
    + exists m, count. munfold. rewrite Z.sub_diag, Z.add_0_r. split; [done|]. split; [lia|]. split; [lia|apply filled_nil].
Qed.

Lemma land_byte c : Z.land c 0xff = c mod 256.
Proof. change 0xff with (Z.ones 8). by rewrite Z.land_ones by lia. Qed.

(** rt_memset sets exactly the [count] bytes from [s] on to the low byte of [c] and
    returns [s]; it does what the loop over single bytes does, whatever the alignment of
    the address and the size. *)
Lemma memset_ok m s c count :
  0 <= count -> mapped m s count ->
  exists m', rt_memset s c count m = Some (s, m') /\ filled m s count (c mod 256) m' /\
    set_bytes (Z.to_nat count) s (Z.land c 0xff) m = Some (tt, m').
Proof.
  intros Hc Hm. rewrite <- land_byte. set (d := Z.land c 0xff). assert (Hd : 0 <= d < 256) by (unfold d; rewrite land_byte; apply Z.mod_pos_bound; lia).
  assert (Hend : exists m1 cnt, (if negb (bool_decide (count < 4)) && bool_decide (unaligned s = 0) then
       '(aligned_addr, cnt) ← set_blocks (Z.to_nat count) s count (spread d);
       set_words (Z.to_nat count) aligned_addr cnt (spread d)
     else mret (s, count)) m = Some ((s + (count - cnt), cnt), m1) /\ 0 <= cnt <= count /\ filled m s (count - cnt) d m1).
  { destruct (negb _ && _).
    - destruct (set_blocks_ok (Z.to_nat count) m s count d Hd) as (m1 & l1 & E1 & Hl1 & Hle1 & F1); [lia|done|].
      destruct (set_words_ok (Z.to_nat count) m1 (s + (count - l1)) l1 d Hd) as (m2 & l2 & E2 & Hl2 & Hle2 & F2); [lia| |].
      { intros x Hx. apply (filled_mapped _ _ _ _ _ _ _ F1 Hm). lia. }
      exists m2, l2. rewrite (bind_run _ _ _ _ _ E1), E2. split; [do 3 f_equal; lia|]. split; [lia|].
      replace (count - l2) with (count - l1 + (l1 - l2)) by lia. by apply (filled_trans m s _ _ d m1); [lia..| |].
    - exists m, count. munfold. rewrite Z.sub_diag, Z.add_0_r. split; [done|]. split; [lia|apply filled_nil]. }
  destruct Hend as (m1 & cnt & E1 & Hl & F1).
  destruct (set_bytes_ok (Z.to_nat cnt) m1 (s + (count - cnt)) d) as (m' & E' & F').
  { intros x Hx. apply (filled_mapped _ _ _ _ _ _ _ F1 Hm). lia. }
  rewrite Z2Nat.id in F' by lia.
  assert (F : filled m s count d m').
  { replace count with (count - cnt + cnt) by lia. by apply (filled_trans m s _ _ d m1); [lia..| |]. }
  exists m'. split; [|split; [done|]].
  - unfold rt_memset. fold d. rewrite (bind_run _ _ _ _ _ E1). by rewrite (bind_run _ _ _ _ _ E').
  - destruct (set_bytes_ok (Z.to_nat count) m s d) as (m2 & E2 & F2); rewrite Z2Nat.id in * by lia; [done|].
    by rewrite E2, (filled_unique _ _ _ _ _ _ F2 F).
Qed.

(** ** Copying *)

(** The [n] bytes from [dst] on are those that [m] has from [src] on. *)
Definition copied (m : bytes) (dst src n : Z) (m' : bytes) : Prop :=
  forall x, m' !! x = if bool_decide (dst <= x < dst + n) then m !! (src + (x - dst)) else m !! x.
Definition byte_values (m : bytes) : Prop := map_Forall (fun _ v => 0 <= v < 256) m.

Lemma copied_nil m dst src : copied m dst src 0 m.
Proof. intros x. by rewrite bool_decide_false by lia. Qed.
(** Two copies, the second one behind or in front of the first one. *)
Lemma copied_up m dst src n1 n2 m1 m2 :
  0 <= n1 -> 0 <= n2 -> dst <= src \/ src + (n1 + n2) <= dst ->
  copied m dst src n1 m1 -> copied m1 (dst + n1) (src + n1) n2 m2 -> copied m dst src (n1 + n2) m2.
Proof.
  intros H1 H2 Ho C1 C2 x. rewrite C2, !C1. repeat case_bool_decide; try lia; try done. f_equal. lia.
Qed.
Lemma copied_down m dst src n1 n2 m1 m2 :
  0 <= n1 -> 0 <= n2 -> src < dst ->
  copied m (dst + n1) (src + n1) n2 m1 -> copied m1 dst src n1 m2 -> copied m dst src (n1 + n2) m2.
Proof.
  intros H1 H2 Ho C1 C2 x. rewrite C2, !C1. repeat case_bool_decide; try lia; try done. f_equal. lia.
Qed.
Lemma copied_unique m dst src n m1 m2 : copied m dst src n m1 -> copied m dst src n m2 -> m1 = m2.
Proof. intros C1 C2. apply map_eq. intros x. by rewrite C1, C2. Qed.
Lemma copied_mapped m dst src n m' b k : copied m dst src n m' -> mapped m src n -> mapped m b k -> mapped m' b k.
Proof. intros C Hs Hm x Hx. rewrite C. case_bool_decide; [apply Hs; lia|by apply Hm]. Qed.
Lemma copied_values m dst src n m' : copied m dst src n m' -> byte_values m -> byte_values m'.
Proof. intros C Hv x v. rewrite C. case_bool_decide; apply Hv. Qed.

Lemma copy_byte_ok m dst src :
  is_Some (m !! src) -> is_Some (m !! dst) -> exists v, m !! src = Some v /\ stb dst v m = Some (tt, <[dst := v]> m) /\ copied m dst src 1 (<[dst := v]> m).
Proof.
  intros [v E] Hd. exists v. split; [done|]. split; [by apply stb_run|]. intros x. rewrite lookup_insert.
  repeat case_decide; case_bool_decide; try lia; try done. subst. by replace (src + (x - x)) with src by lia.
Qed.
Lemma ldb_run m a v : m !! a = Some v -> ldb a m = Some (v, m).
Proof. intros E. unfold ldb. by rewrite E. Qed.
Lemma copy_bytes_ok n m dst src :
  mapped m dst (Z.of_nat n) -> mapped m src (Z.of_nat n) -> dst <= src \/ src + Z.of_nat n <= dst ->
  exists m', copy_bytes n dst src m = Some (tt, m') /\ copied m dst src (Z.of_nat n) m'.
Proof.
  revert m dst src. induction n as [|n IH]; intros m dst src Hd Hs Ho; cbn -[Z.of_nat]; [exists m; split; [done|apply copied_nil]|].
  destruct (copy_byte_ok m dst src) as (v & Ev & E1 & C1); [apply Hs; lia|apply Hd; lia|].
  assert (Hs1 : mapped m src 1) by (intros x Hx; apply Hs; lia).
  destruct (IH (<[dst := v]> m) (dst + 1) (src + 1)) as (m' & E & C).
  - intros x Hx. apply (copied_mapped _ _ _ _ _ _ _ C1 Hs1 Hd). lia.
  - intros x Hx. apply (copied_mapped _ _ _ _ _ _ _ C1 Hs1 Hs). lia.
  - lia.
  - exists m'. munfold. rewrite (ldb_run _ _ _ Ev), E1. split; [done|]. replace (Z.of_nat (S n)) with (1 + Z.of_nat n) by lia.
    apply (copied_up m dst src 1 _ (<[dst := v]> m)); [lia..|done|done].
Qed.
Lemma copy_word_ok m dst src :
  byte_values m -> mapped m dst 4 -> mapped m src 4 ->
  exists m', copy_word dst src m = Some (tt, m') /\ copied m dst src 4 m'.
Proof.
  intros Hv Hd Hs. destruct (Hs src ltac:(lia)) as [b0 E0]. destruct (Hs (src + 1) ltac:(lia)) as [b1 E1].
  destruct (Hs (src + 2) ltac:(lia)) as [b2 E2]. destruct (Hs (src + 3) ltac:(lia)) as [b3 E3].
  unfold copy_word, ldw. munfold. rewrite (ldb_run _ _ _ E0), (ldb_run _ _ _ E1), (ldb_run _ _ _ E2), (ldb_run _ _ _ E3), stw_run by done.
  destruct (word_bytes b0 b1 b2 b3) as (-> & -> & -> & ->); [by eapply Hv..|]. eexists. split; [done|].
  intros x. rewrite !lookup_insert. repeat case_decide; case_bool_decide; try lia; try done; subst; symmetry.
  - by replace (src + (dst + 3 - dst)) with (src + 3) by lia.
  - by replace (src + (dst + 2 - dst)) with (src + 2) by lia.
  - by replace (src + (dst + 1 - dst)) with (src + 1) by lia.
  - by replace (src + (x - x)) with src by lia.
Qed.

(** A copy of [n] bytes that may be followed by others. *)
Definition copies (c : M bytes unit) (dst src n : Z) : Prop := forall m,
  byte_values m -> mapped m dst n -> mapped m src n -> exists m', c m = Some (tt, m') /\ copied m dst src n m'.
Lemma copies_then c1 c2 dst src n1 n2 :
  0 <= n1 -> 0 <= n2 -> dst <= src \/ src + (n1 + n2) <= dst ->
  copies c1 dst src n1 -> copies c2 (dst + n1) (src + n1) n2 -> copies (c1 ;; c2) dst src (n1 + n2).
Proof.
  intros H1 H2 Ho Hc1 Hc2 m Hv Hd Hs.
  assert (Hs1 : mapped m src n1) by (intros x Hx; apply Hs; lia).
  destruct (Hc1 m Hv) as (m1 & E1 & C1); [intros x Hx; apply Hd; lia|done|].
  destruct (Hc2 m1) as (m2 & E2 & C2).
  - by apply (copied_values _ _ _ _ _ C1).
  - intros x Hx. apply (copied_mapped _ _ _ _ _ _ _ C1 Hs1 Hd). lia.
  - intros x Hx. apply (copied_mapped _ _ _ _ _ _ _ C1 Hs1 Hs). lia.
  - exists m2. split; [by rewrite (bind_run _ _ _ _ _ E1)|]. by apply (copied_up m dst src n1 n2 m1).
Qed.

(** A loop over blocks of [b] bytes that [block] copies. *)
Section CopyLoop.
Context (loop : nat -> Z -> Z -> Z -> M bytes (Z * Z * Z)) (block : Z -> Z -> M bytes unit) (b : Z).
Hypothesis b_pos : 0 < b.
Hypothesis loop_stop : forall fuel dst src len m, u32 len < b -> loop fuel dst src len m = Some ((dst, src, len), m).
Hypothesis loop_step : forall fuel dst src len m, u32 len >= b ->
  loop (S fuel) dst src len m = (block dst src ;; loop fuel (dst + b) (src + b) (len - b)) m.
Hypothesis block_copies : forall dst src, dst <= src \/ src + b <= dst -> copies (block dst src) dst src b.

Lemma copy_loop_ok fuel m dst src len :
  0 <= len <= Z.of_nat fuel -> len < 2 ^ 31 -> byte_values m -> mapped m dst len -> mapped m src len ->
  dst <= src \/ src + len <= dst ->
  exists m' cnt, loop fuel dst src len m = Some ((dst + (len - cnt), src + (len - cnt), cnt), m') /\
    0 <= cnt < b /\ cnt <= len /\ copied m dst src (len - cnt) m'.
Proof.
  revert m dst src len. induction fuel as [|fuel IH]; intros m dst src len Hl Hmax Hv Hd Hs Ho.
  all: assert (Hu : u32 len = len) by (apply wrap_id; lia).
  - exists m, len. rewrite loop_stop by lia. rewrite Z.sub_diag, !Z.add_0_r. split; [done|]. split; [lia|]. split; [lia|apply copied_nil].
  - destruct (decide (u32 len >= b)) as [Hge|Hlt].
    + assert (Hs1 : mapped m src b) by (intros x Hx; apply Hs; lia).
      destruct (block_copies dst src ltac:(lia) m Hv) as (m1 & E1 & C1); [intros x Hx; apply Hd; lia|done|].
      destruct (IH m1 (dst + b) (src + b) (len - b)) as (m' & cnt & E & Hc & Hle & C).
      * lia.
      * lia.
      * by apply (copied_values _ _ _ _ _ C1).
      * intros x Hx. apply (copied_mapped _ _ _ _ _ _ _ C1 Hs1 Hd). lia.
      * intros x Hx. apply (copied_mapped _ _ _ _ _ _ _ C1 Hs1 Hs). lia.
      * lia.
      * exists m', cnt. rewrite loop_step by done. rewrite (bind_run _ _ _ _ _ E1), E. split; [do 4 f_equal; lia|].
        split; [lia|]. split; [lia|]. replace (len - cnt) with (b + (len - b - cnt)) by lia.
        by apply (copied_up m dst src b _ m1); [lia..| |].
    + exists m, len. rewrite loop_stop by lia. rewrite Z.sub_diag, !Z.add_0_r. split; [done|]. split; [lia|]. split; [lia|apply copied_nil].
Qed.
End CopyLoop.

Lemma copy_word_copies dst src : dst <= src \/ src + 4 <= dst -> copies (copy_word dst src) dst src 4.
Proof. intros _ m. apply copy_word_ok. Qed.
Definition copy_block (dst src : Z) : M bytes unit :=
  copy_word dst src ;; copy_word (dst + 4) (src + 4) ;; copy_word (dst + 8) (src + 8) ;; copy_word (dst + 12) (src + 12).
Lemma copy_block_copies dst src : dst <= src \/ src + 16 <= dst -> copies (copy_block dst src) dst src 16.
Proof.
  intros Ho. apply (copies_then _ _ _ _ 4 12); [lia..|by apply copy_word_copies; lia|].
  apply (copies_then _ _ _ _ 4 8); [lia..|by apply copy_word_copies; lia|].
  replace (dst + 4 + 4) with (dst + 8) by lia. replace (src + 4 + 4) with (src + 8) by lia.
  apply (copies_then _ _ _ _ 4 4); [lia..|by apply copy_word_copies; lia|].
  replace (dst + 8 + 4) with (dst + 12) by lia. replace (src + 8 + 4) with (src + 12) by lia. apply copy_word_copies. lia.
Qed.
Lemma copy_words4_step fuel dst src len m : u32 len >= 4 ->
  copy_words4 (S fuel) dst src len m = (copy_word dst src ;; copy_words4 fuel (dst + 4) (src + 4) (len - 4)) m.
Proof. intros H. cbn [copy_words4]. by rewrite bool_decide_true. Qed.
Lemma copy_blocks_step fuel dst src len m : u32 len >= 16 ->
  copy_blocks (S fuel) dst src len m = (copy_block dst src ;; copy_blocks fuel (dst + 16) (src + 16) (len - 16)) m.
Proof.
  intros H. cbn [copy_blocks]. rewrite bool_decide_true by done. unfold copy_block. munfold.
  by repeat (destruct (copy_word _ _ _) as [[? ?]|]; [|done]).
Qed.
Definition copy_words4_ok := copy_loop_ok copy_words4 copy_word 4 ltac:(lia)
  ltac:(intros [] ????? ; cbn [copy_words4]; by rewrite bool_decide_false by lia) copy_words4_step copy_word_copies.
Definition copy_blocks_ok := copy_loop_ok copy_blocks copy_block 16 ltac:(lia)
  ltac:(intros [] ????? ; cbn [copy_blocks]; by rewrite bool_decide_false by lia) copy_blocks_step copy_block_copies.

(** rt_memcpy copies exactly [count] bytes from [src] to [dst] and returns [dst], if
    the source does not start before an overlapping destination. *)
Lemma memcpy_ok m dst src count :
  0 <= count < 2 ^ 31 -> byte_values m -> mapped m dst count -> mapped m src count -> dst <= src \/ src + count <= dst ->
  exists m', rt_memcpy dst src count m = Some (dst, m') /\ copied m dst src count m' /\
    copy_bytes (Z.to_nat count) dst src m = Some (tt, m').
Proof.
  intros Hc Hv Hd Hs Ho. assert (Es : s32 count = count) by (apply swrap_id; lia).
  assert (Hend : exists m1 cnt, (if negb (bool_decide (u32 count < 16)) && bool_decide (Z.lor (unaligned src) (unaligned dst) = 0) then
       '(aligned_dst, aligned_src, len) ← copy_blocks (Z.to_nat count) dst src count;
       copy_words4 (Z.to_nat count) aligned_dst aligned_src len
     else mret (dst, src, count)) m = Some ((dst + (count - cnt), src + (count - cnt), cnt), m1) /\ 0 <= cnt <= count /\ copied m dst src (count - cnt) m1).
  { destruct (negb _ && _).
    - destruct (copy_blocks_ok (Z.to_nat count) m dst src count) as (m1 & l1 & E1 & Hl1 & Hle1 & C1); [lia|lia|done..|].
      assert (Hs1 : mapped m src (count - l1)) by (intros x Hx; apply Hs; lia).
      destruct (copy_words4_ok (Z.to_nat count) m1 (dst + (count - l1)) (src + (count - l1)) l1) as (m2 & l2 & E2 & Hl2 & Hle2 & C2).
      + lia.
      + lia.
      + by apply (copied_values _ _ _ _ _ C1).
      + intros x Hx. apply (copied_mapped _ _ _ _ _ _ _ C1 Hs1 Hd). lia.
      + intros x Hx. apply (copied_mapped _ _ _ _ _ _ _ C1 Hs1 Hs). lia.
      + lia.
      + exists m2, l2. rewrite (bind_run _ _ _ _ _ E1), E2. split; [do 4 f_equal; lia|]. split; [lia|].
        replace (count - l2) with (count - l1 + (l1 - l2)) by lia. by apply (copied_up m dst src _ _ m1); [lia..| |].
    - exists m, count. munfold. rewrite Z.sub_diag, !Z.add_0_r. split; [done|]. split; [lia|apply copied_nil]. }
  destruct Hend as (m1 & cnt & E1 & Hl & C1). assert (Hs1 : mapped m src (count - cnt)) by (intros x Hx; apply Hs; lia).
  destruct (copy_bytes_ok (Z.to_nat cnt) m1 (dst + (count - cnt)) (src + (count - cnt))) as (m' & E' & C'); rewrite ?Z2Nat.id in * by lia.
  - intros x Hx. apply (copied_mapped _ _ _ _ _ _ _ C1 Hs1 Hd). lia.
  - intros x Hx. apply (copied_mapped _ _ _ _ _ _ _ C1 Hs1 Hs). lia.
  - lia.
  - assert (C : copied m dst src count m').
    { replace count with (count - cnt + cnt) by lia. by apply (copied_up m dst src _ _ m1); [lia..| |]. }
    exists m'. split; [|split; [done|]].
    + unfold rt_memcpy. rewrite Es, (bind_run _ _ _ _ _ E1). cbv beta iota. rewrite bool_decide_false by lia. by rewrite (bind_run _ _ _ _ _ E').
    + destruct (copy_bytes_ok (Z.to_nat count) m dst src) as (m2 & E2 & C2); rewrite ?Z2Nat.id in * by lia; [done..|].
      by rewrite E2, (copied_unique _ _ _ _ _ _ C2 C).
Qed.

(** C39: whatever the alignment of the addresses and the size, the copies of blocks of
    sixteen and of four bytes in rt_memcpy do what the loop over single bytes does, if the
    source does not start before an overlapping destination; likewise rt_memset. *)
Theorem memcpy_is_byte_loop m dst src c count :
  0 <= count < 2 ^ 31 -> byte_values m -> mapped m dst count -> mapped m src count -> dst <= src \/ src + count <= dst ->
  rt_memcpy dst src count m = (copy_bytes (Z.to_nat count) dst src ;; mret dst) m /\
  rt_memset dst c count m = (set_bytes (Z.to_nat count) dst (Z.land c 0xff) ;; mret dst) m /\
  is_Some (rt_memcpy dst src count m) /\ is_Some (rt_memset dst c count m).
Proof.
  intros Hc Hv Hd Hs Ho. destruct (memcpy_ok m dst src count Hc Hv Hd Hs Ho) as (m1 & E1 & _ & E1').
  destruct (memset_ok m dst c count) as (m2 & E2 & _ & E2'); [lia|done|].
  rewrite E1, E2, (bind_run _ _ _ _ _ E1'), (bind_run _ _ _ _ _ E2'). eauto.
Qed.


Lemma move_down_ok n m dst src :
  mapped m dst (Z.of_nat n) -> mapped m src (Z.of_nat n) -> src < dst ->
  exists m', move_down n (dst + Z.of_nat n) (src + Z.of_nat n) m = Some (tt, m') /\ copied m dst src (Z.of_nat n) m'.
Proof.
  revert m. induction n as [|n IH]; intros m Hd Hs Ho; cbn -[Z.of_nat]; [exists m; split; [done|apply copied_nil]|].
  replace (dst + Z.of_nat (S n) - 1) with (dst + Z.of_nat n) by lia. replace (src + Z.of_nat (S n) - 1) with (src + Z.of_nat n) by lia.
  destruct (copy_byte_ok m (dst + Z.of_nat n) (src + Z.of_nat n)) as (v & Ev & E1 & C1); [apply Hs; lia|apply Hd; lia|].
  assert (Hs1 : mapped m (src + Z.of_nat n) 1) by (intros x Hx; apply Hs; lia).
  destruct (IH (<[dst + Z.of_nat n := v]> m)) as (m' & E & C); [..|done|].
  - intros x Hx. apply (copied_mapped _ _ _ _ _ _ _ C1 Hs1 Hd). lia.
  - intros x Hx. apply (copied_mapped _ _ _ _ _ _ _ C1 Hs1 Hs). lia.
  - exists m'. munfold. rewrite (ldb_run _ _ _ Ev), E1. split; [done|]. replace (Z.of_nat (S n)) with (Z.of_nat n + 1) by lia.
    by apply (copied_down m dst src _ 1 (<[dst + Z.of_nat n := v]> m)); [lia..| |].
Qed.

(** Rt_memmove copies exactly [n] bytes from [src] to [dest], however the two areas
    overlap, and returns [dest]. *)
Theorem memmove_correct m dest src n :
  0 <= n -> mapped m dest n -> mapped m src n -> exists m', rt_memmove dest src n m = Some (dest, m') /\ copied m dest src n m'.
Proof.
  intros Hn Hd Hs. rewrite <- (Z2Nat.id n) in Hd, Hs by done. unfold rt_memmove. case_bool_decide as H1; cbn [andb]; [case_bool_decide as H2|].
  - destruct (move_down_ok (Z.to_nat n) m dest src Hd Hs H1) as (m' & E & C). rewrite Z2Nat.id in E, C by done.
    exists m'. by rewrite (bind_run _ _ _ _ _ E).
  - destruct (copy_bytes_ok (Z.to_nat n) m dest src Hd Hs) as (m' & E & C); rewrite ?Z2Nat.id in * by done; [lia|].
    exists m'. by rewrite (bind_run _ _ _ _ _ E).
  - destruct (copy_bytes_ok (Z.to_nat n) m dest src Hd Hs) as (m' & E & C); rewrite ?Z2Nat.id in * by done; [lia|].
    exists m'. by rewrite (bind_run _ _ _ _ _ E).
Qed.
