(* ===== verification/Kprintf.v ===== *)
(** * Formatted output (rt-thread/src/kservice.c)

    print_number and rt_vsnprintf with their callers, for RT_PRINTF_PRECISION on and
    RT_PRINTF_LONGLONG and RT_PRINTF_SPECIAL off, as kservice.c has it.  The functions that
    produce characters take the operation [put] that stores one; with [put_buf] they write
    to the buffer of the caller, with [put_text] they collect the whole text.  The text is
    the reference: rt_vsnprintf leaves its beginning in the buffer. *)
From S2P Require Import Prelude KString KMem.
From stdpp Require Import base gmap sets list.
From Stdlib Require Import ZArith Lia Ascii.
#[local] Open Scope Z_scope.

(** The code of a character. *)
Definition ch (a : ascii) : Z := Z.of_N (N_of_ascii a).
(** A result of type int; an overflow is undefined. *)
Definition ck {St} (z : Z) : M St Z := if bool_decide (- 2 ^ 31 <= z < 2 ^ 31) then mret z else ub.

Definition isdigit (c : Z) : bool := bool_decide (u32 (c - ch "0") < 10).

(** The remainder and the quotient that replaces [*n]. *)
Definition divide (n base : Z) : Z * Z :=
  if bool_decide (base = 10) then (u32 n mod 10, s32 (u32 n / 10)) else (u32 n mod 16, s32 (u32 n / 16)).

(** The number and the rest of the string. *)
Fixpoint skip_atoi (s : list Z) (i : Z) : option (Z * list Z) :=
  match s with
  | [] => Some (i, [])
  | c :: s' =>
      if isdigit c then
        if bool_decide (i * 10 + c < 2 ^ 31) then skip_atoi s' (i * 10 + c - ch "0") else None
      else Some (i, s)
  end.

Definition ZEROPAD : Z := Z.shiftl 1 0.
Definition SIGN : Z := Z.shiftl 1 1.
Definition PLUS : Z := Z.shiftl 1 2.
Definition SPACE : Z := Z.shiftl 1 3.
Definition LEFT : Z := Z.shiftl 1 4.
Definition SPECIAL : Z := Z.shiftl 1 5.
Definition LARGE : Z := Z.shiftl 1 6.

Definition small_digits : list Z := map ch ["0"; "1"; "2"; "3"; "4"; "5"; "6"; "7"; "8"; "9"; "a"; "b"; "c"; "d"; "e"; "f"]%char.
Definition large_digits : list Z := map ch ["0"; "1"; "2"; "3"; "4"; "5"; "6"; "7"; "8"; "9"; "A"; "B"; "C"; "D"; "E"; "F"]%char.

(** [flag type f]: the bit [f] is set. *)
Definition flag (type f : Z) : bool := bool_decide (Z.land type f <> 0).

(** The array tmp of 16 bytes, filled from its start with the digits, the last one first. *)
Fixpoint digit_loop (fuel : nat) (digits tmp : list Z) (num base : Z) : option (list Z) :=
  if bool_decide (num <> 0) then
    match fuel with
    | O => None
    | S fuel =>
        let '(res, num) := divide num base in
        d ← digits !! Z.to_nat res;
        if bool_decide (length tmp < 16)%nat then digit_loop fuel digits (tmp ++ [d]) num base else None
    end
  else Some tmp.
Definition number_digits (digits : list Z) (num base : Z) : option (list Z) :=
  if bool_decide (num = 0) then Some [ch "0"] else digit_loop 16 digits [] num base.

(** A value of the argument list: a word (int, unsigned or pointer) or a string. *)
Inductive arg :=
  | AWord (z : Z)
  | AStr (s : option (list Z)).
Definition va_word (args : list arg) : option (Z * list arg) :=
  match args with AWord z :: args => Some (z, args) | _ => None end.
Definition va_str (args : list arg) : option (option (list Z) * list arg) :=
  match args with AStr s :: args => Some (s, args) | _ => None end.

(** The flags that follow a %, and the rest of the format. *)
Fixpoint format_flags (fmt : list Z) (flags : Z) : list Z * Z :=
  match fmt with
  | [] => (fmt, flags)
  | c :: fmt' =>
      if bool_decide (c = ch "-") then format_flags fmt' (Z.lor flags LEFT)
      else if bool_decide (c = ch "+") then format_flags fmt' (Z.lor flags PLUS)
      else if bool_decide (c = ch " ") then format_flags fmt' (Z.lor flags SPACE)
      else if bool_decide (c = ch "#") then format_flags fmt' (Z.lor flags SPECIAL)
      else if bool_decide (c = ch "0") then format_flags fmt' (Z.lor flags ZEROPAD)
      else (fmt, flags)
  end.

Section Printing.
Context {St : Type} (put : Z -> M St unit).

(** [while (bound < n--) put c]; the result is [n] behind the loop. *)
Fixpoint pad_loop (fuel : nat) (bound n c : Z) : M St Z :=
  if bool_decide (bound < n) then
    match fuel with
    | O => ub
    | S fuel => put c ;; n ← ck (n - 1); pad_loop fuel bound n c
    end
  else ck (n - 1).
Definition pad (bound n c : Z) : M St Z := pad_loop (Z.to_nat (n - bound)) bound n c.
(** [while (--n > 0) put c]. *)
Fixpoint pad_before (fuel : nat) (n c : Z) : M St Z :=
  n ← ck (n - 1);
  if bool_decide (n > 0) then
    match fuel with
    | O => ub
    | S fuel => put c ;; pad_before fuel n c
    end
  else mret n.
(** [while (i-- > 0 && (precision_bak != 0)) put tmp[i]]. *)
Fixpoint put_tmp (tmp : list Z) (precision_bak : Z) (i : nat) : M St unit :=
  match i with
  | O => mret tt
  | S i =>
      if bool_decide (precision_bak <> 0) then c ← liftO (tmp !! i); put c ;; put_tmp tmp precision_bak i
      else mret tt
  end.
Fixpoint put_chars (n : nat) (s : list Z) : M St unit :=
  match n with
  | O => mret tt
  | S n => put (chr s) ;; put_chars n (tail s)
  end.

Definition print_number (num base s precision type : Z) : M St unit :=
  let precision_bak := precision in
  let size := s in
  let digits := if flag type LARGE then large_digits else small_digits in
  let type := if flag type LEFT then Z.land type (Z.lnot ZEROPAD) else type in
  let c := if flag type ZEROPAD then ch "0" else ch " " in
  '(sign, num) ←
    (if flag type SIGN then
       if bool_decide (num < 0) then num ← ck (- num); mret (ch "-", num)
       else if flag type PLUS then mret (ch "+", num)
       else if flag type SPACE then mret (ch " ", num)
       else mret (0, num)
     else mret (0, num));
  tmp ← liftO (number_digits digits num base);
  let i := Z.of_nat (length tmp) in
  let precision := if bool_decide (i > precision) then i else precision in
  size ← ck (size - precision);
  size ←
    (if negb (flag type (Z.lor ZEROPAD LEFT)) then
       pad 0 (if bool_decide (sign <> 0) && bool_decide (size > 0) then size - 1 else size) (ch " ")
     else mret size);
  size ← (if bool_decide (sign <> 0) then put sign ;; ck (size - 1) else mret size);
  size ← (if negb (flag type LEFT) then pad 0 size c else mret size);
  pad i precision (ch "0") ;;
  put_tmp tmp precision_bak (length tmp) ;;
  pad 0 size (ch " ") ;;
  mret tt.

(** The width of the field and the flags. *)
Definition format_width (fmt : list Z) (flags : Z) (args : list arg) : M St (list Z * Z * Z * list arg) :=
  if isdigit (chr fmt) then '(field_width, fmt) ← liftO (skip_atoi fmt 0); mret (fmt, field_width, flags, args)
  else if bool_decide (chr fmt = ch "*") then
    '(z, args) ← liftO (va_word args);
    let field_width := s32 z in
    if bool_decide (field_width < 0) then field_width ← ck (- field_width); mret (tail fmt, field_width, Z.lor flags LEFT, args)
    else mret (tail fmt, field_width, flags, args)
  else mret (fmt, -1, flags, args).
Definition format_precision (fmt : list Z) (args : list arg) : M St (list Z * Z * list arg) :=
  if bool_decide (chr fmt = ch ".") then
    let fmt := tail fmt in
    '(fmt, precision, args) ←
      (if isdigit (chr fmt) then '(precision, fmt) ← liftO (skip_atoi fmt 0); mret (fmt, precision, args)
       else if bool_decide (chr fmt = ch "*") then '(z, args) ← liftO (va_word args); mret (tail fmt, s32 z, args)
       else mret (fmt, -1, args));
    mret (fmt, if bool_decide (precision < 0) then 0 else precision, args)
  else mret (fmt, -1, args).
Definition format_qualifier (fmt : list Z) : list Z * Z :=
  if bool_decide (chr fmt = ch "h") || bool_decide (chr fmt = ch "l") then (tail fmt, chr fmt) else (fmt, 0).

(** The number to print: [num] is unsigned, print_number takes a long. *)
Definition format_number (qualifier flags z : Z) : Z :=
  let num :=
    if bool_decide (qualifier = ch "l") then let num := u32 z in if flag flags SIGN then u32 (s32 num) else num
    else if bool_decide (qualifier = ch "h") then let num := u16 (s32 z) in if flag flags SIGN then u32 (s16 num) else num
    else let num := u32 z in if flag flags SIGN then u32 (s32 num) else num in
  s32 num.

Definition format_char (field_width flags : Z) (args : list arg) : M St (list arg) :=
  field_width ← (if negb (flag flags LEFT) then pad_before (Z.to_nat field_width) field_width (ch " ") else mret field_width);
  '(z, args) ← liftO (va_word args);
  put (u8 z) ;;
  pad_before (Z.to_nat field_width) field_width (ch " ") ;;
  mret args.
Definition null_text : list Z := map ch ["("; "N"; "U"; "L"; "L"; ")"]%char.
Definition format_string (field_width precision flags : Z) (args : list arg) : M St (list arg) :=
  '(s, args) ← liftO (va_str args);
  let s := default null_text s in
  let len := Z.of_nat (rt_strlen s) in
  let len := if bool_decide (precision > 0) && bool_decide (len > precision) then precision else len in
  field_width ← (if negb (flag flags LEFT) then pad len field_width (ch " ") else mret field_width);
  put_chars (Z.to_nat len) s ;;
  pad len field_width (ch " ") ;;
  mret args.

(** One conversion; [fmt] stands behind the %.  The result is the format where the loop
    goes on. *)
Definition format_conversion (fmt : list Z) (args : list arg) : M St (list Z * list arg) :=
  let '(fmt, flags) := format_flags fmt 0 in
  '(fmt, field_width, flags, args) ← format_width fmt flags args;
  '(fmt, precision, args) ← format_precision fmt args;
  let '(fmt, qualifier) := format_qualifier fmt in
  let c := chr fmt in
  let number base flags :=
    '(z, args) ← liftO (va_word args);
    print_number (format_number qualifier flags z) base field_width precision flags ;;
    mret (tail fmt, args) in
  if bool_decide (c = ch "c") then args ← format_char field_width flags args; mret (tail fmt, args)
  else if bool_decide (c = ch "s") then args ← format_string field_width precision flags args; mret (tail fmt, args)
  else if bool_decide (c = ch "p") then
    '(z, args) ← liftO (va_word args);
    (if bool_decide (field_width = -1) then print_number (s32 z) 16 8 precision (Z.lor flags ZEROPAD)
     else print_number (s32 z) 16 field_width precision flags) ;;
    mret (tail fmt, args)
  else if bool_decide (c = ch "%") then put (ch "%") ;; mret (tail fmt, args)
  else if bool_decide (c = ch "o") then number 8 flags
  else if bool_decide (c = ch "X") then number 16 (Z.lor flags LARGE)
  else if bool_decide (c = ch "x") then number 16 flags
  else if bool_decide (c = ch "d") || bool_decide (c = ch "i") then number 10 (Z.lor flags SIGN)
  else if bool_decide (c = ch "u") then number 10 flags
  else
    put (ch "%") ;;
    if bool_decide (c <> 0) then put c ;; mret (tail fmt, args) else mret (fmt, args).

Fixpoint format_loop (fuel : nat) (fmt : list Z) (args : list arg) : M St unit :=
  if bool_decide (chr fmt <> 0) then
    match fuel with
    | O => ub
    | S fuel =>
        if bool_decide (chr fmt <> ch "%") then put (chr fmt) ;; format_loop fuel (tail fmt) args
        else '(fmt, args) ← format_conversion (tail fmt) args; format_loop fuel fmt args
    end
  else mret tt.
End Printing.

(** ** The buffer *)

(** The memory and the pointer str. *)
Record sink := Sink { sk_mem : gmap Z Z; sk_str : Z }.
(** [if (str < end) *str = c; ++str]. *)
Definition put_buf (end_ c : Z) : M sink unit := fun s =>
  if bool_decide (sk_str s < end_) then
    match stb (sk_str s) c (sk_mem s) with
    | Some (_, m) => Some (tt, Sink m (u32 (sk_str s + 1)))
    | None => None
    end
  else Some (tt, Sink (sk_mem s) (u32 (sk_str s + 1))).

Definition rt_vsnprintf (buf size : Z) (fmt : list Z) (args : list arg) : M (gmap Z Z) Z := fun m =>
  let end_ := u32 (buf + size) in
  let '(end_, size) := if bool_decide (end_ < buf) then (2 ^ 32 - 1, 2 ^ 32 - 1 - buf) else (end_, size) in
  match format_loop (put_buf end_) (length fmt) fmt args (Sink m buf) with
  | Some (_, Sink m str) =>
      ((if bool_decide (size > 0) then if bool_decide (str < end_) then stb str 0 else stb (end_ - 1) 0 else mret tt) ;;
       mret (s32 (str - buf))) m
  | None => None
  end.
Definition rt_snprintf (buf size : Z) (fmt : list Z) (args : list arg) : M (gmap Z Z) Z := rt_vsnprintf buf size fmt args.
Definition rt_vsprintf (buf : Z) (format : list Z) (arg_ptr : list arg) : M (gmap Z Z) Z := rt_vsnprintf buf (u32 (-1)) format arg_ptr.
Definition rt_sprintf (buf : Z) (format : list Z) (arg_ptr : list arg) : M (gmap Z Z) Z := rt_vsprintf buf format arg_ptr.

(** ** The text *)

Definition put_text (c : Z) : M (list Z) unit := modify (fun out => out ++ [c]).
(** All characters that a format and its arguments produce. *)
Definition text (fmt : list Z) (args : list arg) : option (list Z) :=
  snd <$> format_loop put_text (length fmt) fmt args [].

(** ** The buffer holds the beginning of the text *)

Section Simulation.
Variables (m0 : gmap Z Z) (buf end_ limit : Z).
Hypothesis buf_range : 0 <= buf < 2 ^ 32.
Hypothesis end_range : buf <= end_ < 2 ^ 32.
(** The bytes that a text of [limit] characters needs are there. *)
Hypothesis limit_range : buf + limit < 2 ^ 32.
Hypothesis room : mapped m0 buf (Z.min limit (end_ - buf)).

(** The state of the buffer after the text [out]. *)
Definition wrote (out : list Z) (s : sink) : Prop :=
  sk_str s = buf + Z.of_nat (length out) /\
  forall a, sk_mem s !! a = if bool_decide (buf <= a < Z.min (buf + Z.of_nat (length out)) end_) then out !! Z.to_nat (a - buf) else m0 !! a.

(** A computation on the buffer does what the same computation does on the text, up to the
    limit; texts only grow. *)
Definition sim {A} (c1 : M sink A) (c2 : M (list Z) A) : Prop :=
  (forall out a out', c2 out = Some (a, out') -> out `prefix_of` out') /\
  (forall out s a out', wrote out s -> c2 out = Some (a, out') -> Z.of_nat (length out') <= limit ->
     exists s', c1 s = Some (a, s') /\ wrote out' s').

Lemma sim_ret {A} (a : A) : sim (mret a) (mret a).
Proof. split; [by intros ??? [= _ <-]|]. intros out s a' out' Hw [= <- <-] _. by exists s. Qed.
Lemma sim_ub {A} : sim (A := A) ub ub.
Proof. by split. Qed.
Lemma sim_lift {A} (o : option A) : sim (liftO o) (liftO o).
Proof. destruct o; [apply sim_ret|apply sim_ub]. Qed.
Lemma sim_bind {A B} (c1 : M sink A) c2 (k1 : A -> M sink B) k2 :
  sim c1 c2 -> (forall a, sim (k1 a) (k2 a)) -> sim (c1 ≫= k1) (c2 ≫= k2).
Proof.
  intros [Hg Hs] Hk. split.
  - intros out b out' E. munfold in E. destruct (c2 out) as [[a o]|] eqn:Ec; [|done].
    etrans; [by eapply Hg|]. by eapply (proj1 (Hk a)).
  - intros out s b out' Hw E Hl. munfold in E. destruct (c2 out) as [[a o]|] eqn:Ec; [|done].
    pose proof (prefix_length _ _ (proj1 (Hk a) _ _ _ E)).
    destruct (Hs out s a o) as (s1 & E1 & Hw1); [done|done|lia|]. rewrite (bind_run _ _ _ _ _ E1). by eapply (proj2 (Hk a)).
Qed.
Lemma sim_ck z : sim (ck z) (ck z).
Proof. unfold ck. destruct (bool_decide _); [apply sim_ret|apply sim_ub]. Qed.

Lemma sim_put c : sim (put_buf end_ c) (put_text c).
Proof.
  split; [intros out [] out' [= <-]; by apply prefix_app_r|]. intros out s [] out' [Hp Hm] [= <-] Hl. rewrite length_app in Hl. cbn in Hl.
  assert (Hs : u32 (sk_str s + 1) = buf + Z.of_nat (length (out ++ [c]))) by (rewrite length_app, Hp, wrap_id; cbn; lia).
  unfold put_buf. case_bool_decide as Hlt.
  - rewrite (stb_run _ _ c). 2:{ rewrite Hm, bool_decide_false by lia. apply room. lia. }
    eexists. split; [done|]. split; [done|]. cbn [sk_mem]. intros a. rewrite length_app. cbn [length].
    destruct (decide (a = sk_str s)) as [->|Hne].
    + rewrite lookup_insert_eq, bool_decide_true, lookup_app_r by lia. by replace (Z.to_nat (sk_str s - buf) - length out)%nat with 0%nat by lia.
    + rewrite lookup_insert_ne, Hm by done. case_bool_decide as H1; case_bool_decide as H2; [|lia..|done]. rewrite lookup_app_l by lia. done.
  - eexists. split; [done|]. split; [done|]. cbn [sk_mem]. intros a. rewrite Hm, length_app. cbn [length].
    case_bool_decide as H1; case_bool_decide as H2; [|lia..|done]. by rewrite lookup_app_l by lia.
Qed.

Create HintDb sim.
#[local] Hint Resolve sim_ret sim_ub sim_lift sim_ck sim_put : sim.
Ltac sims := repeat first
  [ progress cbn beta iota zeta
  | apply sim_bind; [|intros ?]
  | solve [auto with sim]
  | match goal with
    | |- sim (match ?x with _ => _ end) _ => destruct x
    | |- sim (let '(_, _) := ?x in _) _ => destruct x
    | |- sim (if ?b then _ else _) _ => destruct b
    end ].

Lemma sim_pad_loop fuel bound n c : sim (pad_loop (put_buf end_) fuel bound n c) (pad_loop put_text fuel bound n c).
Proof. revert n. induction fuel as [|fuel IH]; intros n; cbn [pad_loop]; sims. Qed.
Lemma sim_pad bound n c : sim (pad (put_buf end_) bound n c) (pad put_text bound n c).
Proof. apply sim_pad_loop. Qed.
Lemma sim_pad_before fuel n c : sim (pad_before (put_buf end_) fuel n c) (pad_before put_text fuel n c).
Proof. revert n. induction fuel as [|fuel IH]; intros n; cbn [pad_before]; sims. Qed.
Lemma sim_put_tmp tmp p i : sim (put_tmp (put_buf end_) tmp p i) (put_tmp put_text tmp p i).
Proof. induction i as [|i IH]; cbn [put_tmp]; sims. Qed.
Lemma sim_put_chars n s : sim (put_chars (put_buf end_) n s) (put_chars put_text n s).
Proof. revert s. induction n as [|n IH]; intros s; cbn [put_chars]; sims. Qed.
#[local] Hint Resolve sim_pad sim_pad_before sim_put_tmp sim_put_chars : sim.

Lemma sim_print_number num base s p type : sim (print_number (put_buf end_) num base s p type) (print_number put_text num base s p type).
Proof. unfold print_number. sims. Qed.
#[local] Hint Resolve sim_print_number : sim.
Lemma sim_conversion fmt args : sim (format_conversion (put_buf end_) fmt args) (format_conversion put_text fmt args).
Proof. unfold format_conversion, format_width, format_precision, format_char, format_string. sims. Qed.
#[local] Hint Resolve sim_conversion : sim.
Lemma sim_format_loop fuel fmt args : sim (format_loop (put_buf end_) fuel fmt args) (format_loop put_text fuel fmt args).
Proof. revert fmt args. induction fuel as [|fuel IH]; intros fmt args; cbn [format_loop]; sims. Qed.
End Simulation.

(** The bytes of the buffer that rt_vsnprintf may use: up to the end of the address space
    where buf + size overflows. *)
Definition capacity (buf size : Z) : Z := if bool_decide (buf + size < 2 ^ 32) then size else 2 ^ 32 - 1 - buf.

(** The buffer at [buf] with [cap] bytes after the text [out] was printed: as much of it as
    leaves room for the NUL, and the NUL. *)
Definition printed (m : gmap Z Z) (buf cap : Z) (out : list Z) (m' : gmap Z Z) : Prop :=
  let n := Z.min (Z.of_nat (length out)) (cap - 1) in
  forall a, m' !! a =
    if bool_decide (0 < cap) then
      if bool_decide (buf <= a < buf + n) then out !! Z.to_nat (a - buf) else if bool_decide (a = buf + n) then Some 0 else m !! a
    else m !! a.

Lemma vsnprintf_ok m buf size fmt args out :
  0 < buf < 2 ^ 32 -> 0 <= size < 2 ^ 32 -> text fmt args = Some out -> buf + Z.of_nat (length out) < 2 ^ 32 ->
  mapped m buf (Z.min (Z.of_nat (length out) + 1) (capacity buf size)) ->
  exists m', rt_vsnprintf buf size fmt args m = Some (s32 (Z.of_nat (length out)), m') /\ printed m buf (capacity buf size) out m'.
Proof.
  intros Hb Hs Ht Hl Hr. unfold text in Ht. destruct (format_loop put_text _ _ _ _) as [[[] o]|] eqn:E; [|done]. injection Ht as ->.
  unfold rt_vsnprintf. set (cap := capacity buf size) in *. assert (Hcap : 0 <= cap /\ buf + cap < 2 ^ 32) by (unfold cap, capacity; case_bool_decide; lia).
  replace (if bool_decide (u32 (buf + size) < buf) then (2 ^ 32 - 1, 2 ^ 32 - 1 - buf) else (u32 (buf + size), size)) with (buf + cap, cap).
  2:{ unfold cap, capacity. case_bool_decide as H1; [rewrite wrap_id by lia; rewrite bool_decide_false by lia; done|].
      rewrite bool_decide_true; [f_equal; lia|]. unfold wrap. rewrite <- (Z.mod_add _ (-1)) by lia. rewrite Z.mod_small; lia. }
  destruct (proj2 (sim_format_loop m buf (buf + cap) (Z.of_nat (length out)) ltac:(lia) ltac:(lia) ltac:(lia)
    ltac:(intros x Hx; apply Hr; lia) (length fmt) fmt args) [] (Sink m buf) tt out) as ([m1 str] & E1 & Hp & Hm); [|done|lia|].
  { split; [cbn; lia|]. intros a. cbn [sk_mem length]. by rewrite bool_decide_false by lia. }
  cbn in Hp, Hm. subst str. rewrite E1.
  assert (Hend : (if bool_decide (buf + Z.of_nat (length out) < buf + cap) then stb (buf + Z.of_nat (length out)) 0 else stb (buf + cap - 1) 0) =
    stb (buf + Z.min (Z.of_nat (length out)) (cap - 1)) 0) by (case_bool_decide; f_equal; lia).
  rewrite Hend. clear Hend. case_bool_decide as Hc.
  - rewrite (bind_run _ _ m1 tt (<[buf + Z.min (Z.of_nat (length out)) (cap - 1) := 0]> m1)). 2:{ apply stb_run. rewrite Hm. case_bool_decide as Hin; [apply lookup_lt_is_Some; lia|]. apply Hr. lia. }
    eexists.
    split; [unfold mret, M_ret; do 3 f_equal; lia|]. intros a. rewrite bool_decide_true by lia. cbv zeta. destruct (decide (a = buf + Z.min (Z.of_nat (length out)) (cap - 1))) as [->|Hne].
    + by rewrite lookup_insert_eq, bool_decide_false, bool_decide_true by lia.
    + rewrite lookup_insert_ne, Hm by done. rewrite (bool_decide_false (a = _)) by done. case_bool_decide as H1; case_bool_decide as H2; done || lia.
  - eexists. munfold. split; [do 3 f_equal; lia|]. intros a. rewrite (bool_decide_false (0 < cap)) by lia. by rewrite Hm, bool_decide_false by lia.
Qed.

(** C20: rt_vsnprintf keeps to its buffer.  Whatever the format and the arguments, it leaves
    the beginning of the text in the buffer, as much as fits beside the terminating NUL,
    writes no other byte, and returns the length of the whole text; a buffer of size 0 is
    not written. *)
Theorem vsnprintf_truncates m buf size fmt args out :
  0 < buf < 2 ^ 32 -> 0 <= size < 2 ^ 32 -> text fmt args = Some out -> buf + Z.of_nat (length out) < 2 ^ 32 ->
  mapped m buf (Z.min (Z.of_nat (length out) + 1) (capacity buf size)) ->
  exists m', rt_vsnprintf buf size fmt args m = Some (s32 (Z.of_nat (length out)), m') /\ printed m buf (capacity buf size) out m'.
Proof. apply vsnprintf_ok. Qed.

(** ** Numbers *)

(** The reference: the digits of [v] in base [b], the highest first. *)
Fixpoint numeral (fuel : nat) (b v : Z) : list Z :=
  match fuel with
  | O => []
  | S fuel => if bool_decide (v < b) then [v] else numeral fuel b (v / b) ++ [v mod b]
  end.
(** The value of a list of digits. *)
Definition value_of (b : Z) (ds : list Z) : Z := foldl (fun a d => a * b + d) 0 ds.

Lemma numeral_value fuel b v : 1 < b -> 0 <= v < b ^ Z.of_nat fuel -> value_of b (numeral fuel b v) = v.
Proof.
  intros Hb. revert v. induction fuel as [|fuel IH]; intros v Hv; [cbn in *; lia|]. cbn [numeral]. case_bool_decide as H; [unfold value_of; cbn; lia|].
  unfold value_of. rewrite foldl_app. cbn [foldl]. fold (value_of b (numeral fuel b (v / b))). rewrite IH.
  - pose proof (Z.div_mod v b ltac:(lia)). lia.
  - rewrite Nat2Z.inj_succ, Z.pow_succ_r in Hv by lia. split; [apply Z.div_pos; lia|apply Z.div_lt_upper_bound; lia].
Qed.
Lemma numeral_digits fuel b v : 1 < b -> 0 <= v -> Forall (fun d => 0 <= d < b) (numeral fuel b v).
Proof.
  intros Hb. revert v. induction fuel as [|fuel IH]; intros v Hv; [constructor|]. cbn [numeral]. case_bool_decide; [repeat constructor; lia|].
  apply Forall_app. split; [apply IH; apply Z.div_pos; lia|]. repeat constructor; apply Z.mod_pos_bound; lia.
Qed.
Lemma numeral_length fuel b v : (length (numeral fuel b v) <= fuel)%nat.
Proof. revert v. induction fuel as [|fuel IH]; intros v; cbn [numeral]; [done|]. case_bool_decide; [cbn; lia|]. rewrite length_app. specialize (IH (v / b)). cbn. lia. Qed.
Lemma numeral_nonempty fuel b v : (0 < fuel)%nat -> (0 < length (numeral fuel b v))%nat.
Proof. destruct fuel; [lia|]. intros _. cbn [numeral]. case_bool_decide; [cbn; lia|]. rewrite length_app. cbn. lia. Qed.

(** The base that [divide] works with. *)
Definition radix (base : Z) : Z := if bool_decide (base = 10) then 10 else 16.
Definition digit_char (digits : list Z) (d : Z) : Z := default 0 (digits !! Z.to_nat d).

Lemma divide_eq n base : 0 <= n < 2 ^ 31 \/ - 2 ^ 31 <= n < 0 -> divide n base = (u32 n mod radix base, u32 n / radix base).
Proof.
  intros Hn. pose proof (wrap_range 32 n ltac:(lia)). unfold divide, radix. case_bool_decide; f_equal; apply swrap_id;
    lia || (split; [apply Z.le_trans with 0; [lia|apply Z.div_pos; lia]|apply Z.div_lt_upper_bound; lia]).
Qed.

Lemma digit_loop_ok fuel digits tmp num base :
  length digits = 16%nat -> (length tmp + fuel <= 16)%nat -> - 2 ^ 31 <= num < 2 ^ 31 -> num <> 0 -> u32 num < radix base ^ Z.of_nat fuel ->
  digit_loop fuel digits tmp num base = Some (tmp ++ reverse (digit_char digits <$> numeral fuel (radix base) (u32 num))).
Proof.
  intros Hd. revert tmp num. induction fuel as [|fuel IH]; intros tmp num Ht Hn H0 Hv.
  { cbn in Hv. pose proof (wrap_range 32 num ltac:(lia)). exfalso. apply H0. assert (u32 num = 0) by lia.
    destruct (decide (0 <= num)); [rewrite wrap_id in *; lia|]. unfold wrap in *. rewrite <- (Z.mod_add num 1), Z.mod_small in * by lia. lia. }
  assert (Hr : 1 < radix base <= 16) by (unfold radix; case_bool_decide; lia).
  set (v := u32 num) in *. assert (Hv0 : 0 < v < 2 ^ 32).
  { pose proof (wrap_range 32 num ltac:(lia)). unfold v. destruct (decide (u32 num = 0)) as [E|]; [|lia]. exfalso. apply H0.
    destruct (decide (0 <= num)); [rewrite wrap_id in *; lia|]. unfold wrap in *. rewrite <- (Z.mod_add num 1), Z.mod_small in E by lia. lia. }
  cbn [digit_loop]. rewrite bool_decide_true, divide_eq by lia. fold v. pose proof (Z.mod_pos_bound v (radix base) ltac:(lia)).
  assert (E : digits !! Z.to_nat (v mod radix base) = Some (digit_char digits (v mod radix base))).
  { unfold digit_char. destruct (lookup_lt_is_Some_2 digits (Z.to_nat (v mod radix base))) as [d Ed]; [lia|]. by rewrite Ed. }
  rewrite E. cbn [mbind option_bind]. rewrite bool_decide_true by lia. cbn [numeral]. case_bool_decide as Hlt.
  - assert (v / radix base = 0) as -> by (apply Z.div_small; lia). rewrite Z.mod_small by lia. destruct fuel; reflexivity.
  - assert (0 < v / radix base) by (apply Z.div_str_pos; lia).
    assert (v / radix base < 2 ^ 31) by (apply Z.div_lt_upper_bound; lia).
    assert (Eu : u32 (v / radix base) = v / radix base) by (apply wrap_id; lia).
    rewrite IH, Eu; [|rewrite length_app; cbn; lia|lia|lia|rewrite Eu; rewrite Nat2Z.inj_succ, Z.pow_succ_r in Hv by lia; apply Z.div_lt_upper_bound; lia].
    rewrite fmap_app, reverse_app, <- app_assoc. done.
Qed.

Lemma number_digits_ok digits num base :
  length digits = 16%nat -> digits !! 0%nat = Some (ch "0") -> - 2 ^ 31 <= num < 2 ^ 31 ->
  number_digits digits num base = Some (reverse (digit_char digits <$> numeral 16 (radix base) (u32 num))).
Proof.
  intros Hd Hz Hn. unfold number_digits. pose proof (wrap_range 32 num ltac:(lia)). case_bool_decide as H0.
  - subst num. destruct digits as [|d0 digits]; [done|]. injection Hz as ->. unfold radix. case_bool_decide; reflexivity.
  - rewrite digit_loop_ok; try done; cbn; try lia. unfold radix. case_bool_decide; lia.
Qed.

(** A computation that only adds the text [t] and gives [a]. *)
Definition adds {A} (c : M (list Z) A) (t : list Z) (a : A) : Prop := forall out, c out = Some (a, out ++ t).

Lemma adds_ret {A} (a : A) : adds (mret a) [] a.
Proof. intros out. by rewrite app_nil_r. Qed.
Lemma adds_bind {A B} (c : M (list Z) A) (k : A -> M (list Z) B) t1 t2 a b : adds c t1 a -> adds (k a) t2 b -> adds (c ≫= k) (t1 ++ t2) b.
Proof. intros H1 H2 out. rewrite (bind_run _ _ _ _ _ (H1 out)), H2. by rewrite app_assoc. Qed.
Lemma adds_put c : adds (put_text c) [c] tt.
Proof. done. Qed.
Lemma adds_lift {A} (o : option A) a : o = Some a -> adds (liftO o) [] a.
Proof. intros ->. apply adds_ret. Qed.
Lemma adds_ck z : - 2 ^ 31 <= z < 2 ^ 31 -> adds (ck z) [] z.
Proof. intros H. unfold ck. rewrite bool_decide_true by done. apply adds_ret. Qed.
Lemma adds_eq {A} (c : M (list Z) A) t t' a : adds c t a -> t = t' -> adds c t' a.
Proof. by intros ? <-. Qed.

Definition fill (n c : Z) : list Z := replicate (Z.to_nat n) c.

Lemma adds_pad_loop fuel bound n c :
  (Z.to_nat (n - bound) <= fuel)%nat -> - 2 ^ 31 <= Z.min bound n - 1 -> n < 2 ^ 31 ->
  adds (pad_loop put_text fuel bound n c) (fill (n - bound) c) (Z.min bound n - 1).
Proof.
  revert n. induction fuel as [|fuel IH]; intros n Hf Hl Hu; cbn [pad_loop]; unfold fill.
  { rewrite bool_decide_false, Z.min_r by lia. replace (Z.to_nat (n - bound)) with 0%nat by lia. apply adds_ck. lia. }
  case_bool_decide as Hlt.
  - replace (Z.to_nat (n - bound)) with (S (Z.to_nat (n - 1 - bound))) by lia. change (replicate (S ?k) c) with ([c] ++ replicate k c).
    eapply adds_bind; [apply adds_put|]. apply (adds_bind _ _ [] _ (n - 1)); [apply adds_ck; lia|].
    replace (Z.min bound n) with (Z.min bound (n - 1)) by lia. apply IH; lia.
  - rewrite Z.min_r by lia. replace (Z.to_nat (n - bound)) with 0%nat by lia. apply adds_ck. lia.
Qed.
Lemma adds_pad bound n c : - 2 ^ 31 <= Z.min bound n - 1 -> n < 2 ^ 31 -> adds (pad put_text bound n c) (fill (n - bound) c) (Z.min bound n - 1).
Proof. by apply adds_pad_loop. Qed.

Lemma adds_put_tmp tmp p i : (i <= length tmp)%nat -> adds (put_tmp put_text tmp p i) (if bool_decide (p = 0) then [] else reverse (take i tmp)) tt.
Proof.
  induction i as [|i IH]; intros Hi; cbn [put_tmp].
  { eapply adds_eq; [apply adds_ret|]. by case_bool_decide. }
  destruct (decide (p = 0)) as [Hp|Hp]; [rewrite bool_decide_false, bool_decide_true by (by auto || done); apply adds_ret|].
  rewrite bool_decide_false in IH by done. rewrite bool_decide_true, bool_decide_false by done.
  destruct (lookup_lt_is_Some_2 tmp i) as [c E]; [lia|]. eapply adds_eq.
  - eapply adds_bind; [by apply adds_lift|]. eapply adds_bind; [apply adds_put|]. apply IH. lia.
  - cbn [app]. by rewrite (take_S_r _ _ _ E), reverse_snoc.
Qed.

(** The bits of the flags. *)
Lemma flag_testbit t k : 0 <= k -> flag t (Z.shiftl 1 k) = Z.testbit t k.
Proof.
  intros Hk. unfold flag. rewrite Z.shiftl_1_l. destruct (Z.testbit t k) eqn:E; [apply bool_decide_eq_true|apply bool_decide_eq_false].
  - intros H. apply (f_equal (fun z => Z.testbit z k)) in H. rewrite Z.land_spec, E, testbit_pow2, Z.bits_0 in H by lia. by rewrite bool_decide_true in H.
  - intros H. apply H. apply Z.bits_inj'. intros j Hj. rewrite Z.land_spec, testbit_pow2, Z.bits_0 by lia.
    case_bool_decide; [subst; by rewrite E|apply andb_false_r].
Qed.
Lemma flag_lor t f g : flag t (Z.lor f g) = flag t f || flag t g.
Proof.
  unfold flag. rewrite Z.land_lor_distr_r. apply eq_true_iff_eq. rewrite orb_true_iff, !bool_decide_eq_true, Z.lor_eq_0_iff.
  destruct (decide (Z.land t f = 0)), (decide (Z.land t g = 0)); tauto.
Qed.

(** The sign in front of a number and the value of its digits. *)
Definition sign_text (num type : Z) : list Z :=
  if flag type SIGN then
    if bool_decide (num < 0) then [ch "-"] else if flag type PLUS then [ch "+"] else if flag type SPACE then [ch " "] else []
  else [].
Definition magnitude (num type : Z) : Z := if flag type SIGN then Z.abs num else u32 num.
(** The text of a number: the sign and at least [precision] digits in a field of [width]
    characters, filled up with blanks on the left, with zeros behind the sign or, left
    justified, with blanks on the right.  The precision 0 suppresses the digits. *)
Definition number_text (num base width precision type : Z) : list Z :=
  let left := flag type LEFT in
  let zero := flag type ZEROPAD && negb left in
  let sign := sign_text num type in
  let digits := digit_char (if flag type LARGE then large_digits else small_digits) <$> numeral 16 (radix base) (magnitude num type) in
  let n := Z.max precision (Z.of_nat (length digits)) in
  let gap := width - n - Z.of_nat (length sign) in
  (if left || zero then [] else fill gap (ch " ")) ++ sign ++
  (if zero then fill gap (ch "0") else []) ++
  fill (n - Z.of_nat (length digits)) (ch "0") ++ (if bool_decide (precision = 0) then [] else digits) ++
  (if left then fill gap (ch " ") else []).

Lemma flag_cleared t k : 0 <= k -> flag (Z.land t (Z.lnot ZEROPAD)) (Z.shiftl 1 k) = flag t (Z.shiftl 1 k) && negb (bool_decide (k = 0)).
Proof.
  intros Hk. rewrite !flag_testbit, Z.land_spec, Z.lnot_spec by done. unfold ZEROPAD. rewrite Z.shiftl_1_l, testbit_pow2 by lia.
  f_equal. f_equal. by apply bool_decide_ext.
Qed.

(** The sign as print_number keeps it, 0 for none. *)
Lemma sign_stage num type :
  - 2 ^ 31 <= num < 2 ^ 31 -> flag type SIGN = true -> num <> - 2 ^ 31 ->
  exists num', adds
    (if bool_decide (num < 0) then num ← ck (- num); mret (ch "-", num)
     else if flag type PLUS then mret (ch "+", num)
     else if flag type SPACE then mret (ch " ", num) else mret (0, num)) [] (default 0 (head (sign_text num type)), num') /\
    - 2 ^ 31 <= num' < 2 ^ 31 /\ u32 num' = magnitude num type.
Proof.
  intros Hn Hs Hm. exists (Z.abs num). split_and!; [|lia|lia|unfold magnitude; rewrite Hs; apply wrap_id; lia].
  unfold sign_text. rewrite Hs. case_bool_decide.
  - apply (adds_bind _ _ [] [] (- num)); [apply adds_ck; lia|]. cbn. replace (Z.abs num) with (- num) by lia. apply adds_ret.
  - replace (Z.abs num) with num by lia. destruct (flag type PLUS); [apply adds_ret|]. destruct (flag type SPACE); apply adds_ret.
Qed.
Lemma sign_text_cases num type : sign_text num type = [] \/ exists c, c <> 0 /\ sign_text num type = [c].
Proof.
  unfold sign_text. destruct (flag type SIGN); [|auto]. case_bool_decide; [right; eexists; by split; [|done]|].
  destruct (flag type PLUS); [right; eexists; by split; [|done]|]. destruct (flag type SPACE); [right; eexists; by split; [|done]|auto].
Qed.

Lemma fill_nonpos n c : n <= 0 -> fill n c = [].
Proof. intros H. unfold fill. by replace (Z.to_nat n) with 0%nat by lia. Qed.
Lemma digits_ok type (d := if flag type LARGE then large_digits else small_digits) : length d = 16%nat /\ d !! 0%nat = Some (ch "0").
Proof. unfold d. by destruct (flag type LARGE). Qed.

(** What print_number does once sign and digits are known. *)
Lemma layout_ok left zero sign tmp s p c :
  - 2 ^ 31 < s < 2 ^ 31 -> -1 <= p < 2 ^ 31 -> - 2 ^ 31 + 4 <= s - Z.max p (Z.of_nat (length tmp)) -> zero && left = false ->
  (0 < length tmp <= 16)%nat -> sign = [] \/ (exists c, c <> 0 /\ sign = [c]) -> c = (if zero then ch "0" else ch " ") ->
  let n := Z.max p (Z.of_nat (length tmp)) in
  let gap := s - n - Z.of_nat (length sign) in
  adds
    (let i := Z.of_nat (length tmp) in
     let precision := if bool_decide (i > p) then i else p in
     let sg := default 0 (head sign) in
     size ← ck (s - precision);
     size ←
       (if negb (zero || left) then
          pad put_text 0 (if bool_decide (sg <> 0) && bool_decide (size > 0) then size - 1 else size) (ch " ")
        else mret size);
     size ← (if bool_decide (sg <> 0) then put_text sg ;; ck (size - 1) else mret size);
     size ← (if negb left then pad put_text 0 size c else mret size);
     pad put_text i precision (ch "0") ;;
     put_tmp put_text tmp p (length tmp) ;;
     pad put_text 0 size (ch " ") ;;
     mret tt)
    ((if left || zero then [] else fill gap (ch " ")) ++ sign ++ (if zero then fill gap (ch "0") else []) ++
     fill (n - Z.of_nat (length tmp)) (ch "0") ++ (if bool_decide (p = 0) then [] else reverse tmp) ++
     (if left then fill gap (ch " ") else [])) tt.
Proof.
  intros Hs Hp Hsp Hzl Ht Hsg -> n gap. cbv zeta. replace (if bool_decide (_ > p) then _ else p) with n by (unfold n; case_bool_decide; lia).
  set (i := Z.of_nat (length tmp)) in *. assert (Hn : 1 <= n < 2 ^ 31) by lia.
  apply (adds_bind _ _ [] _ (s - n)); [apply adds_ck; lia|].
  (* blanks on the left *)
  set (k := Z.of_nat (length sign)) in *. assert (Hk : 0 <= k <= 1) by (destruct Hsg as [E|(? & _ & E)]; unfold k; rewrite E; cbn; lia).
  assert (Hb : exists z, adds (if negb (zero || left) then
          pad put_text 0 (if bool_decide (default 0 (head sign) <> 0) && bool_decide (s - n > 0) then s - n - 1 else s - n) (ch " ")
        else mret (s - n)) (if left || zero then [] else fill gap (ch " ")) z /\
        (if left || zero then z = s - n else - 2 ^ 31 + 3 <= z < 0)).
  { rewrite (orb_comm zero). destruct (left || zero); cbn [negb]; [exists (s - n); split; [apply adds_ret|done]|].
    set (q := if bool_decide _ && _ then s - n - 1 else s - n). assert (Hq : q = s - n \/ s - n > 0 /\ q = s - n - 1)
      by (unfold q; destruct (bool_decide (default 0 (head sign) <> 0)); [|by left]; cbn [andb]; case_bool_decide; auto).
    eexists. split; [eapply adds_eq; [apply adds_pad; lia|]|lia]. unfold q.
    destruct Hsg as [E|(c & Hc & E)]; unfold gap, k; rewrite E; cbn [head default length].
    - rewrite bool_decide_false by lia. cbn [andb]. f_equal; lia.
    - rewrite bool_decide_true by done. cbn [andb]. case_bool_decide; [f_equal; lia|]. by rewrite !fill_nonpos by lia. }
  destruct Hb as (z & Hb & Hz). eapply adds_bind; [exact Hb|].
  (* sign *)
  apply (adds_bind _ _ sign _ (z - k)).
  { destruct Hsg as [E|(c & Hc & E)]; unfold k; rewrite E; cbn [head default length].
    - rewrite bool_decide_false by lia. replace (z - Z.of_nat 0) with z by lia. apply adds_ret.
    - rewrite bool_decide_true by done. apply (adds_bind _ _ [c] [] tt); [apply adds_put|]. apply adds_ck. destruct (left || zero); lia. }
  (* zeros behind the sign *)
  assert (Hc : exists z', adds (if negb left then pad put_text 0 (z - k) (if zero then ch "0" else ch " ") else mret (z - k))
      (if zero then fill gap (ch "0") else []) z' /\ - 2 ^ 31 < z' < 2 ^ 31 /\ (if left then z' = gap else z' < 0)).
  { destruct left; cbn [negb orb] in *.
    - rewrite andb_true_r in Hzl. subst zero. exists (z - k). split; [apply adds_ret|]. unfold gap. lia.
    - eexists. split; [eapply adds_eq; [apply adds_pad; destruct zero; lia|]|destruct zero; lia].
      destruct zero; [f_equal; unfold gap; lia|]. by apply fill_nonpos; lia. }
  destruct Hc as (z' & Hc & Hz' & Hl). eapply adds_bind; [exact Hc|].
  eapply adds_bind; [apply adds_pad; lia|]. eapply adds_bind; [eapply adds_eq; [by apply adds_put_tmp|]; by rewrite firstn_all|].
  eapply adds_eq; [eapply adds_bind; [apply adds_pad; lia|apply adds_ret]|]. rewrite app_nil_r, Z.sub_0_r.
  destruct left; [by subst z'|]. apply fill_nonpos. lia.
Qed.

Lemma print_number_ok num base s p type :
  - 2 ^ 31 <= num < 2 ^ 31 -> (flag type SIGN = true -> num <> - 2 ^ 31) -> -1 <= s < 2 ^ 31 -> -1 <= p < 2 ^ 31 - 32 ->
  adds (print_number put_text num base s p type) (number_text num base s p type) tt.
Proof.
  intros Hn Hm Hs Hp.
  unfold print_number. set (t' := if flag type LEFT then _ else type). destruct (digits_ok type) as [Hd Hd0].
  set (ds := if flag type LARGE then large_digits else small_digits) in *.
  assert (Hf : forall k, 0 <= k -> flag t' (Z.shiftl 1 k) = flag type (Z.shiftl 1 k) && negb (bool_decide (k = 0) && flag type LEFT)).
  { intros k Hk. unfold t'. destruct (flag type LEFT); [rewrite flag_cleared by done; by rewrite andb_true_r|]. by rewrite andb_false_r, andb_true_r. }
  assert (H0 := Hf 0 ltac:(lia)). assert (H1 := Hf 1 ltac:(lia)). assert (H2 := Hf 2 ltac:(lia)). assert (H3 := Hf 3 ltac:(lia)). assert (H4 := Hf 4 ltac:(lia)).
  cbn [bool_decide andb negb decide decide_rel] in H0, H1, H2, H3, H4. rewrite andb_true_r in H1, H2, H3, H4.
  fold ZEROPAD SIGN PLUS SPACE LEFT in H0, H1, H2, H3, H4. rewrite flag_lor, H0, H1, H2, H3, H4.
  assert (Hst : exists num', adds (if flag type SIGN then
       if bool_decide (num < 0) then num ← ck (- num); mret (ch "-", num)
       else if flag type PLUS then mret (ch "+", num)
       else if flag type SPACE then mret (ch " ", num)
       else mret (0, num)
     else mret (0, num)) [] (default 0 (head (sign_text num type)), num') /\ - 2 ^ 31 <= num' < 2 ^ 31 /\ u32 num' = magnitude num type).
  { destruct (flag type SIGN) eqn:Es; [by apply sign_stage; auto|]. exists num. unfold sign_text, magnitude. rewrite Es. split; [apply adds_ret|done]. }
  destruct Hst as (num' & Ha & Hn' & Hv). eapply (adds_bind _ _ [] _ _ _ Ha). cbv beta iota.
  eapply (adds_bind _ _ []); [apply adds_lift; by apply number_digits_ok|]. rewrite Hv.
  set (dg := digit_char ds <$> numeral 16 (radix base) (magnitude num type)).
  assert (Hlen : (0 < length dg <= 16)%nat) by (unfold dg; rewrite length_fmap; split; [apply numeral_nonempty; lia|apply numeral_length]).
  eapply adds_eq; [apply (layout_ok (flag type LEFT) (flag type ZEROPAD && negb (flag type LEFT)) (sign_text num type) (reverse dg) s p)|];
    rewrite ?length_reverse; [lia|lia|lia|by destruct (flag type ZEROPAD), (flag type LEFT)|done|apply sign_text_cases|done|].
  unfold number_text. fold ds dg. by rewrite reverse_involutive.
Qed.

(** The text of a number is laid out as its flags, width and precision ask for: sign,
    padding, zeros up to the precision and the digits of its value, in exactly this order
    and number. *)
Theorem print_number_layout num base s p type out :
  - 2 ^ 31 <= num < 2 ^ 31 -> (flag type SIGN = true -> num <> - 2 ^ 31) ->
  -1 <= s < 2 ^ 31 -> -1 <= p < 2 ^ 31 - 32 ->
  print_number put_text num base s p type out = Some (tt, out ++ number_text num base s p type).
Proof. intros Hn Hm Hs Hp. by apply print_number_ok. Qed.

(** Text before a conversion, and the plain conversions of a string and of an int. *)
Lemma adds_literal l f fmt args t :
  Forall (fun c => c <> 0 /\ c <> ch "%") l -> adds (format_loop put_text f fmt args) t tt ->
  adds (format_loop put_text (length l + f) (l ++ fmt) args) (l ++ t) tt.
Proof.
  intros Hl Ht. induction Hl as [|c l [H0 Hp] Hl IH]; [done|]. cbn [length plus app format_loop chr].
  rewrite !bool_decide_true by done. by eapply (adds_bind _ _ [c]); [apply adds_put|].
Qed.
Lemma adds_put_chars s : adds (put_chars put_text (length s) s) s tt.
Proof. induction s as [|c s IH]; cbn [length put_chars]; [apply adds_ret|]. cbn [chr tail]. by eapply (adds_bind _ _ [c]); [apply adds_put|]. Qed.
Lemma adds_string f fmt args name t :
  cstr name -> Z.of_nat (length name) < 2 ^ 31 -> adds (format_loop put_text f fmt args) t tt ->
  adds (format_loop put_text (S f) (ch "%" :: ch "s" :: fmt) (AStr (Some name) :: args)) (name ++ t) tt.
Proof.
  intros Hc Hl Ht.
  assert (Hs : adds (format_string put_text (-1) (-1) 0 (AStr (Some name) :: args)) name args).
  { unfold format_string. apply (adds_bind _ _ [] _ (Some name, args)); [by apply adds_lift|]. cbn [default]. rewrite strlen_cstr by done.
    rewrite (bool_decide_false (-1 > 0)) by lia. cbn [andb]. change (negb (flag 0 LEFT)) with true. cbn iota.
    apply (adds_bind _ _ [] _ (-2)); [eapply adds_eq; [|apply (fill_nonpos (-1 - Z.of_nat (length name))); lia]|].
    { replace (-2) with (Z.min (Z.of_nat (length name)) (-1) - 1) by lia. apply adds_pad; lia. }
    rewrite Nat2Z.id. eapply adds_eq; [eapply adds_bind; [apply adds_put_chars|]|apply app_nil_r].
    apply (adds_bind _ _ [] [] (-3)); [|apply adds_ret]. eapply adds_eq; [|apply (fill_nonpos (-2 - Z.of_nat (length name))); lia].
    replace (-3) with (Z.min (Z.of_nat (length name)) (-2) - 1) by lia. apply adds_pad; lia. }
  intros out. transitivity (((args ← format_string put_text (-1) (-1) 0 (AStr (Some name) :: args); mret (fmt, args)) ≫=
    fun '(fmt, args) => format_loop put_text f fmt args) out); [done|].
  eapply (adds_bind _ _ name t (fmt, args)); [|done]. eapply adds_eq; [eapply adds_bind; [exact Hs|apply adds_ret]|apply app_nil_r].
Qed.
Lemma adds_int f fmt args z t (num := format_number 0 SIGN z) :
  - 2 ^ 31 < num < 2 ^ 31 -> adds (format_loop put_text f fmt args) t tt ->
  adds (format_loop put_text (S f) (ch "%" :: ch "d" :: fmt) (AWord z :: args)) (number_text num 10 (-1) (-1) SIGN ++ t) tt.
Proof.
  intros Hz Ht out.
  transitivity (((print_number put_text num 10 (-1) (-1) SIGN ;; mret (fmt, args)) ≫= fun '(fmt, args) => format_loop put_text f fmt args) out); [done|].
  eapply (adds_bind _ _ _ t (fmt, args)); [|done]. eapply adds_eq; [eapply adds_bind; [apply print_number_ok|apply adds_ret]|apply app_nil_r]; lia.
Qed.
Lemma number_text_length num base type : (length (number_text num base (-1) (-1) type) <= 17)%nat.
Proof.
  unfold number_text. set (dg := digit_char _ <$> _). assert (Hd : (length dg <= 16)%nat) by (unfold dg; rewrite length_fmap; apply numeral_length).
  assert (Hs : (length (sign_text num type) <= 1)%nat) by (destruct (sign_text_cases num type) as [->|(c & _ & ->)]; cbn; lia).
  rewrite !fill_nonpos by lia. rewrite bool_decide_false by lia. repeat case_match; rewrite ?length_app; cbn [length]; lia.
Qed.

(** ** Reading a number back *)

Definition digit_value (c : Z) : Z :=
  if bool_decide (c <= ch "9") then c - ch "0" else if bool_decide (c <= ch "F") then c - ch "A" + 10 else c - ch "a" + 10.
Definition read_number (b : Z) (t : list Z) : Z :=
  if bool_decide (chr t = ch "-") then - value_of b (digit_value <$> tail t) else value_of b (digit_value <$> t).

Lemma digit_value_char type d (ds := if flag type LARGE then large_digits else small_digits) :
  0 <= d < 16 -> digit_value (digit_char ds d) = d /\ digit_char ds d <> ch "-".
Proof.
  intros Hd. assert (H : Forall (fun i => digit_value (digit_char ds (Z.of_nat i)) = Z.of_nat i /\ digit_char ds (Z.of_nat i) <> ch "-") (seq 0 16)).
  { unfold ds. apply (bool_decide_unpack _). destruct (flag type LARGE); vm_compute; exact I. }
  rewrite Forall_forall in H. specialize (H (Z.to_nat d)). rewrite Z2Nat.id in H by lia. apply H. apply elem_of_seq. lia.
Qed.
Lemma digits_read type b v (ds := if flag type LARGE then large_digits else small_digits) :
  1 < b <= 16 -> 0 <= v < b ^ 16 ->
  value_of b (digit_value <$> (digit_char ds <$> numeral 16 b v)) = v /\ chr (digit_char ds <$> numeral 16 b v) <> ch "-".
Proof.
  intros Hb Hv. pose proof (numeral_digits 16 b v ltac:(lia) ltac:(lia)) as Hd. rewrite Forall_forall in Hd. split.
  - rewrite <- list_fmap_compose. rewrite <- (numeral_value 16 b v) at 2 by (cbn; lia). f_equal.
    rewrite <- (list_fmap_id (numeral 16 b v)) at 2. apply list_fmap_ext. intros i d E. apply list_elem_of_lookup_2 in E.
    apply (digit_value_char type d). specialize (Hd d E). lia.
  - destruct (numeral 16 b v) as [|d l] eqn:E; [done|]. cbn. apply (digit_value_char type d). specialize (Hd d ltac:(by left)). lia.
Qed.

(** The text of a number without width and precision. *)
Lemma bare_number num base type :
  - 2 ^ 31 <= num < 2 ^ 31 -> flag type PLUS = false -> flag type SPACE = false -> flag type LEFT = false -> flag type ZEROPAD = false ->
  (flag type SIGN = true -> num <> - 2 ^ 31) ->
  read_number (radix base) (number_text num base (-1) (-1) type) = if flag type SIGN then num else u32 num.
Proof.
  intros Hn Hp Hs Hl Hz Hm. unfold number_text, sign_text. rewrite Hl, Hz, Hp, Hs. cbn [orb andb negb].
  set (dg := digit_char _ <$> numeral 16 (radix base) (magnitude num type)).
  assert (Hr : 1 < radix base <= 16 /\ 2 ^ 32 < radix base ^ 16) by (unfold radix; case_bool_decide; lia).
  pose proof (wrap_range 32 num ltac:(lia)).
  assert (Hv : 0 <= magnitude num type < radix base ^ 16) by (unfold magnitude; destruct (flag type SIGN); lia).
  destruct (digits_read type (radix base) (magnitude num type) (proj1 Hr) Hv) as [Hval Hne]. fold dg in Hval, Hne.
  rewrite !fill_nonpos by lia. rewrite (bool_decide_false (-1 = 0)) by lia. cbn [app]. rewrite app_nil_r. unfold read_number, magnitude in *.
  destruct (flag type SIGN); cbn [app]; [destruct (bool_decide_reflect (num < 0)); cbn [app chr tail]|].
  - rewrite bool_decide_true by done. rewrite Hval. lia.
  - rewrite bool_decide_false by done. rewrite Hval. lia.
  - by rewrite bool_decide_false.
Qed.

(** The three conversions, up to the call of print_number. *)
Lemma text_conversion c base type n :
  In (c, base, type) [("d"%char, 10, SIGN); ("u"%char, 10, 0); ("x"%char, 16, 0)] ->
  text [ch "%"; ch c] [AWord n] = snd <$> print_number put_text (format_number 0 type n) base (-1) (-1) type [].
Proof.
  set (pn := print_number put_text (format_number 0 type n) base (-1) (-1) type).
  intros Hin. assert (E : format_loop put_text 2 [ch "%"; ch c] [AWord n] [] =
    ((pn ;; mret (@nil Z, @nil arg)) ≫= fun '(fmt, args) => format_loop put_text 1 fmt args) []).
  { unfold pn. destruct Hin as [[= <- <- <-]|[[= <- <- <-]|[[= <- <- <-]|[]]]]; reflexivity. }
  unfold text. cbn [length]. rewrite E. munfold. by destruct (pn []) as [[[] ?]|].
Qed.

(** C35: numbers survive printing: the text of an int under %d reads back as the number, and
    so does that of an unsigned under %u and %x. *)
Theorem number_roundtrip n :
  - 2 ^ 31 < n < 2 ^ 32 ->
  (n < 2 ^ 31 -> exists t, text (map ch ["%"; "d"]%char) [AWord n] = Some t /\ read_number 10 t = n) /\
  (0 <= n -> (exists t, text (map ch ["%"; "u"]%char) [AWord n] = Some t /\ read_number 10 t = n) /\
             (exists t, text (map ch ["%"; "x"]%char) [AWord n] = Some t /\ read_number 16 t = n)).
Proof.
  intros Hn.
  assert (Hp : forall num base type, - 2 ^ 31 <= num < 2 ^ 31 -> (flag type SIGN = true -> num <> - 2 ^ 31) ->
    print_number put_text num base (-1) (-1) type [] = Some (tt, number_text num base (-1) (-1) type)) by (intros; apply print_number_ok; done || lia).
  assert (Hs : forall z, - 2 ^ 31 <= s32 z < 2 ^ 31).
  { intros z. unfold swrap. pose proof (wrap_range 32 z ltac:(lia)). case_bool_decide; lia. }
  assert (Hu : 0 <= n -> u32 (s32 (u32 n)) = n).
  { intros H0. unfold swrap. rewrite !(wrap_id 32 n) by lia. case_bool_decide; [apply wrap_id; lia|]. unfold wrap.
    rewrite <- (Z.mod_add _ 1) by lia. rewrite Z.mod_small; lia. }
  split.
  - intros Hi. exists (number_text n 10 (-1) (-1) SIGN). split; [|apply (bare_number n 10 SIGN); done || lia].
    assert (Ef : format_number 0 SIGN n = n).
    { unfold format_number. cbn -[swrap wrap]. assert (E : s32 (u32 n) = n).
      { rewrite <- (swrap_id 32 n) at 2 by lia. unfold swrap. by rewrite (wrap_id 32 (u32 n)) by (apply wrap_range; lia). }
      rewrite E. exact E. }
    change (map ch _) with [ch "%"; ch "d"]. rewrite (text_conversion "d" 10 SIGN) by (by left). by rewrite Ef, Hp by (done || lia).
  - intros H0. assert (Hx : forall c base, In (c, base, 0) [("d"%char, 10, SIGN); ("u"%char, 10, 0); ("x"%char, 16, 0)] ->
      exists t, text [ch "%"; ch c] [AWord n] = Some t /\ read_number (radix base) t = n).
    { intros c base Hin. exists (number_text (s32 (u32 n)) base (-1) (-1) 0). rewrite (text_conversion c base 0) by done.
      change (format_number 0 0 n) with (s32 (u32 n)). rewrite Hp by done. split; [done|]. etrans; [by apply (bare_number _ _ 0)|by apply Hu]. }
    split; [apply (Hx "u"%char 10)|apply (Hx "x"%char 16)]; cbn; auto.
Qed.
