(* ===== verification/DataRuns.v ===== *)
(** * Concrete runs: lists, ring buffers and the service functions

    The theorems of RtList.v, RingBuffer.v, Kservice.v, KString.v, KMem.v and Kprintf.v
    applied to small concrete inputs. *)
From S2P Require Import Prelude RtList RingBuffer Kservice KString KMem Kprintf.
From Stdlib Require Import Ascii.
From stdpp Require Import base gmap sets list.
From Stdlib Require Import ZArith Lia.
Import RingBuffer.
#[local] Open Scope Z_scope.

(** ** Lists *)

(** One list head and two detached nodes. *)
Definition cells : gmap (nat + nat) (rt_list_node (nat + nat)) :=
  {[ inl 0%nat := ListNode (inl 0%nat) (inl 0%nat);
     inr 0%nat := ListNode (inr 0%nat) (inr 0%nat);
     inr 1%nat := ListNode (inr 1%nat) (inr 1%nat) ]}.
Lemma cells_rep : qrep cells {[ 0%nat := [] ]}.
Proof.
  split_and!.
  - intros h l [<- <-]%lookup_singleton_Some. split; [by vm_compute|apply NoDup_singleton].
  - intros n Hn _. assert (n = 0 \/ n = 1)%nat as [-> | ->] by (unfold cells in Hn; set_solver);
      (split; [by vm_compute|apply NoDup_singleton]).
  - split; [intros h l [<- <-]%lookup_singleton_Some; constructor|].
    intros h1 h2 l1 l2 n [<- <-]%lookup_singleton_Some _ Hn. by apply not_elem_of_nil in Hn.
Qed.

Definition some_ops : list (@list_op nat nat) :=
  [OpInsertBefore 0%nat 0%nat; OpInsertNode 0%nat 0%nat 1%nat; OpRemove 0%nat].
Lemma list_program_refines_witness :
  exists m', run_ops ptr_op some_ops cells = Some (tt, m') /\ is_ring m' (inl 0%nat) [inr 1%nat].
Proof.
  destruct (list_program_refines some_ops cells {[ 0%nat := [] ]} {[ 0%nat := [1%nat] ]}) as (m' & E & (Hr & _) & _).
  - exact cells_rep.
  - intros o Ho. apply elem_of_dom. unfold some_ops in Ho.
    rewrite !elem_of_cons, elem_of_nil in Ho. destruct Ho as [-> |[-> |[-> |[]]]]; vm_compute; eauto.
  - vm_compute. reflexivity.
  - exists m'. split; [exact E|]. exact (Hr 0%nat [1%nat] eq_refl).
Defined.

(** ** Ring buffers *)

(** Four bytes of room, two of them used, the writer about to wrap. *)
Definition rb0 : rt_ringbuffer := RB [1; 2; 3; 4] 0 2 1 0 4.
Definition rb_same : rt_ringbuffer := RB [1; 2; 3; 4] 0 1 0 3 4.
Lemma rb0_wf : rb_wf rb0.
Proof. split; cbn; lia. Qed.
Lemma rb_same_wf : rb_wf rb_same.
Proof. split; cbn; lia. Qed.

Lemma ringbuffer_put_correct_witness :
  exists n rb', rt_ringbuffer_put rb0 [7; 8; 9] 3 = Some (n, rb') /\ n = 2 /\ rb_contents rb' = [3; 4; 7; 8].
Proof.
  destruct (ringbuffer_put_correct rb0 [7; 8; 9] 3) as (n & rb' & E & _ & _ & Hn & Hc).
  - exact rb0_wf.
  - lia.
  - cbn. lia.
  - vm_compute in Hn. exists n, rb'. split; [exact E|]. split; [exact Hn|]. rewrite Hc, Hn. reflexivity.
Defined.

Lemma ringbuffer_get_correct_witness :
  exists n out rb', rt_ringbuffer_get rb_same 1 = Some (n, out, rb') /\ n = 1 /\ out = [2] /\ rb_contents rb' = [3].
Proof.
  destruct (ringbuffer_get_correct rb_same 1) as (n & out & rb' & E & _ & _ & Hn & Ho & Hc).
  - exact rb_same_wf.
  - lia.
  - vm_compute in Hn. exists n, out, rb'. split; [exact E|]. split; [exact Hn|]. rewrite Ho, Hc, Hn. split; reflexivity.
Defined.

Lemma ringbuffer_putchar_force_correct_witness :
  exists rb', rt_ringbuffer_putchar_force (RB [1; 2] 0 1 1 1 2) 9 = Some (1, rb') /\ rb_contents rb' = [1; 9].
Proof.
  destruct (ringbuffer_putchar_force_correct (RB [1; 2] 0 1 1 1 2) 9) as (rb' & E & _ & Hc).
  - split; cbn; lia.
  - exists rb'. split; [exact E|]. rewrite Hc. reflexivity.
Defined.

(** The writer is a lap ahead: the oldest byte goes. *)
Lemma ringbuffer_put_force_correct_witness :
  exists rb', rt_ringbuffer_put_force rb0 [7; 8; 9] 3 = Some (3, rb') /\ rb_contents rb' = [4; 7; 8; 9].
Proof.
  destruct (ringbuffer_put_force_correct rb0 [7; 8; 9] 3) as (rb' & E & _ & Hc).
  - exact rb0_wf.
  - lia.
  - cbn. lia.
  - left. discriminate.
  - exists rb'. split; [exact E|]. rewrite Hc. reflexivity.
Defined.

(** The writer is on the same lap: the buffer comes out empty. *)
Lemma ringbuffer_put_force_loses_witness :
  exists rb', rt_ringbuffer_put_force rb_same [7; 8; 9] 3 = Some (3, rb') /\ rb_contents rb' = [].
Proof.
  destruct (ringbuffer_put_force_loses rb_same [7; 8; 9] 3) as (rb' & E & _ & Hc).
  - exact rb_same_wf.
  - lia.
  - cbn. lia.
  - reflexivity.
  - reflexivity.
  - exists rb'. split; [exact E|]. exact Hc.
Defined.

(** ** Service functions *)

Lemma ffs_lowest_set_bit_witness : lowest_bit 0xA0000 (rt_ffs 0xA0000 - 1).
Proof. apply (ffs_lowest_set_bit 0xA0000). lia. Defined.

Lemma strstr_first_occurrence_witness :
  rt_strstr [97; 98; 97; 98; 99] [97; 98; 99] = Some 2%nat /\ occurs_at [97; 98; 97; 98; 99] [97; 98; 99] 2.
Proof.
  split; [vm_compute; reflexivity|].
  apply (strstr_first_occurrence [97; 98; 97; 98; 99] [97; 98; 99]); repeat constructor; lia.
Defined.

(** ** Memory blocks *)

(** Forty bytes with the values 0 to 39 from address 100 on. *)
Definition forty : gmap Z Z := list_to_map ((fun i => (100 + Z.of_nat i, Z.of_nat i)) <$> seq 0 40).
Lemma forty_bytes : byte_values forty.
Proof. apply (bool_decide_unpack _). vm_compute. exact I. Qed.
Lemma forty_mapped a n : 100 <= a -> a + n <= 140 -> mapped forty a n.
Proof.
  intros Ha Hn x Hx. assert (H : Forall (fun i => is_Some (forty !! (100 + Z.of_nat i))) (seq 0 40))
    by (apply (bool_decide_unpack _); vm_compute; exact I).
  rewrite Forall_forall in H. specialize (H (Z.to_nat (x - 100))). replace (100 + Z.of_nat (Z.to_nat (x - 100))) with x in H by lia.
  apply H. apply elem_of_seq. lia.
Qed.

(** Nineteen bytes from an aligned address to an overlapping one: one block, no word, three
    single bytes. *)
Lemma memcpy_is_byte_loop_witness :
  rt_memcpy 100 116 19 forty = (copy_bytes 19 100 116 ;; mret 100) forty.
Proof.
  apply (memcpy_is_byte_loop forty 100 116 0 19).
  - lia.
  - exact forty_bytes.
  - apply forty_mapped; lia.
  - apply forty_mapped; lia.
  - lia.
Defined.

Lemma memmove_correct_witness :
  exists m', rt_memmove 104 100 20 forty = Some (104, m') /\ copied forty 104 100 20 m'.
Proof.
  apply (memmove_correct forty 104 100 20).
  - lia.
  - apply forty_mapped; lia.
  - apply forty_mapped; lia.
Defined.

(** ** Printing *)

(** [%5d|] with 42 in a buffer of four bytes: the beginning of the text and the NUL. *)
Definition fmt5d : list Z := map ch ["%"; "5"; "d"; "|"]%char.
Lemma vsnprintf_truncates_witness :
  exists m', rt_vsnprintf 104 4 fmt5d [AWord 42] forty = Some (6, m') /\
    (m' !! 104 = Some 32 /\ m' !! 106 = Some 32 /\ m' !! 107 = Some 0 /\ m' !! 108 = Some 8).
Proof.
  destruct (vsnprintf_truncates forty 104 4 fmt5d [AWord 42] (map ch [" "; " "; " "; "4"; "2"; "|"]%char)) as (m' & E & Hp).
  - lia.
  - lia.
  - vm_compute. reflexivity.
  - cbn. lia.
  - apply forty_mapped; [lia|]. vm_compute. discriminate.
  - exists m'. split; [exact E|]. rewrite !(Hp _). vm_compute. split_and!; reflexivity.
Defined.

Lemma print_number_layout_witness :
  print_number put_text (-7) 10 6 3 (Z.lor SIGN ZEROPAD) [] = Some (tt, map ch ["-"; "0"; "0"; "0"; "0"; "7"]%char).
Proof.
  rewrite (print_number_layout (-7) 10 6 3 (Z.lor SIGN ZEROPAD) []).
  - vm_compute. reflexivity.
  - lia.
  - intros _. lia.
  - lia.
  - lia.
Defined.

Lemma number_roundtrip_witness : exists t, text (map ch ["%"; "d"]%char) [AWord (-120)] = Some t /\ read_number 10 t = -120.
Proof. apply (number_roundtrip (-120)); lia. Defined.

(** Two conversions that do not print what they are documented to: [%o] is hexadecimal, and a
    precision of zero drops the digits of every number and limits no string. *)
Theorem percent_o_is_hexadecimal : text (map ch ["%"; "o"]%char) [AWord 8] = Some [ch "8"] /\ text (map ch ["%"; "o"]%char) [AWord 26] = Some (map ch ["1"; "a"]%char).
Proof. split; vm_compute; reflexivity. Qed.
Theorem precision_zero :
  text (map ch ["%"; "."; "0"; "d"]%char) [AWord 5] = Some [] /\
  text (map ch ["%"; "."; "0"; "s"]%char) [AStr (Some (map ch ["a"; "b"]%char))] = Some (map ch ["a"; "b"]%char).
Proof. split; vm_compute; reflexivity. Qed.
