(* ===== verification/Kernel.v ===== *)
(** * Data of the RT-Thread kernel (rt-thread/include/rtdef.h)

    Object identifiers, thread control blocks, timers and the global variables
    of scheduler.c, timer.c and clock.c.  Pointers to kernel structures are
    natural-number identifiers; a pointer to a structure that does not exist
    has no entry in the map and using it is undefined behaviour. *)
From S2P Require Import Prelude RtList.
From stdpp Require Import base gmap sets list countable.
From Stdlib Require Import ZArith Lia.
#[local] Open Scope Z_scope.

(** ** Constants *)

Definition RT_EOK : Z := 0.
Definition RT_ERROR : Z := 1.
Definition RT_ETIMEOUT : Z := 2.
Definition RT_EFULL : Z := 3.
Definition RT_EBUSY : Z := 7.
Definition RT_EIO : Z := 8.
Definition RT_EINTR : Z := 9.
Definition RT_EINVAL : Z := 10.

Definition RT_TICK_MAX : Z := 0xffffffff.
Definition RT_TICK_PER_SECOND : Z := 1000.
Definition RT_THREAD_PRIORITY_MAX : Z := 32.

Definition RT_THREAD_INIT : Z := 0.
Definition RT_THREAD_READY : Z := 1.
Definition RT_THREAD_SUSPEND : Z := 2.
Definition RT_THREAD_RUNNING : Z := 3.
Definition RT_THREAD_CLOSE : Z := 4.
Definition RT_THREAD_STAT_MASK : Z := 7.
Definition RT_THREAD_STAT_YIELD : Z := 8.

Definition RT_TIMER_FLAG_ACTIVATED : Z := 1.
Definition RT_TIMER_FLAG_PERIODIC : Z := 2.
Definition RT_TIMER_FLAG_SOFT_TIMER : Z := 4.

Inductive timer_cmd :=
| RT_TIMER_CTRL_SET_TIME (time : Z)
| RT_TIMER_CTRL_GET_TIME
| RT_TIMER_CTRL_SET_ONESHOT
| RT_TIMER_CTRL_SET_PERIODIC.

Inductive thread_cmd :=
| RT_THREAD_CTRL_STARTUP
| RT_THREAD_CTRL_CLOSE
| RT_THREAD_CTRL_CHANGE_PRIORITY (prio : Z)
| RT_THREAD_CTRL_OTHER.

Definition RT_IPC_FLAG_FIFO : Z := 0.
Definition RT_IPC_FLAG_PRIO : Z := 1.

(** ** Identifiers *)

(** The heads of the lists that link thread nodes ([tlist]). *)
Inductive qhead :=
| QReady (prio : Z)
| QDefunct
| QSem (s : nat)
| QMutex (m : nat)
| QEvent (e : nat)
| QMbRecv (m : nat)
| QMbSend (m : nat)
| QMqRecv (q : nat)
| QMqSend (q : nat)
| QMempool (p : nat)
| QComp (c : nat)
| QDqPush (q : nat)
| QDqPop (q : nat).

#[global] Instance qhead_eq_dec : EqDecision qhead.
Proof. solve_decision. Defined.
Definition qhead_code (q : qhead) : nat * Z :=
  match q with
  | QReady p => (0%nat, p)
  | QDefunct => (1%nat, 0)
  | QSem n => (2%nat, Z.of_nat n)
  | QMutex n => (3%nat, Z.of_nat n)
  | QEvent n => (4%nat, Z.of_nat n)
  | QMbRecv n => (5%nat, Z.of_nat n)
  | QMbSend n => (6%nat, Z.of_nat n)
  | QMqRecv n => (7%nat, Z.of_nat n)
  | QMqSend n => (8%nat, Z.of_nat n)
  | QMempool n => (9%nat, Z.of_nat n)
  | QComp n => (10%nat, Z.of_nat n)
  | QDqPush n => (11%nat, Z.of_nat n)
  | QDqPop n => (12%nat, Z.of_nat n)
  end.
Definition qhead_decode (c : nat * Z) : option qhead :=
  match c with
  | (0%nat, p) => Some (QReady p)
  | (1%nat, _) => Some QDefunct
  | (2%nat, z) => Some (QSem (Z.to_nat z))
  | (3%nat, z) => Some (QMutex (Z.to_nat z))
  | (4%nat, z) => Some (QEvent (Z.to_nat z))
  | (5%nat, z) => Some (QMbRecv (Z.to_nat z))
  | (6%nat, z) => Some (QMbSend (Z.to_nat z))
  | (7%nat, z) => Some (QMqRecv (Z.to_nat z))
  | (8%nat, z) => Some (QMqSend (Z.to_nat z))
  | (9%nat, z) => Some (QMempool (Z.to_nat z))
  | (10%nat, z) => Some (QComp (Z.to_nat z))
  | (11%nat, z) => Some (QDqPush (Z.to_nat z))
  | (12%nat, z) => Some (QDqPop (Z.to_nat z))
  | _ => None
  end.
#[global] Instance qhead_countable : Countable qhead.
Proof.
  apply (inj_countable qhead_code qhead_decode).
  intros []; cbn; rewrite ?Nat2Z.id; reflexivity.
Defined.

(** A timer is the one embedded in a thread or a timer object of its own. *)
Inductive timer_id := ThreadTimer (t : nat) | UserTimer (n : nat).
#[global] Instance timer_id_eq_dec : EqDecision timer_id.
Proof. solve_decision. Defined.
#[global] Instance timer_id_countable : Countable timer_id.
Proof.
  apply (inj_countable' (fun i => match i with ThreadTimer t => inl t | UserTimer n => inr n end)
    (fun c => match c with inl t => ThreadTimer t | inr n => UserTimer n end)).
  by intros [].
Defined.

Inductive tlhead := TLHard | TLSoft.
#[global] Instance tlhead_eq_dec : EqDecision tlhead.
Proof. solve_decision. Defined.
#[global] Instance tlhead_countable : Countable tlhead.
Proof.
  apply (inj_countable' (fun h => match h with TLHard => true | TLSoft => false end)
    (fun b : bool => if b then TLHard else TLSoft)). by intros [].
Defined.

(** The timeout function of a timer with its parameter: rt_thread_timeout of a
    thread, or a callback of the application. *)
Inductive timeout_func := TF_thread_timeout (t : nat) | TF_user (n : nat).

(** ** Structures and global state *)

(** struct rt_thread, without its object header, list node and timer, which are
    entries of the object map, the queue store and the timer map. *)
Record rt_thread := RtThread {
  th_entry : Z;
  th_parameter : Z;
  th_stack_addr : Z;
  th_stack_size : Z;
  th_error : Z;
  th_stat : Z;
  th_current_priority : Z;
  th_init_priority : Z;
  th_number_mask : Z;
  th_event_set : Z;
  th_event_info : Z;
  th_init_tick : Z;
  th_remaining_tick : Z;
  th_cleanup : Z;
  th_user_data : Z;
}.
Definition set_th_error (v : Z) (r : rt_thread) : rt_thread :=
  RtThread (th_entry r) (th_parameter r) (th_stack_addr r) (th_stack_size r) v (th_stat r) (th_current_priority r) (th_init_priority r) (th_number_mask r) (th_event_set r) (th_event_info r) (th_init_tick r) (th_remaining_tick r) (th_cleanup r) (th_user_data r).
Definition set_th_stat (v : Z) (r : rt_thread) : rt_thread :=
  RtThread (th_entry r) (th_parameter r) (th_stack_addr r) (th_stack_size r) (th_error r) v (th_current_priority r) (th_init_priority r) (th_number_mask r) (th_event_set r) (th_event_info r) (th_init_tick r) (th_remaining_tick r) (th_cleanup r) (th_user_data r).
Definition set_th_current_priority (v : Z) (r : rt_thread) : rt_thread :=
  RtThread (th_entry r) (th_parameter r) (th_stack_addr r) (th_stack_size r) (th_error r) (th_stat r) v (th_init_priority r) (th_number_mask r) (th_event_set r) (th_event_info r) (th_init_tick r) (th_remaining_tick r) (th_cleanup r) (th_user_data r).
Definition set_th_number_mask (v : Z) (r : rt_thread) : rt_thread :=
  RtThread (th_entry r) (th_parameter r) (th_stack_addr r) (th_stack_size r) (th_error r) (th_stat r) (th_current_priority r) (th_init_priority r) v (th_event_set r) (th_event_info r) (th_init_tick r) (th_remaining_tick r) (th_cleanup r) (th_user_data r).
Definition set_th_event_set (v : Z) (r : rt_thread) : rt_thread :=
  RtThread (th_entry r) (th_parameter r) (th_stack_addr r) (th_stack_size r) (th_error r) (th_stat r) (th_current_priority r) (th_init_priority r) (th_number_mask r) v (th_event_info r) (th_init_tick r) (th_remaining_tick r) (th_cleanup r) (th_user_data r).
Definition set_th_event_info (v : Z) (r : rt_thread) : rt_thread :=
  RtThread (th_entry r) (th_parameter r) (th_stack_addr r) (th_stack_size r) (th_error r) (th_stat r) (th_current_priority r) (th_init_priority r) (th_number_mask r) (th_event_set r) v (th_init_tick r) (th_remaining_tick r) (th_cleanup r) (th_user_data r).
Definition set_th_remaining_tick (v : Z) (r : rt_thread) : rt_thread :=
  RtThread (th_entry r) (th_parameter r) (th_stack_addr r) (th_stack_size r) (th_error r) (th_stat r) (th_current_priority r) (th_init_priority r) (th_number_mask r) (th_event_set r) (th_event_info r) (th_init_tick r) v (th_cleanup r) (th_user_data r).

(** The globals of scheduler.c: rt_thread_priority_table and every other list of
    threads ([s_queues]), rt_thread_ready_priority_group, rt_current_thread,
    rt_current_priority and rt_scheduler_lock_nest. *)
Record sched := Sched {
  s_threads : gmap nat rt_thread;
  s_queues : gmap qhead (list nat);
  s_group : Z;
  s_current : option nat;
  s_current_priority : Z;
  s_lock_nest : Z;
}.
Definition set_s_threads (v : gmap nat rt_thread) (r : sched) : sched :=
  Sched v (s_queues r) (s_group r) (s_current r) (s_current_priority r) (s_lock_nest r).
Definition set_s_queues (v : gmap qhead (list nat)) (r : sched) : sched :=
  Sched (s_threads r) v (s_group r) (s_current r) (s_current_priority r) (s_lock_nest r).
Definition set_s_group (v : Z) (r : sched) : sched :=
  Sched (s_threads r) (s_queues r) v (s_current r) (s_current_priority r) (s_lock_nest r).
Definition set_s_current (v : option nat) (r : sched) : sched :=
  Sched (s_threads r) (s_queues r) (s_group r) v (s_current_priority r) (s_lock_nest r).
Definition set_s_current_priority (v : Z) (r : sched) : sched :=
  Sched (s_threads r) (s_queues r) (s_group r) (s_current r) v (s_lock_nest r).
Definition set_s_lock_nest (v : Z) (r : sched) : sched :=
  Sched (s_threads r) (s_queues r) (s_group r) (s_current r) (s_current_priority r) v.

(** struct rt_timer; [tm_flag] is parent.flag. *)
Record rt_timer := RtTimer {
  tm_func : timeout_func;
  tm_init_tick : Z;
  tm_timeout_tick : Z;
  tm_flag : Z;
}.
Definition set_tm_func (v : timeout_func) (r : rt_timer) : rt_timer :=
  RtTimer v (tm_init_tick r) (tm_timeout_tick r) (tm_flag r).
Definition set_tm_init_tick (v : Z) (r : rt_timer) : rt_timer :=
  RtTimer (tm_func r) v (tm_timeout_tick r) (tm_flag r).
Definition set_tm_timeout_tick (v : Z) (r : rt_timer) : rt_timer :=
  RtTimer (tm_func r) (tm_init_tick r) v (tm_flag r).
Definition set_tm_flag (v : Z) (r : rt_timer) : rt_timer :=
  RtTimer (tm_func r) (tm_init_tick r) (tm_timeout_tick r) v.

(** The globals of timer.c and clock.c: all timers, rt_timer_list and
    rt_soft_timer_list, rt_tick and the counter random_nr. *)
Record timers := Timers {
  t_timers : gmap timer_id rt_timer;
  t_lists : gmap tlhead (list timer_id);
  t_tick : Z;
  t_random : Z;
}.
Definition set_t_timers (v : gmap timer_id rt_timer) (r : timers) : timers :=
  Timers v (t_lists r) (t_tick r) (t_random r).
Definition set_t_lists (v : gmap tlhead (list timer_id)) (r : timers) : timers :=
  Timers (t_timers r) v (t_tick r) (t_random r).
Definition set_t_tick (v : Z) (r : timers) : timers :=
  Timers (t_timers r) (t_lists r) v (t_random r).
Definition set_t_random (v : Z) (r : timers) : timers :=
  Timers (t_timers r) (t_lists r) (t_tick r) v.

(** The state tag of a thread, [stat & RT_THREAD_STAT_MASK]. *)
Definition stat_of (th : rt_thread) : Z := Z.land (th_stat th) RT_THREAD_STAT_MASK.
(** [tag | (stat & ~RT_THREAD_STAT_MASK)]. *)
Definition with_stat (tag : Z) (th : rt_thread) : rt_thread :=
  set_th_stat (Z.lor tag (Z.land (th_stat th) (Z.lnot RT_THREAD_STAT_MASK))) th.

Lemma stat_with_stat tag th : 0 <= tag <= 7 -> stat_of (with_stat tag th) = tag.
Proof.
  intros Ht. unfold stat_of, with_stat, RT_THREAD_STAT_MASK. cbn [th_stat set_th_stat].
  rewrite Z.land_lor_distr_l, <- Z.land_assoc, (Z.land_comm (Z.lnot 7)).
  rewrite Z.land_lnot_diag, Z.land_0_r, Z.lor_0_r.
  change 7 with (Z.ones 3). rewrite Z.land_ones by lia. apply Z.mod_small. lia.
Qed.

Lemma stat_with_running th : stat_of (with_stat RT_THREAD_RUNNING th) = RT_THREAD_RUNNING.
Proof. by apply stat_with_stat. Qed.
Lemma stat_with_ready th : stat_of (with_stat RT_THREAD_READY th) = RT_THREAD_READY.
Proof. by apply stat_with_stat. Qed.
Lemma stat_with_suspend th : stat_of (with_stat RT_THREAD_SUSPEND th) = RT_THREAD_SUSPEND.
Proof. by apply stat_with_stat. Qed.
Lemma stat_with_close th : stat_of (with_stat RT_THREAD_CLOSE th) = RT_THREAD_CLOSE.
Proof. by apply stat_with_stat. Qed.
#[export] Hint Rewrite stat_with_running stat_with_ready stat_with_suspend stat_with_close : rt.

(** ** Kernel objects *)

Inductive obj_id :=
| OThread (t : nat) | OSem (n : nat) | OMutex (n : nat) | OEvent (n : nat)
| OMailBox (n : nat) | OMessageQueue (n : nat) | OMemPool (n : nat)
| ODevice (n : nat) | OTimer (t : timer_id).
#[global] Instance obj_id_eq_dec : EqDecision obj_id.
Proof. solve_decision. Defined.
#[global] Instance obj_id_countable : Countable obj_id.
Proof.
  apply (inj_countable'
    (fun o => match o with
       | OThread n => inl (0%nat, n) | OSem n => inl (1%nat, n) | OMutex n => inl (2%nat, n)
       | OEvent n => inl (3%nat, n) | OMailBox n => inl (4%nat, n) | OMessageQueue n => inl (5%nat, n)
       | OMemPool n => inl (6%nat, n) | ODevice n => inl (7%nat, n) | OTimer t => inr t end)
    (fun c => match c with
       | inl (0%nat, n) => OThread n | inl (1%nat, n) => OSem n | inl (2%nat, n) => OMutex n
       | inl (3%nat, n) => OEvent n | inl (4%nat, n) => OMailBox n | inl (5%nat, n) => OMessageQueue n
       | inl (6%nat, n) => OMemPool n | inl (_, n) => ODevice n | inr t => OTimer t end)).
  by intros [].
Defined.

(** enum rt_object_class_type *)
Definition RT_Object_Class_Thread : Z := 1.
Definition RT_Object_Class_Semaphore : Z := 2.
Definition RT_Object_Class_Mutex : Z := 3.
Definition RT_Object_Class_Event : Z := 4.
Definition RT_Object_Class_MailBox : Z := 5.
Definition RT_Object_Class_MessageQueue : Z := 6.
Definition RT_Object_Class_MemPool : Z := 8.
Definition RT_Object_Class_Device : Z := 9.
Definition RT_Object_Class_Timer : Z := 10.
Definition RT_Object_Class_Unknown : Z := 12.
Definition RT_Object_Class_Static : Z := 0x80.
Definition RT_NAME_MAX : nat := 8.

(** struct rt_object: its type and its RT_NAME_MAX bytes of name.  The flag field
    is kept with the structure that inherits from the object. *)
Record rt_object := RtObject {
  ob_type : Z;
  ob_name : list Z;
}.
Definition set_ob_type (v : Z) (r : rt_object) : rt_object :=
  RtObject v (ob_name r).
Definition set_ob_name (v : list Z) (r : rt_object) : rt_object :=
  RtObject (ob_type r) v.

(** The objects and the object_list of each rt_object_container entry, by class. *)
Record objects := Objects {
  o_objs : gmap obj_id rt_object;
  o_lists : gmap Z (list obj_id);
}.
Definition set_o_objs (v : gmap obj_id rt_object) (r : objects) : objects :=
  Objects v (o_lists r).
Definition set_o_lists (v : gmap Z (list obj_id)) (r : objects) : objects :=
  Objects (o_objs r) v.


(** ** IPC structures *)

(** struct rt_semaphore; the list of suspended threads is the queue [QSem]. *)
Record rt_semaphore := RtSemaphore {
  sem_flag : Z;
  sem_value : Z;
}.
Definition set_sem_flag (v : Z) (r : rt_semaphore) : rt_semaphore :=
  RtSemaphore v (sem_value r).
Definition set_sem_value (v : Z) (r : rt_semaphore) : rt_semaphore :=
  RtSemaphore (sem_flag r) v.

(** struct rt_mutex *)
Record rt_mutex := RtMutex {
  mx_flag : Z;
  mx_value : Z;
  mx_original_priority : Z;
  mx_hold : Z;
  mx_owner : option nat;
}.
Definition set_mx_flag (v : Z) (r : rt_mutex) : rt_mutex :=
  RtMutex v (mx_value r) (mx_original_priority r) (mx_hold r) (mx_owner r).
Definition set_mx_value (v : Z) (r : rt_mutex) : rt_mutex :=
  RtMutex (mx_flag r) v (mx_original_priority r) (mx_hold r) (mx_owner r).
Definition set_mx_original_priority (v : Z) (r : rt_mutex) : rt_mutex :=
  RtMutex (mx_flag r) (mx_value r) v (mx_hold r) (mx_owner r).
Definition set_mx_hold (v : Z) (r : rt_mutex) : rt_mutex :=
  RtMutex (mx_flag r) (mx_value r) (mx_original_priority r) v (mx_owner r).
Definition set_mx_owner (v : option nat) (r : rt_mutex) : rt_mutex :=
  RtMutex (mx_flag r) (mx_value r) (mx_original_priority r) (mx_hold r) v.

(** struct rt_event *)
Record rt_event := RtEvent {
  ev_flag : Z;
  ev_set : Z;
}.
Definition set_ev_flag (v : Z) (r : rt_event) : rt_event :=
  RtEvent v (ev_set r).
Definition set_ev_set (v : Z) (r : rt_event) : rt_event :=
  RtEvent (ev_flag r) v.

(** struct rt_mailbox; [mb_msg_pool] is the array of [mb_size] words. *)
Record rt_mailbox := RtMailbox {
  mb_flag : Z;
  mb_msg_pool : list Z;
  mb_size : Z;
  mb_entry : Z;
  mb_in_offset : Z;
  mb_out_offset : Z;
}.
Definition set_mb_flag (v : Z) (r : rt_mailbox) : rt_mailbox :=
  RtMailbox v (mb_msg_pool r) (mb_size r) (mb_entry r) (mb_in_offset r) (mb_out_offset r).
Definition set_mb_msg_pool (v : list Z) (r : rt_mailbox) : rt_mailbox :=
  RtMailbox (mb_flag r) v (mb_size r) (mb_entry r) (mb_in_offset r) (mb_out_offset r).
Definition set_mb_entry (v : Z) (r : rt_mailbox) : rt_mailbox :=
  RtMailbox (mb_flag r) (mb_msg_pool r) (mb_size r) v (mb_in_offset r) (mb_out_offset r).
Definition set_mb_in_offset (v : Z) (r : rt_mailbox) : rt_mailbox :=
  RtMailbox (mb_flag r) (mb_msg_pool r) (mb_size r) (mb_entry r) v (mb_out_offset r).
Definition set_mb_out_offset (v : Z) (r : rt_mailbox) : rt_mailbox :=
  RtMailbox (mb_flag r) (mb_msg_pool r) (mb_size r) (mb_entry r) (mb_in_offset r) v.

(** struct rt_messagequeue with its pool: block [i] is the struct rt_mq_message at
    msg_pool + i * (msg_size + sizeof(struct rt_mq_message)), [mq_next] its link
    and [mq_data] the bytes after it. *)
Record rt_messagequeue := RtMessagequeue {
  mq_flag : Z;
  mq_msg_size : Z;
  mq_max_msgs : Z;
  mq_entry : Z;
  mq_next : gmap nat (option nat);
  mq_data : gmap nat (list Z);
  mq_head : option nat;
  mq_tail : option nat;
  mq_free : option nat;
}.
Definition set_mq_flag (v : Z) (r : rt_messagequeue) : rt_messagequeue :=
  RtMessagequeue v (mq_msg_size r) (mq_max_msgs r) (mq_entry r) (mq_next r) (mq_data r) (mq_head r) (mq_tail r) (mq_free r).
Definition set_mq_entry (v : Z) (r : rt_messagequeue) : rt_messagequeue :=
  RtMessagequeue (mq_flag r) (mq_msg_size r) (mq_max_msgs r) v (mq_next r) (mq_data r) (mq_head r) (mq_tail r) (mq_free r).
Definition set_mq_next (v : gmap nat (option nat)) (r : rt_messagequeue) : rt_messagequeue :=
  RtMessagequeue (mq_flag r) (mq_msg_size r) (mq_max_msgs r) (mq_entry r) v (mq_data r) (mq_head r) (mq_tail r) (mq_free r).
Definition set_mq_data (v : gmap nat (list Z)) (r : rt_messagequeue) : rt_messagequeue :=
  RtMessagequeue (mq_flag r) (mq_msg_size r) (mq_max_msgs r) (mq_entry r) (mq_next r) v (mq_head r) (mq_tail r) (mq_free r).
Definition set_mq_head (v : option nat) (r : rt_messagequeue) : rt_messagequeue :=
  RtMessagequeue (mq_flag r) (mq_msg_size r) (mq_max_msgs r) (mq_entry r) (mq_next r) (mq_data r) v (mq_tail r) (mq_free r).
Definition set_mq_tail (v : option nat) (r : rt_messagequeue) : rt_messagequeue :=
  RtMessagequeue (mq_flag r) (mq_msg_size r) (mq_max_msgs r) (mq_entry r) (mq_next r) (mq_data r) (mq_head r) v (mq_free r).
Definition set_mq_free (v : option nat) (r : rt_messagequeue) : rt_messagequeue :=
  RtMessagequeue (mq_flag r) (mq_msg_size r) (mq_max_msgs r) (mq_entry r) (mq_next r) (mq_data r) (mq_head r) (mq_tail r) v.


(** The word in front of a block of a memory pool: the link to the next free block,
    or, while the block is allocated, the address of its pool. *)
Inductive mp_word := MpNext (next : option nat) | MpPool (mp : nat).
#[global] Instance mp_word_eq_dec : EqDecision mp_word.
Proof. solve_decision. Defined.
(** struct rt_mempool; block [i] is the one at start_address + i * (block_size + 4)
    and [mp_words] holds the first word of every block. *)
Record rt_mempool := RtMempool {
  mp_size : Z;
  mp_block_size : Z;
  mp_block_list : option nat;
  mp_block_total_count : Z;
  mp_block_free_count : Z;
  mp_words : gmap nat mp_word;
}.
Definition set_mp_block_list (v : option nat) (r : rt_mempool) : rt_mempool :=
  RtMempool (mp_size r) (mp_block_size r) v (mp_block_total_count r) (mp_block_free_count r) (mp_words r).
Definition set_mp_block_free_count (v : Z) (r : rt_mempool) : rt_mempool :=
  RtMempool (mp_size r) (mp_block_size r) (mp_block_list r) (mp_block_total_count r) v (mp_words r).
Definition set_mp_words (v : gmap nat mp_word) (r : rt_mempool) : rt_mempool :=
  RtMempool (mp_size r) (mp_block_size r) (mp_block_list r) (mp_block_total_count r) (mp_block_free_count r) v.

(** The globals of mem.c.  [hp_ptr] is the address heap_ptr; heap_end and lfree are kept
    as offsets from it; [hp_mem] is the memory of the heap as 32-bit words, by offset. *)
Record heap := Heap {
  hp_ptr : Z;
  hp_end : Z;
  hp_lfree : Z;
  hp_mem_size_aligned : Z;
  hp_used_mem : Z;
  hp_max_mem : Z;
  hp_mem : gmap Z Z;
}.
Definition set_hp_lfree (v : Z) (r : heap) : heap :=
  Heap (hp_ptr r) (hp_end r) v (hp_mem_size_aligned r) (hp_used_mem r) (hp_max_mem r) (hp_mem r).
Definition set_hp_used_mem (v : Z) (r : heap) : heap :=
  Heap (hp_ptr r) (hp_end r) (hp_lfree r) (hp_mem_size_aligned r) v (hp_max_mem r) (hp_mem r).
Definition set_hp_max_mem (v : Z) (r : heap) : heap :=
  Heap (hp_ptr r) (hp_end r) (hp_lfree r) (hp_mem_size_aligned r) (hp_used_mem r) v (hp_mem r).
Definition set_hp_mem (v : gmap Z Z) (r : heap) : heap :=
  Heap (hp_ptr r) (hp_end r) (hp_lfree r) (hp_mem_size_aligned r) (hp_used_mem r) (hp_max_mem r) v.

(** ** The kernel state *)

(** All globals of the kernel. *)
Record kernel := Kernel {
  k_sched : sched;
  k_timers : timers;
  k_objs : objects;
  k_sems : gmap nat rt_semaphore;
  k_mutexes : gmap nat rt_mutex;
  k_events : gmap nat rt_event;
  k_mbs : gmap nat rt_mailbox;
  k_mqs : gmap nat rt_messagequeue;
  k_mps : gmap nat rt_mempool;
  k_heap : heap;
}.
Definition set_k_sched (v : sched) (r : kernel) : kernel :=
  Kernel v (k_timers r) (k_objs r) (k_sems r) (k_mutexes r) (k_events r) (k_mbs r) (k_mqs r) (k_mps r) (k_heap r).
Definition set_k_timers (v : timers) (r : kernel) : kernel :=
  Kernel (k_sched r) v (k_objs r) (k_sems r) (k_mutexes r) (k_events r) (k_mbs r) (k_mqs r) (k_mps r) (k_heap r).
Definition set_k_objs (v : objects) (r : kernel) : kernel :=
  Kernel (k_sched r) (k_timers r) v (k_sems r) (k_mutexes r) (k_events r) (k_mbs r) (k_mqs r) (k_mps r) (k_heap r).
Definition set_k_sems (v : gmap nat rt_semaphore) (r : kernel) : kernel :=
  Kernel (k_sched r) (k_timers r) (k_objs r) v (k_mutexes r) (k_events r) (k_mbs r) (k_mqs r) (k_mps r) (k_heap r).
Definition set_k_mutexes (v : gmap nat rt_mutex) (r : kernel) : kernel :=
  Kernel (k_sched r) (k_timers r) (k_objs r) (k_sems r) v (k_events r) (k_mbs r) (k_mqs r) (k_mps r) (k_heap r).
Definition set_k_events (v : gmap nat rt_event) (r : kernel) : kernel :=
  Kernel (k_sched r) (k_timers r) (k_objs r) (k_sems r) (k_mutexes r) v (k_mbs r) (k_mqs r) (k_mps r) (k_heap r).
Definition set_k_mbs (v : gmap nat rt_mailbox) (r : kernel) : kernel :=
  Kernel (k_sched r) (k_timers r) (k_objs r) (k_sems r) (k_mutexes r) (k_events r) v (k_mqs r) (k_mps r) (k_heap r).
Definition set_k_mqs (v : gmap nat rt_messagequeue) (r : kernel) : kernel :=
  Kernel (k_sched r) (k_timers r) (k_objs r) (k_sems r) (k_mutexes r) (k_events r) (k_mbs r) v (k_mps r) (k_heap r).
Definition set_k_mps (v : gmap nat rt_mempool) (r : kernel) : kernel :=
  Kernel (k_sched r) (k_timers r) (k_objs r) (k_sems r) (k_mutexes r) (k_events r) (k_mbs r) (k_mqs r) v (k_heap r).
Definition set_k_heap (v : heap) (r : kernel) : kernel :=
  Kernel (k_sched r) (k_timers r) (k_objs r) (k_sems r) (k_mutexes r) (k_events r) (k_mbs r) (k_mqs r) (k_mps r) v.

Definition on_sched {A} (c : M sched A) : M kernel A := zoom k_sched set_k_sched c.
Definition on_timers {A} (c : M timers A) : M kernel A := zoom k_timers set_k_timers c.
Definition on_objs {A} (c : M objects A) : M kernel A := zoom k_objs set_k_objs c.
Definition on_heap {A} (c : M heap A) : M kernel A := zoom k_heap set_k_heap c.

(** Reading and writing one structure of a store of the kernel. *)
Definition rd {A} (get : kernel -> gmap nat A) (n : nat) : M kernel A := fun k =>
  match get k !! n with Some a => Some (a, k) | None => None end.
Definition upd {A} (get : kernel -> gmap nat A) (set : gmap nat A -> kernel -> kernel)
    (n : nat) (f : A -> A) : M kernel unit := fun k =>
  match get k !! n with Some a => Some (tt, set (<[n := f a]> (get k)) k) | None => None end.

Lemma on_sched_run {A} (c : M sched A) k a s :
  c (k_sched k) = Some (a, s) -> on_sched c k = Some (a, set_k_sched s k).
Proof. intros E. unfold on_sched, zoom. by rewrite E. Qed.
Lemma on_timers_run {A} (c : M timers A) k a s :
  c (k_timers k) = Some (a, s) -> on_timers c k = Some (a, set_k_timers s k).
Proof. intros E. unfold on_timers, zoom. by rewrite E. Qed.
Lemma rd_run {A} (get : kernel -> gmap nat A) n k a : get k !! n = Some a -> rd get n k = Some (a, k).
Proof. intros E. unfold rd. by rewrite E. Qed.
Lemma upd_run {A} (get : kernel -> gmap nat A) set n f k a :
  get k !! n = Some a -> upd get set n f k = Some (tt, set (<[n := f a]> (get k)) k).
Proof. intros E. unfold upd. by rewrite E. Qed.
