(* ===== verification/Sched.v ===== *)
(** * The priority scheduler (rt-thread/src/scheduler.c, non-SMP branch)

    Ready queues, the ready bitmap, the choice of the next thread and the
    scheduler lock.  [sinv] is the invariant of the scheduler's globals; the
    operations are shown to be free of undefined behaviour and to preserve it. *)
From S2P Require Import Prelude RtList Kservice Kernel.
From stdpp Require Import base gmap sets list.
From Stdlib Require Import ZArith Lia.
#[local] Open Scope Z_scope.

(** ** Access to thread control blocks and thread lists *)

Definition rd_thread (t : nat) : M sched rt_thread := fun s =>
  match s_threads s !! t with Some th => Some (th, s) | None => None end.
Definition upd_thread (t : nat) (f : rt_thread -> rt_thread) : M sched unit := fun s =>
  match s_threads s !! t with
  | Some th => Some (tt, set_s_threads (<[t := f th]> (s_threads s)) s)
  | None => None
  end.
Definition sq {A} (c : M (gmap qhead (list nat)) A) : M sched A := zoom s_queues set_s_queues c.

(** ** Operations *)

Definition rt_schedule_insert_thread (t : nat) : M sched unit :=
  cur ← gets s_current;
  if bool_decide (cur = Some t) then upd_thread t (with_stat RT_THREAD_RUNNING)
  else
    upd_thread t (with_stat RT_THREAD_READY) ;;
    th ← rd_thread t;
    sq (q_insert_before (QReady (th_current_priority th)) t) ;;
    modify (fun s => set_s_group (Z.lor (s_group s) (th_number_mask th)) s).

Definition rt_schedule_remove_thread (t : nat) : M sched unit :=
  th ← rd_thread t;
  sq (q_remove t) ;;
  e ← sq (q_isempty (QReady (th_current_priority th)));
  if (e : bool) then
    modify (fun s => set_s_group (Z.land (s_group s) (Z.lnot (th_number_mask th))) s)
  else mret tt.

(** Returns the first thread of the highest ready priority and that priority;
    an empty list behind a set bit would make rt_list_entry read garbage. *)
Definition get_highest_priority_thread : M sched (nat * Z) :=
  g ← gets s_group;
  let highest_ready_priority := rt_ffs g - 1 in
  l ← sq (q_list (QReady highest_ready_priority));
  match l with
  | t :: _ => mret (t, highest_ready_priority)
  | [] => ub
  end.

Fixpoint init_ready_lists (offset : nat) : M sched unit :=
  match offset with
  | O => mret tt
  | S n => init_ready_lists n ;; sq (q_init (QReady (Z.of_nat n)))
  end.

Definition rt_system_scheduler_init : M sched unit :=
  modify (set_s_lock_nest 0) ;;
  init_ready_lists (Z.to_nat RT_THREAD_PRIORITY_MAX) ;;
  modify (set_s_group 0) ;;
  sq (q_init QDefunct).

Definition rt_system_scheduler_start : M sched unit :=
  '(to_thread, _) ← get_highest_priority_thread;
  modify (set_s_current (Some to_thread)) ;;
  rt_schedule_remove_thread to_thread ;;
  upd_thread to_thread (set_th_stat RT_THREAD_RUNNING).

(** rt_schedule: the register save and restore of rt_hw_context_switch is the
    change of [s_current]. *)
Definition rt_schedule : M sched unit :=
  nest ← gets s_lock_nest;
  if bool_decide (nest = 0) then
    g ← gets s_group;
    if bool_decide (g <> 0) then
      '(to_thread, highest) ← get_highest_priority_thread;
      ocur ← gets s_current;
      cur ← liftO ocur;
      th ← rd_thread cur;
      '(to_thread, need_insert) ←
        (if bool_decide (stat_of th = RT_THREAD_RUNNING) then
           if bool_decide (th_current_priority th < highest) then mret (cur, false)
           else if bool_decide (th_current_priority th = highest) &&
                   bool_decide (Z.land (th_stat th) RT_THREAD_STAT_YIELD = 0)
           then mret (cur, false)
           else
             upd_thread cur (fun th => set_th_stat (Z.land (th_stat th) (Z.lnot RT_THREAD_STAT_YIELD)) th) ;;
             mret (to_thread, true)
         else mret (to_thread, false) : M sched (nat * bool));
      if bool_decide (to_thread <> cur) then
        modify (set_s_current_priority (u8 highest)) ;;
        modify (set_s_current (Some to_thread)) ;;
        (if (need_insert : bool) then rt_schedule_insert_thread cur else mret tt) ;;
        rt_schedule_remove_thread to_thread ;;
        upd_thread to_thread (with_stat RT_THREAD_RUNNING)
      else
        rt_schedule_remove_thread cur ;;
        upd_thread cur (with_stat RT_THREAD_RUNNING)
    else mret tt
  else mret tt.

Definition rt_enter_critical : M sched unit :=
  modify (fun s => set_s_lock_nest (s16 (s_lock_nest s + 1)) s).

Definition rt_exit_critical : M sched unit :=
  modify (fun s => set_s_lock_nest (s16 (s_lock_nest s - 1)) s) ;;
  nest ← gets s_lock_nest;
  if bool_decide (nest <= 0) then
    modify (set_s_lock_nest 0) ;;
    cur ← gets s_current;
    if bool_decide (cur <> None) then rt_schedule else mret tt
  else mret tt.

Definition rt_critical_level : M sched Z := gets (fun s => u16 (s_lock_nest s)).

(** ** The invariant *)

(** What the list a thread node is on says about the thread. *)
Definition tag_ok (h : qhead) (th : rt_thread) : Prop :=
  match h with
  | QReady p => stat_of th = RT_THREAD_READY /\ th_current_priority th = p
  | QDefunct => stat_of th = RT_THREAD_CLOSE
  | _ => stat_of th = RT_THREAD_SUSPEND
  end.

Definition prio_ok (th : rt_thread) : Prop :=
  0 <= th_current_priority th < 32 /\
  (th_number_mask th = 2 ^ th_current_priority th \/
   (stat_of th = RT_THREAD_INIT /\ th_number_mask th = 0)).

(** [x] is a thread taken off every list whose state tag is being changed. *)
Record sinv (x : option nat) (s : sched) : Prop := {
  si_wf : qwf (s_queues s);
  si_heads : forall p, is_Some (s_queues s !! QReady p) <-> 0 <= p < 32;
  si_defunct : is_Some (s_queues s !! QDefunct);
  si_group : 0 <= s_group s < 2 ^ 32;
  si_bits : forall p l, s_queues s !! QReady p = Some l -> Z.testbit (s_group s) p = bool_decide (l <> []);
  si_prio : forall t th, s_threads s !! t = Some th -> prio_ok th;
  si_ready : forall t th, Some t <> x -> s_threads s !! t = Some th -> stat_of th = RT_THREAD_READY ->
    exists l, s_queues s !! QReady (th_current_priority th) = Some l /\ t ∈ l;
  si_running : forall t th, Some t <> x -> s_threads s !! t = Some th -> stat_of th = RT_THREAD_RUNNING ->
    s_current s = Some t;
  si_nodes : forall h l t, s_queues s !! h = Some l -> t ∈ l ->
    Some t <> x /\ exists th, s_threads s !! t = Some th /\ tag_ok h th;
  si_cur : forall c, s_current s = Some c ->
    exists th, s_threads s !! c = Some th /\ (Some c <> x -> stat_of th <> RT_THREAD_READY);
}.

(** ** Helper lemmas *)

Lemma rd_thread_run s t th : s_threads s !! t = Some th -> rd_thread t s = Some (th, s).
Proof. intros E. unfold rd_thread. by rewrite E. Qed.
Lemma upd_thread_run s t th f :
  s_threads s !! t = Some th ->
  upd_thread t f s = Some (tt, set_s_threads (<[t := f th]> (s_threads s)) s).
Proof. intros E. unfold upd_thread. by rewrite E. Qed.
Lemma sq_run {A} (c : M _ A) s a q :
  c (s_queues s) = Some (a, q) -> sq c s = Some (a, set_s_queues q s).
Proof. intros E. unfold sq, zoom. by rewrite E. Qed.

Lemma set_queues_id s : set_s_queues (s_queues s) s = s.
Proof. by destruct s. Qed.

Lemma prio_ok_stat (tag : Z) th : prio_ok th -> stat_of th <> RT_THREAD_INIT -> prio_ok (with_stat tag th).
Proof. intros [Hp [Hm|[Hi _]]] Hs; [|done]. split; [done|by left]. Qed.

Lemma qrem_lookup (q : gmap qhead (list nat)) t h l :
  (list_del t <$> q) !! h = Some l <-> exists l0, q !! h = Some l0 /\ l = list_del t l0.
Proof. rewrite lookup_fmap, fmap_Some. naive_solver. Qed.

Lemma q_free_rem (q : gmap qhead (list nat)) t : q_free (list_del t <$> q) t.
Proof. intros h l (l0 & _ & ->)%qrem_lookup. rewrite elem_of_list_del. naive_solver. Qed.

Lemma q_free_mono (q : gmap qhead (list nat)) t u : q_free q u -> q_free (list_del t <$> q) u.
Proof. intros H h l (l0 & E & ->)%qrem_lookup. rewrite elem_of_list_del. pose proof (H h l0 E). naive_solver. Qed.

Lemma sinv_free_x x s : sinv (Some x) s -> q_free (s_queues s) x.
Proof. intros Hs h l E Hx. by destruct (si_nodes _ _ Hs h l x E Hx) as [? _]. Qed.

(** Changing the control block of the open thread. *)
Lemma sinv_set_thread t s th th' :
  sinv (Some t) s -> s_threads s !! t = Some th -> prio_ok th' ->
  sinv (Some t) (set_s_threads (<[t := th']> (s_threads s)) s).
Proof.
  intros Hs Et Hp. destruct Hs as [? ? ? ? ? Hprio Hrdy Hrun Hnd Hcur].
  split; cbn; try done; intros u ?.
  - rewrite lookup_insert. case_decide; naive_solver.
  - intros Hu. rewrite lookup_insert_ne by congruence. by apply Hrdy.
  - intros Hu. rewrite lookup_insert_ne by congruence. by apply Hrun.
  - intros v E Hv. destruct (Hnd u _ v E Hv) as [Hx Hth]. split; [done|].
    by rewrite lookup_insert_ne by congruence.
  - destruct (Hcur u) as (thc & Ec & Hc); [done|]. rewrite lookup_insert. case_decide as Hd.
    + subst u. exists th'. split; [done|]. intros Hc'. by destruct Hc'.
    + by exists thc.
Qed.

(** Taking a thread that is on no list into the open state. *)
Lemma sinv_open t s : sinv None s -> q_free (s_queues s) t -> sinv (Some t) s.
Proof.
  intros [] Hf. split; try done.
  - intros u th _ E. by apply si_ready0.
  - intros u th _ E. by apply si_running0.
  - intros h l u E Hu. split; [|by apply (si_nodes0 h l)]. intros [= ->]. by apply (Hf h l E).
  - intros c Hc. destruct (si_cur0 c Hc) as (th & ? & Hn). exists th. split; [done|]. intros _. by apply Hn.
Qed.

(** Ending the open state for a thread that is not ready. *)
Lemma sinv_close t s th :
  sinv (Some t) s -> s_threads s !! t = Some th -> stat_of th <> RT_THREAD_READY ->
  (stat_of th = RT_THREAD_RUNNING -> s_current s = Some t) -> sinv None s.
Proof.
  intros [] Et Hr Hrun. split; try done.
  - intros u thu _ E Hst. destruct (decide (u = t)) as [->|]; [congruence|].
    apply si_ready0; try done. congruence.
  - intros u thu _ E Hst. destruct (decide (u = t)) as [->|]; [rewrite E in Et; injection Et as ->; auto|].
    apply (si_running0 u thu); try done. congruence.
  - intros h l u E Hu. split; [done|]. by apply (si_nodes0 h l).
  - intros c Hc. destruct (si_cur0 c Hc) as (thc & Ec & Hn). exists thc. split; [done|]. intros _.
    destruct (decide (c = t)) as [->|]; [congruence|]. apply Hn. congruence.
Qed.

(** Putting the open thread on a waiting or defunct list. *)
Lemma sinv_enqueue x t s h l l' th :
  sinv x s -> Some t <> x -> s_queues s !! h = Some l -> q_free (s_queues s) t ->
  s_threads s !! t = Some th -> tag_ok h th -> (forall p, h <> QReady p) ->
  NoDup l' -> (forall u, u ∈ l' <-> u = t \/ u ∈ l) ->
  sinv x (set_s_queues (<[h := l']> (s_queues s)) s).
Proof.
  intros [] Hx Eh Hf Et Htag Hh Hnd He. split; cbn; try done.
  - by apply (qwf_insert _ h l l' t).
  - intros p. rewrite lookup_insert_ne by done. done.
  - rewrite lookup_insert. case_decide; [done|]. done.
  - intros p l0. rewrite lookup_insert_ne by done. apply si_bits0.
  - intros u thu Hu E Hst. rewrite lookup_insert_ne by done. by apply si_ready0.
  - intros h0 l0 u. rewrite lookup_insert. case_decide as Hd; [|apply si_nodes0].
    subst h0. intros [= <-] [->|Hu]%He; [by eauto|by apply (si_nodes0 h l)].
Qed.

Lemma q_remove_run s t : sq (q_remove t) s = Some (tt, set_s_queues (list_del t <$> s_queues s) s).
Proof. done. Qed.

(** The ready bitmap after a thread left the queues. *)
Lemma sinv_remove t s th g :
  sinv None s -> s_threads s !! t = Some th -> 0 <= g < 2 ^ 32 ->
  (forall p l, (list_del t <$> s_queues s) !! QReady p = Some l -> Z.testbit g p = bool_decide (l <> [])) ->
  sinv (Some t) (set_s_group g (set_s_queues (list_del t <$> s_queues s) s)).
Proof.
  intros [] Et Hg Hbits. split; cbn; try done.
  - by apply qwf_remove.
  - intros p. rewrite lookup_fmap, fmap_is_Some. done.
  - by rewrite lookup_fmap, fmap_is_Some.
  - intros u thu Hu E Hst. destruct (si_ready0 u thu) as (l & El & Hl); try done.
    exists (list_del t l). rewrite lookup_fmap, El. split; [done|]. apply elem_of_list_del.
    split; [done|congruence].
  - intros u thu Hu E Hst. by apply (si_running0 u thu).
  - intros h l u (l0 & E & ->)%qrem_lookup [Hu Hne]%elem_of_list_del. split; [congruence|].
    by apply (si_nodes0 h l0).
  - intros c Hc. destruct (si_cur0 c Hc) as (thc & Ec & Hn). exists thc. split; [done|]. intros _. by apply Hn.
Qed.

Lemma remove_thread_ok t s th :
  sinv None s -> s_threads s !! t = Some th ->
  exists g, rt_schedule_remove_thread t s =
      Some (tt, set_s_group g (set_s_queues (list_del t <$> s_queues s) s)) /\
    sinv (Some t) (set_s_group g (set_s_queues (list_del t <$> s_queues s) s)).
Proof.
  intros Hs Et. destruct (si_prio _ _ Hs t th Et) as [Hp Hm].
  destruct (proj2 (si_heads _ _ Hs (th_current_priority th)) Hp) as [l El].
  (* every other ready list keeps its bit *)
  assert (Hother : forall p l0, s_queues s !! QReady p = Some l0 -> p <> th_current_priority th -> t ∉ l0).
  { intros p l0 E Hne Ht. destruct (si_nodes _ _ Hs _ _ _ E Ht) as (_ & th' & E' & _ & Hq). congruence. }
  unfold rt_schedule_remove_thread. munfold. rewrite (rd_thread_run _ _ _ Et). rewrite q_remove_run.
  unfold sq, zoom, q_isempty. cbn [s_queues set_s_queues]. rewrite lookup_fmap, El. cbn [fmap option_fmap option_map].
  set (s1 := set_s_queues (list_del t <$> s_queues s) s).
  case_bool_decide as Hl.
  - exists (Z.land (s_group s) (Z.lnot (th_number_mask th))). split; [done|].
    apply (sinv_remove t s th); try done.
    + pose proof (si_group _ _ Hs). split; [apply Z.land_nonneg; lia|].
      eapply Z.le_lt_trans; [apply land_le_l; lia|lia].
    + intros p l0 (l1 & E1 & ->)%qrem_lookup.
      assert (0 <= p < 32) by (apply (si_heads _ _ Hs); eauto).
      rewrite Z.land_spec, Z.lnot_spec by lia. rewrite (si_bits _ _ Hs p l1 E1).
      destruct (decide (p = th_current_priority th)) as [->|Hne].
      * rewrite El in E1. injection E1 as <-. rewrite Hl, (bool_decide_false ([] <> [])) by (by intros []).
        apply andb_false_iff. destruct (decide (l = [])) as [->|Hne]; [by left; rewrite bool_decide_false by (by intros [])|].
        right. assert (Ht : t ∈ l).
        { destruct (decide (t ∈ l)); [done|]. by rewrite list_del_notin in Hl. }
        destruct Hm as [->|[Hi _]].
        -- rewrite testbit_pow2 by lia. by rewrite bool_decide_true.
        -- destruct (si_nodes _ _ Hs _ _ _ El Ht) as (_ & th' & E' & Hst & _). rewrite Et in E'. injection E' as <-.
           rewrite Hi in Hst. done.
      * rewrite list_del_notin by (by eapply Hother).
        destruct Hm as [->|[_ ->]]; [rewrite testbit_pow2 by lia; rewrite (bool_decide_false (_ = p)) by congruence|rewrite Z.bits_0];
          by rewrite andb_true_r.
  - exists (s_group s). replace (set_s_group _ s1) with s1 by (by destruct s). split; [done|].
    replace s1 with (set_s_group (s_group s) s1) by (by destruct s).
    apply (sinv_remove t s th); try done; [apply (si_group _ _ Hs)|].
    intros p l0 (l1 & E1 & ->)%qrem_lookup. rewrite (si_bits _ _ Hs p l1 E1).
    destruct (decide (p = th_current_priority th)) as [->|Hne].
    + rewrite El in E1. injection E1 as <-. apply bool_decide_ext. split; [done|]. intros _ ->. done.
    + by rewrite list_del_notin by (by eapply Hother).
Qed.

(** The state after [rt_schedule_insert_thread], [l] being the ready list of
    the thread's priority. *)
Definition inserted (t : nat) (th : rt_thread) (l : list nat) (s : sched) : sched :=
  if bool_decide (s_current s = Some t) then
    set_s_threads (<[t := with_stat RT_THREAD_RUNNING th]> (s_threads s)) s
  else
    set_s_group (Z.lor (s_group s) (th_number_mask th))
      (set_s_queues (<[QReady (th_current_priority th) := l ++ [t]]> (s_queues s))
        (set_s_threads (<[t := with_stat RT_THREAD_READY th]> (s_threads s)) s)).

Lemma sinv_make_ready t s th l :
  sinv (Some t) s -> s_threads s !! t = Some th -> stat_of th = RT_THREAD_READY ->
  s_current s <> Some t -> th_number_mask th = 2 ^ th_current_priority th ->
  s_queues s !! QReady (th_current_priority th) = Some l ->
  sinv None (set_s_group (Z.lor (s_group s) (th_number_mask th))
    (set_s_queues (<[QReady (th_current_priority th) := l ++ [t]]> (s_queues s)) s)).
Proof.
  intros Hs Et Hst Hc Hm El. pose proof (sinv_free_x _ _ Hs) as Hf.
  destruct (si_prio _ _ Hs t th Et) as [Hp _]. destruct Hs.
  assert (Htl : t ∉ l) by (by apply (Hf _ _ El)).
  split; cbn; try done.
  - apply (qwf_insert _ _ l _ t); try done; [|set_solver].
    apply NoDup_app. split_and!; [by eapply (proj1 si_wf0)|set_solver|apply NoDup_singleton].
  - intros p. rewrite lookup_insert. case_decide as Hd; [|apply si_heads0].
    injection Hd as <-. split; [done|eauto].
  - by rewrite lookup_insert_ne.
  - apply lor_range; [lia|done|]. rewrite Hm. split; [lia|]. apply Z.pow_lt_mono_r; lia.
  - intros p l0 E. rewrite Z.lor_spec, Hm.
    assert (0 <= p < 32).
    { rewrite lookup_insert in E. case_decide as Hd; [injection Hd as <-; done|]. apply si_heads0; eauto. }
    rewrite testbit_pow2 by lia. rewrite lookup_insert in E. case_decide as Hd.
    + injection Hd as <-. injection E as <-. rewrite (bool_decide_true (_ = _)) by done.
      rewrite orb_true_r, bool_decide_true; [done|]. by destruct l.
    + rewrite (si_bits0 p l0 E), (bool_decide_false (_ = p)) by congruence. by rewrite orb_false_r.
  - intros u thu _ E Hstu. destruct (decide (u = t)) as [->|Hne].
    + rewrite Et in E. injection E as <-. exists (l ++ [t]). rewrite lookup_insert_eq. set_solver.
    + destruct (si_ready0 u thu) as (lu & Elu & Hlu); [congruence|done..|].
      rewrite lookup_insert. case_decide as Hd; [|by exists lu].
      exists (l ++ [t]). split; [done|]. rewrite <- Hd, El in Elu. injection Elu as <-. set_solver.
  - intros u thu _ E Hstu. destruct (decide (u = t)) as [->|Hne].
    + rewrite Et in E. injection E as <-. rewrite Hst in Hstu. done.
    + apply (si_running0 u thu); [congruence|done..].
  - intros h l0 u. rewrite lookup_insert. case_decide as Hd.
    + subst h. intros [= <-] [Hu|Hu]%elem_of_app.
      * split; [done|]. by apply (si_nodes0 _ l).
      * apply list_elem_of_singleton in Hu as ->. split; [done|]. by exists th.
    + intros E Hu. split; [done|]. by apply (si_nodes0 h l0).
  - intros c E. destruct (si_cur0 c E) as (thc & Ec & Hn). exists thc. split; [done|]. intros _.
    apply Hn. congruence.
Qed.

Lemma insert_thread_ok t s th :
  sinv (Some t) s -> s_threads s !! t = Some th -> th_number_mask th = 2 ^ th_current_priority th ->
  exists l, s_queues s !! QReady (th_current_priority th) = Some l /\
    rt_schedule_insert_thread t s = Some (tt, inserted t th l s) /\ sinv None (inserted t th l s).
Proof.
  intros Hs Et Hm. destruct (si_prio _ _ Hs t th Et) as [Hp Hm'].
  destruct (proj2 (si_heads _ _ Hs (th_current_priority th)) Hp) as [l El]. exists l.
  split; [done|]. unfold rt_schedule_insert_thread, inserted. munfold.
  assert (Hok : forall tag, prio_ok (with_stat tag th)) by (intros tag; split; [done|by left]).
  case_bool_decide as Hc.
  - rewrite (upd_thread_run _ _ _ _ Et). split; [done|].
    apply (sinv_close t _ (with_stat RT_THREAD_RUNNING th)).
    + by apply (sinv_set_thread t s th).
    + apply lookup_insert_eq.
    + by rewrite stat_with_running.
    + done.
  - rewrite (upd_thread_run _ _ _ _ Et).
    set (s1 := set_s_threads (<[t := with_stat RT_THREAD_READY th]> (s_threads s)) s).
    assert (E1 : s_threads s1 !! t = Some (with_stat RT_THREAD_READY th)) by apply lookup_insert_eq.
    rewrite (rd_thread_run _ _ _ E1).
    assert (Hs1 : sinv (Some t) s1) by (by apply (sinv_set_thread t s th)).
    rewrite (sq_run _ s1 tt (<[QReady (th_current_priority th) := l ++ [t]]> (s_queues s))); cycle 1.
    { unfold q_insert_before, q_update. cbn [s_queues set_s_threads s1 th_current_priority with_stat set_th_stat].
      rewrite El, decide_True by (by apply sinv_free_x). done. }
    split; [done|].
    apply (sinv_make_ready t s1 (with_stat RT_THREAD_READY th) l); try done. apply stat_with_ready.
Qed.

(** The thread picked by the bitmap is the head of the lowest non-empty list. *)
Lemma highest_ok s :
  sinv None s -> s_group s <> 0 ->
  exists t l p th, get_highest_priority_thread s = Some ((t, p), s) /\
    s_queues s !! QReady p = Some (t :: l) /\ 0 <= p < 32 /\
    s_threads s !! t = Some th /\ stat_of th = RT_THREAD_READY /\ th_current_priority th = p /\
    forall u thu, s_threads s !! u = Some thu -> stat_of thu = RT_THREAD_READY -> p <= th_current_priority thu.
Proof.
  intros Hs Hg. pose proof (si_group _ _ Hs) as Hr.
  destruct (rt_ffs_lowest (s_group s) ltac:(lia)) as (P0 & P1 & P2). set (p := rt_ffs (s_group s) - 1) in *.
  assert (Hp : p < 32).
  { destruct (decide (p < 32)); [done|]. rewrite Z.bits_above_log2 in P1; [done|lia|].
    apply Z.log2_lt_pow2; [lia|]. apply Z.lt_le_trans with (2 ^ 32); [lia|]. apply Z.pow_le_mono_r; lia. }
  destruct (proj2 (si_heads _ _ Hs p) ltac:(lia)) as [l El].
  rewrite (si_bits _ _ Hs p l El) in P1. apply bool_decide_eq_true in P1.
  destruct l as [|t l]; [done|].
  destruct (si_nodes _ _ Hs _ _ t El ltac:(set_solver)) as (_ & th & Et & Hst & Hpr).
  exists t, l, p, th. split_and!; try done.
  - unfold get_highest_priority_thread. munfold. fold p.
    rewrite (sq_run _ _ (t :: l) (s_queues s)) by (unfold q_list; by rewrite El). by rewrite set_queues_id.
  - intros u thu Eu Hstu. destruct (si_ready _ _ Hs u thu) as (lu & Elu & Hu); [done..|].
    destruct (decide (p <= th_current_priority thu)); [done|]. exfalso.
    destruct (si_prio _ _ Hs u thu Eu) as [Hpu _].
    specialize (P2 (th_current_priority thu) ltac:(lia)).
    rewrite (si_bits _ _ Hs _ _ Elu) in P2. apply bool_decide_eq_false in P2. apply P2.
    intros ->. by apply not_elem_of_nil in Hu.
Qed.

(** ** The context switch *)

(** A state in which nobody runs may forget its current thread. *)
Lemma sinv_no_current x s :
  sinv x s -> (forall t th, Some t <> x -> s_threads s !! t = Some th -> stat_of th <> RT_THREAD_RUNNING) ->
  sinv x (set_s_current None s).
Proof. intros [] Hn. split; cbn; try done. intros t th Hx E Hr. by destruct (Hn t th Hx E). Qed.

(** The open thread becomes the current one. *)
Lemma sinv_set_current t s th :
  sinv (Some t) s -> s_current s = None -> s_threads s !! t = Some th ->
  sinv (Some t) (set_s_current (Some t) s).
Proof.
  intros [] Hc Et. split; cbn; try done.
  - intros u thu Hu E Hr. pose proof (si_running0 u thu Hu E Hr). congruence.
  - intros c [= <-]. exists th. split; [done|]. by intros [].
Qed.

Lemma sinv_current_priority x p s : sinv x s -> sinv x (set_s_current_priority p s).
Proof. by intros []. Qed.
Lemma sinv_lock_nest x n s : sinv x s -> sinv x (set_s_lock_nest n s).
Proof. by intros []. Qed.

(** remove_thread does not look at the current thread. *)
Lemma remove_set_current t c s s' :
  rt_schedule_remove_thread t s = Some (tt, s') ->
  rt_schedule_remove_thread t (set_s_current c s) = Some (tt, set_s_current c s').
Proof.
  destruct s as [ths q g cur cp n].
  unfold rt_schedule_remove_thread, rd_thread, q_remove, q_isempty, sq. munfold. cbn.
  destruct (ths !! t) as [th|]; [|done]. cbn.
  destruct ((list_del t <$> q) !! QReady (th_current_priority th)); [|done]. cbn.
  case_bool_decide; intros [= <-]; done.
Qed.

Lemma running_free s t th :
  sinv None s -> s_threads s !! t = Some th -> stat_of th = RT_THREAD_RUNNING -> q_free (s_queues s) t.
Proof.
  intros Hs Et Hr h l E Ht. destruct (si_nodes _ _ Hs _ _ _ E Ht) as (_ & th' & E' & Htag).
  rewrite Et in E'. injection E' as <-. destruct h; cbn in Htag; rewrite Hr in Htag; naive_solver.
Qed.

(** The end of rt_schedule: the chosen ready thread leaves its list and runs. *)
Lemma switch_ok s t th p :
  sinv None s -> s_current s = None -> s_threads s !! t = Some th -> stat_of th = RT_THREAD_READY ->
  exists g, let s1 := set_s_group g (set_s_queues (list_del t <$> s_queues s) s) in
    let s2 := set_s_threads (<[t := with_stat RT_THREAD_RUNNING th]> (s_threads s))
                (set_s_current (Some t) (set_s_current_priority p s1)) in
    (rt_schedule_remove_thread t ;; upd_thread t (with_stat RT_THREAD_RUNNING))
      (set_s_current (Some t) (set_s_current_priority p s)) = Some (tt, s2) /\ sinv None s2.
Proof.
  intros Hs Hc Et Hst.
  destruct (remove_thread_ok t (set_s_current_priority p s) th) as (g & E & Hs1);
    [by apply sinv_current_priority|done|].
  exists g. cbn. set (s1 := set_s_group _ _) in *.
  rewrite (bind_run _ _ _ _ _ (remove_set_current t (Some t) _ _ E)).
  rewrite (upd_thread_run _ _ th) by done. split; [done|].
  pose proof (sinv_set_current t s1 th Hs1 Hc Et) as Hs2.
  destruct (si_prio _ _ Hs t th Et) as [Hp Hm].
  assert (Hok : prio_ok (with_stat RT_THREAD_RUNNING th)).
  { apply prio_ok_stat; [by split|]. by rewrite Hst. }
  pose proof (sinv_set_thread t _ th _ Hs2 Et Hok) as Hs3.
  apply (sinv_close t _ (with_stat RT_THREAD_RUNNING th) Hs3).
  - apply lookup_insert_eq.
  - by rewrite stat_with_running.
  - done.
Qed.

(** What a call of the scheduler may change of a thread: nothing but the state
    word, and there only RUNNING against READY. *)
Definition active (th : rt_thread) : Prop := stat_of th = RT_THREAD_READY \/ stat_of th = RT_THREAD_RUNNING.
Definition th_sched (a b : rt_thread) : Prop :=
  set_th_stat 0 a = set_th_stat 0 b /\ (stat_of a = stat_of b \/ active a /\ active b).
Record sched_frame (s s' : sched) : Prop := {
  sf_lock : s_lock_nest s' = s_lock_nest s;
  sf_queues : forall h, (forall p, h <> QReady p) -> s_queues s' !! h = s_queues s !! h;
  sf_threads : forall t, option_Forall2 th_sched (s_threads s !! t) (s_threads s' !! t);
}.

#[global] Instance th_sched_refl : Reflexive th_sched.
Proof. intros a. by split; [|left]. Qed.
#[global] Instance th_sched_trans : Transitive th_sched.
Proof.
  intros a b d [E1 H1] [E2 H2]. split; [congruence|]. unfold active in *.
  destruct H1 as [H1|[? ?]], H2 as [H2|[? ?]]; rewrite ?H1, <- ?H2; try (by left); right; naive_solver congruence.
Qed.
#[global] Instance sched_frame_refl : Reflexive sched_frame.
Proof. intros s. split; [done..|]. intros t. by destruct (s_threads s !! t); constructor. Qed.
#[global] Instance sched_frame_trans : Transitive sched_frame.
Proof.
  intros s1 s2 s3 [L1 Q1 T1] [L2 Q2 T2]. split; [congruence| |].
  - intros h Hh. rewrite Q2, Q1; done.
  - intros t. specialize (T1 t). specialize (T2 t). inversion T1; inversion T2; try congruence; constructor.
    etrans; [eassumption|]. replace y with x0 by congruence. done.
Qed.

Lemma frame_thread s t th th' :
  s_threads s !! t = Some th -> th_sched th th' ->
  sched_frame s (set_s_threads (<[t := th']> (s_threads s)) s).
Proof.
  intros Et Hth. split; [done..|]. intros u. cbn. rewrite lookup_insert. case_decide as Hd.
  - subst u. rewrite Et. by constructor.
  - by destruct (s_threads s !! u); constructor.
Qed.

Lemma frame_ready s t g :
  (forall h l, (forall p, h <> QReady p) -> s_queues s !! h = Some l -> t ∉ l) ->
  sched_frame s (set_s_group g (set_s_queues (list_del t <$> s_queues s) s)).
Proof.
  intros Hr. split; [done| |].
  - intros h Hh. cbn. rewrite lookup_fmap. destruct (s_queues s !! h) eqn:E; [|done].
    cbn. by rewrite list_del_notin by (by eapply Hr).
  - intros u. by destruct (s_threads s !! u) eqn:E; cbn; rewrite E; constructor.
Qed.

Lemma active_not_waiting s t th h l :
  sinv None s -> s_threads s !! t = Some th -> active th -> (forall p, h <> QReady p) ->
  s_queues s !! h = Some l -> t ∉ l.
Proof.
  intros Hs Et Ha Hh E Ht. destruct (si_nodes _ _ Hs _ _ _ E Ht) as (_ & th' & E' & Htag).
  rewrite Et in E'. injection E' as <-. unfold active in Ha.
  destruct h; cbn in Htag; try (rewrite Htag in Ha; destruct Ha; done). by destruct (Hh prio).
Qed.

(** ** The scheduling decision *)

(** The current thread keeps the processor against a ready thread of priority [p]. *)
Definition keeps_cpu (th : rt_thread) (p : Z) : bool :=
  bool_decide (stat_of th = RT_THREAD_RUNNING) &&
  (bool_decide (th_current_priority th < p) ||
   bool_decide (th_current_priority th = p) && bool_decide (Z.land (th_stat th) RT_THREAD_STAT_YIELD = 0)).

(** No ready thread has a higher priority (a smaller number) than [th]. *)
Definition dominates (s : sched) (th : rt_thread) : Prop :=
  forall u thu, s_threads s !! u = Some thu -> stat_of thu = RT_THREAD_READY ->
    th_current_priority th <= th_current_priority thu.

Definition schedule_post (s s' : sched) : Prop :=
  sinv None s' /\ sched_frame s s' /\ (exists c', s_current s' = Some c') /\
  (s_lock_nest s <> 0 -> s' = s) /\
  (s_lock_nest s = 0 -> s_group s = 0 -> s' = s) /\
  (s_lock_nest s = 0 -> s_group s <> 0 ->
   exists c thc t l p, s_current s = Some c /\ s_threads s !! c = Some thc /\
     s_queues s !! QReady p = Some (t :: l) /\ (forall p', p' < p -> s_queues s !! QReady p' ∈ [None; Some []]) /\
     s_current s' = Some (if keeps_cpu thc p then c else t)) /\
  (s_lock_nest s = 0 ->
   (s_group s <> 0 \/ exists c thc, s_current s = Some c /\ s_threads s !! c = Some thc /\ stat_of thc = RT_THREAD_RUNNING) ->
   exists c' th', s_current s' = Some c' /\ s_threads s' !! c' = Some th' /\
     stat_of th' = RT_THREAD_RUNNING /\ dominates s' th').

Definition clear_yield (th : rt_thread) : rt_thread :=
  set_th_stat (Z.land (th_stat th) (Z.lnot RT_THREAD_STAT_YIELD)) th.

Lemma stat_clear_yield th : stat_of (clear_yield th) = stat_of th.
Proof. unfold stat_of, clear_yield. cbn. by rewrite <- Z.land_assoc. Qed.

Lemma th_sched_with_stat th tag :
  active th -> tag = RT_THREAD_READY \/ tag = RT_THREAD_RUNNING -> th_sched th (with_stat tag th).
Proof.
  intros Ha Ht. split; [done|]. right. split; [done|]. unfold active.
  destruct Ht as [->| ->]; autorewrite with rt; auto.
Qed.

Lemma th_sched_clear_yield th : th_sched th (clear_yield th).
Proof. split; [done|]. left. by rewrite stat_clear_yield. Qed.

Lemma insert_set_current t c p s s' :
  s_current s <> Some t -> c <> Some t -> rt_schedule_insert_thread t s = Some (tt, s') ->
  rt_schedule_insert_thread t (set_s_current c (set_s_current_priority p s)) =
    Some (tt, set_s_current c (set_s_current_priority p s')).
Proof.
  intros Hc Hc'. destruct s as [ths q g cur cp n].
  unfold rt_schedule_insert_thread, upd_thread, rd_thread, sq, q_insert_before, q_update. munfold. cbn in *.
  rewrite !bool_decide_false by done. cbn. destruct (ths !! t) as [th|]; [|done]. cbn.
  destruct (<[t:=with_stat RT_THREAD_READY th]> ths !! t) as [th'|]; [|done]. cbn.
  destruct (q !! QReady (th_current_priority th')); [|done]. cbn.
  destruct (decide (q_free q t)); [|done]. cbn. intros [= <-]. done.
Qed.

(** The current thread keeps running: the list removal is a no-op. *)
Lemma keep_ok s c thc :
  sinv None s -> s_current s = Some c -> s_threads s !! c = Some thc -> stat_of thc = RT_THREAD_RUNNING ->
  exists s', (rt_schedule_remove_thread c ;; upd_thread c (with_stat RT_THREAD_RUNNING)) s = Some (tt, s') /\
    sinv None s' /\ sched_frame s s' /\ s_current s' = Some c /\
    s_threads s' = <[c := with_stat RT_THREAD_RUNNING thc]> (s_threads s).
Proof.
  intros Hs Hc Et Hr. destruct (remove_thread_ok c s thc Hs Et) as (g & E & Hs1).
  rewrite (bind_run _ _ _ _ _ E). set (s1 := set_s_group _ _) in *.
  rewrite (upd_thread_run _ _ thc) by done. eexists. split; [done|]. split_and!; try done.
  - assert (Hok : prio_ok (with_stat RT_THREAD_RUNNING thc)).
    { apply prio_ok_stat; [by apply (si_prio _ _ Hs c)|by rewrite Hr]. }
    apply (sinv_close c _ (with_stat RT_THREAD_RUNNING thc)); [by apply (sinv_set_thread c s1 thc)|apply lookup_insert_eq|by rewrite stat_with_running|done].
  - transitivity s1.
    + apply frame_ready. intros h l Hh El. apply (active_not_waiting s c thc h l); try done; by right.
    + apply (frame_thread s1 c thc); [done|]. by apply th_sched_with_stat; right.
Qed.

(** The running thread goes back to its ready list. *)
Lemma preempt_ok s c thc t p :
  sinv None s -> s_current s = Some c -> s_threads s !! c = Some thc -> stat_of thc = RT_THREAD_RUNNING ->
  t <> c ->
  let thy := with_stat RT_THREAD_READY (clear_yield thc) in
  exists s1, (upd_thread c clear_yield ;; modify (set_s_current_priority p) ;;
      modify (set_s_current (Some t)) ;; rt_schedule_insert_thread c) s
      = Some (tt, set_s_current (Some t) (set_s_current_priority p s1)) /\
    sinv None s1 /\ s_current s1 = None /\ sched_frame s s1 /\
    s_threads s1 = <[c := thy]> (s_threads s) /\
    exists l, s_queues s !! QReady (th_current_priority thc) = Some l /\
      s_queues s1 = <[QReady (th_current_priority thc) := l ++ [c]]> (s_queues s).
Proof.
  intros Hs Hc Et Hr Htc thy.
  set (sa := set_s_threads (<[c := clear_yield thc]> (s_threads s)) s).
  set (sb := set_s_current None sa).
  assert (Hm : th_number_mask thc = 2 ^ th_current_priority thc).
  { destruct (si_prio _ _ Hs c thc Et) as [_ [?|[Hi _]]]; [done|]. by rewrite Hi in Hr. }
  assert (Hsa : sinv (Some c) sa).
  { apply (sinv_set_thread c s thc); [|done|].
    - apply sinv_open; [done|]. by eapply running_free.
    - split; [apply (si_prio _ _ Hs c thc Et)|by left]. }
  assert (Hsb : sinv (Some c) sb).
  { apply sinv_no_current; [done|]. intros u thu Hu Eu Hru.
    pose proof (si_running _ _ Hsa u thu Hu Eu Hru) as Hcu. cbn in Hcu. congruence. }
  assert (Eb : s_threads sb !! c = Some (clear_yield thc)) by apply lookup_insert_eq.
  destruct (insert_thread_ok c sb (clear_yield thc) Hsb Eb Hm) as (l & El & Ei & Hi).
  unfold inserted in Ei, Hi. rewrite bool_decide_false in Ei, Hi by done.
  eexists. (* the state after the insertion *)
  rewrite (bind_run _ _ _ _ _ (upd_thread_run s c thc _ Et)).
  split.
  { transitivity (rt_schedule_insert_thread c (set_s_current (Some t) (set_s_current_priority p sb))); [done|].
    apply insert_set_current; [done|congruence|exact Ei]. }
  split_and!; try done.
  - split; [done| |].
    + intros h Hh. cbn. rewrite lookup_insert_ne; [done|]. intros <-. by destruct (Hh (th_current_priority thc)).
    + cbn. rewrite insert_insert_eq. apply (frame_thread s c thc); [done|].
      transitivity (clear_yield thc); [apply th_sched_clear_yield|].
      apply th_sched_with_stat; [right; by rewrite stat_clear_yield|by left].
  - cbn. by rewrite insert_insert_eq.
  - by exists l.
Qed.

(** rt_schedule with the choice of its branch resolved. *)
Lemma schedule_branches s c thc t p :
  s_lock_nest s = 0 -> s_group s <> 0 -> get_highest_priority_thread s = Some ((t, p), s) ->
  s_current s = Some c -> s_threads s !! c = Some thc -> t <> c ->
  rt_schedule s =
    if keeps_cpu thc p then (rt_schedule_remove_thread c ;; upd_thread c (with_stat RT_THREAD_RUNNING)) s
    else if bool_decide (stat_of thc = RT_THREAD_RUNNING) then
      ((upd_thread c clear_yield ;; modify (set_s_current_priority (u8 p)) ;;
        modify (set_s_current (Some t)) ;; rt_schedule_insert_thread c) ;;
       rt_schedule_remove_thread t ;; upd_thread t (with_stat RT_THREAD_RUNNING)) s
    else (rt_schedule_remove_thread t ;; upd_thread t (with_stat RT_THREAD_RUNNING))
           (set_s_current (Some t) (set_s_current_priority (u8 p) s)).
Proof.
  intros Hn Hg Hh Hc Et Htc. unfold rt_schedule, keeps_cpu. munfold.
  rewrite bool_decide_true, (bool_decide_true (_ <> 0)) by done. rewrite Hh, Hc.
  rewrite (rd_thread_run _ _ _ Et).
  repeat case_bool_decide; try done; try lia; cbn [andb orb];
    rewrite ?(upd_thread_run _ _ _ _ Et); cbn;
    rewrite ?(bool_decide_false (c <> c)) by (by intros []); rewrite ?(bool_decide_true (t <> c)) by done; done.
Qed.

Lemma ready_not_current s c thc t th :
  sinv None s -> s_current s = Some c -> s_threads s !! c = Some thc -> s_threads s !! t = Some th ->
  stat_of th = RT_THREAD_READY -> t <> c.
Proof.
  intros Hs Hc Ec Et Hr ->. destruct (si_cur _ _ Hs c Hc) as (th' & E' & Hn).
  rewrite Et in Ec, E'. simplify_eq. by apply Hn.
Qed.

Lemma no_ready s u thu :
  sinv None s -> s_group s = 0 -> s_threads s !! u = Some thu -> stat_of thu <> RT_THREAD_READY.
Proof.
  intros Hs Hg Eu Hr. destruct (si_ready _ _ Hs u thu) as (l & El & Hu); [done..|].
  pose proof (si_bits _ _ Hs _ _ El) as Hb. rewrite Hg, Z.bits_0 in Hb. symmetry in Hb.
  apply bool_decide_eq_false in Hb. apply Hb. intros ->. by apply not_elem_of_nil in Hu.
Qed.

(** Nothing ready: rt_schedule returns at once. *)
Lemma schedule_idle s c :
  sinv None s -> s_current s = Some c -> s_lock_nest s <> 0 \/ s_group s = 0 ->
  rt_schedule s = Some (tt, s) /\ schedule_post s s.
Proof.
  intros Hs Hc Hi. split.
  - unfold rt_schedule. munfold. case_bool_decide; [|done]. by rewrite bool_decide_false by naive_solver.
  - split_and!; try done; [by eauto|naive_solver|].
    intros Hn [Hg|(c' & thc & Hc' & Ec & Hr)]; [naive_solver|].
    exists c', thc. split_and!; try done. intros u thu Eu Hru. by destruct (no_ready s u thu); try naive_solver.
Qed.

(** The ready thread [t] of priority [p] takes over from a state where nobody runs. *)
Lemma switch_post s t th p q :
  sinv None s -> s_current s = None -> s_threads s !! t = Some th -> stat_of th = RT_THREAD_READY ->
  th_current_priority th = p -> dominates s th ->
  exists s', (rt_schedule_remove_thread t ;; upd_thread t (with_stat RT_THREAD_RUNNING))
      (set_s_current (Some t) (set_s_current_priority q s)) = Some (tt, s') /\
    sinv None s' /\ sched_frame s s' /\ s_current s' = Some t /\
    s_threads s' !! t = Some (with_stat RT_THREAD_RUNNING th) /\
    dominates s' (with_stat RT_THREAD_RUNNING th).
Proof.
  intros Hs Hc Et Hr Hp Hd. destruct (switch_ok s t th q Hs Hc Et Hr) as (g & E & Hs').
  eexists. split; [exact E|]. split; [done|]. split_and!; try done.
  - transitivity (set_s_group g (set_s_queues (list_del t <$> s_queues s) s)).
    + apply frame_ready. intros h l Hh El. apply (active_not_waiting s t th h l); try done; by left.
    + destruct (frame_thread s t th (with_stat RT_THREAD_RUNNING th) Et) as [_ _ Hf].
      { by apply th_sched_with_stat; [left|right]. }
      split; [done..|exact Hf].
  - apply lookup_insert_eq.
  - intros u thu. cbn. rewrite lookup_insert. case_decide; [|apply Hd].
    intros [= <-]. by rewrite stat_with_running.
Qed.

(** Assembling the postcondition from the branch taken. *)
Lemma schedule_post_intro s s' c thc t l p th' :
  sinv None s -> s_lock_nest s = 0 -> s_group s <> 0 -> s_current s = Some c -> s_threads s !! c = Some thc ->
  s_queues s !! QReady p = Some (t :: l) ->
  (forall u thu, s_threads s !! u = Some thu -> stat_of thu = RT_THREAD_READY -> p <= th_current_priority thu) ->
  sinv None s' -> sched_frame s s' ->
  s_current s' = Some (if keeps_cpu thc p then c else t) ->
  s_threads s' !! (if keeps_cpu thc p then c else t) = Some th' ->
  stat_of th' = RT_THREAD_RUNNING -> dominates s' th' -> schedule_post s s'.
Proof.
  intros Hs Hn Hg Hc Ec Eq Hmin Hs' Hf Hc' Ec' Hr Hd.
  split; [done|]. split; [done|]. split; [by eauto|]. split; [by intros ?|]. split; [by intros ? ?|].
  split; [|intros _ _; by eexists _, th'].
  intros _ _. exists c, thc, t, l, p. split_and!; try done.
  intros p' Hp'. destruct (s_queues s !! QReady p') as [[|u l']|] eqn:E'; [set_solver..| |set_solver].
  exfalso. destruct (si_nodes _ _ Hs _ _ u E' ltac:(set_solver)) as (_ & thu & Eu & Hru & Hpu).
  specialize (Hmin u thu Eu Hru). lia.
Qed.

Lemma schedule_ok s c :
  sinv None s -> s_current s = Some c ->
  exists s', rt_schedule s = Some (tt, s') /\ schedule_post s s'.
Proof.
  intros Hs Hc. destruct (decide (s_lock_nest s <> 0 \/ s_group s = 0)) as [Hi|Hi].
  { exists s. by apply (schedule_idle s c). }
  assert (Hn : s_lock_nest s = 0) by (destruct (decide (s_lock_nest s = 0)); tauto).
  assert (Hg : s_group s <> 0) by tauto.
  destruct (highest_ok s Hs Hg) as (t & l & p & th & Eh & Eq & Hp & Et & Hr & Hpr & Hmin).
  destruct (si_cur _ _ Hs c Hc) as (thc & Ec & _).
  assert (Htc : t <> c) by (by eapply ready_not_current).
  pose proof (schedule_branches s c thc t p Hn Hg Eh Hc Ec Htc) as E.
  pose proof (fun s' th' => schedule_post_intro s s' c thc t l p th' Hs Hn Hg Hc Ec Eq Hmin) as Hpost.
  destruct (keeps_cpu thc p) eqn:Hk.
  - apply andb_prop in Hk as [Hrun Hk%orb_prop]. apply bool_decide_eq_true in Hrun.
    destruct (keep_ok s c thc Hs Hc Ec Hrun) as (s' & E' & Hs' & Hf & Hc' & Eths).
    exists s'. rewrite E, E'. split; [done|].
    apply (Hpost s' (with_stat RT_THREAD_RUNNING thc)); try done.
    + rewrite Eths. apply lookup_insert_eq.
    + by rewrite stat_with_running.
    + intros u thu. rewrite Eths, lookup_insert. destruct (decide (c = u)).
      * intros Eu. simplify_eq. by rewrite stat_with_running.
      * intros Eu Hu. specialize (Hmin u thu Eu Hu). cbn.
        destruct Hk as [Hk%bool_decide_eq_true|[Hk%bool_decide_eq_true _]%andb_prop]; lia.
  - case_bool_decide as Hrun.
    + destruct (preempt_ok s c thc t (u8 p) Hs Hc Ec Hrun Htc) as (s1 & E1 & Hs1 & Hc1 & Hf1 & Eths & _).
      assert (Et1 : s_threads s1 !! t = Some th) by (by rewrite Eths, lookup_insert_ne).
      destruct (switch_post s1 t th p (u8 p) Hs1 Hc1 Et1 Hr Hpr) as (s' & E' & Hs' & Hf & Hc' & Eths' & Hd).
      { intros u thu. rewrite Eths, lookup_insert. destruct (decide (c = u)); [|rewrite Hpr; apply Hmin].
        intros Eu _. injection Eu as <-. cbn. unfold keeps_cpu in Hk. rewrite (bool_decide_true (stat_of _ = _)) in Hk by done.
        destruct (decide (th_current_priority thc < p)); [|lia]. by rewrite bool_decide_true in Hk. }
      exists s'. rewrite E, (bind_run _ _ _ _ _ E1). split; [done|].
      apply (Hpost s' (with_stat RT_THREAD_RUNNING th)); try done; [by transitivity s1|by rewrite stat_with_running].
    + assert (Hs0 : sinv None (set_s_current None s)).
      { apply sinv_no_current; [done|]. intros u thu _ Eu Hu.
        pose proof (si_running _ _ Hs u thu ltac:(done) Eu Hu). congruence. }
      destruct (switch_post (set_s_current None s) t th p (u8 p) Hs0 eq_refl Et Hr Hpr)
        as (s' & E' & Hs' & Hf & Hc' & Eths' & Hd); [intros u thu; rewrite Hpr; apply Hmin|].
      exists s'. rewrite E. split; [exact E'|].
      apply (Hpost s' (with_stat RT_THREAD_RUNNING th)); try done; [by destruct Hf|by rewrite stat_with_running].
Qed.

(** ** Boot and critical sections *)

Lemma init_ready_lists_ok n s :
  s_queues s = ∅ ->
  exists q, init_ready_lists n s = Some (tt, set_s_queues q s) /\
    forall h, q !! h = match h with
                       | QReady p => if decide (0 <= p < Z.of_nat n) then Some [] else None
                       | _ => None
                       end.
Proof.
  intros He. induction n as [|n (q & E & Hq)]; cbn [init_ready_lists].
  - exists (s_queues s). rewrite set_queues_id. split; [done|]. rewrite He.
    intros []; try done. by rewrite decide_False by lia.
  - exists (<[QReady (Z.of_nat n) := []]> q). rewrite (bind_run _ _ _ _ _ E). split.
    { unfold sq, zoom, q_init. cbn. rewrite Hq, decide_False by lia. done. }
    intros h. rewrite lookup_insert. case_decide as Hd; [subst h; by rewrite decide_True by lia|].
    rewrite Hq. destruct h; try done. repeat case_decide; try done; try lia.
    destruct Hd. f_equal. lia.
Qed.

(** scheduler_init on the zeroed globals of a booting kernel. *)
Definition boot_sched : sched := Sched ∅ ∅ 0 None 0 0.

Lemma scheduler_init_ok :
  exists s, rt_system_scheduler_init boot_sched = Some (tt, s) /\ sinv None s /\
    s_threads s = ∅ /\ s_current s = None /\ s_lock_nest s = 0.
Proof.
  unfold rt_system_scheduler_init. munfold.
  destruct (init_ready_lists_ok (Z.to_nat RT_THREAD_PRIORITY_MAX) (set_s_lock_nest 0 boot_sched) eq_refl) as (q & E & Hq).
  rewrite E. clear E. unfold sq, zoom, q_init. cbn. rewrite Hq. eexists. split; [done|]. split; [|done].
  assert (He : forall h l, <[QDefunct := []]> q !! h = Some l -> l = []).
  { intros h l. rewrite lookup_insert. case_decide; [by intros [= <-]|]. rewrite Hq.
    destruct h; try done. case_decide; [by intros [= <-]|done]. }
  split; cbn; try done.
  - split; [intros h l El; by rewrite (He h l El); apply NoDup_nil_2|].
    intros h1 h2 l1 l2 n E1 E2 Hn. rewrite (He _ _ E1) in Hn. by apply not_elem_of_nil in Hn.
  - intros p. rewrite lookup_insert_ne, Hq by done. case_decide; naive_solver.
  - by rewrite lookup_insert_eq.
  - intros p l El. rewrite Z.bits_0, (He _ _ El). by rewrite bool_decide_false by (by intros []).
  - intros h l t El Ht. rewrite (He _ _ El) in Ht. by apply not_elem_of_nil in Ht.
Qed.

Lemma scheduler_start_ok s :
  sinv None s -> s_current s = None -> s_group s <> 0 ->
  exists t th s', rt_system_scheduler_start s = Some (tt, s') /\ sinv None s' /\
    s_current s' = Some t /\ s_threads s' !! t = Some th /\ stat_of th = RT_THREAD_RUNNING /\ dominates s' th.
Proof.
  intros Hs Hc Hg. destruct (highest_ok s Hs Hg) as (t & l & p & th & Eh & Eq & Hp & Et & Hr & Hpr & Hmin).
  destruct (remove_thread_ok t s th Hs Et) as (g & E & Hs1). set (s1 := set_s_group _ _) in *.
  set (th' := set_th_stat RT_THREAD_RUNNING th).
  exists t, th', (set_s_threads (<[t := th']> (s_threads s)) (set_s_current (Some t) s1)).
  pose proof (sinv_set_current t s1 th Hs1 Hc Et) as Hs2.
  assert (Hok : prio_ok th').
  { destruct (si_prio _ _ Hs t th Et) as [? [?|[Hi _]]]; [split; [done|by left]|by rewrite Hi in Hr]. }
  split_and!; try done.
  - unfold rt_system_scheduler_start. rewrite (bind_run _ _ _ _ _ Eh). munfold.
    rewrite (remove_set_current t (Some t) _ _ E). by rewrite (upd_thread_run _ _ th).
  - by apply (sinv_close t _ th' (sinv_set_thread t _ th _ Hs2 Et Hok)); [apply lookup_insert_eq|..].
  - apply lookup_insert_eq.
  - intros u thu. cbn. rewrite lookup_insert. destruct (decide (t = u)).
    + intros Eu. injection Eu as <-. done.
    + rewrite Hpr. apply Hmin.
Qed.

(** A critical section entered and left: the lock nests, and leaving the outermost
    section reschedules. *)
Lemma exit_critical_ok s :
  sinv None s -> 1 <= s_lock_nest s < 2 ^ 15 ->
  exists s', rt_exit_critical s = Some (tt, s') /\ sinv None s' /\
    s_lock_nest s' = s_lock_nest s - 1 /\
    sched_frame (set_s_lock_nest (s_lock_nest s - 1) s) s' /\
    (s_current s = None -> s' = set_s_lock_nest (s_lock_nest s - 1) s) /\
    (is_Some (s_current s) -> is_Some (s_current s')).
Proof.
  intros Hs Hn. unfold rt_exit_critical. munfold. cbn [s_lock_nest set_s_lock_nest].
  rewrite (swrap_id 16) by lia. set (s1 := set_s_lock_nest (s_lock_nest s - 1) s).
  assert (Hs1 : sinv None s1) by (by apply sinv_lock_nest).
  case_bool_decide as Hz.
  - assert (Hz0 : s_lock_nest s - 1 = 0) by lia. cbn [s_current set_s_lock_nest s1].
    replace (set_s_lock_nest 0 s1) with s1 by (unfold s1; by rewrite Hz0).
    case_bool_decide as Hc.
    + destruct (s_current s) as [c|] eqn:Ec; [|done].
      destruct (schedule_ok s1 c Hs1 Ec) as (s' & E & Hp). exists s'. rewrite E.
      destruct Hp as (Hs' & Hf & Hc' & _). split_and!; try done. by rewrite (sf_lock _ _ Hf).
    + exists s1. split_and!; try done.
  - exists s1. split_and!; done.
Qed.

Lemma enter_critical_run s :
  0 <= s_lock_nest s < 2 ^ 15 - 1 ->
  rt_enter_critical s = Some (tt, set_s_lock_nest (s_lock_nest s + 1) s).
Proof. intros Hn. unfold rt_enter_critical. munfold. by rewrite (swrap_id 16) by lia. Qed.

Lemma frame_trans_lock n s s' :
  sched_frame (set_s_lock_nest n s) s' -> n = s_lock_nest s -> sched_frame s s'.
Proof. intros [] ->. by split. Qed.

(** The list walks of object.c are bracketed by a critical section. *)
Lemma critical_ok s :
  sinv None s -> 0 <= s_lock_nest s < 2 ^ 15 - 1 ->
  exists s1 s', rt_enter_critical s = Some (tt, s1) /\ rt_exit_critical s1 = Some (tt, s') /\
    sinv None s' /\ sched_frame s s' /\ (is_Some (s_current s) -> is_Some (s_current s')) /\
    (s_current s = None -> s' = s).
Proof.
  intros Hs Hn. set (s1 := set_s_lock_nest (s_lock_nest s + 1) s).
  destruct (exit_critical_ok s1) as (s' & E & Hs' & Hn' & Hf & Hnone & Hsome); [by apply sinv_lock_nest|cbn; lia|].
  exists s1, s'. split_and!; try done; [by apply enter_critical_run| |].
  - cbn in Hf. apply (frame_trans_lock (s_lock_nest s + 1 - 1)); [done|lia].
  - intros Hc. rewrite Hnone by done. cbn. replace (s_lock_nest s + 1 - 1) with (s_lock_nest s) by lia. by destruct s.
Qed.

(** Fields of a control block the scheduler does not depend on. *)
Definition th_same (a b : rt_thread) : Prop :=
  stat_of b = stat_of a /\ th_current_priority b = th_current_priority a /\ th_number_mask b = th_number_mask a.

Lemma tag_ok_same h a b : th_same a b -> tag_ok h a -> tag_ok h b.
Proof. intros (E1 & E2 & _) H. destruct h; cbn in *; rewrite ?E1, ?E2; done. Qed.

Lemma sinv_touch x s t th th' :
  sinv x s -> s_threads s !! t = Some th -> th_same th th' ->
  sinv x (set_s_threads (<[t := th']> (s_threads s)) s).
Proof.
  intros [] Et Hsame. pose proof Hsame as (E1 & E2 & E3). split; cbn; try done.
  - intros u thu. rewrite lookup_insert. case_decide; [|apply si_prio0]. subst u. intros [= <-].
    destruct (si_prio0 t th Et) as [? ?]. unfold prio_ok. rewrite E1, E2, E3. done.
  - intros u thu Hu. rewrite lookup_insert. case_decide; [|by apply si_ready0]. subst u. intros [= <-].
    rewrite E1, E2. by apply si_ready0.
  - intros u thu Hu. rewrite lookup_insert. case_decide; [|by apply si_running0]. subst u. intros [= <-].
    rewrite E1. by apply (si_running0 t th).
  - intros h l u E Hin. destruct (si_nodes0 h l u E Hin) as (Hu & thu & Eu & Htag). split; [done|].
    rewrite lookup_insert. case_decide; [|by exists thu]. subst u. exists th'. split; [done|].
    rewrite Et in Eu. injection Eu as <-. by apply (tag_ok_same h th).
  - intros c Hc. destruct (si_cur0 c Hc) as (thc & Ec & Hn). rewrite lookup_insert. case_decide; [|by exists thc].
    subst c. exists th'. split; [done|]. rewrite E1. rewrite Et in Ec. injection Ec as <-. done.
Qed.

(** A thread that is not ready may change its priority in place. *)
Lemma sinv_set_prio s t th th' :
  sinv None s -> s_threads s !! t = Some th -> stat_of th <> RT_THREAD_READY ->
  stat_of th' = stat_of th -> prio_ok th' ->
  sinv None (set_s_threads (<[t := th']> (s_threads s)) s).
Proof.
  intros [] Et Hst Hs Hp. split; cbn; try done.
  - intros u thu. rewrite lookup_insert. case_decide; [|apply si_prio0]. by intros [= <-].
  - intros u thu Hu. rewrite lookup_insert. case_decide; [|by apply si_ready0]. intros [= <-]. by rewrite Hs.
  - intros u thu Hu. rewrite lookup_insert. case_decide; [|by apply si_running0]. subst u. intros [= <-].
    rewrite Hs. by apply (si_running0 t th).
  - intros h l u E Hin. destruct (si_nodes0 h l u E Hin) as (Hu & thu & Eu & Htag). split; [done|].
    rewrite lookup_insert. case_decide; [|by exists thu]. subst u. exists th'. split; [done|].
    rewrite Et in Eu. injection Eu as <-. destruct h; cbn in *; rewrite ?Hs; try done. by destruct Htag.
  - intros c Hc. destruct (si_cur0 c Hc) as (thc & Ec & Hn). rewrite lookup_insert. case_decide; [|by exists thc].
    exists th'. split; [done|]. intros _. by rewrite Hs.
Qed.

(** ** Properties *)

(** C2: rt_schedule implements priority preemption.  Unless the scheduler is locked
    or nobody is ready, it terminates with a running thread that no ready thread
    outranks; the old current thread keeps the processor exactly when it is still
    running and either outranks the first thread of the highest ready list or ties
    with it and has not used up its time slice.  All invariants of the ready lists
    and the bitmap survive, and no waiting list, no lock and no field of a thread
    other than its state is touched. *)
Theorem schedule_runs_highest s c thc :
  sinv None s -> s_current s = Some c -> s_threads s !! c = Some thc -> s_lock_nest s = 0 -> s_group s <> 0 ->
  exists t l p s' c' th', s_queues s !! QReady p = Some (t :: l) /\ (forall p', p' < p -> s_queues s !! QReady p' ∈ [None; Some []]) /\
    rt_schedule s = Some (tt, s') /\ sinv None s' /\ sched_frame s s' /\
    c' = (if keeps_cpu thc p then c else t) /\ s_current s' = Some c' /\ s_threads s' !! c' = Some th' /\
    stat_of th' = RT_THREAD_RUNNING /\ dominates s' th'.
Proof.
  intros Hs Hc Et Hn Hg. destruct (schedule_ok s c Hs Hc) as (s' & E & Hs' & Hf & _ & _ & _ & Hsw & Hrun).
  destruct (Hsw Hn Hg) as (c0 & thc0 & t & l & p & Hc0 & Et0 & El & Hlow & Hc'). rewrite Hc in Hc0. injection Hc0 as <-.
  rewrite Et in Et0. injection Et0 as <-. destruct (Hrun Hn (or_introl Hg)) as (c' & th' & Hc2 & Et2 & Hr & Hd).
  exists t, l, p, s', c', th'. split_and!; try done. rewrite Hc' in Hc2. by injection Hc2 as <-.
Qed.

(** Round robin.  When the running thread has used up its time slice (the YIELD
    bit is set) and the highest ready list is the one of its own priority, rt_schedule
    gives the processor to the first thread of that list and puts the old one at its
    end. *)
Theorem schedule_round_robin s c thc t l :
  sinv None s -> s_current s = Some c -> s_threads s !! c = Some thc -> stat_of thc = RT_THREAD_RUNNING ->
  Z.land (th_stat thc) RT_THREAD_STAT_YIELD <> 0 -> s_lock_nest s = 0 ->
  s_queues s !! QReady (th_current_priority thc) = Some (t :: l) ->
  (forall p, p < th_current_priority thc -> s_queues s !! QReady p ∈ [None; Some []]) ->
  exists s', rt_schedule s = Some (tt, s') /\ sinv None s' /\ s_current s' = Some t /\
    s_queues s' !! QReady (th_current_priority thc) = Some (l ++ [c]) /\
    (forall p, p <> th_current_priority thc -> s_queues s' !! QReady p = s_queues s !! QReady p).
Proof.
  intros Hs Hc Et Hr Hy Hn El Hlow. set (p := th_current_priority thc) in *.
  assert (Hg : s_group s <> 0).
  { intros Hg. pose proof (si_bits _ _ Hs p _ El) as Hb. rewrite Hg, Z.bits_0, bool_decide_true in Hb by done. done. }
  destruct (highest_ok s Hs Hg) as (t0 & l0 & p0 & th & Eh & Eq & Hp & Et0 & Hrt & Hpr & Hmin).
  destruct (si_nodes _ _ Hs _ _ t El ltac:(set_solver)) as (_ & tht & Ett & Hrtt & Hpt).
  assert (p0 = p) as ->.
  { specialize (Hmin t tht Ett Hrtt). destruct (decide (p0 = p)) as [|Hne]; [done|].
    specialize (Hlow p0 ltac:(lia)). rewrite Eq in Hlow. set_solver. }
  rewrite El in Eq. injection Eq as <- <-. rewrite Ett in Et0. injection Et0 as <-.
  assert (Htc : t <> c) by (by eapply ready_not_current).
  rewrite (schedule_branches s c thc t p) by done.
  assert (Hk : keeps_cpu thc p = false).
  { unfold keeps_cpu. fold p. rewrite (bool_decide_false (p < p)) by lia. rewrite (bool_decide_false (_ = 0)) by done.
    by rewrite !andb_false_r. }
  rewrite Hk, bool_decide_true by done.
  destruct (preempt_ok s c thc t (u8 p) Hs Hc Et Hr Htc) as (s1 & E1 & Hs1 & Hc1 & _ & Eths & l1 & El1 & Eq1).
  fold p in El1, Eq1. rewrite El in El1. injection El1 as <-.
  assert (Et1 : s_threads s1 !! t = Some tht) by (by rewrite Eths, lookup_insert_ne).
  destruct (switch_ok s1 t tht (u8 p) Hs1 Hc1 Et1 Hrtt) as (g & E & Hs'). cbn zeta in *.
  eexists. split; [rewrite (bind_run _ _ _ _ _ E1); exact E|]. split; [done|]. split; [done|].
  cbn [s_queues set_s_threads set_s_current set_s_current_priority set_s_group set_s_queues].
  pose proof (si_wf _ _ Hs1) as [Hnd Hdis].
  assert (Elp : s_queues s1 !! QReady p = Some ((t :: l) ++ [c])) by (rewrite Eq1; apply lookup_insert_eq).
  split.
  - rewrite lookup_fmap, Elp. change (Some (list_del t (t :: l ++ [c])) = Some (l ++ [c])).
    rewrite list_del_head; [done|]. by apply (Hnd _ _ Elp).
  - intros p' Hne. rewrite lookup_fmap, Eq1, lookup_insert_ne by congruence.
    destruct (s_queues s !! QReady p') as [l'|] eqn:E'; [|done]. change (Some (list_del t l') = Some l').
    rewrite list_del_notin; [done|]. intros Hin. apply Hne.
    assert (Heq : QReady p' = QReady p) by (apply (proj2 (si_wf _ _ Hs) _ _ _ _ t E' El Hin); set_solver). by injection Heq.
Qed.

(** Leaving a critical section entered by rt_enter_critical keeps the invariants
    and the lock depth, and the walks of the object lists it protects never switch
    threads before the section is left: inside it rt_schedule is a no-op. *)
Theorem critical_section_protects s c :
  sinv None s -> 0 <= s_lock_nest s < 2 ^ 15 - 1 -> s_current s = Some c ->
  exists s1 s', rt_enter_critical s = Some (tt, s1) /\ rt_schedule s1 = Some (tt, s1) /\
    rt_exit_critical s1 = Some (tt, s') /\ sinv None s' /\ s_lock_nest s' = s_lock_nest s /\ sched_frame s s'.
Proof.
  intros Hs Hn Hc. destruct (critical_ok s Hs Hn) as (s1 & s' & E1 & E2 & Hs' & Hf & _ & _).
  exists s1, s'. rewrite (enter_critical_run s Hn) in E1. injection E1 as <-.
  split_and!; try done; [by apply enter_critical_run| |by apply (sf_lock _ _ Hf)].
  apply (schedule_idle _ c); [by apply sinv_lock_nest|done|left; cbn; lia].
Qed.
