(* ===== verification/Timer.v ===== *)
(** * The timer lists (rt-thread/src/timer.c)

    The operations of timer.c that only touch timers and the two timer lists;
    rt_timer_start's wake-up of the timer thread and rt_timer_check, which call
    back into thread.c, are in Thread.  Skip-list level 1, as configured.

    [tinv] is the well-formedness of the lists; [tsorted base] says that each
    list [h] is in order of expiry seen from the tick [base h], ticks being
    compared modulo 2^32. *)
From S2P Require Import Prelude RtList Kernel.
From stdpp Require Import base gmap sets list sorting.
From Stdlib Require Import ZArith Lia.
#[local] Open Scope Z_scope.

(** ** Operations *)

Definition rd_timer (n : timer_id) : M timers rt_timer := fun s =>
  match t_timers s !! n with Some tm => Some (tm, s) | None => None end.
Definition upd_timer (n : timer_id) (f : rt_timer -> rt_timer) : M timers unit := fun s =>
  match t_timers s !! n with
  | Some tm => Some (tt, set_t_timers (<[n := f tm]> (t_timers s)) s)
  | None => None
  end.
Definition tq {A} (c : M (gmap tlhead (list timer_id)) A) : M timers A := zoom t_lists set_t_lists c.

Definition timer_set_flag (f : Z) (tm : rt_timer) : rt_timer := set_tm_flag (Z.lor (tm_flag tm) f) tm.
Definition timer_clear_flag (f : Z) (tm : rt_timer) : rt_timer :=
  set_tm_flag (Z.land (tm_flag tm) (Z.lnot f)) tm.

(** _rt_timer_init gives the timer at address [n] all of its fields. *)
Definition rt_timer_setup (n : timer_id) (func : timeout_func) (time flag : Z) : M timers unit :=
  modify (fun s => set_t_timers
    (<[n := RtTimer func time 0 (Z.land flag (Z.lnot RT_TIMER_FLAG_ACTIVATED))]> (t_timers s)) s) ;;
  tq (q_node_init n).

Definition rt_timer_list_next_timeout (h : tlhead) : M timers Z :=
  l ← tq (q_list h);
  match l with
  | [] => mret RT_TICK_MAX
  | n :: _ => tm ← rd_timer n; mret (tm_timeout_tick tm)
  end.

Definition rt_timer_remove (n : timer_id) : M timers unit := tq (q_remove n).

Definition rt_tick_get : M timers Z := gets t_tick.

(** The list a timer with this flag goes to. *)
Definition timer_list_of (flag : Z) : tlhead :=
  if bool_decide (Z.land flag RT_TIMER_FLAG_SOFT_TIMER = 0) then TLHard else TLSoft.

(** The walk of rt_timer_start: [n], which expires at [v], goes behind the timers
    that expire no later. *)
Fixpoint timer_insert (m : gmap timer_id rt_timer) (v : Z) (n : timer_id) (l : list timer_id)
    : option (list timer_id) :=
  match l with
  | [] => Some [n]
  | t :: l' =>
    match m !! t with
    | None => None
    | Some tm =>
      let d := u32 (tm_timeout_tick tm - v) in
      if bool_decide (d = 0) then (t ::.) <$> timer_insert m v n l'
      else if bool_decide (d < RT_TICK_MAX / 2) then Some (n :: t :: l')
      else (t ::.) <$> timer_insert m v n l'
    end
  end.

Definition timer_link (h : tlhead) (n : timer_id) (v : Z) : M timers unit := fun s =>
  match t_lists s !! h with
  | None => None
  | Some l =>
    if decide (q_free (t_lists s) n) then
      match timer_insert (t_timers s) v n l with
      | Some l' => Some (tt, set_t_lists (<[h := l']> (t_lists s)) s)
      | None => None
      end
    else None
  end.

(** rt_timer_start up to the point where the timer is armed. *)
Definition rt_timer_arm (n : timer_id) : M timers unit :=
  rt_timer_remove n ;;
  upd_timer n (timer_clear_flag RT_TIMER_FLAG_ACTIVATED) ;;
  now ← rt_tick_get;
  upd_timer n (fun tm => set_tm_timeout_tick (u32 (now + tm_init_tick tm)) tm) ;;
  tm ← rd_timer n;
  modify (fun s => set_t_random (u32 (t_random s + 1)) s) ;;
  timer_link (timer_list_of (tm_flag tm)) n (tm_timeout_tick tm) ;;
  upd_timer n (timer_set_flag RT_TIMER_FLAG_ACTIVATED).

Definition rt_timer_stop (n : timer_id) : M timers Z :=
  tm ← rd_timer n;
  if bool_decide (Z.land (tm_flag tm) RT_TIMER_FLAG_ACTIVATED = 0) then mret (- RT_ERROR)
  else
    rt_timer_remove n ;;
    upd_timer n (timer_clear_flag RT_TIMER_FLAG_ACTIVATED) ;;
    mret RT_EOK.

(** The result is the error code and, for GET_TIME, the value stored through [arg]. *)
Definition rt_timer_control (n : timer_id) (cmd : timer_cmd) : M timers (Z * option Z) :=
  match cmd with
  | RT_TIMER_CTRL_GET_TIME => tm ← rd_timer n; mret (RT_EOK, Some (tm_init_tick tm))
  | RT_TIMER_CTRL_SET_TIME time => upd_timer n (set_tm_init_tick time) ;; mret (RT_EOK, None)
  | RT_TIMER_CTRL_SET_ONESHOT =>
      upd_timer n (timer_clear_flag RT_TIMER_FLAG_PERIODIC) ;; mret (RT_EOK, None)
  | RT_TIMER_CTRL_SET_PERIODIC =>
      upd_timer n (timer_set_flag RT_TIMER_FLAG_PERIODIC) ;; mret (RT_EOK, None)
  end.

Definition rt_timer_next_timeout_tick : M timers Z := rt_timer_list_next_timeout TLHard.

Definition rt_system_timer_init : M timers unit := tq (q_init TLHard).

(** Whether the timer is due: [(current_tick - timeout_tick) < RT_TICK_MAX / 2]. *)
Definition timer_due (current_tick : Z) (tm : rt_timer) : bool :=
  bool_decide (u32 (current_tick - tm_timeout_tick tm) < RT_TICK_MAX / 2).

(** ** Invariants *)

Definition activated (tm : rt_timer) : Prop := Z.testbit (tm_flag tm) 0 = true.

Record tinv (s : timers) : Prop := {
  ti_wf : qwf (t_lists s);
  ti_heads : forall h, is_Some (t_lists s !! h);
  ti_tick : 0 <= t_tick s < 2 ^ 32;
  ti_nodes : forall h l n, t_lists s !! h = Some l -> n ∈ l ->
    exists tm, t_timers s !! n = Some tm /\ activated tm /\ timer_list_of (tm_flag tm) = h;
  ti_range : forall n tm, t_timers s !! n = Some tm ->
    0 <= tm_timeout_tick tm < 2 ^ 32 /\ 0 <= tm_init_tick tm < 2 ^ 32 /\ 0 <= tm_flag tm;
}.

(** Ticks from [base] until [n] expires. *)
Definition off (base : Z) (m : gmap timer_id rt_timer) (n : timer_id) : Z :=
  match m !! n with Some tm => u32 (tm_timeout_tick tm - base) | None => 0 end.

(** RT_TICK_MAX / 2 *)
Definition HALF : Z := 2147483647.
Lemma HALF_eq : RT_TICK_MAX / 2 = HALF.
Proof. reflexivity. Qed.

Definition list_sorted (base : Z) (m : gmap timer_id rt_timer) (l : list timer_id) : Prop :=
  StronglySorted (fun a b => off base m a <= off base m b) l /\
  Forall (fun a => off base m a < HALF) l.

Definition tsorted (base : tlhead -> Z) (s : timers) : Prop :=
  forall h l, t_lists s !! h = Some l -> list_sorted (base h) (t_timers s) l.

(** ** Lemmas *)

Lemma rd_timer_run s n tm : t_timers s !! n = Some tm -> rd_timer n s = Some (tm, s).
Proof. intros E. unfold rd_timer. by rewrite E. Qed.
Lemma upd_timer_run s n tm f :
  t_timers s !! n = Some tm -> upd_timer n f s = Some (tt, set_t_timers (<[n := f tm]> (t_timers s)) s).
Proof. intros E. unfold upd_timer. by rewrite E. Qed.

Lemma activated_set tm : activated (timer_set_flag RT_TIMER_FLAG_ACTIVATED tm).
Proof. unfold activated, timer_set_flag. cbn [tm_flag set_tm_flag]. rewrite Z.lor_spec. apply orb_true_r. Qed.
Lemma not_activated_clear tm : ~ activated (timer_clear_flag RT_TIMER_FLAG_ACTIVATED tm).
Proof. unfold activated, timer_clear_flag. cbn [tm_flag set_tm_flag]. rewrite Z.land_spec. by rewrite andb_false_r. Qed.
Lemma activated_land tm : Z.land (tm_flag tm) RT_TIMER_FLAG_ACTIVATED = 0 <-> ~ activated tm.
Proof.
  unfold activated, RT_TIMER_FLAG_ACTIVATED. change 1 with (Z.ones 1). rewrite Z.land_ones by lia.
  change (2 ^ 1) with 2. rewrite Z.bit0_odd, Zmod_odd. by destruct (Z.odd _).
Qed.
Lemma list_of_flag_testbit f : timer_list_of f = if Z.testbit f 2 then TLSoft else TLHard.
Proof.
  unfold timer_list_of, RT_TIMER_FLAG_SOFT_TIMER.
  destruct (Z.testbit f 2) eqn:E.
  - rewrite bool_decide_false; [done|]. intros H0.
    assert (Z.testbit (Z.land f 4) 2 = false) by (by rewrite H0). rewrite Z.land_spec, E in H. done.
  - rewrite bool_decide_true; [done|]. apply Z.bits_inj'. intros i Hi. rewrite Z.land_spec, Z.bits_0.
    change 4 with (2 ^ 2). rewrite testbit_pow2 by lia. case_bool_decide; [subst; by rewrite E|by rewrite andb_false_r].
Qed.
Lemma list_of_set_activated tm :
  timer_list_of (tm_flag (timer_set_flag RT_TIMER_FLAG_ACTIVATED tm)) = timer_list_of (tm_flag tm).
Proof. rewrite !list_of_flag_testbit. cbn [tm_flag timer_set_flag set_tm_flag]. rewrite Z.lor_spec. by rewrite orb_false_r. Qed.
Lemma list_of_clear_activated tm :
  timer_list_of (tm_flag (timer_clear_flag RT_TIMER_FLAG_ACTIVATED tm)) = timer_list_of (tm_flag tm).
Proof. rewrite !list_of_flag_testbit. cbn [tm_flag timer_clear_flag set_tm_flag]. rewrite Z.land_spec. by rewrite andb_true_r. Qed.

(** The walk finds a place. *)
Lemma timer_insert_split m v n l :
  (forall t, t ∈ l -> is_Some (m !! t)) ->
  exists l1 l2, l = l1 ++ l2 /\ timer_insert m v n l = Some (l1 ++ n :: l2).
Proof.
  induction l as [|t l IH]; intros Hm; [by exists [], []|].
  destruct (Hm t ltac:(set_solver)) as [tm Et]. cbn. rewrite Et.
  destruct IH as (l1 & l2 & -> & E); [set_solver|]. rewrite E.
  case_bool_decide; [by exists (t :: l1), l2|]. case_bool_decide; [|by exists (t :: l1), l2].
  by exists [], (t :: l1 ++ l2).
Qed.

(** Two timers less than half the tick range after [base] compare like their offsets. *)
Lemma tick_compare base a b :
  u32 (a - base) < HALF -> u32 (b - base) < HALF ->
  (u32 (a - b) = 0 <-> u32 (a - base) = u32 (b - base)) /\
  (u32 (a - b) < HALF <-> u32 (b - base) <= u32 (a - base)).
Proof.
  unfold HALF, wrap. change (2 ^ 32) with 4294967296.
  intros Ha Hb. replace (a - b) with ((a - base) - (b - base)) by lia. rewrite Zminus_mod.
  pose proof (Z.mod_pos_bound (a - base) 4294967296 ltac:(lia)).
  pose proof (Z.mod_pos_bound (b - base) 4294967296 ltac:(lia)).
  set (x := (a - base) mod _) in *. set (y := (b - base) mod _) in *.
  destruct (decide (y <= x)).
  - rewrite Z.mod_small by lia. lia.
  - rewrite <- (Z.mod_add (x - y) 1) by lia. rewrite Z.mod_small by lia. lia.
Qed.

(** In a sorted list the place is behind the timers that expire no later. *)
Lemma timer_insert_sorted base m v n l :
  list_sorted base m l -> (forall t, t ∈ l -> is_Some (m !! t)) -> u32 (v - base) < HALF ->
  exists l1 l2, l = l1 ++ l2 /\ timer_insert m v n l = Some (l1 ++ n :: l2) /\
    Forall (fun a => off base m a <= u32 (v - base)) l1 /\
    Forall (fun a => u32 (v - base) < off base m a) l2.
Proof.
  intros [Hs Hh] Hm Hv. induction l as [|t l IH]; [by exists [], []|].
  destruct (Hm t ltac:(set_solver)) as [tm Et]. cbn. rewrite Et.
  apply StronglySorted_inv in Hs as [Hs Hall]. apply Forall_cons in Hh as [Ht Hh].
  destruct IH as (l1 & l2 & -> & E & H1 & H2); [done..|set_solver|]. rewrite E.
  assert (Eo : off base m t = u32 (tm_timeout_tick tm - base)) by (unfold off; by rewrite Et).
  rewrite Eo in Ht. destruct (tick_compare base _ _ Ht Hv) as [C0 C1]. rewrite HALF_eq.
  case_bool_decide as D0; [|case_bool_decide as D1].
  - exists (t :: l1), l2. split_and!; try done. apply Forall_cons. split; [|done]. rewrite Eo. lia.
  - exists [], (t :: l1 ++ l2). split_and!; try done. apply Forall_cons. rewrite Eo. split; [lia|].
    eapply Forall_impl; [exact Hall|]. intros a Ha. cbn in Ha. lia.
  - exists (t :: l1), l2. split_and!; try done. apply Forall_cons. split; [|done]. rewrite Eo. lia.
Qed.

Lemma off_insert_ne base m n tm a : a <> n -> off base (<[n := tm]> m) a = off base m a.
Proof. intros Hn. unfold off. by rewrite lookup_insert_ne. Qed.
Lemma off_insert_eq base m n tm : off base (<[n := tm]> m) n = u32 (tm_timeout_tick tm - base).
Proof. unfold off. by rewrite lookup_insert_eq. Qed.

Lemma list_sorted_ext base m m' l :
  (forall a, a ∈ l -> off base m' a = off base m a) -> list_sorted base m l -> list_sorted base m' l.
Proof.
  intros He [Hs Hh]. split.
  - induction Hs as [|a l Hs IH Hall]; constructor.
    + apply IH; [set_solver|]. by apply Forall_cons in Hh as [_ ?].
    + apply Forall_forall. intros b Hb. rewrite !He by set_solver. rewrite Forall_forall in Hall. by apply Hall.
  - apply Forall_forall. intros a Ha. rewrite He by done. rewrite Forall_forall in Hh. by apply Hh.
Qed.

Lemma list_sorted_insert base m n l1 l2 :
  list_sorted base m (l1 ++ l2) -> off base m n < HALF ->
  Forall (fun a => off base m a <= off base m n) l1 -> Forall (fun a => off base m n < off base m a) l2 ->
  list_sorted base m (l1 ++ n :: l2).
Proof.
  intros [Hs Hh] Hn H1 H2. split.
  - induction l1 as [|a l1 IH]; cbn in *.
    + constructor; [done|]. eapply Forall_impl; [exact H2|]. cbn. lia.
    + apply StronglySorted_inv in Hs as [Hs Hall]. apply Forall_cons in H1 as [Ha H1], Hh as [Hha Hh].
      constructor; [by apply IH|]. rewrite Forall_app in *. rewrite Forall_cons. tauto.
  - rewrite Forall_app in *. rewrite Forall_cons. tauto.
Qed.

Lemma list_sorted_del base m n l : list_sorted base m l -> list_sorted base m (list_del n l).
Proof.
  intros [Hs Hh]. assert (Hsub : forall a, a ∈ list_del n l -> a ∈ l).
  { intros a. rewrite elem_of_list_del. naive_solver. }
  split.
  - clear Hh Hsub. induction Hs as [|a l Hs IH Hall]; [constructor|]. unfold list_del in *. rewrite filter_cons.
    case_decide; [|done]. constructor; [done|]. apply Forall_forall. intros b [_ Hb]%list_elem_of_filter.
    rewrite Forall_forall in Hall. by apply Hall.
  - apply Forall_forall. intros a Ha. rewrite Forall_forall in Hh. by apply Hh, Hsub.
Qed.

(** ** Effect of the operations on the lists *)

Definition tremoved (n : timer_id) (s : timers) : timers := set_t_lists (list_del n <$> t_lists s) s.

Lemma tremove_run n s : rt_timer_remove n s = Some (tt, tremoved n s).
Proof. done. Qed.

Lemma tremoved_lookup n s h l :
  t_lists (tremoved n s) !! h = Some l <-> exists l0, t_lists s !! h = Some l0 /\ l = list_del n l0.
Proof. cbn. rewrite lookup_fmap, fmap_Some. naive_solver. Qed.

Lemma tremoved_free n s : q_free (t_lists (tremoved n s)) n.
Proof. intros h l (l0 & _ & ->)%tremoved_lookup. rewrite elem_of_list_del. naive_solver. Qed.

Lemma tinv_removed n s : tinv s -> tinv (tremoved n s).
Proof.
  intros []. split; try done.
  - by apply qwf_remove.
  - intros h. cbn. by rewrite lookup_fmap, fmap_is_Some.
  - intros h l a (l0 & E & ->)%tremoved_lookup [Ha _]%elem_of_list_del. by apply (ti_nodes0 h l0).
Qed.

Lemma tsorted_removed base n s : tsorted base s -> tsorted base (tremoved n s).
Proof. intros Hs h l (l0 & E & ->)%tremoved_lookup. apply list_sorted_del, (Hs h l0 E). Qed.

Definition tm_range (tm : rt_timer) : Prop :=
  0 <= tm_timeout_tick tm < 2 ^ 32 /\ 0 <= tm_init_tick tm < 2 ^ 32 /\ 0 <= tm_flag tm.

(** A timer that is on no list may change. *)
Lemma tinv_set_timer n s tm :
  tinv s -> q_free (t_lists s) n -> tm_range tm -> tinv (set_t_timers (<[n := tm]> (t_timers s)) s).
Proof.
  intros [] Hf Hr. split; cbn; try done.
  - intros h l a E Ha. rewrite lookup_insert_ne; [by apply (ti_nodes0 h l)|]. intros <-. by apply (Hf h l E).
  - intros a tma. rewrite lookup_insert. case_decide; [intros [= <-]; exact Hr|apply ti_range0].
Qed.

(** So may the fields of a listed one that the lists do not depend on. *)
Lemma tinv_update n s tm tm' :
  tinv s -> t_timers s !! n = Some tm -> tm_range tm' ->
  (activated tm -> activated tm') -> timer_list_of (tm_flag tm') = timer_list_of (tm_flag tm) ->
  tinv (set_t_timers (<[n := tm']> (t_timers s)) s).
Proof.
  intros [] En Hr Ha Hl. split; cbn; try done.
  - intros h l a E Hin. destruct (ti_nodes0 h l a E Hin) as (tma & Ea & Hact & Hla).
    rewrite lookup_insert. case_decide; [|by exists tma]. subst a. rewrite En in Ea. injection Ea as <-.
    exists tm'. split; [done|]. split; [by apply Ha|congruence].
  - intros a tma. rewrite lookup_insert. case_decide; [intros [= <-]; exact Hr|apply ti_range0].
Qed.

Lemma tsorted_set_timer base n s tm :
  tsorted base s -> q_free (t_lists s) n -> tsorted base (set_t_timers (<[n := tm]> (t_timers s)) s).
Proof.
  intros Hs Hf h l E. apply (list_sorted_ext (base h) (t_timers s)); [|by apply (Hs h)].
  intros a Ha. apply off_insert_ne. intros ->. by apply (Hf h l E).
Qed.

Lemma tsorted_update base n s tm tm' :
  tsorted base s -> t_timers s !! n = Some tm -> tm_timeout_tick tm' = tm_timeout_tick tm ->
  tsorted base (set_t_timers (<[n := tm']> (t_timers s)) s).
Proof.
  intros Hs En Ht h l E. apply (list_sorted_ext (base h) (t_timers s)); [|by apply (Hs h)].
  intros a Ha. destruct (decide (a = n)) as [->|]; [|by apply off_insert_ne].
  cbn [t_timers set_t_timers]. rewrite off_insert_eq. unfold off. by rewrite En, Ht.
Qed.

(** Linking an unlisted timer into its list. *)
Lemma tinv_link h l l1 l2 n s tm :
  tinv s -> t_lists s !! h = Some l -> l = l1 ++ l2 -> q_free (t_lists s) n ->
  t_timers s !! n = Some tm -> activated tm -> timer_list_of (tm_flag tm) = h ->
  tinv (set_t_lists (<[h := l1 ++ n :: l2]> (t_lists s)) s).
Proof.
  intros [] El -> Hf En Ha Hl. split; cbn; try done.
  - apply (qwf_insert _ h (l1 ++ l2) _ n); try done; [|set_solver].
    assert (Hn : n ∉ l1 ++ l2) by (by apply (Hf h)).
    rewrite <- Permutation_middle. constructor; [done|]. by apply (proj1 ti_wf0 h).
  - intros h'. rewrite lookup_insert. by case_decide.
  - intros h' l' a. rewrite lookup_insert. case_decide as Hd; [|apply ti_nodes0].
    subst h'. intros [= <-] Hin. assert (Hin' : a = n \/ a ∈ l1 ++ l2) by set_solver.
    destruct Hin' as [->|Hin']; [by exists tm|by apply (ti_nodes0 h (l1 ++ l2))].
Qed.

(** The timer and the state after rt_timer_start linked it. *)
Definition armed_timer (now : Z) (tm : rt_timer) : rt_timer :=
  timer_set_flag RT_TIMER_FLAG_ACTIVATED
    (set_tm_timeout_tick (u32 (now + tm_init_tick tm)) (timer_clear_flag RT_TIMER_FLAG_ACTIVATED tm)).
Definition armed (n : timer_id) (tm : rt_timer) (l1 l2 : list timer_id) (s : timers) : timers :=
  set_t_lists (<[timer_list_of (tm_flag tm) := l1 ++ n :: l2]> (list_del n <$> t_lists s))
    (set_t_timers (<[n := armed_timer (t_tick s) tm]> (t_timers s))
      (set_t_random (u32 (t_random s + 1)) s)).

Lemma clear_flag_nonneg f tm : 0 <= tm_flag tm -> 0 <= tm_flag (timer_clear_flag f tm).
Proof. intros Hf. cbn. apply Z.land_nonneg. by left. Qed.
Lemma set_flag_nonneg f tm : 0 <= f -> 0 <= tm_flag tm -> 0 <= tm_flag (timer_set_flag f tm).
Proof. intros Hf Ht. cbn. by apply Z.lor_nonneg. Qed.

Lemma armed_timer_range now tm : tm_range tm -> tm_range (armed_timer now tm).
Proof.
  intros (Ht & Hi & Hf). split; [by apply (wrap_range 32)|]. split; [done|].
  apply set_flag_nonneg; [done|]. by apply clear_flag_nonneg.
Qed.

Lemma armed_timer_list now tm : timer_list_of (tm_flag (armed_timer now tm)) = timer_list_of (tm_flag tm).
Proof. unfold armed_timer. by rewrite list_of_set_activated, <- (list_of_clear_activated tm). Qed.

Lemma arm_run n s tm l l1 l2 :
  t_timers s !! n = Some tm ->
  t_lists s !! timer_list_of (tm_flag tm) = Some l ->
  timer_insert (<[n := set_tm_timeout_tick (u32 (t_tick s + tm_init_tick tm)) (timer_clear_flag RT_TIMER_FLAG_ACTIVATED tm)]> (t_timers s))
    (u32 (t_tick s + tm_init_tick tm)) n (list_del n l) = Some (l1 ++ n :: l2) ->
  rt_timer_arm n s = Some (tt, armed n tm l1 l2 s).
Proof.
  intros En El Ei. unfold rt_timer_arm. munfold. rewrite tremove_run.
  rewrite (upd_timer_run _ n tm) by done. munfold. unfold rt_tick_get. munfold.
  rewrite (upd_timer_run _ n (timer_clear_flag RT_TIMER_FLAG_ACTIVATED tm)) by apply lookup_insert_eq. munfold.
  erewrite rd_timer_run by apply lookup_insert_eq. munfold.
  unfold timer_link. cbn [t_lists set_t_timers set_t_random t_timers tremoved set_t_lists t_tick tm_flag set_tm_timeout_tick
    tm_timeout_tick tm_init_tick timer_clear_flag set_tm_flag] in *.
  rewrite insert_insert_eq. fold (timer_clear_flag RT_TIMER_FLAG_ACTIVATED tm).
  change (Z.land (tm_flag tm) (Z.lnot RT_TIMER_FLAG_ACTIVATED)) with (tm_flag (timer_clear_flag RT_TIMER_FLAG_ACTIVATED tm)).
  rewrite list_of_clear_activated, lookup_fmap, El. cbn [fmap option_fmap option_map].
  rewrite decide_True by apply (tremoved_free n s). rewrite Ei.
  erewrite upd_timer_run by apply lookup_insert_eq. cbn. by rewrite insert_insert_eq.
Qed.

Lemma tinv_armed n s tm l l1 l2 :
  tinv s -> t_timers s !! n = Some tm ->
  t_lists s !! timer_list_of (tm_flag tm) = Some l -> list_del n l = l1 ++ l2 ->
  tinv (armed n tm l1 l2 s).
Proof.
  intros Hs En El Hl. pose proof (tinv_removed n s Hs) as Hr.
  assert (Hr' : tinv (set_t_timers (<[n := armed_timer (t_tick s) tm]> (t_timers s))
      (set_t_random (u32 (t_random s + 1)) (tremoved n s)))).
  { pose proof (tinv_set_timer n _ (armed_timer (t_tick s) tm) Hr (tremoved_free n s)
      (armed_timer_range _ _ (ti_range _ Hs n tm En))) as []. by split. }
  apply (tinv_link _ (list_del n l) l1 l2 n _ (armed_timer (t_tick s) tm) Hr'); try done.
  - cbn. by rewrite lookup_fmap, El.
  - apply (tremoved_free n s).
  - apply lookup_insert_eq.
  - apply activated_set.
  - apply armed_timer_list.
Qed.

(** rt_timer_start is always defined on a timer that exists. *)
Lemma arm_ok n s tm :
  tinv s -> t_timers s !! n = Some tm ->
  exists l l1 l2, t_lists s !! timer_list_of (tm_flag tm) = Some l /\ list_del n l = l1 ++ l2 /\
    rt_timer_arm n s = Some (tt, armed n tm l1 l2 s) /\ tinv (armed n tm l1 l2 s).
Proof.
  intros Hs En. destruct (ti_heads _ Hs (timer_list_of (tm_flag tm))) as [l El].
  set (tm1 := set_tm_timeout_tick (u32 (t_tick s + tm_init_tick tm)) (timer_clear_flag RT_TIMER_FLAG_ACTIVATED tm)).
  destruct (timer_insert_split (<[n := tm1]> (t_timers s)) (u32 (t_tick s + tm_init_tick tm)) n (list_del n l))
    as (l1 & l2 & Hl & Ei).
  { intros a [Ha Hne]%elem_of_list_del. rewrite lookup_insert_ne by done.
    destruct (ti_nodes _ Hs _ _ a El Ha) as (tma & Ea & _). eauto. }
  exists l, l1, l2. split_and!; try done; [by eapply arm_run|by eapply tinv_armed].
Qed.

Lemma u32_add_sub now i base : u32 (u32 (now + i) - base) = u32 (now - base + i).
Proof. unfold wrap. rewrite Zminus_mod_idemp_l. f_equal. lia. Qed.

(** ... and puts it behind the timers that expire no later, in front of the others. *)
Lemma arm_sorted bases n s tm :
  let base := bases (timer_list_of (tm_flag tm)) in
  tinv s -> tsorted bases s -> t_timers s !! n = Some tm ->
  u32 (t_tick s - base) + tm_init_tick tm < HALF ->
  exists l l1 l2, let s' := armed n tm l1 l2 s in
    t_lists s !! timer_list_of (tm_flag tm) = Some l /\ list_del n l = l1 ++ l2 /\
    rt_timer_arm n s = Some (tt, s') /\ tinv s' /\ tsorted bases s' /\
    off base (t_timers s') n = u32 (t_tick s - base) + tm_init_tick tm /\
    Forall (fun a => off base (t_timers s') a <= off base (t_timers s') n) l1 /\
    Forall (fun a => off base (t_timers s') n < off base (t_timers s') a) l2.
Proof.
  intros base Hs Ho En Hw. destruct (ti_heads _ Hs (timer_list_of (tm_flag tm))) as [l El].
  set (v := u32 (t_tick s + tm_init_tick tm)).
  assert (Hv : u32 (v - base) = u32 (t_tick s - base) + tm_init_tick tm).
  { unfold v. rewrite u32_add_sub. pose proof (wrap_range 32 (t_tick s - base) ltac:(lia)).
    destruct (ti_range _ Hs n tm En) as (_ & Hi & _). unfold HALF in Hw.
    rewrite <- (wrap_id 32 (u32 (t_tick s - base) + tm_init_tick tm)) by lia.
    unfold wrap. by rewrite Zplus_mod_idemp_l. }
  set (tm1 := set_tm_timeout_tick v (timer_clear_flag RT_TIMER_FLAG_ACTIVATED tm)).
  set (m1 := <[n := tm1]> (t_timers s)).
  assert (Hoff : forall a, off base (t_timers (armed n tm [] [] s)) a = off base m1 a).
  { intros a. unfold m1. cbn [t_timers armed set_t_lists set_t_timers set_t_random]. destruct (decide (a = n)) as [->|].
    - by rewrite !off_insert_eq.
    - by rewrite !off_insert_ne. }
  assert (Hdel : list_sorted base m1 (list_del n l)).
  { apply (list_sorted_ext base (t_timers s)); [|apply list_sorted_del, (Ho _ _ El)].
    intros a [_ Ha]%elem_of_list_del. by apply off_insert_ne. }
  destruct (timer_insert_sorted base m1 v n (list_del n l)) as (l1 & l2 & Hl & Ei & Hl1 & Hl2); [done| |by rewrite Hv|].
  { intros a [Ha Hne]%elem_of_list_del. unfold m1. rewrite lookup_insert_ne by done.
    destruct (ti_nodes _ Hs _ _ a El Ha) as (tma & Ea & _). eauto. }
  assert (Hn : off base m1 n = u32 (v - base)) by apply off_insert_eq.
  exists l, l1, l2. change (t_timers (armed n tm l1 l2 s)) with (t_timers (armed n tm [] [] s)). cbn zeta.
  split_and!; try done; [by eapply arm_run|by eapply tinv_armed| |by rewrite Hoff, Hn| |].
  - intros h l0. cbn [t_lists armed set_t_lists]. rewrite lookup_insert. case_decide as Hd.
    + subst h. fold base. intros [= <-]. apply (list_sorted_ext base m1); [by intros; apply Hoff|].
      apply list_sorted_insert; [by rewrite <- Hl|by rewrite Hn, Hv|by rewrite Hn|by rewrite Hn].
    + rewrite lookup_fmap. intros (l3 & E3 & ->)%fmap_Some.
      apply (list_sorted_ext (bases h) (t_timers s)); [|apply list_sorted_del, (Ho _ _ E3)].
      intros a [_ Ha]%elem_of_list_del. by apply off_insert_ne.
  - rewrite Hoff, Hn. eapply Forall_impl; [exact Hl1|]. intros a Ha. by rewrite Hoff.
  - rewrite Hoff, Hn. eapply Forall_impl; [exact Hl2|]. intros a Ha. by rewrite Hoff.
Qed.

(** *** rt_timer_stop *)

Definition stopped (n : timer_id) (tm : rt_timer) (s : timers) : timers :=
  set_t_timers (<[n := timer_clear_flag RT_TIMER_FLAG_ACTIVATED tm]> (t_timers s)) (tremoved n s).

Lemma stop_ok n s tm :
  tinv s -> t_timers s !! n = Some tm ->
  exists e s', rt_timer_stop n s = Some (e, s') /\
    (activated tm /\ e = RT_EOK /\ s' = stopped n tm s \/ ~ activated tm /\ e = - RT_ERROR /\ s' = s) /\
    tinv s' /\ q_free (t_lists s') n /\ (forall base, tsorted base s -> tsorted base s').
Proof.
  intros Hs En. unfold rt_timer_stop. munfold. rewrite (rd_timer_run _ _ _ En). munfold.
  case_bool_decide as Ha; rewrite activated_land in Ha.
  - do 2 eexists. split; [done|]. split; [by right|]. split_and!; try done.
    intros h l E Hn. destruct (ti_nodes _ Hs h l n E Hn) as (tm' & E' & Ha' & _). congruence.
  - rewrite tremove_run, (upd_timer_run _ n tm) by done. munfold. do 2 eexists. split; [done|].
    assert (activated tm) by (unfold activated in *; destruct (Z.testbit (tm_flag tm) 0); [done|by destruct Ha]).
    pose proof (tremoved_free n s) as Hf.
    split; [by left|]. split_and!; [|done|].
    + destruct (ti_range _ Hs n tm En) as (? & ? & ?). apply tinv_set_timer; [by apply tinv_removed|done|].
      split; [done|]. split; [done|]. by apply clear_flag_nonneg.
    + intros base Hb. apply tsorted_set_timer; [by apply tsorted_removed|done].
Qed.

(** *** What a timer operation leaves alone *)

(** Same timers, same tick; every list is a sublist, [n] apart. *)
Definition same_but (n : timer_id) (s s' : timers) : Prop :=
  t_tick s' = t_tick s /\ (forall a, a <> n -> t_timers s' !! a = t_timers s !! a) /\
  (is_Some (t_timers s !! n) -> is_Some (t_timers s' !! n)) /\
  (forall h a, a <> n -> (exists l, t_lists s' !! h = Some l /\ a ∈ l) <-> (exists l, t_lists s !! h = Some l /\ a ∈ l)).

Lemma same_but_refl n s : same_but n s s.
Proof. by split_and!. Qed.
Lemma same_but_trans n s1 s2 s3 : same_but n s1 s2 -> same_but n s2 s3 -> same_but n s1 s3.
Proof.
  intros (T1 & M1 & S1 & L1) (T2 & M2 & S2 & L2). split_and!; [congruence| |auto|].
  - intros a Ha. by rewrite M2, M1.
  - intros h a Ha. by rewrite L2, L1.
Qed.

Lemma stopped_same_but n tm s : same_but n s (stopped n tm s).
Proof.
  split_and!; [done| | |].
  - intros a Ha. cbn. by rewrite lookup_insert_ne.
  - intros _. cbn. by rewrite lookup_insert_eq.
  - intros h a Ha. cbn. setoid_rewrite lookup_fmap. setoid_rewrite fmap_Some. split.
    + intros (l & (l0 & E & ->) & [Hl _]%elem_of_list_del). eauto.
    + intros (l & E & Hl). exists (list_del n l). split; [eauto|]. by apply elem_of_list_del.
Qed.

Lemma armed_same_but n tm l l1 l2 s :
  t_lists s !! timer_list_of (tm_flag tm) = Some l -> list_del n l = l1 ++ l2 -> same_but n s (armed n tm l1 l2 s).
Proof.
  intros El Hl. split_and!; [done| | |].
  - intros a Ha. cbn. by rewrite lookup_insert_ne.
  - intros _. cbn. by rewrite lookup_insert_eq.
  - intros h a Ha. cbn. setoid_rewrite lookup_insert. case_decide as Hd.
    + subst h. rewrite El. split.
      * intros (? & [= <-] & Hin). exists l. split; [done|].
        assert (Hin' : a ∈ l1 ++ l2) by set_solver. rewrite <- Hl in Hin'. by apply elem_of_list_del in Hin' as [? _].
      * intros (? & [= <-] & Hin). eexists. split; [done|].
        assert (Hin' : a ∈ l1 ++ l2) by (rewrite <- Hl; by apply elem_of_list_del). set_solver.
    + setoid_rewrite lookup_fmap. setoid_rewrite fmap_Some. split.
      * intros (? & (l0 & E & ->) & [Hin _]%elem_of_list_del). eauto.
      * intros (l0 & E & Hin). exists (list_del n l0). split; [eauto|]. by apply elem_of_list_del.
Qed.

(** *** What keeps the lists in order *)

(** Periodic hard timers have a positive period below half the tick range. *)
Definition periods (s : timers) : Prop := forall n tm, t_timers s !! n = Some tm -> Z.testbit (tm_flag tm) 1 = true ->
  Z.testbit (tm_flag tm) 2 = false -> 0 < tm_init_tick tm < HALF - 1.

(** A step within a tick that keeps the lists sorted, seen from a base that for the hard
    list is at most [d] ticks ago. *)
Record timely (d : Z) (s s' : timers) : Prop := {
  tl_tick : t_tick s' = t_tick s;
  tl_order : forall base, u32 (t_tick s - base TLHard) <= d -> tsorted base s -> tsorted base s';
  tl_periods : periods s -> periods s';
}.
#[global] Instance timely_refl d : Reflexive (timely d).
Proof. by split. Qed.
#[global] Instance timely_trans d : Transitive (timely d).
Proof.
  intros s1 s2 s3 [T1 O1 P1] [T2 O2 P2]. split; [congruence| |auto]. intros base Hb Hs. apply O2; [by rewrite T1|by apply O1].
Qed.
Lemma timely_removed d n s : timely d s (tremoved n s).
Proof. split; try done. intros base _. apply tsorted_removed. Qed.
(** A timer that is not a periodic hard one changes without being listed. *)
Lemma timely_set d n s tm :
  q_free (t_lists s) n -> Z.testbit (tm_flag tm) 1 = false -> timely d s (set_t_timers (<[n := tm]> (t_timers s)) s).
Proof.
  intros Hf Hb. split; [done| |].
  - intros base _ Hs. by apply tsorted_set_timer.
  - intros Hp a tma. cbn [t_timers set_t_timers]. rewrite lookup_insert. case_decide; [|apply Hp]. intros [= <-]. by rewrite Hb.
Qed.

(** ** Properties *)

(** C31: arming a timer keeps the timer list ordered by expiry, across the wrap-around of
    the tick counter: seen from a base at most half the tick range ago, the timer is
    placed behind every timer that expires no later and before every timer that
    expires later, and its own expiry is now plus its period. *)
Theorem timer_start_ordered bases n s tm :
  let base := bases (timer_list_of (tm_flag tm)) in
  tinv s -> tsorted bases s -> t_timers s !! n = Some tm -> u32 (t_tick s - base) + tm_init_tick tm < HALF ->
  exists s' l1 l2, rt_timer_arm n s = Some (tt, s') /\ tinv s' /\ tsorted bases s' /\
    t_lists s' !! timer_list_of (tm_flag tm) = Some (l1 ++ n :: l2) /\
    off base (t_timers s') n = u32 (t_tick s - base) + tm_init_tick tm /\
    Forall (fun a => off base (t_timers s') a <= off base (t_timers s') n) l1 /\
    Forall (fun a => off base (t_timers s') n < off base (t_timers s') a) l2.
Proof.
  intros base Hi Hso En Hw. destruct (arm_sorted bases n s tm Hi Hso En Hw) as (l & l1 & l2 & El & Hl & E & Hi' & Hso' & Ho & H1 & H2).
  exists (armed n tm l1 l2 s), l1, l2. split_and!; try done. apply lookup_insert_eq.
Qed.
