(* ===== verification/Object.v ===== *)
(** * The kernel object registry (rt-thread/src/object.c)

    Every kernel object is linked into the object_list of its class.  The walks
    over these lists are bracketed by rt_enter_critical and rt_exit_critical,
    which may reschedule, so the operations act on the kernel state.

    The address RT_KERNEL_MALLOC returns in rt_object_allocate is an argument of
    the operation ([None] when memory is exhausted). *)
From S2P Require Import Prelude RtList KString Kernel Sched.
From stdpp Require Import base gmap sets list.
From Stdlib Require Import ZArith Lia.
#[local] Open Scope Z_scope.

(** ** Operations *)

(** The classes of rt_object_container in the order of the array (the upper
    board's configuration; the lower board has no mailbox entry). *)
Definition rt_object_container : list Z :=
  [RT_Object_Class_Thread; RT_Object_Class_Semaphore; RT_Object_Class_Mutex; RT_Object_Class_Event;
   RT_Object_Class_MailBox; RT_Object_Class_MessageQueue; RT_Object_Class_MemPool;
   RT_Object_Class_Device; RT_Object_Class_Timer].

Fixpoint find_information (l : list Z) (type : Z) : option Z :=
  match l with
  | [] => None
  | c :: l => if bool_decide (c = type) then Some c else find_information l type
  end.
Definition rt_object_get_information (type : Z) : option Z := find_information rt_object_container type.

Definition rd_obj (o : obj_id) : M objects rt_object := fun s =>
  match o_objs s !! o with Some ob => Some (ob, s) | None => None end.
Definition oq {A} (c : M (gmap Z (list obj_id)) A) : M objects A := zoom o_lists set_o_lists c.
Definition put_obj (o : obj_id) (ob : rt_object) : M objects unit :=
  modify (fun s => set_o_objs (<[o := ob]> (o_objs s)) s).

Definition rt_object_init (o : obj_id) (type : Z) (name : list Z) : M kernel unit :=
  information ← liftO (rt_object_get_information type);
  on_sched rt_enter_critical ;;
  l ← on_objs (oq (q_list information));
  (if bool_decide (o ∈ l) then ub else mret tt) ;;
  on_sched rt_exit_critical ;;
  on_objs (put_obj o (RtObject (Z.lor type RT_Object_Class_Static) (rt_strncpy name RT_NAME_MAX))) ;;
  on_objs (oq (q_insert_after information o)).

Definition rt_object_detach (o : obj_id) : M kernel unit :=
  ob ← on_objs (rd_obj o);
  on_objs (put_obj o (set_ob_type 0 ob)) ;;
  on_objs (oq (q_remove o)).

Definition rt_object_allocate (type : Z) (name : list Z) (malloc : option obj_id) : M kernel (option obj_id) :=
  information ← liftO (rt_object_get_information type);
  match malloc with
  | None => mret None
  | Some o =>
      on_objs (put_obj o (RtObject type (rt_strncpy name RT_NAME_MAX))) ;;
      on_objs (oq (q_insert_after information o)) ;;
      mret (Some o)
  end.

Definition rt_object_delete (o : obj_id) : M kernel unit :=
  ob ← on_objs (rd_obj o);
  on_objs (put_obj o (set_ob_type 0 ob)) ;;
  on_objs (oq (q_remove o)) ;;
  on_objs (modify (fun s => set_o_objs (delete o (o_objs s)) s)).

Definition rt_object_is_systemobject (o : obj_id) : M kernel bool :=
  ob ← on_objs (rd_obj o);
  mret (bool_decide (Z.land (ob_type ob) RT_Object_Class_Static <> 0)).

Definition rt_object_get_type (o : obj_id) : M kernel Z :=
  ob ← on_objs (rd_obj o);
  mret (Z.land (ob_type ob) (Z.lnot RT_Object_Class_Static)).

(** The walk of rt_object_find and rt_thread_find. *)
Fixpoint find_name (name : list Z) (l : list obj_id) : M objects (option obj_id) :=
  match l with
  | [] => mret None
  | o :: l =>
      ob ← rd_obj o;
      if bool_decide (rt_strncmp (ob_name ob) name RT_NAME_MAX = 0) then mret (Some o)
      else find_name name l
  end.

Definition rt_object_find (name : option (list Z)) (type : Z) : M kernel (option obj_id) :=
  match name with
  | None => mret None
  | Some name =>
      if bool_decide (type > RT_Object_Class_Unknown) then mret None
      else
        on_sched rt_enter_critical ;;
        information ← liftO (rt_object_get_information type);
        l ← on_objs (oq (q_list information));
        r ← on_objs (find_name name l);
        on_sched rt_exit_critical ;;
        mret r
  end.

(** The containers are initialised statically, before the kernel runs. *)
Definition boot_objects : objects :=
  Objects ∅ (list_to_map ((fun c => (c, [])) <$> rt_object_container)).

(** ** Invariant *)

Record oinv (s : objects) : Prop := {
  oi_wf : qwf (o_lists s);
  oi_heads : forall c, is_Some (o_lists s !! c) <-> c ∈ rt_object_container;
  oi_nodes : forall c l o, o_lists s !! c = Some l -> o ∈ l ->
    exists ob, o_objs s !! o = Some ob /\ Z.land (ob_type ob) (Z.lnot RT_Object_Class_Static) = c;
}.

(** What an operation on objects keeps of the rest of the kernel. *)
Record okeep (k k' : kernel) : Prop := {
  ok_timers : k_timers k' = k_timers k;
  ok_sems : k_sems k' = k_sems k;
  ok_mutexes : k_mutexes k' = k_mutexes k;
  ok_events : k_events k' = k_events k;
  ok_mbs : k_mbs k' = k_mbs k;
  ok_mqs : k_mqs k' = k_mqs k;
  ok_mps : k_mps k' = k_mps k;
  ok_heap : k_heap k' = k_heap k;
}.

Lemma get_information_spec type :
  rt_object_get_information type = if decide (type ∈ rt_object_container) then Some type else None.
Proof.
  unfold rt_object_get_information. induction rt_object_container as [|c l IH]; cbn.
  { by rewrite decide_False by apply not_elem_of_nil. }
  case_bool_decide as Hc; [subst; by rewrite decide_True by set_solver|].
  rewrite IH. repeat case_decide; set_solver.
Qed.

Lemma boot_objects_ok : oinv boot_objects.
Proof.
  assert (He : forall c l, o_lists boot_objects !! c = Some l -> l = [] /\ c ∈ rt_object_container).
  { intros c l E%elem_of_list_to_map_2. apply list_elem_of_fmap in E as (c' & [= -> ->] & ?). done. }
  split.
  - split; [intros h l E; by rewrite (proj1 (He h l E)); apply NoDup_nil_2|].
    intros h1 h2 l1 l2 n E1 _ Hn. rewrite (proj1 (He _ _ E1)) in Hn. by apply not_elem_of_nil in Hn.
  - intros c. split; [intros [l E]; by apply He in E as [_ ?]|].
    intros Hc. unfold rt_object_container in Hc. repeat (apply elem_of_cons in Hc as [->|Hc]; [by eexists|]).
    by apply not_elem_of_nil in Hc.
  - intros c l o E Ho. rewrite (proj1 (He _ _ E)) in Ho. by apply not_elem_of_nil in Ho.
Qed.

Lemma class_of_static type :
  type ∈ rt_object_container ->
  Z.land (Z.lor type RT_Object_Class_Static) (Z.lnot RT_Object_Class_Static) = type /\
  Z.land type (Z.lnot RT_Object_Class_Static) = type.
Proof.
  intros Hc. unfold rt_object_container in Hc.
  repeat (apply elem_of_cons in Hc as [->|Hc]; [done|]). by apply not_elem_of_nil in Hc.
Qed.

(** Linking a new object at the head of the list of its class. *)
Definition registered (o : obj_id) (c : Z) (l : list obj_id) (ob : rt_object) (s : objects) : objects :=
  set_o_lists (<[c := o :: l]> (o_lists s)) (set_o_objs (<[o := ob]> (o_objs s)) s).

Lemma oinv_register o c l ob s :
  oinv s -> o_lists s !! c = Some l -> q_free (o_lists s) o ->
  Z.land (ob_type ob) (Z.lnot RT_Object_Class_Static) = c ->
  (put_obj o ob ;; oq (q_insert_after c o)) s = Some (tt, registered o c l ob s) /\
  oinv (registered o c l ob s).
Proof.
  intros [] El Hf Hc. split.
  { unfold oq, q_insert_after, q_update. munfold. cbn. rewrite El. by rewrite decide_True. }
  split; cbn.
  - apply (qwf_insert _ c l _ o); try done; [|set_solver]. constructor; [by apply (Hf c)|by apply (proj1 oi_wf0 c)].
  - intros c'. rewrite lookup_insert. case_decide; [subst c'|apply oi_heads0]. rewrite <- oi_heads0. rewrite El. done.
  - intros c' l' a. rewrite lookup_insert. case_decide as Hd.
    + subst c'. intros [= <-] [->|Ha]%elem_of_cons; [exists ob; by rewrite lookup_insert_eq|].
      rewrite lookup_insert_ne; [by apply (oi_nodes0 c l)|]. intros <-. by apply (Hf c l).
    + intros E Ha. rewrite lookup_insert_ne; [by apply (oi_nodes0 c' l')|]. intros <-. by apply (Hf c' l').
Qed.

Lemma oinv_unregister o s :
  oinv s -> oinv (set_o_lists (list_del o <$> o_lists s) s).
Proof.
  intros []. split; cbn.
  - by apply qwf_remove.
  - intros c. rewrite lookup_fmap, fmap_is_Some. apply oi_heads0.
  - intros c l a. rewrite lookup_fmap, fmap_Some. intros (l0 & E & ->) [Ha _]%elem_of_list_del. by apply (oi_nodes0 c l0).
Qed.

Lemma oinv_set_free o ob s :
  oinv s -> q_free (o_lists s) o -> oinv (set_o_objs (<[o := ob]> (o_objs s)) s).
Proof.
  intros [] Hf. split; try done. cbn. intros c l a E Ha.
  rewrite lookup_insert_ne; [by apply (oi_nodes0 c l)|]. intros <-. by apply (Hf c l).
Qed.

(** ** Behaviour of the operations *)

(** The scheduler lock can be taken once more without overflow. *)
Definition can_lock (k : kernel) : Prop := 0 <= s_lock_nest (k_sched k) < 2 ^ 15 - 1.

Lemma okeep_sched s k : okeep k (set_k_sched s k).
Proof. by split. Qed.
Lemma okeep_objs s k : okeep k (set_k_objs s k).
Proof. by split. Qed.
#[global] Instance okeep_trans : Transitive okeep.
Proof. intros k1 k2 k3 [] []. split; congruence. Qed.

Lemma on_objs_run {A} (c : M objects A) k a s :
  c (k_objs k) = Some (a, s) -> on_objs c k = Some (a, set_k_objs s k).
Proof. intros E. unfold on_objs, zoom. by rewrite E. Qed.

Lemma oq_list_run c l s : o_lists s !! c = Some l -> oq (q_list c) s = Some (l, s).
Proof. intros E. unfold oq, zoom, q_list. rewrite E. by destruct s. Qed.

Lemma set_objs_id k : set_k_objs (k_objs k) k = k.
Proof. by destruct k. Qed.

Lemma on_objs_bind {A B} (c : M objects A) (f : A -> M objects B) k :
  (on_objs c ≫= fun a => on_objs (f a)) k = on_objs (c ≫= f) k.
Proof.
  unfold on_objs. munfold. destruct (c (k_objs k)) as [[a s]|]; [|done]. cbn.
  destruct (f a s) as [[b s']|]; [|done]. by destruct k.
Qed.

Lemma object_init_ok o type name k :
  sinv None (k_sched k) -> can_lock k -> oinv (k_objs k) -> type ∈ rt_object_container ->
  q_free (o_lists (k_objs k)) o ->
  exists l s', o_lists (k_objs k) !! type = Some l /\
    let objs' := registered o type l (RtObject (Z.lor type RT_Object_Class_Static) (rt_strncpy name RT_NAME_MAX)) (k_objs k) in
    rt_object_init o type name k = Some (tt, set_k_objs objs' (set_k_sched s' k)) /\
    oinv objs' /\ sinv None s' /\ sched_frame (k_sched k) s' /\
    (is_Some (s_current (k_sched k)) -> is_Some (s_current s')) /\ (s_current (k_sched k) = None -> s' = k_sched k).
Proof.
  intros Hs Hn Ho Hc Hf. destruct (proj2 (oi_heads _ Ho type) Hc) as [l El].
  destruct (critical_ok _ Hs Hn) as (s1 & s' & E1 & E2 & Hs' & Hfr & Hcur & Hnone).
  destruct (oinv_register o type l (RtObject (Z.lor type RT_Object_Class_Static) (rt_strncpy name RT_NAME_MAX)) _ Ho El Hf)
    as [Er Hr]; [by apply class_of_static|].
  exists l, s'. split; [done|]. cbn zeta. split; [|done].
  unfold rt_object_init. rewrite get_information_spec, decide_True by done. munfold. rewrite (on_sched_run _ _ _ _ E1).
  rewrite (on_objs_run _ (set_k_sched s1 k) l (k_objs k)) by (by apply oq_list_run).
  rewrite bool_decide_false by (by apply (Hf type)).
  rewrite (on_sched_run _ (set_k_objs (k_objs k) (set_k_sched s1 k)) tt s') by done.
  match goal with |- ?c = _ => transitivity ((on_objs (put_obj o (RtObject (Z.lor type RT_Object_Class_Static) (rt_strncpy name RT_NAME_MAX)))
    ;; on_objs (oq (q_insert_after type o))) (set_k_sched s' k)); [done|] end.
  rewrite on_objs_bind. by apply on_objs_run.
Qed.

(** rt_object_detach and the unlinking part of rt_object_delete. *)
Lemma object_detach_ok o k ob :
  oinv (k_objs k) -> o_objs (k_objs k) !! o = Some ob ->
  let objs' := set_o_lists (list_del o <$> o_lists (k_objs k)) (set_o_objs (<[o := set_ob_type 0 ob]> (o_objs (k_objs k))) (k_objs k)) in
  rt_object_detach o k = Some (tt, set_k_objs objs' k) /\ oinv objs' /\ q_free (o_lists objs') o.
Proof.
  intros Ho Eo. cbn zeta. split.
  { unfold rt_object_detach, on_objs, rd_obj. munfold. rewrite Eo. by destruct k. }
  assert (Hf : q_free (list_del o <$> o_lists (k_objs k)) o).
  { intros c l. rewrite lookup_fmap, fmap_Some. intros (l0 & _ & ->). rewrite elem_of_list_del. naive_solver. }
  split; [|done]. apply (oinv_set_free o (set_ob_type 0 ob) _ (oinv_unregister o _ Ho) Hf).
Qed.

(** The specification of the search: the first object with these name bytes. *)
Definition has_name (s : objects) (name : list Z) (o : obj_id) : bool :=
  match o_objs s !! o with
  | Some ob => bool_decide (rt_strncmp (ob_name ob) name RT_NAME_MAX = 0)
  | None => false
  end.

Lemma find_name_ok name l s :
  (forall o, o ∈ l -> is_Some (o_objs s !! o)) ->
  find_name name l s = Some (List.find (has_name s name) l, s).
Proof.
  induction l as [|o l IH]; intros Hl; [done|]. destruct (Hl o ltac:(set_solver)) as [ob Eo].
  cbn [find_name List.find]. unfold rd_obj. munfold. unfold has_name at 1. rewrite Eo.
  case_bool_decide; [done|]. apply IH. intros o' Ho'. apply Hl, elem_of_cons. by right.
Qed.

Lemma object_find_ok name type l k :
  sinv None (k_sched k) -> can_lock k -> oinv (k_objs k) -> o_lists (k_objs k) !! type = Some l ->
  exists s', rt_object_find (Some name) type k = Some (List.find (has_name (k_objs k) name) l, set_k_sched s' k) /\
    sinv None s' /\ sched_frame (k_sched k) s'.
Proof.
  intros Hs Hn Ho El. assert (Hc : type ∈ rt_object_container) by (apply (oi_heads _ Ho); eauto).
  destruct (critical_ok _ Hs Hn) as (s1 & s' & E1 & E2 & Hs' & Hfr & _ & _). exists s'. split; [|done].
  unfold rt_object_find. rewrite bool_decide_false.
  2: { unfold rt_object_container in Hc. repeat (apply elem_of_cons in Hc as [->|Hc]; [by vm_compute|]). by apply not_elem_of_nil in Hc. }
  munfold. rewrite (on_sched_run _ _ _ _ E1). rewrite get_information_spec, decide_True by done.
  rewrite (on_objs_run _ (set_k_sched s1 k) l (k_objs k)) by (by apply oq_list_run).
  erewrite on_objs_run by (apply find_name_ok; intros o Hin; destruct (oi_nodes _ Ho _ _ _ El Hin) as (ob & E & _); eauto).
  rewrite (on_sched_run _ _ tt s') by done. by destruct k.
Qed.

(** ** Properties *)

(** A kernel object initialised under a name is what rt_object_find returns for
    that name and class from then on until a later object of the class takes the
    name: registration puts the object first in its container, the stored name is
    the first RT_NAME_MAX bytes, and the search compares the same bytes.  Neither
    call loses an invariant of the scheduler or of the containers. *)
Theorem object_init_find o type name k :
  sinv None (k_sched k) -> can_lock k -> oinv (k_objs k) -> type ∈ rt_object_container ->
  q_free (o_lists (k_objs k)) o -> cstr name ->
  exists k1 k2, rt_object_init o type name k = Some (tt, k1) /\ rt_object_find (Some name) type k1 = Some (Some o, k2) /\
    oinv (k_objs k2) /\ sinv None (k_sched k2) /\ sched_frame (k_sched k) (k_sched k2).
Proof.
  intros Hs Hn Ho Hc Hf Hname. destruct (object_init_ok o type name k Hs Hn Ho Hc Hf) as (l & s' & El & E & Ho' & Hs' & Hfr & _ & _).
  cbn zeta in *. set (ob := RtObject _ _) in *. set (objs' := registered o type l ob (k_objs k)) in *.
  set (k1 := set_k_objs objs' (set_k_sched s' k)) in *.
  destruct (object_find_ok name type (o :: l) k1) as (s2 & E2 & Hs2 & Hf2); try done.
  { unfold can_lock. cbn. by rewrite (sf_lock _ _ Hfr). }
  { apply lookup_insert_eq. }
  exists k1, (set_k_sched s2 k1). split; [done|]. split.
  - rewrite E2. cbn [List.find]. unfold has_name at 1. cbn [k_objs k1 set_k_objs objs' registered set_o_lists o_objs set_o_objs].
    rewrite lookup_insert_eq. cbn [ob_name ob]. rewrite bool_decide_true; [done|]. by apply strncmp_strncpy.
  - split_and!; try done. by transitivity s'.
Qed.
