(* ===== verification/Thread.v ===== *)
(** * Threads, thread timers and the tick (thread.c, timer.c, clock.c)

    The thread operations of rt-thread/src/thread.c, the part of
    rt-thread/src/timer.c that calls back into them and rt-thread/src/clock.c.

    A call that blocks is cut at its call of rt_schedule: the first half ends
    with the caller switched out and returns what the caller has on its stack;
    the [_resume] half is the code that runs when the thread is scheduled again.

    The object hooks are null, as no module of the firmware installs one, and
    RT_ASSERT is a no-op, as in the lower board's build; [kinv] shows that
    the conditions of the assertions hold. *)
From S2P Require Import Prelude RtList KString Kernel Sched Timer Object.
From stdpp Require Import base gmap sets list sorting.
From Stdlib Require Import ZArith Lia.
#[local] Open Scope Z_scope.

(** ** Operations *)

(** The control blocks of the two static system threads. *)
Definition timer_thread : nat := 0.
Definition idle_thread : nat := 1.

Definition set_thread (t : nat) (f : rt_thread -> rt_thread) : M kernel unit := on_sched (upd_thread t f).
Definition get_thread (t : nat) : M kernel rt_thread := on_sched (rd_thread t).
Definition kq {A} (c : M (gmap qhead (list nat)) A) : M kernel A := on_sched (sq c).

Definition rt_thread_self : M kernel (option nat) := gets (fun k => s_current (k_sched k)).
(** The current thread where the code dereferences it. *)
Definition self : M kernel nat := ocur ← rt_thread_self; liftO ocur.

Definition rt_thread_suspend (t : nat) : M kernel Z :=
  th ← get_thread t;
  let stat := stat_of th in
  if bool_decide (stat <> RT_THREAD_READY) && bool_decide (stat <> RT_THREAD_RUNNING) then mret (- RT_ERROR)
  else
    on_sched (rt_schedule_remove_thread t) ;;
    set_thread t (with_stat RT_THREAD_SUSPEND) ;;
    on_timers (rt_timer_stop (ThreadTimer t)) ;;
    mret RT_EOK.

Definition rt_thread_resume (t : nat) : M kernel Z :=
  th ← get_thread t;
  if bool_decide (stat_of th <> RT_THREAD_SUSPEND) then mret (- RT_ERROR)
  else
    kq (q_remove t) ;;
    on_timers (rt_timer_stop (ThreadTimer t)) ;;
    on_sched (rt_schedule_insert_thread t) ;;
    mret RT_EOK.

Definition rt_thread_timeout (t : nat) : M kernel unit :=
  set_thread t (set_th_error (- RT_ETIMEOUT)) ;;
  kq (q_remove t) ;;
  on_sched (rt_schedule_insert_thread t) ;;
  on_sched rt_schedule.

(** timer_thread is a zeroed static structure until it is initialised. *)
Definition rt_timer_start (n : timer_id) : M kernel Z :=
  on_timers (rt_timer_arm n) ;;
  tm ← on_timers (rd_timer n);
  (if bool_decide (Z.land (tm_flag tm) RT_TIMER_FLAG_SOFT_TIMER <> 0) then
     oth ← gets (fun k => s_threads (k_sched k) !! timer_thread);
     if bool_decide (stat_of <$> oth = Some RT_THREAD_SUSPEND) then
       rt_thread_resume timer_thread ;; on_sched rt_schedule
     else mret tt
   else mret tt) ;;
  mret RT_EOK.

Definition rt_timer_init (n : timer_id) (name : list Z) (func : timeout_func) (time flag : Z) : M kernel unit :=
  rt_object_init (OTimer n) RT_Object_Class_Timer name ;;
  on_timers (rt_timer_setup n func time flag).

Definition rt_timer_detach (n : timer_id) : M kernel Z :=
  on_timers (rt_timer_remove n) ;;
  rt_object_detach (OTimer n) ;;
  mret RT_EOK.

(** [malloc] is the address of the new timer, if there is memory for one. *)
Definition rt_timer_create (name : list Z) (func : timeout_func) (time flag : Z) (malloc : option nat)
    : M kernel (option timer_id) :=
  o ← rt_object_allocate RT_Object_Class_Timer name ((fun n => OTimer (UserTimer n)) <$> malloc);
  match malloc with
  | None => mret None
  | Some n => on_timers (rt_timer_setup (UserTimer n) func time flag) ;; mret (Some (UserTimer n))
  end.

Definition rt_timer_delete (n : timer_id) : M kernel Z :=
  on_timers (rt_timer_remove n) ;;
  rt_object_delete (OTimer n) ;;
  on_timers (modify (fun s => set_t_timers (delete n (t_timers s)) s)) ;;
  mret RT_EOK.

(** The bytes of the structure that the initialisation does not write. *)
Definition old_thread (k : kernel) (t : nat) : rt_thread :=
  default (RtThread 0 0 0 0 0 0 0 0 0 0 0 0 0 0 0) (s_threads (k_sched k) !! t).

(** _rt_thread_init; the stack frame built by rt_hw_stack_init is not modelled. *)
Definition thread_setup (t : nat) (name : list Z) (entry parameter stack_start stack_size priority tick : Z)
    : M kernel Z :=
  kq (q_node_init t) ;;
  old ← gets (fun k => old_thread k t);
  on_sched (modify (fun s => set_s_threads
    (<[t := RtThread entry parameter stack_start stack_size RT_EOK RT_THREAD_INIT priority priority 0
              (th_event_set old) (th_event_info old) tick tick 0 0]> (s_threads s)) s)) ;;
  rt_timer_init (ThreadTimer t) name (TF_thread_timeout t) 0 0 ;;
  mret RT_EOK.

Definition rt_thread_init (t : nat) (name : list Z) (entry parameter stack_start stack_size priority tick : Z)
    : M kernel Z :=
  rt_object_init (OThread t) RT_Object_Class_Thread name ;;
  thread_setup t name entry parameter stack_start stack_size priority tick.

(** [malloc] and [stack] are the addresses rt_malloc returns for the control
    block and the stack. *)
Definition rt_thread_create (name : list Z) (entry parameter stack_size priority tick : Z)
    (malloc : option nat) (stack : option Z) : M kernel (option nat) :=
  o ← rt_object_allocate RT_Object_Class_Thread name (OThread <$> malloc);
  match malloc with
  | None => mret None
  | Some t =>
      match stack with
      | None => rt_object_delete (OThread t) ;; mret None
      | Some stack_start =>
          thread_setup t name entry parameter stack_start stack_size priority tick ;;
          mret (Some t)
      end
  end.

Definition rt_thread_startup (t : nat) : M kernel Z :=
  set_thread t (fun th => set_th_current_priority (th_init_priority th) th) ;;
  set_thread t (fun th => set_th_number_mask (u32 (Z.shiftl 1 (th_current_priority th))) th) ;;
  set_thread t (set_th_stat RT_THREAD_SUSPEND) ;;
  rt_thread_resume t ;;
  cur ← rt_thread_self;
  (if bool_decide (cur <> None) then on_sched rt_schedule else mret tt) ;;
  mret RT_EOK.

(** The end of rt_thread_exit and rt_thread_detach: a static thread without
    cleanup function is only detached, any other waits for the idle thread. *)
Definition thread_dispose (t : nat) : M kernel unit :=
  static ← rt_object_is_systemobject (OThread t);
  th ← get_thread t;
  if (static : bool) && bool_decide (th_cleanup th = 0) then rt_object_detach (OThread t)
  else kq (q_insert_after QDefunct t).

Definition rt_thread_exit : M kernel unit :=
  t ← self;
  on_sched (rt_schedule_remove_thread t) ;;
  set_thread t (set_th_stat RT_THREAD_CLOSE) ;;
  rt_timer_detach (ThreadTimer t) ;;
  thread_dispose t ;;
  on_sched rt_schedule.

Definition rt_thread_detach (t : nat) : M kernel Z :=
  th ← get_thread t;
  (if bool_decide (stat_of th <> RT_THREAD_INIT) then on_sched (rt_schedule_remove_thread t) else mret tt) ;;
  rt_timer_detach (ThreadTimer t) ;;
  set_thread t (set_th_stat RT_THREAD_CLOSE) ;;
  thread_dispose t ;;
  mret RT_EOK.

Definition rt_thread_delete (t : nat) : M kernel Z :=
  th ← get_thread t;
  (if bool_decide (stat_of th <> RT_THREAD_INIT) then on_sched (rt_schedule_remove_thread t) else mret tt) ;;
  rt_timer_detach (ThreadTimer t) ;;
  set_thread t (set_th_stat RT_THREAD_CLOSE) ;;
  kq (q_insert_after QDefunct t) ;;
  mret RT_EOK.

Definition rt_thread_yield : M kernel Z := on_sched rt_schedule ;; mret RT_EOK.

(** Suspends the caller and arms its timer; returns the caller. *)
Definition rt_thread_sleep (tick : Z) : M kernel nat :=
  t ← self;
  rt_thread_suspend t ;;
  on_timers (rt_timer_control (ThreadTimer t) (RT_TIMER_CTRL_SET_TIME tick)) ;;
  rt_timer_start (ThreadTimer t) ;;
  on_sched rt_schedule ;;
  mret t.
Definition rt_thread_sleep_resume (t : nat) : M kernel Z :=
  th ← get_thread t;
  (if bool_decide (th_error th = - RT_ETIMEOUT) then set_thread t (set_th_error RT_EOK) else mret tt) ;;
  mret RT_EOK.

Definition rt_thread_delay (tick : Z) : M kernel nat := rt_thread_sleep tick.

(** [inr t] when thread [t] blocked, [inl tick] with the stored wake-up tick otherwise. *)
Definition rt_thread_delay_until (tick inc_tick : Z) : M kernel (Z + nat) :=
  t ← self;
  now ← on_timers rt_tick_get;
  if bool_decide (u32 (now - tick) < inc_tick) then
    let tick := u32 (now - tick + inc_tick) in
    rt_thread_suspend t ;;
    on_timers (rt_timer_control (ThreadTimer t) (RT_TIMER_CTRL_SET_TIME tick)) ;;
    rt_timer_start (ThreadTimer t) ;;
    on_sched rt_schedule ;;
    mret (inr t)
  else
    now ← on_timers rt_tick_get;
    mret (inl now).
Definition rt_thread_delay_until_resume (t : nat) : M kernel Z :=
  rt_thread_sleep_resume t ;;
  on_timers rt_tick_get.

Definition RT_WAITING_FOREVER : Z := -1.
Definition rt_tick_from_millisecond (ms : Z) : Z :=
  if bool_decide (ms < 0) then u32 RT_WAITING_FOREVER
  else
    let tick := u32 (RT_TICK_PER_SECOND * Z.quot ms 1000) in
    u32 (tick + Z.quot (RT_TICK_PER_SECOND * Z.rem ms 1000 + 999) 1000).

Definition rt_thread_mdelay (ms : Z) : M kernel nat := rt_thread_sleep (rt_tick_from_millisecond ms).

Definition rt_thread_control (t : nat) (cmd : thread_cmd) : M kernel Z :=
  match cmd with
  | RT_THREAD_CTRL_CHANGE_PRIORITY prio =>
      let change th := set_th_number_mask (u32 (Z.shiftl 1 prio)) (set_th_current_priority prio th) in
      th ← get_thread t;
      (if bool_decide (stat_of th = RT_THREAD_READY) then
         on_sched (rt_schedule_remove_thread t) ;;
         set_thread t change ;;
         on_sched (rt_schedule_insert_thread t)
       else set_thread t change) ;;
      mret RT_EOK
  | RT_THREAD_CTRL_STARTUP => rt_thread_startup t
  | RT_THREAD_CTRL_CLOSE => rt_thread_delete t
  | RT_THREAD_CTRL_OTHER => mret RT_EOK
  end.

Definition rt_thread_find (name : list Z) : M kernel (option obj_id) :=
  cur ← rt_thread_self;
  (if bool_decide (cur <> None) then on_sched rt_enter_critical else mret tt) ;;
  information ← liftO (rt_object_get_information RT_Object_Class_Thread);
  l ← on_objs (oq (q_list information));
  r ← on_objs (find_name name l);
  (if bool_decide (cur <> None) then on_sched rt_exit_critical else mret tt) ;;
  mret r.

(** The time-slice accounting of rt_tick_increase. *)
Definition tick_slice (t : nat) : M kernel unit :=
  set_thread t (fun th => set_th_remaining_tick (u32 (th_remaining_tick th - 1)) th) ;;
  th ← get_thread t;
  if bool_decide (th_remaining_tick th = 0) then
    set_thread t (fun th => set_th_remaining_tick (th_init_tick th) th) ;;
    set_thread t (fun th => set_th_stat (Z.lor (th_stat th) RT_THREAD_STAT_YIELD) th) ;;
    rt_thread_yield ;; mret tt
  else mret tt.

(** ** The timer interrupt and the timer thread

    The timeout functions of application timers are a parameter. *)
Section Timeouts.
Context (user_timeout : nat -> M kernel unit).

Definition call_timeout (f : timeout_func) : M kernel unit :=
  match f with
  | TF_thread_timeout t => rt_thread_timeout t
  | TF_user n => user_timeout n
  end.

(** After the timeout function: restart a periodic timer, else mark it stopped. *)
Definition timer_rearm (n : timer_id) : M kernel unit :=
  tm ← on_timers (rd_timer n);
  on_timers (upd_timer n (timer_clear_flag RT_TIMER_FLAG_ACTIVATED)) ;;
  if bool_decide (Z.land (tm_flag tm) RT_TIMER_FLAG_PERIODIC <> 0) &&
     bool_decide (Z.land (tm_flag tm) RT_TIMER_FLAG_ACTIVATED <> 0)
  then rt_timer_start n ;; mret tt
  else mret tt.

(** The loop of rt_timer_check; [false] when the fuel ran out. *)
Fixpoint timer_check_loop (fuel : nat) (current_tick : Z) : M kernel bool :=
  match fuel with
  | O => mret false
  | S fuel =>
      l ← on_timers (tq (q_list TLHard));
      match l with
      | [] => mret true
      | n :: _ =>
          tm ← on_timers (rd_timer n);
          if timer_due current_tick tm then
            on_timers (rt_timer_remove n) ;;
            call_timeout (tm_func tm) ;;
            current_tick ← on_timers rt_tick_get;
            timer_rearm n ;;
            timer_check_loop fuel current_tick
          else mret true
      end
  end.
Definition rt_timer_check (fuel : nat) : M kernel bool :=
  current_tick ← on_timers rt_tick_get;
  timer_check_loop fuel current_tick.

(** [n->next] in the soft timer list ([None] is the list head); a node that is
    on no list points to itself. *)
Fixpoint next_in (n : timer_id) (l : list timer_id) : option (option timer_id) :=
  match l with
  | [] => None
  | m :: l => if bool_decide (m = n) then Some (head l) else next_in n l
  end.
Definition soft_next (n : timer_id) : M timers (option timer_id) :=
  l ← tq (q_list TLSoft);
  mret (default (Some n) (next_in n l)).

Fixpoint soft_timer_loop (fuel : nat) (cursor : option timer_id) (current_tick : Z) : M kernel bool :=
  match fuel with
  | O => mret false
  | S fuel =>
      match cursor with
      | None => mret true
      | Some n =>
          tm ← on_timers (rd_timer n);
          if timer_due current_tick tm then
            next ← on_timers (soft_next n);
            on_timers (rt_timer_remove n) ;;
            on_sched rt_exit_critical ;;
            call_timeout (tm_func tm) ;;
            current_tick ← on_timers rt_tick_get;
            on_sched rt_enter_critical ;;
            timer_rearm n ;;
            soft_timer_loop fuel next current_tick
          else mret true
      end
  end.
Definition rt_soft_timer_check (fuel : nat) : M kernel bool :=
  current_tick ← on_timers rt_tick_get;
  on_sched rt_enter_critical ;;
  l ← on_timers (tq (q_list TLSoft));
  r ← soft_timer_loop fuel (head l) current_tick;
  on_sched rt_exit_critical ;;
  mret r.

(** One turn of the timer thread up to its check of the soft timers. *)
Definition rt_thread_timer_entry_wait : M kernel unit :=
  next_timeout ← on_timers (rt_timer_list_next_timeout TLSoft);
  if bool_decide (next_timeout = RT_TICK_MAX) then
    t ← self;
    rt_thread_suspend t ;;
    on_sched rt_schedule
  else
    current_tick ← on_timers rt_tick_get;
    if bool_decide (u32 (next_timeout - current_tick) < RT_TICK_MAX / 2) then
      rt_thread_delay (u32 (next_timeout - current_tick)) ;; mret tt
    else mret tt.

(** The tick interrupt. *)
Definition rt_tick_increase (fuel : nat) : M kernel bool :=
  on_timers (modify (fun s => set_t_tick (u32 (t_tick s + 1)) s)) ;;
  t ← self;
  tick_slice t ;;
  rt_timer_check fuel.
End Timeouts.

Definition rt_tick_set (tick : Z) : M timers unit := modify (set_t_tick tick).

Definition RT_TIMER_THREAD_PRIO : Z := 4.
Definition rt_system_timer_thread_init (stack stack_size : Z) : M kernel unit :=
  on_timers (tq (q_init TLSoft)) ;;
  rt_thread_init timer_thread [116; 105; 109; 101; 114] 0 0 stack stack_size RT_TIMER_THREAD_PRIO 10 ;;
  rt_thread_startup timer_thread ;;
  mret tt.

(** ** The kernel invariant *)

(** The timer inside a control block calls rt_thread_timeout once. *)
Definition thread_timer_ok (t : nat) (tm : rt_timer) : Prop :=
  tm_func tm = TF_thread_timeout t /\ Z.testbit (tm_flag tm) 1 = false /\ Z.testbit (tm_flag tm) 2 = false.

Record kinv (x : option nat) (k : kernel) : Prop := {
  ki_sched : sinv x (k_sched k);
  ki_timers : tinv (k_timers k);
  ki_ttimer : forall t th, s_threads (k_sched k) !! t = Some th ->
    exists tm, t_timers (k_timers k) !! ThreadTimer t = Some tm /\ thread_timer_ok t tm;
  ki_wait : forall h l t, t_lists (k_timers k) !! h = Some l -> ThreadTimer t ∈ l ->
    Some t <> x /\ exists th, s_threads (k_sched k) !! t = Some th /\ stat_of th = RT_THREAD_SUSPEND;
  ki_user : forall m tm, t_timers (k_timers k) !! UserTimer m = Some tm -> exists u, tm_func tm = TF_user u;
}.

(** ** Suspending and resuming *)

Lemma set_timers_id k : set_k_timers (k_timers k) k = k.
Proof. by destruct k. Qed.

Lemma get_thread_run k t th : s_threads (k_sched k) !! t = Some th -> get_thread t k = Some (th, k).
Proof. intros E. unfold get_thread, on_sched, zoom. rewrite (rd_thread_run _ _ _ E). by destruct k. Qed.
Lemma set_thread_run k t th f :
  s_threads (k_sched k) !! t = Some th ->
  set_thread t f k = Some (tt, set_k_sched (set_s_threads (<[t := f th]> (s_threads (k_sched k))) (k_sched k)) k).
Proof. intros E. unfold set_thread, on_sched, zoom. by rewrite (upd_thread_run _ _ _ _ E). Qed.
Lemma self_run k t : s_current (k_sched k) = Some t -> self k = Some (t, k).
Proof. intros E. unfold self, rt_thread_self. munfold. by rewrite E. Qed.

(** A suspended thread leaves the list it waits on. *)
Lemma sinv_unlink t s th :
  sinv None s -> s_threads s !! t = Some th -> stat_of th = RT_THREAD_SUSPEND ->
  sinv (Some t) (set_s_queues (list_del t <$> s_queues s) s).
Proof.
  intros Hs Et Hst.
  replace (set_s_queues _ s) with (set_s_group (s_group s) (set_s_queues (list_del t <$> s_queues s) s)) by (by destruct s).
  apply (sinv_remove t s th _ Hs Et); [apply (si_group _ _ Hs)|].
  intros p l (l0 & E & ->)%qrem_lookup. rewrite (si_bits _ _ Hs p l0 E). rewrite list_del_notin; [done|].
  intros Ht. destruct (si_nodes _ _ Hs _ _ _ E Ht) as (_ & th' & E' & Htag & _).
  rewrite Et in E'. injection E' as <-. by rewrite Hst in Htag.
Qed.

Lemma suspend_mask s t th :
  sinv None s -> s_threads s !! t = Some th -> stat_of th <> RT_THREAD_INIT ->
  th_number_mask th = 2 ^ th_current_priority th.
Proof. intros Hs Et Hst. by destruct (si_prio _ _ Hs t th Et) as [_ [?|[? _]]]. Qed.

Definition unready (t : nat) (g : Z) (th : rt_thread) (s : sched) : sched :=
  set_s_threads (<[t := th]> (s_threads s)) (set_s_group g (set_s_queues (list_del t <$> s_queues s) s)).

(** The timers of [k'] differ from those of [k] at most in the thread timer of [t]. *)
Lemma kinv_timers t k s' tms' :
  kinv None k -> sinv None s' -> tinv tms' -> same_but (ThreadTimer t) (k_timers k) tms' ->
  q_free (t_lists tms') (ThreadTimer t) ->
  (forall u, u <> t -> s_threads s' !! u = s_threads (k_sched k) !! u) ->
  (forall tm, t_timers (k_timers k) !! ThreadTimer t = Some tm -> thread_timer_ok t tm ->
     exists tm', t_timers tms' !! ThreadTimer t = Some tm' /\ thread_timer_ok t tm') ->
  is_Some (s_threads (k_sched k) !! t) ->
  kinv None (set_k_timers tms' (set_k_sched s' k)).
Proof.
  intros [] Hs Ht (_ & Hm & _ & Hl) Hf Hu Htm [th0 Eth0]. split; cbn; try done.
  - intros u thu. destruct (decide (u = t)) as [->|Hne].
    + intros _. destruct (ki_ttimer0 t th0 Eth0) as (tm & Etm & Hok). by eapply Htm.
    + rewrite Hu by done. intros Eu. destruct (ki_ttimer0 u thu Eu) as (tm & Etm & Hok).
      exists tm. rewrite Hm by congruence. done.
  - intros h l u El Hin. split; [done|]. destruct (decide (u = t)) as [->|Hne]; [by destruct (Hf h l El)|].
    destruct (proj1 (Hl h (ThreadTimer u) ltac:(congruence))) as (l0 & E0 & Hin0); [eauto|].
    destruct (ki_wait0 h l0 u E0 Hin0) as (_ & thu & Eu & Hsu). exists thu. by rewrite Hu.
  - intros m tm. rewrite Hm by done. apply ki_user0.
Qed.

Lemma stopped_timer_ok t tm : thread_timer_ok t tm -> thread_timer_ok t (timer_clear_flag RT_TIMER_FLAG_ACTIVATED tm).
Proof.
  intros (Hf & H1 & H2). split_and!; [done|..]; cbn [tm_flag timer_clear_flag set_tm_flag];
    rewrite Z.land_spec; rewrite ?H1, ?H2; done.
Qed.

(** Changing the timer of a thread. *)
Lemma timely_thread d t s s' :
  same_but (ThreadTimer t) s s' -> (exists tm', t_timers s' !! ThreadTimer t = Some tm' /\ thread_timer_ok t tm') ->
  (forall base, u32 (t_tick s - base TLHard) <= d -> tsorted base s -> tsorted base s') -> timely d s s'.
Proof.
  intros (Ht & Hm & _) (tm' & Etm & Hok) Ho. split; [done..|]. intros Hp n tm En H1 H2.
  destruct (decide (n = ThreadTimer t)) as [->|Hne]; [|rewrite Hm in En by done; by apply (Hp n)].
  rewrite Etm in En. injection En as <-. destruct Hok as (_ & Hb & _). congruence.
Qed.

(** rt_timer_stop on the timer of a thread. *)
Lemma stop_thread_timer t tms tm :
  tinv tms -> t_timers tms !! ThreadTimer t = Some tm ->
  exists e tms', rt_timer_stop (ThreadTimer t) tms = Some (e, tms') /\ tinv tms' /\
    same_but (ThreadTimer t) tms tms' /\ q_free (t_lists tms') (ThreadTimer t) /\
    (forall base, tsorted base tms -> tsorted base tms') /\
    (forall tm0, t_timers tms !! ThreadTimer t = Some tm0 -> thread_timer_ok t tm0 ->
       exists tm', t_timers tms' !! ThreadTimer t = Some tm' /\ thread_timer_ok t tm').
Proof.
  intros Ht Etm. destruct (stop_ok _ _ _ Ht Etm) as (e & tms' & E & Hcase & Ht' & Hf & Hb).
  exists e, tms'. split_and!; try done.
  - destruct Hcase as [(_ & _ & ->)|(_ & _ & ->)]; [apply stopped_same_but|apply same_but_refl].
  - intros tm0 E0 Hok. rewrite Etm in E0. injection E0 as <-.
    destruct Hcase as [(_ & _ & ->)|(_ & _ & ->)]; [|by exists tm].
    exists (timer_clear_flag RT_TIMER_FLAG_ACTIVATED tm). split; [apply lookup_insert_eq|by apply stopped_timer_ok].
Qed.

Lemma suspend_ok k t th :
  kinv None k -> s_threads (k_sched k) !! t = Some th -> active th ->
  exists g tms', let s' := unready t g (with_stat RT_THREAD_SUSPEND th) (k_sched k) in
    rt_thread_suspend t k = Some (RT_EOK, set_k_timers tms' (set_k_sched s' k)) /\
    kinv None (set_k_timers tms' (set_k_sched s' k)) /\ q_free (s_queues s') t /\
    q_free (t_lists tms') (ThreadTimer t) /\ same_but (ThreadTimer t) (k_timers k) tms' /\
    (forall d, timely d (k_timers k) tms').
Proof.
  intros Hk Et Ha. destruct (remove_thread_ok t _ th (ki_sched _ _ Hk) Et) as (g & E & Hs1).
  destruct (ki_ttimer _ _ Hk t th Et) as (tm & Etm & Hok).
  destruct (stop_thread_timer t _ tm (ki_timers _ _ Hk) Etm) as (e & tms' & Es & Ht' & Hsb & Hf & Hord & Htm).
  exists g, tms'. cbn zeta. set (s' := unready t g _ _).
  assert (Hs' : sinv None s').
  { apply (sinv_close t _ (with_stat RT_THREAD_SUSPEND th)).
    - apply (sinv_set_thread t _ th _ Hs1 Et). apply prio_ok_stat; [apply (si_prio _ _ (ki_sched _ _ Hk) t th Et)|].
      destruct Ha as [-> | ->]; done.
    - apply lookup_insert_eq.
    - by rewrite stat_with_suspend.
    - by rewrite stat_with_suspend. }
  split_and!; try done.
  - unfold rt_thread_suspend. munfold. rewrite (get_thread_run _ _ _ Et).
    replace (bool_decide _ && bool_decide _) with false.
    2: { symmetry. apply andb_false_iff. destruct Ha as [-> | ->]; [left|right]; by apply bool_decide_eq_false; intros []. }
    rewrite (on_sched_run _ _ _ _ E). rewrite (set_thread_run _ t th) by done. munfold.
    by rewrite (on_timers_run _ _ e tms').
  - apply (kinv_timers t k s' tms'); try done. intros u Hu. cbn. by rewrite lookup_insert_ne.
  - apply q_free_rem.
  - intros d. apply (timely_thread d t); [done|by apply (Htm tm)|auto].
Qed.

Lemma suspend_error k t th :
  s_threads (k_sched k) !! t = Some th -> ~ active th -> rt_thread_suspend t k = Some (- RT_ERROR, k).
Proof.
  intros Et Ha. unfold rt_thread_suspend. munfold. rewrite (get_thread_run _ _ _ Et).
  unfold active in Ha. by rewrite !bool_decide_true by tauto.
Qed.

(** Ready lists after a thread was put at the end of the one of its priority. *)
Definition resumed (t : nat) (th : rt_thread) (l : list nat) (s : sched) : sched :=
  inserted t th l (set_s_queues (list_del t <$> s_queues s) s).

Lemma unlinked_ready t th s l :
  sinv None s -> s_threads s !! t = Some th -> stat_of th = RT_THREAD_SUSPEND ->
  (list_del t <$> s_queues s) !! QReady (th_current_priority th) = Some l ->
  s_queues s !! QReady (th_current_priority th) = Some l.
Proof.
  intros Hs Et Hst (l0 & E & ->)%qrem_lookup. rewrite list_del_notin; [done|].
  intros Ht. destruct (si_nodes _ _ Hs _ _ _ E Ht) as (_ & th' & E' & Htag & _).
  rewrite Et in E'. injection E' as <-. by rewrite Hst in Htag.
Qed.

Lemma inserted_thread t th l s :
  s_threads (inserted t th l s) =
    <[t := with_stat (if bool_decide (s_current s = Some t) then RT_THREAD_RUNNING else RT_THREAD_READY) th]> (s_threads s).
Proof. unfold inserted. by case_bool_decide. Qed.

Lemma resumed_thread t th lr s u :
  s_threads (resumed t th lr s) !! u =
    if decide (u = t) then Some (with_stat (if bool_decide (s_current s = Some t) then RT_THREAD_RUNNING else RT_THREAD_READY) th)
    else s_threads s !! u.
Proof.
  unfold resumed. rewrite inserted_thread. cbn. rewrite lookup_insert. repeat case_decide; congruence.
Qed.
Lemma resumed_current t th lr s : s_current (resumed t th lr s) = s_current s.
Proof. unfold resumed, inserted. by case_bool_decide. Qed.
Lemma resumed_lock t th lr s : s_lock_nest (resumed t th lr s) = s_lock_nest s.
Proof. unfold resumed, inserted. by case_bool_decide. Qed.

Lemma resume_ok k t th :
  kinv None k -> s_threads (k_sched k) !! t = Some th -> stat_of th = RT_THREAD_SUSPEND ->
  exists l tms', let s' := resumed t th l (k_sched k) in
    s_queues (k_sched k) !! QReady (th_current_priority th) = Some l /\
    rt_thread_resume t k = Some (RT_EOK, set_k_timers tms' (set_k_sched s' k)) /\
    kinv None (set_k_timers tms' (set_k_sched s' k)) /\
    q_free (t_lists tms') (ThreadTimer t) /\ same_but (ThreadTimer t) (k_timers k) tms' /\
    (forall d, timely d (k_timers k) tms').
Proof.
  intros Hk Et Hst. pose proof (ki_sched _ _ Hk) as Hs.
  pose proof (sinv_unlink t _ th Hs Et Hst) as Hs1.
  destruct (ki_ttimer _ _ Hk t th Et) as (tm & Etm & Hok).
  destruct (stop_thread_timer t _ tm (ki_timers _ _ Hk) Etm) as (e & tms' & Es & Ht' & Hsb & Hf & Hord & Htm).
  destruct (insert_thread_ok t _ th Hs1 Et) as (l & El & Ei & Hs2).
  { apply (suspend_mask _ t th Hs Et). by rewrite Hst. }
  exists l, tms'. cbn zeta. set (s' := resumed t th l (k_sched k)). split_and!; try done.
  - by apply (unlinked_ready t th).
  - unfold rt_thread_resume. munfold. rewrite (get_thread_run _ _ _ Et). rewrite bool_decide_false by (by intros []).
    unfold kq, on_sched. munfold. rewrite q_remove_run. rewrite (on_timers_run _ _ e tms') by done.
    cbn [k_sched set_k_sched set_k_timers]. rewrite Ei. done.
  - apply (kinv_timers t k s' tms'); try done. intros u Hu. unfold s', resumed.
    rewrite inserted_thread. by rewrite lookup_insert_ne.
  - intros d. apply (timely_thread d t); [done|by apply (Htm tm)|auto].
Qed.

Lemma resume_error k t th :
  s_threads (k_sched k) !! t = Some th -> stat_of th <> RT_THREAD_SUSPEND ->
  rt_thread_resume t k = Some (- RT_ERROR, k).
Proof.
  intros Et Ha. unfold rt_thread_resume. munfold. rewrite (get_thread_run _ _ _ Et). by rewrite bool_decide_true.
Qed.

(** ** Scheduling and timers at the kernel level *)

Lemma th_sched_suspend a b : th_sched a b -> stat_of a = RT_THREAD_SUSPEND -> stat_of b = RT_THREAD_SUSPEND.
Proof.
  intros [_ [<-|[Ha _]]] Hs; [done|]. unfold active in Ha. rewrite Hs in Ha. by destruct Ha.
Qed.

Lemma frame_lookup s s' t th :
  sched_frame s s' -> s_threads s !! t = Some th -> exists th', s_threads s' !! t = Some th' /\ th_sched th th'.
Proof.
  intros Hf E. pose proof (sf_threads _ _ Hf t) as Ht. rewrite E in Ht. inversion Ht; subst. eauto.
Qed.
Lemma frame_lookup_inv s s' t th' :
  sched_frame s s' -> s_threads s' !! t = Some th' -> exists th, s_threads s !! t = Some th /\ th_sched th th'.
Proof.
  intros Hf E. pose proof (sf_threads _ _ Hf t) as Ht. rewrite E in Ht. inversion Ht; subst. eauto.
Qed.

Lemma kinv_frame k s' :
  kinv None k -> sinv None s' -> sched_frame (k_sched k) s' -> kinv None (set_k_sched s' k).
Proof.
  intros [] Hs Hf. split; cbn; try done.
  - intros t th' E. destruct (frame_lookup_inv _ _ _ _ Hf E) as (th & Et & _). by eapply ki_ttimer0.
  - intros h l t El Hin. destruct (ki_wait0 h l t El Hin) as (_ & th & Et & Hst). split; [done|].
    destruct (frame_lookup _ _ _ _ Hf Et) as (th' & Et' & Hth). exists th'. split; [done|]. by eapply th_sched_suspend.
Qed.

(** Fields of a control block that the invariant does not mention. *)
Lemma kinv_touch k t th th' :
  kinv None k -> s_threads (k_sched k) !! t = Some th -> th_same th th' ->
  kinv None (set_k_sched (set_s_threads (<[t := th']> (s_threads (k_sched k))) (k_sched k)) k).
Proof.
  intros [] Et Hs. split; cbn; try done.
  - by apply (sinv_touch None _ t th).
  - intros u thu. rewrite lookup_insert. case_decide; [|apply ki_ttimer0]. subst u. intros _. by apply (ki_ttimer0 t th).
  - intros h l u El Hin. destruct (ki_wait0 h l u El Hin) as (_ & thu & Eu & Hst). split; [done|].
    rewrite lookup_insert. case_decide; [|by exists thu]. subst u. exists th'. split; [done|].
    rewrite Et in Eu. injection Eu as <-. by destruct Hs as [-> _].
Qed.

Lemma kschedule_ok k c :
  kinv None k -> s_current (k_sched k) = Some c ->
  exists s', on_sched rt_schedule k = Some (tt, set_k_sched s' k) /\
    kinv None (set_k_sched s' k) /\ schedule_post (k_sched k) s'.
Proof.
  intros Hk Hc. destruct (schedule_ok _ c (ki_sched _ _ Hk) Hc) as (s' & E & Hp). exists s'.
  rewrite (on_sched_run _ _ _ _ E). split; [done|]. split; [|done]. destruct Hp as (Hs' & Hf & _).
  by apply kinv_frame.
Qed.

(** Arming a timer: the timer of a thread only while that thread is suspended. *)
Lemma kinv_arm k n tm l l1 l2 :
  kinv None k -> t_timers (k_timers k) !! n = Some tm ->
  t_lists (k_timers k) !! timer_list_of (tm_flag tm) = Some l -> list_del n l = l1 ++ l2 ->
  tinv (armed n tm l1 l2 (k_timers k)) ->
  (forall t, n = ThreadTimer t -> exists th, s_threads (k_sched k) !! t = Some th /\ stat_of th = RT_THREAD_SUSPEND) ->
  kinv None (set_k_timers (armed n tm l1 l2 (k_timers k)) k).
Proof.
  intros [] En El Hl Hinv Hth. destruct (armed_same_but n tm l l1 l2 (k_timers k) El Hl) as (_ & Hm & _ & Hls).
  split; cbn [k_sched k_timers set_k_timers]; try done.
  - intros t th E. destruct (ki_ttimer0 t th E) as (tm0 & E0 & Hok). destruct (decide (n = ThreadTimer t)) as [->|Hne].
    + rewrite En in E0. injection E0 as <-. eexists. split; [apply lookup_insert_eq|].
      destruct Hok as (Hf & H1 & H2). split_and!; [done|..];
        cbn [tm_flag armed_timer timer_set_flag timer_clear_flag set_tm_flag set_tm_timeout_tick];
        rewrite Z.lor_spec, Z.land_spec; rewrite ?H1, ?H2; done.
    + exists tm0. rewrite Hm by congruence. done.
  - intros h l0 t E0 Hin. destruct (decide (n = ThreadTimer t)) as [->|Hne].
    + split; [done|]. by apply Hth.
    + destruct (proj1 (Hls h (ThreadTimer t) ltac:(congruence))) as (l3 & E3 & Hin3); [eauto|]. by apply (ki_wait0 h l3).
  - intros m tmm. destruct (decide (n = UserTimer m)) as [->|Hne].
    + cbn. rewrite lookup_insert_eq. intros [= <-]. by apply (ki_user0 m tm).
    + rewrite Hm by congruence. apply ki_user0.
Qed.

Lemma hard_flag tm : Z.testbit (tm_flag tm) 2 = false <-> Z.land (tm_flag tm) RT_TIMER_FLAG_SOFT_TIMER = 0.
Proof.
  pose proof (list_of_flag_testbit (tm_flag tm)) as E. unfold timer_list_of in E.
  case_bool_decide; destruct (Z.testbit (tm_flag tm) 2); naive_solver.
Qed.

Lemma armed_bit now tm i : i <> 0 -> 0 <= i -> Z.testbit (tm_flag (armed_timer now tm)) i = Z.testbit (tm_flag tm) i.
Proof.
  intros Hi Hp. cbn [tm_flag armed_timer timer_set_flag timer_clear_flag set_tm_flag set_tm_timeout_tick].
  unfold RT_TIMER_FLAG_ACTIVATED. rewrite Z.lor_spec, Z.land_spec, Z.lnot_spec by lia.
  change 1 with (2 ^ 0). rewrite testbit_pow2 by lia. rewrite bool_decide_false by congruence.
  by rewrite andb_true_r, orb_false_r.
Qed.

Lemma timer_start_run k n tm l1 l2 :
  rt_timer_arm n (k_timers k) = Some (tt, armed n tm l1 l2 (k_timers k)) -> Z.testbit (tm_flag tm) 2 = false ->
  rt_timer_start n k = Some (RT_EOK, set_k_timers (armed n tm l1 l2 (k_timers k)) k).
Proof.
  intros E Hh. unfold rt_timer_start. munfold. rewrite (on_timers_run _ _ _ _ E).
  erewrite on_timers_run by (apply rd_timer_run; apply lookup_insert_eq).
  rewrite bool_decide_false; [by destruct k|]. intros Hs. apply Hs. apply hard_flag.
  by rewrite armed_bit.
Qed.

(** rt_timer_start of a hard timer. *)
Lemma timer_start_hard k n tm :
  kinv None k -> t_timers (k_timers k) !! n = Some tm -> Z.testbit (tm_flag tm) 2 = false ->
  (forall t, n = ThreadTimer t -> exists th, s_threads (k_sched k) !! t = Some th /\ stat_of th = RT_THREAD_SUSPEND) ->
  exists l l1 l2, t_lists (k_timers k) !! TLHard = Some l /\ list_del n l = l1 ++ l2 /\
    rt_timer_start n k = Some (RT_EOK, set_k_timers (armed n tm l1 l2 (k_timers k)) k) /\
    kinv None (set_k_timers (armed n tm l1 l2 (k_timers k)) k).
Proof.
  intros Hk En Hh Hth. destruct (arm_ok n _ tm (ki_timers _ _ Hk) En) as (l & l1 & l2 & El & Hl & E & Hinv).
  assert (Etl : timer_list_of (tm_flag tm) = TLHard) by (by rewrite list_of_flag_testbit, Hh).
  exists l, l1, l2. rewrite Etl in El.
  split_and!; try done; [by apply timer_start_run|by apply (kinv_arm k n tm l); rewrite ?Etl].
Qed.

(** rt_thread_timeout, called when the expired timer has left its list. *)
Lemma timeout_ok k t th c :
  kinv None k -> s_threads (k_sched k) !! t = Some th -> stat_of th = RT_THREAD_SUSPEND ->
  q_free (t_lists (k_timers k)) (ThreadTimer t) -> s_current (k_sched k) = Some c ->
  exists l s', let s1 := resumed t (set_th_error (- RT_ETIMEOUT) th) l (k_sched k) in
    s_queues (k_sched k) !! QReady (th_current_priority th) = Some l /\ kinv None (set_k_sched s1 k) /\
    rt_thread_timeout t k = Some (tt, set_k_sched s' k) /\
    kinv None (set_k_sched s' k) /\ schedule_post s1 s'.
Proof.
  intros Hk Et Hst Hf Hc. pose proof (ki_sched _ _ Hk) as Hs.
  set (th1 := set_th_error (- RT_ETIMEOUT) th).
  pose proof (sinv_unlink t _ th Hs Et Hst) as Hs1.
  assert (Hs2 : sinv (Some t) (set_s_threads (<[t := th1]> (s_threads (k_sched k))) (set_s_queues (list_del t <$> s_queues (k_sched k)) (k_sched k)))).
  { apply (sinv_set_thread t _ th _ Hs1 Et). apply (si_prio _ _ Hs t th Et). }
  destruct (insert_thread_ok t _ th1 Hs2 (lookup_insert_eq _ _ _)) as (l & El & Ei & Hs3).
  { apply (suspend_mask _ t th Hs Et). by rewrite Hst. }
  assert (Esame : resumed t th1 l (k_sched k) = inserted t th1 l (set_s_threads (<[t := th1]> (s_threads (k_sched k))) (set_s_queues (list_del t <$> s_queues (k_sched k)) (k_sched k)))).
  { unfold resumed, inserted. cbn. case_bool_decide; by rewrite insert_insert_eq. }
  rewrite <- Esame in Ei, Hs3. set (s1 := resumed t th1 l (k_sched k)) in *.
  assert (Hk1 : kinv None (set_k_sched s1 k)).
  { replace (set_k_sched s1 k) with (set_k_timers (k_timers k) (set_k_sched s1 k)) by (by destruct k).
    apply (kinv_timers t k); try done; [apply (ki_timers _ _ Hk)| |by eauto].
    intros u Hu. unfold s1, resumed. rewrite inserted_thread. by rewrite lookup_insert_ne. }
  assert (Hc1 : s_current s1 = Some c) by (unfold s1, resumed, inserted; cbn; by case_bool_decide).
  destruct (kschedule_ok _ c Hk1 Hc1) as (s' & E & Hk' & Hp). exists l, s'. cbn zeta. split_and!; try done.
  - by apply (unlinked_ready t th).
  - unfold rt_thread_timeout. munfold. rewrite (set_thread_run _ _ _ _ Et). unfold kq.
    rewrite (on_sched_run (sq (q_remove t)) _ tt _ (q_remove_run _ t)).
    erewrite (on_sched_run (rt_schedule_insert_thread t)) by exact Ei. exact E.
Qed.

(** ** The timer interrupt *)

Definition due_now (tms : timers) (n : timer_id) : Prop :=
  match t_timers tms !! n with Some tm => timer_due (t_tick tms) tm = true | None => False end.
#[global] Instance due_now_dec tms n : Decision (due_now tms n).
Proof. unfold due_now. destruct (t_timers tms !! n); apply _. Defined.

Definition hard_list (tms : timers) : list timer_id := default [] (t_lists tms !! TLHard).
(** The number of expired timers in the hard list: the measure of rt_timer_check. *)
Definition ndue (tms : timers) : nat := length (filter (due_now tms) (hard_list tms)).

(** What rt_timer_check relies on: the lists are sorted seen from [base], which
    for the hard list is at most one tick ago, and the period of a periodic hard
    timer is positive and below half the tick range. *)
Record tick_inv (base : tlhead -> Z) (k : kernel) : Prop := {
  tk_kinv : kinv None k;
  tk_cur : is_Some (s_current (k_sched k));
  tk_sorted : tsorted base (k_timers k);
  tk_period : periods (k_timers k);
  tk_now : u32 (t_tick (k_timers k) - base TLHard) <= 1;
}.

(** A thread whose timeout has come, and one that is ready or running. *)
Definition expiring (k : kernel) (t : nat) : Prop :=
  ThreadTimer t ∈ hard_list (k_timers k) /\ due_now (k_timers k) (ThreadTimer t).
Definition awake (k : kernel) (t : nat) : Prop := exists th, s_threads (k_sched k) !! t = Some th /\ active th.

(** What a timeout function of the application promises to the kernel: it keeps
    the invariant, does not change the tick, arms no timer that is already due,
    does not start the timer it is called for, suspends no other thread and
    cancels no timeout that has come except by waking the thread. *)
Class TimeoutSpec (base : tlhead -> Z) (user_timeout : nat -> M kernel unit) : Prop := {
  timeout_spec : forall m k, tick_inv base k -> exists k', user_timeout m k = Some (tt, k') /\ tick_inv base k' /\
    t_tick (k_timers k') = t_tick (k_timers k) /\ (ndue (k_timers k') <= ndue (k_timers k))%nat /\
    forall n tm, t_timers (k_timers k) !! n = Some tm -> tm_func tm = TF_user m ->
      q_free (t_lists (k_timers k)) n -> Z.testbit (tm_flag tm) 2 = false ->
      exists tm', t_timers (k_timers k') !! n = Some tm' /\ q_free (t_lists (k_timers k')) n /\
        tm_func tm' = TF_user m /\ Z.testbit (tm_flag tm') 2 = false;
  timeout_awake : forall m k k', tick_inv base k -> user_timeout m k = Some (tt, k') ->
    (forall t, awake k t -> awake k' t) /\ (forall t, expiring k t -> expiring k' t \/ awake k' t);
}.

Lemma awake_frame k s' t : sched_frame (k_sched k) s' -> awake k t -> awake (set_k_sched s' k) t.
Proof.
  intros Hf (th & Et & Ha). destruct (frame_lookup _ _ _ _ Hf Et) as (th' & Et' & _ & Hs). exists th'. split; [done|].
  unfold active in *. destruct Hs as [<-|[_ ?]]; done.
Qed.

Lemma due_now_ext tms tms' n :
  t_timers tms' !! n = t_timers tms !! n -> t_tick tms' = t_tick tms -> due_now tms' n <-> due_now tms n.
Proof. intros E1 E2. unfold due_now. by rewrite E1, E2. Qed.

Lemma filter_due_ext tms tms' (l : list timer_id) :
  (forall n, n ∈ l -> due_now tms' n <-> due_now tms n) -> filter (due_now tms') l = filter (due_now tms) l.
Proof.
  induction l as [|n l IH]; intros H; [done|]. rewrite !filter_cons, IH by set_solver.
  specialize (H n ltac:(set_solver)). repeat case_decide; tauto.
Qed.

(** Seen from [base], a timer of the window is due when its offset has passed. *)
Lemma due_offset base tms n tm :
  t_timers tms !! n = Some tm -> off base (t_timers tms) n < HALF -> u32 (t_tick tms - base) < HALF ->
  due_now tms n <-> off base (t_timers tms) n <= u32 (t_tick tms - base).
Proof.
  intros En Ho Ht. unfold due_now, off in *. rewrite En in *. unfold timer_due. rewrite bool_decide_eq_true, HALF_eq.
  by apply tick_compare.
Qed.

(** A timer just armed with a positive delay is not due. *)
Lemma armed_not_due now tm :
  0 < tm_init_tick tm < HALF -> 0 <= now < 2 ^ 32 -> timer_due now (armed_timer now tm) = false.
Proof.
  intros Hi Hn. unfold timer_due. apply bool_decide_eq_false. rewrite HALF_eq. cbn [tm_timeout_tick armed_timer timer_set_flag timer_clear_flag set_tm_flag set_tm_timeout_tick].
  unfold wrap, HALF in *. rewrite Zminus_mod_idemp_r. change (2 ^ 32) with 4294967296 in *.
  replace (now - (now + tm_init_tick tm)) with (- tm_init_tick tm) by lia.
  rewrite <- (Z.mod_add (- tm_init_tick tm) 1) by lia. rewrite Z.mod_small by lia. lia.
Qed.

Lemma hard_list_eq tms l : t_lists tms !! TLHard = Some l -> hard_list tms = l.
Proof. intros E. unfold hard_list. by rewrite E. Qed.

(** Unlinking the first, due timer. *)
Lemma ndue_remove tms n l :
  tinv tms -> t_lists tms !! TLHard = Some (n :: l) -> due_now tms n -> ndue tms = S (ndue (tremoved n tms)).
Proof.
  intros Ht El Hd. unfold ndue. rewrite (hard_list_eq _ _ El).
  rewrite (hard_list_eq (tremoved n tms) l).
  2: { cbn. rewrite lookup_fmap, El. cbn. f_equal. apply list_del_head. by apply (proj1 (ti_wf _ Ht) TLHard). }
  rewrite filter_cons, decide_True by done. cbn. f_equal.
Qed.

Lemma kinv_removed k n : kinv None k -> kinv None (set_k_timers (tremoved n (k_timers k)) k).
Proof.
  intros []. split; cbn; try done; [by apply tinv_removed|].
  intros h l t (l0 & E & ->)%tremoved_lookup [Hin _]%elem_of_list_del. by apply (ki_wait0 h l0).
Qed.
Lemma tick_inv_removed base k n :
  tick_inv base k -> tick_inv base (set_k_timers (tremoved n (k_timers k)) k).
Proof. intros []. split; cbn; try done; [by apply kinv_removed|by apply tsorted_removed]. Qed.

(** Clearing the activated flag of an unlisted timer. *)
Lemma kinv_clear k n tm :
  kinv None k -> t_timers (k_timers k) !! n = Some tm -> q_free (t_lists (k_timers k)) n ->
  kinv None (set_k_timers (set_t_timers (<[n := timer_clear_flag RT_TIMER_FLAG_ACTIVATED tm]> (t_timers (k_timers k))) (k_timers k)) k).
Proof.
  intros [] En Hf. split; cbn; try done.
  - apply tinv_set_timer; try done. destruct (ti_range _ ki_timers0 n tm En) as (? & ? & ?).
    split; [done|]. split; [done|]. by apply clear_flag_nonneg.
  - intros t th E. destruct (ki_ttimer0 t th E) as (tm0 & E0 & Hok). rewrite lookup_insert. case_decide; [|by exists tm0].
    subst n. rewrite En in E0. injection E0 as <-. eexists. split; [done|]. by apply stopped_timer_ok.
  - intros m tmm. rewrite lookup_insert. case_decide; [|apply ki_user0]. subst n. intros [= <-]. by apply (ki_user0 m tm).
Qed.
Lemma tick_inv_clear base k n tm :
  tick_inv base k -> t_timers (k_timers k) !! n = Some tm -> q_free (t_lists (k_timers k)) n ->
  tick_inv base (set_k_timers (set_t_timers (<[n := timer_clear_flag RT_TIMER_FLAG_ACTIVATED tm]> (t_timers (k_timers k))) (k_timers k)) k).
Proof.
  intros [Hk ? ? Hper ?] En Hf. split; cbn [k_sched k_timers set_k_timers t_timers t_lists t_tick set_t_timers]; try done.
  - by apply kinv_clear.
  - by apply tsorted_set_timer.
  - intros a tma. cbn [t_timers set_t_timers]. rewrite lookup_insert. case_decide; [|apply Hper]. subst a. intros [= <-]. cbn [tm_flag timer_clear_flag set_tm_flag].
    rewrite !Z.land_spec. intros [Hb _]%andb_prop. rewrite andb_true_r. intros Hh. by apply (Hper n tm).
Qed.

Lemma land_bit1 f : Z.land f RT_TIMER_FLAG_PERIODIC <> 0 <-> Z.testbit f 1 = true.
Proof.
  unfold RT_TIMER_FLAG_PERIODIC. change 2 with (2 ^ 1). split.
  - intros Hne. destruct (Z.testbit f 1) eqn:E; [done|]. destruct Hne. apply Z.bits_inj'. intros i Hi.
    rewrite Z.land_spec, testbit_pow2, Z.bits_0 by lia. case_bool_decide; [subst; by rewrite E|by rewrite andb_false_r].
  - intros E Hz. assert (Hb : Z.testbit (Z.land f (2 ^ 1)) 1 = false) by (by rewrite Hz).
    by rewrite Z.land_spec, E in Hb.
Qed.

(** Arming a periodic timer keeps the number of due timers. *)
Lemma ndue_armed tms n tm l l1 l2 :
  t_lists tms !! TLHard = Some l -> timer_list_of (tm_flag tm) = TLHard -> n ∉ l -> l = l1 ++ l2 ->
  timer_due (t_tick tms) (armed_timer (t_tick tms) tm) = false ->
  ndue (armed n tm l1 l2 tms) = ndue tms.
Proof.
  intros El Etl Hn Hl Hd. unfold ndue. rewrite (hard_list_eq tms l El).
  rewrite (hard_list_eq (armed n tm l1 l2 tms) (l1 ++ n :: l2)) by (cbn; rewrite Etl; apply lookup_insert_eq).
  rewrite Hl, !filter_app, filter_cons, decide_False.
  2: { unfold due_now. cbn [t_timers t_tick armed set_t_lists set_t_timers set_t_random]. by rewrite lookup_insert_eq, Hd. }
  rewrite Hl in Hn. rewrite (filter_due_ext tms _ l1), (filter_due_ext tms _ l2); [done| |];
    intros a Ha; apply due_now_ext; try done; cbn; apply lookup_insert_ne; intros ->; set_solver.
Qed.

Lemma rearm_ok base k n tm :
  tick_inv base k -> t_timers (k_timers k) !! n = Some tm -> q_free (t_lists (k_timers k)) n ->
  Z.testbit (tm_flag tm) 2 = false -> (forall t, n = ThreadTimer t -> Z.testbit (tm_flag tm) 1 = false) ->
  exists k', timer_rearm n k = Some (tt, k') /\ tick_inv base k' /\
    t_tick (k_timers k') = t_tick (k_timers k) /\ ndue (k_timers k') = ndue (k_timers k) /\
    k' = set_k_timers (k_timers k') k /\ (forall t, expiring k t -> expiring k' t).
Proof.
  intros Hk En Hf Hsoft Hthr. pose proof (tick_inv_clear base k n tm Hk En Hf) as Hk1.
  set (tm1 := timer_clear_flag RT_TIMER_FLAG_ACTIVATED tm) in *.
  set (k1 := set_k_timers _ k) in *.
  assert (Hd1 : ndue (k_timers k1) = ndue (k_timers k)).
  { unfold ndue. change (hard_list (k_timers k1)) with (hard_list (k_timers k)). f_equal. apply filter_due_ext.
    intros a Ha. unfold due_now. cbn. rewrite lookup_insert. case_decide; [|done]. subst a. by rewrite En. }
  assert (He1 : forall t, expiring k t -> expiring k1 t).
  { intros t [Hin Hd]. split; [done|]. revert Hd. unfold due_now. cbn. rewrite lookup_insert. case_decide as Hd; [|done].
    rewrite <- Hd. by rewrite En. }
  unfold timer_rearm. munfold. rewrite (on_timers_run _ _ _ _ (rd_timer_run _ _ _ En)), set_timers_id.
  rewrite (on_timers_run _ _ _ _ (upd_timer_run _ _ _ _ En)). fold tm1. fold k1.
  destruct (bool_decide _ && bool_decide _) eqn:Eb; [|exists k1; by split_and!].
  apply andb_prop in Eb as [Eb%bool_decide_eq_true _]. apply land_bit1 in Eb.
  pose proof (tk_period _ _ Hk n tm En Eb Hsoft) as Hi. pose proof (tk_now _ _ Hk) as Hw.
  assert (E1 : t_timers (k_timers k1) !! n = Some tm1) by apply lookup_insert_eq.
  assert (H12 : Z.testbit (tm_flag tm1) 2 = false).
  { unfold tm1. cbn [tm_flag timer_clear_flag set_tm_flag]. by rewrite Z.land_spec, Hsoft. }
  assert (Etl : timer_list_of (tm_flag tm1) = TLHard) by (by rewrite list_of_flag_testbit, H12).
  destruct (arm_sorted base n (k_timers k1) tm1 (ki_timers _ _ (tk_kinv _ _ Hk1)) (tk_sorted _ _ Hk1) E1)
    as (l & l1 & l2 & El & Hl & Ea & Hinv & Hso & _); [rewrite Etl; cbn in *; lia|].
  pose proof (timer_start_run k1 n tm1 l1 l2 Ea H12) as Es.
  assert (Hk2 : kinv None (set_k_timers (armed n tm1 l1 l2 (k_timers k1)) k1)).
  { apply (kinv_arm k1 n tm1 l); try done; [apply (tk_kinv _ _ Hk1)|]. intros t ->. specialize (Hthr t eq_refl). congruence. }
  rewrite Etl in El.
  assert (Hn : n ∉ l) by (by apply (Hf TLHard)).
  rewrite Es. eexists. split; [done|]. split; [|split; [done|split; [|split; [done|]]]].
  - split; [done|by apply (tk_cur _ _ Hk)|done| |apply (tk_now _ _ Hk)].
    intros a tma. cbn [k_timers set_k_timers t_timers armed set_t_lists set_t_timers].
    rewrite lookup_insert. case_decide; [|apply (tk_period _ _ Hk1)]. subst a. intros [= <-] _ _. done.
  - rewrite <- Hd1. cbn [k_timers set_k_timers].
    apply (ndue_armed _ n tm1 l); try done; [by rewrite <- Hl, list_del_notin|].
    apply armed_not_due; [cbn; lia|apply (ti_tick _ (ki_timers _ _ (tk_kinv _ _ Hk1)))].
  - intros t Hx. destruct (He1 t Hx) as [Hin Hd]. rewrite (hard_list_eq _ _ El) in Hin.
    assert (Hne : n <> ThreadTimer t) by (by intros ->). split; cbn [k_timers set_k_timers].
    + rewrite (hard_list_eq _ (l1 ++ n :: l2)) by (cbn [t_lists armed set_t_lists]; rewrite Etl; apply lookup_insert_eq).
      rewrite list_del_notin in Hl by done. rewrite Hl in Hin. apply elem_of_app in Hin as [?|?]; apply elem_of_app; [by left|right].
      apply elem_of_cons. by right.
    + revert Hd. unfold due_now. cbn [t_timers t_tick armed set_t_lists set_t_timers set_t_random]. by rewrite lookup_insert_ne.
Qed.

(** The timeout function of a fired timer. *)
Lemma fire_ok base ut k n l tm :
  TimeoutSpec base ut -> tick_inv base k -> t_lists (k_timers k) !! TLHard = Some (n :: l) ->
  t_timers (k_timers k) !! n = Some tm ->
  let k1 := set_k_timers (tremoved n (k_timers k)) k in
  exists k2 tm2, call_timeout ut (tm_func tm) k1 = Some (tt, k2) /\ tick_inv base k2 /\
    t_tick (k_timers k2) = t_tick (k_timers k) /\ (ndue (k_timers k2) <= ndue (k_timers k1))%nat /\
    t_timers (k_timers k2) !! n = Some tm2 /\ q_free (t_lists (k_timers k2)) n /\
    Z.testbit (tm_flag tm2) 2 = false /\ (forall t, n = ThreadTimer t -> Z.testbit (tm_flag tm2) 1 = false) /\
    (forall t, awake k t -> awake k2 t) /\ (forall t, expiring k t -> expiring k2 t \/ awake k2 t).
Proof.
  intros Hut Hk El En k1. pose proof (tick_inv_removed base k n Hk) as Hk1. fold k1 in Hk1.
  pose proof (tk_kinv _ _ Hk) as Hki. pose proof (tremoved_free n (k_timers k)) as Hf.
  destruct (ti_nodes _ (ki_timers _ _ Hki) _ _ n El ltac:(set_solver)) as (tm' & E' & _ & Hhard).
  rewrite En in E'. injection E' as <-.
  assert (Hbit : Z.testbit (tm_flag tm) 2 = false).
  { rewrite list_of_flag_testbit in Hhard. by destruct (Z.testbit _ 2). }
  assert (Hx1 : forall t, expiring k t -> n <> ThreadTimer t -> expiring k1 t).
  { intros t [Hin Hd] Hne. split; [|done]. rewrite (hard_list_eq _ _ El) in Hin. cbn [k_timers set_k_timers k1].
    rewrite (hard_list_eq _ (list_del n (n :: l))) by (cbn; by rewrite lookup_fmap, El). by apply elem_of_list_del. }
  destruct n as [t|m].
  - destruct (ki_wait _ _ Hki _ _ t El ltac:(set_solver)) as (_ & th & Et & Hst).
    destruct (ki_ttimer _ _ Hki t th Et) as (tm0 & E0 & Hok). rewrite En in E0. injection E0 as <-.
    destruct Hok as (Hfn & H1 & H2). destruct (tk_cur _ _ Hk) as [c Hc].
    destruct (timeout_ok k1 t th c (tk_kinv _ _ Hk1) Et Hst Hf Hc) as (l0 & s' & _ & _ & E & Hk2 & Hp).
    assert (Ha1 : forall u, u = t \/ awake k u -> awake (set_k_sched s' k1) u).
    { intros u Hu. apply (awake_frame (set_k_sched (resumed t (set_th_error (- RT_ETIMEOUT) th) l0 (k_sched k)) k1)); [apply Hp|].
      unfold awake. cbn [k_sched set_k_sched]. rewrite resumed_thread. case_decide as Hd; [|by destruct Hu].
      eexists. split; [done|]. unfold active. case_bool_decide; autorewrite with rt; auto. }
    exists (set_k_sched s' k1), tm. rewrite Hfn. cbn [call_timeout]. split_and!; try done.
    + destruct Hp as (_ & _ & Hc' & _). destruct Hk1. by split.
    + intros u Hu. apply Ha1. by right.
    + intros u Hu. destruct (decide (u = t)) as [->|Hne]; [right; apply Ha1; by left|]. left. apply Hx1; [done|congruence].
  - destruct (ki_user _ _ Hki m tm En) as [u Hu]. rewrite Hu. cbn [call_timeout].
    destruct (timeout_spec u k1 Hk1) as (k2 & E & Hk2 & Ht2 & Hd & Hown).
    destruct (Hown (UserTimer m) tm En Hu Hf Hbit) as (tm2 & E2 & Hf2 & _ & Hb2).
    destruct (timeout_awake u k1 k2 Hk1 E) as [Haw Hex].
    exists k2, tm2. split_and!; try done. intros t Ht. apply Hex, Hx1; done.
Qed.

(** In a sorted list nothing is due behind a timer that is not. *)
Lemma head_not_due base k n l tm :
  tick_inv base k -> t_lists (k_timers k) !! TLHard = Some (n :: l) -> t_timers (k_timers k) !! n = Some tm ->
  timer_due (t_tick (k_timers k)) tm = false -> forall a, a ∈ hard_list (k_timers k) -> ~ due_now (k_timers k) a.
Proof.
  intros Hk El En Hd a Ha. rewrite (hard_list_eq _ _ El) in Ha.
  destruct (tk_sorted _ _ Hk _ _ El) as [Hs Hh]. rewrite Forall_forall in Hh.
  destruct (ti_nodes _ (ki_timers _ _ (tk_kinv _ _ Hk)) _ _ a El Ha) as (tma & Ea & _).
  rewrite (due_offset (base TLHard) _ _ _ Ea) by (try apply Hh; done || (pose proof (tk_now _ _ Hk); unfold HALF; lia)).
  assert (Hn : ~ due_now (k_timers k) n) by (unfold due_now; by rewrite En, Hd).
  rewrite (due_offset (base TLHard) _ _ _ En) in Hn by (try apply Hh; set_solver || (pose proof (tk_now _ _ Hk); unfold HALF; lia)).
  apply StronglySorted_inv in Hs as [_ Hall]. apply elem_of_cons in Ha as [->|Ha]; [done|].
  rewrite Forall_forall in Hall. specialize (Hall a Ha). cbn in Hall. lia.
Qed.

Lemma check_loop_ok base ut fuel k :
  TimeoutSpec base ut -> tick_inv base k -> (ndue (k_timers k) < fuel)%nat ->
  exists k', timer_check_loop ut fuel (t_tick (k_timers k)) k = Some (true, k') /\ tick_inv base k' /\
    t_tick (k_timers k') = t_tick (k_timers k) /\
    (forall n, n ∈ hard_list (k_timers k') -> ~ due_now (k_timers k') n) /\
    (forall t, expiring k t \/ awake k t -> awake k' t).
Proof.
  intros Hut. revert k. induction fuel as [|fuel IH]; intros k Hk Hfuel; [lia|].
  pose proof (ki_timers _ _ (tk_kinv _ _ Hk)) as Hti.
  destruct (ti_heads _ Hti TLHard) as [l El]. cbn [timer_check_loop]. munfold.
  rewrite (on_timers_run _ k l (k_timers k)), set_timers_id.
  2: { unfold tq, zoom, q_list. rewrite El. by destruct (k_timers k). }
  destruct l as [|n l].
  { exists k. split_and!; try done.
    - intros n Hn. rewrite (hard_list_eq _ _ El) in Hn. by apply not_elem_of_nil in Hn.
    - intros t [[Hin _]|?]; [|done]. rewrite (hard_list_eq _ _ El) in Hin. by apply not_elem_of_nil in Hin. }
  destruct (ti_nodes _ Hti _ _ n El ltac:(set_solver)) as (tm & En & _ & _).
  rewrite (on_timers_run _ _ _ _ (rd_timer_run _ _ _ En)), set_timers_id.
  destruct (timer_due (t_tick (k_timers k)) tm) eqn:Hd.
  - rewrite (on_timers_run _ _ _ _ (tremove_run n _)).
    destruct (fire_ok base ut k n l tm Hut Hk El En) as (k2 & tm2 & E2 & Hk2 & Ht2 & Hn2 & En2 & Hf2 & Hb2 & Hp2 & Ha2 & Hx2).
    rewrite E2. unfold rt_tick_get at 1. munfold. rewrite (on_timers_run _ k2 _ _ eq_refl), set_timers_id.
    destruct (rearm_ok base k2 n tm2 Hk2 En2 Hf2 Hb2 Hp2) as (k3 & E3 & Hk3 & Ht3 & Hn3 & Es3 & Hx3). rewrite E3.
    assert (Hrem : ndue (k_timers k) = S (ndue (tremoved n (k_timers k)))).
    { apply (ndue_remove _ n l); try done. unfold due_now. by rewrite En. }
    destruct (IH k3 Hk3) as (k' & E' & Hk' & Ht' & Hpost & Haw); [cbn in Hn2; lia|].
    exists k'. rewrite <- Ht3. split_and!; try done; [congruence|].
    assert (Ha3 : forall t, awake k2 t -> awake k3 t) by (intros t; unfold awake; by rewrite Es3).
    intros t [Hx|Ha]; apply Haw; [|right; by apply Ha3, Ha2]. destruct (Hx2 t Hx) as [?|?]; [left; by apply Hx3|right; by apply Ha3].
  - pose proof (head_not_due base k n l tm Hk El En Hd) as Hnd. exists k. split_and!; try done.
    intros t [[Hin Hx]|?]; [|done]. by destruct (Hnd _ Hin).
Qed.

(** *** Rebasing at the current tick *)

Definition based (now softbase : Z) : tlhead -> Z := fun h => match h with TLHard => now | TLSoft => softbase end.

(** Between two ticks the window of the hard list starts at the current tick. *)
Definition at_rest (softbase : Z) (k : kernel) : Prop :=
  tick_inv (based (t_tick (k_timers k)) softbase) k.

Lemma off_rebase b b' m n :
  off b m n < HALF -> u32 (b' - b) < off b m n -> off b' m n = off b m n - u32 (b' - b).
Proof.
  unfold off. destruct (m !! n) as [tm|]; cycle 1.
  { intros _ Hlt. pose proof (wrap_range 32 (b' - b) ltac:(lia)). lia. }
  unfold wrap, HALF. change (2 ^ 32) with 4294967296. intros Hh Hlt.
  replace (tm_timeout_tick tm - b') with ((tm_timeout_tick tm - b) - (b' - b)) by lia.
  rewrite Zminus_mod. pose proof (Z.mod_pos_bound (b' - b) 4294967296 ltac:(lia)). apply Z.mod_small. lia.
Qed.

Lemma list_sorted_rebase b b' m l :
  list_sorted b m l -> Forall (fun n => u32 (b' - b) < off b m n) l -> list_sorted b' m l.
Proof.
  intros [Hs Hh] Hf. pose proof (wrap_range 32 (b' - b) ltac:(lia)) as Hr.
  induction l as [|n l IH]; [split; constructor|].
  apply StronglySorted_inv in Hs as [Hs Hall]. apply Forall_cons in Hh as [Hn Hh], Hf as [Hfn Hf].
  destruct (IH Hs Hh Hf) as [Hs' Hh'].
  pose proof (off_rebase b b' m n Hn Hfn) as En. split; constructor; try done; [|lia].
  rewrite Forall_forall in *. intros a Ha. rewrite En. rewrite (off_rebase b b' m a) by auto.
  specialize (Hall a Ha). cbn in Hall. lia.
Qed.

(** After a check nothing is due: the window moves to the current tick. *)
Lemma tick_inv_rebase b softbase k :
  tick_inv (based b softbase) k -> (forall n, n ∈ hard_list (k_timers k) -> ~ due_now (k_timers k) n) ->
  tick_inv (based (t_tick (k_timers k)) softbase) k.
Proof.
  intros [Hk Hc Hs Hp Hn] Hnd. split; try done.
  - intros [] l El; [|by apply (Hs TLSoft)]. cbn. apply (list_sorted_rebase b); [by apply (Hs TLHard)|].
    apply Forall_forall. intros n Hin. destruct (ti_nodes _ (ki_timers _ _ Hk) _ _ n El Hin) as (tm & En & _).
    specialize (Hnd n). rewrite (hard_list_eq _ _ El), (due_offset b _ _ _ En) in Hnd.
    + specialize (Hnd Hin). lia.
    + destruct (Hs _ _ El) as [_ Hh]. rewrite Forall_forall in Hh. by apply Hh.
    + cbn in Hn. unfold HALF. lia.
  - cbn. rewrite Z.sub_diag. done.
Qed.

(** The tick counter advances. *)
Definition ticked (k : kernel) : kernel := set_k_timers (set_t_tick (u32 (t_tick (k_timers k) + 1)) (k_timers k)) k.

Lemma ticked_inv softbase k :
  at_rest softbase k -> tick_inv (based (t_tick (k_timers k)) softbase) (ticked k).
Proof.
  intros [[] Hc Hs Hp Hn].
  assert (Hone : u32 (u32 (t_tick (k_timers k) + 1) - t_tick (k_timers k)) = 1).
  { rewrite u32_add_sub, Z.sub_diag. done. }
  split; try done.
  - destruct ki_timers0. split; cbn; try done. split; try done. cbn. apply (wrap_range 32). lia.
  - cbn [t_tick k_timers ticked set_k_timers set_t_tick based]. by rewrite Hone.
Qed.

(** ** The tick interrupt *)

Lemma tick_inv_sched base k s' :
  tick_inv base k -> sinv None s' -> sched_frame (k_sched k) s' -> is_Some (s_current s') ->
  tick_inv base (set_k_sched s' k).
Proof. intros [] Hs Hf Hc. split; try done. by apply kinv_frame. Qed.

Lemma tick_inv_touch base k t th th' :
  tick_inv base k -> s_threads (k_sched k) !! t = Some th -> th_same th th' ->
  tick_inv base (set_k_sched (set_s_threads (<[t := th']> (s_threads (k_sched k))) (k_sched k)) k).
Proof. intros [] Et Hs. split; try done. by apply (kinv_touch k t th). Qed.

Lemma stat_of_yield th : stat_of (set_th_stat (Z.lor (th_stat th) RT_THREAD_STAT_YIELD) th) = stat_of th.
Proof.
  unfold stat_of. cbn [th_stat set_th_stat]. rewrite Z.land_lor_distr_l. unfold RT_THREAD_STAT_YIELD, RT_THREAD_STAT_MASK.
  change (Z.land 8 7) with 0. apply Z.lor_0_r.
Qed.

Lemma awake_touch k t th th' :
  s_threads (k_sched k) !! t = Some th -> stat_of th' = stat_of th ->
  forall u, awake k u -> awake (set_k_sched (set_s_threads (<[t := th']> (s_threads (k_sched k))) (k_sched k)) k) u.
Proof.
  intros Et Hs u (thu & Eu & Ha). unfold awake. cbn. rewrite lookup_insert. case_decide; [|by exists thu]. subst u.
  exists th'. split; [done|]. rewrite Et in Eu. injection Eu as <-. unfold active in *. by rewrite Hs.
Qed.

(** What the time slice leaves alone: everything but the scheduler, and in it all lists but
    the ready lists and what the threads wait for. *)
Record sliced (k k' : kernel) : Prop := {
  sd_stores : k' = set_k_sched (k_sched k') k;
  sd_queues : forall h, (forall p, h <> QReady p) -> s_queues (k_sched k') !! h = s_queues (k_sched k) !! h;
  sd_threads : forall u th, s_threads (k_sched k) !! u = Some th -> exists th', s_threads (k_sched k') !! u = Some th' /\
    th_event_info th' = th_event_info th /\ th_event_set th' = th_event_set th;
}.
#[global] Instance sliced_trans : Transitive sliced.
Proof.
  intros k1 k2 k3 [S1 Q1 T1] [S2 Q2 T2]. split.
  - rewrite S2, S1. done.
  - intros h Hh. by rewrite Q2, Q1.
  - intros u th Et. destruct (T1 u th Et) as (th2 & Et2 & H1 & H2). destruct (T2 u th2 Et2) as (th3 & Et3 & H3 & H4). exists th3. split; [done|]. split; congruence.
Qed.
Lemma sliced_touch k t th th' :
  s_threads (k_sched k) !! t = Some th -> th_event_info th' = th_event_info th -> th_event_set th' = th_event_set th ->
  sliced k (set_k_sched (set_s_threads (<[t := th']> (s_threads (k_sched k))) (k_sched k)) k).
Proof.
  intros Et Hi Hs. split; try done. intros u thu Eu. cbn. rewrite lookup_insert. case_decide as Hd; [|by exists thu].
  subst u. rewrite Et in Eu. injection Eu as <-. by exists th'.
Qed.
Lemma sliced_frame k s' : sched_frame (k_sched k) s' -> sliced k (set_k_sched s' k).
Proof.
  intros Hf. split; [done|intros h Hh; by apply (sf_queues _ _ Hf)|]. intros u th Et.
  destruct (frame_lookup _ _ _ _ Hf Et) as (th' & Et' & E & _). exists th'. split; [done|].
  split; [by apply (f_equal th_event_info) in E|by apply (f_equal th_event_set) in E].
Qed.

Lemma tick_slice_ok base k t :
  tick_inv base k -> s_current (k_sched k) = Some t ->
  exists k', tick_slice t k = Some (tt, k') /\ tick_inv base k' /\ k_timers k' = k_timers k /\
    (forall u, awake k u -> awake k' u) /\ sliced k k'.
Proof.
  intros Hk Hc. destruct (si_cur _ _ (ki_sched _ _ (tk_kinv _ _ Hk)) t Hc) as (th & Et & _).
  unfold tick_slice. munfold. rewrite (set_thread_run _ _ _ _ Et).
  set (th1 := set_th_remaining_tick _ th).
  pose proof (tick_inv_touch base k t th th1 Hk Et ltac:(done)) as Hk1. set (k1 := set_k_sched _ k) in *.
  assert (E1 : s_threads (k_sched k1) !! t = Some th1) by apply lookup_insert_eq.
  pose proof (awake_touch k t th th1 Et eq_refl) as Ha1. fold k1 in Ha1.
  pose proof (sliced_touch k t th th1 Et eq_refl eq_refl) as Hsl1. fold k1 in Hsl1.
  rewrite (get_thread_run _ _ _ E1). case_bool_decide; [|by exists k1].
  rewrite (set_thread_run _ _ _ _ E1). set (th2 := set_th_remaining_tick _ th1).
  pose proof (tick_inv_touch base k1 t th1 th2 Hk1 E1 ltac:(done)) as Hk2. set (k2 := set_k_sched _ k1) in *.
  assert (E2 : s_threads (k_sched k2) !! t = Some th2) by apply lookup_insert_eq.
  rewrite (set_thread_run _ _ _ _ E2). set (th3 := set_th_stat _ th2).
  assert (Hs3 : th_same th2 th3) by (split_and!; [apply stat_of_yield|done..]).
  pose proof (tick_inv_touch base k2 t th2 th3 Hk2 E2 Hs3) as Hk3. set (k3 := set_k_sched _ k2) in *.
  destruct (kschedule_ok k3 t (tk_kinv _ _ Hk3) Hc) as (s' & E & Hk' & Hp).
  exists (set_k_sched s' k3). unfold rt_thread_yield. munfold. rewrite E. split; [done|].
  destruct Hp as (Hs' & Hf & [c Hc'] & _). split; [apply tick_inv_sched; [done..|by eexists]|]. split; [done|].
  split.
  - intros u Hu. apply awake_frame; [done|]. apply (awake_touch k2 t th2 th3 E2 (stat_of_yield th2)).
    apply (awake_touch k1 t th1 th2 E1 eq_refl). by apply Ha1.
  - etransitivity; [exact Hsl1|]. etransitivity; [by apply (sliced_touch k1 t th1 th2 E1)|].
    etransitivity; [by apply (sliced_touch k2 t th2 th3 E2)|]. by apply sliced_frame.
Qed.

(** The tick interrupt rt_tick_increase terminates (a fuel of one more than the
    number of timers that come due suffices), advances the tick by one with
    wrap-around, wakes every thread whose timeout has come and leaves no expired
    timer in the list; the kernel is again in the state it was in between two
    ticks.  The timeout functions of application timers are arbitrary ones that
    keep the promises of [TimeoutSpec]. *)
Lemma tick_increase_ok softbase ut k fuel :
  (forall base, TimeoutSpec base ut) -> at_rest softbase k ->
  (ndue (k_timers (ticked k)) < fuel)%nat ->
  exists k', rt_tick_increase ut fuel k = Some (true, k') /\
    at_rest softbase k' /\ t_tick (k_timers k') = u32 (t_tick (k_timers k) + 1) /\
    (forall n, n ∈ hard_list (k_timers k') -> ~ due_now (k_timers k') n) /\
    (forall t, expiring (ticked k) t \/ awake k t -> awake k' t).
Proof.
  intros Hut Hk Hfuel. pose proof (ticked_inv softbase k Hk) as Hk1.
  destruct (tk_cur _ _ Hk1) as [t Hc]. destruct (tick_slice_ok _ _ t Hk1 Hc) as (k2 & E2 & Hk2 & Et2 & Ha2 & _).
  destruct (check_loop_ok (based (t_tick (k_timers k)) softbase) ut fuel k2 (Hut _) Hk2) as (k' & E' & Hk' & Ht' & Hnd & Haw);
    [by rewrite Et2|].
  exists k'. split_and!; try done.
  - change (rt_tick_increase ut fuel k) with
      ((t ← self; tick_slice t ;; rt_timer_check ut fuel) (ticked k)).
    munfold. rewrite (self_run _ _ Hc), E2. unfold rt_timer_check, rt_tick_get. munfold.
    rewrite (on_timers_run _ k2 _ _ eq_refl), set_timers_id. done.
  - by apply (tick_inv_rebase (t_tick (k_timers k))).
  - by rewrite Ht', Et2.
  - intros u [[Hin Hd]|Hu]; apply Haw; [left; split; by rewrite Et2|right; by apply Ha2].
Qed.

(** *** Waiting with a timeout *)

(** Changing the idle timer of a thread. *)
Lemma kinv_set_thread_timer k t tm' :
  kinv None k -> q_free (t_lists (k_timers k)) (ThreadTimer t) -> tm_range tm' -> thread_timer_ok t tm' ->
  kinv None (set_k_timers (set_t_timers (<[ThreadTimer t := tm']> (t_timers (k_timers k))) (k_timers k)) k).
Proof.
  intros [] Hf Hr Hok. split; cbn; try done.
  - by apply tinv_set_timer.
  - intros u thu E. rewrite lookup_insert. case_decide as Hd; [|by apply (ki_ttimer0 u thu)]. injection Hd as <-. eauto.
  - intros m tm. rewrite lookup_insert_ne by done. apply ki_user0.
Qed.

(** rt_timer_control(SET_TIME) followed by rt_timer_start on the timer of a thread
    that has just been suspended. *)
Definition start_thread_timer (t : nat) (time : Z) : M kernel unit :=
  on_timers (rt_timer_control (ThreadTimer t) (RT_TIMER_CTRL_SET_TIME time)) ;;
  rt_timer_start (ThreadTimer t) ;; mret tt.

Definition timer_pending (t : nat) (deadline : Z) (tms : timers) : Prop :=
  exists tm l, t_timers tms !! ThreadTimer t = Some tm /\ tm_timeout_tick tm = deadline /\
    t_lists tms !! TLHard = Some l /\ ThreadTimer t ∈ l.

Lemma start_thread_timer_ok k t th time :
  kinv None k -> s_threads (k_sched k) !! t = Some th -> stat_of th = RT_THREAD_SUSPEND ->
  q_free (t_lists (k_timers k)) (ThreadTimer t) -> 0 <= time < 2 ^ 32 ->
  exists tms', start_thread_timer t time k = Some (tt, set_k_timers tms' k) /\
    kinv None (set_k_timers tms' k) /\ same_but (ThreadTimer t) (k_timers k) tms' /\
    timer_pending t (u32 (t_tick (k_timers k) + time)) tms' /\
    (forall d, d + time < HALF -> timely d (k_timers k) tms').
Proof.
  intros Hk Et Hst Hf Htime. destruct (ki_ttimer _ _ Hk t th Et) as (tm & Etm & Hok).
  destruct (ti_range _ (ki_timers _ _ Hk) _ _ Etm) as (R1 & _ & R3).
  set (tm1 := set_tm_init_tick time tm). assert (Hok1 : thread_timer_ok t tm1) by done.
  pose proof (kinv_set_thread_timer k t tm1 Hk Hf ltac:(done) Hok1) as Hk1.
  set (tms1 := set_t_timers _ _) in *. set (k1 := set_k_timers tms1 k) in *.
  assert (E1 : t_timers (k_timers k1) !! ThreadTimer t = Some tm1) by apply lookup_insert_eq.
  destruct (timer_start_hard k1 (ThreadTimer t) tm1 Hk1 E1) as (l & l1 & l2 & El & Hl & Es & Hk2).
  { by destruct Hok1 as (_ & _ & ?). }
  { intros u [= <-]. by exists th. }
  assert (Hsb : same_but (ThreadTimer t) (k_timers k) (armed (ThreadTimer t) tm1 l1 l2 tms1)).
  { apply same_but_trans with tms1.
    - split_and!; try done. cbn. intros a Ha. by rewrite lookup_insert_ne.
    - apply (armed_same_but _ tm1 l); [|done]. rewrite list_of_flag_testbit. by destruct Hok1 as (_ & _ & ->). }
  exists (armed (ThreadTimer t) tm1 l1 l2 tms1). split_and!.
  - unfold start_thread_timer, rt_timer_control. munfold.
    erewrite on_timers_run by (munfold; rewrite (upd_timer_run _ _ _ _ Etm); reflexivity).
    fold tm1. fold tms1. fold k1. rewrite Es. by destruct k.
  - exact Hk2.
  - exact Hsb.
  - exists (armed_timer (t_tick tms1) tm1), (l1 ++ ThreadTimer t :: l2). split_and!; try done.
    + apply lookup_insert_eq.
    + cbn [t_lists armed set_t_lists]. rewrite list_of_flag_testbit. destruct Hok1 as (_ & _ & ->). apply lookup_insert_eq.
    + set_solver.
  - intros d Hd. apply (timely_thread d t); [exact Hsb|apply (ki_ttimer _ _ Hk2 t th Et)|]. intros base Hw Hb.
    assert (Etl : timer_list_of (tm_flag tm1) = TLHard) by (rewrite list_of_flag_testbit; by destruct Hok1 as (_ & _ & ->)).
    destruct (arm_sorted base (ThreadTimer t) tms1 tm1 (ki_timers _ _ Hk1)) as (l' & l1' & l2' & _ & _ & Ea & _ & Hso & _);
      [by apply tsorted_set_timer|done|rewrite Etl; cbn; lia|].
    pose proof (timer_start_run k1 _ tm1 l1' l2' Ea ltac:(by destruct Hok1 as (_ & _ & ?))) as Es'.
    rewrite Es in Es'. pose proof (f_equal (fun o => default tms1 ((fun p => k_timers (snd p)) <$> o)) Es') as Heq.
    change (armed (ThreadTimer t) tm1 l1 l2 tms1 = armed (ThreadTimer t) tm1 l1' l2' tms1) in Heq. by rewrite Heq.
Qed.

(** ** Changing a priority *)

Definition with_prio (p : Z) (th : rt_thread) : rt_thread :=
  set_th_number_mask (u32 (Z.shiftl 1 p)) (set_th_current_priority p th).

Lemma shiftl_mask p : 0 <= p < 32 -> u32 (Z.shiftl 1 p) = 2 ^ p.
Proof. intros Hp. rewrite Z.shiftl_1_l. apply wrap_id. split; [lia|]. apply Z.pow_lt_mono_r; lia. Qed.

Lemma prio_ok_with p th : 0 <= p < 32 -> prio_ok (with_prio p th).
Proof. intros Hp. split; [done|left]. cbn [th_number_mask with_prio set_th_number_mask th_current_priority set_th_current_priority]. by apply shiftl_mask. Qed.

(** What rt_thread_control(CHANGE_PRIORITY) does to the scheduler. *)
Record reprioritised (t : nat) (p : Z) (s s' : sched) : Prop := {
  rp_sinv : sinv None s';
  rp_thread : forall th, s_threads s !! t = Some th -> exists th', s_threads s' !! t = Some th' /\
    stat_of th' = stat_of th /\ th_current_priority th' = p /\ th_error th' = th_error th /\
    th_event_set th' = th_event_set th /\ th_event_info th' = th_event_info th /\ th_init_priority th' = th_init_priority th;
  rp_threads : forall u, u <> t -> s_threads s' !! u = s_threads s !! u;
  rp_current : s_current s' = s_current s;
  rp_lock : s_lock_nest s' = s_lock_nest s;
  rp_waiting : forall h, (forall q, h <> QReady q) -> s_queues s' !! h = s_queues s !! h;
}.

Lemma control_prio_ok k t th p :
  kinv None k -> s_threads (k_sched k) !! t = Some th -> 0 <= p < 32 ->
  exists s', rt_thread_control t (RT_THREAD_CTRL_CHANGE_PRIORITY p) k = Some (RT_EOK, set_k_sched s' k) /\
    kinv None (set_k_sched s' k) /\ reprioritised t p (k_sched k) s'.
Proof.
  intros Hk Et Hp. pose proof (ki_sched _ _ Hk) as Hs.
  assert (Hkinv : forall s', sinv None s' -> (forall u, u <> t -> s_threads s' !! u = s_threads (k_sched k) !! u) ->
      (exists th', s_threads s' !! t = Some th' /\ stat_of th' = stat_of th) -> kinv None (set_k_sched s' k)).
  { intros s' Hs' Hu (th' & Et' & Hst). destruct Hk. split; cbn; try done.
    - intros u thu Eu. destruct (decide (u = t)) as [->|Hne]; [by apply (ki_ttimer0 t th)|].
      rewrite Hu in Eu by done. by apply (ki_ttimer0 u thu).
    - intros h l u El Hin. destruct (ki_wait0 h l u El Hin) as (_ & thu & Eu & Hw). split; [done|].
      destruct (decide (u = t)) as [->|Hne]; [|exists thu; by rewrite Hu].
      rewrite Et in Eu. injection Eu as <-. exists th'. by rewrite Hst. }
  unfold rt_thread_control. munfold. rewrite (get_thread_run _ _ _ Et). case_bool_decide as Hst.
  - destruct (remove_thread_ok t _ th Hs Et) as (g & E & Hs1). rewrite (on_sched_run _ _ _ _ E).
    set (s1 := set_s_group _ _) in *. rewrite (set_thread_run (set_k_sched s1 k) t th) by done.
    fold (with_prio p th). set (s2 := set_s_threads _ _).
    assert (Hs2 : sinv (Some t) s2) by (apply (sinv_set_thread t s1 th _ Hs1 Et); by apply prio_ok_with).
    destruct (insert_thread_ok t s2 (with_prio p th) Hs2 (lookup_insert_eq _ _ _)) as (l & El & Ei & Hs3).
    { apply (shiftl_mask p Hp). }
    erewrite (on_sched_run (rt_schedule_insert_thread t)) by exact Ei.
    assert (Hcur : s_current (k_sched k) <> Some t).
    { intros Hc. destruct (si_cur _ _ Hs t Hc) as (th' & E' & Hn). rewrite Et in E'. injection E' as <-. by apply Hn. }
    unfold inserted in *. rewrite bool_decide_false in * by done.
    match type of Hs3 with sinv None ?x => set (s3 := x) in * end. exists s3.
    assert (Hths : s_threads s3 = <[t := with_stat RT_THREAD_READY (with_prio p th)]> (s_threads (k_sched k))).
    { unfold s3, s2. cbn. by rewrite insert_insert_eq. }
    split; [done|]. split; [apply Hkinv; [done|..]|split; try done].
    + intros u Hu. rewrite Hths. by rewrite lookup_insert_ne.
    + rewrite Hths. eexists. rewrite lookup_insert_eq. split; [done|]. by rewrite stat_with_ready.
    + intros th0 E0. rewrite Et in E0. injection E0 as <-. rewrite Hths. eexists. rewrite lookup_insert_eq. split; [done|].
      split_and!; try done. by rewrite stat_with_ready.
    + intros u Hu. rewrite Hths. by rewrite lookup_insert_ne.
    + intros h Hh. cbn. rewrite lookup_insert_ne by (intros <-; by eapply Hh). rewrite lookup_fmap.
      destruct (s_queues (k_sched k) !! h) as [l0|] eqn:E0; [|done]. cbn. f_equal. apply list_del_notin.
      apply (active_not_waiting _ t th h l0 Hs Et); try done. by left.
  - rewrite (set_thread_run _ _ _ _ Et). fold (with_prio p th). eexists. split; [done|].
    assert (Hs' : sinv None (set_s_threads (<[t := with_prio p th]> (s_threads (k_sched k))) (k_sched k))).
    { apply (sinv_set_prio _ t th); try done. by apply prio_ok_with. }
    split; [apply Hkinv; [done|..]|split; try done].
    + intros u Hu. cbn. by rewrite lookup_insert_ne.
    + cbn. eexists. by rewrite lookup_insert_eq.
    + intros th0 E0. rewrite Et in E0. injection E0 as <-. cbn. eexists. by rewrite lookup_insert_eq.
    + intros u Hu. cbn. by rewrite lookup_insert_ne.
Qed.

Lemma kq_list_run h l k : s_queues (k_sched k) !! h = Some l -> kq (q_list h) k = Some (l, k).
Proof.
  intros E. unfold kq, on_sched, sq. munfold. unfold q_list. rewrite E. rewrite set_queues_id. by destruct k.
Qed.

(** ** Properties *)

(** Rescheduling after a thread was made ready. *)
Lemma resumed_runs t th l s s' :
  sinv None (resumed t th l s) -> s_lock_nest s = 0 -> schedule_post (resumed t th l s) s' ->
  exists c' thc, s_current s' = Some c' /\ s_threads s' !! c' = Some thc /\ stat_of thc = RT_THREAD_RUNNING /\ dominates s' thc.
Proof.
  intros Hs Hn (_ & _ & _ & _ & _ & _ & Hrun). apply Hrun; [by rewrite resumed_lock|].
  pose proof (resumed_thread t th l s t) as E. rewrite decide_True in E by done.
  destruct (decide (s_current s = Some t)) as [Hct|Hct].
  - right. exists t. eexists. split; [by rewrite resumed_current|]. split; [exact E|].
    rewrite bool_decide_true by done. apply stat_with_running.
  - left. intros Hg. apply (no_ready _ t _ Hs Hg E). rewrite bool_decide_false by done. apply stat_with_ready.
Qed.

(** Rt_thread_timeout, the timeout function of every thread timer, ends the wait
    of the thread: it leaves the list it waits on, carries the error code -RT_ETIMEOUT
    and is ready or running, and the highest ready priority runs afterwards. *)
Theorem thread_timeout_wakes k t th c :
  kinv None k -> s_threads (k_sched k) !! t = Some th -> stat_of th = RT_THREAD_SUSPEND ->
  q_free (t_lists (k_timers k)) (ThreadTimer t) -> s_current (k_sched k) = Some c ->
  exists k' th', rt_thread_timeout t k = Some (tt, k') /\ kinv None k' /\
    s_threads (k_sched k') !! t = Some th' /\ active th' /\ th_error th' = - RT_ETIMEOUT /\
    (forall h l, (forall p, h <> QReady p) -> s_queues (k_sched k') !! h = Some l -> t ∉ l) /\
    (s_lock_nest (k_sched k) = 0 -> exists c' thc, s_current (k_sched k') = Some c' /\
       s_threads (k_sched k') !! c' = Some thc /\ stat_of thc = RT_THREAD_RUNNING /\ dominates (k_sched k') thc).
Proof.
  intros Hk Et Hst Hf Hc. destruct (timeout_ok k t th c Hk Et Hst Hf Hc) as (l & s' & El & Hk1 & E & Hk' & Hpost). pose proof Hpost as (Hs' & Hfr & _).
  set (s1 := resumed t _ l (k_sched k)) in *. set (th1 := set_th_error (- RT_ETIMEOUT) th) in *.
  assert (E1 : s_threads s1 !! t = Some (with_stat (if bool_decide (s_current (k_sched k) = Some t) then RT_THREAD_RUNNING else RT_THREAD_READY) th1))
    by (unfold s1; by rewrite resumed_thread, decide_True).
  destruct (frame_lookup _ _ _ _ Hfr E1) as (th' & Et' & He & Hs).
  assert (Ha' : active th').
  { destruct Hs as [Hs|[_ ?]]; [|done]. unfold active. rewrite <- Hs. case_bool_decide; autorewrite with rt; auto. }
  exists (set_k_sched s' k), th'. split_and!; try done.
  - pose proof (f_equal th_error He) as Hee. cbn in Hee. by rewrite <- Hee.
  - intros h l' Hh El'. by apply (active_not_waiting s' t th' h l').
  - intros Hn. by apply (resumed_runs t th1 l (k_sched k)); [apply (ki_sched _ _ Hk1)|..].
Qed.

(** The list of expired soft timers has no encoding of "empty" of its own.  The
    timer thread takes the expiry 0xFFFFFFFF of the first soft timer for an empty
    list: it suspends itself without arming a timer although a timer is pending, and
    the soft timers stop until somebody starts another one. *)
Theorem soft_timer_sentinel k t th n tm l :
  kinv None k -> s_current (k_sched k) = Some t -> s_threads (k_sched k) !! t = Some th -> stat_of th = RT_THREAD_RUNNING ->
  t_lists (k_timers k) !! TLSoft = Some (n :: l) -> t_timers (k_timers k) !! n = Some tm -> tm_timeout_tick tm = RT_TICK_MAX ->
  exists k' th', rt_thread_timer_entry_wait k = Some (tt, k') /\ kinv None k' /\
    s_threads (k_sched k') !! t = Some th' /\ stat_of th' = RT_THREAD_SUSPEND /\
    q_free (t_lists (k_timers k')) (ThreadTimer t) /\
    (n <> ThreadTimer t -> exists l', t_lists (k_timers k') !! TLSoft = Some l' /\ n ∈ l').
Proof.
  intros Hk Hc Et Hr El En Hmax. destruct (suspend_ok k t th Hk Et) as (g & tms' & E & Hk1 & _ & Hf & Hsb & _); [by right|].
  cbn zeta in *. set (s1 := unready t g _ _) in *. set (k1 := set_k_timers tms' (set_k_sched s1 k)) in *.
  destruct (kschedule_ok k1 t Hk1) as (s' & E' & Hk' & (_ & Hfr & _)); [done|].
  assert (E1 : s_threads s1 !! t = Some (with_stat RT_THREAD_SUSPEND th)) by apply lookup_insert_eq.
  destruct (frame_lookup _ _ _ _ Hfr E1) as (th' & Et' & Hth). exists (set_k_sched s' k1), th'. split_and!; try done.
  - unfold rt_thread_timer_entry_wait, rt_timer_list_next_timeout. munfold.
    rewrite (on_timers_run _ k RT_TICK_MAX (k_timers k)).
    2: { unfold tq. munfold. unfold q_list. rewrite El. cbn. replace (set_t_lists (t_lists (k_timers k)) (k_timers k)) with (k_timers k) by (by destruct (k_timers k)).
         by rewrite (rd_timer_run _ _ _ En), Hmax. }
    rewrite bool_decide_true by done. rewrite set_timers_id, (self_run _ _ Hc), E. by rewrite E'.
  - eapply th_sched_suspend; [exact Hth|]. apply stat_with_suspend.
  - intros Hne. destruct Hsb as (_ & _ & _ & Hls). apply (Hls TLSoft n Hne). exists (n :: l). split; [done|]. apply elem_of_cons. by left.
Qed.

(** A one-shot timer that its own timeout function has started again stays in
    the timer list, but the code after the call clears its ACTIVATED flag: from then
    on rt_timer_stop refuses to stop it and leaves it running. *)
Theorem restarted_timer_unstoppable k n tm l :
  t_timers (k_timers k) !! n = Some tm -> Z.testbit (tm_flag tm) 1 = false ->
  t_lists (k_timers k) !! TLHard = Some l -> n ∈ l ->
  exists k', timer_rearm n k = Some (tt, k') /\ t_lists (k_timers k') !! TLHard = Some l /\
    on_timers (rt_timer_stop n) k' = Some (- RT_ERROR, k').
Proof.
  intros En Hp El Hin. set (tm1 := timer_clear_flag RT_TIMER_FLAG_ACTIVATED tm).
  set (tms1 := set_t_timers (<[n := tm1]> (t_timers (k_timers k))) (k_timers k)).
  exists (set_k_timers tms1 k). split_and!; try done.
  - unfold timer_rearm. munfold. rewrite (on_timers_run _ _ _ _ (rd_timer_run _ _ _ En)), set_timers_id.
    rewrite (on_timers_run _ _ _ _ (upd_timer_run _ _ _ _ En)). rewrite bool_decide_false; [done|].
    rewrite land_bit1. congruence.
  - rewrite (on_timers_run _ _ (- RT_ERROR) tms1); [by destruct k|]. unfold rt_timer_stop. munfold.
    rewrite (rd_timer_run _ n tm1) by apply lookup_insert_eq. rewrite bool_decide_true; [done|].
    apply activated_land, not_activated_clear.
Qed.
