(* ===== verification/Lifecycle.v ===== *)
(** * The life of a thread (thread.c)

    Theorems about the operations of Thread.v: initialisation, startup, sleep,
    yield, exit and detach. *)
From S2P Require Import Prelude RtList KString Kernel Sched Timer Object Thread.
From stdpp Require Import base gmap sets list sorting.
From Stdlib Require Import ZArith Lia.
#[local] Open Scope Z_scope.

(** ** Initialisation *)

(** An address that holds no thread yet. *)
Record fresh_thread (k : kernel) (t : nat) : Prop := {
  fr_thread : s_threads (k_sched k) !! t = None;
  fr_timer_obj : q_free (o_lists (k_objs k)) (OTimer (ThreadTimer t));
  fr_obj : q_free (o_lists (k_objs k)) (OThread t);
}.

Lemma fresh_queue k t : kinv None k -> s_threads (k_sched k) !! t = None -> q_free (s_queues (k_sched k)) t.
Proof.
  intros Hk Ht h l El Hin. destruct (si_nodes _ _ (ki_sched _ _ Hk) h l t El Hin) as (_ & th & E & _). congruence.
Qed.
Lemma fresh_timer k t : kinv None k -> s_threads (k_sched k) !! t = None -> q_free (t_lists (k_timers k)) (ThreadTimer t).
Proof. intros Hk Ht h l El Hin. destruct (ki_wait _ _ Hk h l t El Hin) as (_ & th & E & _). congruence. Qed.

(** The control block _rt_thread_init builds. *)
Definition init_thread (old : rt_thread) (entry parameter stack_start stack_size priority tick : Z) : rt_thread :=
  RtThread entry parameter stack_start stack_size RT_EOK RT_THREAD_INIT priority priority 0
    (th_event_set old) (th_event_info old) tick tick 0 0.

Lemma sinv_new_thread s t th :
  sinv None s -> s_threads s !! t = None -> prio_ok th -> stat_of th = RT_THREAD_INIT ->
  sinv None (set_s_threads (<[t := th]> (s_threads s)) s).
Proof.
  intros [Hwf Hh Hd Hg Hb si_prio0 si_ready0 si_running0 si_nodes0 si_cur0] Ht Hp Hst. split; cbn; try done.
  - intros u thu. rewrite lookup_insert. case_decide; [by intros [= <-]|apply si_prio0].
  - intros u thu Hu. rewrite lookup_insert. case_decide; [|by apply si_ready0]. intros [= <-]. by rewrite Hst.
  - intros u thu Hu. rewrite lookup_insert. case_decide; [|by apply si_running0]. intros [= <-]. by rewrite Hst.
  - intros h l u E Hin. destruct (si_nodes0 h l u E Hin) as (Hu & thu & Eu & Htag). split; [done|].
    exists thu. rewrite lookup_insert_ne; [done|congruence].
  - intros c Hc. destruct (si_cur0 c Hc) as (thc & Ec & Hn). exists thc. rewrite lookup_insert_ne; [done|congruence].
Qed.

(** A framed scheduler still has the initialised thread. *)
Lemma frame_init s s' t th : sched_frame s s' -> s_threads s !! t = Some th -> stat_of th = RT_THREAD_INIT ->
  exists th', s_threads s' !! t = Some th' /\ stat_of th' = RT_THREAD_INIT /\ set_th_stat 0 th' = set_th_stat 0 th.
Proof.
  intros Hf E Hst. destruct (frame_lookup _ _ _ _ Hf E) as (th' & E' & He & Hs). exists th'. split_and!; try done.
  destruct Hs as [<-|[Ha _]]; [done|]. unfold active in Ha. rewrite Hst in Ha. by destruct Ha.
Qed.

(** _rt_thread_init: the thread exists, in the initial state, on no list. *)
Record initialised (t : nat) (th : rt_thread) (k k' : kernel) : Prop := {
  in_kinv : kinv None k';
  in_objs : oinv (k_objs k');
  in_thread : exists th', s_threads (k_sched k') !! t = Some th' /\ stat_of th' = RT_THREAD_INIT /\ set_th_stat 0 th' = set_th_stat 0 th;
  in_frame : sched_frame (set_s_threads (<[t := th]> (s_threads (k_sched k))) (k_sched k)) (k_sched k');
  in_timers : same_but (ThreadTimer t) (k_timers k) (k_timers k');
  in_timely : timely 0 (k_timers k) (k_timers k');
  in_shape : exists s tms objs, k' = set_k_timers tms (set_k_objs objs (set_k_sched s k));
  in_cur : is_Some (s_current (k_sched k)) -> is_Some (s_current (k_sched k'));
}.

Lemma thread_setup_ok k t name entry parameter stack_start stack_size priority tick :
  kinv None k -> oinv (k_objs k) -> can_lock k -> s_threads (k_sched k) !! t = None ->
  q_free (o_lists (k_objs k)) (OTimer (ThreadTimer t)) -> 0 <= priority < RT_THREAD_PRIORITY_MAX ->
  exists k', thread_setup t name entry parameter stack_start stack_size priority tick k = Some (RT_EOK, k') /\
    initialised t (init_thread (old_thread k t) entry parameter stack_start stack_size priority tick) k k'.
Proof.
  intros Hk Ho Hl Ht Hf Hp. set (th := init_thread _ _ _ _ _ _ _).
  assert (Hs1 : sinv None (set_s_threads (<[t := th]> (s_threads (k_sched k))) (k_sched k))).
  { apply sinv_new_thread; try done; [apply (ki_sched _ _ Hk)|]. split; [done|]. by right. }
  set (s1 := set_s_threads _ _) in *.
  destruct (object_init_ok (OTimer (ThreadTimer t)) RT_Object_Class_Timer name (set_k_sched s1 k))
    as (l & s' & El & E & Ho' & Hs' & Hfr & Hcur & _); try done; [set_solver|].
  cbn zeta in *. set (objs' := registered _ _ _ _ _) in *. set (k2 := set_k_objs objs' (set_k_sched s' (set_k_sched s1 k))) in *.
  set (tm := RtTimer (TF_thread_timeout t) 0 0 (Z.land 0 (Z.lnot RT_TIMER_FLAG_ACTIVATED))).
  set (tms' := set_t_timers (<[ThreadTimer t := tm]> (t_timers (k_timers k))) (k_timers k)).
  pose proof (fresh_timer k t Hk Ht) as Hft. exists (set_k_timers tms' k2). split.
  - unfold thread_setup, kq, rt_timer_init, rt_timer_setup, on_sched, sq. munfold. unfold q_node_init.
    rewrite decide_True by (by apply fresh_queue). cbn. rewrite set_queues_id.
    replace (set_k_sched _ (set_k_sched (k_sched k) k)) with (set_k_sched s1 k) by done.
    rewrite E. fold k2. unfold on_timers, tq. munfold. unfold q_node_init. cbn.
    rewrite decide_True by done. by destruct k as [? []].
  - split.
    + destruct Hk as [_ Hti Htt Hw Hu]. split; cbn; try done.
      * by apply tinv_set_timer.
      * intros u thu Eu. rewrite lookup_insert. case_decide as Hd; [injection Hd as <-; by exists tm|].
        apply (frame_lookup_inv s1) in Eu as (th0 & E0 & _); [|done]. cbn in E0.
        rewrite lookup_insert_ne in E0 by congruence. by apply (Htt u th0).
      * intros h lt u Elt Hin. split; [done|]. destruct (Hw h lt u Elt Hin) as (_ & thu & Eu & Hsu).
        assert (E1 : s_threads s1 !! u = Some thu) by (cbn; by rewrite lookup_insert_ne by congruence).
        destruct (frame_lookup _ _ _ _ Hfr E1) as (th' & E' & Hth). exists th'. split; [done|]. by eapply th_sched_suspend.
      * intros m tmm. rewrite lookup_insert_ne by done. apply Hu.
    + done.
    + apply (frame_init s1); try done. apply lookup_insert_eq.
    + done.
    + split; [done|]. split; [|split; [intros _; cbn; by rewrite lookup_insert_eq|done]]. intros m Hm. cbn. by rewrite lookup_insert_ne.
    + by apply timely_set.
    + by exists s', tms', objs'.
    + done.
Qed.

Lemma frame_new_thread s s' t th :
  sched_frame s s' -> s_threads s !! t = None ->
  sched_frame (set_s_threads (<[t := th]> (s_threads s)) s) (set_s_threads (<[t := th]> (s_threads s')) s').
Proof.
  intros [Hl Hq Ht] _. split; [done..|]. intros u. cbn. rewrite !lookup_insert. case_decide; [by constructor|apply Ht].
Qed.
Lemma frame_none s s' t : sched_frame s s' -> s_threads s !! t = None -> s_threads s' !! t = None.
Proof. intros Hf E. pose proof (sf_threads _ _ Hf t) as H. rewrite E in H. by inversion H. Qed.

Lemma registered_free o c l ob s o' :
  o_lists s !! c = Some l -> q_free (o_lists s) o' -> o' <> o -> q_free (o_lists (registered o c l ob s)) o'.
Proof.
  intros El Hf Hne c' l'. cbn. rewrite lookup_insert. case_decide; [|by apply Hf].
  intros [= <-] [Heq|Hin]%elem_of_cons; [done|]. by apply (Hf c l).
Qed.

Lemma thread_init_ok k t name entry parameter stack_start stack_size priority tick :
  kinv None k -> oinv (k_objs k) -> can_lock k -> fresh_thread k t -> 0 <= priority < RT_THREAD_PRIORITY_MAX ->
  exists k', rt_thread_init t name entry parameter stack_start stack_size priority tick k = Some (RT_EOK, k') /\
    initialised t (init_thread (old_thread k t) entry parameter stack_start stack_size priority tick) k k'.
Proof.
  intros Hk Ho Hl [Ht Hft Hf] Hp.
  destruct (object_init_ok (OThread t) RT_Object_Class_Thread name k) as (l & s' & El & E & Ho' & Hs' & Hfr & Hcur & _);
    [apply (ki_sched _ _ Hk)|done..|set_solver|done|].
  cbn zeta in *. set (objs' := registered _ _ _ _ _) in *. set (k1 := set_k_objs objs' (set_k_sched s' k)) in *.
  assert (Hk1 : kinv None k1) by (destruct (kinv_frame k s' Hk Hs' Hfr); by split).
  assert (Ht1 : s_threads (k_sched k1) !! t = None) by (by apply (frame_none (k_sched k))).
  destruct (thread_setup_ok k1 t name entry parameter stack_start stack_size priority tick) as (k' & E' & Hi); try done.
  { unfold can_lock. cbn. by rewrite (sf_lock _ _ Hfr). }
  { by apply registered_free. }
  exists k'. unfold rt_thread_init. munfold. rewrite E. split; [done|].
  assert (Eold : old_thread k1 t = old_thread k t) by (unfold old_thread; by rewrite Ht1, Ht). rewrite Eold in Hi.
  destruct Hi as [H1 H2 H3 H4 H5 Htl (s2 & tms2 & objs2 & Esh) H6]. split; try done; [etrans; [|exact H4]; by apply frame_new_thread|by exists s2, tms2, objs2; rewrite Esh|].
  intros Hc. by apply H6, Hcur.
Qed.

(** ** Startup *)

(** A thread in the initial state becomes one that is suspended on no list. *)
Lemma init_free k t th : kinv None k -> s_threads (k_sched k) !! t = Some th -> stat_of th = RT_THREAD_INIT ->
  q_free (s_queues (k_sched k)) t /\ q_free (t_lists (k_timers k)) (ThreadTimer t).
Proof.
  intros Hk Et Hst. split.
  - intros h l El Hin. destruct (si_nodes _ _ (ki_sched _ _ Hk) h l t El Hin) as (_ & th' & E' & Htag).
    rewrite Et in E'. injection E' as <-. destruct h; cbn in Htag; rewrite Hst in Htag; try done. by destruct Htag.
  - intros h l El Hin. destruct (ki_wait _ _ Hk h l t El Hin) as (_ & th' & E' & Hs).
    rewrite Et in E'. injection E' as <-. by rewrite Hst in Hs.
Qed.

Definition started (th : rt_thread) : rt_thread :=
  set_th_stat RT_THREAD_SUSPEND
    (set_th_number_mask (u32 (Z.shiftl 1 (th_init_priority th))) (set_th_current_priority (th_init_priority th) th)).

Lemma kinv_started k t th :
  kinv None k -> s_threads (k_sched k) !! t = Some th -> stat_of th = RT_THREAD_INIT -> 0 <= th_init_priority th < 32 ->
  kinv None (set_k_sched (set_s_threads (<[t := started th]> (s_threads (k_sched k))) (k_sched k)) k).
Proof.
  intros Hk Et Hst Hp. destruct (init_free k t th Hk Et Hst) as [Hq Htf].
  replace (set_k_sched _ k) with (set_k_timers (k_timers k) (set_k_sched (set_s_threads (<[t := started th]> (s_threads (k_sched k))) (k_sched k)) k)) by (by destruct k).
  apply (kinv_timers t k); try done; [|apply (ki_timers _ _ Hk)| |by eauto].
  - apply (sinv_close t _ (started th)); [|apply lookup_insert_eq|done..].
    apply (sinv_set_thread t _ th); [|done|].
    + apply sinv_open; [apply (ki_sched _ _ Hk)|done].
    + split; [done|]. left. cbn. by apply shiftl_mask.
  - intros u Hu. cbn. by rewrite lookup_insert_ne.
Qed.

(** The thread joins the ready list of its priority; a running kernel reschedules. *)
Lemma startup_ok k t th :
  kinv None k -> s_threads (k_sched k) !! t = Some th -> stat_of th = RT_THREAD_INIT -> 0 <= th_init_priority th < 32 ->
  exists l s' tms', let s1 := resumed t (started th) l (k_sched k) in
    s_queues (k_sched k) !! QReady (th_init_priority th) = Some l /\
    rt_thread_startup t k = Some (RT_EOK, set_k_timers tms' (set_k_sched s' k)) /\
    kinv None (set_k_timers tms' (set_k_sched s' k)) /\ same_but (ThreadTimer t) (k_timers k) tms' /\ timely 0 (k_timers k) tms' /\ sinv None s1 /\
    (s_current (k_sched k) = None -> s' = s1) /\ (is_Some (s_current (k_sched k)) -> schedule_post s1 s').
Proof.
  intros Hk Et Hst Hp. pose proof (kinv_started k t th Hk Et Hst Hp) as Hk1.
  set (k1 := set_k_sched _ k) in *. assert (Et1 : s_threads (k_sched k1) !! t = Some (started th)) by apply lookup_insert_eq.
  destruct (resume_ok k1 t (started th) Hk1 Et1 eq_refl) as (l & tms' & El & E & Hk2 & Hf & Hsb & Htl). cbn zeta in *.
  assert (Es : resumed t (started th) l (k_sched k1) = resumed t (started th) l (k_sched k)).
  { unfold resumed, inserted. cbn. case_bool_decide; by rewrite insert_insert_eq. }
  rewrite Es in *. set (s1 := resumed t (started th) l (k_sched k)) in *.
  assert (Hc1 : s_current s1 = s_current (k_sched k)) by (unfold s1, resumed, inserted; cbn; by case_bool_decide).
  assert (Erun : forall r, (set_thread t (fun th => set_th_current_priority (th_init_priority th) th) ;;
      set_thread t (fun th => set_th_number_mask (u32 (Z.shiftl 1 (th_current_priority th))) th) ;;
      set_thread t (set_th_stat RT_THREAD_SUSPEND) ;; rt_thread_resume t ;; r) k = (rt_thread_resume t ;; r) k1 :> option (Z * kernel)).
  { intros r. munfold. rewrite (set_thread_run k t th) by done. erewrite set_thread_run by apply lookup_insert_eq.
    erewrite set_thread_run by apply lookup_insert_eq. cbn. rewrite !insert_insert_eq. by destruct k as [[]]. }
  unfold rt_thread_startup. rewrite Erun. munfold. rewrite E. unfold rt_thread_self. munfold. cbn. rewrite Hc1.
  exists l. destruct (s_current (k_sched k)) as [c|] eqn:Hc.
  - rewrite bool_decide_true by done.
    destruct (kschedule_ok _ c Hk2) as (s' & E' & Hk' & Hpost); [by rewrite <- Hc1|].
    rewrite E'. exists s', tms'. split_and!; try done. apply (ki_sched _ _ Hk2).
  - rewrite bool_decide_false by (by intros []). exists s1, tms'. split_and!; try done. apply (ki_sched _ _ Hk2).
Qed.

(** ** Sleeping *)

Record slept (t : nat) (th : rt_thread) (deadline : Z) (k k' : kernel) : Prop := {
  sl_kinv : kinv None k';
  sl_thread : exists th', s_threads (k_sched k') !! t = Some th' /\ stat_of th' = RT_THREAD_SUSPEND /\
    set_th_stat 0 th' = set_th_stat 0 th;
  sl_timer : timer_pending t deadline (k_timers k');
  sl_timers : same_but (ThreadTimer t) (k_timers k) (k_timers k');
  sl_switch : s_lock_nest (k_sched k) = 0 -> (exists u thu, s_threads (k_sched k) !! u = Some thu /\ stat_of thu = RT_THREAD_READY) ->
    exists c' th', s_current (k_sched k') = Some c' /\ c' <> t /\
      s_threads (k_sched k') !! c' = Some th' /\ stat_of th' = RT_THREAD_RUNNING /\ dominates (k_sched k') th';
}.

(** The common part of rt_thread_sleep and rt_thread_delay_until. *)
Definition sleep_for (t : nat) (tick : Z) : M kernel unit :=
  rt_thread_suspend t ;; start_thread_timer t tick ;; on_sched rt_schedule.

Lemma sleep_for_ok k t th tick :
  kinv None k -> s_current (k_sched k) = Some t -> s_threads (k_sched k) !! t = Some th ->
  stat_of th = RT_THREAD_RUNNING -> 0 <= tick < 2 ^ 32 ->
  exists k', sleep_for t tick k = Some (tt, k') /\ slept t th (u32 (t_tick (k_timers k) + tick)) k k'.
Proof.
  intros Hk Hc Et Hr Htick. destruct (suspend_ok k t th Hk Et) as (g & tms1 & E1 & Hk1 & _ & Hf1 & Hsb1 & _); [by right|].
  cbn zeta in *. set (s1 := unready t g _ _) in *. set (k1 := set_k_timers tms1 (set_k_sched s1 k)) in *.
  assert (Et1 : s_threads s1 !! t = Some (with_stat RT_THREAD_SUSPEND th)) by apply lookup_insert_eq.
  destruct (start_thread_timer_ok k1 t _ tick Hk1 Et1) as (tms2 & E2 & Hk2 & Hsb2 & Hpend & _); [by rewrite stat_with_suspend|done..|].
  destruct (kschedule_ok (set_k_timers tms2 k1) t Hk2) as (s' & E3 & Hk3 & Hpost); [done|].
  cbn [k_sched set_k_timers set_k_sched k1] in Hpost. exists (set_k_sched s' (set_k_timers tms2 k1)). split.
  { unfold sleep_for. munfold. rewrite E1, E2. by rewrite E3. }
  destruct Hpost as (Hs' & Hf' & _ & _ & _ & _ & Hrun).
  destruct (frame_lookup _ _ _ _ Hf' Et1) as (th' & Et' & He & Hst).
  assert (Hst' : stat_of th' = RT_THREAD_SUSPEND).
  { destruct Hst as [<-|[Ha _]]; [by rewrite stat_with_suspend|]. unfold active in Ha. rewrite stat_with_suspend in Ha. by destruct Ha. }
  split; try done.
  - exists th'. split_and!; try done; by rewrite <- He.
  - destruct Hsb1 as (Ht1 & _). by rewrite <- Ht1.
  - by apply (same_but_trans _ _ tms1).
  - intros Hn (u & thu & Eu & Hru).
    assert (Hut : u <> t) by (intros ->; rewrite Et in Eu; injection Eu as <-; by rewrite Hr in Hru).
    assert (Eu1 : s_threads s1 !! u = Some thu) by (cbn; by rewrite lookup_insert_ne).
    assert (Hg : s_group s1 <> 0).
    { intros Hg. by destruct (no_ready s1 u thu (ki_sched _ _ Hk1) Hg Eu1). }
    destruct (Hrun Hn (or_introl Hg)) as (c' & thc & Hc' & Ec' & Hrc & Hd). exists c', thc. split_and!; try done.
    intros ->. cbn in Ec'. rewrite Et' in Ec'. injection Ec' as <-. by rewrite Hst' in Hrc.
Qed.

Lemma sleep_run tick k t : s_current (k_sched k) = Some t ->
  rt_thread_sleep tick k = (sleep_for t tick ;; mret t) k.
Proof.
  intros Hc. unfold rt_thread_sleep, sleep_for, start_thread_timer. munfold. rewrite (self_run _ _ Hc).
  destruct (rt_thread_suspend t k) as [[e k1]|]; [|done]. destruct (on_timers _ k1) as [[e2 k2]|]; [|done].
  by destruct (rt_timer_start _ k2) as [[e3 k3]|].
Qed.

(** ** Exit and detach *)

Lemma tremoved_same_but n tms : same_but n tms (tremoved n tms).
Proof.
  split_and!; try done. intros h a Ha. cbn. split.
  - intros (l & El & Hin). rewrite lookup_fmap in El. destruct (t_lists tms !! h) as [l0|]; [|done]. cbn in El.
    injection El as <-. exists l0. split; [done|]. by apply elem_of_list_del in Hin as [? _].
  - intros (l & El & Hin). exists (list_del n l). rewrite lookup_fmap, El. split; [done|]. by apply elem_of_list_del.
Qed.

(** The thread [t] is off every list and marked closed. *)
Lemma kinv_closed k t th s1 :
  kinv None k -> s_threads (k_sched k) !! t = Some th -> stat_of th <> RT_THREAD_INIT -> sinv (Some t) s1 ->
  s_threads s1 = s_threads (k_sched k) ->
  kinv None (set_k_timers (tremoved (ThreadTimer t) (k_timers k))
    (set_k_sched (set_s_threads (<[t := set_th_stat RT_THREAD_CLOSE th]> (s_threads s1)) s1) k)).
Proof.
  intros Hk Et Hst Hs1 Eth.
  apply (kinv_timers t k); try done; [|by apply tinv_removed, (ki_timers _ _ Hk)|apply tremoved_same_but|apply tremoved_free|..].
  - apply (sinv_close t _ (set_th_stat RT_THREAD_CLOSE th)); [|apply lookup_insert_eq|done..].
    apply (sinv_set_thread t _ th); [done|by rewrite Eth|].
    destruct (si_prio _ _ (ki_sched _ _ Hk) t th Et) as [Hp [Hm|[Hi _]]]; [|done]. split; [done|by left].
  - intros u Hu. cbn. by rewrite lookup_insert_ne, Eth.
  - by eauto.
Qed.

Lemma kinv_set_objs o k : kinv None k -> kinv None (set_k_objs o k).
Proof. intros [H1 H2 H3 H4 H5]. by split. Qed.

Lemma timer_detach_ok k n ob :
  oinv (k_objs k) -> o_objs (k_objs k) !! OTimer n = Some ob ->
  exists objs', rt_timer_detach n k = Some (RT_EOK, set_k_objs objs' (set_k_timers (tremoved n (k_timers k)) k)) /\ oinv objs' /\
    q_free (o_lists objs') (OTimer n) /\ (forall o, o <> OTimer n -> o_objs objs' !! o = o_objs (k_objs k) !! o).
Proof.
  intros Ho Eo. destruct (object_detach_ok (OTimer n) (set_k_timers (tremoved n (k_timers k)) k) ob Ho Eo) as (E & Ho' & Hf).
  eexists. split; [|split; [exact Ho'|split; [exact Hf|]]].
  - unfold rt_timer_detach. munfold. rewrite (on_timers_run _ _ tt (tremoved n (k_timers k))) by done. by rewrite E.
  - intros o Hne. cbn. by rewrite lookup_insert_ne by congruence.
Qed.

(** What is left of a thread after rt_thread_exit or rt_thread_detach. *)
Definition disposed (t : nat) (ob : rt_object) (th : rt_thread) (k k' : kernel) : Prop :=
  let static := bool_decide (Z.land (ob_type ob) RT_Object_Class_Static <> 0) && bool_decide (th_cleanup th = 0) in
  if static then q_free (o_lists (k_objs k')) (OThread t) /\ k_sched k' = k_sched k
  else k_objs k' = k_objs k /\ exists l, s_queues (k_sched k) !! QDefunct = Some l /\
    k_sched k' = set_s_queues (<[QDefunct := t :: l]> (s_queues (k_sched k))) (k_sched k).

Lemma dispose_ok k t th ob :
  kinv None k -> oinv (k_objs k) -> s_threads (k_sched k) !! t = Some th -> stat_of th = RT_THREAD_CLOSE ->
  q_free (s_queues (k_sched k)) t -> o_objs (k_objs k) !! OThread t = Some ob ->
  exists k', thread_dispose t k = Some (tt, k') /\ kinv None k' /\ oinv (k_objs k') /\
    k_timers k' = k_timers k /\ disposed t ob th k k' /\ exists s objs, k' = set_k_objs objs (set_k_sched s k).
Proof.
  intros Hk Ho Et Hst Hf Eo. unfold thread_dispose, rt_object_is_systemobject, disposed. munfold.
  rewrite (on_objs_run _ k ob (k_objs k)) by (unfold rd_obj; by rewrite Eo).
  rewrite set_objs_id, (get_thread_run _ _ _ Et). destruct (_ && _) eqn:Hb.
  - destruct (object_detach_ok (OThread t) k ob Ho Eo) as (E & Ho' & Hfo). rewrite E. eexists. split; [done|].
    split; [by apply kinv_set_objs|]. split_and!; try done. eexists (k_sched k), _. by destruct k.
  - destruct (si_defunct _ _ (ki_sched _ _ Hk)) as [l El]. set (s' := set_s_queues (<[QDefunct := t :: l]> (s_queues (k_sched k))) (k_sched k)).
    exists (set_k_sched s' k). split; [|split; [|split; [done|split; [done|split; [split; [done|by exists l]|exists s', (k_objs k); by destruct k]]]]].
    + unfold kq, on_sched, sq. munfold. unfold q_insert_after, q_update. by rewrite El, decide_True by done.
    + destruct Hk as [Hs H2 H3 H4 H5]. split; try done. cbn. apply (sinv_enqueue None t _ QDefunct l (t :: l) th); try done.
      * apply NoDup_cons. split; [by apply (Hf QDefunct)|]. by apply (proj1 (si_wf _ _ Hs) QDefunct).
      * intros u. by rewrite elem_of_cons.
Qed.

(** The state in which a removed thread has been closed and its timer detached. *)
Definition closing (t : nat) (g : Z) (th : rt_thread) (objs : objects) (k : kernel) : kernel :=
  set_k_objs objs (set_k_timers (tremoved (ThreadTimer t) (k_timers k))
    (set_k_sched (unready t g (set_th_stat RT_THREAD_CLOSE th) (k_sched k)) k)).

Lemma closing_ok k t th obt :
  kinv None k -> oinv (k_objs k) -> s_threads (k_sched k) !! t = Some th -> stat_of th <> RT_THREAD_INIT ->
  o_objs (k_objs k) !! OTimer (ThreadTimer t) = Some obt ->
  exists g objs, kinv None (closing t g th objs k) /\ oinv objs /\
    (forall o, o <> OTimer (ThreadTimer t) -> o_objs objs !! o = o_objs (k_objs k) !! o) /\
    (on_sched (rt_schedule_remove_thread t) ;; set_thread t (set_th_stat RT_THREAD_CLOSE) ;; rt_timer_detach (ThreadTimer t)) k
      = Some (RT_EOK, closing t g th objs k) /\
    (on_sched (rt_schedule_remove_thread t) ;; rt_timer_detach (ThreadTimer t) ;; set_thread t (set_th_stat RT_THREAD_CLOSE)) k
      = Some (tt, closing t g th objs k).
Proof.
  intros Hk Ho Et Hst Eo. destruct (remove_thread_ok t _ th (ki_sched _ _ Hk) Et) as (g & E & Hs1).
  set (s1 := set_s_group _ _) in *.
  pose proof (kinv_closed k t th s1 Hk Et Hst Hs1 eq_refl) as Hk1.
  set (k1 := set_k_sched (unready t g (set_th_stat RT_THREAD_CLOSE th) (k_sched k)) k).
  destruct (timer_detach_ok k1 (ThreadTimer t) obt Ho Eo) as (objs & Ed & Ho' & _ & Hobjs).
  destruct (timer_detach_ok (set_k_sched s1 k) (ThreadTimer t) obt Ho Eo) as (objs2 & Ed2 & _).
  exists g, objs. split; [by apply kinv_set_objs|]. split; [done|]. split; [done|]. split.
  - munfold. rewrite (on_sched_run _ _ _ _ E), (set_thread_run _ t th) by done. exact Ed.
  - munfold. rewrite (on_sched_run _ _ _ _ E), Ed2. rewrite (set_thread_run _ t th) by done.
    revert Ed Ed2. unfold rt_timer_detach, rt_object_detach. munfold.
    rewrite !(on_timers_run _ _ tt (tremoved (ThreadTimer t) (k_timers k))) by done.
    rewrite !(on_objs_run (rd_obj (OTimer (ThreadTimer t))) _ obt (k_objs k)) by (unfold rd_obj; cbn; by rewrite Eo).
    unfold on_objs. munfold. intros [= <-] [= <-]. done.
Qed.

(** The record of what exit and detach achieve. *)
Record ended (t : nat) (k k' : kernel) : Prop := {
  en_kinv : kinv None k';
  en_objs : oinv (k_objs k');
  en_thread : exists th', s_threads (k_sched k') !! t = Some th' /\ stat_of th' = RT_THREAD_CLOSE;
  en_timer : q_free (t_lists (k_timers k')) (ThreadTimer t);
  en_timers : same_but (ThreadTimer t) (k_timers k) (k_timers k');
  en_gone : q_free (o_lists (k_objs k')) (OThread t) \/
    exists l, s_queues (k_sched k') !! QDefunct = Some (t :: l);
  en_timely : timely 0 (k_timers k) (k_timers k');
  en_shape : exists s tms objs, k' = set_k_timers tms (set_k_objs objs (set_k_sched s k));
  en_lists : forall h l, (forall p, h <> QReady p) -> h <> QDefunct -> s_queues (k_sched k) !! h = Some l ->
    s_queues (k_sched k') !! h = Some (list_del t l);
  en_others : forall u, u <> t -> option_Forall2 th_sched (s_threads (k_sched k) !! u) (s_threads (k_sched k') !! u);
}.

Lemma closing_free t g th objs k : q_free (s_queues (k_sched (closing t g th objs k))) t.
Proof. apply q_free_rem. Qed.

(** Disposing of the closed thread ends it. *)
Lemma end_thread k t th ob g objs :
  kinv None (closing t g th objs k) -> oinv objs -> o_objs objs !! OThread t = Some ob ->
  exists k', thread_dispose t (closing t g th objs k) = Some (tt, k') /\ ended t k k' /\
    s_current (k_sched k') = s_current (k_sched k) /\ s_lock_nest (k_sched k') = s_lock_nest (k_sched k) /\
    s_threads (k_sched k') = <[t := set_th_stat RT_THREAD_CLOSE th]> (s_threads (k_sched k)).
Proof.
  intros Hk Ho Eo. assert (Et : s_threads (k_sched (closing t g th objs k)) !! t = Some (set_th_stat RT_THREAD_CLOSE th)) by apply lookup_insert_eq.
  destruct (dispose_ok _ t _ ob Hk Ho Et eq_refl (closing_free _ _ _ _ _) Eo) as (k' & E & Hk' & Ho' & Etm & Hd & (s2 & objs2 & Esh)).
  assert (Hsh : exists s tms objs, k' = set_k_timers tms (set_k_objs objs (set_k_sched s k)))
    by (exists s2, (tremoved (ThreadTimer t) (k_timers k)), objs2; by rewrite Esh).
  assert (Htl : timely 0 (k_timers k) (k_timers k')) by (rewrite Etm; apply timely_removed).
  assert (Hth : forall s : sched, s_threads s = s_threads (k_sched (closing t g th objs k)) -> forall u, u <> t -> option_Forall2 th_sched (s_threads (k_sched k) !! u) (s_threads s !! u)).
  { intros s -> u Hu. cbn. rewrite lookup_insert_ne by done. by destruct (s_threads (k_sched k) !! u); constructor. }
  exists k'. split; [done|]. unfold disposed in Hd. destruct (_ && _).
  - destruct Hd as [Hf Es]. rewrite Es. split; [|done]. split; try done.
    + exists (set_th_stat RT_THREAD_CLOSE th). by rewrite Es.
    + rewrite Etm. apply tremoved_free.
    + rewrite Etm. apply tremoved_same_but.
    + by left.
    + intros h l _ _ El. rewrite Es. cbn. by rewrite lookup_fmap, El.
    + apply Hth. by rewrite Es.
  - destruct Hd as (_ & l & El & Es). rewrite Es. split; [|done]. split; try done.
    + exists (set_th_stat RT_THREAD_CLOSE th). by rewrite Es.
    + rewrite Etm. apply tremoved_free.
    + rewrite Etm. apply tremoved_same_but.
    + right. exists l. rewrite Es. apply lookup_insert_eq.
    + intros h l0 _ Hd El0. rewrite Es. cbn. by rewrite lookup_insert_ne, lookup_fmap, El0 by done.
    + apply Hth. by rewrite Es.
Qed.

(** Rt_thread_detach takes any started thread, running, ready or waiting, out of
    the system without breaking an invariant of the lists it was on. *)
Theorem thread_detach_correct k t th ob obt :
  kinv None k -> oinv (k_objs k) -> s_threads (k_sched k) !! t = Some th -> stat_of th <> RT_THREAD_INIT ->
  o_objs (k_objs k) !! OThread t = Some ob -> o_objs (k_objs k) !! OTimer (ThreadTimer t) = Some obt ->
  exists k', rt_thread_detach t k = Some (RT_EOK, k') /\ ended t k k'.
Proof.
  intros Hk Ho Et Hst Eo Eot. destruct (closing_ok k t th obt Hk Ho Et Hst Eot) as (g & objs & Hk1 & Ho1 & Hobjs & _ & E).
  destruct (end_thread k t th ob g objs Hk1 Ho1) as (k' & E' & He & _); [by rewrite Hobjs|].
  exists k'. split; [|done]. unfold rt_thread_detach. munfold; munfold in E. rewrite (get_thread_run _ _ _ Et), bool_decide_true by done.
  destruct (on_sched _ k) as [[[] k1]|]; [|done]. destruct (rt_timer_detach _ k1) as [[r k2]|]; [|done].
  rewrite E. by rewrite E'.
Qed.

Lemma thread_exit_ok k t th ob obt :
  kinv None k -> oinv (k_objs k) -> s_current (k_sched k) = Some t -> s_threads (k_sched k) !! t = Some th ->
  stat_of th = RT_THREAD_RUNNING ->
  o_objs (k_objs k) !! OThread t = Some ob -> o_objs (k_objs k) !! OTimer (ThreadTimer t) = Some obt ->
  exists k', rt_thread_exit k = Some (tt, k') /\ ended t k k' /\
    (s_lock_nest (k_sched k) = 0 -> (exists u thu, s_threads (k_sched k) !! u = Some thu /\ stat_of thu = RT_THREAD_READY) ->
     exists c th', s_current (k_sched k') = Some c /\ c <> t /\ s_threads (k_sched k') !! c = Some th' /\
       stat_of th' = RT_THREAD_RUNNING /\ dominates (k_sched k') th').
Proof.
  intros Hk Ho Hc Et Hr Eo Eot. destruct (closing_ok k t th obt Hk Ho Et) as (g & objs & Hk1 & Ho1 & Hobjs & E & _); [by rewrite Hr|done|].
  destruct (end_thread k t th ob g objs Hk1 Ho1) as (k2 & E2 & He & Hc2 & Hn2 & Eth2); [by rewrite Hobjs|].
  destruct (kschedule_ok k2 t (en_kinv _ _ _ He)) as (s' & E3 & Hk3 & (Hs' & Hf & _ & _ & _ & _ & Hrun)); [by rewrite Hc2|].
  exists (set_k_sched s' k2). split; [|split].
  - unfold rt_thread_exit. munfold; munfold in E. rewrite (self_run _ _ Hc). destruct (on_sched _ k) as [[[] k1]|]; [|done].
    destruct (set_thread _ _ k1) as [[[] k1']|]; [|done]. rewrite E, E2. exact E3.
  - destruct He as [_ Ho2 (tht & Ett & Hct) Htm Htms Hg Htl (s2 & tms2 & objs2 & Esh) Hli Hot]. split; try done.
    + destruct (frame_lookup _ _ _ _ Hf Ett) as (th' & Et' & _ & Hs). exists th'. split; [done|].
      destruct Hs as [<-|[Ha _]]; [done|]. unfold active in Ha. rewrite Hct in Ha. by destruct Ha.
    + destruct Hg as [Hg|[l El]]; [by left|right]. exists l. cbn. by rewrite (sf_queues _ _ Hf).
    + exists s', tms2, objs2. by rewrite Esh.
    + intros h l Hp Hd El. cbn. rewrite (sf_queues _ _ Hf) by done. by apply Hli.
    + intros u Hu. etrans; [by apply Hot|apply (sf_threads _ _ Hf)].
  - intros Hn (u & thu & Eu & Hru). assert (Hut : u <> t) by (intros ->; rewrite Et in Eu; injection Eu as <-; by rewrite Hr in Hru).
    assert (Eu2 : s_threads (k_sched k2) !! u = Some thu) by (by rewrite Eth2, lookup_insert_ne).
    assert (Hg : s_group (k_sched k2) <> 0) by (intros Hg; by destruct (no_ready _ u thu (ki_sched _ _ (en_kinv _ _ _ He)) Hg Eu2)).
    rewrite Hn2 in Hrun. destruct (Hrun Hn (or_introl Hg)) as (c & thc & Hc' & Ec & Hrc & Hd). exists c, thc. split_and!; try done.
    intros ->. destruct (en_thread _ _ _ He) as (tht & Ett & Hct).
    destruct (frame_lookup _ _ _ _ Hf Ett) as (th' & Et' & _ & Hs). cbn in Ec. rewrite Ec in Et'. injection Et' as <-.
    destruct Hs as [Hs|[Ha _]]; [by rewrite Hct, Hrc in Hs|]. unfold active in Ha. rewrite Hct in Ha. by destruct Ha.
Qed.

(** ** Properties *)


(** Rt_thread_init followed by rt_thread_startup in a running kernel puts a
    new thread of the given priority into the scheduler: both calls succeed, all
    invariants hold, the thread is ready or running with its initial parameters, and
    unless the scheduler is locked the highest ready priority is running. *)
Theorem thread_start_correct k t name entry parameter stack_start stack_size priority tick c :
  kinv None k -> oinv (k_objs k) -> can_lock k -> fresh_thread k t -> 0 <= priority < RT_THREAD_PRIORITY_MAX ->
  s_current (k_sched k) = Some c ->
  exists k1 k2 th, rt_thread_init t name entry parameter stack_start stack_size priority tick k = Some (RT_EOK, k1) /\
    rt_thread_startup t k1 = Some (RT_EOK, k2) /\ kinv None k2 /\ oinv (k_objs k2) /\
    s_threads (k_sched k2) !! t = Some th /\ active th /\ th_current_priority th = priority /\
    th_number_mask th = 2 ^ priority /\ th_entry th = entry /\ th_remaining_tick th = tick /\
    (s_lock_nest (k_sched k) = 0 -> exists c' thc, s_current (k_sched k2) = Some c' /\
      s_threads (k_sched k2) !! c' = Some thc /\ stat_of thc = RT_THREAD_RUNNING /\ dominates (k_sched k2) thc).
Proof.
  intros Hk Ho Hl Hf Hp Hc. destruct (thread_init_ok k t name entry parameter stack_start stack_size priority tick Hk Ho Hl Hf Hp)
    as (k1 & E1 & [Hk1 Ho1 (th1 & Et1 & Hst1 & He1) Hfr1 _ _ _ Hc1]).
  pose proof (f_equal th_init_priority He1) as Hip. cbn in Hip.
  pose proof (f_equal th_entry He1) as Hen. cbn in Hen. pose proof (f_equal th_remaining_tick He1) as Hrt. cbn in Hrt.
  destruct (startup_ok k1 t th1 Hk1 Et1 Hst1) as (l & s2 & tms2 & El & E2 & Hk2 & _ & _ & Hs1 & _ & Hpost); [by rewrite Hip|].
  cbn zeta in *. set (s1 := resumed t (started th1) l (k_sched k1)) in *.
  specialize (Hpost (Hc1 (mk_is_Some _ _ Hc))). pose proof Hpost as (Hs2 & Hfr2 & _).
  set (x := if bool_decide (s_current (k_sched k1) = Some t) then RT_THREAD_RUNNING else RT_THREAD_READY).
  assert (Es1 : s_threads s1 !! t = Some (with_stat x (started th1))) by (unfold s1; by rewrite resumed_thread, decide_True).
  assert (Hact : active (with_stat x (started th1))) by (unfold active, x; case_bool_decide; autorewrite with rt; auto).
  destruct (frame_lookup _ _ _ _ Hfr2 Es1) as (th & Et & He & Hs).
  exists k1, (set_k_timers tms2 (set_k_sched s2 k1)), th. split_and!; try done.
  - unfold active in *. destruct Hs as [<-|[_ ?]]; done.
  - pose proof (f_equal th_current_priority He) as H. cbn in H. congruence.
  - pose proof (f_equal th_number_mask He) as H. cbn in H. rewrite <- H, Hip. by apply shiftl_mask.
  - pose proof (f_equal th_entry He) as H. cbn in H. congruence.
  - pose proof (f_equal th_remaining_tick He) as H. cbn in H. congruence.
  - intros Hn. apply (resumed_runs t (started th1) l (k_sched k1)); try done. by rewrite (sf_lock _ _ Hfr1).
Qed.

(** Rt_thread_sleep suspends the calling thread, arms its timer to expire at the
    current tick plus the given delay (modulo the tick range) and hands the processor
    to a ready thread that no other ready thread outranks. *)
Theorem thread_sleep_correct k t th tick :
  kinv None k -> s_current (k_sched k) = Some t -> s_threads (k_sched k) !! t = Some th ->
  stat_of th = RT_THREAD_RUNNING -> 0 <= tick < 2 ^ 32 ->
  exists k', rt_thread_sleep tick k = Some (t, k') /\ slept t th (u32 (t_tick (k_timers k) + tick)) k k'.
Proof.
  intros Hk Hc Et Hr Htick. destruct (sleep_for_ok k t th tick Hk Hc Et Hr Htick) as (k' & E & Hs).
  exists k'. rewrite (sleep_run _ _ _ Hc). munfold. by rewrite E.
Qed.

(** Rt_thread_delay_until sleeps too long.  A caller that is late by d = now - tick
    ticks should wake at tick + inc; the code computes now - tick + inc instead of
    tick + inc - now as the delay, so the timer is set to tick + inc + 2 * d. *)
Theorem delay_until_oversleeps k t th tick inc :
  kinv None k -> s_current (k_sched k) = Some t -> s_threads (k_sched k) !! t = Some th ->
  stat_of th = RT_THREAD_RUNNING -> u32 (t_tick (k_timers k) - tick) < inc ->
  exists k', rt_thread_delay_until tick inc k = Some (inr t, k') /\
    slept t th (u32 (tick + inc + 2 * (t_tick (k_timers k) - tick))) k k'.
Proof.
  intros Hk Hc Et Hr Hlt. set (now := t_tick (k_timers k)) in *.
  destruct (sleep_for_ok k t th (u32 (now - tick + inc)) Hk Hc Et Hr) as (k' & E & Hs); [by apply (wrap_range 32)|].
  exists k'. split.
  - unfold rt_thread_delay_until, rt_tick_get. munfold. rewrite (self_run _ _ Hc).
    rewrite (on_timers_run _ k _ _ eq_refl), set_timers_id. fold now. rewrite bool_decide_true by done.
    unfold sleep_for, start_thread_timer in E. munfold in E.
    destruct (rt_thread_suspend t k) as [[e k1]|]; [|done]. destruct (on_timers _ k1) as [[e2 k2]|]; [|done].
    destruct (rt_timer_start _ k2) as [[e3 k3]|]; [|done]. by rewrite E.
  - replace (u32 (tick + inc + 2 * (now - tick))) with (u32 (now + u32 (now - tick + inc))); [done|].
    unfold wrap. rewrite Zplus_mod_idemp_r. f_equal. lia.
Qed.

(** Rt_thread_yield does not yield to threads of the same priority.  It only
    calls rt_schedule, and rt_schedule keeps the running thread against an equal
    priority unless the YIELD bit is set, which only the end of a time slice does. *)
Theorem yield_keeps_processor k t th p l :
  kinv None k -> s_current (k_sched k) = Some t -> s_threads (k_sched k) !! t = Some th -> stat_of th = RT_THREAD_RUNNING ->
  Z.land (th_stat th) RT_THREAD_STAT_YIELD = 0 -> s_lock_nest (k_sched k) = 0 ->
  s_queues (k_sched k) !! QReady p = Some l -> l <> [] -> (forall p' l', s_queues (k_sched k) !! QReady p' = Some l' -> l' <> [] -> th_current_priority th <= p') ->
  exists k', rt_thread_yield k = Some (RT_EOK, k') /\ s_current (k_sched k') = Some t.
Proof.
  intros Hk Hc Et Hr Hy Hn El Hne Hlow. destruct (kschedule_ok k t Hk Hc) as (s' & E & _ & (_ & _ & _ & _ & Hg0 & Hg & _)).
  exists (set_k_sched s' k). split; [unfold rt_thread_yield; munfold; by rewrite E|]. cbn.
  destruct (decide (s_group (k_sched k) = 0)) as [Hz|Hz]; [by rewrite Hg0|].
  destruct (Hg Hn Hz) as (c & thc & u & lu & q & Hc' & Ec & Eq & _ & Hcur). rewrite Hc in Hc'. injection Hc' as <-.
  rewrite Et in Ec. injection Ec as <-. rewrite Hcur. f_equal. specialize (Hlow q (u :: lu) Eq ltac:(done)).
  unfold keeps_cpu. rewrite (bool_decide_true (stat_of th = _)), (bool_decide_true (Z.land _ _ = 0)) by done. cbn [andb].
  destruct (decide (th_current_priority th < q)); [by rewrite bool_decide_true|].
  rewrite (bool_decide_true (th_current_priority th = q)) by lia. by rewrite orb_true_r.
Qed.
