(* ===== verification/Idle.v ===== *)
(** * The idle thread (idle.c)

    The hook list, and the reaping of the threads that rt_thread_exit,
    rt_thread_detach and rt_thread_delete put on the defunct list. *)
From S2P Require Import Prelude RtList KString Kernel Sched Timer Object Thread Lifecycle.
From stdpp Require Import base gmap sets list.
From Stdlib Require Import ZArith Lia.
#[local] Open Scope Z_scope.

(** ** Hooks *)

Definition RT_IDLE_HOOK_LIST_SIZE : nat := 4.
Definition RT_ENOSYS : Z := 6.

(** A hook is a function address; [None] is a null pointer.  The loops return
    the error code and the list. *)
Fixpoint rt_thread_idle_sethook (hook : Z) (idle_hook_list : list (option Z)) : Z * list (option Z) :=
  match idle_hook_list with
  | [] => (- RT_EFULL, [])
  | None :: l => (RT_EOK, Some hook :: l)
  | Some h :: l => let (ret, l) := rt_thread_idle_sethook hook l in (ret, Some h :: l)
  end.
Fixpoint rt_thread_idle_delhook (hook : Z) (idle_hook_list : list (option Z)) : Z * list (option Z) :=
  match idle_hook_list with
  | [] => (- RT_ENOSYS, [])
  | h :: l =>
      if bool_decide (h = Some hook) then (RT_EOK, None :: l)
      else let (ret, l) := rt_thread_idle_delhook hook l in (ret, h :: l)
  end.

(** ** Reaping *)

Definition has_defunct_thread : M kernel bool := l ← kq (q_list QDefunct); mret (bool_decide (l <> [])).

(** RT_KERNEL_FREE of the control block, which contains the thread timer. *)
Definition free_thread (t : nat) : M kernel unit :=
  on_sched (modify (fun s => set_s_threads (delete t (s_threads s)) s)) ;;
  on_timers (modify (fun s => set_t_timers (delete (ThreadTimer t) (t_timers s)) s)).

Section Idle.
(** The cleanup functions of the application. *)
Context (cleanup : nat -> M kernel unit).

(** One turn of the loop; [true] when the function returns after it. *)
Definition idle_reap : M kernel bool :=
  l ← kq (q_list QDefunct);
  match l with
  | [] => mret true
  | t :: _ =>
      kq (q_remove t) ;;
      on_sched rt_enter_critical ;;
      th ← get_thread t;
      (if bool_decide (th_cleanup th <> 0) then cleanup t else mret tt) ;;
      static ← rt_object_is_systemobject (OThread t);
      if (static : bool) then
        rt_object_detach (OThread t) ;;
        on_sched rt_exit_critical ;;
        mret true
      else
        on_sched rt_exit_critical ;;
        rt_object_delete (OThread t) ;;
        free_thread t ;;
        mret false
  end.

(** [false] when the fuel ran out. *)
Fixpoint rt_thread_idle_excute (fuel : nat) : M kernel bool :=
  match fuel with
  | O => mret false
  | S fuel =>
      more ← has_defunct_thread;
      if (more : bool) then
        stop ← idle_reap;
        if (stop : bool) then mret true else rt_thread_idle_excute fuel
      else mret true
  end.
End Idle.

Definition rt_thread_idle_init (stack stack_size : Z) : M kernel unit :=
  rt_thread_init idle_thread [116; 105; 100; 108; 101; 48] 0 0 stack stack_size (RT_THREAD_PRIORITY_MAX - 1) 32 ;;
  rt_thread_startup idle_thread ;;
  mret tt.
Definition rt_thread_idle_gethandler : nat := idle_thread.

(** ** Properties of the hook list *)

Lemma sethook_full hook l : None ∉ l -> rt_thread_idle_sethook hook l = (- RT_EFULL, l).
Proof.
  induction l as [|[h|] l IH]; intros Hn; [done| |by destruct Hn; apply elem_of_cons; left].
  cbn. rewrite IH; [done|]. intros Hin. apply Hn, elem_of_cons. by right.
Qed.
Lemma sethook_ok hook l1 l2 :
  None ∉ l1 -> rt_thread_idle_sethook hook (l1 ++ None :: l2) = (RT_EOK, l1 ++ Some hook :: l2).
Proof.
  induction l1 as [|[h|] l1 IH]; intros Hn; [done| |by destruct Hn; apply elem_of_cons; left].
  cbn. rewrite IH; [done|]. intros Hin. apply Hn, elem_of_cons. by right.
Qed.
Lemma delhook_ok hook l1 l2 :
  Some hook ∉ l1 -> rt_thread_idle_delhook hook (l1 ++ Some hook :: l2) = (RT_EOK, l1 ++ None :: l2).
Proof.
  induction l1 as [|h l1 IH]; intros Hn; cbn; [by rewrite bool_decide_true|].
  apply not_elem_of_cons in Hn as [Hh Hn]. rewrite bool_decide_false by congruence. by rewrite IH.
Qed.

(** ** Reaping *)

(** A thread that is on no list and not current leaves the thread table. *)
Lemma sinv_delete s t :
  sinv None s -> q_free (s_queues s) t -> s_current s <> Some t -> sinv None (set_s_threads (delete t (s_threads s)) s).
Proof.
  intros [Hwf Hh Hd Hg Hb Hp Hr Hrun Hn Hc] Hf Hcur. split; cbn; try done.
  - intros u thu [_ E]%lookup_delete_Some. by apply (Hp u).
  - intros u thu Hu [_ E]%lookup_delete_Some. by apply (Hr u).
  - intros u thu Hu [_ E]%lookup_delete_Some. by apply (Hrun u thu).
  - intros h l u E Hu. destruct (Hn h l u E Hu) as (_ & thu & Eu & Ht). split; [done|]. exists thu.
    rewrite lookup_delete_ne; [done|]. intros <-. by apply (Hf h l).
  - intros c Ec. destruct (Hc c Ec) as (thc & Et & Hne). exists thc. rewrite lookup_delete_ne; [done|]. congruence.
Qed.
Lemma tinv_delete s n : tinv s -> q_free (t_lists s) n -> tinv (set_t_timers (delete n (t_timers s)) s).
Proof.
  intros [Hw Hh Ht Hn Hr] Hf. split; cbn; try done.
  - intros h l m El Hin. destruct (Hn h l m El Hin) as (tm & Em & Ha). exists tm.
    rewrite lookup_delete_ne; [done|]. intros <-. by apply (Hf h l).
  - intros m tm [_ E]%lookup_delete_Some. by apply (Hr m).
Qed.

Lemma free_thread_ok k t :
  kinv None k -> q_free (s_queues (k_sched k)) t -> q_free (t_lists (k_timers k)) (ThreadTimer t) ->
  s_current (k_sched k) <> Some t ->
  exists k', free_thread t k = Some (tt, k') /\ kinv None k' /\ k_objs k' = k_objs k /\
    k_sched k' = set_s_threads (delete t (s_threads (k_sched k))) (k_sched k) /\
    k_timers k' = set_t_timers (delete (ThreadTimer t) (t_timers (k_timers k))) (k_timers k).
Proof.
  intros [Hs Ht Htt Hw Hu] Hq Hf Hc. eexists. split; [done|]. split; [|done]. split; cbn.
  - by apply sinv_delete.
  - by apply tinv_delete.
  - intros u thu [Hne E]%lookup_delete_Some. destruct (Htt u thu E) as (tm & Em & Hok). exists tm.
    rewrite lookup_delete_ne; [done|congruence].
  - intros h l u El Hin. destruct (Hw h l u El Hin) as (_ & thu & Eu & Hst). split; [done|]. exists thu.
    rewrite lookup_delete_ne; [done|]. intros <-. by apply (Hf h l).
  - intros m tm [_ E]%lookup_delete_Some. by apply (Hu m).
Qed.

(** Leaving a critical section: the processor stays or goes to a running thread. *)
Lemma exit_critical_current s :
  sinv None s -> 1 <= s_lock_nest s < 2 ^ 15 ->
  exists s', rt_exit_critical s = Some (tt, s') /\ sinv None s' /\
    sched_frame (set_s_lock_nest (s_lock_nest s - 1) s) s' /\
    (s_current s' = s_current s \/
     exists c th, s_current s' = Some c /\ s_threads s' !! c = Some th /\ stat_of th = RT_THREAD_RUNNING).
Proof.
  intros Hs Hn. destruct (exit_critical_ok s Hs Hn) as (s' & E & Hs' & Hn' & Hf & Hnone & _). exists s'. split_and!; try done.
  destruct (s_current s) as [c|] eqn:Hc; [|left; by rewrite Hnone].
  set (s1 := set_s_lock_nest (s_lock_nest s - 1) s) in *. assert (Hs1 : sinv None s1) by (by apply sinv_lock_nest).
  unfold rt_exit_critical in E. munfold in E. cbn [s_lock_nest set_s_lock_nest] in E. rewrite (swrap_id 16) in E by lia.
  fold s1 in E. destruct (bool_decide (s_lock_nest s - 1 <= 0)) eqn:Hz; [apply bool_decide_eq_true in Hz|injection E as <-; by left].
  replace (set_s_lock_nest 0 s1) with s1 in E by (unfold s1; replace (s_lock_nest s - 1) with 0 by lia; done).
  cbn [s_current set_s_lock_nest s1] in E. rewrite Hc, bool_decide_true in E by done.
  destruct (schedule_ok s1 c Hs1 Hc) as (s2 & E2 & _ & _ & _ & Hl & Hi & Hg & Hrun). rewrite E2 in E. injection E as ->.
  destruct (decide (s_group s1 = 0)) as [H0|Hne]; [left; rewrite Hi; try done; cbn; lia|].
  right. destruct (Hrun ltac:(cbn; lia) (or_introl Hne)) as (c' & th' & ? & ? & ? & _). eauto.
Qed.

(** What the cleanup functions promise: they release resources of the application
    and leave the threads, timers and objects alone. *)
Class CleanupSpec (cleanup : nat -> M kernel unit) : Prop := {
  cleanup_spec : forall t k, kinv None k -> exists k', cleanup t k = Some (tt, k') /\ kinv None k' /\
    k_sched k' = k_sched k /\ k_objs k' = k_objs k /\ k_timers k' = k_timers k;
}.

Definition is_static (objs : objects) (t : nat) : bool :=
  match o_objs objs !! OThread t with
  | Some ob => bool_decide (Z.land (ob_type ob) RT_Object_Class_Static <> 0)
  | None => false
  end.
(** The defunct threads left after a call, and the threads it deletes. *)
Fixpoint reap_left (objs : objects) (l : list nat) : list nat :=
  match l with [] => [] | t :: l => if is_static objs t then l else reap_left objs l end.
Fixpoint reaped (objs : objects) (l : list nat) : list nat :=
  match l with [] => [] | t :: l => if is_static objs t then [] else t :: reaped objs l end.

Record idle_pre (k : kernel) (l : list nat) : Prop := {
  ip_kinv : kinv None k;
  ip_objs : oinv (k_objs k);
  ip_lock : can_lock k;
  ip_list : s_queues (k_sched k) !! QDefunct = Some l;
  ip_cur : forall c, s_current (k_sched k) = Some c -> c ∉ l;
  ip_obj : forall t, t ∈ l -> is_Some (o_objs (k_objs k) !! OThread t);
}.

Lemma defunct_thread k l t : idle_pre k l -> t ∈ l ->
  exists th, s_threads (k_sched k) !! t = Some th /\ stat_of th = RT_THREAD_CLOSE /\ q_free (t_lists (k_timers k)) (ThreadTimer t).
Proof.
  intros [Hk _ _ El _ _] Hin. destruct (si_nodes _ _ (ki_sched _ _ Hk) _ _ _ El Hin) as (_ & th & Et & Hst).
  exists th. split_and!; try done. intros h l' El' Hin'. destruct (ki_wait _ _ Hk h l' t El' Hin') as (_ & th' & Et' & Hs).
  rewrite Et in Et'. injection Et' as <-. cbn in Hst. by rewrite Hst in Hs.
Qed.

(** The first defunct thread is taken off the list inside the critical section. *)
Lemma reap_unlink k t l :
  idle_pre k (t :: l) ->
  exists s1, let k1 := set_k_sched s1 k in
    (kq (q_remove t) ;; on_sched rt_enter_critical) k = Some (tt, k1) /\ kinv None k1 /\
    s_lock_nest s1 = s_lock_nest (k_sched k) + 1 /\ s_queues s1 !! QDefunct = Some l /\
    s1 = set_s_lock_nest (s_lock_nest (k_sched k) + 1) (set_s_queues (list_del t <$> s_queues (k_sched k)) (k_sched k)).
Proof.
  intros Hp. destruct (defunct_thread k _ t Hp ltac:(set_solver)) as (th & Et & Hst & Hf). destruct Hp as [Hk Ho Hl El Hc Hob].
  set (s0 := set_s_queues (list_del t <$> s_queues (k_sched k)) (k_sched k)).
  set (s1 := set_s_lock_nest (s_lock_nest s0 + 1) s0). exists s1. cbn zeta.
  assert (Hs0 : sinv None s0).
  { apply (sinv_close t _ th); [|done|by rewrite Hst..].
    replace s0 with (set_s_group (s_group (k_sched k)) s0) by (by destruct (k_sched k)).
    apply (sinv_remove t _ th); [apply (ki_sched _ _ Hk)|done|apply (si_group _ _ (ki_sched _ _ Hk))|].
    intros p l0 (l1 & E1 & ->)%qrem_lookup. rewrite (si_bits _ _ (ki_sched _ _ Hk) p l1 E1), list_del_notin; [done|].
    intros Hin. destruct (si_nodes _ _ (ki_sched _ _ Hk) _ _ _ E1 Hin) as (_ & th' & E' & Htag & _).
    rewrite Et in E'. injection E' as <-. by rewrite Hst in Htag. }
  split_and!; try done.
  - unfold kq. munfold. rewrite (on_sched_run _ _ _ _ (q_remove_run _ t)).
    by rewrite (on_sched_run _ _ tt s1) by (by apply enter_critical_run).
  - destruct Hk as [_ H2 H3 H4 H5]. split; try done. by apply sinv_lock_nest.
  - cbn. rewrite lookup_fmap, El. change (Some (list_del t (t :: l)) = Some l). rewrite list_del_head; [done|].
    by apply (proj1 (si_wf _ _ (ki_sched _ _ Hk)) QDefunct).
Qed.

Lemma reap_left_ext objs objs' l :
  (forall t, t ∈ l -> o_objs objs' !! OThread t = o_objs objs !! OThread t) ->
  reap_left objs' l = reap_left objs l /\ reaped objs' l = reaped objs l.
Proof.
  induction l as [|t l IH]; intros He; [done|]. destruct IH as [I1 I2]; [intros u Hu; apply He, elem_of_cons; by right|].
  cbn. unfold is_static. rewrite He by (apply elem_of_cons; by left). rewrite I1, I2. done.
Qed.

Lemma object_delete_ok o k ob :
  oinv (k_objs k) -> o_objs (k_objs k) !! o = Some ob ->
  exists objs', rt_object_delete o k = Some (tt, set_k_objs objs' k) /\ oinv objs' /\
    (forall o', o' <> o -> o_objs objs' !! o' = o_objs (k_objs k) !! o') /\ o_lists objs' = list_del o <$> o_lists (k_objs k).
Proof.
  intros Ho Eo. destruct (object_detach_ok o k ob Ho Eo) as (E & Ho' & Hf). cbn zeta in *. set (objs1 := set_o_lists _ _) in *.
  exists (set_o_objs (delete o (o_objs objs1)) objs1). split_and!.
  - unfold rt_object_detach, rt_object_delete, on_objs, rd_obj in *. munfold. munfold in E. rewrite Eo in *. cbn in *.
    by destruct k.
  - destruct Ho' as [H1 H2 H3]. split; try done. cbn. intros c l o' El Hin. destruct (H3 c l o' El Hin) as (ob' & Eo' & Ht).
    exists ob'. rewrite lookup_delete_ne; [done|]. intros <-. by apply (Hf c l).
  - intros o' Hne. cbn. by rewrite lookup_delete_ne, lookup_insert_ne by congruence.
  - done.
Qed.

(** A closed thread stays closed, off the lists and off the processor. *)
Lemma closed_frame s s' t th :
  sched_frame s s' -> s_threads s !! t = Some th -> stat_of th = RT_THREAD_CLOSE ->
  exists th', s_threads s' !! t = Some th' /\ stat_of th' = RT_THREAD_CLOSE.
Proof.
  intros Hf Et Hst. destruct (frame_lookup _ _ _ _ Hf Et) as (th' & E' & _ & Hs). exists th'. split; [done|].
  destruct Hs as [<-|[Ha _]]; [done|]. unfold active in Ha. rewrite Hst in Ha. by destruct Ha.
Qed.
Lemma closed_free s t th :
  sinv None s -> s_threads s !! t = Some th -> stat_of th = RT_THREAD_CLOSE ->
  (forall l, s_queues s !! QDefunct = Some l -> t ∉ l) -> q_free (s_queues s) t.
Proof.
  intros Hs Et Hst Hd h l El Hin. destruct (si_nodes _ _ Hs _ _ _ El Hin) as (_ & th' & E' & Htag).
  rewrite Et in E'. injection E' as <-. destruct h; cbn in Htag; try (by rewrite Hst in Htag).
  - rewrite Hst in Htag. by destruct Htag.
  - by apply (Hd l).
Qed.

(** Leaving the critical section of one turn. *)
Record reap_exit (k : kernel) (t : nat) (l : list nat) (s3 : sched) : Prop := {
  re_sinv : sinv None s3;
  re_frame : sched_frame (set_s_queues (list_del t <$> s_queues (k_sched k)) (k_sched k)) s3;
  re_list : s_queues s3 !! QDefunct = Some l;
  re_free : q_free (s_queues s3) t;
  re_cur : forall c, s_current s3 = Some c -> c ∉ t :: l;
}.

Lemma reap_exit_ok k t l s1 :
  idle_pre k (t :: l) -> sinv None s1 -> s1 = set_s_lock_nest (s_lock_nest (k_sched k) + 1)
    (set_s_queues (list_del t <$> s_queues (k_sched k)) (k_sched k)) ->
  s_queues s1 !! QDefunct = Some l ->
  exists s3, rt_exit_critical s1 = Some (tt, s3) /\ reap_exit k t l s3.
Proof.
  intros Hp Hs1 Es1 El1. destruct (defunct_thread k _ t Hp ltac:(set_solver)) as (th & Et & Hst & _).
  assert (Hnd : NoDup (t :: l)) by (apply (proj1 (si_wf _ _ (ki_sched _ _ (ip_kinv _ _ Hp))) QDefunct), (ip_list _ _ Hp)).
  apply NoDup_cons in Hnd as [Htl _].
  destruct (exit_critical_current s1 Hs1) as (s3 & E3 & Hs3 & Hf3 & Hcur); [destruct (ip_lock _ _ Hp); subst s1; cbn; lia|].
  assert (Hf : sched_frame (set_s_queues (list_del t <$> s_queues (k_sched k)) (k_sched k)) s3).
  { subst s1. cbn in Hf3. replace (s_lock_nest (k_sched k) + 1 - 1) with (s_lock_nest (k_sched k)) in Hf3 by lia.
    by destruct Hf3; split. }
  assert (Eld : s_queues s3 !! QDefunct = Some l) by (rewrite (sf_queues _ _ Hf) by done; by rewrite <- El1, Es1).
  exists s3. split; [done|]. split; try done.
  - destruct (closed_frame _ _ t th Hf Et Hst) as (th' & Et' & Hst'). apply (closed_free s3 t th'); try done.
    intros l' El'. congruence.
  - intros c Ec Hin. destruct Hcur as [Hcur|(c' & thc & Ec' & Etc & Hrc)].
    { apply (ip_cur _ _ Hp c); [|done]. rewrite <- Ec, Hcur. by rewrite Es1. }
    rewrite Ec in Ec'. injection Ec' as <-. destruct (defunct_thread k _ c Hp Hin) as (thc0 & Ec0 & Hsc & _).
    destruct (closed_frame _ _ c thc0 Hf Ec0 Hsc) as (thc' & Ec' & Hsc'). rewrite Etc in Ec'. injection Ec' as <-.
    by rewrite Hrc in Hsc'.
Qed.

Section Reaping.
Context (cleanup : nat -> M kernel unit) `{!CleanupSpec cleanup}.

Lemma cleanup_run t th k :
  kinv None k -> exists k', (if bool_decide (th_cleanup th <> 0) then cleanup t else mret tt) k = Some (tt, k') /\
    kinv None k' /\ k_sched k' = k_sched k /\ k_objs k' = k_objs k /\ k_timers k' = k_timers k.
Proof. intros Hk. case_bool_decide; [by apply cleanup_spec|by exists k]. Qed.

(** The first half of a turn, up to the test for a static thread. *)
Lemma reap_prefix k t l :
  idle_pre k (t :: l) ->
  exists k2 s3, idle_reap cleanup k = (if is_static (k_objs k) t
      then rt_object_detach (OThread t) ;; on_sched rt_exit_critical ;; mret true
      else on_sched rt_exit_critical ;; rt_object_delete (OThread t) ;; free_thread t ;; mret false) k2 /\
    kinv None (set_k_sched s3 k2) /\ k_objs k2 = k_objs k /\ k_timers k2 = k_timers k /\
    rt_exit_critical (k_sched k2) = Some (tt, s3) /\ reap_exit k t l s3.
Proof.
  intros Hp. destruct (defunct_thread k _ t Hp ltac:(set_solver)) as (th & Et & Hst & Hf).
  destruct (reap_unlink k t l Hp) as (s1 & E1 & Hk1 & Hn1 & El1 & Es1). cbn zeta in *.
  destruct (ip_obj _ _ Hp t ltac:(set_solver)) as [ob Eo].
  destruct (cleanup_run t th _ Hk1) as (k2 & E2 & Hk2 & Es2 & Eo2 & Etm2). cbn in Eo2, Etm2, Es2.
  destruct (reap_exit_ok k t l s1 Hp) as (s3 & E3 & Hre); try done; [apply (ki_sched _ _ Hk1)|].
  exists k2, s3. split_and!; try done; [|..|by rewrite Es2].
  - unfold idle_reap. munfold. rewrite (kq_list_run _ _ _ (ip_list _ _ Hp)). munfold in E1.
    destruct (kq (q_remove t) k) as [[[] k0]|]; [|done]. rewrite E1.
    rewrite (get_thread_run _ t th) by (cbn; by rewrite Es1). munfold in E2. rewrite E2.
    unfold rt_object_is_systemobject. munfold. rewrite (on_objs_run _ k2 ob (k_objs k)) by (unfold rd_obj; by rewrite Eo2, Eo).
    rewrite <- Eo2, set_objs_id. unfold is_static. rewrite Eo2, Eo. by case_bool_decide.
  - set (s1' := set_s_lock_nest (s_lock_nest (k_sched k)) s1).
    replace (set_k_sched s3 k2) with (set_k_sched s3 (set_k_sched s1' k2)) by (by destruct k2).
    apply kinv_frame; [|apply (re_sinv _ _ _ _ Hre)|]; cbn.
    + destruct Hk2 as [H1 H2 H3 H4 H5]. cbn in Es2. rewrite Es2 in *. split; try done. by apply sinv_lock_nest.
    + replace s1' with (set_s_queues (list_del t <$> s_queues (k_sched k)) (k_sched k)); [apply (re_frame _ _ _ _ Hre)|].
      subst s1' s1. by destruct (k_sched k).
Qed.

(** One turn: a dynamic thread is deleted and the loop goes on, a static one is
    detached and the function returns. *)
Lemma idle_reap_ok k t l :
  idle_pre k (t :: l) ->
  exists k', idle_reap cleanup k = Some (is_static (k_objs k) t, k') /\ idle_pre k' l /\
    (forall u, u ∈ l -> o_objs (k_objs k') !! OThread u = o_objs (k_objs k) !! OThread u) /\
    (forall u, s_threads (k_sched k) !! u = None -> s_threads (k_sched k') !! u = None) /\
    (is_static (k_objs k) t = false -> s_threads (k_sched k') !! t = None).
Proof.
  intros Hp. destruct (reap_prefix k t l Hp) as (k2 & s3 & Er & Hk3 & Eo2 & Etm2 & E3 & [Hs3 Hfr El3 Hfree Hcur]).
  destruct (defunct_thread k _ t Hp ltac:(set_solver)) as (th & Et & Hst & Hf).
  destruct (ip_obj _ _ Hp t ltac:(set_solver)) as [ob Eo].
  assert (Hnd : t ∉ l).
  { pose proof (proj1 (si_wf _ _ (ki_sched _ _ (ip_kinv _ _ Hp))) QDefunct _ (ip_list _ _ Hp)) as Hnd. by apply NoDup_cons in Hnd as [? _]. }
  assert (Hlk : can_lock (set_k_sched s3 k2)) by (unfold can_lock; cbn; rewrite (sf_lock _ _ Hfr); apply (ip_lock _ _ Hp)).
  assert (Hnone : forall u, s_threads (k_sched k) !! u = None -> s_threads s3 !! u = None) by (intros u Hu; by apply (frame_none _ _ _ Hfr)).
  assert (Hcl : forall c, s_current s3 = Some c -> c ∉ l) by (intros c Hc Hin; apply (Hcur c Hc), elem_of_cons; by right).
  rewrite Er. destruct (is_static (k_objs k) t) eqn:Hstat; munfold.
  - destruct (object_detach_ok (OThread t) k2 ob) as (Ed & Ho' & _); [rewrite Eo2; apply (ip_objs _ _ Hp)|by rewrite Eo2|].
    cbn zeta in *. set (objs' := set_o_lists _ _) in *. rewrite Ed.
    rewrite (on_sched_run _ (set_k_objs objs' k2) _ _ E3). eexists. split; [done|].
    assert (Hob : forall u, u ∈ l -> o_objs objs' !! OThread u = o_objs (k_objs k) !! OThread u).
    { intros u Hu. cbn. rewrite lookup_insert_ne by (intros [= ->]; done). by rewrite Eo2. }
    split_and!; try done. split; try done; [by destruct Hk3; split|].
    intros u Hu. cbn. rewrite Hob by done. apply (ip_obj _ _ Hp), elem_of_cons. by right.
  - rewrite (on_sched_run _ k2 _ _ E3).
    destruct (object_delete_ok (OThread t) (set_k_sched s3 k2) ob) as (objs' & Ed & Ho' & Hob' & _); [cbn; rewrite Eo2; apply (ip_objs _ _ Hp)|cbn; by rewrite Eo2|].
    rewrite Ed. destruct (free_thread_ok (set_k_objs objs' (set_k_sched s3 k2)) t) as (k' & Ef & Hk' & Eo' & Es' & _);
      [by apply kinv_set_objs|done|cbn; by rewrite Etm2|intros Hc; apply (Hcur t Hc); set_solver|].
    rewrite Ef. exists k'. split; [done|].
    assert (Hob : forall u, u ∈ l -> o_objs (k_objs k') !! OThread u = o_objs (k_objs k) !! OThread u).
    { intros u Hu. rewrite Eo'. cbn. rewrite Hob' by (intros [= ->]; done). cbn. by rewrite Eo2. }
    split_and!; try done.
    + split; try done; [by rewrite Eo'|unfold can_lock; by rewrite Es'|by rewrite Es'|by rewrite Es'|].
      intros u Hu. rewrite Hob by done. apply (ip_obj _ _ Hp), elem_of_cons. by right.
    + intros u Hu. rewrite Es'. cbn. apply lookup_delete_None. right. by apply Hnone.
    + intros _. rewrite Es'. cbn. apply lookup_delete_eq.
Qed.

End Reaping.

(** Contrary to its comment, one call of rt_thread_idle_excute does not do all the
    cleanups: a static thread at the head of the defunct list makes it return, and the
    threads behind it stay. *)
Theorem idle_stops_at_static cleanup `{!CleanupSpec cleanup} k t l :
  idle_pre k (t :: l) -> is_static (k_objs k) t = true ->
  exists k', rt_thread_idle_excute cleanup (S (S (length l))) k = Some (true, k') /\
    s_queues (k_sched k') !! QDefunct = Some l.
Proof.
  intros Hp Hs. cbn [rt_thread_idle_excute]. unfold has_defunct_thread. munfold. rewrite (kq_list_run _ _ _ (ip_list _ _ Hp)).
  rewrite bool_decide_true by done. destruct (idle_reap_ok cleanup k t l Hp) as (k1 & E1 & Hp1 & _). rewrite E1, Hs.
  exists k1. split; [done|]. apply (ip_list _ _ Hp1).
Qed.
