(* ===== verification/Boot.v ===== *)
(** * Start of the kernel (components.c)

    rtthread_startup after the board initialisation: the timer and scheduler
    tables, the main, timer and idle threads and the first context switch.

    The invariants of the components are decidable on a concrete kernel;
    [kinv_check] and [oinv_check] are the executable forms. *)
From S2P Require Import Prelude RtList KString Kernel Sched Timer Object Thread Lifecycle Idle.
From stdpp Require Import base gmap sets list sorting.
From Stdlib Require Import ZArith Lia.
#[local] Open Scope Z_scope.

(** ** The boot sequence *)

Definition RT_MAIN_THREAD_PRIORITY : Z := 10.
Definition RT_MAIN_THREAD_STACK_SIZE : Z := 2048.
Definition IDLE_THREAD_STACK_SIZE : Z := 256.
Definition RT_TIMER_THREAD_STACK_SIZE : Z := 512.

(** The main thread: "main", with the addresses its two allocations return.
    The assertion that they succeed is part of the code. *)
Definition rt_application_init (malloc : option nat) (stack : option Z) : M kernel unit :=
  tid ← rt_thread_create [109; 97; 105; 110] 0 0 RT_MAIN_THREAD_STACK_SIZE RT_MAIN_THREAD_PRIORITY 20 malloc stack;
  match tid with
  | Some t => rt_thread_startup t ;; mret tt
  | None => ub
  end.

(** The globals before the first call: zeroed memory and the static object table. *)
Definition zero_kernel : kernel :=
  Kernel boot_sched (Timers ∅ ∅ 0 0) boot_objects ∅ ∅ ∅ ∅ ∅ ∅ (Heap 0 0 0 0 0 0 ∅).

(** rtthread_startup after rt_hw_board_init and rt_show_version. *)
Definition rtthread_startup (malloc : option nat) (stack : option Z) (timer_stack idle_stack : Z) : M kernel unit :=
  on_timers rt_system_timer_init ;;
  on_sched rt_system_scheduler_init ;;
  rt_application_init malloc stack ;;
  rt_system_timer_thread_init timer_stack RT_TIMER_THREAD_STACK_SIZE ;;
  rt_thread_idle_init idle_stack IDLE_THREAD_STACK_SIZE ;;
  on_sched rt_system_scheduler_start.

(** ** Deciding the invariants *)

Section Checks.
Context {H N : Type} `{Countable H} `{EqDecision N}.
Implicit Types q : gmap H (list N).

Definition qwf_check q : Prop :=
  map_Forall (fun h1 l1 => NoDup l1 /\ map_Forall (fun h2 l2 => h1 = h2 \/ Forall (fun n => n ∉ l2) l1) q) q.
#[global] Instance qwf_check_dec q : Decision (qwf_check q).
Proof. apply _. Defined.

Lemma qwf_check_ok q : qwf_check q -> qwf q.
Proof.
  intros Hc. split; [intros h l E; by apply (Hc h l E)|].
  intros h1 h2 l1 l2 n E1 E2 H1 H2. destruct (Hc h1 l1 E1) as [_ Hd]. destruct (Hd h2 l2 E2) as [?|Hf]; [done|].
  rewrite Forall_forall in Hf. by destruct (Hf n H1).
Qed.
End Checks.

#[global] Instance prio_ok_dec th : Decision (prio_ok th).
Proof. unfold prio_ok. apply _. Defined.
#[global] Instance tag_ok_dec h th : Decision (tag_ok h th).
Proof. destruct h; cbn; apply _. Defined.

Definition opt_prop {A} (P : A -> Prop) (o : option A) : Prop := match o with Some a => P a | None => False end.
#[global] Instance opt_prop_dec {A} (P : A -> Prop) o : (forall a, Decision (P a)) -> Decision (opt_prop P o).
Proof. destruct o; apply _. Defined.
Lemma opt_prop_ex {A} (P : A -> Prop) o : opt_prop P o -> exists a, o = Some a /\ P a.
Proof. destruct o; [eauto|done]. Qed.

Definition ready_key (h : qhead) : Prop := match h with QReady p => 0 <= p < 32 | _ => True end.
#[global] Instance ready_key_dec h : Decision (ready_key h).
Proof. destruct h; cbn; apply _. Defined.
Definition ready_bit (g : Z) (h : qhead) (l : list nat) : Prop :=
  match h with QReady p => Z.testbit g p = bool_decide (l <> []) | _ => True end.
#[global] Instance ready_bit_dec g h l : Decision (ready_bit g h l).
Proof. destruct h; cbn; apply _. Defined.

Definition sinv_check (s : sched) : Prop :=
  qwf_check (s_queues s) /\
  Forall (fun p => is_Some (s_queues s !! QReady p)) (seqZ 0 32) /\
  map_Forall (fun h _ => ready_key h) (s_queues s) /\
  is_Some (s_queues s !! QDefunct) /\
  0 <= s_group s < 2 ^ 32 /\
  map_Forall (ready_bit (s_group s)) (s_queues s) /\
  map_Forall (fun t th => prio_ok th /\
    (stat_of th = RT_THREAD_READY -> opt_prop (fun l => t ∈ l) (s_queues s !! QReady (th_current_priority th))) /\
    (stat_of th = RT_THREAD_RUNNING -> s_current s = Some t)) (s_threads s) /\
  map_Forall (fun h l => Forall (fun t => opt_prop (tag_ok h) (s_threads s !! t)) l) (s_queues s) /\
  opt_prop (fun c => opt_prop (fun th => stat_of th <> RT_THREAD_READY) (s_threads s !! c)) (s_current s).
#[global] Instance sinv_check_dec s : Decision (sinv_check s).
Proof. unfold sinv_check. apply _. Defined.

Lemma sinv_check_ok s : sinv_check s -> sinv None s.
Proof.
  intros (Hwf & Hh & Hk & Hd & Hg & Hb & Ht & Hn & Hc). split; try done.
  - by apply qwf_check_ok.
  - intros p. split; [intros [l E]; by apply (Hk _ _ E)|]. intros Hp. rewrite Forall_forall in Hh. apply Hh, elem_of_seqZ. lia.
  - intros p l E. by apply (Hb _ _ E).
  - intros t th E. by apply (Ht _ _ E).
  - intros t th _ E Hst. destruct (Ht _ _ E) as (_ & Hr & _). by destruct (opt_prop_ex _ _ (Hr Hst)) as (l & ? & ?); exists l.
  - intros t th _ E Hst. by apply (Ht _ _ E).
  - intros h l t E Hin. split; [done|]. pose proof (Hn h l E) as Hf. rewrite Forall_forall in Hf. by apply opt_prop_ex, Hf.
  - intros c E. rewrite E in Hc. cbn in Hc. destruct (opt_prop_ex _ _ Hc) as (th & Et & Hs). by exists th.
Qed.

#[global] Instance activated_dec tm : Decision (activated tm).
Proof. unfold activated. apply _. Defined.
#[global] Instance tm_range_dec tm : Decision (tm_range tm).
Proof. unfold tm_range. apply _. Defined.

Definition tinv_check (s : timers) : Prop :=
  qwf_check (t_lists s) /\ is_Some (t_lists s !! TLHard) /\ is_Some (t_lists s !! TLSoft) /\ 0 <= t_tick s < 2 ^ 32 /\
  map_Forall (fun h l => Forall (fun n => opt_prop (fun tm => activated tm /\ timer_list_of (tm_flag tm) = h) (t_timers s !! n)) l) (t_lists s) /\
  map_Forall (fun _ tm => tm_range tm) (t_timers s).
#[global] Instance tinv_check_dec s : Decision (tinv_check s).
Proof. unfold tinv_check. apply _. Defined.

Lemma tinv_check_ok s : tinv_check s -> tinv s.
Proof.
  intros (Hwf & Hh & Hs & Ht & Hn & Hr). split; try done.
  - by apply qwf_check_ok.
  - by intros [].
  - intros h l n E Hin. pose proof (Hn h l E) as Hf. rewrite Forall_forall in Hf. by apply opt_prop_ex, Hf.
Qed.

#[global] Instance timeout_func_eq_dec : EqDecision timeout_func.
Proof. solve_decision. Defined.
#[global] Instance thread_timer_ok_dec t tm : Decision (thread_timer_ok t tm).
Proof. unfold thread_timer_ok. apply _. Defined.

Definition user_timer_check (n : timer_id) (tm : rt_timer) : Prop :=
  match n, tm_func tm with UserTimer _, TF_user _ => True | UserTimer _, _ => False | _, _ => True end.
#[global] Instance user_timer_check_dec n tm : Decision (user_timer_check n tm).
Proof. unfold user_timer_check. destruct n, (tm_func tm); apply _. Defined.

Definition timer_wait_check (s : sched) (n : timer_id) : Prop :=
  match n with ThreadTimer t => opt_prop (fun th => stat_of th = RT_THREAD_SUSPEND) (s_threads s !! t) | _ => True end.
#[global] Instance timer_wait_check_dec s n : Decision (timer_wait_check s n).
Proof. destruct n; cbn; apply _. Defined.

Definition kinv_check (k : kernel) : Prop :=
  sinv_check (k_sched k) /\ tinv_check (k_timers k) /\
  map_Forall (fun t _ => opt_prop (thread_timer_ok t) (t_timers (k_timers k) !! ThreadTimer t)) (s_threads (k_sched k)) /\
  map_Forall (fun _ l => Forall (timer_wait_check (k_sched k)) l) (t_lists (k_timers k)) /\
  map_Forall user_timer_check (t_timers (k_timers k)).
#[global] Instance kinv_check_dec k : Decision (kinv_check k).
Proof. unfold kinv_check. apply _. Defined.

Lemma kinv_check_ok k : kinv_check k -> kinv None k.
Proof.
  intros (Hs & Ht & Htt & Hw & Hu). split.
  - by apply sinv_check_ok.
  - by apply tinv_check_ok.
  - intros t th E. by apply opt_prop_ex, (Htt t th E).
  - intros h l t E Hin. split; [done|]. pose proof (Hw h l E) as Hf. rewrite Forall_forall in Hf. by apply opt_prop_ex, (Hf _ Hin).
  - intros m tm E. pose proof (Hu _ _ E) as Hc. unfold user_timer_check in Hc. destruct (tm_func tm); [done|by eexists].
Qed.

Definition oinv_check (s : objects) : Prop :=
  qwf_check (o_lists s) /\ Forall (fun c => is_Some (o_lists s !! c)) rt_object_container /\
  map_Forall (fun c _ => c ∈ rt_object_container) (o_lists s) /\
  map_Forall (fun c l => Forall (fun o => opt_prop (fun ob => Z.land (ob_type ob) (Z.lnot RT_Object_Class_Static) = c) (o_objs s !! o)) l) (o_lists s).
#[global] Instance oinv_check_dec s : Decision (oinv_check s).
Proof. unfold oinv_check. apply _. Defined.

Lemma oinv_check_ok s : oinv_check s -> oinv s.
Proof.
  intros (Hwf & Hh & Hk & Hn). split.
  - by apply qwf_check_ok.
  - intros c. split; [intros [l E]; by apply (Hk c l)|]. rewrite Forall_forall in Hh. apply Hh.
  - intros c l o E Hin. pose proof (Hn c l E) as Hf. rewrite Forall_forall in Hf. by apply opt_prop_ex, Hf.
Qed.

(** A decidable fact about a concrete kernel, by evaluation. *)
Lemma checked (P : Prop) `{!Decision P} : bool_decide P = true -> P.
Proof. apply bool_decide_eq_true. Qed.
Ltac evaluate := match goal with |- ?P => refine (checked P _); vm_compute; reflexivity end.

(** ** The booted kernel *)

Definition booted (stack timer_stack idle_stack : Z) : kernel :=
  default zero_kernel (snd <$> rtthread_startup (Some 2%nat) (Some stack) timer_stack idle_stack zero_kernel).

Lemma booted_run stack timer_stack idle_stack :
  rtthread_startup (Some 2%nat) (Some stack) timer_stack idle_stack zero_kernel = Some (tt, booted stack timer_stack idle_stack).
Proof.
  assert (H : is_Some (rtthread_startup (Some 2%nat) (Some stack) timer_stack idle_stack zero_kernel)) by evaluate.
  destruct H as [[[] k] E]. unfold booted. by rewrite E.
Qed.
Lemma booted_kinv stack timer_stack idle_stack : kinv None (booted stack timer_stack idle_stack).
Proof. apply kinv_check_ok. evaluate. Qed.
Lemma booted_oinv stack timer_stack idle_stack : oinv (k_objs (booted stack timer_stack idle_stack)).
Proof. apply oinv_check_ok. evaluate. Qed.

(** From the zeroed globals, rtthread_startup reaches a kernel in which every
    invariant of the scheduler, the timers and the objects holds, the timer thread
    (priority 4) runs, the main thread (10) and the idle thread (31) are ready and the
    bitmap has exactly their two bits, whatever addresses the stacks have. *)
Theorem boot_establishes_invariants stack timer_stack idle_stack :
  exists k, rtthread_startup (Some 2%nat) (Some stack) timer_stack idle_stack zero_kernel = Some (tt, k) /\
    kinv None k /\ oinv (k_objs k) /\ s_current (k_sched k) = Some timer_thread /\ s_lock_nest (k_sched k) = 0 /\
    s_queues (k_sched k) !! QReady RT_MAIN_THREAD_PRIORITY = Some [2%nat] /\
    s_queues (k_sched k) !! QReady (RT_THREAD_PRIORITY_MAX - 1) = Some [idle_thread] /\
    s_group (k_sched k) = 2 ^ RT_MAIN_THREAD_PRIORITY + 2 ^ (RT_THREAD_PRIORITY_MAX - 1).
Proof.
  exists (booted stack timer_stack idle_stack). split; [apply booted_run|].
  split; [apply booted_kinv|]. split; [apply booted_oinv|]. vm_compute. done.
Qed.
