(* ===== verification/Ipc.v ===== *)
(** * The thread lists of IPC objects (rt-thread/src/ipc.c, first part)

    rt_ipc_list_suspend, rt_ipc_list_resume and rt_ipc_list_resume_all, on which
    semaphores, mutexes, events, mailboxes and message queues are built, and the
    common part of the calls that wait with a timeout. *)
From S2P Require Import Prelude RtList Kernel Sched Timer Object Thread.
From stdpp Require Import base gmap sets list sorting.
From Stdlib Require Import ZArith Lia.
#[local] Open Scope Z_scope.

(** ** Operations *)

Definition rt_ipc_object_init (h : qhead) : M kernel Z := kq (q_init h) ;; mret RT_EOK.

(** The first thread of the list with a lower priority than [p]. *)
Fixpoint find_lower (p : Z) (l : list nat) : M kernel (option nat) :=
  match l with
  | [] => mret None
  | n :: l =>
      sthread ← get_thread n;
      if bool_decide (p < th_current_priority sthread) then mret (Some n) else find_lower p l
  end.

Definition rt_ipc_list_suspend (h : qhead) (t : nat) (flag : Z) : M kernel Z :=
  rt_thread_suspend t ;;
  (if bool_decide (flag = RT_IPC_FLAG_FIFO) then kq (q_insert_before h t)
   else if bool_decide (flag = RT_IPC_FLAG_PRIO) then
     l ← kq (q_list h);
     th ← get_thread t;
     pos ← find_lower (th_current_priority th) l;
     match pos with
     | Some sthread => kq (q_insert_before_node h sthread t)
     | None => kq (q_insert_before h t)
     end
   else mret tt) ;;
  mret RT_EOK.

(** An empty list has no first entry to resume. *)
Definition rt_ipc_list_resume (h : qhead) : M kernel Z :=
  l ← kq (q_list h);
  match l with
  | [] => ub
  | t :: _ => rt_thread_resume t ;; mret RT_EOK
  end.

(** [false] when the fuel ran out; the length of the list is enough. *)
Fixpoint resume_all_loop (fuel : nat) (h : qhead) : M kernel bool :=
  match fuel with
  | O => l ← kq (q_list h); mret (bool_decide (l = []))
  | S fuel =>
      l ← kq (q_list h);
      match l with
      | [] => mret true
      | t :: _ =>
          set_thread t (set_th_error (- RT_ERROR)) ;;
          rt_thread_resume t ;;
          resume_all_loop fuel h
      end
  end.
Definition rt_ipc_list_resume_all (h : qhead) : M kernel bool :=
  l ← kq (q_list h);
  resume_all_loop (length l) h.

(** The waiting part shared by the take and receive calls: the caller is put on
    the list and its timer is armed for a positive [time]. *)
Definition ipc_wait (h : qhead) (t : nat) (flag time : Z) : M kernel unit :=
  rt_ipc_list_suspend h t flag ;;
  (if bool_decide (time > 0) then start_thread_timer t time else mret tt).

(** ** Lemmas *)

Definition is_wait (h : qhead) : Prop := match h with QReady _ | QDefunct => False | _ => True end.

Lemma is_wait_tag h th : is_wait h -> tag_ok h th <-> stat_of th = RT_THREAD_SUSPEND.
Proof. by destruct h. Qed.
Lemma is_wait_ready h p : is_wait h -> h <> QReady p.
Proof. by intros Hw ->. Qed.


Lemma find_lower_ok p l k :
  (forall n, n ∈ l -> is_Some (s_threads (k_sched k) !! n)) ->
  exists r, find_lower p l k = Some (r, k) /\
    match r with
    | None => forall n th, n ∈ l -> s_threads (k_sched k) !! n = Some th -> th_current_priority th <= p
    | Some n => exists l1 l2 th, l = l1 ++ n :: l2 /\ s_threads (k_sched k) !! n = Some th /\
        p < th_current_priority th /\
        forall m thm, m ∈ l1 -> s_threads (k_sched k) !! m = Some thm -> th_current_priority thm <= p
    end.
Proof.
  induction l as [|n l IH]; intros Hl; cbn [find_lower].
  { exists None. split; [done|]. by intros n th Hn%not_elem_of_nil. }
  destruct (Hl n ltac:(apply elem_of_cons; by left)) as [th Et]. munfold. rewrite (get_thread_run _ _ _ Et).
  case_bool_decide as Hp.
  { exists (Some n). split; [done|]. exists [], l, th. split_and!; try done. by intros m thm Hm%not_elem_of_nil. }
  destruct IH as (r & E & Hr); [intros m Hm; apply Hl, elem_of_cons; by right|]. exists r. split; [done|].
  destruct r as [m|].
  - destruct Hr as (l1 & l2 & thm & -> & Em & Hpm & Hl1). exists (n :: l1), l2, thm. split_and!; try done.
    intros a tha [->|Ha]%elem_of_cons Ea; [simplify_eq; lia|by eapply Hl1].
  - intros a tha [->|Ha]%elem_of_cons Ea; [simplify_eq; lia|by eapply Hr].
Qed.

(** Where a thread of priority [p] is put in a list of threads. *)
Definition prio_place (ths : gmap nat rt_thread) (p : Z) (l1 l2 : list nat) : Prop :=
  (forall n th, n ∈ l1 -> ths !! n = Some th -> th_current_priority th <= p) /\
  match l2 with [] => True | n :: _ => exists th, ths !! n = Some th /\ p < th_current_priority th end.

Definition queued (h : qhead) (l : list nat) (s : sched) : sched := set_s_queues (<[h := l]> (s_queues s)) s.

(** Linking an unlisted suspended thread into a waiting list. *)
Lemma kinv_enqueue k h l l1 l2 t th :
  kinv None k -> is_wait h -> s_queues (k_sched k) !! h = Some l -> l = l1 ++ l2 -> q_free (s_queues (k_sched k)) t ->
  s_threads (k_sched k) !! t = Some th -> stat_of th = RT_THREAD_SUSPEND ->
  kinv None (set_k_sched (queued h (l1 ++ t :: l2) (k_sched k)) k).
Proof.
  intros Hk Hw El Hl Hf Et Hst. pose proof (ki_sched _ _ Hk) as Hs. destruct Hk. split; try done. cbn.
  apply (sinv_enqueue None t _ h l _ th); try done; [by apply is_wait_tag| | |].
  - intros p. by apply is_wait_ready.
  - assert (Hn : t ∉ l) by (by apply (Hf h)). rewrite <- Permutation_middle, <- Hl. constructor; [done|].
    by apply (proj1 (si_wf _ _ Hs) h).
  - intros u. subst l. set_solver.
Qed.

(** Everything outside the scheduler and the timers is the same. *)
Record ikeep (k k' : kernel) : Prop := {
  ik_objs : k_objs k' = k_objs k;
  ik_sems : k_sems k' = k_sems k;
  ik_mutexes : k_mutexes k' = k_mutexes k;
  ik_events : k_events k' = k_events k;
  ik_mbs : k_mbs k' = k_mbs k;
  ik_mqs : k_mqs k' = k_mqs k;
  ik_mps : k_mps k' = k_mps k;
  ik_heap : k_heap k' = k_heap k;
}.
#[global] Instance ikeep_refl : Reflexive ikeep.
Proof. by split. Qed.
#[global] Instance ikeep_trans : Transitive ikeep.
Proof. intros k1 k2 k3 [] []. split; congruence. Qed.
Lemma ikeep_sched s k : ikeep k (set_k_sched s k).
Proof. by split. Qed.
Lemma ikeep_timers s k : ikeep k (set_k_timers s k).
Proof. by split. Qed.
#[export] Hint Resolve ikeep_sched ikeep_timers : rt.

Lemma waiting_unready t th g th' h l s :
  sinv None s -> s_threads s !! t = Some th -> active th -> is_wait h -> s_queues s !! h = Some l ->
  s_queues (unready t g th' s) !! h = Some l.
Proof.
  intros Hs Et Ha Hw El. cbn. rewrite lookup_fmap, El. cbn. rewrite list_del_notin; [done|].
  apply (active_not_waiting s t th h l); try done. intros p. by apply is_wait_ready.
Qed.

Lemma kq_insert_end h t l k :
  s_queues (k_sched k) !! h = Some l -> q_free (s_queues (k_sched k)) t ->
  kq (q_insert_before h t) k = Some (tt, set_k_sched (queued h (l ++ [t]) (k_sched k)) k).
Proof.
  intros El Hf. unfold kq, on_sched, sq, q_insert_before, q_update. munfold. rewrite El, decide_True by done. done.
Qed.
Lemma kq_insert_node h x t l1 l2 k :
  s_queues (k_sched k) !! h = Some (l1 ++ x :: l2) -> q_free (s_queues (k_sched k)) t -> x ∉ l1 ->
  kq (q_insert_before_node h x t) k = Some (tt, set_k_sched (queued h (l1 ++ t :: x :: l2) (k_sched k)) k).
Proof.
  intros El Hf Hx. unfold kq, on_sched, sq, q_insert_before_node, q_update. munfold. rewrite El, decide_True by done.
  replace (before_node x t (l1 ++ x :: l2)) with (l1 ++ t :: x :: l2); [done|].
  clear El. induction l1 as [|y l1 IH]; cbn; [by rewrite decide_True|].
  apply not_elem_of_cons in Hx as [Hx1 Hx2]. rewrite decide_False by done. by rewrite IH.
Qed.

Lemma ipc_suspend_ok k h t th flag l :
  kinv None k -> s_threads (k_sched k) !! t = Some th -> active th -> is_wait h ->
  s_queues (k_sched k) !! h = Some l -> flag = RT_IPC_FLAG_FIFO \/ flag = RT_IPC_FLAG_PRIO ->
  exists l1 l2 g tms',
    let s' := queued h (l1 ++ t :: l2) (unready t g (with_stat RT_THREAD_SUSPEND th) (k_sched k)) in
    l = l1 ++ l2 /\ (flag = RT_IPC_FLAG_FIFO -> l2 = []) /\
    (flag = RT_IPC_FLAG_PRIO -> prio_place (s_threads (k_sched k)) (th_current_priority th) l1 l2) /\
    rt_ipc_list_suspend h t flag k = Some (RT_EOK, set_k_timers tms' (set_k_sched s' k)) /\
    kinv None (set_k_timers tms' (set_k_sched s' k)) /\
    q_free (t_lists tms') (ThreadTimer t) /\ same_but (ThreadTimer t) (k_timers k) tms' /\ (forall d, timely d (k_timers k) tms').
Proof.
  intros Hk Et Ha Hw El Hflag. pose proof (ki_sched _ _ Hk) as Hs.
  destruct (suspend_ok k t th Hk Et Ha) as (g & tms' & E & Hk1 & Hf & Hft & Hsb & Htl).
  set (th' := with_stat RT_THREAD_SUSPEND th) in *. set (s1 := unready t g th' (k_sched k)) in *.
  set (k1 := set_k_timers tms' (set_k_sched s1 k)) in *.
  assert (El1 : s_queues (k_sched k1) !! h = Some l) by (by apply (waiting_unready t th)).
  assert (Et1 : s_threads (k_sched k1) !! t = Some th') by apply lookup_insert_eq.
  assert (Hnl : t ∉ l) by (by apply (Hf h)).
  assert (Hdone : forall l1 l2, l = l1 ++ l2 ->
    kinv None (set_k_timers tms' (set_k_sched (queued h (l1 ++ t :: l2) s1) k))).
  { intros l1 l2 Hl. apply (kinv_enqueue k1 h l l1 l2 t th' Hk1 Hw El1 Hl Hf Et1). apply stat_with_suspend. }
  destruct (decide (flag = RT_IPC_FLAG_FIFO)) as [->|Hnf].
  - exists l, [], g, tms'. cbn zeta. rewrite app_nil_r. split_and!; try done.
    + unfold rt_ipc_list_suspend. munfold. rewrite E, bool_decide_true by done. by rewrite (kq_insert_end h t l k1 El1 Hf).
    + by apply Hdone; rewrite app_nil_r.
  - destruct Hflag as [?| ->]; [done|].
    assert (Hths : forall n, n ∈ l -> s_threads (k_sched k1) !! n = s_threads (k_sched k) !! n).
    { intros n Hn. cbn. apply lookup_insert_ne. intros <-. done. }
    assert (Hex : forall n, n ∈ l -> is_Some (s_threads (k_sched k1) !! n)).
    { intros n Hn. rewrite Hths by done. destruct (si_nodes _ _ Hs h l n El Hn) as (_ & thn & En & _). eauto. }
    destruct (find_lower_ok (th_current_priority th') l k1 Hex) as (r & Er & Hr).
    assert (Hrun : rt_ipc_list_suspend h t RT_IPC_FLAG_PRIO k =
      (match r with Some sthread => kq (q_insert_before_node h sthread t) | None => kq (q_insert_before h t) end ;; mret RT_EOK) k1).
    { unfold rt_ipc_list_suspend. munfold. rewrite E, bool_decide_false, bool_decide_true by done. rewrite (kq_list_run h l k1 El1), (get_thread_run _ _ _ Et1), Er. by destruct r. }
    destruct r as [n|].
    + destruct Hr as (l1 & l2 & thn & -> & En & Hp & Hl1).
      assert (Hnd : NoDup (l1 ++ n :: l2)) by (by apply (proj1 (si_wf _ _ Hs) h)).
      assert (Hn1 : n ∉ l1) by (apply NoDup_app in Hnd as (_ & Hd & _); intros Hin; by eapply Hd; [exact Hin|apply elem_of_cons; left]).
      exists l1, (n :: l2), g, tms'. cbn zeta. split_and!; try done.
      * intros _. split; [intros m thm Hm Em; apply (Hl1 m); [done|]; rewrite Hths; [done|set_solver]|].
        exists thn. by rewrite <- Hths by set_solver.
      * rewrite Hrun. munfold. by rewrite (kq_insert_node h n t l1 l2 k1 El1 Hf Hn1).
      * by apply Hdone.
    + exists l, [], g, tms'. cbn zeta. rewrite app_nil_r. split_and!; try done.
      * intros _. split; [|done]. intros m thm Hm Em. apply (Hr m); [done|]. by rewrite Hths.
      * rewrite Hrun. munfold. by rewrite (kq_insert_end h t l k1 El1 Hf).
      * by apply Hdone; rewrite app_nil_r.
Qed.

(** The caller of a waiting operation ends up on the list, suspended, with its
    timer running when it gave a timeout. *)
Lemma ipc_wait_ok k h t th flag time l :
  kinv None k -> s_threads (k_sched k) !! t = Some th -> active th -> is_wait h ->
  s_queues (k_sched k) !! h = Some l -> flag = RT_IPC_FLAG_FIFO \/ flag = RT_IPC_FLAG_PRIO -> time < 2 ^ 31 ->
  exists l1 l2 g tms',
    let s' := queued h (l1 ++ t :: l2) (unready t g (with_stat RT_THREAD_SUSPEND th) (k_sched k)) in
    l = l1 ++ l2 /\ (flag = RT_IPC_FLAG_FIFO -> l2 = []) /\
    (flag = RT_IPC_FLAG_PRIO -> prio_place (s_threads (k_sched k)) (th_current_priority th) l1 l2) /\
    ipc_wait h t flag time k = Some (tt, set_k_timers tms' (set_k_sched s' k)) /\
    kinv None (set_k_timers tms' (set_k_sched s' k)) /\ same_but (ThreadTimer t) (k_timers k) tms' /\
    (time <= 0 -> q_free (t_lists tms') (ThreadTimer t)) /\
    (0 < time -> timer_pending t (u32 (t_tick (k_timers k) + time)) tms') /\
    (time < HALF -> timely 0 (k_timers k) tms').
Proof.
  intros Hk Et Ha Hw El Hflag Ht.
  destruct (ipc_suspend_ok k h t th flag l Hk Et Ha Hw El Hflag) as (l1 & l2 & g & tms1 & Hl & Hfifo & Hprio & E & Hk1 & Hf & Hsb & Htl).
  set (s' := queued h _ _) in *. set (k1 := set_k_timers tms1 (set_k_sched s' k)) in *.
  exists l1, l2, g. unfold ipc_wait. munfold. rewrite E. case_bool_decide as Htime.
  - assert (Et1 : s_threads (k_sched k1) !! t = Some (with_stat RT_THREAD_SUSPEND th)) by apply lookup_insert_eq.
    destruct (start_thread_timer_ok k1 t _ time Hk1 Et1 (stat_with_suspend th) Hf) as (tms' & E' & Hk' & Hsb' & Hp & Htl'); [lia|].
    exists tms'. cbn zeta. split_and!; try done.
    + by apply same_but_trans with tms1.
    + intros _. destruct Hsb as (<- & _). exact Hp.
    + intros Hh. etransitivity; [apply Htl|by apply Htl'].
  - exists tms1. cbn zeta. split_and!; try done; intros ?; lia.
Qed.

(** Waking the first thread of a list. *)
Lemma ipc_resume_ok k h t l th :
  kinv None k -> is_wait h -> s_queues (k_sched k) !! h = Some (t :: l) -> s_threads (k_sched k) !! t = Some th ->
  exists lr tms', let s' := resumed t th lr (k_sched k) in
    s_queues (k_sched k) !! QReady (th_current_priority th) = Some lr /\
    rt_ipc_list_resume h k = Some (RT_EOK, set_k_timers tms' (set_k_sched s' k)) /\
    kinv None (set_k_timers tms' (set_k_sched s' k)) /\
    q_free (t_lists tms') (ThreadTimer t) /\ same_but (ThreadTimer t) (k_timers k) tms' /\ (forall d, timely d (k_timers k) tms').
Proof.
  intros Hk Hw El Et.
  destruct (si_nodes _ _ (ki_sched _ _ Hk) h _ t El ltac:(apply elem_of_cons; by left)) as (_ & th' & E' & Htag).
  rewrite Et in E'. injection E' as <-. rewrite is_wait_tag in Htag by done.
  destruct (resume_ok k t th Hk Et Htag) as (lr & tms' & Er & E & Hk' & Hf & Hsb & Htl).
  exists lr, tms'. cbn zeta. split_and!; try done.
  unfold rt_ipc_list_resume. munfold. by rewrite (kq_list_run h _ k El), E.
Qed.

(** What a resumed thread looks like, and what the lists look like. *)
Lemma resumed_queue t th lr s h l :
  is_wait h -> s_queues s !! h = Some l -> s_queues (resumed t th lr s) !! h = Some (list_del t l).
Proof.
  intros Hw El. unfold resumed, inserted. case_bool_decide; cbn.
  - by rewrite lookup_fmap, El.
  - rewrite lookup_insert_ne by (by intros <-). by rewrite lookup_fmap, El.
Qed.

(** ** Waking every thread of a list *)

(** The state in which all threads of [l] have left their list with an error. *)
Definition woken_all (l : list nat) (k k' : kernel) : Prop :=
  ikeep k k' /\ s_current (k_sched k') = s_current (k_sched k) /\
  s_lock_nest (k_sched k') = s_lock_nest (k_sched k) /\
  (forall t, t ∈ l -> exists th, s_threads (k_sched k') !! t = Some th /\ active th /\ th_error th = - RT_ERROR) /\
  (forall t, t ∉ l -> s_threads (k_sched k') !! t = s_threads (k_sched k) !! t) /\
  (forall h, is_wait h -> s_queues (k_sched k') !! h = filter (fun u => u ∉ l) <$> s_queues (k_sched k) !! h) /\
  (forall d, timely d (k_timers k) (k_timers k')).

Lemma filter_notin_disjoint (l l0 : list nat) : (forall u, u ∈ l0 -> u ∉ l) -> filter (fun u => u ∉ l) l0 = l0.
Proof.
  induction l0 as [|u l0 IH]; intros Hd; [done|].
  rewrite filter_cons, decide_True by (apply Hd, elem_of_cons; by left). f_equal. apply IH.
  intros v Hv. apply Hd, elem_of_cons. by right.
Qed.
Lemma filter_notin_self (l l0 : list nat) : (forall u, u ∈ l0 -> u ∈ l) -> filter (fun u => u ∉ l) l0 = [].
Proof.
  induction l0 as [|u l0 IH]; intros Hd; [done|].
  rewrite filter_cons, decide_False by (intros Hn; apply Hn, Hd, elem_of_cons; by left). apply IH.
  intros v Hv. apply Hd, elem_of_cons. by right.
Qed.

(** The list itself is empty afterwards, the other lists are as before. *)
Lemma woken_all_queue h l k k' :
  woken_all l k k' -> is_wait h -> s_queues (k_sched k) !! h = Some l -> s_queues (k_sched k') !! h = Some [].
Proof. intros (_ & _ & _ & _ & _ & Hq & _) Hw El. rewrite Hq, El by done. cbn. by rewrite filter_notin_self. Qed.
Lemma woken_all_other h h' l k k' :
  woken_all l k k' -> sinv None (k_sched k) -> is_wait h' -> s_queues (k_sched k) !! h = Some l -> h' <> h ->
  s_queues (k_sched k') !! h' = s_queues (k_sched k) !! h'.
Proof.
  intros (_ & _ & _ & _ & _ & Hq & _) Hs Hw El Hne. rewrite Hq by done.
  destruct (s_queues (k_sched k) !! h') as [l0|] eqn:E0; [|done]. cbn. f_equal. apply filter_notin_disjoint.
  intros u Hu Hul. apply Hne. by apply (proj2 (si_wf _ _ Hs) h' h l0 l u).
Qed.

Lemma kinv_error k t th e :
  kinv None k -> s_threads (k_sched k) !! t = Some th ->
  kinv None (set_k_sched (set_s_threads (<[t := set_th_error e th]> (s_threads (k_sched k))) (k_sched k)) k).
Proof. intros Hk Et. by apply (kinv_touch k t th). Qed.

Lemma resume_all_loop_ok h l k :
  kinv None k -> is_wait h -> s_queues (k_sched k) !! h = Some l ->
  exists k', resume_all_loop (length l) h k = Some (true, k') /\ kinv None k' /\ woken_all l k k'.
Proof.
  intros Hk Hw. revert k Hk. induction l as [|t l IH]; intros k Hk El; cbn [resume_all_loop length]; munfold;
    rewrite (kq_list_run _ _ _ El).
  { exists k. rewrite bool_decide_true by done. split; [done|]. split; [done|]. split_and!; try done.
    - by intros t Ht%not_elem_of_nil.
    - intros h' _. destruct (s_queues (k_sched k) !! h') as [l0|]; [|done]. cbn. f_equal. symmetry.
      apply filter_notin_disjoint. intros u _. apply not_elem_of_nil. }
  pose proof (ki_sched _ _ Hk) as Hs.
  assert (Hnd : NoDup (t :: l)) by (by apply (proj1 (si_wf _ _ Hs) h)). pose proof Hnd as [Htl _]%NoDup_cons.
  destruct (si_nodes _ _ Hs h _ t El ltac:(apply elem_of_cons; by left)) as (_ & th & Et & Htag).
  rewrite is_wait_tag in Htag by done. rewrite (set_thread_run _ _ _ _ Et).
  pose proof (kinv_error k t th (- RT_ERROR) Hk Et) as Hk1. set (k1 := set_k_sched _ k) in *.
  set (th1 := set_th_error (- RT_ERROR) th) in *.
  assert (Et1 : s_threads (k_sched k1) !! t = Some th1) by apply lookup_insert_eq.
  destruct (resume_ok k1 t th1 Hk1 Et1 Htag) as (lr & tms' & Er & E & Hk2 & _ & _ & Htl2). rewrite E.
  set (s2 := resumed t th1 lr (k_sched k1)) in *. set (k2 := set_k_timers tms' (set_k_sched s2 k1)) in *.
  assert (El2 : s_queues (k_sched k2) !! h = Some l).
  { change (s_queues s2 !! h = Some l). unfold s2. rewrite (resumed_queue _ _ _ _ _ (t :: l)) by done.
    by rewrite list_del_head. }
  destruct (IH k2 Hk2 El2) as (k' & E' & Hk' & Hik & Hc & Hn & Hin & Hout & Hq & Htl'). exists k'. split; [done|]. split; [done|].
  assert (Hths : forall u, u <> t -> s_threads s2 !! u = s_threads (k_sched k) !! u).
  { intros u Hu. unfold s2. rewrite resumed_thread, decide_False by done. cbn. by rewrite lookup_insert_ne. }
  split_and!.
  - transitivity k2; [by split|done].
  - rewrite Hc. cbn. unfold s2. by rewrite resumed_current.
  - rewrite Hn. cbn. unfold s2. by rewrite resumed_lock.
  - intros u [->|Hu]%elem_of_cons; [|by apply Hin]. rewrite Hout by done. cbn. unfold s2. rewrite resumed_thread, decide_True by done.
    eexists. split; [done|]. split; [|done]. unfold active. case_bool_decide; autorewrite with rt; auto.
  - intros u Hu. apply not_elem_of_cons in Hu as [Hut Hul]. rewrite Hout by done. by apply Hths.
  - intros h' Hw'. rewrite Hq by done. change (s_queues (k_sched k2)) with (s_queues s2).
    replace (s_queues s2 !! h') with (list_del t <$> s_queues (k_sched k) !! h').
    + destruct (s_queues (k_sched k) !! h') as [l0|]; [|done]. cbn. f_equal. unfold list_del.
      rewrite list_filter_filter. apply list_filter_iff. intros u. rewrite not_elem_of_cons. tauto.
    + unfold s2. destruct (s_queues (k_sched k) !! h') as [l0|] eqn:E0.
      * by rewrite (resumed_queue _ _ _ _ _ l0).
      * unfold resumed, inserted. case_bool_decide; cbn; rewrite ?lookup_insert_ne by (by intros <-); by rewrite lookup_fmap, E0.
  - intros d. etransitivity; [apply Htl2|apply Htl'].
Qed.

Lemma ipc_resume_all_ok h l k :
  kinv None k -> is_wait h -> s_queues (k_sched k) !! h = Some l ->
  exists k', rt_ipc_list_resume_all h k = Some (true, k') /\ kinv None k' /\ woken_all l k k'.
Proof.
  intros Hk Hw El. unfold rt_ipc_list_resume_all. munfold. rewrite (kq_list_run _ _ _ El). by apply resume_all_loop_ok.
Qed.

(** ** Blocking: waiting and giving up the processor *)

Lemma wait_frame s s' h : sched_frame s s' -> is_wait h -> s_queues s' !! h = s_queues s !! h.
Proof. intros Hf Hw. apply (sf_queues _ _ Hf). intros p. by apply is_wait_ready. Qed.

(** A thread other than [t] is ready to run. *)
Definition other_ready (s : sched) (t : nat) : Prop :=
  exists u thu, u <> t /\ s_threads s !! u = Some thu /\ stat_of thu = RT_THREAD_READY.

Record blocked (h : qhead) (t : nat) (flag time : Z) (k k' : kernel) : Prop := {
  bl_kinv : kinv None k';
  bl_keep : ikeep k k';
  bl_queue : exists l1 l2, s_queues (k_sched k) !! h = Some (l1 ++ l2) /\
    s_queues (k_sched k') !! h = Some (l1 ++ t :: l2) /\ (flag = RT_IPC_FLAG_FIFO -> l2 = []) /\
    (flag = RT_IPC_FLAG_PRIO -> forall th, s_threads (k_sched k) !! t = Some th ->
       prio_place (s_threads (k_sched k)) (th_current_priority th) l1 l2);
  bl_queues : forall h', is_wait h' -> h' <> h -> s_queues (k_sched k') !! h' = s_queues (k_sched k) !! h';
  bl_thread : forall th, s_threads (k_sched k) !! t = Some th ->
    exists th', s_threads (k_sched k') !! t = Some th' /\ stat_of th' = RT_THREAD_SUSPEND /\
      set_th_stat 0 th' = set_th_stat 0 th;
  bl_threads : forall u, u <> t -> option_Forall2 th_sched (s_threads (k_sched k) !! u) (s_threads (k_sched k') !! u);
  bl_cur : is_Some (s_current (k_sched k'));
  bl_switch : s_lock_nest (k_sched k) = 0 -> other_ready (k_sched k) t ->
    exists c' th', s_current (k_sched k') = Some c' /\ c' <> t /\
      s_threads (k_sched k') !! c' = Some th' /\ stat_of th' = RT_THREAD_RUNNING /\ dominates (k_sched k') th';
  bl_lock : s_lock_nest (k_sched k') = s_lock_nest (k_sched k);
  bl_timer : 0 < time -> timer_pending t (u32 (t_tick (k_timers k) + time)) (k_timers k');
  bl_notimer : time <= 0 -> q_free (t_lists (k_timers k')) (ThreadTimer t);
  bl_timers : same_but (ThreadTimer t) (k_timers k) (k_timers k');
  bl_timely : time < HALF -> timely 0 (k_timers k) (k_timers k');
}.

Lemma group_nonzero s u thu :
  sinv None s -> s_threads s !! u = Some thu -> stat_of thu = RT_THREAD_READY -> s_group s <> 0.
Proof. intros Hs Eu Hr Hg. by eapply no_ready. Qed.

(** Giving up the processor after the caller was put on the list at [l1 ++ t :: l2]. *)
Lemma blocked_after k h t th flag time l1 l2 g tms' :
  let s1 := queued h (l1 ++ t :: l2) (unready t g (with_stat RT_THREAD_SUSPEND th) (k_sched k)) in
  let k1 := set_k_timers tms' (set_k_sched s1 k) in
  kinv None k -> s_current (k_sched k) = Some t -> s_threads (k_sched k) !! t = Some th -> active th -> is_wait h ->
  s_queues (k_sched k) !! h = Some (l1 ++ l2) -> (flag = RT_IPC_FLAG_FIFO -> l2 = []) ->
  (flag = RT_IPC_FLAG_PRIO -> prio_place (s_threads (k_sched k)) (th_current_priority th) l1 l2) ->
  kinv None k1 -> same_but (ThreadTimer t) (k_timers k) tms' ->
  (time <= 0 -> q_free (t_lists tms') (ThreadTimer t)) ->
  (0 < time -> timer_pending t (u32 (t_tick (k_timers k) + time)) tms') ->
  (time < HALF -> timely 0 (k_timers k) tms') ->
  exists k', on_sched rt_schedule k1 = Some (tt, k') /\ blocked h t flag time k k' /\
    s_queues (k_sched k') !! h = Some (l1 ++ t :: l2).
Proof.
  intros s1 k1 Hk Hc Et Ha Hw El Hfifo Hprio Hk1 Hsb Hnt Ht Htl.
  destruct (kschedule_ok k1 t Hk1 Hc) as (s' & E' & Hk' & Hp). exists (set_k_sched s' k1). split; [done|].
  destruct Hp as (Hs' & Hf & [c' Hc'] & _ & _ & _ & Hrun). change (k_sched k1) with s1 in *.
  assert (Hq : s_queues s' !! h = Some (l1 ++ t :: l2)) by (rewrite (wait_frame _ _ _ Hf Hw); apply lookup_insert_eq).
  assert (Et1 : s_threads s1 !! t = Some (with_stat RT_THREAD_SUSPEND th)) by apply lookup_insert_eq.
  destruct (frame_lookup _ _ _ _ Hf Et1) as (th' & Et' & Hth').
  assert (Hst' : stat_of th' = RT_THREAD_SUSPEND) by (eapply th_sched_suspend; [done|apply stat_with_suspend]).
  assert (Hths : forall u, u <> t -> s_threads s1 !! u = s_threads (k_sched k) !! u).
  { intros u Hu. cbn. by rewrite lookup_insert_ne. }
  split; [|done]. split; try done.
  - exists l1, l2. split_and!; try done. intros Hf' th0 E0. rewrite Et in E0. injection E0 as <-. by apply Hprio.
  - intros h' Hw' Hne. cbn. rewrite (wait_frame _ _ _ Hf Hw'). cbn. rewrite lookup_insert_ne by done.
    rewrite lookup_fmap. destruct (s_queues (k_sched k) !! h') as [l'|] eqn:El'; [|done]. cbn. f_equal.
    apply list_del_notin. apply (active_not_waiting _ t th h' l' (ki_sched _ _ Hk) Et Ha); [|done].
    intros p. by apply is_wait_ready.
  - intros th0 E0. rewrite Et in E0. injection E0 as <-. exists th'. split_and!; try done. by destruct Hth' as [<- _].
  - intros u Hu. rewrite <- Hths by done. apply (sf_threads _ _ Hf).
  - intros Hlock (u & thu & Hu & Eu & Hru).
    destruct Hrun as (c2 & th2 & Hc2 & E2 & Hr2 & Hd2); [done|left|].
    { apply (group_nonzero s1 u thu (ki_sched _ _ Hk1)); [by rewrite Hths|done]. }
    exists c2, th2. split_and!; try done. intros ->. cbn in Et'. rewrite E2 in Et'. injection Et' as <-.
    rewrite Hr2 in Hst'. done.
  - apply (sf_lock _ _ Hf).
Qed.

Lemma block_ok k h t th flag time l :
  kinv None k -> s_current (k_sched k) = Some t -> s_threads (k_sched k) !! t = Some th -> active th -> is_wait h ->
  s_queues (k_sched k) !! h = Some l -> flag = RT_IPC_FLAG_FIFO \/ flag = RT_IPC_FLAG_PRIO -> time < 2 ^ 31 ->
  exists k', (ipc_wait h t flag time ;; on_sched rt_schedule) k = Some (tt, k') /\ blocked h t flag time k k'.
Proof.
  intros Hk Hc Et Ha Hw El Hflag Htime.
  destruct (ipc_wait_ok k h t th flag time l Hk Et Ha Hw El Hflag Htime)
    as (l1 & l2 & g & tms' & -> & Hfifo & Hprio & E & Hk1 & Hsb & Hnt & Ht & Htl).
  destruct (blocked_after k h t th flag time l1 l2 g tms') as (k' & E' & Hb & _); try done.
  exists k'. by rewrite (bind_run _ _ _ _ _ E).
Qed.

(** ** Waking the first waiting thread and rescheduling *)

Record woken (h : qhead) (t : nat) (k k' : kernel) : Prop := {
  wk_kinv : kinv None k';
  wk_keep : ikeep k k';
  wk_queue : forall l, s_queues (k_sched k) !! h = Some (t :: l) -> s_queues (k_sched k') !! h = Some l;
  wk_queues : forall h', is_wait h' -> h' <> h -> s_queues (k_sched k') !! h' = s_queues (k_sched k) !! h';
  wk_thread : forall th, s_threads (k_sched k) !! t = Some th ->
    exists th', s_threads (k_sched k') !! t = Some th' /\ active th' /\ set_th_stat 0 th' = set_th_stat 0 th;
  wk_threads : forall u, u <> t -> option_Forall2 th_sched (s_threads (k_sched k) !! u) (s_threads (k_sched k') !! u);
  wk_cur : is_Some (s_current (k_sched k'));
  wk_preempt : s_lock_nest (k_sched k) = 0 ->
    exists c' th', s_current (k_sched k') = Some c' /\
      s_threads (k_sched k') !! c' = Some th' /\ stat_of th' = RT_THREAD_RUNNING /\ dominates (k_sched k') th';
  wk_lock : s_lock_nest (k_sched k') = s_lock_nest (k_sched k);
  wk_timer : q_free (t_lists (k_timers k')) (ThreadTimer t);
  wk_timers : same_but (ThreadTimer t) (k_timers k) (k_timers k');
  wk_timely : forall d, timely d (k_timers k) (k_timers k');
}.

Lemma wake_ok k h t l c :
  kinv None k -> is_wait h -> s_queues (k_sched k) !! h = Some (t :: l) -> s_current (k_sched k) = Some c ->
  exists k', (rt_ipc_list_resume h ;; on_sched rt_schedule) k = Some (tt, k') /\ woken h t k k'.
Proof.
  intros Hk Hw El Hc. pose proof (ki_sched _ _ Hk) as Hs.
  destruct (si_nodes _ _ Hs h _ t El ltac:(apply elem_of_cons; by left)) as (_ & th & Et & Htag).
  destruct (ipc_resume_ok k h t l th Hk Hw El Et) as (lr & tms' & Er & E & Hk1 & Hf & Hsb & Htl).
  set (s1 := resumed t th lr (k_sched k)) in *. set (k1 := set_k_timers tms' (set_k_sched s1 k)) in *.
  assert (Hc1 : s_current (k_sched k1) = Some c) by (cbn; unfold s1; by rewrite resumed_current).
  destruct (kschedule_ok k1 c Hk1 Hc1) as (s' & E' & Hk' & Hp). exists (set_k_sched s' k1).
  rewrite (bind_run _ _ _ _ _ E). split; [done|].
  destruct Hp as (Hs' & Hfr & [c' Hc'] & _ & _ & _ & Hrun). change (k_sched k1) with s1 in *.
  set (th1 := with_stat (if bool_decide (s_current (k_sched k) = Some t) then RT_THREAD_RUNNING else RT_THREAD_READY) th).
  assert (Et1 : s_threads s1 !! t = Some th1) by (unfold s1; by rewrite resumed_thread, decide_True).
  assert (Ha1 : active th1) by (unfold th1, active; case_bool_decide; autorewrite with rt; auto).
  destruct (frame_lookup _ _ _ _ Hfr Et1) as (th' & Et' & Heq & Hst').
  assert (Hths : forall u, u <> t -> s_threads s1 !! u = s_threads (k_sched k) !! u).
  { intros u Hu. unfold s1. by rewrite resumed_thread, decide_False. }
  split; try done.
  - intros l0 El0. rewrite El in El0. injection El0 as <-. cbn. rewrite (wait_frame _ _ _ Hfr Hw). unfold s1.
    rewrite (resumed_queue _ _ _ _ _ _ Hw El). rewrite list_del_head; [done|]. by apply (proj1 (si_wf _ _ Hs) h).
  - intros h' Hw' Hne. cbn. rewrite (wait_frame _ _ _ Hfr Hw'). unfold s1.
    destruct (s_queues (k_sched k) !! h') as [l'|] eqn:El'.
    + rewrite (resumed_queue _ _ _ _ _ _ Hw' El'). f_equal. apply list_del_notin. intros Hin. apply Hne.
      apply (proj2 (si_wf _ _ Hs) h' h l' (t :: l) t El' El Hin). apply elem_of_cons. by left.
    + unfold resumed, inserted. case_bool_decide; cbn; rewrite ?lookup_insert_ne by (by intros <-); by rewrite lookup_fmap, El'.
  - intros th0 E0. rewrite Et in E0. injection E0 as <-. exists th'. split_and!; try done.
    unfold active in *. destruct Hst' as [<-|[_ ?]]; done.
  - intros u Hu. rewrite <- Hths by done. apply (sf_threads _ _ Hfr).
  - intros Hlock. apply Hrun; [unfold s1; by rewrite resumed_lock|].
    destruct Ha1 as [Ha1|Ha1]; [left; by apply (group_nonzero s1 t th1 (ki_sched _ _ Hk1))|right; exists t, th1].
    split_and!; try done. by apply (si_running _ _ (ki_sched _ _ Hk1) t th1).
  - cbn. rewrite (sf_lock _ _ Hfr). unfold s1. by rewrite resumed_lock.
Qed.

(** The running thread, as every caller of a blocking operation is. *)
Definition running (k : kernel) (t : nat) : Prop :=
  s_current (k_sched k) = Some t /\ exists th, s_threads (k_sched k) !! t = Some th /\ stat_of th = RT_THREAD_RUNNING.

(** The kernel with the error number of a thread replaced. *)
Definition with_error (t : nat) (e : Z) (k : kernel) : kernel :=
  match s_threads (k_sched k) !! t with
  | Some th => set_k_sched (set_s_threads (<[t := set_th_error e th]> (s_threads (k_sched k))) (k_sched k)) k
  | None => k
  end.

Lemma set_error_run t e k : is_Some (s_threads (k_sched k) !! t) -> set_thread t (set_th_error e) k = Some (tt, with_error t e k).
Proof. intros [th E]. unfold with_error. rewrite E. by rewrite (set_thread_run _ _ _ _ E). Qed.
Lemma kinv_with_error t e k : kinv None k -> kinv None (with_error t e k).
Proof. intros Hk. unfold with_error. destruct (s_threads (k_sched k) !! t) eqn:E; [by apply kinv_error|done]. Qed.
Lemma with_error_keep t e k : ikeep k (with_error t e k).
Proof. unfold with_error. destruct (s_threads (k_sched k) !! t); by split. Qed.
Lemma with_error_queues t e k : s_queues (k_sched (with_error t e k)) = s_queues (k_sched k).
Proof. unfold with_error. by destruct (s_threads (k_sched k) !! t). Qed.
Lemma with_error_current t e k : s_current (k_sched (with_error t e k)) = s_current (k_sched k).
Proof. unfold with_error. by destruct (s_threads (k_sched k) !! t). Qed.
Lemma with_error_lock t e k : s_lock_nest (k_sched (with_error t e k)) = s_lock_nest (k_sched k).
Proof. unfold with_error. by destruct (s_threads (k_sched k) !! t). Qed.
Lemma with_error_timers t e k : k_timers (with_error t e k) = k_timers k.
Proof. unfold with_error. by destruct (s_threads (k_sched k) !! t). Qed.
Lemma with_error_thread t e k u :
  s_threads (k_sched (with_error t e k)) !! u =
    if decide (u = t) then set_th_error e <$> s_threads (k_sched k) !! u else s_threads (k_sched k) !! u.
Proof.
  unfold with_error. destruct (s_threads (k_sched k) !! t) eqn:E; cbn; [rewrite lookup_insert|]; repeat case_decide; subst; try done.
  - by rewrite E.
  - by rewrite E.
Qed.
Lemma running_with_error t e k u : running k u -> running (with_error t e k) u.
Proof.
  intros [Hc (th & Et & Hr)]. split; [by rewrite with_error_current|]. rewrite with_error_thread, Et.
  case_decide; [|by exists th]. by eexists.
Qed.
#[export] Hint Rewrite with_error_queues with_error_current with_error_lock with_error_timers : rt.

(** Blocking the running thread. *)
Lemma block_running k h t flag time l :
  kinv None k -> running k t -> is_wait h -> s_queues (k_sched k) !! h = Some l ->
  flag = RT_IPC_FLAG_FIFO \/ flag = RT_IPC_FLAG_PRIO -> time < 2 ^ 31 ->
  exists k', (ipc_wait h t flag time ;; on_sched rt_schedule) k = Some (tt, k') /\ blocked h t flag time k k'.
Proof. intros Hk [Hc (th & Et & Hr)] Hw El Hf Ht. apply (block_ok k h t th flag time l); try done. by right. Qed.

Lemma kq_isempty_run h l k : s_queues (k_sched k) !! h = Some l -> kq (q_isempty h) k = Some (bool_decide (l = []), k).
Proof.
  intros E. unfold kq, on_sched, sq. munfold. unfold q_isempty. rewrite E. rewrite set_queues_id. by destruct k.
Qed.

(** The end of the send and receive calls: if a thread waits on the other side,
    it is resumed and the scheduler runs. *)
Definition ipc_signal (h : qhead) : M kernel unit :=
  e ← kq (q_isempty h);
  if (e : bool) then mret tt else rt_ipc_list_resume h ;; on_sched rt_schedule.

Definition signalled (h : qhead) (l : list nat) (k k' : kernel) : Prop :=
  match l with [] => k' = k | t :: _ => woken h t k k' end.

Lemma signal_ok k h l c :
  kinv None k -> is_wait h -> s_queues (k_sched k) !! h = Some l -> s_current (k_sched k) = Some c ->
  exists k', ipc_signal h k = Some (tt, k') /\ signalled h l k k' /\ kinv None k'.
Proof.
  intros Hk Hw El Hc. unfold ipc_signal. munfold. rewrite (kq_isempty_run _ _ _ El). destruct l as [|t l].
  - rewrite bool_decide_true by done. by exists k.
  - rewrite bool_decide_false by done. destruct (wake_ok k h t l c Hk Hw El Hc) as (k' & E & Hwk).
    exists k'. munfold in E. rewrite E. split_and!; try done. apply (wk_kinv _ _ _ _ Hwk).
Qed.

Lemma signalled_keep h l k k' : signalled h l k k' -> ikeep k k'.
Proof. destruct l; cbn; [by intros ->|]. intros Hw. apply (wk_keep _ _ _ _ Hw). Qed.

(** The rest of a timeout after a wait that began at tick [start]. *)
Definition remaining (timeout start now : Z) : Z :=
  if bool_decide (timeout > 0) then
    let timeout := s32 (timeout - u32 (now - start)) in
    if bool_decide (timeout < 0) then 0 else timeout
  else timeout.
