(* ===== verification/Sem.v ===== *)
(** * Semaphores (rt-thread/src/ipc.c)

    The operations rt_sem_*, their invariant [sem_inv] (no thread waits while the
    value is positive) and the counting semaphore [csem] they implement. *)
From S2P Require Import Prelude RtList Kernel Sched Timer Object Thread Ipc.
From stdpp Require Import base gmap sets list.
From Stdlib Require Import ZArith Lia.
#[local] Open Scope Z_scope.

(** ** Operations *)

Definition put_sem (n : nat) (sem : rt_semaphore) : M kernel unit :=
  modify (fun k => set_k_sems (<[n := sem]> (k_sems k)) k).
Definition get_sem (n : nat) : M kernel rt_semaphore := rd k_sems n.
Definition upd_sem (n : nat) (f : rt_semaphore -> rt_semaphore) : M kernel unit := upd k_sems set_k_sems n f.

Definition rt_sem_init (n : nat) (name : list Z) (value flag : Z) : M kernel Z :=
  rt_object_init (OSem n) RT_Object_Class_Semaphore name ;;
  rt_ipc_object_init (QSem n) ;;
  put_sem n (RtSemaphore flag (u16 value)) ;;
  mret RT_EOK.

Definition rt_sem_detach (n : nat) : M kernel Z :=
  get_sem n ;;
  rt_ipc_list_resume_all (QSem n) ;;
  rt_object_detach (OSem n) ;;
  mret RT_EOK.

Definition rt_sem_create (name : list Z) (value flag : Z) (malloc : option nat) : M kernel (option nat) :=
  rt_object_allocate RT_Object_Class_Semaphore name (OSem <$> malloc) ;;
  match malloc with
  | None => mret None
  | Some n =>
      rt_ipc_object_init (QSem n) ;;
      put_sem n (RtSemaphore flag (u16 value)) ;;
      mret (Some n)
  end.

(** The memory of the semaphore goes back to the heap. *)
Definition rt_sem_delete (n : nat) : M kernel Z :=
  get_sem n ;;
  rt_ipc_list_resume_all (QSem n) ;;
  rt_object_delete (OSem n) ;;
  modify (fun k => set_k_sems (delete n (k_sems k)) k) ;;
  mret RT_EOK.

(** [inl e] when the call returned [e], [inr t] when its caller [t] blocked. *)
Definition rt_sem_take (n : nat) (time : Z) : M kernel (Z + nat) :=
  sem ← get_sem n;
  if bool_decide (sem_value sem > 0) then
    upd_sem n (fun sem => set_sem_value (u16 (sem_value sem - 1)) sem) ;;
    mret (inl RT_EOK)
  else if bool_decide (time = 0) then mret (inl (- RT_ETIMEOUT))
  else
    t ← self;
    set_thread t (set_th_error RT_EOK) ;;
    ipc_wait (QSem n) t (sem_flag sem) time ;;
    on_sched rt_schedule ;;
    mret (inr t).
(** The return value of a blocked rt_sem_take. *)
Definition rt_sem_take_resume (t : nat) : M kernel Z :=
  th ← get_thread t;
  if bool_decide (th_error th <> RT_EOK) then mret (th_error th) else mret RT_EOK.

Definition rt_sem_trytake (n : nat) : M kernel (Z + nat) := rt_sem_take n 0.

Definition rt_sem_release (n : nat) : M kernel Z :=
  get_sem n ;;
  empty ← kq (q_isempty (QSem n));
  (if (empty : bool) then upd_sem n (fun sem => set_sem_value (u16 (sem_value sem + 1)) sem)
   else rt_ipc_list_resume (QSem n) ;; on_sched rt_schedule) ;;
  mret RT_EOK.

(** [cmd] is true for RT_IPC_CMD_RESET with the new value [arg]. *)
Definition rt_sem_control (n : nat) (cmd : bool) (arg : Z) : M kernel Z :=
  if cmd then
    get_sem n ;;
    rt_ipc_list_resume_all (QSem n) ;;
    upd_sem n (set_sem_value (u16 arg)) ;;
    on_sched rt_schedule ;;
    mret RT_EOK
  else mret (- RT_ERROR).

(** ** Invariant *)

Definition ipc_flag_ok (flag : Z) : Prop := flag = RT_IPC_FLAG_FIFO \/ flag = RT_IPC_FLAG_PRIO.

Definition sem_ok (k : kernel) (n : nat) (sem : rt_semaphore) : Prop :=
  0 <= sem_value sem < 2 ^ 16 /\ ipc_flag_ok (sem_flag sem) /\
  exists l, s_queues (k_sched k) !! QSem n = Some l /\ (sem_value sem = 0 \/ l = []).

Definition sem_inv (k : kernel) : Prop := forall n sem, k_sems k !! n = Some sem -> sem_ok k n sem.

(** ** The abstract counting semaphore: its value and the threads waiting for it *)

Record csem := CSem { cs_value : Z; cs_waiting : list nat }.
Definition csem_of (k : kernel) (n : nat) : option csem :=
  sem ← k_sems k !! n; l ← s_queues (k_sched k) !! QSem n; Some (CSem (sem_value sem) l).
(** Releasing hands the unit to the first waiting thread or counts it. *)
Definition cs_release (c : csem) : csem :=
  match cs_waiting c with
  | [] => CSem (cs_value c + 1) []
  | _ :: l => CSem (cs_value c) l
  end.

(** ** Lemmas *)

Lemma sem_inv_frame k k' :
  sem_inv k -> k_sems k' = k_sems k ->
  (forall n, is_Some (k_sems k !! n) -> s_queues (k_sched k') !! QSem n = s_queues (k_sched k) !! QSem n) -> sem_inv k'.
Proof.
  intros Hi Es Hq n sem E. rewrite Es in E. destruct (Hi n sem E) as (Hv & Hf & l & El & Hl).
  split_and!; try done; try lia. exists l. by rewrite Hq by eauto.
Qed.

(** One semaphore changes together with its list. *)
Lemma sem_inv_upd k k' n sem l :
  sem_inv k -> k_sems k' = <[n := sem]> (k_sems k) ->
  (forall m, m <> n -> s_queues (k_sched k') !! QSem m = s_queues (k_sched k) !! QSem m) ->
  s_queues (k_sched k') !! QSem n = Some l ->
  0 <= sem_value sem < 2 ^ 16 -> ipc_flag_ok (sem_flag sem) -> sem_value sem = 0 \/ l = [] -> sem_inv k'.
Proof.
  intros Hi Es Hq El Hv Hf Hl m semm E. rewrite Es, lookup_insert in E. case_decide as Hd.
  - subst m. injection E as <-. split_and!; try done; try lia. by exists l.
  - destruct (Hi m semm E) as (Hvm & Hfm & lm & Elm & Hlm). split_and!; try done; try lia. exists lm. by rewrite Hq.
Qed.


Lemma get_sem_run k n sem : k_sems k !! n = Some sem -> get_sem n k = Some (sem, k).
Proof. apply rd_run. Qed.
Lemma upd_sem_run k n sem f :
  k_sems k !! n = Some sem -> upd_sem n f k = Some (tt, set_k_sems (<[n := f sem]> (k_sems k)) k).
Proof. apply upd_run. Qed.

Lemma kinv_set_sems m k : kinv None k -> kinv None (set_k_sems m k).
Proof. intros []. by split. Qed.

Definition sem_taken (n : nat) (sem : rt_semaphore) (k : kernel) : kernel :=
  set_k_sems (<[n := set_sem_value (sem_value sem - 1) sem]> (k_sems k)) k.
Definition sem_given (n : nat) (sem : rt_semaphore) (k : kernel) : kernel :=
  set_k_sems (<[n := set_sem_value (u16 (sem_value sem + 1)) sem]> (k_sems k)) k.

Lemma sem_take_now k n sem time :
  kinv None k -> sem_inv k -> k_sems k !! n = Some sem -> 0 < sem_value sem ->
  rt_sem_take n time k = Some (inl RT_EOK, sem_taken n sem k) /\ kinv None (sem_taken n sem k) /\ sem_inv (sem_taken n sem k).
Proof.
  intros Hk Hi En Hpos. destruct (Hi n sem En) as (Hv & Hf & l & El & Hl).
  unfold rt_sem_take. munfold. rewrite (get_sem_run _ _ _ En), bool_decide_true by lia. rewrite (upd_sem_run _ _ _ _ En), (wrap_id 16) by lia.
  split; [done|]. split; [by apply kinv_set_sems|].
  apply (sem_inv_upd k _ n (set_sem_value (sem_value sem - 1) sem) l); try done; [cbn; lia|]. right. destruct Hl; [lia|done].
Qed.

Lemma sem_take_blocks k n sem t time :
  kinv None k -> sem_inv k -> k_sems k !! n = Some sem -> running k t -> time < 2 ^ 31 -> sem_value sem = 0 -> time <> 0 ->
  exists k', rt_sem_take n time k = Some (inr t, k') /\ kinv None k' /\ sem_inv k' /\
    blocked (QSem n) t (sem_flag sem) time (with_error t RT_EOK k) k'.
Proof.
  intros Hk Hi En Hr Ht Hz Htime. destruct (Hi n sem En) as (Hv & Hf & l & El & Hl).
  unfold rt_sem_take. munfold. rewrite (get_sem_run _ _ _ En), !bool_decide_false by lia.
  rewrite (self_run _ _ (proj1 Hr)). destruct (proj2 Hr) as (th & Et & _).
  rewrite (set_error_run t RT_EOK k) by (by eexists).
  destruct (block_running (with_error t RT_EOK k) (QSem n) t (sem_flag sem) time l) as (k' & E & Hb);
    [by apply kinv_with_error|by apply running_with_error|done|by rewrite with_error_queues|done..|].
  munfold in E. destruct (ipc_wait _ _ _ _ _) as [[[] k1]|]; [|done]. rewrite E. eexists. split; [done|].
  split; [apply (bl_kinv _ _ _ _ _ _ Hb)|]. split; [|done].
  destruct (bl_queue _ _ _ _ _ _ Hb) as (l1 & l2 & Eq1 & Eq2 & _). rewrite with_error_queues in Eq1.
  apply (sem_inv_upd k k' n sem (l1 ++ t :: l2)); try done; try (by left).
  - rewrite (ik_sems _ _ (bl_keep _ _ _ _ _ _ Hb)), (ik_sems _ _ (with_error_keep t RT_EOK k)). by rewrite insert_id.
  - intros m Hm. rewrite (bl_queues _ _ _ _ _ _ Hb) by (done || congruence). by rewrite with_error_queues.
Qed.

Definition sem_take_post (n : nat) (sem : rt_semaphore) (t : nat) (time : Z) (k : kernel) (r : Z + nat) (k' : kernel) : Prop :=
  0 < sem_value sem /\ r = inl RT_EOK /\ k' = sem_taken n sem k \/
   sem_value sem = 0 /\ time = 0 /\ r = inl (- RT_ETIMEOUT) /\ k' = k \/
   sem_value sem = 0 /\ time <> 0 /\ r = inr t /\
     blocked (QSem n) t (sem_flag sem) time (with_error t RT_EOK k) k'.

(** rt_sem_take by a running thread always returns or blocks with the invariants
    kept: a positive value is decremented; value 0 with time 0 is refused with
    -RT_ETIMEOUT and no effect; otherwise the caller is suspended in the list of the
    semaphore (at its end, or by priority), its timer is armed exactly for a positive
    time, and another thread runs. *)
Lemma sem_take_ok k n sem t time :
  kinv None k -> sem_inv k -> k_sems k !! n = Some sem -> running k t -> time < 2 ^ 31 ->
  exists r k', rt_sem_take n time k = Some (r, k') /\ kinv None k' /\ sem_inv k' /\
    sem_take_post n sem t time k r k'.
Proof.
  unfold sem_take_post.
  intros Hk Hi En Hr Ht. destruct (decide (0 < sem_value sem)) as [Hpos|Hz].
  - destruct (sem_take_now k n sem time Hk Hi En Hpos) as (E & Hk' & Hi'). do 2 eexists. split; [done|]. split; [done|]. split; [done|]. by left.
  - assert (Hz0 : sem_value sem = 0) by (destruct (Hi n sem En) as (? & _); lia). destruct (decide (time = 0)) as [->|Htime].
    + do 2 eexists. split; [unfold rt_sem_take; munfold; rewrite (get_sem_run _ _ _ En), bool_decide_false by lia; done|].
      split; [done|]. split; [done|]. right; left. done.
    + destruct (sem_take_blocks k n sem t time Hk Hi En Hr Ht Hz0 Htime) as (k' & E & Hk' & Hi' & Hb).
      do 2 eexists. split; [done|]. split; [done|]. split; [done|]. right; right. done.
Qed.

Lemma sem_release_ok k n sem l c :
  kinv None k -> sem_inv k -> k_sems k !! n = Some sem -> s_queues (k_sched k) !! QSem n = Some l ->
  s_current (k_sched k) = Some c ->
  exists k', rt_sem_release n k = Some (RT_EOK, k') /\ kinv None k' /\ sem_inv k' /\
    match l with
    | [] => k' = sem_given n sem k
    | t :: _ => woken (QSem n) t k k'
    end.
Proof.
  intros Hk Hi En El Hc. destruct (Hi n sem En) as (Hv & Hf & l' & El' & Hl). rewrite El in El'. injection El' as <-.
  unfold rt_sem_release. munfold. rewrite (get_sem_run _ _ _ En), (kq_isempty_run _ _ _ El). destruct l as [|t l].
  - rewrite bool_decide_true by done. rewrite (upd_sem_run _ _ _ _ En). eexists. split; [done|].
    split; [by apply kinv_set_sems|]. split; [|done].
    apply (sem_inv_upd k _ n (set_sem_value (u16 (sem_value sem + 1)) sem) []); try done; [|by right].
    cbn. apply (wrap_range 16). lia.
  - rewrite bool_decide_false by done. destruct (wake_ok k (QSem n) t l c Hk ltac:(done) El Hc) as (k' & E & Hw).
    munfold in E. destruct (rt_ipc_list_resume _ _) as [[? k1]|]; [|done]. rewrite E. exists k'.
    split; [done|]. split; [apply (wk_kinv _ _ _ _ Hw)|]. split; [|done].
    apply (sem_inv_upd k k' n sem l); try done.
    + rewrite (ik_sems _ _ (wk_keep _ _ _ _ Hw)). by rewrite insert_id.
    + intros m Hm. rewrite (wk_queues _ _ _ _ Hw) by (done || congruence). done.
    + by apply (wk_queue _ _ _ _ Hw).
    + left. by destruct Hl.
Qed.

(** A blocked call returns the error left by whoever woke the thread: none after
    rt_sem_release, -RT_ETIMEOUT after its timer, -RT_ERROR after the semaphore
    was reset or deleted. *)
Lemma sem_take_resume_run k t th :
  s_threads (k_sched k) !! t = Some th -> rt_sem_take_resume t k = Some (th_error th, k).
Proof.
  intros Et. unfold rt_sem_take_resume. munfold. rewrite (get_thread_run _ _ _ Et). case_bool_decide; [done|].
  by replace (th_error th) with RT_EOK by (destruct (decide (th_error th = RT_EOK)); [done|tauto]).
Qed.

(** rt_sem_control(RT_IPC_CMD_RESET) sets the value, empties the waiting list and
    makes every thread that waited ready with the error -RT_ERROR. *)
Theorem sem_reset_correct k n sem l c arg :
  kinv None k -> sem_inv k -> k_sems k !! n = Some sem -> s_queues (k_sched k) !! QSem n = Some l ->
  s_current (k_sched k) = Some c ->
  exists k', rt_sem_control n true arg k = Some (RT_EOK, k') /\ kinv None k' /\ sem_inv k' /\
    k_sems k' = <[n := set_sem_value (u16 arg) sem]> (k_sems k) /\ s_queues (k_sched k') !! QSem n = Some [] /\
    (forall t, t ∈ l -> exists th, s_threads (k_sched k') !! t = Some th /\ active th /\ th_error th = - RT_ERROR).
Proof.
  intros Hk Hi En El Hc. destruct (Hi n sem En) as (Hv & Hf & _).
  destruct (ipc_resume_all_ok (QSem n) l k Hk ltac:(done) El) as (k1 & E1 & Hk1 & Hwa).
  pose proof Hwa as (Hik & Hc1 & _ & Hin & _).
  assert (En1 : k_sems k1 !! n = Some sem) by (by rewrite (ik_sems _ _ Hik)).
  set (k2 := set_k_sems (<[n := set_sem_value (u16 arg) sem]> (k_sems k1)) k1).
  destruct (kschedule_ok k2 c) as (s' & E' & Hk' & Hp); [by apply kinv_set_sems|by rewrite <- Hc, <- Hc1|].
  destruct Hp as (Hs' & Hf' & _). exists (set_k_sched s' k2).
  assert (Hqs : forall h, is_wait h -> s_queues s' !! h = s_queues (k_sched k1) !! h) by (intros h; by apply wait_frame).
  assert (Hnil : s_queues s' !! QSem n = Some []) by (rewrite Hqs by done; by apply (woken_all_queue _ l k)).
  split_and!; try done.
  - unfold rt_sem_control. munfold. rewrite (get_sem_run _ _ _ En), E1, (upd_sem_run _ _ _ _ En1). fold k2. by rewrite E'.
  - apply (sem_inv_upd k _ n (set_sem_value (u16 arg) sem) []); try done; [|..].
    + cbn. by rewrite (ik_sems _ _ Hik).
    + intros m Hm. cbn. rewrite Hqs by done.
      apply (woken_all_other (QSem n) _ l k); try done; [apply (ki_sched _ _ Hk)|congruence].
    + cbn. apply (wrap_range 16). lia.
    + by right.
  - cbn. by rewrite (ik_sems _ _ Hik).
  - intros t Ht. destruct (Hin t Ht) as (th & Et & Ha & He). cbn.
    destruct (frame_lookup _ _ _ _ Hf' Et) as (th' & Et' & Heq & Hst). exists th'. split_and!; try done.
    + unfold active in *. destruct Hst as [<-|[_ ?]]; done.
    + pose proof (f_equal th_error Heq) as He'. cbn in He'. congruence.
Qed.

(** C9: rt_sem_release refines the counting semaphore.  With nobody waiting the value
    grows by one; otherwise the value stays and the first waiting thread leaves the list
    and is ready or running, with the error code it had when it blocked, so that its
    rt_sem_take returns it.  Afterwards a thread that no ready thread outranks runs. *)
Theorem sem_release_refines k n cs c :
  kinv None k -> sem_inv k -> csem_of k n = Some cs -> s_current (k_sched k) = Some c -> cs_value cs < 2 ^ 16 - 1 ->
  exists k', rt_sem_release n k = Some (RT_EOK, k') /\ kinv None k' /\ sem_inv k' /\ csem_of k' n = Some (cs_release cs) /\
    match cs_waiting cs with
    | [] => True
    | t :: _ => exists th th', s_threads (k_sched k) !! t = Some th /\ s_threads (k_sched k') !! t = Some th' /\ active th' /\
        rt_sem_take_resume t k' = Some (th_error th, k') /\
        (s_lock_nest (k_sched k) = 0 -> exists c' thc, s_current (k_sched k') = Some c' /\
           s_threads (k_sched k') !! c' = Some thc /\ stat_of thc = RT_THREAD_RUNNING /\ dominates (k_sched k') thc)
    end.
Proof.
  intros Hk Hi Hcs Hc Hv. unfold csem_of in Hcs. destruct (k_sems k !! n) as [sem|] eqn:En; [|done]. cbn in Hcs.
  destruct (s_queues (k_sched k) !! QSem n) as [l|] eqn:El; [|done]. injection Hcs as <-. cbn in Hv |- *.
  destruct (sem_release_ok k n sem l c Hk Hi En El Hc) as (k' & E & Hk' & Hi' & Hpost). exists k'. split_and!; try done.
  - unfold csem_of, cs_release. cbn. destruct l as [|t l].
    + subst k'. cbn. rewrite lookup_insert_eq. cbn. rewrite El. cbn. rewrite (wrap_id 16); [done|].
      destruct (Hi n sem En) as (? & _). lia.
    + rewrite (ik_sems _ _ (wk_keep _ _ _ _ Hpost)), En. cbn. by rewrite (wk_queue _ _ _ _ Hpost l El).
  - destruct l as [|t l]; [done|].
    destruct (si_nodes _ _ (ki_sched _ _ Hk) _ _ t El ltac:(apply elem_of_cons; by left)) as (_ & th & Et & _).
    destruct (wk_thread _ _ _ _ Hpost th Et) as (th' & Et' & Ha & He). exists th, th'. split_and!; try done.
    + rewrite (sem_take_resume_run k' t th' Et'). pose proof (f_equal th_error He) as Hee. cbn in Hee. by rewrite Hee.
    + apply (wk_preempt _ _ _ _ Hpost).
Qed.

(** Nothing keeps rt_sem_release from overflowing the 16-bit value: with value
    65535 and nobody waiting it returns RT_EOK and the semaphore is empty. *)
Theorem sem_release_overflows k n sem c :
  kinv None k -> sem_inv k -> k_sems k !! n = Some sem -> s_queues (k_sched k) !! QSem n = Some [] ->
  s_current (k_sched k) = Some c -> sem_value sem = 65535 ->
  exists k', rt_sem_release n k = Some (RT_EOK, k') /\ csem_of k' n = Some (CSem 0 []).
Proof.
  intros Hk Hi En El Hc Hv. destruct (sem_release_ok k n sem [] c Hk Hi En El Hc) as (k' & E & _ & _ & ->).
  eexists. split; [done|]. unfold csem_of. cbn. rewrite lookup_insert_eq. cbn. rewrite El. cbn. by rewrite Hv.
Qed.
