(* ===== verification/Mutex.v ===== *)
(** * Mutexes (rt-thread/src/ipc.c)

    The operations rt_mutex_*: recursive ownership, priority inheritance and the
    hand-over to the first waiting thread.  [mutex_inv] ties the value, the owner,
    the hold count and the waiting list together. *)
From S2P Require Import Prelude RtList Kernel Sched Timer Object Thread Ipc Sem.
From stdpp Require Import base gmap sets list.
From Stdlib Require Import ZArith Lia.
#[local] Open Scope Z_scope.

(** ** Operations *)

Definition get_mutex (n : nat) : M kernel rt_mutex := rd k_mutexes n.
Definition upd_mutex (n : nat) (f : rt_mutex -> rt_mutex) : M kernel unit := upd k_mutexes set_k_mutexes n f.
Definition put_mutex (n : nat) (mx : rt_mutex) : M kernel unit :=
  modify (fun k => set_k_mutexes (<[n := mx]> (k_mutexes k)) k).

(** A mutex nobody holds. *)
Definition free_mutex (flag : Z) : rt_mutex := RtMutex flag 1 0xFF 0 None.

Definition rt_mutex_init (n : nat) (name : list Z) (flag : Z) : M kernel Z :=
  rt_object_init (OMutex n) RT_Object_Class_Mutex name ;;
  rt_ipc_object_init (QMutex n) ;;
  put_mutex n (free_mutex flag) ;;
  mret RT_EOK.

Definition rt_mutex_detach (n : nat) : M kernel Z :=
  get_mutex n ;;
  rt_ipc_list_resume_all (QMutex n) ;;
  rt_object_detach (OMutex n) ;;
  mret RT_EOK.

Definition rt_mutex_create (name : list Z) (flag : Z) (malloc : option nat) : M kernel (option nat) :=
  rt_object_allocate RT_Object_Class_Mutex name (OMutex <$> malloc) ;;
  match malloc with
  | None => mret None
  | Some n =>
      rt_ipc_object_init (QMutex n) ;;
      put_mutex n (free_mutex flag) ;;
      mret (Some n)
  end.

Definition rt_mutex_delete (n : nat) : M kernel Z :=
  get_mutex n ;;
  rt_ipc_list_resume_all (QMutex n) ;;
  rt_object_delete (OMutex n) ;;
  modify (fun k => set_k_mutexes (delete n (k_mutexes k)) k) ;;
  mret RT_EOK.

(** [t] becomes the owner. *)
Definition mutex_own (t : nat) (p : Z) (mx : rt_mutex) : rt_mutex :=
  set_mx_hold (u8 (mx_hold mx + 1)) (set_mx_original_priority p (set_mx_owner (Some t) mx)).

(** rt_mutex_take from its label __again on. *)
Definition mutex_take_again (n t : nat) (time : Z) : M kernel (Z + nat) :=
  mx ← get_mutex n;
  if bool_decide (mx_value mx > 0) then
    th ← get_thread t;
    upd_mutex n (fun mx => mutex_own t (th_current_priority th) (set_mx_value (u16 (mx_value mx - 1)) mx)) ;;
    mret (inl RT_EOK)
  else if bool_decide (time = 0) then
    set_thread t (set_th_error (- RT_ETIMEOUT)) ;;
    mret (inl (- RT_ETIMEOUT))
  else
    th ← get_thread t;
    owner ← liftO (mx_owner mx);
    tho ← get_thread owner;
    (if bool_decide (th_current_priority th < th_current_priority tho) then
       rt_thread_control owner (RT_THREAD_CTRL_CHANGE_PRIORITY (th_current_priority th)) ;; mret tt
     else mret tt) ;;
    ipc_wait (QMutex n) t (mx_flag mx) time ;;
    on_sched rt_schedule ;;
    mret (inr t).

Definition rt_mutex_take (n : nat) (time : Z) : M kernel (Z + nat) :=
  t ← self;
  set_thread t (set_th_error RT_EOK) ;;
  mx ← get_mutex n;
  if bool_decide (mx_owner mx = Some t) then
    upd_mutex n (fun mx => set_mx_hold (u8 (mx_hold mx + 1)) mx) ;;
    mret (inl RT_EOK)
  else mutex_take_again n t time.

(** The rest of a blocked rt_mutex_take. *)
Definition rt_mutex_take_resume (n t : nat) (time : Z) : M kernel (Z + nat) :=
  th ← get_thread t;
  if bool_decide (th_error th <> RT_EOK) then
    if bool_decide (th_error th = - RT_EINTR) then mutex_take_again n t time
    else mret (inl (th_error th))
  else mret (inl RT_EOK).

(** The release of the last hold: the priority of the owner is restored, and the
    mutex goes to the first waiting thread or becomes free. *)
Definition mutex_drop (n : nat) : M kernel bool :=
  mx ← get_mutex n;
  owner ← liftO (mx_owner mx);
  tho ← get_thread owner;
  (if bool_decide (mx_original_priority mx <> th_current_priority tho) then
     rt_thread_control owner (RT_THREAD_CTRL_CHANGE_PRIORITY (mx_original_priority mx)) ;; mret tt
   else mret tt) ;;
  l ← kq (q_list (QMutex n));
  match l with
  | u :: _ =>
      thu ← get_thread u;
      upd_mutex n (mutex_own u (th_current_priority thu)) ;;
      rt_ipc_list_resume (QMutex n) ;;
      mret true
  | [] =>
      upd_mutex n (fun mx => set_mx_original_priority 0xff (set_mx_owner None (set_mx_value (u16 (mx_value mx + 1)) mx))) ;;
      mret false
  end.

Definition rt_mutex_release (n : nat) : M kernel Z :=
  t ← self;
  mx ← get_mutex n;
  if bool_decide (mx_owner mx <> Some t) then
    set_thread t (set_th_error (- RT_ERROR)) ;;
    mret (- RT_ERROR)
  else
    upd_mutex n (fun mx => set_mx_hold (u8 (mx_hold mx - 1)) mx) ;;
    mx ← get_mutex n;
    need_schedule ← (if bool_decide (mx_hold mx = 0) then mutex_drop n else mret false : M kernel bool);
    (if (need_schedule : bool) then on_sched rt_schedule else mret tt) ;;
    mret RT_EOK.

Definition rt_mutex_control (n : nat) : M kernel Z := mret (- RT_ERROR).

(** ** Invariant *)

Definition mutex_ok (k : kernel) (n : nat) (mx : rt_mutex) : Prop :=
  ipc_flag_ok (mx_flag mx) /\ exists l, s_queues (k_sched k) !! QMutex n = Some l /\
  match mx_owner mx with
  | None => mx = free_mutex (mx_flag mx) /\ l = []
  | Some o => mx_value mx = 0 /\ 0 < mx_hold mx < 256 /\ 0 <= mx_original_priority mx < 32 /\
      is_Some (s_threads (k_sched k) !! o) /\ o ∉ l
  end.

Definition mutex_inv (k : kernel) : Prop := forall n mx, k_mutexes k !! n = Some mx -> mutex_ok k n mx.

(** ** Lemmas *)

Lemma get_mutex_run k n mx : k_mutexes k !! n = Some mx -> get_mutex n k = Some (mx, k).
Proof. apply rd_run. Qed.
Lemma upd_mutex_run k n mx f :
  k_mutexes k !! n = Some mx -> upd_mutex n f k = Some (tt, set_k_mutexes (<[n := f mx]> (k_mutexes k)) k).
Proof. apply upd_run. Qed.
Lemma kinv_set_mutexes m k : kinv None k -> kinv None (set_k_mutexes m k).
Proof. intros []. by split. Qed.

Lemma mutex_inv_upd k k' n mx :
  mutex_inv k -> k_mutexes k' = <[n := mx]> (k_mutexes k) ->
  (forall m, m <> n -> s_queues (k_sched k') !! QMutex m = s_queues (k_sched k) !! QMutex m) ->
  (forall u, is_Some (s_threads (k_sched k) !! u) -> is_Some (s_threads (k_sched k') !! u)) ->
  mutex_ok k' n mx -> mutex_inv k'.
Proof.
  intros Hi Es Hq Ht Hok m mxm E. rewrite Es, lookup_insert in E. case_decide as Hd.
  - subst m. by injection E as <-.
  - destruct (Hi m mxm E) as (Hf & l & El & Ho). split; [done|]. exists l. rewrite Hq by done. split; [done|].
    destruct (mx_owner mxm); [|done]. destruct Ho as (? & ? & ? & ? & ?). split_and!; try done; try lia. by apply Ht.
Qed.

Lemma reprioritised_refl t th s :
  sinv None s -> s_threads s !! t = Some th -> reprioritised t (th_current_priority th) s s.
Proof.
  intros Hs Et. split; try done. intros th0 E0. rewrite Et in E0. injection E0 as <-. by exists th.
Qed.

(** rt_thread_control on the owner, if its priority has to change to [p]. *)
Lemma change_prio_ok k o tho p (b : bool) :
  kinv None k -> s_threads (k_sched k) !! o = Some tho -> 0 <= p < 32 -> (b = false -> p = th_current_priority tho) ->
  exists s', (if b then rt_thread_control o (RT_THREAD_CTRL_CHANGE_PRIORITY p) ;; mret tt else mret tt) k =
      Some (tt, set_k_sched s' k) /\
    kinv None (set_k_sched s' k) /\ reprioritised o p (k_sched k) s'.
Proof.
  intros Hk Eo Hp Hb. destruct b.
  - destruct (control_prio_ok k o tho p Hk Eo Hp) as (s' & E & Hk' & Hr). exists s'. by rewrite (bind_run _ _ _ _ _ E).
  - exists (k_sched k). rewrite Hb by done. destruct k. split_and!; try done. by apply reprioritised_refl; [apply (ki_sched _ _ Hk)|].
Qed.

Lemma reprioritised_dom t p s s' u :
  reprioritised t p s s' -> is_Some (s_threads s !! u) -> is_Some (s_threads s' !! u).
Proof.
  intros Hr [th E]. destruct (decide (u = t)) as [->|Hne].
  - destruct (rp_thread _ _ _ _ Hr th E) as (th' & E' & _). eauto.
  - rewrite (rp_threads _ _ _ _ Hr) by done. eauto.
Qed.

Lemma blocked_dom h t flag time k k' u :
  blocked h t flag time k k' -> is_Some (s_threads (k_sched k) !! u) -> is_Some (s_threads (k_sched k') !! u).
Proof.
  intros Hb [th E]. destruct (decide (u = t)) as [->|Hne].
  - destruct (bl_thread _ _ _ _ _ _ Hb th E) as (th' & E' & _). eauto.
  - pose proof (bl_threads _ _ _ _ _ _ Hb u Hne) as Ho. rewrite E in Ho. inversion Ho; subst. by eexists.
Qed.
Lemma woken_dom h t k k' u :
  woken h t k k' -> is_Some (s_threads (k_sched k) !! t) -> is_Some (s_threads (k_sched k) !! u) -> is_Some (s_threads (k_sched k') !! u).
Proof.
  intros Hw [tht Et] [th E]. destruct (decide (u = t)) as [->|Hne].
  - destruct (wk_thread _ _ _ _ Hw tht Et) as (th' & E' & _). eauto.
  - pose proof (wk_threads _ _ _ _ Hw u Hne) as Ho. rewrite E in Ho. inversion Ho; subst. by eexists.
Qed.

Lemma mutex_inv_frame k k' :
  mutex_inv k -> k_mutexes k' = k_mutexes k ->
  (forall n, s_queues (k_sched k') !! QMutex n = s_queues (k_sched k) !! QMutex n) ->
  (forall u, is_Some (s_threads (k_sched k) !! u) -> is_Some (s_threads (k_sched k') !! u)) -> mutex_inv k'.
Proof.
  intros Hi Es Hq Ht n mx E. rewrite Es in E. destruct (Hi n mx E) as (Hf & l & El & Ho). split; [done|]. exists l.
  rewrite Hq. split; [done|]. destruct (mx_owner mx); [|done]. destruct Ho as (? & ? & ? & ? & ?). split_and!; try done; try lia. by apply Ht.
Qed.

Lemma with_error_dom t e k u :
  is_Some (s_threads (k_sched k) !! u) -> is_Some (s_threads (k_sched (with_error t e k)) !! u).
Proof. intros [th E]. rewrite with_error_thread, E. by case_decide; eexists. Qed.

Lemma mutex_inv_error t e k : mutex_inv k -> mutex_inv (with_error t e k).
Proof.
  intros Hi. apply (mutex_inv_frame k); [done|by rewrite (ik_mutexes _ _ (with_error_keep t e k))| |intros u; apply with_error_dom].
  intros n. by rewrite with_error_queues.
Qed.

(** ** rt_mutex_take *)

(** The priority inheritance of a blocked take, then the wait. *)
Definition mutex_blocked (n o t : nat) (flag time : Z) (k k' : kernel) : Prop :=
  exists th tho s1, s_threads (k_sched k) !! t = Some th /\ s_threads (k_sched k) !! o = Some tho /\
    reprioritised o (Z.min (th_current_priority th) (th_current_priority tho)) (k_sched k) s1 /\
    blocked (QMutex n) t flag time (set_k_sched s1 k) k'.

Definition mutex_take_post (n : nat) (mx : rt_mutex) (t : nat) (time : Z) (k : kernel) (r : Z + nat) (k' : kernel) : Prop :=
  match mx_owner mx with
  | None => r = inl RT_EOK /\ exists th, s_threads (k_sched k) !! t = Some th /\
      k' = set_k_mutexes (<[n := RtMutex (mx_flag mx) 0 (th_current_priority th) 1 (Some t)]> (k_mutexes k)) (with_error t RT_EOK k)
  | Some o =>
      if decide (o = t) then r = inl RT_EOK /\
        k' = set_k_mutexes (<[n := set_mx_hold (mx_hold mx + 1) mx]> (k_mutexes k)) (with_error t RT_EOK k)
      else if decide (time = 0) then r = inl (- RT_ETIMEOUT) /\ k' = with_error t (- RT_ETIMEOUT) k
      else r = inr t /\ mutex_blocked n o t (mx_flag mx) time (with_error t RT_EOK k) k'
  end.

Lemma running_thread_ok k t : kinv None k -> running k t ->
  exists th, s_threads (k_sched k) !! t = Some th /\ stat_of th = RT_THREAD_RUNNING /\ 0 <= th_current_priority th < 32.
Proof.
  intros Hk [_ (th & Et & Hr)]. exists th. split_and!; try done; apply (si_prio _ _ (ki_sched _ _ Hk) t th Et).
Qed.

Lemma mutex_block_ok k n mx o t time :
  kinv None k -> mutex_inv k -> k_mutexes k !! n = Some mx -> mx_owner mx = Some o -> o <> t -> running k t ->
  time < 2 ^ 31 -> time <> 0 ->
  exists k', mutex_take_again n t time k = Some (inr t, k') /\ kinv None k' /\ mutex_inv k' /\
    mutex_blocked n o t (mx_flag mx) time k k'.
Proof.
  intros Hk Hi En Ho Hne Hr Ht Hz. destruct (Hi n mx En) as (Hf & l & El & Hown). rewrite Ho in Hown.
  destruct Hown as (Hv & Hh & Hp & [tho Eo] & Hol).
  destruct (running_thread_ok k t Hk Hr) as (th & Et & Hst & Hpt).
  destruct (si_prio _ _ (ki_sched _ _ Hk) o tho Eo) as [Hpo _].
  set (p := Z.min (th_current_priority th) (th_current_priority tho)).
  destruct (change_prio_ok k o tho p (bool_decide (th_current_priority th < th_current_priority tho)) Hk Eo) as (s1 & E1 & Hk1 & Hrp);
    [lia|intros Hb%bool_decide_eq_false; lia|].
  set (k1 := set_k_sched s1 k) in *.
  assert (Hr1 : running k1 t).
  { split; [cbn; rewrite (rp_current _ _ _ _ Hrp); apply Hr|]. exists th. cbn. by rewrite (rp_threads _ _ _ _ Hrp). }
  assert (El1 : s_queues (k_sched k1) !! QMutex n = Some l) by (cbn; by rewrite (rp_waiting _ _ _ _ Hrp)).
  destruct (block_running k1 (QMutex n) t (mx_flag mx) time l Hk1 Hr1 ltac:(done) El1 Hf Ht) as (k' & E & Hb).
  exists k'. split_and!.
  - unfold mutex_take_again. munfold. rewrite (get_mutex_run _ _ _ En).
    rewrite bool_decide_false by lia. rewrite (bool_decide_false (time = 0)) by done.
    rewrite (get_thread_run _ _ _ Et), Ho. rewrite (get_thread_run _ _ _ Eo).
    munfold in E1. munfold in E. unfold p in E1. case_bool_decide.
    + rewrite Z.min_l in E1 by lia. rewrite E1. fold k1. destruct (ipc_wait _ _ _ _ _) as [[[] k2]|]; [|done]. by rewrite E.
    + injection E1 as E1. rewrite <- E1 in E. destruct (ipc_wait _ _ _ _ _) as [[[] k2]|]; [|done]. by rewrite E.
  - apply (bl_kinv _ _ _ _ _ _ Hb).
  - destruct (bl_queue _ _ _ _ _ _ Hb) as (l1 & l2 & Eq1 & Eq2 & _). rewrite El1 in Eq1. injection Eq1 as Eq1.
    apply (mutex_inv_upd k k' n mx); [done| | | |].
    + rewrite (ik_mutexes _ _ (bl_keep _ _ _ _ _ _ Hb)). cbn. by rewrite insert_id.
    + intros m Hm. rewrite (bl_queues _ _ _ _ _ _ Hb) by (done || congruence). cbn. by rewrite (rp_waiting _ _ _ _ Hrp).
    + intros u Hu. apply (blocked_dom _ _ _ _ _ _ u Hb). by apply (reprioritised_dom o p (k_sched k)).
    + split; [done|]. exists (l1 ++ t :: l2). split; [done|]. rewrite Ho. split_and!; try done; try lia; [|set_solver].
      apply (blocked_dom _ _ _ _ _ _ o Hb), (reprioritised_dom o p (k_sched k)); [done|by eexists].
  - by exists th, tho, s1.
Qed.

(** rt_mutex_take by a running thread: a free mutex becomes owned by the caller,
    which saves its priority; an owner takes it again by counting; a mutex owned by
    somebody else is refused with -RT_ETIMEOUT if the time is 0, and otherwise the owner
    is raised to the priority of the caller if that is higher (priority inheritance)
    before the caller is suspended in the waiting list with its timer armed and another
    thread runs. *)
Lemma mutex_take_ok k n mx t time :
  kinv None k -> mutex_inv k -> k_mutexes k !! n = Some mx -> running k t -> time < 2 ^ 31 ->
  (mx_owner mx = Some t -> mx_hold mx < 255) ->
  exists r k', rt_mutex_take n time k = Some (r, k') /\ kinv None k' /\ mutex_inv k' /\
    mutex_take_post n mx t time k r k'.
Proof.
  intros Hk Hi En Hr Ht Hhold. destruct (running_thread_ok k t Hk Hr) as (th & Et & Hst & Hpt).
  set (k1 := with_error t RT_EOK k). pose proof (with_error_keep t RT_EOK k) as Hkeep. fold k1 in Hkeep.
  assert (Hk1 : kinv None k1) by (by apply kinv_with_error).
  assert (Hi1 : mutex_inv k1) by (by apply mutex_inv_error).
  assert (En1 : k_mutexes k1 !! n = Some mx) by (by rewrite (ik_mutexes _ _ Hkeep)).
  assert (Et1 : s_threads (k_sched k1) !! t = Some (set_th_error RT_EOK th)).
  { unfold k1. by rewrite with_error_thread, decide_True, Et. }
  assert (Hr1 : running k1 t) by (by apply running_with_error).
  assert (Hrun : rt_mutex_take n time k = (if bool_decide (mx_owner mx = Some t) then
      upd_mutex n (fun mx => set_mx_hold (u8 (mx_hold mx + 1)) mx) ;; mret (inl RT_EOK)
    else mutex_take_again n t time) k1).
  { unfold rt_mutex_take. munfold. rewrite (self_run _ _ (proj1 Hr)), (set_error_run t RT_EOK k) by (by eexists).
    fold k1. rewrite (get_mutex_run _ _ _ En1). by case_bool_decide. }
  unfold mutex_take_post. destruct (Hi1 n mx En1) as (Hf & l & El & Hown).
  assert (Hupd : forall mx', mutex_ok (set_k_mutexes (<[n := mx']> (k_mutexes k1)) k1) n mx' ->
    mutex_inv (set_k_mutexes (<[n := mx']> (k_mutexes k1)) k1)) by (intros mx'; by apply (mutex_inv_upd k1)).
  destruct (mx_owner mx) as [o|] eqn:Ho.
  - destruct Hown as (Hv & Hh & Hp & Hth & Hol). destruct (decide (o = t)) as [->|Hne].
    + rewrite bool_decide_true in Hrun by done. munfold in Hrun. rewrite (upd_mutex_run _ _ _ _ En1) in Hrun.
      specialize (Hhold eq_refl). rewrite (wrap_id 8) in Hrun by lia. do 2 eexists. split; [done|].
      split; [by apply kinv_set_mutexes|]. split; [apply Hupd|by rewrite <- (ik_mutexes _ _ Hkeep)].
      split; [done|]. exists l. split; [done|]. cbn. rewrite Ho. split_and!; try done; lia.
    + rewrite bool_decide_false in Hrun by congruence. destruct (decide (time = 0)) as [->|Hz].
      * unfold mutex_take_again in Hrun. munfold in Hrun. rewrite (get_mutex_run _ _ _ En1) in Hrun.
        rewrite bool_decide_false in Hrun by lia. rewrite (bool_decide_true (0 = 0)) in Hrun by done.
        rewrite (set_error_run t _ k1) in Hrun by (by eexists).
        assert (Hee : with_error t (- RT_ETIMEOUT) k1 = with_error t (- RT_ETIMEOUT) k).
        { unfold k1, with_error. rewrite Et. cbn. rewrite lookup_insert_eq. by rewrite insert_insert_eq. }
        rewrite Hee in Hrun. do 2 eexists. split; [done|]. split_and!; try done; [by apply kinv_with_error|by apply mutex_inv_error].
      * destruct (mutex_block_ok k1 n mx o t time Hk1 Hi1 En1 Ho Hne Hr1 Ht Hz) as (k' & E & Hk' & Hi' & Hb).
        exists (inr t), k'. by rewrite Hrun.
  - destruct Hown as [Hfree ->]. rewrite bool_decide_false in Hrun by done.
    unfold mutex_take_again in Hrun. munfold in Hrun. rewrite (get_mutex_run _ _ _ En1) in Hrun.
    rewrite bool_decide_true in Hrun by (by rewrite Hfree). rewrite (get_thread_run _ _ _ Et1), (upd_mutex_run _ _ _ _ En1) in Hrun.
    rewrite Hfree in Hrun. do 2 eexists. split; [done|]. split; [by apply kinv_set_mutexes|].
    split; [apply Hupd|split; [done|]; exists th; split; [done|]; by rewrite <- (ik_mutexes _ _ Hkeep)].
    split; [done|]. exists []. split; [done|]. cbn. split_and!; try done; try lia; set_solver.
Qed.

(** ** rt_mutex_release *)

Definition mutex_release_post (n : nat) (mx : rt_mutex) (t : nat) (l : list nat) (k : kernel) (k' : kernel) : Prop :=
  if decide (1 < mx_hold mx) then k' = set_k_mutexes (<[n := set_mx_hold (mx_hold mx - 1) mx]> (k_mutexes k)) k
  else exists s1, reprioritised t (mx_original_priority mx) (k_sched k) s1 /\
    match l with
    | [] => k' = set_k_mutexes (<[n := free_mutex (mx_flag mx)]> (k_mutexes k)) (set_k_sched s1 k)
    | u :: _ => exists thu, s_threads (k_sched k) !! u = Some thu /\
        woken (QMutex n) u
          (set_k_mutexes (<[n := RtMutex (mx_flag mx) 0 (th_current_priority thu) 1 (Some u)]> (k_mutexes k)) (set_k_sched s1 k)) k'
    end.

(** Only the owner can release a mutex: for any other thread rt_mutex_release returns
    -RT_ERROR, records it in the thread and changes nothing else. *)
Theorem mutex_release_needs_owner k n mx t :
  k_mutexes k !! n = Some mx -> mx_owner mx <> Some t -> running k t ->
  rt_mutex_release n k = Some (- RT_ERROR, with_error t (- RT_ERROR) k).
Proof.
  intros En Ho [Hc (th & Et & _)]. unfold rt_mutex_release. munfold. rewrite (self_run _ _ Hc), (get_mutex_run _ _ _ En).
  rewrite bool_decide_true by done. by rewrite (set_error_run t _ k) by (by eexists).
Qed.

(** rt_mutex_release by the owner: an inner release only counts down; the last one
    restores the priority the owner had when it took the mutex and hands the mutex to the
    first waiting thread, which becomes ready as its owner, or frees it. *)
Lemma mutex_release_ok k n mx t l :
  kinv None k -> mutex_inv k -> k_mutexes k !! n = Some mx -> mx_owner mx = Some t -> running k t ->
  s_queues (k_sched k) !! QMutex n = Some l ->
  exists k', rt_mutex_release n k = Some (RT_EOK, k') /\ kinv None k' /\ mutex_inv k' /\ mutex_release_post n mx t l k k'.
Proof.
  intros Hk Hi En Ho Hr El. destruct (Hi n mx En) as (Hf & l' & El' & Hown). rewrite El in El'. injection El' as <-.
  rewrite Ho in Hown. destruct Hown as (Hv & Hh & Hp & Hth & Hol).
  destruct (running_thread_ok k t Hk Hr) as (th & Et & Hst & Hpt).
  set (mx1 := set_mx_hold (mx_hold mx - 1) mx). set (k1 := set_k_mutexes (<[n := mx1]> (k_mutexes k)) k).
  assert (En1 : k_mutexes k1 !! n = Some mx1) by apply lookup_insert_eq.
  assert (Hk1 : kinv None k1) by (by apply kinv_set_mutexes).
  unfold rt_mutex_release. munfold. rewrite (self_run _ _ (proj1 Hr)), (get_mutex_run _ _ _ En).
  rewrite bool_decide_false by (by rewrite Ho; intros []). rewrite (upd_mutex_run _ _ _ _ En). rewrite (wrap_id 8) by lia.
  fold mx1. fold k1. rewrite (get_mutex_run _ _ _ En1). unfold mutex_release_post.
  destruct (decide (1 < mx_hold mx)) as [Hgt|Hle].
  { rewrite bool_decide_false by (cbn; lia). exists k1. split_and!; try done.
    apply (mutex_inv_upd k k1 n mx1); try done. split; [done|]. exists l. split; [done|]. cbn. rewrite Ho. split_and!; try done; lia. }
  rewrite bool_decide_true by (cbn; lia).
  destruct (change_prio_ok k1 t th (mx_original_priority mx) (bool_decide (mx_original_priority mx <> th_current_priority th)) Hk1 Et Hp)
    as (s1 & E1 & Hk2 & Hrp).
  { intros Hb%bool_decide_eq_false. by destruct (decide (mx_original_priority mx = th_current_priority th)). }
  set (k2 := set_k_sched s1 k1) in *.
  assert (El2 : s_queues (k_sched k2) !! QMutex n = Some l) by (cbn; by rewrite (rp_waiting _ _ _ _ Hrp)).
  unfold mutex_drop at 1. munfold. rewrite (get_mutex_run _ _ _ En1). change (mx_owner mx1) with (mx_owner mx). rewrite Ho.
  rewrite (get_thread_run k1 _ _ Et). change (mx_original_priority mx1) with (mx_original_priority mx).
  munfold in E1. rewrite E1. fold k2. rewrite (kq_list_run _ _ _ El2).
  assert (En2 : k_mutexes k2 !! n = Some mx1) by done.
  assert (Hdom : forall u, is_Some (s_threads (k_sched k) !! u) -> is_Some (s_threads (k_sched k2) !! u)).
  { intros u. by apply (reprioritised_dom t (mx_original_priority mx)). }
  destruct l as [|u l].
  - rewrite (upd_mutex_run _ _ _ _ En2). cbn [mx_value mx1 set_mx_hold]. rewrite Hv. change (u16 (0 + 1)) with 1.
    assert (Emx : set_mx_original_priority 255 (set_mx_owner None (set_mx_value 1 mx1)) = free_mutex (mx_flag mx)).
    { unfold free_mutex, mx1. by replace (mx_hold mx) with 1 by lia. }
    rewrite Emx. eexists. split; [done|]. split; [by apply kinv_set_mutexes|]. split.
    + eapply (mutex_inv_upd k _ n (free_mutex (mx_flag mx))); [done|cbn; by rewrite insert_insert_eq| |done|].
      * intros m Hm. cbn. by rewrite (rp_waiting _ _ _ _ Hrp).
      * split; [done|]. exists []. split; [done|]. done.
    + exists s1. split; [done|]. cbn. by rewrite insert_insert_eq.
  - destruct (si_nodes _ _ (ki_sched _ _ Hk) _ _ u El ltac:(apply elem_of_cons; by left)) as (_ & thu & Eu & _).
    assert (Hut : u <> t) by (intros ->; apply Hol, elem_of_cons; by left).
    assert (Eu2 : s_threads (k_sched k2) !! u = Some thu) by (cbn; by rewrite (rp_threads _ _ _ _ Hrp)).
    rewrite (get_thread_run _ _ _ Eu2), (upd_mutex_run _ _ _ _ En2).
    set (mx2 := RtMutex (mx_flag mx) 0 (th_current_priority thu) 1 (Some u)).
    assert (Emx : mutex_own u (th_current_priority thu) mx1 = mx2).
    { unfold mutex_own, mx1, mx2. replace (mx_hold mx) with 1 by lia. by rewrite <- Hv. }
    rewrite Emx. set (k3 := set_k_mutexes _ k2).
    assert (Hc3 : s_current (k_sched k3) = Some t) by (cbn; rewrite (rp_current _ _ _ _ Hrp); apply Hr).
    destruct (wake_ok k3 (QMutex n) u l t) as (k' & E & Hw); [by apply kinv_set_mutexes|done..|].
    munfold in E. destruct (rt_ipc_list_resume _ _) as [[? k4]|]; [|done]. rewrite E. exists k'. split; [done|].
    split; [apply (wk_kinv _ _ _ _ Hw)|]. split.
    + assert (Hdom' : forall v, is_Some (s_threads (k_sched k) !! v) -> is_Some (s_threads (k_sched k') !! v)).
      { intros v Hv'. apply (woken_dom _ _ _ _ v Hw); [by eexists|by apply Hdom]. }
      apply (mutex_inv_upd k k' n mx2); [done| | |done|].
      * rewrite (ik_mutexes _ _ (wk_keep _ _ _ _ Hw)). cbn. by rewrite insert_insert_eq.
      * intros m Hm. rewrite (wk_queues _ _ _ _ Hw) by (done || congruence). cbn. by rewrite (rp_waiting _ _ _ _ Hrp).
      * split; [done|]. exists l. split; [by apply (wk_queue _ _ _ _ Hw)|]. cbn. split_and!; try done.
        -- apply (si_prio _ _ (ki_sched _ _ Hk) u thu Eu).
        -- apply (si_prio _ _ (ki_sched _ _ Hk) u thu Eu).
        -- apply Hdom'. by eexists.
        -- pose proof (proj1 (si_wf _ _ (ki_sched _ _ Hk)) _ _ El) as [? _]%NoDup_cons. done.
    + exists s1. split; [done|]. exists thu. split; [done|].
      replace (set_k_mutexes (<[n := mx2]> (k_mutexes k)) (set_k_sched s1 k)) with k3; [done|].
      unfold k3. cbn. by rewrite insert_insert_eq.
Qed.

Lemma mutex_retake_run k n mx t :
  k_mutexes k !! n = Some mx -> mx_owner mx = Some t -> running k t ->
  rt_mutex_take n 0 k = Some (inl RT_EOK,
    set_k_mutexes (<[n := set_mx_hold (u8 (mx_hold mx + 1)) mx]> (k_mutexes k)) (with_error t RT_EOK k)).
Proof.
  intros En Ho [Hc (th & Et & _)]. unfold rt_mutex_take. munfold.
  rewrite (self_run _ _ Hc), (set_error_run t RT_EOK k) by (by eexists).
  rewrite (get_mutex_run _ n mx) by (by rewrite (ik_mutexes _ _ (with_error_keep t RT_EOK k))).
  rewrite bool_decide_true by done. rewrite (upd_mutex_run _ n mx) by (by rewrite (ik_mutexes _ _ (with_error_keep t RT_EOK k))).
  by rewrite (ik_mutexes _ _ (with_error_keep t RT_EOK k)).
Qed.

(** The hold count of a recursive mutex is 8 bits and unchecked.  An owner that holds
    the mutex 255 times and takes it once more has the count wrap to 0, and the taking
    after that makes it 1, the count of a mutex taken once: one release then frees it
    although it was taken 257 times. *)
Theorem mutex_hold_overflows k n mx t :
  k_mutexes k !! n = Some mx -> mx_owner mx = Some t -> mx_hold mx = 255 -> running k t ->
  exists k1 k2 mx2, rt_mutex_take n 0 k = Some (inl RT_EOK, k1) /\ rt_mutex_take n 0 k1 = Some (inl RT_EOK, k2) /\
    k_mutexes k2 !! n = Some mx2 /\ mx_owner mx2 = Some t /\ mx_hold mx2 = 1.
Proof.
  intros En Ho Hh Hr. set (k1 := set_k_mutexes (<[n := set_mx_hold 0 mx]> (k_mutexes k)) (with_error t RT_EOK k)).
  assert (Hr1 : running k1 t) by (destruct (running_with_error t RT_EOK k t Hr); by split).
  pose proof (mutex_retake_run k n mx t En Ho Hr) as E1. rewrite Hh in E1.
  pose proof (mutex_retake_run k1 n (set_mx_hold 0 mx) t (lookup_insert_eq _ _ _) Ho Hr1) as E2.
  eexists k1, _, _. split; [exact E1|]. split; [exact E2|]. split; [apply lookup_insert_eq|]. done.
Qed.
