(* ===== verification/Event.v ===== *)
(** * Events (rt-thread/src/ipc.c)

    The operations rt_event_*.  [event_inv] states that no thread waits for
    a condition that the event set already satisfies; [scan_spec] is the
    specification of the walk over the waiting threads in rt_event_send. *)
From S2P Require Import Prelude RtList Kernel Sched Timer Object Thread Ipc Sem Mutex.
From stdpp Require Import base gmap sets list.
From Stdlib Require Import ZArith Lia.
#[local] Open Scope Z_scope.

(** ** Operations *)

Definition RT_EVENT_FLAG_AND : Z := 1.
Definition RT_EVENT_FLAG_OR : Z := 2.
Definition RT_EVENT_FLAG_CLEAR : Z := 4.

Definition get_event (n : nat) : M kernel rt_event := rd k_events n.
Definition upd_event (n : nat) (f : rt_event -> rt_event) : M kernel unit := upd k_events set_k_events n f.
Definition put_event (n : nat) (ev : rt_event) : M kernel unit :=
  modify (fun k => set_k_events (<[n := ev]> (k_events k)) k).

Definition rt_event_init (n : nat) (name : list Z) (flag : Z) : M kernel Z :=
  rt_object_init (OEvent n) RT_Object_Class_Event name ;;
  rt_ipc_object_init (QEvent n) ;;
  put_event n (RtEvent flag 0) ;;
  mret RT_EOK.

Definition rt_event_detach (n : nat) : M kernel Z :=
  get_event n ;;
  rt_ipc_list_resume_all (QEvent n) ;;
  rt_object_detach (OEvent n) ;;
  mret RT_EOK.

Definition rt_event_create (name : list Z) (flag : Z) (malloc : option nat) : M kernel (option nat) :=
  rt_object_allocate RT_Object_Class_Event name (OEvent <$> malloc) ;;
  match malloc with
  | None => mret None
  | Some n =>
      rt_ipc_object_init (QEvent n) ;;
      put_event n (RtEvent flag 0) ;;
      mret (Some n)
  end.

Definition rt_event_delete (n : nat) : M kernel Z :=
  get_event n ;;
  rt_ipc_list_resume_all (QEvent n) ;;
  rt_object_delete (OEvent n) ;;
  modify (fun k => set_k_events (delete n (k_events k)) k) ;;
  mret RT_EOK.

(** Whether a bit of the option word is set. *)
Definition opt (opts flag : Z) : bool := bool_decide (Z.land opts flag <> 0).

(** The walk of rt_event_send; a resumed thread leaves the list, which does not
    disturb the nodes still to visit. *)
Fixpoint event_scan (n : nat) (l : list nat) : M kernel bool :=
  match l with
  | [] => mret false
  | t :: l =>
      th ← get_thread t;
      ev ← get_event n;
      status ←
        (if opt (th_event_info th) RT_EVENT_FLAG_AND then
           mret (bool_decide (Z.land (th_event_set th) (ev_set ev) = th_event_set th))
         else if opt (th_event_info th) RT_EVENT_FLAG_OR then
           if bool_decide (Z.land (th_event_set th) (ev_set ev) <> 0) then
             set_thread t (fun th => set_th_event_set (Z.land (th_event_set th) (ev_set ev)) th) ;; mret true
           else mret false
         else mret false : M kernel bool);
      if (status : bool) then
        th ← get_thread t;
        (if opt (th_event_info th) RT_EVENT_FLAG_CLEAR then
           upd_event n (fun ev => set_ev_set (Z.land (ev_set ev) (Z.lnot (th_event_set th))) ev)
         else mret tt) ;;
        rt_thread_resume t ;;
        event_scan n l ;;
        mret true
      else event_scan n l
  end.

Definition rt_event_send (n : nat) (set : Z) : M kernel Z :=
  if bool_decide (set = 0) then mret (- RT_ERROR)
  else
    upd_event n (fun ev => set_ev_set (Z.lor (ev_set ev) set) ev) ;;
    l ← kq (q_list (QEvent n));
    need_schedule ← event_scan n l;
    (if (need_schedule : bool) then on_sched rt_schedule else mret tt) ;;
    mret RT_EOK.

(** The error code with the received set, or the blocked caller. *)
Definition rt_event_recv (n : nat) (set opts timeout : Z) : M kernel ((Z * option Z) + nat) :=
  if bool_decide (set = 0) then mret (inl (- RT_ERROR, None))
  else
    t ← self;
    set_thread t (set_th_error RT_EOK) ;;
    ev ← get_event n;
    let status :=
      if opt opts RT_EVENT_FLAG_AND then bool_decide (Z.land (ev_set ev) set = set)
      else if opt opts RT_EVENT_FLAG_OR then bool_decide (Z.land (ev_set ev) set <> 0)
      else false in
    if status then
      (if opt opts RT_EVENT_FLAG_CLEAR then
         upd_event n (fun ev => set_ev_set (Z.land (ev_set ev) (Z.lnot set)) ev)
       else mret tt) ;;
      th ← get_thread t;
      mret (inl (th_error th, Some (Z.land (ev_set ev) set)))
    else if bool_decide (timeout = 0) then
      set_thread t (set_th_error (- RT_ETIMEOUT)) ;;
      th ← get_thread t;
      mret (inl (th_error th, None))
    else
      set_thread t (fun th => set_th_event_info opts (set_th_event_set set th)) ;;
      ipc_wait (QEvent n) t (ev_flag ev) timeout ;;
      on_sched rt_schedule ;;
      mret (inr t).
Definition rt_event_recv_resume (t : nat) : M kernel (Z * option Z) :=
  th ← get_thread t;
  if bool_decide (th_error th <> RT_EOK) then mret (th_error th, None)
  else mret (th_error th, Some (th_event_set th)).

Definition rt_event_control (n : nat) (cmd : bool) : M kernel Z :=
  if cmd then
    get_event n ;;
    rt_ipc_list_resume_all (QEvent n) ;;
    upd_event n (set_ev_set 0) ;;
    on_sched rt_schedule ;;
    mret RT_EOK
  else mret (- RT_ERROR).

(** ** Specification *)

(** The condition of a waiting thread. *)
Definition event_sat (info es set : Z) : bool :=
  if opt info RT_EVENT_FLAG_AND then bool_decide (Z.land es set = es)
  else if opt info RT_EVENT_FLAG_OR then bool_decide (Z.land es set <> 0)
  else false.

(** What a satisfied thread receives. *)
Definition event_recved (info es set : Z) : Z := if opt info RT_EVENT_FLAG_AND then es else Z.land es set.

(** What a satisfied thread leaves. *)
Definition event_left (info es set : Z) : Z :=
  if opt info RT_EVENT_FLAG_CLEAR then Z.land set (Z.lnot (event_recved info es set)) else set.

(** The threads woken by a walk, with what each receives, and the set left. *)
Fixpoint scan_spec (ths : gmap nat rt_thread) (l : list nat) (set : Z) : list (nat * Z) * Z :=
  match l with
  | [] => ([], set)
  | t :: l =>
    match ths !! t with
    | Some th =>
      let info := th_event_info th in let es := th_event_set th in
      if event_sat info es set then
        let '(w, set') := scan_spec ths l (event_left info es set) in
        ((t, event_recved info es set) :: w, set')
      else scan_spec ths l set
    | None => scan_spec ths l set
    end
  end.

Definition event_ok (k : kernel) (n : nat) (ev : rt_event) : Prop :=
  ipc_flag_ok (ev_flag ev) /\ 0 <= ev_set ev /\ exists l, s_queues (k_sched k) !! QEvent n = Some l /\
  forall t th, t ∈ l -> s_threads (k_sched k) !! t = Some th ->
    event_sat (th_event_info th) (th_event_set th) (ev_set ev) = false.

Definition event_inv (k : kernel) : Prop := forall n ev, k_events k !! n = Some ev -> event_ok k n ev.

(** ** Lemmas *)

Lemma get_event_run k n ev : k_events k !! n = Some ev -> get_event n k = Some (ev, k).
Proof. apply rd_run. Qed.
Lemma upd_event_run k n ev f :
  k_events k !! n = Some ev -> upd_event n f k = Some (tt, set_k_events (<[n := f ev]> (k_events k)) k).
Proof. apply upd_run. Qed.
Lemma kinv_set_events m k : kinv None k -> kinv None (set_k_events m k).
Proof. intros []. by split. Qed.

Lemma event_sat_mono info es set x :
  event_sat info es (Z.land set x) = true -> event_sat info es set = true.
Proof.
  unfold event_sat. destruct (opt info RT_EVENT_FLAG_AND); [|destruct (opt info RT_EVENT_FLAG_OR); [|done]];
    rewrite !bool_decide_eq_true.
  - intros E. rewrite <- E. apply Z.bits_inj'. intros i Hi. rewrite !Z.land_spec.
    by destruct (Z.testbit es i), (Z.testbit set i), (Z.testbit x i).
  - intros Hne Hz. apply Hne. by rewrite Z.land_assoc, Hz.
Qed.

Lemma event_left_mono info es set info' es' :
  event_sat info' es' set = false -> event_sat info' es' (event_left info es set) = false.
Proof.
  unfold event_left. destruct (opt info RT_EVENT_FLAG_CLEAR); [|done]. intros Hf.
  destruct (event_sat info' es' (Z.land _ _)) eqn:E; [|done]. apply event_sat_mono in E. congruence.
Qed.

Lemma event_left_nonneg info es set : 0 <= set -> 0 <= event_left info es set.
Proof. intros Hs. unfold event_left. destruct (opt _ _); [|done]. apply Z.land_nonneg. by left. Qed.

Lemma scan_spec_ext ths ths' l set :
  (forall t, t ∈ l -> ths' !! t = ths !! t) -> scan_spec ths' l set = scan_spec ths l set.
Proof.
  revert set. induction l as [|t l IH]; intros set He; [done|]. cbn.
  assert (IH' : forall set, scan_spec ths' l set = scan_spec ths l set).
  { intros set0. apply IH. intros u Hu. apply He, elem_of_cons. by right. }
  rewrite He by (apply elem_of_cons; by left). destruct (ths !! t); [|done]. by rewrite !IH'.
Qed.

Lemma scan_spec_sub ths l set t : t ∈ (scan_spec ths l set).1.*1 -> t ∈ l.
Proof.
  revert set. induction l as [|u l IH]; intros set; cbn; [done|].
  destruct (ths !! u) as [th|]; [destruct (event_sat _ _ _)|];
    try (intros Ht; apply elem_of_cons; right; by eapply IH).
  destruct (scan_spec ths l _) as [w set'] eqn:E. cbn. rewrite !elem_of_cons. intros [->|Ht]; [by left|right].
  eapply IH. by rewrite E.
Qed.

(** Whoever the walk leaves waiting is not satisfied by what it leaves. *)
Lemma scan_spec_unsat ths l set w set' :
  scan_spec ths l set = (w, set') ->
  (forall info es, event_sat info es set = false -> event_sat info es set' = false) /\
  (forall t th, t ∈ l -> t ∉ w.*1 -> ths !! t = Some th -> event_sat (th_event_info th) (th_event_set th) set' = false) /\
  (0 <= set -> 0 <= set').
Proof.
  revert set w set'. induction l as [|u l IH]; intros set w set'; cbn.
  { intros [= <- <-]. by split_and!. }
  destruct (ths !! u) as [th|] eqn:Eu.
  - destruct (event_sat (th_event_info th) (th_event_set th) set) eqn:Es.
    + destruct (scan_spec ths l _) as [w1 set1] eqn:E. intros [= <- <-].
      destruct (IH _ _ _ E) as (H1 & H2 & H3). split_and!.
      * intros info es Hf. apply H1. by apply event_left_mono.
      * intros t tht Ht Hw Et. cbn in Hw. apply not_elem_of_cons in Hw as [Hne Hw].
        apply elem_of_cons in Ht as [->|Ht]; [done|]. by apply (H2 t).
      * intros Hs. by apply H3, event_left_nonneg.
    + intros E. destruct (IH _ _ _ E) as (H1 & H2 & H3). split_and!; try done.
      intros t tht Ht Hw Et. apply elem_of_cons in Ht as [->|Ht]; [|by apply (H2 t)]. rewrite Eu in Et. injection Et as <-. by apply H1.
  - intros E. destruct (IH _ _ _ E) as (H1 & H2 & H3). split_and!; try done.
    intros t tht Ht Hw Et. apply elem_of_cons in Ht as [->|Ht]; [congruence|by apply (H2 t)].
Qed.

(** The state after the walk. *)
Record scanned (n : nat) (ev : rt_event) (w : list (nat * Z)) (set' : Z) (k k' : kernel) : Prop := {
  sc_kinv : kinv None k';
  sc_events : k_events k' = <[n := set_ev_set set' ev]> (k_events k);
  sc_keep : k_objs k' = k_objs k /\ k_sems k' = k_sems k /\ k_mutexes k' = k_mutexes k /\ k_mbs k' = k_mbs k /\ k_mqs k' = k_mqs k /\
    k_mps k' = k_mps k /\ k_heap k' = k_heap k;
  sc_current : s_current (k_sched k') = s_current (k_sched k);
  sc_lock : s_lock_nest (k_sched k') = s_lock_nest (k_sched k);
  sc_queues : forall h, is_wait h -> s_queues (k_sched k') !! h = filter (fun u => u ∉ w.*1) <$> s_queues (k_sched k) !! h;
  sc_woken : forall t es, (t, es) ∈ w -> exists th th', s_threads (k_sched k) !! t = Some th /\
    s_threads (k_sched k') !! t = Some th' /\ active th' /\ th_event_set th' = es /\ th_error th' = th_error th;
  sc_threads : forall t, t ∉ w.*1 -> s_threads (k_sched k') !! t = s_threads (k_sched k) !! t;
  sc_timely : forall d, timely d (k_timers k) (k_timers k');
}.

Lemma scanned_nil n ev k :
  kinv None k -> k_events k !! n = Some ev -> scanned n ev [] (ev_set ev) k k.
Proof.
  intros Hk En. split; try done.
  - rewrite insert_id; [done|]. rewrite En. by destruct ev.
  - intros h _. destruct (s_queues (k_sched k) !! h); [|done]. cbn. f_equal. symmetry. apply filter_notin_disjoint.
    intros u _. apply not_elem_of_nil.
  - by intros t es Ht%not_elem_of_nil.
Qed.

(** Storing the received set in the control block of a satisfied thread. *)
Definition with_event_set (t : nat) (th : rt_thread) (r : Z) (k : kernel) : kernel :=
  set_k_sched (set_s_threads (<[t := set_th_event_set r th]> (s_threads (k_sched k))) (k_sched k)) k.

Lemma with_event_set_id t th k :
  s_threads (k_sched k) !! t = Some th -> with_event_set t th (th_event_set th) k = k.
Proof.
  intros Et. unfold with_event_set. replace (set_th_event_set (th_event_set th) th) with th by (by destruct th).
  rewrite insert_id by done. destruct k as [[] ? ? ? ? ? ? ?]. done.
Qed.

(** One satisfied thread of the walk: it takes its bits and is resumed. *)
Definition event_wake (n t : nat) : M kernel unit :=
  th ← get_thread t;
  (if opt (th_event_info th) RT_EVENT_FLAG_CLEAR then
     upd_event n (fun ev => set_ev_set (Z.land (ev_set ev) (Z.lnot (th_event_set th))) ev)
   else mret tt) ;;
  rt_thread_resume t ;; mret tt.

Lemma event_scan_cons n t l k th ev :
  s_threads (k_sched k) !! t = Some th -> k_events k !! n = Some ev ->
  event_scan n (t :: l) k =
    if event_sat (th_event_info th) (th_event_set th) (ev_set ev) then
      (event_wake n t ;; event_scan n l ;; mret true)
        (with_event_set t th (event_recved (th_event_info th) (th_event_set th) (ev_set ev)) k)
    else event_scan n l k.
Proof.
  intros Et En. unfold event_sat, event_recved, event_wake. cbn [event_scan]. munfold.
  rewrite (get_thread_run _ _ _ Et), (get_event_run _ _ _ En).
  destruct (opt (th_event_info th) RT_EVENT_FLAG_AND) eqn:Ea.
  - case_bool_decide; [|done]. rewrite with_event_set_id by done. rewrite (get_thread_run _ _ _ Et).
    by repeat case_match.
  - destruct (opt (th_event_info th) RT_EVENT_FLAG_OR) eqn:Eo; [|done]. case_bool_decide; [|done].
    rewrite (set_thread_run _ _ _ _ Et). fold (with_event_set t th (Z.land (th_event_set th) (ev_set ev)) k).
    by repeat case_match.
Qed.

Lemma event_wake_ok n t k th ev r :
  kinv None k -> s_threads (k_sched k) !! t = Some th -> stat_of th = RT_THREAD_SUSPEND -> k_events k !! n = Some ev ->
  r = event_recved (th_event_info th) (th_event_set th) (ev_set ev) ->
  exists k', event_wake n t (with_event_set t th r k) = Some (tt, k') /\
    scanned n ev [(t, r)] (event_left (th_event_info th) (th_event_set th) (ev_set ev)) k k'.
Proof.
  intros Hk Et Hst En Hr. set (k1 := with_event_set t th r k). set (th1 := set_th_event_set r th).
  assert (Hk1 : kinv None k1) by (by apply (kinv_touch k t th)).
  assert (Et1 : s_threads (k_sched k1) !! t = Some th1) by apply lookup_insert_eq.
  set (set' := event_left _ _ _). set (k2 := set_k_events (<[n := set_ev_set set' ev]> (k_events k1)) k1).
  destruct (resume_ok k2 t th1 (kinv_set_events _ _ Hk1) Et1 Hst) as (lr & tms' & Er & E & Hk' & _ & _ & Htl).
  set (s' := resumed t th1 lr (k_sched k2)) in *. exists (set_k_timers tms' (set_k_sched s' k2)).
  assert (Erun : event_wake n t k1 = (rt_thread_resume t ;; mret tt) k2).
  { unfold event_wake. munfold. rewrite (get_thread_run _ _ _ Et1). unfold k2, set', event_left. rewrite <- Hr.
    change (th_event_info th1) with (th_event_info th). destruct (opt (th_event_info th) RT_EVENT_FLAG_CLEAR).
    - by rewrite (upd_event_run k1 n ev) by done.
    - replace (set_ev_set (ev_set ev) ev) with ev by (by destruct ev). rewrite insert_id by done. by destruct k1. }
  rewrite Erun. munfold. rewrite E. split; [done|]. split; try done.
  - cbn. unfold s'. by rewrite resumed_current.
  - cbn. unfold s'. by rewrite resumed_lock.
  - intros h Hw. cbn. unfold s'. destruct (s_queues (k_sched k) !! h) as [l|] eqn:El.
    + rewrite (resumed_queue _ _ _ _ _ l) by done. cbn. f_equal. apply list_filter_iff. intros u. cbn. set_solver.
    + unfold resumed, inserted. case_bool_decide; cbn; rewrite ?lookup_insert_ne by (by intros <-); by rewrite lookup_fmap, El.
  - intros u es [= -> ->]%list_elem_of_singleton. exists th. cbn. unfold s'. rewrite resumed_thread, decide_True by done.
    eexists. split_and!; try done. unfold active. case_bool_decide; autorewrite with rt; auto.
  - intros u Hu. assert (Hut : u <> t) by set_solver. cbn. unfold s'. rewrite resumed_thread, decide_False by done. cbn.
    by rewrite lookup_insert_ne.
Qed.

Lemma scanned_trans n ev w1 set1 w2 set2 k k1 k2 :
  scanned n ev w1 set1 k k1 -> scanned n (set_ev_set set1 ev) w2 set2 k1 k2 ->
  (forall t, t ∈ w2.*1 -> t ∉ w1.*1) -> scanned n ev (w1 ++ w2) set2 k k2.
Proof.
  intros [] [] Hd. split.
  - done.
  - rewrite sc_events1, sc_events0, insert_insert_eq. done.
  - naive_solver congruence.
  - congruence.
  - congruence.
  - intros h Hw. rewrite sc_queues1, sc_queues0 by done. destruct (s_queues (k_sched k) !! h); [|done]. cbn. f_equal.
    rewrite list_filter_filter. apply list_filter_iff. intros u. rewrite fmap_app, not_elem_of_app. tauto.
  - intros t es [Ht|Ht]%elem_of_app.
    + destruct (sc_woken0 t es Ht) as (th & th' & E & E' & Ha & Hes & He). exists th, th'. split_and!; try done.
      rewrite sc_threads1; [done|]. intros Ht2. apply (Hd t Ht2). apply list_elem_of_fmap. by exists (t, es).
    + destruct (sc_woken1 t es Ht) as (th & th' & E & E' & Ha & Hes & He). exists th, th'. split_and!; try done.
      rewrite <- sc_threads0; [done|]. apply Hd. apply list_elem_of_fmap. by exists (t, es).
  - intros t. rewrite fmap_app, not_elem_of_app. intros [H1 H2]. by rewrite sc_threads1, sc_threads0.
  - intros d. etransitivity; [apply sc_timely0|apply sc_timely1].
Qed.

(** rt_event_send's walk implements [scan_spec]. *)
Lemma event_scan_ok n l : forall k ev w set',
  kinv None k -> k_events k !! n = Some ev -> NoDup l ->
  (forall t, t ∈ l -> exists th, s_threads (k_sched k) !! t = Some th /\ stat_of th = RT_THREAD_SUSPEND) ->
  scan_spec (s_threads (k_sched k)) l (ev_set ev) = (w, set') ->
  exists k', event_scan n l k = Some (bool_decide (w <> []), k') /\ scanned n ev w set' k k'.
Proof.
  induction l as [|t l IH]; intros k ev w set' Hk En Hnd Hl; cbn [scan_spec].
  { intros [= <- <-]. exists k. split; [done|]. by apply scanned_nil. }
  apply NoDup_cons in Hnd as [Htl Hnd]. destruct (Hl t ltac:(apply elem_of_cons; by left)) as (th & Et & Hst).
  rewrite Et, (event_scan_cons n t l k th ev Et En).
  assert (Hl' : forall u, u ∈ l -> exists thu, s_threads (k_sched k) !! u = Some thu /\ stat_of thu = RT_THREAD_SUSPEND).
  { intros u Hu. apply Hl, elem_of_cons. by right. }
  destruct (event_sat _ _ _) eqn:Es; [|intros E; by apply IH].
  set (r := event_recved _ _ _). set (set1 := event_left _ _ _).
  destruct (event_wake_ok n t k th ev r Hk Et Hst En eq_refl) as (k1 & E1 & Hsc). fold set1 in Hsc.
  destruct (scan_spec _ l set1) as [w2 set2] eqn:E2. intros [= <- <-].
  assert (Hsame : forall u, u ∈ l -> s_threads (k_sched k1) !! u = s_threads (k_sched k) !! u).
  { intros u Hu. apply (sc_threads _ _ _ _ _ _ Hsc). cbn. intros ->%list_elem_of_singleton. done. }
  destruct (IH k1 (set_ev_set set1 ev) w2 set2) as (k2 & Ek2 & Hsc2).
  - apply (sc_kinv _ _ _ _ _ _ Hsc).
  - rewrite (sc_events _ _ _ _ _ _ Hsc). apply lookup_insert_eq.
  - done.
  - intros u Hu. rewrite Hsame by done. by apply Hl'.
  - cbn. rewrite <- E2. by apply scan_spec_ext.
  - exists k2. munfold. rewrite E1, Ek2. split; [done|]. apply (scanned_trans n ev [(t, r)] set1 w2 set2 k k1 k2 Hsc Hsc2).
    intros u Hu. cbn. intros ->%list_elem_of_singleton. apply Htl.
    apply (scan_spec_sub (s_threads (k_sched k)) l set1). by rewrite E2.
Qed.

(** The wait condition stored in a control block. *)
Definition same_cond (a b : option rt_thread) : Prop :=
  forall th', b = Some th' -> exists th, a = Some th /\ th_event_info th' = th_event_info th /\ th_event_set th' = th_event_set th.

Lemma same_cond_sched a b : option_Forall2 th_sched a b -> same_cond a b.
Proof.
  intros Ho th' ->. inversion Ho as [x y [Hxy _] |]; subst. exists x. split; [done|].
  split; [by apply (f_equal th_event_info) in Hxy|by apply (f_equal th_event_set) in Hxy].
Qed.
Lemma same_cond_refl a : same_cond a a.
Proof. intros th ->. eauto. Qed.

(** One event changes with its list, for the others nothing relevant does. *)
Lemma event_inv_upd k k' n ev :
  event_inv k -> k_events k' = <[n := ev]> (k_events k) ->
  (forall m, m <> n -> s_queues (k_sched k') !! QEvent m = s_queues (k_sched k) !! QEvent m) ->
  (forall m l t, m <> n -> s_queues (k_sched k) !! QEvent m = Some l -> t ∈ l ->
     same_cond (s_threads (k_sched k) !! t) (s_threads (k_sched k') !! t)) ->
  event_ok k' n ev -> event_inv k'.
Proof.
  intros Hi Es Hq Hth Hok m evm E. rewrite Es, lookup_insert in E. case_decide as Hd; [subst m; by injection E as <-|].
  destruct (Hi m evm E) as (Hf & Hs & l & El & Hsat). split_and!; try done. exists l. rewrite Hq by done. split; [done|].
  intros t th' Ht Et'. destruct (Hth m l t ltac:(done) El Ht th' Et') as (th & Et & -> & ->). by apply (Hsat t).
Qed.

(** What rt_event_send keeps: every store but that of the events, and every waiting list
    but for the threads it wakes. *)
Record event_sent (w : list (nat * Z)) (k k' : kernel) : Prop := {
  es_objs : k_objs k' = k_objs k;
  es_sems : k_sems k' = k_sems k;
  es_mutexes : k_mutexes k' = k_mutexes k;
  es_mbs : k_mbs k' = k_mbs k;
  es_mqs : k_mqs k' = k_mqs k;
  es_mps : k_mps k' = k_mps k;
  es_heap : k_heap k' = k_heap k;
  es_queues : forall h, is_wait h -> s_queues (k_sched k') !! h = filter (fun u => u ∉ w.*1) <$> s_queues (k_sched k) !! h;
  es_dom : forall t, is_Some (s_threads (k_sched k) !! t) -> is_Some (s_threads (k_sched k') !! t);
  es_timely : forall d, timely d (k_timers k) (k_timers k');
}.

(** rt_event_send implements its specification [scan_spec]: with the new bits or-ed
    in, the waiting threads are served in list order, each one against the bits left by
    the ones before it; exactly the threads whose AND/OR condition holds leave the list
    and become ready with the bits they received, a CLEAR option consumes them, and the
    event set left is that of the specification.  No waiting thread whose condition holds
    is left behind ([event_inv]). *)
Lemma event_send_ok k n ev l set c w set' :
  kinv None k -> event_inv k -> k_events k !! n = Some ev -> s_queues (k_sched k) !! QEvent n = Some l ->
  s_current (k_sched k) = Some c -> 0 < set ->
  scan_spec (s_threads (k_sched k)) l (Z.lor (ev_set ev) set) = (w, set') ->
  exists k', rt_event_send n set k = Some (RT_EOK, k') /\ kinv None k' /\ event_inv k' /\
    k_events k' = <[n := set_ev_set set' ev]> (k_events k) /\
    s_queues (k_sched k') !! QEvent n = Some (filter (fun u => u ∉ w.*1) l) /\
    (forall t es, (t, es) ∈ w -> exists th th', s_threads (k_sched k) !! t = Some th /\
       s_threads (k_sched k') !! t = Some th' /\ active th' /\ th_event_set th' = es /\ th_error th' = th_error th) /\
    event_sent w k k'.
Proof.
  intros Hk Hi En El Hc Hset Hspec. pose proof (ki_sched _ _ Hk) as Hs. destruct (Hi n ev En) as (Hf & Hev & _).
  set (ev1 := set_ev_set (Z.lor (ev_set ev) set) ev). set (k1 := set_k_events (<[n := ev1]> (k_events k)) k).
  destruct (event_scan_ok n l k1 ev1 w set') as (k2 & E2 & Hsc).
  - by apply kinv_set_events.
  - apply lookup_insert_eq.
  - by apply (proj1 (si_wf _ _ Hs) (QEvent n)).
  - intros t Ht. destruct (si_nodes _ _ Hs _ _ _ El Ht) as (_ & th & Et & Htag). eauto.
  - done.
  - assert (Hk3 : exists s', (if bool_decide (w <> []) then on_sched rt_schedule else mret tt) k2 = Some (tt, set_k_sched s' k2) /\
      kinv None (set_k_sched s' k2) /\ sched_frame (k_sched k2) s').
    { case_bool_decide.
      - destruct (kschedule_ok k2 c (sc_kinv _ _ _ _ _ _ Hsc)) as (s' & E & Hk' & Hp);
          [by rewrite (sc_current _ _ _ _ _ _ Hsc)|]. exists s'. split_and!; try done. apply Hp.
      - exists (k_sched k2). pose proof (sc_kinv _ _ _ _ _ _ Hsc). by destruct k2. }
    destruct Hk3 as (s' & E3 & Hk3 & Hfr). exists (set_k_sched s' k2).
    assert (Hqs : forall h, is_wait h -> s_queues s' !! h = filter (fun u => u ∉ w.*1) <$> s_queues (k_sched k) !! h).
    { intros h Hw. rewrite (wait_frame _ _ _ Hfr Hw). by rewrite (sc_queues _ _ _ _ _ _ Hsc). }
    assert (Hwl : forall t, t ∈ w.*1 -> t ∈ l).
    { intros t Ht. apply (scan_spec_sub (s_threads (k_sched k)) l (Z.lor (ev_set ev) set)). by rewrite Hspec. }
    assert (Hcond : forall t, t ∉ w.*1 -> same_cond (s_threads (k_sched k) !! t) (s_threads s' !! t)).
    { intros t Ht. pose proof (sc_threads _ _ _ _ _ _ Hsc t Ht) as Hsame. cbn in Hsame. rewrite <- Hsame. apply same_cond_sched. apply (sf_threads _ _ Hfr). }
    assert (Hek : k_events (set_k_sched s' k2) = <[n := set_ev_set set' ev]> (k_events k)).
    { cbn. rewrite (sc_events _ _ _ _ _ _ Hsc). cbn. by rewrite insert_insert_eq. }
    destruct (scan_spec_unsat _ _ _ _ _ Hspec) as (_ & Hun & Hnn).
    split; [|split; [done|split; [|split; [done|split; [|split]]]]].
    + unfold rt_event_send. rewrite bool_decide_false by lia. munfold. rewrite (upd_event_run _ _ _ _ En).
      fold ev1. fold k1. rewrite (kq_list_run _ l k1 El), E2. munfold in E3. by rewrite E3.
    + apply (event_inv_upd k _ n (set_ev_set set' ev)); [done..| | |].
      * intros m Hm. cbn. rewrite Hqs by done. destruct (s_queues (k_sched k) !! QEvent m) as [lm|] eqn:Em; [|done]. cbn. f_equal.
        apply filter_notin_disjoint. intros u Hu Huw. apply Hm.
        pose proof (proj2 (si_wf _ _ Hs) (QEvent m) (QEvent n) lm l u Em El Hu (Hwl u Huw)). congruence.
      * intros m lm t Hm Em Ht. apply Hcond. intros Htw. apply Hm.
        pose proof (proj2 (si_wf _ _ Hs) (QEvent m) (QEvent n) lm l t Em El Ht (Hwl t Htw)). congruence.
      * split; [done|]. split; [apply Hnn; cbn; apply Z.lor_nonneg; lia|]. eexists. split; [cbn; by rewrite Hqs, El|].
        intros t th' [Htw Ht]%list_elem_of_filter Et'. destruct (Hcond t Htw th' Et') as (th & Et & -> & ->). by apply (Hun t th).
    + cbn. by rewrite Hqs, El.
    + intros t es Ht. destruct (sc_woken _ _ _ _ _ _ Hsc t es Ht) as (th & th1 & Et & Et1 & Ha & Hes & He).
      exists th. cbn. destruct (frame_lookup _ _ _ _ Hfr Et1) as (th' & Et' & Heq & Hst). exists th'. split_and!; try done.
      * unfold active in *. destruct Hst as [<-|[_ ?]]; done.
      * by rewrite <- Hes; apply (f_equal th_event_set) in Heq.
      * by rewrite <- He; apply (f_equal th_error) in Heq.
    + destruct (sc_keep _ _ _ _ _ _ Hsc) as (? & ? & ? & ? & ? & ? & ?). split; try done.
      * intros t [th Et]. destruct (decide (t ∈ w.*1)) as [Hw|Hw].
        -- apply list_elem_of_fmap in Hw as ([t' es] & -> & Hin). destruct (sc_woken _ _ _ _ _ _ Hsc t' es Hin) as (? & th1 & _ & Et1 & _).
           destruct (frame_lookup _ _ _ _ Hfr Et1) as (th' & Et' & _). by exists th'.
        -- pose proof (sc_threads _ _ _ _ _ _ Hsc t Hw) as Hsame. cbn in Hsame. rewrite <- Hsame in Et.
           destruct (frame_lookup _ _ _ _ Hfr Et) as (th' & Et' & _). by exists th'.
      * intros d. apply (sc_timely _ _ _ _ _ _ Hsc).
Qed.

(** *** rt_event_recv *)

(** The event set after a successful immediate receive. *)
Definition event_taken (opts set evset : Z) : Z :=
  if opt opts RT_EVENT_FLAG_CLEAR then Z.land evset (Z.lnot set) else evset.

(** The caller with its wait condition filled in. *)
Definition with_cond (t : nat) (set opts : Z) (k : kernel) : kernel :=
  match s_threads (k_sched k) !! t with
  | Some th => set_k_sched (set_s_threads (<[t := set_th_event_info opts (set_th_event_set set (set_th_error RT_EOK th))]>
                 (s_threads (k_sched k))) (k_sched k)) k
  | None => k
  end.

Lemma event_inv_running k k' t :
  event_inv k -> kinv None k -> running k t -> k_events k' = k_events k ->
  s_queues (k_sched k') = s_queues (k_sched k) ->
  (forall u, u <> t -> s_threads (k_sched k') !! u = s_threads (k_sched k) !! u) -> event_inv k'.
Proof.
  intros Hi Hk [_ (th & Et & Hr)] He Hq Hth n ev E. rewrite He in E. destruct (Hi n ev E) as (Hf & Hs & l & El & Hsat).
  split_and!; try done. exists l. rewrite Hq. split; [done|]. intros u thu Hu Eu. apply (Hsat u); [done|]. rewrite <- Hth; [done|].
  intros ->. apply (running_free _ t th (ki_sched _ _ Hk) Et Hr _ l El Hu).
Qed.

(** The three ways through rt_event_recv. *)
Lemma event_recv_branches k n ev t th set opts timeout :
  k_events k !! n = Some ev -> s_current (k_sched k) = Some t -> s_threads (k_sched k) !! t = Some th -> 0 < set ->
  rt_event_recv n set opts timeout k =
    (if event_sat opts set (ev_set ev) then
       (if opt opts RT_EVENT_FLAG_CLEAR then upd_event n (fun ev => set_ev_set (Z.land (ev_set ev) (Z.lnot set)) ev) else mret tt) ;;
       mret (inl (RT_EOK, Some (Z.land (ev_set ev) set)))
     else if bool_decide (timeout = 0) then set_thread t (set_th_error (- RT_ETIMEOUT)) ;; mret (inl (- RT_ETIMEOUT, None))
     else set_thread t (fun th => set_th_event_info opts (set_th_event_set set th)) ;;
       (ipc_wait (QEvent n) t (ev_flag ev) timeout ;; on_sched rt_schedule) ;; mret (inr t)) (with_error t RT_EOK k).
Proof.
  intros En Hc Et Hset. set (k1 := with_error t RT_EOK k).
  assert (En1 : k_events k1 !! n = Some ev) by (unfold k1; by rewrite (ik_events _ _ (with_error_keep t RT_EOK k))).
  assert (Et1 : s_threads (k_sched k1) !! t = Some (set_th_error RT_EOK th)) by (unfold k1; by rewrite with_error_thread, decide_True, Et).
  unfold rt_event_recv, event_sat. rewrite bool_decide_false by lia. munfold.
  rewrite (self_run _ _ Hc), (set_error_run t RT_EOK k) by (by eexists). fold k1.
  rewrite (get_event_run _ _ _ En1), !(Z.land_comm set).
  destruct (if opt opts RT_EVENT_FLAG_AND then _ else _).
  - destruct (opt opts RT_EVENT_FLAG_CLEAR).
    + rewrite (upd_event_run _ _ _ _ En1). by rewrite (get_thread_run _ t (set_th_error RT_EOK th)).
    + by rewrite (get_thread_run _ _ _ Et1).
  - case_bool_decide.
    + rewrite (set_error_run t _ k1) by (by eexists).
      by rewrite (get_thread_run _ t (set_th_error (- RT_ETIMEOUT) (set_th_error RT_EOK th)))
        by (rewrite with_error_thread, decide_True, Et1; done).
    + by repeat case_match.
Qed.

Lemma event_inv_taken k n ev set opts :
  event_inv k -> k_events k !! n = Some ev ->
  event_inv (set_k_events (<[n := set_ev_set (event_taken opts set (ev_set ev)) ev]> (k_events k)) k).
Proof.
  intros Hi En. destruct (Hi n ev En) as (Hf & Hev & l & El & Hsat).
  apply (event_inv_upd k _ n (set_ev_set (event_taken opts set (ev_set ev)) ev)); try done.
  - intros m lm u _ _ _. apply same_cond_refl.
  - split; [done|]. unfold event_taken. cbn. destruct (opt opts RT_EVENT_FLAG_CLEAR); [|split; [done|by exists l]].
    split; [apply Z.land_nonneg; by left|]. exists l. split; [done|]. intros u thu Hu Eu.
    destruct (event_sat (th_event_info thu) _ _) eqn:E; [|done]. apply event_sat_mono in E. rewrite <- E. by apply (Hsat u).
Qed.

(** What [with_cond] leaves alone. *)
Lemma with_cond_facts k t th set opts :
  s_threads (k_sched k) !! t = Some th ->
  let kw := with_cond t set opts k in
  ikeep k kw /\ s_queues (k_sched kw) = s_queues (k_sched k) /\ s_current (k_sched kw) = s_current (k_sched k) /\
  s_threads (k_sched kw) = <[t := set_th_event_info opts (set_th_event_set set (set_th_error RT_EOK th))]> (s_threads (k_sched k)) /\
  (kinv None k -> kinv None kw) /\ (running k t -> running kw t) /\
  set_thread t (fun th => set_th_event_info opts (set_th_event_set set th)) (with_error t RT_EOK k) = Some (tt, kw).
Proof.
  intros Et. cbn zeta. unfold with_cond. rewrite Et. split_and!; try done.
  - intros Hk. by apply (kinv_touch k t th).
  - intros [Hc (th' & E' & Hr)]. rewrite Et in E'. injection E' as <-. split; [done|]. eexists. split; [apply lookup_insert_eq|done].
  - rewrite (set_thread_run _ t (set_th_error RT_EOK th)) by (by rewrite with_error_thread, decide_True, Et).
    unfold with_error. rewrite Et. cbn. by rewrite insert_insert_eq.
Qed.

(** The caller waits for a condition that does not hold. *)
Lemma event_inv_blocked k k' n ev t th set opts timeout :
  kinv None k -> event_inv k -> k_events k !! n = Some ev -> s_threads (k_sched k) !! t = Some th ->
  stat_of th = RT_THREAD_RUNNING -> event_sat opts set (ev_set ev) = false ->
  blocked (QEvent n) t (ev_flag ev) timeout (with_cond t set opts k) k' -> event_inv k'.
Proof.
  intros Hk Hi En Et Hst Hns Hb. destruct (with_cond_facts k t th set opts Et) as (Hkeep & Hq & _ & Hths & _).
  set (kw := with_cond t set opts k) in *. destruct (Hi n ev En) as (Hf & Hev & l & El & Hsat).
  destruct (bl_queue _ _ _ _ _ _ Hb) as (l1 & l2 & Eq1 & Eq2 & _). rewrite Hq, El in Eq1. injection Eq1 as Eq1.
  assert (Hothers : forall u, u <> t -> same_cond (s_threads (k_sched k) !! u) (s_threads (k_sched k') !! u)).
  { intros u Hu. replace (s_threads (k_sched k) !! u) with (s_threads (k_sched kw) !! u) by (by rewrite Hths, lookup_insert_ne).
    apply same_cond_sched, (bl_threads _ _ _ _ _ _ Hb u Hu). }
  apply (event_inv_upd k k' n ev); [done| | | |].
  - rewrite (ik_events _ _ (bl_keep _ _ _ _ _ _ Hb)), (ik_events _ _ Hkeep). by rewrite insert_id.
  - intros m Hm. rewrite (bl_queues _ _ _ _ _ _ Hb) by (done || congruence). by rewrite Hq.
  - intros m lm u Hm Em Hu. apply Hothers. intros ->. apply (running_free _ t th (ki_sched _ _ Hk) Et Hst _ lm Em Hu).
  - split; [done|]. split; [done|]. exists (l1 ++ t :: l2). split; [done|]. intros u thu Hu Eu.
    destruct (decide (u = t)) as [->|Hne].
    + destruct (bl_thread _ _ _ _ _ _ Hb (set_th_event_info opts (set_th_event_set set (set_th_error RT_EOK th)))) as (th' & Et' & _ & Heq).
      { rewrite Hths. apply lookup_insert_eq. }
      rewrite Eu in Et'. injection Et' as ->. pose proof (f_equal th_event_info Heq) as H1. pose proof (f_equal th_event_set Heq) as H2.
      cbn in H1, H2. by rewrite H1, H2.
    + destruct (Hothers u Hne thu Eu) as (thu0 & Eu0 & -> & ->). apply (Hsat u); [|done]. rewrite Eq1. set_solver.
Qed.

Definition event_recv_post (n : nat) (ev : rt_event) (t : nat) (set opts timeout : Z) (k : kernel) (r : Z * option Z + nat) (k' : kernel) : Prop :=
  event_sat opts set (ev_set ev) = true /\ r = inl (RT_EOK, Some (Z.land (ev_set ev) set)) /\
     k' = set_k_events (<[n := set_ev_set (event_taken opts set (ev_set ev)) ev]> (k_events k)) (with_error t RT_EOK k) \/
   event_sat opts set (ev_set ev) = false /\ timeout = 0 /\ r = inl (- RT_ETIMEOUT, None) /\
     k' = with_error t (- RT_ETIMEOUT) k \/
   event_sat opts set (ev_set ev) = false /\ timeout <> 0 /\ r = inr t /\
     blocked (QEvent n) t (ev_flag ev) timeout (with_cond t set opts k) k'.

(** rt_event_recv by a running thread: if the condition holds now the bits are
    returned and consumed if asked for; with timeout 0 it fails with -RT_ETIMEOUT and
    leaves the event alone; otherwise the thread is suspended with its condition stored
    in its control block and its timer armed. *)
Lemma event_recv_ok k n ev t set opts timeout :
  kinv None k -> event_inv k -> k_events k !! n = Some ev -> running k t -> 0 < set -> timeout < 2 ^ 31 ->
  exists r k', rt_event_recv n set opts timeout k = Some (r, k') /\ kinv None k' /\ event_inv k' /\
    event_recv_post n ev t set opts timeout k r k'.
Proof.
  unfold event_recv_post.
  intros Hk Hi En Hr Hset Htime. destruct (running_thread_ok k t Hk Hr) as (th & Et & Hst & Hp).
  rewrite (event_recv_branches k n ev t th set opts timeout En (proj1 Hr) Et Hset).
  set (k1 := with_error t RT_EOK k). pose proof (with_error_keep t RT_EOK k) as Hkeep. fold k1 in Hkeep.
  assert (En1 : k_events k1 !! n = Some ev) by (by rewrite (ik_events _ _ Hkeep)).
  assert (Hie : forall e, event_inv (with_error t e k)).
  { intros e. apply (event_inv_running k _ t); try done; [by rewrite (ik_events _ _ (with_error_keep t e k))|apply with_error_queues|].
    intros u Hu. by rewrite with_error_thread, decide_False. }
  destruct (event_sat opts set (ev_set ev)) eqn:Es; [|case_bool_decide as Hz].
  - exists (inl (RT_EOK, Some (Z.land (ev_set ev) set))), (set_k_events (<[n := set_ev_set (event_taken opts set (ev_set ev)) ev]> (k_events k1)) k1).
    split; [|split; [by apply kinv_set_events, kinv_with_error|split; [by apply event_inv_taken; [apply Hie|]|left; split_and!; try done; by rewrite (ik_events _ _ Hkeep)]]].
    unfold event_taken. munfold. destruct (opt opts RT_EVENT_FLAG_CLEAR).
    + by rewrite (upd_event_run _ _ _ _ En1).
    + replace (set_ev_set (ev_set ev) ev) with ev by (by destruct ev). rewrite insert_id by done. by destruct k1.
  - munfold. rewrite (set_error_run t _ k1) by (by apply with_error_dom; eexists).
    replace (with_error t (- RT_ETIMEOUT) k1) with (with_error t (- RT_ETIMEOUT) k).
    2: { unfold k1, with_error. rewrite Et. cbn. rewrite lookup_insert_eq. by rewrite insert_insert_eq. }
    do 2 eexists. split; [done|]. split; [by apply kinv_with_error|]. split; [apply Hie|right; left; done].
  - destruct (with_cond_facts k t th set opts Et) as (_ & Hq & _ & _ & Hkw & Hrw & Erun).
    destruct (Hi n ev En) as (Hf & _ & l & El & _).
    destruct (block_running (with_cond t set opts k) (QEvent n) t (ev_flag ev) timeout l) as (k' & E & Hb);
      [by apply Hkw|by apply Hrw|done|by rewrite Hq|done..|].
    exists (inr t), k'. rewrite (bind_run _ _ _ _ _ Erun), (bind_run _ _ _ _ _ E). split; [done|].
    split; [apply (bl_kinv _ _ _ _ _ _ Hb)|]. split; [|right; right; done].
    by apply (event_inv_blocked k k' n ev t th set opts timeout).
Qed.
