(* ===== verification/Mailbox.v ===== *)
(** * Mailboxes (rt-thread/src/ipc.c)

    The operations rt_mb_*.  [mb_contents] reads the circular message pool as the
    list of mails; sending appends to it and receiving takes its head. *)
From S2P Require Import Prelude RtList Kernel Sched Timer Object Thread Ipc Sem.
From stdpp Require Import base gmap sets list.
From Stdlib Require Import ZArith Lia.
#[local] Open Scope Z_scope.

(** ** Operations *)

Definition get_mb (n : nat) : M kernel rt_mailbox := rd k_mbs n.
Definition put_mb (n : nat) (mb : rt_mailbox) : M kernel unit :=
  modify (fun k => set_k_mbs (<[n := mb]> (k_mbs k)) k).

(** [msgpool] holds whatever the buffer contained. *)
Definition rt_mb_init (n : nat) (name : list Z) (msgpool : list Z) (size flag : Z) : M kernel Z :=
  rt_object_init (OMailBox n) RT_Object_Class_MailBox name ;;
  rt_ipc_object_init (QMbRecv n) ;;
  put_mb n (RtMailbox flag msgpool (u16 size) 0 0 0) ;;
  kq (q_init (QMbSend n)) ;;
  mret RT_EOK.

Definition rt_mb_detach (n : nat) : M kernel Z :=
  get_mb n ;;
  rt_ipc_list_resume_all (QMbRecv n) ;;
  rt_ipc_list_resume_all (QMbSend n) ;;
  rt_object_detach (OMailBox n) ;;
  mret RT_EOK.

(** [malloc] is the address of the object, [pool] the memory of the message pool. *)
Definition rt_mb_create (name : list Z) (size flag : Z) (malloc : option nat) (pool : option (list Z))
    : M kernel (option nat) :=
  rt_object_allocate RT_Object_Class_MailBox name (OMailBox <$> malloc) ;;
  match malloc with
  | None => mret None
  | Some n =>
      rt_ipc_object_init (QMbRecv n) ;;
      match pool with
      | None => rt_object_delete (OMailBox n) ;; mret None
      | Some msgpool =>
          put_mb n (RtMailbox flag msgpool (u16 size) 0 0 0) ;;
          kq (q_init (QMbSend n)) ;;
          mret (Some n)
      end
  end.

Definition rt_mb_delete (n : nat) : M kernel Z :=
  get_mb n ;;
  rt_ipc_list_resume_all (QMbRecv n) ;;
  rt_ipc_list_resume_all (QMbSend n) ;;
  rt_object_delete (OMailBox n) ;;
  modify (fun k => set_k_mbs (delete n (k_mbs k)) k) ;;
  mret RT_EOK.

(** Storing a mail: a write outside the pool is undefined. *)
Definition mb_store (value : Z) (mb : rt_mailbox) : option rt_mailbox :=
  if bool_decide (0 <= mb_in_offset mb < Z.of_nat (length (mb_msg_pool mb))) then
    let pool := <[Z.to_nat (mb_in_offset mb) := value]> (mb_msg_pool mb) in
    let in_offset := u16 (mb_in_offset mb + 1) in
    let in_offset := if bool_decide (in_offset >= mb_size mb) then 0 else in_offset in
    Some (set_mb_entry (u16 (mb_entry mb + 1)) (set_mb_in_offset in_offset (set_mb_msg_pool pool mb)))
  else None.

(** Fetching a mail. *)
Definition mb_fetch (mb : rt_mailbox) : option (Z * rt_mailbox) :=
  if bool_decide (0 <= mb_out_offset mb) then
    match mb_msg_pool mb !! Z.to_nat (mb_out_offset mb) with
    | Some value =>
        let out_offset := u16 (mb_out_offset mb + 1) in
        let out_offset := if bool_decide (out_offset >= mb_size mb) then 0 else out_offset in
        Some (value, set_mb_entry (u16 (mb_entry mb - 1)) (set_mb_out_offset out_offset mb))
    | None => None
    end
  else None.

(** A blocked call: the thread, its remaining timeout and the tick it began at. *)
Definition waiting : Type := nat * Z * Z.

(** The loop of rt_mb_send_wait up to the next wait, and the send itself. *)
Definition mb_send_loop (n : nat) (value timeout : Z) : M kernel (Z + waiting) :=
  mb ← get_mb n;
  if bool_decide (mb_entry mb = mb_size mb) then
    t ← self;
    set_thread t (set_th_error RT_EOK) ;;
    if bool_decide (timeout = 0) then mret (inl (- RT_EFULL))
    else
      tick_delta ← on_timers rt_tick_get;
      (ipc_wait (QMbSend n) t (mb_flag mb) timeout ;; on_sched rt_schedule) ;;
      mret (inr (t, timeout, tick_delta))
  else
    mb ← liftO (mb_store value mb);
    put_mb n mb ;;
    ipc_signal (QMbRecv n) ;;
    mret (inl RT_EOK).

Definition rt_mb_send_wait (n : nat) (value timeout : Z) : M kernel (Z + waiting) :=
  mb ← get_mb n;
  if bool_decide (mb_entry mb = mb_size mb) && bool_decide (timeout = 0) then mret (inl (- RT_EFULL))
  else mb_send_loop n value timeout.

Definition rt_mb_send_wait_resume (n : nat) (value : Z) (w : waiting) : M kernel (Z + waiting) :=
  let '(t, timeout, tick_delta) := w in
  th ← get_thread t;
  if bool_decide (th_error th <> RT_EOK) then mret (inl (th_error th))
  else
    now ← on_timers rt_tick_get;
    mb_send_loop n value (remaining timeout tick_delta now).

Definition rt_mb_send (n : nat) (value : Z) : M kernel (Z + waiting) := rt_mb_send_wait n value 0.

(** The received mail comes with the error code. *)
Definition mb_recv_loop (n : nat) (timeout : Z) : M kernel ((Z * option Z) + waiting) :=
  mb ← get_mb n;
  if bool_decide (mb_entry mb = 0) then
    t ← self;
    set_thread t (set_th_error RT_EOK) ;;
    if bool_decide (timeout = 0) then
      set_thread t (set_th_error (- RT_ETIMEOUT)) ;;
      mret (inl (- RT_ETIMEOUT, None))
    else
      tick_delta ← on_timers rt_tick_get;
      (ipc_wait (QMbRecv n) t (mb_flag mb) timeout ;; on_sched rt_schedule) ;;
      mret (inr (t, timeout, tick_delta))
  else
    '(value, mb) ← liftO (mb_fetch mb);
    put_mb n mb ;;
    ipc_signal (QMbSend n) ;;
    mret (inl (RT_EOK, Some value)).

Definition rt_mb_recv (n : nat) (timeout : Z) : M kernel ((Z * option Z) + waiting) :=
  mb ← get_mb n;
  if bool_decide (mb_entry mb = 0) && bool_decide (timeout = 0) then mret (inl (- RT_ETIMEOUT, None))
  else mb_recv_loop n timeout.

Definition rt_mb_recv_resume (n : nat) (w : waiting) : M kernel ((Z * option Z) + waiting) :=
  let '(t, timeout, tick_delta) := w in
  th ← get_thread t;
  if bool_decide (th_error th <> RT_EOK) then mret (inl (th_error th, None))
  else
    now ← on_timers rt_tick_get;
    mb_recv_loop n (remaining timeout tick_delta now).

Definition rt_mb_control (n : nat) (cmd : bool) : M kernel Z :=
  if cmd then
    get_mb n ;;
    rt_ipc_list_resume_all (QMbRecv n) ;;
    rt_ipc_list_resume_all (QMbSend n) ;;
    mb ← get_mb n;
    put_mb n (set_mb_out_offset 0 (set_mb_in_offset 0 (set_mb_entry 0 mb))) ;;
    on_sched rt_schedule ;;
    mret RT_EOK
  else mret (- RT_ERROR).

(** ** The mailbox as a bounded queue *)

Definition mb_wf (mb : rt_mailbox) : Prop :=
  0 < mb_size mb < 2 ^ 16 /\ Z.of_nat (length (mb_msg_pool mb)) = mb_size mb /\
  0 <= mb_entry mb <= mb_size mb /\ 0 <= mb_out_offset mb < mb_size mb /\
  mb_in_offset mb = (mb_out_offset mb + mb_entry mb) mod mb_size mb.

(** The mails, oldest first. *)
Definition mb_contents (mb : rt_mailbox) : list Z :=
  (fun i => mb_msg_pool mb !!! Z.to_nat ((mb_out_offset mb + Z.of_nat i) mod mb_size mb)) <$> seq 0 (Z.to_nat (mb_entry mb)).

Lemma mb_contents_length mb : length (mb_contents mb) = Z.to_nat (mb_entry mb).
Proof. unfold mb_contents. by rewrite length_fmap, length_seq. Qed.

(** The wrap-around of an offset by comparison is the one by remainder. *)
Lemma mb_wrap off size :
  0 <= off < size -> size < 2 ^ 16 ->
  (if bool_decide (u16 (off + 1) >= size) then 0 else u16 (off + 1)) = (off + 1) mod size.
Proof.
  intros Ho Hs. destruct (decide (off + 1 = size)) as [E|Hne].
  - rewrite E, Z.mod_same by lia. rewrite (wrap_id 16) by lia. by rewrite bool_decide_true by lia.
  - rewrite (wrap_id 16) by lia. rewrite bool_decide_false by lia. symmetry. apply Z.mod_small. lia.
Qed.

Lemma mb_store_ok value mb :
  mb_wf mb -> mb_entry mb < mb_size mb ->
  exists mb', mb_store value mb = Some mb' /\ mb_wf mb' /\ mb_contents mb' = mb_contents mb ++ [value] /\
    mb_flag mb' = mb_flag mb /\ mb_size mb' = mb_size mb.
Proof.
  intros (Hs & Hl & He & Ho & Hi) Hfull. set (size := mb_size mb) in *. set (out := mb_out_offset mb) in *. set (e := mb_entry mb) in *.
  assert (Hin : 0 <= mb_in_offset mb < size) by (rewrite Hi; apply Z.mod_pos_bound; lia).
  unfold mb_store. rewrite bool_decide_true by lia. eexists. split; [done|].
  fold size e. rewrite mb_wrap by lia. rewrite (wrap_id 16) by lia. split_and!; try done.
  - unfold mb_wf. cbn. fold size out e. split_and!; try done; try lia.
    + rewrite length_insert. lia.
    + rewrite Hi. rewrite Zplus_mod_idemp_l. f_equal. lia.
  - unfold mb_contents. cbn. fold size out e. replace (Z.to_nat (e + 1)) with (Z.to_nat e + 1)%nat by lia.
    rewrite seq_app, fmap_app. f_equal.
    + apply list_fmap_ext. intros i j Hj. apply lookup_seq in Hj as [-> Hj]. cbn.
      rewrite list_lookup_total_insert_ne; [done|]. rewrite Hi. intros E.
      apply Z2Nat.inj in E; [|apply Z.mod_pos_bound; lia..].
      assert (Hmod : (e - Z.of_nat i) mod size = 0).
      { replace (e - Z.of_nat i) with ((out + e) - (out + Z.of_nat i)) by lia. rewrite Zminus_mod, E, Z.sub_diag. apply Zmod_0_l. }
      rewrite Z.mod_small in Hmod by lia. lia.
    + cbn. f_equal. rewrite Z2Nat.id by lia. rewrite <- Hi, list_lookup_total_insert.
      by rewrite decide_True by (split; [done|lia]).
Qed.

Lemma mb_fetch_ok mb v l :
  mb_wf mb -> mb_contents mb = v :: l ->
  exists mb', mb_fetch mb = Some (v, mb') /\ mb_wf mb' /\ mb_contents mb' = l /\
    mb_flag mb' = mb_flag mb /\ mb_size mb' = mb_size mb.
Proof.
  intros (Hs & Hl & He & Ho & Hi) Hc. assert (Hlen := mb_contents_length mb). rewrite Hc in Hlen. cbn in Hlen.
  set (size := mb_size mb) in *. set (out := mb_out_offset mb) in *. set (e := mb_entry mb) in *.
  unfold mb_contents in Hc. fold size out e in Hc. destruct (Z.to_nat e) as [|m] eqn:Em; [done|]. cbn in Hc. injection Hc as Hv Htl.
  rewrite Z.add_0_r, Z.mod_small in Hv by lia.
  assert (El : mb_msg_pool mb !! Z.to_nat out = Some v).
  { rewrite <- Hv. apply list_lookup_lookup_total_lt. lia. }
  unfold mb_fetch. fold out. rewrite bool_decide_true by lia. rewrite El. eexists. split; [done|].
  fold size e. rewrite mb_wrap by lia. rewrite (wrap_id 16) by lia. split_and!; try done.
  - unfold mb_wf. cbn. fold size out e. split_and!; try done; try lia; try (apply Z.mod_pos_bound; lia).
    rewrite Zplus_mod_idemp_l. rewrite Hi. f_equal. lia.
  - unfold mb_contents. cbn. fold size out e. replace (Z.to_nat (e - 1)) with m by lia. rewrite <- Htl, <- fmap_S_seq, <- list_fmap_compose.
    apply list_fmap_ext. intros i j Hj. apply lookup_seq in Hj as [-> _]. cbn. rewrite Zplus_mod_idemp_l. do 3 f_equal. lia.
Qed.

(** ** Sending and receiving *)

Definition mb_ok (k : kernel) (n : nat) (mb : rt_mailbox) : Prop :=
  mb_wf mb /\ ipc_flag_ok (mb_flag mb) /\ is_Some (s_queues (k_sched k) !! QMbRecv n) /\ is_Some (s_queues (k_sched k) !! QMbSend n).
Definition mb_inv (k : kernel) : Prop := forall n mb, k_mbs k !! n = Some mb -> mb_ok k n mb.

Lemma get_mb_run k n mb : k_mbs k !! n = Some mb -> get_mb n k = Some (mb, k).
Proof. apply rd_run. Qed.
Lemma kinv_set_mbs m k : kinv None k -> kinv None (set_k_mbs m k).
Proof. intros []. by split. Qed.

Lemma mb_inv_upd k k' n mb :
  mb_inv k -> k_mbs k' = <[n := mb]> (k_mbs k) -> is_Some (k_mbs k !! n) -> mb_wf mb -> ipc_flag_ok (mb_flag mb) ->
  (forall h, is_wait h -> is_Some (s_queues (k_sched k) !! h) -> is_Some (s_queues (k_sched k') !! h)) -> mb_inv k'.
Proof.
  intros Hi Es [mb0 E0] Hwf Hf Hq m mbm E. rewrite Es, lookup_insert in E. case_decide as Hd.
  - subst m. injection E as <-. destruct (Hi n mb0 E0) as (_ & _ & H1 & H2). split_and!; try done; by apply Hq.
  - destruct (Hi m mbm E) as (? & ? & H1 & H2). split_and!; try done; by apply Hq.
Qed.

Lemma blocked_queue_dom h t flag time k k' h' :
  blocked h t flag time k k' -> is_wait h' -> is_Some (s_queues (k_sched k) !! h') -> is_Some (s_queues (k_sched k') !! h').
Proof.
  intros Hb Hw Hs. destruct (decide (h' = h)) as [->|Hne]; [|by rewrite (bl_queues _ _ _ _ _ _ Hb)].
  destruct (bl_queue _ _ _ _ _ _ Hb) as (l1 & l2 & _ & E & _). eauto.
Qed.
Lemma signalled_queue_dom h l k k' h' :
  signalled h l k k' -> s_queues (k_sched k) !! h = Some l -> is_wait h' ->
  is_Some (s_queues (k_sched k) !! h') -> is_Some (s_queues (k_sched k') !! h').
Proof.
  destruct l as [|t l]; cbn; [by intros ->|]. intros Hs El Hw Hsome.
  destruct (decide (h' = h)) as [->|Hne]; [|by rewrite (wk_queues _ _ _ _ Hs)].
  rewrite (wk_queue _ _ _ _ Hs l El). eauto.
Qed.

Definition mb_put (n : nat) (mb : rt_mailbox) (k : kernel) : kernel := set_k_mbs (<[n := mb]> (k_mbs k)) k.

Lemma mb_send_loop_ok k n mb t value timeout lr :
  kinv None k -> mb_inv k -> k_mbs k !! n = Some mb -> running k t -> timeout < 2 ^ 31 ->
  s_queues (k_sched k) !! QMbRecv n = Some lr ->
  exists r k', mb_send_loop n value timeout k = Some (r, k') /\ kinv None k' /\ mb_inv k' /\
    (mb_entry mb < mb_size mb /\ r = inl RT_EOK /\ (exists mb', mb_contents mb' = mb_contents mb ++ [value] /\
        mb_size mb' = mb_size mb /\ k_mbs k' = <[n := mb']> (k_mbs k) /\ signalled (QMbRecv n) lr (mb_put n mb' k) k') \/
     mb_entry mb = mb_size mb /\ timeout = 0 /\ r = inl (- RT_EFULL) /\ k' = with_error t RT_EOK k \/
     mb_entry mb = mb_size mb /\ timeout <> 0 /\ r = inr (t, timeout, t_tick (k_timers k)) /\
       blocked (QMbSend n) t (mb_flag mb) timeout (with_error t RT_EOK k) k').
Proof.
  intros Hk Hi En Hr Ht Elr. destruct (Hi n mb En) as (Hwf & Hf & _ & [ls Els]). destruct (proj2 Hr) as (th & Et & _).
  unfold mb_send_loop. munfold. rewrite (get_mb_run _ _ _ En). case_bool_decide as Hfull.
  - rewrite (self_run _ _ (proj1 Hr)), (set_error_run t RT_EOK k) by (by eexists).
    case_bool_decide as Hz.
    + do 2 eexists. split; [done|]. split; [by apply kinv_with_error|]. split; [|right; left; done].
      apply (mb_inv_upd k _ n mb); try done; [by rewrite (ik_mbs _ _ (with_error_keep t RT_EOK k)), insert_id|].
      intros h _. by rewrite with_error_queues.
    + unfold rt_tick_get. munfold. rewrite (on_timers_run _ (with_error t RT_EOK k) _ _ eq_refl), set_timers_id.
      destruct (block_running (with_error t RT_EOK k) (QMbSend n) t (mb_flag mb) timeout ls) as (k' & E & Hb);
        [by apply kinv_with_error|by apply running_with_error|done|by rewrite with_error_queues|done..|].
      munfold in E. rewrite E. do 2 eexists. split; [done|]. split; [apply (bl_kinv _ _ _ _ _ _ Hb)|].
      split; [|right; right; rewrite with_error_timers; done].
      apply (mb_inv_upd k _ n mb); try done.
      * by rewrite (ik_mbs _ _ (bl_keep _ _ _ _ _ _ Hb)), (ik_mbs _ _ (with_error_keep t RT_EOK k)), insert_id.
      * intros h Hw Hs. apply (blocked_queue_dom _ _ _ _ _ _ h Hb); [done|]. by rewrite with_error_queues.
  - assert (Hlt : mb_entry mb < mb_size mb) by (destruct Hwf as (_ & _ & ? & _); lia).
    destruct (mb_store_ok value mb Hwf Hlt) as (mb' & E & Hwf' & Hc & Hfl & Hsz). rewrite E.
    destruct (signal_ok (mb_put n mb' k) (QMbRecv n) lr t) as (k' & E' & Hsig & Hk'); [by apply kinv_set_mbs|done|done|apply Hr|].
    unfold put_mb. munfold. fold (mb_put n mb' k). rewrite E'. do 2 eexists. split; [done|]. split; [done|].
    assert (Hkm : k_mbs k' = <[n := mb']> (k_mbs k)) by (by rewrite (ik_mbs _ _ (signalled_keep _ _ _ _ Hsig))).
    split; [|left; split; [done|]; split; [done|]; by exists mb'].
    apply (mb_inv_upd k _ n mb'); try done; [by rewrite Hfl|].
    intros h Hw Hs. by apply (signalled_queue_dom _ _ _ _ h Hsig Elr).
Qed.

Lemma mb_recv_loop_ok k n mb t timeout ls :
  kinv None k -> mb_inv k -> k_mbs k !! n = Some mb -> running k t -> timeout < 2 ^ 31 ->
  s_queues (k_sched k) !! QMbSend n = Some ls ->
  exists r k', mb_recv_loop n timeout k = Some (r, k') /\ kinv None k' /\ mb_inv k' /\
    ((exists v l mb', mb_contents mb = v :: l /\ r = inl (RT_EOK, Some v) /\ mb_contents mb' = l /\
        mb_size mb' = mb_size mb /\ k_mbs k' = <[n := mb']> (k_mbs k) /\ signalled (QMbSend n) ls (mb_put n mb' k) k') \/
     mb_contents mb = [] /\ timeout = 0 /\ r = inl (- RT_ETIMEOUT, None) /\
       k' = with_error t (- RT_ETIMEOUT) (with_error t RT_EOK k) \/
     mb_contents mb = [] /\ timeout <> 0 /\ r = inr (t, timeout, t_tick (k_timers k)) /\
       blocked (QMbRecv n) t (mb_flag mb) timeout (with_error t RT_EOK k) k').
Proof.
  intros Hk Hi En Hr Ht Els. destruct (Hi n mb En) as (Hwf & Hf & [lr Elr] & _). destruct (proj2 Hr) as (th & Et & _).
  unfold mb_recv_loop. munfold. rewrite (get_mb_run _ _ _ En). case_bool_decide as Hempty.
  - assert (Hc : mb_contents mb = []) by (apply length_zero_iff_nil; rewrite mb_contents_length, Hempty; done).
    rewrite (self_run _ _ (proj1 Hr)), (set_error_run t RT_EOK k) by (by eexists).
    case_bool_decide as Hz.
    + rewrite (set_error_run t _ (with_error t RT_EOK k)) by (rewrite with_error_thread, decide_True, Et; by eexists).
      do 2 eexists. split; [done|]. split; [by do 2 apply kinv_with_error|]. split; [|right; left; done].
      apply (mb_inv_upd k _ n mb); try done.
      * by rewrite (ik_mbs _ _ (with_error_keep t _ _)), (ik_mbs _ _ (with_error_keep t RT_EOK k)), insert_id.
      * intros h _. by rewrite !with_error_queues.
    + unfold rt_tick_get. munfold. rewrite (on_timers_run _ (with_error t RT_EOK k) _ _ eq_refl), set_timers_id.
      destruct (block_running (with_error t RT_EOK k) (QMbRecv n) t (mb_flag mb) timeout lr) as (k' & E & Hb);
        [by apply kinv_with_error|by apply running_with_error|done|by rewrite with_error_queues|done..|].
      munfold in E. rewrite E. do 2 eexists. split; [done|]. split; [apply (bl_kinv _ _ _ _ _ _ Hb)|].
      split; [|right; right; rewrite with_error_timers; done].
      apply (mb_inv_upd k _ n mb); try done.
      * by rewrite (ik_mbs _ _ (bl_keep _ _ _ _ _ _ Hb)), (ik_mbs _ _ (with_error_keep t RT_EOK k)), insert_id.
      * intros h Hw Hs. apply (blocked_queue_dom _ _ _ _ _ _ h Hb); [done|]. by rewrite with_error_queues.
  - destruct (mb_contents mb) as [|v l] eqn:Hc.
    { exfalso. apply (f_equal length) in Hc. rewrite mb_contents_length in Hc. destruct Hwf as (_ & _ & ? & _). cbn in Hc. lia. }
    destruct (mb_fetch_ok mb v l Hwf Hc) as (mb' & E & Hwf' & Hc' & Hfl & Hsz). rewrite E.
    destruct (signal_ok (mb_put n mb' k) (QMbSend n) ls t) as (k' & E' & Hsig & Hk'); [by apply kinv_set_mbs|done|done|apply Hr|].
    unfold put_mb. munfold. fold (mb_put n mb' k). rewrite E'. do 2 eexists. split; [done|]. split; [done|].
    assert (Hkm : k_mbs k' = <[n := mb']> (k_mbs k)) by (by rewrite (ik_mbs _ _ (signalled_keep _ _ _ _ Hsig))).
    split; [|left; exists v, l, mb'; done].
    apply (mb_inv_upd k _ n mb'); try done; [by rewrite Hfl|].
    intros h Hw Hs. by apply (signalled_queue_dom _ _ _ _ h Hsig Els).
Qed.

(** ** Properties *)

Definition mb_send_post (n : nat) (mb : rt_mailbox) (t : nat) (value timeout : Z) (lr : list nat) (k : kernel) (r : Z + waiting) (k' : kernel) : Prop :=
  mb_entry mb < mb_size mb /\ r = inl RT_EOK /\ (exists mb', mb_contents mb' = mb_contents mb ++ [value] /\
      mb_size mb' = mb_size mb /\ k_mbs k' = <[n := mb']> (k_mbs k) /\ signalled (QMbRecv n) lr (mb_put n mb' k) k') \/
   mb_entry mb = mb_size mb /\ timeout = 0 /\ r = inl (- RT_EFULL) /\ k' = k \/
   mb_entry mb = mb_size mb /\ timeout <> 0 /\ r = inr (t, timeout, t_tick (k_timers k)) /\
     blocked (QMbSend n) t (mb_flag mb) timeout (with_error t RT_EOK k) k'.

(** rt_mb_send_wait by a running thread.  A mailbox with room stores the mail behind
    all others and wakes the first waiting receiver; a full one is refused at once with
    -RT_EFULL if the timeout is 0, without any effect; otherwise the sender is suspended in
    the list of senders with its timer armed.  The circular pool stays well formed. *)
Lemma mb_send_ok k n mb t value timeout lr :
  kinv None k -> mb_inv k -> k_mbs k !! n = Some mb -> running k t -> timeout < 2 ^ 31 ->
  s_queues (k_sched k) !! QMbRecv n = Some lr ->
  exists r k', rt_mb_send_wait n value timeout k = Some (r, k') /\ kinv None k' /\ mb_inv k' /\
    mb_send_post n mb t value timeout lr k r k'.
Proof.
  unfold mb_send_post.
  intros Hk Hi En Hr Ht El. unfold rt_mb_send_wait. munfold. rewrite (get_mb_run _ _ _ En).
  destruct (decide (mb_entry mb = mb_size mb /\ timeout = 0)) as [[Hf Hz]|Hn].
  - rewrite !bool_decide_true by done. exists (inl (- RT_EFULL)), k. split_and!; try done. by right; left.
  - replace (bool_decide _ && bool_decide _) with false by (symmetry; repeat case_bool_decide; tauto || done).
    destruct (mb_send_loop_ok k n mb t value timeout lr Hk Hi En Hr Ht El) as (r & k' & E & Hk' & Hi' & Hpost).
    exists r, k'. split_and!; try done. destruct Hpost as [?|[(Hf & Hz & _)|?]]; [by left| |by right; right].
    by destruct Hn.
Qed.

Definition mb_recv_post (n : nat) (mb : rt_mailbox) (t : nat) (timeout : Z) (ls : list nat) (k : kernel) (r : Z * option Z + waiting) (k' : kernel) : Prop :=
  (exists v l mb', mb_contents mb = v :: l /\ r = inl (RT_EOK, Some v) /\ mb_contents mb' = l /\
      mb_size mb' = mb_size mb /\ k_mbs k' = <[n := mb']> (k_mbs k) /\ signalled (QMbSend n) ls (mb_put n mb' k) k') \/
   mb_contents mb = [] /\ timeout = 0 /\ r = inl (- RT_ETIMEOUT, None) /\ k' = k \/
   mb_contents mb = [] /\ timeout <> 0 /\ r = inr (t, timeout, t_tick (k_timers k)) /\
     blocked (QMbRecv n) t (mb_flag mb) timeout (with_error t RT_EOK k) k'.

(** rt_mb_recv by a running thread.  A non-empty mailbox gives up its oldest mail and
    wakes the first waiting sender; an empty one is refused at once with -RT_ETIMEOUT if
    the timeout is 0; otherwise the receiver is suspended with its timer armed.  With
    [mb_send_correct] the mailbox is a FIFO queue of the mails sent. *)
Lemma mb_recv_ok k n mb t timeout ls :
  kinv None k -> mb_inv k -> k_mbs k !! n = Some mb -> running k t -> timeout < 2 ^ 31 ->
  s_queues (k_sched k) !! QMbSend n = Some ls ->
  exists r k', rt_mb_recv n timeout k = Some (r, k') /\ kinv None k' /\ mb_inv k' /\
    mb_recv_post n mb t timeout ls k r k'.
Proof.
  unfold mb_recv_post.
  intros Hk Hi En Hr Ht El. unfold rt_mb_recv. munfold. rewrite (get_mb_run _ _ _ En).
  destruct (decide (mb_entry mb = 0 /\ timeout = 0)) as [[Hf Hz]|Hn].
  - rewrite !bool_decide_true by done. exists (inl (- RT_ETIMEOUT, None)), k. split_and!; try done. right; left.
    split; [|done]. apply length_zero_iff_nil. by rewrite mb_contents_length, Hf.
  - replace (bool_decide _ && bool_decide _) with false by (symmetry; repeat case_bool_decide; tauto || done).
    destruct (mb_recv_loop_ok k n mb t timeout ls Hk Hi En Hr Ht El) as (r & k' & E & Hk' & Hi' & Hpost).
    exists r, k'. split_and!; try done. destruct Hpost as [?|[(Hf & Hz & _)|?]]; [by left| |by right; right].
    destruct Hn. split; [|done]. apply (f_equal length) in Hf. rewrite mb_contents_length in Hf.
    destruct (Hi n mb En) as ((_ & _ & ? & _) & _). cbn in Hf. lia.
Qed.
