(* ===== verification/MsgQueue.v ===== *)
(** * Message queues (rt-thread/src/ipc.c)

    The operations rt_mq_*.  A message queue is a pool of blocks linked into the
    list of pending messages and the list of free blocks; a block a sender fills
    or a receiver copies is on neither list while interrupts are enabled.  [mqrep]
    relates the pointers to these lists; [mq_step] is the interleaving of the
    sections that run with interrupts disabled. *)
From S2P Require Import Prelude RtList Kernel Sched Timer Object Thread Ipc Sem Mailbox.
From stdpp Require Import base gmap sets list.
From Stdlib Require Import ZArith Lia.
#[local] Open Scope Z_scope.

(** ** The sections executed with interrupts disabled *)

Definition mqs (A : Type) : Type := M rt_messagequeue A.

(** [msg->next], undefined outside the pool. *)
Definition msg_next (msg : nat) : mqs (option nat) := o ← gets (fun mq => mq_next mq !! msg); liftO o.
Definition set_msg_next (msg : nat) (next : option nat) : mqs unit :=
  msg_next msg ;;
  modify (fun mq => set_mq_next (<[msg := next]> (mq_next mq)) mq).

(** Taking a block off the free list; [None] when the queue is full. *)
Definition mq_alloc : mqs (option nat) :=
  free ← gets mq_free;
  match free with
  | None => mret None
  | Some msg =>
      next ← msg_next msg;
      modify (set_mq_free next) ;;
      mret (Some msg)
  end.

(** [rt_memcpy(msg + 1, buffer, size)]. *)
Definition mq_fill (msg : nat) (buffer : list Z) : mqs unit :=
  mq ← gets id;
  match mq_data mq !! msg with
  | Some old =>
      if bool_decide (length buffer <= length old)%nat then
        modify (set_mq_data (<[msg := buffer ++ drop (length buffer) old]> (mq_data mq)))
      else ub
  | None => ub
  end.

Definition mq_link_tail (msg : nat) : mqs unit :=
  tail ← gets mq_tail;
  (match tail with Some tl => set_msg_next tl (Some msg) | None => mret tt end) ;;
  modify (set_mq_tail (Some msg)) ;;
  head ← gets mq_head;
  (match head with None => modify (set_mq_head (Some msg)) | Some _ => mret tt end) ;;
  modify (fun mq => set_mq_entry (u16 (mq_entry mq + 1)) mq).

Definition mq_link_head (msg : nat) : mqs unit :=
  head ← gets mq_head;
  set_msg_next msg head ;;
  modify (set_mq_head (Some msg)) ;;
  tail ← gets mq_tail;
  (match tail with None => modify (set_mq_tail (Some msg)) | Some _ => mret tt end) ;;
  modify (fun mq => set_mq_entry (u16 (mq_entry mq + 1)) mq).

(** Taking the first message off the queue. *)
Definition mq_unlink : mqs nat :=
  head ← gets mq_head;
  msg ← liftO head;
  next ← msg_next msg;
  modify (set_mq_head next) ;;
  tail ← gets mq_tail;
  (if bool_decide (tail = Some msg) then modify (set_mq_tail None) else mret tt) ;;
  mret msg.
Definition mq_take : mqs nat :=
  msg ← mq_unlink;
  modify (fun mq => set_mq_entry (u16 (mq_entry mq - 1)) mq) ;;
  mret msg.

(** [rt_memcpy(buffer, msg + 1, size > mq->msg_size ? mq->msg_size : size)]. *)
Definition mq_read (msg : nat) (size : Z) : mqs (list Z) :=
  mq ← gets id;
  data ← liftO (mq_data mq !! msg);
  mret (take (Z.to_nat (if bool_decide (size > mq_msg_size mq) then mq_msg_size mq else size)) data).

Definition mq_free_block (msg : nat) : mqs unit :=
  free ← gets mq_free;
  set_msg_next msg free ;;
  modify (set_mq_free (Some msg)).

(** The loop that builds the free list. *)
Fixpoint mq_init_free (temp : nat) : mqs unit :=
  match temp with
  | O => mret tt
  | S temp => mq_init_free temp ;; mq_free_block temp
  end.

(** ** The blocks of a queue *)

(** Following [next] from [o] yields the blocks [l]. *)
Fixpoint chain_from (next : gmap nat (option nat)) (o : option nat) (l : list nat) : Prop :=
  match l with
  | [] => o = None
  | i :: l => o = Some i /\ exists o', next !! i = Some o' /\ chain_from next o' l
  end.

(** [q] is queued, [fr] free and [fl] in the hands of a sender or receiver. *)
Record mqrep (mq : rt_messagequeue) (q fr fl : list nat) : Prop := {
  mr_nodup : NoDup (q ++ fr ++ fl);
  mr_queue : chain_from (mq_next mq) (mq_head mq) q;
  mr_tail : mq_tail mq = last q;
  mr_free : chain_from (mq_next mq) (mq_free mq) fr;
  mr_flight : forall i, i ∈ fl -> is_Some (mq_next mq !! i);
  mr_entry : mq_entry mq = Z.of_nat (length q);
  mr_max : Z.of_nat (length (q ++ fr ++ fl)) = mq_max_msgs mq /\ mq_max_msgs mq < 2 ^ 16;
  mr_data : forall i, i ∈ q ++ fr ++ fl -> exists d, mq_data mq !! i = Some d /\ Z.of_nat (length d) = mq_msg_size mq;
}.

Lemma chain_ext next next' o l :
  (forall i, i ∈ l -> next' !! i = next !! i) -> chain_from next o l -> chain_from next' o l.
Proof.
  revert o. induction l as [|i l IH]; intros o He; cbn; [done|]. intros [-> (o' & E & H)]. split; [done|]. exists o'.
  rewrite He by (apply elem_of_cons; by left). split; [done|]. apply IH; [|done]. intros j Hj. apply He, elem_of_cons. by right.
Qed.

(** Linking a block behind the last one. *)
Lemma chain_snoc next o l tl msg :
  chain_from next o (l ++ [tl]) -> NoDup (l ++ [tl]) -> next !! msg = Some None -> msg ∉ l ++ [tl] ->
  chain_from (<[tl := Some msg]> next) o (l ++ [tl; msg]).
Proof.
  revert o. induction l as [|i l IH]; intros o; cbn.
  - intros [-> (o' & E & ->)] _ Hm Hn. split; [done|]. exists (Some msg). rewrite lookup_insert_eq. split; [done|].
    split; [done|]. exists None. rewrite lookup_insert_ne by set_solver. done.
  - intros [-> (o' & E & H)] [Hi Hnd]%NoDup_cons Hm Hn. split; [done|]. exists o'.
    rewrite lookup_insert_ne by set_solver. split; [done|]. apply IH; try done. set_solver.
Qed.

Lemma mqrep_perm mq q fr fl fl' : fl ≡ₚ fl' -> mqrep mq q fr fl -> mqrep mq q fr fl'.
Proof.
  intros Hp []. split; try done.
  - by rewrite <- Hp.
  - intros i. rewrite <- Hp. apply mr_flight0.
  - by rewrite <- Hp.
  - intros i. rewrite <- Hp. apply mr_data0.
Qed.

Lemma chain_head next o i l : chain_from next o (i :: l) -> exists o', o = Some i /\ next !! i = Some o' /\ chain_from next o' l.
Proof. intros [-> (o' & ? & ?)]. eauto. Qed.
Lemma chain_dom next o l i : chain_from next o l -> i ∈ l -> is_Some (next !! i).
Proof.
  revert o. induction l as [|j l IH]; intros o; cbn; [by intros _ ?%not_elem_of_nil|].
  intros [_ (o' & E & H)] [->|Hi]%elem_of_cons; eauto.
Qed.

Lemma set_next_run mq msg next :
  is_Some (mq_next mq !! msg) -> set_msg_next msg next mq = Some (tt, set_mq_next (<[msg := next]> (mq_next mq)) mq).
Proof. intros [o E]. unfold set_msg_next, msg_next. munfold. by rewrite E. Qed.
Lemma msg_next_run mq msg o : mq_next mq !! msg = Some o -> msg_next msg mq = Some (o, mq).
Proof. intros E. unfold msg_next. munfold. by rewrite E. Qed.

Lemma mq_alloc_full mq q fl : mqrep mq q [] fl -> mq_alloc mq = Some (None, mq).
Proof. intros Hr. unfold mq_alloc. munfold. by rewrite (mr_free _ _ _ _ Hr). Qed.

(** What a section leaves alone. *)
Definition mq_same (mq mq' : rt_messagequeue) : Prop :=
  mq_data mq' = mq_data mq /\ mq_msg_size mq' = mq_msg_size mq /\ mq_max_msgs mq' = mq_max_msgs mq /\ mq_flag mq' = mq_flag mq.

Definition mq_frame (fl : list nat) (mq mq' : rt_messagequeue) : Prop :=
  mq_same mq mq' /\ forall i, i ∈ fl -> mq_next mq' !! i = mq_next mq !! i.

(** Blocks moved between the lists. *)
Lemma mqrep_move mq mq' q fr fl q' fr' fl' :
  mqrep mq q fr fl -> q ++ fr ++ fl ≡ₚ q' ++ fr' ++ fl' -> mq_same mq mq' ->
  chain_from (mq_next mq') (mq_head mq') q' -> mq_tail mq' = last q' -> chain_from (mq_next mq') (mq_free mq') fr' ->
  (forall i, i ∈ fl' -> is_Some (mq_next mq' !! i)) -> mq_entry mq' = Z.of_nat (length q') -> mqrep mq' q' fr' fl'.
Proof.
  intros [] Hp (Hd & Hs & Hm & _) Hq Ht Hf Hfl He. split; try done.
  - by rewrite <- Hp.
  - rewrite <- Hp, Hm. done.
  - intros i. rewrite <- Hp, Hd, Hs. apply mr_data0.
Qed.

Lemma mqrep_entry_bound mq q fr msg fl : mqrep mq q fr (msg :: fl) -> u16 (mq_entry mq + 1) = Z.of_nat (S (length q)).
Proof.
  intros []. rewrite mr_entry0. rewrite !length_app in mr_max0. cbn in mr_max0. rewrite wrap_id; lia.
Qed.

(** A block belongs to one of the three lists only. *)
Lemma mqrep_disjoint mq q fr fl i j : mqrep mq q fr fl -> i ∈ q ++ fr -> j ∈ fl -> i <> j.
Proof.
  intros [] Hi Hj ->. rewrite app_assoc in mr_nodup0. apply NoDup_app in mr_nodup0 as (_ & Hd & _). by apply (Hd j).
Qed.
Lemma mqrep_disjoint' mq q fr fl i j : mqrep mq q fr fl -> i ∈ q -> j ∈ fr ++ fl -> i <> j.
Proof. intros [] Hi Hj ->. apply NoDup_app in mr_nodup0 as (_ & Hd & _). by apply (Hd j). Qed.

Lemma mq_alloc_ok mq q msg fr fl :
  mqrep mq q (msg :: fr) fl ->
  exists mq', mq_alloc mq = Some (Some msg, mq') /\ mqrep mq' q fr (msg :: fl) /\ mq_frame fl mq mq'.
Proof.
  intros Hr. destruct (chain_head _ _ _ _ (mr_free _ _ _ _ Hr)) as (o' & Ef & En & Hch).
  exists (set_mq_free o' mq). split; [unfold mq_alloc; munfold; by rewrite Ef, (msg_next_run _ _ _ En)|].
  split; [|done]. apply (mqrep_move mq _ q (msg :: fr) fl); try done; try apply Hr.
  - cbn. by rewrite Permutation_middle.
  - intros i [->|Hi]%elem_of_cons; [by eexists|by apply (mr_flight _ _ _ _ Hr)].
Qed.

Lemma mqrep_flight_ne mq q fr msg fl i : mqrep mq q fr (msg :: fl) -> i ∈ q ++ fr ++ fl -> msg <> i.
Proof.
  intros [] Hi ->. assert (Hp : q ++ fr ++ i :: fl ≡ₚ i :: q ++ fr ++ fl) by (by rewrite !Permutation_middle).
  rewrite Hp in mr_nodup0. by apply NoDup_cons in mr_nodup0 as [? _].
Qed.
Lemma mqrep_others mq q fr msg fl o :
  mqrep mq q fr (msg :: fl) -> forall i, i ∈ q ++ fr ++ fl -> <[msg := o]> (mq_next mq) !! i = mq_next mq !! i.
Proof. intros Hr i Hi. by eapply lookup_insert_ne, mqrep_flight_ne. Qed.

(** A block in flight: its link and its bytes belong to its holder. *)
Lemma mq_set_next_ok mq q fr fl msg o :
  mqrep mq q fr fl -> msg ∈ fl ->
  exists mq', set_msg_next msg o mq = Some (tt, mq') /\ mqrep mq' q fr fl /\ mq_same mq mq' /\
    mq_next mq' !! msg = Some o /\ (forall i, i <> msg -> mq_next mq' !! i = mq_next mq !! i).
Proof.
  intros Hr Hm. eexists. split; [by apply set_next_run, (mr_flight _ _ _ _ Hr)|].
  assert (Hext : forall i, i ∈ q ++ fr -> <[msg := o]> (mq_next mq) !! i = mq_next mq !! i).
  { intros i Hi. apply lookup_insert_ne, not_eq_sym. by apply (mqrep_disjoint mq q fr fl). }
  split; [|split; [done|split; [apply lookup_insert_eq|intros i Hi; by apply lookup_insert_ne, not_eq_sym]]].
  apply (mqrep_move mq _ q fr fl); try done; try apply Hr; cbn.
  - apply (chain_ext (mq_next mq)); [|apply Hr]. intros i Hi. apply Hext. set_solver.
  - apply (chain_ext (mq_next mq)); [|apply Hr]. intros i Hi. apply Hext. set_solver.
  - intros i Hi. rewrite lookup_insert. case_decide; [done|by apply (mr_flight _ _ _ _ Hr)].
Qed.

Lemma mq_fill_ok mq q fr fl msg buffer :
  mqrep mq q fr fl -> msg ∈ fl -> Z.of_nat (length buffer) <= mq_msg_size mq ->
  exists mq' old, mq_fill msg buffer mq = Some (tt, mq') /\ mqrep mq' q fr fl /\
    mq_data mq' = <[msg := buffer ++ drop (length buffer) old]> (mq_data mq) /\ mq_next mq' = mq_next mq /\
    mq_msg_size mq' = mq_msg_size mq /\ mq_max_msgs mq' = mq_max_msgs mq /\ mq_flag mq' = mq_flag mq.
Proof.
  intros Hr Hm Hl. pose proof Hr as []. destruct (mr_data0 msg ltac:(set_solver)) as (old & Ed & Hlen).
  exists (set_mq_data (<[msg := buffer ++ drop (length buffer) old]> (mq_data mq)) mq), old.
  split; [unfold mq_fill; munfold; cbn; rewrite Ed; by rewrite bool_decide_true by lia|].
  split; [|done]. split; try done. cbn. intros i Hi. rewrite lookup_insert. case_decide; [|by apply mr_data0].
  eexists. split; [done|]. rewrite length_app, length_drop. lia.
Qed.

Lemma mq_link_tail_ok mq q fr fl msg :
  mqrep mq q fr (msg :: fl) -> mq_next mq !! msg = Some None ->
  exists mq', mq_link_tail msg mq = Some (tt, mq') /\ mqrep mq' (q ++ [msg]) fr fl /\ mq_frame fl mq mq'.
Proof.
  intros Hr Hn. pose proof (mqrep_entry_bound _ _ _ _ _ Hr) as Hent.
  assert (Hp : q ++ fr ++ msg :: fl ≡ₚ (q ++ [msg]) ++ fr ++ fl) by (rewrite <- Permutation_middle, <- app_assoc; done).
  assert (Hlen : Z.of_nat (S (length q)) = Z.of_nat (length (q ++ [msg]))) by (rewrite length_app; cbn; lia).
  rewrite Hlen in Hent. pose proof (mr_tail _ _ _ _ Hr) as Htail. pose proof (mr_queue _ _ _ _ Hr) as Hq.
  destruct (decide (q = [])) as [->|Hne].
  - cbn in Htail, Hq. exists (set_mq_entry 1 (set_mq_head (Some msg) (set_mq_tail (Some msg) mq))).
    split; [unfold mq_link_tail; munfold; rewrite Htail; cbn; rewrite Hq; cbn; by rewrite Hent|split; [|done]].
    apply (mqrep_move mq _ [] fr (msg :: fl)); try done; try apply Hr; cbn.
    + split; [done|]. by exists None.
    + intros i Hi. apply (mr_flight _ _ _ _ Hr). set_solver.
  - destruct (exists_last Hne) as (q0 & tl & ->). rewrite last_snoc in Htail. set (next' := <[tl := Some msg]> (mq_next mq)).
    assert (Htl : is_Some (mq_next mq !! tl)) by (apply (chain_dom _ _ _ _ Hq); set_solver).
    assert (Hh : is_Some (mq_head mq)) by (destruct q0; cbn in Hq; destruct Hq as [-> _]; by eexists).
    exists (set_mq_entry (Z.of_nat (length ((q0 ++ [tl]) ++ [msg]))) (set_mq_tail (Some msg) (set_mq_next next' mq))).
    assert (Hfr : forall i, i ∈ fr ++ msg :: fl -> next' !! i = mq_next mq !! i).
    { intros i Hi. apply lookup_insert_ne. apply (mqrep_disjoint' _ _ _ _ tl i Hr); set_solver. }
    split; [|split; [|split; [done|intros i Hi; apply Hfr; set_solver]]].
    { unfold mq_link_tail. munfold. rewrite Htail, (set_next_run _ _ _ Htl). cbn. destruct Hh as [hd ->]. cbn. by rewrite Hent. }
    apply (mqrep_move mq _ (q0 ++ [tl]) fr (msg :: fl)); try done; cbn [mq_next mq_head mq_tail mq_free set_mq_entry set_mq_tail set_mq_next].
    + rewrite <- app_assoc. cbn. apply chain_snoc; try done; [pose proof (mr_nodup _ _ _ _ Hr) as Hnd; by apply NoDup_app in Hnd as (? & _ & _)|].
      intros Hin. apply (mqrep_disjoint' _ _ _ _ msg msg Hr Hin); [set_solver|done].
    + by rewrite last_snoc.
    + apply (chain_ext (mq_next mq)); [|apply Hr]. intros i Hi. apply Hfr. set_solver.
    + intros i Hi. rewrite Hfr by set_solver. apply (mr_flight _ _ _ _ Hr). set_solver.
Qed.

Lemma mq_link_head_ok mq q fr fl msg :
  mqrep mq q fr (msg :: fl) ->
  exists mq', mq_link_head msg mq = Some (tt, mq') /\ mqrep mq' (msg :: q) fr fl /\ mq_frame fl mq mq'.
Proof.
  intros Hr. pose proof (mqrep_entry_bound _ _ _ _ _ Hr) as Hent. pose proof (mr_tail _ _ _ _ Hr) as Htail.
  set (next' := <[msg := mq_head mq]> (mq_next mq)).
  exists (set_mq_entry (Z.of_nat (S (length q))) (set_mq_tail (last (msg :: q)) (set_mq_head (Some msg) (set_mq_next next' mq)))).
  pose proof (mqrep_others _ _ _ _ _ (mq_head mq) Hr) as Ho. fold next' in Ho.
  split; [|split; [|split; [done|intros i Hi; apply Ho; set_solver]]].
  - unfold mq_link_head. munfold. rewrite (set_next_run _ _ _ (mr_flight _ _ _ _ Hr msg ltac:(set_solver))). cbn.
    rewrite Htail. destruct (last q) as [tl|] eqn:El; cbn; rewrite Hent.
    + rewrite last_cons, El. destruct mq; cbn in *. by rewrite Htail.
    + by rewrite last_cons, El.
  - apply (mqrep_move mq _ q fr (msg :: fl)); try done; cbn [mq_next mq_head mq_tail mq_free mq_entry set_mq_entry set_mq_tail set_mq_head set_mq_next].
    + cbn. rewrite app_assoc, <- Permutation_middle, <- app_assoc. done.
    + split; [done|]. exists (mq_head mq). split; [apply lookup_insert_eq|].
      apply (chain_ext (mq_next mq)); [|apply Hr]. intros i Hi. apply Ho. set_solver.
    + apply (chain_ext (mq_next mq)); [|apply Hr]. intros i Hi. apply Ho. set_solver.
    + intros i Hi. rewrite Ho by set_solver. apply (mr_flight _ _ _ _ Hr). set_solver.
Qed.

Lemma mq_unlink_ok mq msg q fr fl :
  mqrep mq (msg :: q) fr fl ->
  exists next tail, mq_unlink mq = Some (msg, set_mq_tail tail (set_mq_head next mq)) /\
    chain_from (mq_next mq) next q /\ tail = last q.
Proof.
  intros Hr. destruct (chain_head _ _ _ _ (mr_queue _ _ _ _ Hr)) as (o' & Eh & En & Hch).
  pose proof (mr_tail _ _ _ _ Hr) as Htail. pose proof (mr_nodup _ _ _ _ Hr) as Hnd.
  exists o', (last q). split; [|done]. unfold mq_unlink. munfold. rewrite Eh. cbn. rewrite (msg_next_run _ _ _ En). cbn.
  rewrite Htail, last_cons. destruct (last q) as [tl|] eqn:El.
  - rewrite bool_decide_false; [destruct mq; cbn in *; by rewrite Htail, last_cons, El|].
    intros [= ->]. apply NoDup_cons in Hnd as [Hn _]. apply Hn, elem_of_app. left. by apply last_Some_elem_of.
  - by rewrite bool_decide_true.
Qed.

Lemma mq_take_ok mq msg q fr fl :
  mqrep mq (msg :: q) fr fl ->
  exists mq', mq_take mq = Some (msg, mq') /\ mqrep mq' q fr (msg :: fl) /\ mq_frame fl mq mq'.
Proof.
  intros Hr. destruct (mq_unlink_ok _ _ _ _ _ Hr) as (next & tail & E & Hch & ->).
  assert (Hent : u16 (mq_entry mq - 1) = Z.of_nat (length q)).
  { pose proof (mr_max _ _ _ _ Hr) as [? ?]. rewrite (mr_entry _ _ _ _ Hr). cbn in *. rewrite !length_app in *. rewrite wrap_id; lia. }
  exists (set_mq_entry (Z.of_nat (length q)) (set_mq_tail (last q) (set_mq_head next mq))).
  split; [unfold mq_take; munfold; rewrite E; cbn; by rewrite Hent|]. split; [|done].
  apply (mqrep_move mq _ (msg :: q) fr fl); try done; try apply Hr; cbn.
  - by rewrite !Permutation_middle.
  - intros i [->|Hi]%elem_of_cons; [|by apply (mr_flight _ _ _ _ Hr)].
    apply (chain_dom _ _ _ _ (mr_queue _ _ _ _ Hr)). apply elem_of_cons. by left.
Qed.

Lemma mq_free_block_ok mq msg q fr fl :
  mqrep mq q fr (msg :: fl) ->
  exists mq', mq_free_block msg mq = Some (tt, mq') /\ mqrep mq' q (msg :: fr) fl /\ mq_frame fl mq mq'.
Proof.
  intros Hr. pose proof (mqrep_others _ _ _ _ _ (mq_free mq) Hr) as Ho. eexists. split.
  { unfold mq_free_block. munfold. rewrite (set_next_run _ _ _ (mr_flight _ _ _ _ Hr msg ltac:(set_solver))). done. }
  split; [|split; [done|intros i Hi; apply Ho; set_solver]].
  apply (mqrep_move mq _ q fr (msg :: fl)); try done; try apply Hr; cbn.
  - by rewrite !Permutation_middle.
  - apply (chain_ext (mq_next mq)); [|apply Hr]. intros i Hi. apply Ho. set_solver.
  - split; [done|]. exists (mq_free mq). rewrite lookup_insert_eq. split; [done|].
    apply (chain_ext (mq_next mq)); [|apply Hr]. intros i Hi. apply Ho. set_solver.
  - intros i Hi. rewrite Ho by set_solver. apply (mr_flight _ _ _ _ Hr). set_solver.
Qed.

(** The initial free list holds every block, the last one first. *)
Lemma mq_init_free_ok mq n :
  (forall i, (i < n)%nat -> is_Some (mq_next mq !! i)) -> mq_free mq = None ->
  exists mq', mq_init_free n mq = Some (tt, mq') /\ chain_from (mq_next mq') (mq_free mq') (rev (seq 0 n)) /\
    (forall i, is_Some (mq_next mq !! i) -> is_Some (mq_next mq' !! i)) /\ mq_same mq mq' /\
    mq_head mq' = mq_head mq /\ mq_tail mq' = mq_tail mq /\ mq_entry mq' = mq_entry mq.
Proof.
  intros Hn Hf. induction n as [|n IH]; [by exists mq|].
  destruct IH as (mq1 & E1 & Hch & Hdom & Hs & Hh & Ht & He); [intros i Hi; apply Hn; lia|].
  exists (set_mq_free (Some n) (set_mq_next (<[n := mq_free mq1]> (mq_next mq1)) mq1)). split.
  { cbn. munfold. rewrite E1. unfold mq_free_block. munfold. rewrite (set_next_run mq1 n); [done|]. apply Hdom, Hn. lia. }
  split; [|split; [|done]].
  - rewrite seq_S, rev_app_distr. cbn. split; [done|]. exists (mq_free mq1). rewrite lookup_insert_eq. split; [done|].
    apply (chain_ext (mq_next mq1)); [|done]. intros i Hi. apply lookup_insert_ne.
    apply list_elem_of_In, in_rev, in_seq in Hi. lia.
  - intros i Hi. cbn. rewrite lookup_insert. case_decide; [done|]. by apply Hdom.
Qed.

(** ** Interleavings

    A sender or receiver runs one section at a time; between two sections any
    other thread or interrupt may run.  The state is the queue and the blocks in
    flight with the progress of their holders. *)
Inductive phase :=
| Claimed                     (* off the free list *)
| Cleared                     (* [msg->next = RT_NULL] done *)
| Filled (buffer : list Z)    (* copied, to be linked at the tail *)
| Urgent (buffer : list Z)    (* copied, to be linked at the head *)
| Taken (data : list Z).      (* off the queue, being copied out *)

Inductive mq_event := EvSend (buffer : list Z) | EvUrgent (buffer : list Z) | EvRecv (data : list Z).

Definition mq_state : Type := rt_messagequeue * list (nat * phase).

Inductive mq_step : mq_state -> option mq_event -> mq_state -> Prop :=
| step_alloc mq mq' msg fl :
    mq_alloc mq = Some (Some msg, mq') -> mq_step (mq, fl) None (mq', (msg, Claimed) :: fl)
| step_full mq mq' fl :
    mq_alloc mq = Some (None, mq') -> mq_step (mq, fl) None (mq', fl)
| step_clear mq mq' msg fl fl' :
    fl ≡ₚ (msg, Claimed) :: fl' -> set_msg_next msg None mq = Some (tt, mq') ->
    mq_step (mq, fl) None (mq', (msg, Cleared) :: fl')
| step_fill mq mq' msg buffer fl fl' :
    fl ≡ₚ (msg, Cleared) :: fl' -> Z.of_nat (length buffer) <= mq_msg_size mq ->
    mq_fill msg buffer mq = Some (tt, mq') -> mq_step (mq, fl) None (mq', (msg, Filled buffer) :: fl')
| step_fill_urgent mq mq' msg buffer fl fl' :
    fl ≡ₚ (msg, Claimed) :: fl' -> Z.of_nat (length buffer) <= mq_msg_size mq ->
    mq_fill msg buffer mq = Some (tt, mq') -> mq_step (mq, fl) None (mq', (msg, Urgent buffer) :: fl')
| step_link_tail mq mq' msg buffer fl fl' :
    fl ≡ₚ (msg, Filled buffer) :: fl' -> mq_link_tail msg mq = Some (tt, mq') ->
    mq_step (mq, fl) (Some (EvSend buffer)) (mq', fl')
| step_link_head mq mq' msg buffer fl fl' :
    fl ≡ₚ (msg, Urgent buffer) :: fl' -> mq_link_head msg mq = Some (tt, mq') ->
    mq_step (mq, fl) (Some (EvUrgent buffer)) (mq', fl')
| step_take mq mq' msg data fl :
    mq_entry mq <> 0 -> mq_take mq = Some (msg, mq') -> mq_data mq !! msg = Some data ->
    mq_step (mq, fl) (Some (EvRecv data)) (mq', (msg, Taken data) :: fl)
| step_free mq mq' msg data fl fl' :
    fl ≡ₚ (msg, Taken data) :: fl' -> mq_free_block msg mq = Some (tt, mq') ->
    mq_step (mq, fl) None (mq', fl').

(** The specification: a double-ended list of messages.  A received block begins
    with the message that was sent in it. *)
Inductive fifo_step : list (list Z) -> option mq_event -> list (list Z) -> Prop :=
| fifo_tau l : fifo_step l None l
| fifo_send l buffer : fifo_step l (Some (EvSend buffer)) (l ++ [buffer])
| fifo_urgent l buffer : fifo_step l (Some (EvUrgent buffer)) (buffer :: l)
| fifo_recv l buffer rest : fifo_step (buffer :: l) (Some (EvRecv (buffer ++ rest))) l.

Definition begins (mq : rt_messagequeue) (i : nat) (b : list Z) : Prop := exists r, mq_data mq !! i = Some (b ++ r).

Definition phase_ok (mq : rt_messagequeue) (h : nat * phase) : Prop :=
  match h.2 with
  | Claimed => True
  | Cleared => mq_next mq !! h.1 = Some None
  | Filled b => mq_next mq !! h.1 = Some None /\ begins mq h.1 b
  | Urgent b => begins mq h.1 b
  | Taken d => mq_data mq !! h.1 = Some d
  end.

Definition mq_sim (s : mq_state) (l : list (list Z)) : Prop :=
  exists q fr, mqrep s.1 q fr (s.2).*1 /\ Forall2 (begins s.1) q l /\ Forall (phase_ok s.1) s.2.

Lemma begins_frame mq mq' i b : mq_data mq' = mq_data mq -> begins mq i b -> begins mq' i b.
Proof. intros E [r H]. exists r. by rewrite E. Qed.
Lemma begins_all mq mq' q l : mq_data mq' = mq_data mq -> Forall2 (begins mq) q l -> Forall2 (begins mq') q l.
Proof. intros E H. eapply Forall2_impl; [done|]. intros i b. by apply begins_frame. Qed.

Lemma phase_frame mq mq' fl :
  mq_frame fl.*1 mq mq' -> Forall (phase_ok mq) fl -> Forall (phase_ok mq') fl.
Proof.
  intros [(Ed & _) Hn] H. rewrite !Forall_forall in *. intros [i ph] Hi. specialize (H _ Hi).
  assert (En : mq_next mq' !! i = mq_next mq !! i) by (apply Hn, list_elem_of_fmap; by exists (i, ph)).
  unfold phase_ok, begins in *. cbn in *. by destruct ph; rewrite ?En, ?Ed.
Qed.

(** A block of the queue or in flight keeps its bytes while another is filled. *)
Lemma fill_others mq mq' msg d q fr fl l :
  mqrep mq q fr (msg :: fl.*1) -> mq_data mq' = <[msg := d]> (mq_data mq) -> mq_next mq' = mq_next mq ->
  Forall2 (begins mq) q l -> Forall (phase_ok mq) fl -> Forall2 (begins mq') q l /\ Forall (phase_ok mq') fl.
Proof.
  intros Hr Ed En Hb Hp.
  assert (Ho : forall i, i ∈ q ++ fr ++ fl.*1 -> mq_data mq' !! i = mq_data mq !! i).
  { intros i Hi. rewrite Ed. by eapply lookup_insert_ne, mqrep_flight_ne. }
  split.
  - apply Forall2_same_length_lookup. split; [by apply Forall2_length in Hb|]. intros j i b Hi Hj.
    destruct (Forall2_lookup_lr _ _ _ _ _ _ Hb Hi Hj) as [r E]. exists r. rewrite Ho; [done|].
    apply elem_of_app. left. by apply list_elem_of_lookup_2 in Hi.
  - rewrite !Forall_forall in *. intros [i ph] Hi. specialize (Hp _ Hi).
    assert (E : mq_data mq' !! i = mq_data mq !! i).
    { apply Ho. apply elem_of_app. right. apply elem_of_app. right. apply list_elem_of_fmap. by exists (i, ph). }
    unfold phase_ok, begins in *. cbn in *. by destruct ph; rewrite ?E, ?En.
Qed.

Lemma mq_sim_perm mq fl fl' l : fl ≡ₚ fl' -> mq_sim (mq, fl) l -> mq_sim (mq, fl') l.
Proof.
  intros Hp (q & fr & Hr & Hb & Hph). exists q, fr. cbn in *. split_and!; try done.
  - apply (mqrep_perm _ _ _ fl.*1); [by rewrite Hp|done].
  - by rewrite <- Hp.
Qed.

(** Filling a block in flight. *)
Lemma mq_sim_fill mq mq' msg ph ph' buffer fl l :
  mq_sim (mq, (msg, ph) :: fl) l -> Z.of_nat (length buffer) <= mq_msg_size mq ->
  mq_fill msg buffer mq = Some (tt, mq') ->
  (mq_next mq' = mq_next mq -> begins mq' msg buffer -> phase_ok mq' (msg, ph')) ->
  mq_sim (mq', (msg, ph') :: fl) l.
Proof.
  intros (q & fr & Hr & Hb & [Hph Hfl]%Forall_cons) Hlen E Hok. cbn in *.
  destruct (mq_fill_ok _ _ _ _ msg buffer Hr ltac:(set_solver) Hlen) as (mq1 & old & E1 & Hr1 & Ed & En & _).
  rewrite E in E1. injection E1 as <-. destruct (fill_others _ _ _ _ _ _ _ _ Hr Ed En Hb Hfl) as [Hb' Hfl'].
  exists q, fr. cbn. split_and!; try done. apply Forall_cons. split; [|done]. apply Hok; [done|].
  exists (drop (length buffer) old). by rewrite Ed, lookup_insert_eq.
Qed.

(** Every step of the implementation is a step of the specification. *)
Lemma mq_sim_step s ev s' l :
  mq_sim s l -> mq_step s ev s' -> exists l', fifo_step l ev l' /\ mq_sim s' l'.
Proof.
  intros Hs Hstep. destruct Hstep as
    [mq mq' msg fl E|mq mq' fl E|mq mq' msg fl fl' Hp E|mq mq' msg b fl fl' Hp Hlen E|mq mq' msg b fl fl' Hp Hlen E
    |mq mq' msg b fl fl' Hp E|mq mq' msg b fl fl' Hp E|mq mq' msg d fl Hne E Ed|mq mq' msg d fl fl' Hp E];
    try apply (mq_sim_perm _ _ _ _ Hp) in Hs.
  - destruct Hs as (q & fr & Hr & Hb & Hfl). cbn in *. destruct fr as [|m fr]; [by rewrite (mq_alloc_full _ _ _ Hr) in E|].
    destruct (mq_alloc_ok _ _ _ _ _ Hr) as (mq1 & E1 & Hr1 & Hf). rewrite E in E1. injection E1 as <- <-.
    exists l. split; [constructor|]. exists q, fr. cbn. split_and!; try done; [by apply (begins_all mq), Hb; apply Hf|].
    apply Forall_cons. split; [done|]. by apply (phase_frame mq).
  - destruct Hs as (q & fr & Hr & Hb & Hfl). cbn in *. destruct fr as [|m fr].
    + rewrite (mq_alloc_full _ _ _ Hr) in E. injection E as <-. exists l. split; [constructor|]. by exists q, [].
    + destruct (mq_alloc_ok _ _ _ _ _ Hr) as (mq1 & E1 & _). by rewrite E in E1.
  - destruct Hs as (q & fr & Hr & Hb & [_ Hfl]%Forall_cons). cbn in *.
    destruct (mq_set_next_ok _ _ _ _ msg None Hr ltac:(set_solver)) as (mq1 & E1 & Hr1 & Hsame & En & Ho).
    rewrite E in E1. injection E1 as <-. exists l. split; [constructor|]. exists q, fr. cbn. split_and!; try done.
    + apply (begins_all mq); [apply Hsame|done].
    + apply Forall_cons. split; [done|]. apply (phase_frame mq); [|done]. split; [done|]. intros i Hi. apply Ho, not_eq_sym.
      eapply mqrep_flight_ne; [done|]. set_solver.
  - exists l. split; [constructor|]. pose proof Hs as (_ & _ & _ & _ & [Hc _]%Forall_cons).
    apply (mq_sim_fill mq mq' msg Cleared (Filled b) b); try done. intros En Hb. split; [by rewrite En|done].
  - exists l. split; [constructor|]. by apply (mq_sim_fill mq mq' msg Claimed (Urgent b) b).
  - destruct Hs as (q & fr & Hr & Hb & [[Hn Hbg] Hfl]%Forall_cons). cbn in *.
    destruct (mq_link_tail_ok _ _ _ _ _ Hr Hn) as (mq1 & E1 & Hr1 & Hf). rewrite E in E1. injection E1 as <-.
    exists (l ++ [b]). split; [constructor|]. exists (q ++ [msg]), fr. cbn. split_and!; [done| |by apply (phase_frame mq)].
    apply (begins_all mq); [apply Hf|]. apply Forall2_app; [done|]. by constructor.
  - destruct Hs as (q & fr & Hr & Hb & [Hbg Hfl]%Forall_cons). cbn in *.
    destruct (mq_link_head_ok _ _ _ _ _ Hr) as (mq1 & E1 & Hr1 & Hf). rewrite E in E1. injection E1 as <-.
    exists (b :: l). split; [constructor|]. exists (msg :: q), fr. cbn. split_and!; [done| |by apply (phase_frame mq)].
    apply (begins_all mq); [apply Hf|]. by constructor.
  - destruct Hs as (q & fr & Hr & Hb & Hfl). cbn in *. destruct q as [|m q]; [by rewrite (mr_entry _ _ _ _ Hr) in Hne|].
    destruct (mq_take_ok _ _ _ _ _ Hr) as (mq1 & E1 & Hr1 & Hf). rewrite E in E1. injection E1 as <- <-.
    apply Forall2_cons_inv_l in Hb as (b & l' & [r Er] & Hb & ->). rewrite Ed in Er. injection Er as ->.
    exists l'. split; [constructor|]. exists q, fr. cbn. split_and!; try done; [by apply (begins_all mq), Hb; apply Hf|].
    apply Forall_cons. split; [|by apply (phase_frame mq)]. unfold phase_ok. cbn. by rewrite (proj1 (proj1 Hf)).
  - destruct Hs as (q & fr & Hr & Hb & [_ Hfl]%Forall_cons). cbn in *.
    destruct (mq_free_block_ok _ _ _ _ _ Hr) as (mq1 & E1 & Hr1 & Hf). rewrite E in E1. injection E1 as <-.
    exists l. split; [constructor|]. exists q, (msg :: fr). cbn. split_and!; [done| |by apply (phase_frame mq)].
    by apply (begins_all mq), Hb; apply Hf.
Qed.

(** No section is ever undefined: what a holder or a newcomer runs next has a result. *)
Definition mq_safe (s : mq_state) : Prop :=
  let (mq, fl) := s in
  is_Some (mq_alloc mq) /\ (mq_entry mq <> 0 -> is_Some (mq_take mq)) /\
  forall msg ph, (msg, ph) ∈ fl ->
    match ph with
    | Claimed => is_Some (set_msg_next msg None mq) /\
        forall b, Z.of_nat (length b) <= mq_msg_size mq -> is_Some (mq_fill msg b mq)
    | Cleared => forall b, Z.of_nat (length b) <= mq_msg_size mq -> is_Some (mq_fill msg b mq)
    | Filled _ => is_Some (mq_link_tail msg mq)
    | Urgent _ => is_Some (mq_link_head msg mq)
    | Taken d => is_Some (mq_free_block msg mq) /\
        forall size, mq_read msg size mq = Some (take (Z.to_nat (Z.min size (mq_msg_size mq))) d, mq)
    end.

Lemma mq_read_run mq msg size d :
  mq_data mq !! msg = Some d -> mq_read msg size mq = Some (take (Z.to_nat (Z.min size (mq_msg_size mq))) d, mq).
Proof. intros E. unfold mq_read. munfold. cbn. rewrite E. do 3 f_equal. case_bool_decide; f_equal; lia. Qed.

Lemma mq_sim_safe s l : mq_sim s l -> mq_safe s.
Proof.
  destruct s as [mq fl]. intros Hs. split; [|split].
  - destruct Hs as (q & [|m fr] & Hr & _); cbn in Hr; [by rewrite (mq_alloc_full _ _ _ Hr)|].
    destruct (mq_alloc_ok _ _ _ _ _ Hr) as (? & E & _). eauto.
  - destruct Hs as ([|m q] & fr & Hr & _); cbn in Hr; intros Hne; [by rewrite (mr_entry _ _ _ _ Hr) in Hne|].
    destruct (mq_take_ok _ _ _ _ _ Hr) as (? & E & _). eauto.
  - intros msg ph Hin. apply elem_of_Permutation in Hin as [fl' Hp]. apply (mq_sim_perm _ _ _ _ Hp) in Hs.
    destruct Hs as (q & fr & Hr & Hb & [Hph Hfl]%Forall_cons). cbn in *.
    assert (Hfill : forall b, Z.of_nat (length b) <= mq_msg_size mq -> is_Some (mq_fill msg b mq)).
    { intros b Hlen. destruct (mq_fill_ok _ _ _ _ msg b Hr ltac:(set_solver) Hlen) as (? & ? & E & _). eauto. }
    destruct ph; cbn in Hph; [split; [|done]|done|..].
    + destruct (mq_set_next_ok _ _ _ _ msg None Hr ltac:(set_solver)) as (? & E & _). eauto.
    + destruct (mq_link_tail_ok _ _ _ _ _ Hr (proj1 Hph)) as (? & E & _). eauto.
    + destruct (mq_link_head_ok _ _ _ _ _ Hr) as (? & E & _). eauto.
    + split; [destruct (mq_free_block_ok _ _ _ _ _ Hr) as (? & E & _); eauto|]. intros size. by apply mq_read_run.
Qed.

(** ** Operations *)

Definition get_mq (n : nat) : M kernel rt_messagequeue := rd k_mqs n.
Definition put_mq (n : nat) (mq : rt_messagequeue) : M kernel unit :=
  modify (fun k => set_k_mqs (<[n := mq]> (k_mqs k)) k).
Definition on_mq {A} (n : nat) (op : mqs A) : M kernel A :=
  mq ← get_mq n;
  '(a, mq') ← liftO (op mq);
  put_mq n mq' ;; mret a.

(** [sizeof(struct rt_mq_message)]. *)
Definition MSG_HDR : Z := 4.

(** The blocks of the memory [msgpool]; their links are not yet set. *)
Definition mq_block (msgpool : list Z) (msg_size : Z) (i : nat) : list Z :=
  take (Z.to_nat msg_size) (drop (Z.to_nat (Z.of_nat i * (msg_size + MSG_HDR) + MSG_HDR)) msgpool).
Definition mq_pool (msgpool : list Z) (msg_size max_msgs flag : Z) : rt_messagequeue :=
  let ids := seq 0 (Z.to_nat max_msgs) in
  RtMessagequeue flag msg_size max_msgs 0 (list_to_map ((fun i => (i, None)) <$> ids))
    (list_to_map ((fun i => (i, mq_block msgpool msg_size i)) <$> ids)) None None None.

Definition mq_setup (n : nat) (msgpool : list Z) (msg_size max_msgs flag : Z) : M kernel unit :=
  put_mq n (mq_pool msgpool msg_size max_msgs flag) ;;
  on_mq n (mq_init_free (Z.to_nat max_msgs)) ;;
  kq (q_init (QMqSend n)).

Definition rt_mq_init (n : nat) (name msgpool : list Z) (msg_size pool_size flag : Z) : M kernel Z :=
  rt_object_init (OMessageQueue n) RT_Object_Class_MessageQueue name ;;
  rt_ipc_object_init (QMqRecv n) ;;
  let msg_size := u16 (RT_ALIGN msg_size) in
  mq_setup n msgpool msg_size (u16 (pool_size / (msg_size + MSG_HDR))) flag ;;
  mret RT_EOK.

Definition rt_mq_detach (n : nat) : M kernel Z :=
  get_mq n ;;
  rt_ipc_list_resume_all (QMqRecv n) ;;
  rt_ipc_list_resume_all (QMqSend n) ;;
  rt_object_detach (OMessageQueue n) ;;
  mret RT_EOK.

(** [malloc] is the address of the object, [pool] the memory of the pool. *)
Definition rt_mq_create (name : list Z) (msg_size max_msgs flag : Z) (malloc : option nat) (pool : option (list Z))
    : M kernel (option nat) :=
  rt_object_allocate RT_Object_Class_MessageQueue name (OMessageQueue <$> malloc) ;;
  match malloc with
  | None => mret None
  | Some n =>
      rt_ipc_object_init (QMqRecv n) ;;
      match pool with
      | None => rt_object_delete (OMessageQueue n) ;; mret None
      | Some msgpool => mq_setup n msgpool (u16 (RT_ALIGN msg_size)) (u16 max_msgs) flag ;; mret (Some n)
      end
  end.

Definition rt_mq_delete (n : nat) : M kernel Z :=
  get_mq n ;;
  rt_ipc_list_resume_all (QMqRecv n) ;;
  rt_ipc_list_resume_all (QMqSend n) ;;
  modify (fun k => set_k_mqs (delete n (k_mqs k)) k) ;;
  rt_object_delete (OMessageQueue n) ;;
  mret RT_EOK.

(** The loop of rt_mq_send_wait up to the next wait, and the send itself. *)
Definition mq_send_loop (n : nat) (buffer : list Z) (timeout : Z) : M kernel (Z + waiting) :=
  msg ← on_mq n mq_alloc;
  match msg with
  | None =>
      t ← self;
      set_thread t (set_th_error RT_EOK) ;;
      if bool_decide (timeout = 0) then mret (inl (- RT_EFULL))
      else
        mq ← get_mq n;
        tick_delta ← on_timers rt_tick_get;
        (ipc_wait (QMqSend n) t (mq_flag mq) timeout ;; on_sched rt_schedule) ;;
        mret (inr (t, timeout, tick_delta))
  | Some msg =>
      on_mq n (set_msg_next msg None) ;;
      on_mq n (mq_fill msg buffer) ;;
      on_mq n (mq_link_tail msg) ;;
      ipc_signal (QMqRecv n) ;;
      mret (inl RT_EOK)
  end.

Definition rt_mq_send_wait (n : nat) (buffer : list Z) (timeout : Z) : M kernel (Z + waiting) :=
  mq ← get_mq n;
  if bool_decide (Z.of_nat (length buffer) > mq_msg_size mq) then mret (inl (- RT_ERROR))
  else if bool_decide (mq_free mq = None) && bool_decide (timeout = 0) then mret (inl (- RT_EFULL))
  else mq_send_loop n buffer timeout.

Definition rt_mq_send_wait_resume (n : nat) (buffer : list Z) (w : waiting) : M kernel (Z + waiting) :=
  let '(t, timeout, tick_delta) := w in
  th ← get_thread t;
  if bool_decide (th_error th <> RT_EOK) then mret (inl (th_error th))
  else
    now ← on_timers rt_tick_get;
    mq_send_loop n buffer (remaining timeout tick_delta now).

Definition rt_mq_send (n : nat) (buffer : list Z) : M kernel (Z + waiting) := rt_mq_send_wait n buffer 0.

Definition rt_mq_urgent (n : nat) (buffer : list Z) : M kernel Z :=
  mq ← get_mq n;
  if bool_decide (Z.of_nat (length buffer) > mq_msg_size mq) then mret (- RT_ERROR)
  else
    msg ← on_mq n mq_alloc;
    match msg with
    | None => mret (- RT_EFULL)
    | Some msg =>
        on_mq n (mq_fill msg buffer) ;;
        on_mq n (mq_link_head msg) ;;
        ipc_signal (QMqRecv n) ;;
        mret RT_EOK
    end.

(** The copied bytes come with the error code. *)
Definition mq_recv_loop (n : nat) (size timeout : Z) : M kernel ((Z * option (list Z)) + waiting) :=
  mq ← get_mq n;
  if bool_decide (mq_entry mq = 0) then
    t ← self;
    set_thread t (set_th_error RT_EOK) ;;
    if bool_decide (timeout = 0) then
      set_thread t (set_th_error (- RT_ETIMEOUT)) ;;
      mret (inl (- RT_ETIMEOUT, None))
    else
      tick_delta ← on_timers rt_tick_get;
      (ipc_wait (QMqRecv n) t (mq_flag mq) timeout ;; on_sched rt_schedule) ;;
      mret (inr (t, timeout, tick_delta))
  else
    msg ← on_mq n mq_take;
    buffer ← on_mq n (mq_read msg size);
    on_mq n (mq_free_block msg) ;;
    ipc_signal (QMqSend n) ;;
    mret (inl (RT_EOK, Some buffer)).

Definition rt_mq_recv (n : nat) (size timeout : Z) : M kernel ((Z * option (list Z)) + waiting) :=
  mq ← get_mq n;
  if bool_decide (mq_entry mq = 0) && bool_decide (timeout = 0) then mret (inl (- RT_ETIMEOUT, None))
  else mq_recv_loop n size timeout.

Definition rt_mq_recv_resume (n : nat) (size : Z) (w : waiting) : M kernel ((Z * option (list Z)) + waiting) :=
  let '(t, timeout, tick_delta) := w in
  th ← get_thread t;
  if bool_decide (th_error th <> RT_EOK) then mret (inl (th_error th, None))
  else
    now ← on_timers rt_tick_get;
    mq_recv_loop n size (remaining timeout tick_delta now).

(** The loop of RT_IPC_CMD_RESET, at most [fuel] messages. *)
Fixpoint mq_reset_loop (fuel : nat) : mqs unit :=
  head ← gets mq_head;
  match head, fuel with
  | None, _ => mret tt
  | Some _, O => ub
  | Some _, S fuel =>
      msg ← mq_unlink;
      mq_free_block msg ;;
      mq_reset_loop fuel
  end.

Definition rt_mq_control (n : nat) (cmd : bool) : M kernel Z :=
  if cmd then
    mq ← get_mq n;
    rt_ipc_list_resume_all (QMqRecv n) ;;
    rt_ipc_list_resume_all (QMqSend n) ;;
    on_mq n (mq_reset_loop (Z.to_nat (mq_max_msgs mq))) ;;
    on_mq n (modify (set_mq_entry 0)) ;;
    on_sched rt_schedule ;;
    mret RT_EOK
  else mret (- RT_ERROR).

(** ** Specification *)

(** The pending messages. *)
Definition mq_holds (mq : rt_messagequeue) (msgs : list (list Z)) : Prop :=
  exists q fr fl, mqrep mq q fr fl /\ Forall2 (fun i d => mq_data mq !! i = Some d) q msgs.

Definition mq_ok (k : kernel) (n : nat) (mq : rt_messagequeue) : Prop :=
  (exists msgs, mq_holds mq msgs) /\ ipc_flag_ok (mq_flag mq) /\
  is_Some (s_queues (k_sched k) !! QMqRecv n) /\ is_Some (s_queues (k_sched k) !! QMqSend n).
Definition mq_inv (k : kernel) : Prop := forall n mq, k_mqs k !! n = Some mq -> mq_ok k n mq.

Definition mq_put (n : nat) (mq : rt_messagequeue) (k : kernel) : kernel := set_k_mqs (<[n := mq]> (k_mqs k)) k.

Lemma get_mq_run k n mq : k_mqs k !! n = Some mq -> get_mq n k = Some (mq, k).
Proof. apply rd_run. Qed.
Lemma mq_put_lookup n mq k : k_mqs (mq_put n mq k) !! n = Some mq.
Proof. apply lookup_insert_eq. Qed.
Lemma mq_put_put n mq mq' k : mq_put n mq (mq_put n mq' k) = mq_put n mq k.
Proof. unfold mq_put. cbn. by rewrite insert_insert_eq. Qed.
Lemma mq_put_id n mq k : k_mqs k !! n = Some mq -> mq_put n mq k = k.
Proof. intros E. unfold mq_put. rewrite insert_id by done. by destruct k. Qed.
Lemma on_mq_run {A} n (op : mqs A) mq mq' a k :
  k_mqs k !! n = Some mq -> op mq = Some (a, mq') -> on_mq n op k = Some (a, mq_put n mq' k).
Proof. intros E Eo. unfold on_mq. munfold. rewrite (get_mq_run _ _ _ E), Eo. done. Qed.
Lemma kinv_mq_put n mq k : kinv None k -> kinv None (mq_put n mq k).
Proof. intros []. by split. Qed.

Lemma mq_inv_upd k k' n mq mq0 :
  mq_inv k -> k_mqs k !! n = Some mq0 -> k_mqs k' = <[n := mq]> (k_mqs k) -> (exists msgs, mq_holds mq msgs) ->
  mq_flag mq = mq_flag mq0 ->
  (forall h, is_wait h -> is_Some (s_queues (k_sched k) !! h) -> is_Some (s_queues (k_sched k') !! h)) -> mq_inv k'.
Proof.
  intros Hi E0 Es Hm Hf Hq m mqm E. rewrite Es, lookup_insert in E. case_decide as Hd.
  - subst m. injection E as <-. destruct (Hi n mq0 E0) as (_ & Hf0 & H1 & H2). rewrite <- Hf in Hf0. split_and!; try done; by apply Hq.
  - destruct (Hi m mqm E) as (? & ? & H1 & H2). split_and!; try done; by apply Hq.
Qed.

Lemma data_frame mq mq' q (msgs : list (list Z)) :
  (forall i, i ∈ q -> mq_data mq' !! i = mq_data mq !! i) ->
  Forall2 (fun i d => mq_data mq !! i = Some d) q msgs -> Forall2 (fun i d => mq_data mq' !! i = Some d) q msgs.
Proof.
  intros He H. induction H as [|i d q msgs Hd _ IH]; constructor; [rewrite He; set_solver|]. apply IH. set_solver.
Qed.

(** The fields no operation changes. *)
Definition mq_static (mq mq' : rt_messagequeue) : Prop :=
  mq_msg_size mq' = mq_msg_size mq /\ mq_max_msgs mq' = mq_max_msgs mq /\ mq_flag mq' = mq_flag mq.
Lemma same_static mq mq' : mq_same mq mq' -> mq_static mq mq'.
Proof. intros (_ & ? & ? & ?). done. Qed.
#[global] Instance mq_static_trans : Transitive mq_static.
Proof. intros x y z (H1 & H2 & H3) (G1 & G2 & G3). split_and!; congruence. Qed.

(** A block is claimed and filled. *)
Lemma mq_claim_fill mq mq1 q msg fr fl buffer msgs :
  mqrep mq q (msg :: fr) fl -> mqrep mq1 q fr (msg :: fl) -> mq_same mq mq1 ->
  Z.of_nat (length buffer) <= mq_msg_size mq -> Forall2 (fun i d => mq_data mq !! i = Some d) q msgs ->
  exists mq2 rest, mq_fill msg buffer mq1 = Some (tt, mq2) /\ mqrep mq2 q fr (msg :: fl) /\ mq_next mq2 = mq_next mq1 /\
    mq_static mq mq2 /\ Z.of_nat (length (buffer ++ rest)) = mq_msg_size mq /\
    mq_data mq2 !! msg = Some (buffer ++ rest) /\ Forall2 (fun i d => mq_data mq2 !! i = Some d) q msgs.
Proof.
  intros Hr Hr1 Hsame Hlen Hd. pose proof (same_static _ _ Hsame) as (Hsz & Hmx & Hfl).
  destruct (mq_fill_ok _ _ _ _ msg buffer Hr1 ltac:(set_solver)) as (mq2 & old & E & Hr2 & Ed & En & Hsz2 & Hmx2 & Hfl2); [lia|].
  exists mq2, (drop (length buffer) old). split_and!; try done; try (split_and!; congruence).
  - destruct (mr_data _ _ _ _ Hr2 msg ltac:(set_solver)) as (d & Ed2 & Hl). rewrite Ed, lookup_insert_eq in Ed2.
    injection Ed2 as <-. lia.
  - by rewrite Ed, lookup_insert_eq.
  - apply (data_frame mq); [|done]. intros i Hi. rewrite Ed, (proj1 Hsame). apply lookup_insert_ne.
    eapply mqrep_flight_ne; [done|]. set_solver.
Qed.

Lemma mq_push_ok mq q msg fr fl buffer msgs :
  mqrep mq q (msg :: fr) fl -> Z.of_nat (length buffer) <= mq_msg_size mq ->
  Forall2 (fun i d => mq_data mq !! i = Some d) q msgs ->
  exists mq1 mq2 mq3 mq4 rest, mq_alloc mq = Some (Some msg, mq1) /\ set_msg_next msg None mq1 = Some (tt, mq2) /\
    mq_fill msg buffer mq2 = Some (tt, mq3) /\ mq_link_tail msg mq3 = Some (tt, mq4) /\
    mqrep mq4 (q ++ [msg]) fr fl /\ Forall2 (fun i d => mq_data mq4 !! i = Some d) (q ++ [msg]) (msgs ++ [buffer ++ rest]) /\
    Z.of_nat (length (buffer ++ rest)) = mq_msg_size mq /\ mq_static mq mq4.
Proof.
  intros Hr Hlen Hd. destruct (mq_alloc_ok _ _ _ _ _ Hr) as (mq1 & E1 & Hr1 & [Hs1 _]).
  destruct (mq_set_next_ok _ _ _ _ msg None Hr1 ltac:(set_solver)) as (mq2 & E2 & Hr2 & Hs2 & Hn & _).
  assert (Hs : mq_same mq mq2) by (destruct Hs1 as (? & ? & ? & ?), Hs2 as (? & ? & ? & ?); split_and!; congruence).
  destruct (mq_claim_fill mq mq2 q msg fr fl buffer msgs) as (mq3 & rest & E3 & Hr3 & En3 & Hst & Hl & Hm & Hd3); try done.
  destruct (mq_link_tail_ok _ _ _ _ _ Hr3) as (mq4 & E4 & Hr4 & [Hs4 _]); [by rewrite En3|].
  exists mq1, mq2, mq3, mq4, rest. split_and!; try done.
  - apply Forall2_app; [|constructor; [|constructor]]; rewrite (proj1 Hs4); done.
  - etrans; [done|]. by apply same_static.
Qed.

Lemma mq_push_front_ok mq q msg fr fl buffer msgs :
  mqrep mq q (msg :: fr) fl -> Z.of_nat (length buffer) <= mq_msg_size mq ->
  Forall2 (fun i d => mq_data mq !! i = Some d) q msgs ->
  exists mq1 mq2 mq3 rest, mq_alloc mq = Some (Some msg, mq1) /\
    mq_fill msg buffer mq1 = Some (tt, mq2) /\ mq_link_head msg mq2 = Some (tt, mq3) /\
    mqrep mq3 (msg :: q) fr fl /\ Forall2 (fun i d => mq_data mq3 !! i = Some d) (msg :: q) ((buffer ++ rest) :: msgs) /\
    Z.of_nat (length (buffer ++ rest)) = mq_msg_size mq /\ mq_static mq mq3.
Proof.
  intros Hr Hlen Hd. destruct (mq_alloc_ok _ _ _ _ _ Hr) as (mq1 & E1 & Hr1 & [Hs1 _]).
  destruct (mq_claim_fill mq mq1 q msg fr fl buffer msgs) as (mq2 & rest & E2 & Hr2 & En2 & Hst & Hl & Hm & Hd2); try done.
  destruct (mq_link_head_ok _ _ _ _ _ Hr2) as (mq3 & E3 & Hr3 & [Hs3 _]).
  exists mq1, mq2, mq3, rest. split_and!; try done.
  - constructor; rewrite (proj1 Hs3); done.
  - etrans; [done|]. by apply same_static.
Qed.

Lemma mq_pop_ok mq msg q fr fl d msgs size :
  mqrep mq (msg :: q) fr fl -> Forall2 (fun i d => mq_data mq !! i = Some d) (msg :: q) (d :: msgs) ->
  exists mq1 mq2, mq_take mq = Some (msg, mq1) /\
    mq_read msg size mq1 = Some (take (Z.to_nat (Z.min size (mq_msg_size mq))) d, mq1) /\
    mq_free_block msg mq1 = Some (tt, mq2) /\ mqrep mq2 q (msg :: fr) fl /\
    Forall2 (fun i d => mq_data mq2 !! i = Some d) q msgs /\ mq_static mq mq2.
Proof.
  intros Hr [Hd Hds]%Forall2_cons. destruct (mq_take_ok _ _ _ _ _ Hr) as (mq1 & E1 & Hr1 & [Hs1 _]).
  destruct (mq_free_block_ok _ _ _ _ _ Hr1) as (mq2 & E2 & Hr2 & [Hs2 _]). exists mq1, mq2. split_and!; try done.
  - destruct Hs1 as (Ed & <- & _). apply mq_read_run. by rewrite Ed.
  - rewrite (proj1 Hs2), (proj1 Hs1). done.
  - etrans; by apply same_static.
Qed.

Lemma mq_free_none mq q fr fl : mqrep mq q fr fl -> mq_free mq = None <-> fr = [].
Proof. intros Hr. pose proof (mr_free _ _ _ _ Hr) as H. destruct fr; cbn in H; [done|]. destruct H as [-> _]. done. Qed.
Lemma mq_empty mq q fr fl (msgs : list (list Z)) :
  mqrep mq q fr fl -> Forall2 (fun i d => mq_data mq !! i = Some d) q msgs -> mq_entry mq = 0 <-> msgs = [].
Proof.
  intros Hr Hd. rewrite (mr_entry _ _ _ _ Hr). apply Forall2_length in Hd. destruct q, msgs; cbn in *; split; intros; done || lia.
Qed.

(** The signal after a message or a block has been linked. *)
Lemma mq_signal_ok k n mq mq' h l t :
  kinv None k -> mq_inv k -> k_mqs k !! n = Some mq -> (exists msgs, mq_holds mq' msgs) -> mq_flag mq' = mq_flag mq ->
  is_wait h -> s_queues (k_sched k) !! h = Some l -> s_current (k_sched k) = Some t ->
  exists k', ipc_signal h (mq_put n mq' k) = Some (tt, k') /\ kinv None k' /\ mq_inv k' /\
    k_mqs k' = <[n := mq']> (k_mqs k) /\ signalled h l (mq_put n mq' k) k'.
Proof.
  intros Hk Hi En Hm Hf Hw El Hc.
  destruct (signal_ok (mq_put n mq' k) h l t) as (k' & E' & Hsig & Hk'); [by apply kinv_mq_put|done..|].
  assert (Hkm : k_mqs k' = <[n := mq']> (k_mqs k)) by (by rewrite (ik_mqs _ _ (signalled_keep _ _ _ _ Hsig))).
  exists k'. split_and!; try done. apply (mq_inv_upd k _ n mq' mq); try done.
  intros h' Hw' Hs. by apply (signalled_queue_dom _ _ _ _ h' Hsig El).
Qed.

(** Only the error number of a thread changes, or it blocks. *)
Lemma mq_inv_error k n mq t e : mq_inv k -> k_mqs k !! n = Some mq -> mq_inv (with_error t e k).
Proof.
  intros Hi En. apply (mq_inv_upd k _ n mq mq); try done; [|apply (Hi n mq En)|intros h _; by rewrite with_error_queues].
  by rewrite (ik_mqs _ _ (with_error_keep t e k)), insert_id.
Qed.
Lemma mq_wait_ok k n mq h t timeout l :
  kinv None k -> mq_inv k -> k_mqs k !! n = Some mq -> running k t -> is_wait h ->
  s_queues (k_sched k) !! h = Some l -> ipc_flag_ok (mq_flag mq) -> timeout < 2 ^ 31 ->
  exists k', (ipc_wait h t (mq_flag mq) timeout ;; on_sched rt_schedule) (with_error t RT_EOK k) = Some (tt, k') /\
    kinv None k' /\ mq_inv k' /\ blocked h t (mq_flag mq) timeout (with_error t RT_EOK k) k'.
Proof.
  intros Hk Hi En Hr Hw El Hf Ht.
  destruct (block_running (with_error t RT_EOK k) h t (mq_flag mq) timeout l) as (k' & E & Hb);
    [by apply kinv_with_error|by apply running_with_error|done|by rewrite with_error_queues|done..|].
  exists k'. split_and!; try done; [apply (bl_kinv _ _ _ _ _ _ Hb)|].
  apply (mq_inv_upd (with_error t RT_EOK k) _ n mq mq); try done.
  - by apply (mq_inv_error k n mq).
  - by rewrite (ik_mqs _ _ (with_error_keep t RT_EOK k)).
  - rewrite (ik_mqs _ _ (bl_keep _ _ _ _ _ _ Hb)), insert_id; [done|]. by rewrite (ik_mqs _ _ (with_error_keep t RT_EOK k)).
  - apply (Hi n mq En).
  - intros h' Hw' Hs. by apply (blocked_queue_dom _ _ _ _ _ _ h' Hb).
Qed.

(** A message was stored: appended or put in front. *)
Record mq_stored (n : nat) (mq : rt_messagequeue) (ext : list (list Z) -> list Z -> list (list Z)) (buffer : list Z)
    (msgs : list (list Z)) (lr : list nat) (k k' : kernel) : Prop := {
  ms_queue : exists mq' rest, k_mqs k' = <[n := mq']> (k_mqs k) /\ mq_holds mq' (ext msgs (buffer ++ rest)) /\
    Z.of_nat (length (buffer ++ rest)) = mq_msg_size mq /\ mq_static mq mq' /\
    signalled (QMqRecv n) lr (mq_put n mq' k) k';
}.
Definition snoc (l : list (list Z)) (d : list Z) : list (list Z) := l ++ [d].
Definition front (l : list (list Z)) (d : list Z) : list (list Z) := d :: l.

Lemma mq_send_loop_ok k n mq t buffer timeout msgs lr :
  kinv None k -> mq_inv k -> k_mqs k !! n = Some mq -> running k t -> timeout < 2 ^ 31 ->
  Z.of_nat (length buffer) <= mq_msg_size mq -> mq_holds mq msgs ->
  s_queues (k_sched k) !! QMqRecv n = Some lr ->
  exists r k', mq_send_loop n buffer timeout k = Some (r, k') /\ kinv None k' /\ mq_inv k' /\
    (mq_free mq <> None /\ r = inl RT_EOK /\ mq_stored n mq snoc buffer msgs lr k k' \/
     mq_free mq = None /\ timeout = 0 /\ r = inl (- RT_EFULL) /\ k' = with_error t RT_EOK k \/
     mq_free mq = None /\ timeout <> 0 /\ r = inr (t, timeout, t_tick (k_timers k)) /\
       blocked (QMqSend n) t (mq_flag mq) timeout (with_error t RT_EOK k) k').
Proof.
  intros Hk Hi En Hr Ht Hlen (q & fr & fl & Hrep & Hd) Elr. destruct (Hi n mq En) as (_ & Hf & _ & [ls Els]).
  destruct (proj2 Hr) as (th & Et & _). pose proof (mq_free_none _ _ _ _ Hrep) as Hfree.
  unfold mq_send_loop. munfold. destruct fr as [|msg fr].
  - rewrite (on_mq_run _ _ _ _ _ _ En (mq_alloc_full _ _ _ Hrep)), (mq_put_id _ _ _ En).
    rewrite (self_run _ _ (proj1 Hr)), (set_error_run t RT_EOK k) by (by eexists). case_bool_decide as Hz.
    + do 2 eexists. split; [done|]. split; [by apply kinv_with_error|]. split; [by apply (mq_inv_error k n mq)|].
      right; left. split; [by apply Hfree|done].
    + rewrite (get_mq_run (with_error t RT_EOK k) n mq) by (by rewrite (ik_mqs _ _ (with_error_keep t RT_EOK k))).
      unfold rt_tick_get. munfold. rewrite (on_timers_run _ (with_error t RT_EOK k) _ _ eq_refl), set_timers_id.
      destruct (mq_wait_ok k n mq (QMqSend n) t timeout ls) as (k' & E & Hk' & Hi' & Hb); try done.
      munfold in E. rewrite E. do 2 eexists. split; [done|]. split; [done|]. split; [done|].
      right; right. rewrite with_error_timers. split; [by apply Hfree|done].
  - destruct (mq_push_ok _ _ _ _ _ buffer msgs Hrep Hlen Hd) as (m1 & m2 & m3 & m4 & rest & E1 & E2 & E3 & E4 & Hr4 & Hd4 & Hl & Hst).
    rewrite (on_mq_run _ _ _ _ _ _ En E1).
    rewrite (on_mq_run _ _ _ _ _ _ (mq_put_lookup _ _ _) E2), (on_mq_run _ _ _ _ _ _ (mq_put_lookup _ _ _) E3),
      (on_mq_run _ _ _ _ _ _ (mq_put_lookup _ _ _) E4), !mq_put_put.
    assert (Hh : mq_holds m4 (snoc msgs (buffer ++ rest))) by (by exists (q ++ [msg]), fr, fl).
    destruct (mq_signal_ok k n mq m4 (QMqRecv n) lr t) as (k' & E & Hk' & Hi' & Hm & Hsig); try done; [by eexists|apply Hst|apply Hr|].
    rewrite E. do 2 eexists. split; [done|]. split; [done|]. split; [done|]. left. split; [by rewrite Hfree|]. split; [done|].
    split. by exists m4, rest.
Qed.

Definition mq_urgent_post (n : nat) (mq : rt_messagequeue) (buffer : list Z) (msgs : list (list Z)) (lr : list nat) (k : kernel) (r : Z) (k' : kernel) : Prop :=
  Z.of_nat (length buffer) > mq_msg_size mq /\ r = - RT_ERROR /\ k' = k \/
   Z.of_nat (length buffer) <= mq_msg_size mq /\ mq_free mq = None /\ r = - RT_EFULL /\ k' = k \/
   Z.of_nat (length buffer) <= mq_msg_size mq /\ mq_free mq <> None /\ r = RT_EOK /\ mq_stored n mq front buffer msgs lr k k'.

(** rt_mq_urgent: a message longer than a block is refused with -RT_ERROR, a full
    queue with -RT_EFULL, both without effect; otherwise the message becomes the first
    of the queue, every other message keeps its content and place behind it, and the
    first waiting receiver is woken. *)
Lemma mq_urgent_ok k n mq t buffer msgs lr :
  kinv None k -> mq_inv k -> k_mqs k !! n = Some mq -> s_current (k_sched k) = Some t ->
  mq_holds mq msgs -> s_queues (k_sched k) !! QMqRecv n = Some lr ->
  exists r k', rt_mq_urgent n buffer k = Some (r, k') /\ kinv None k' /\ mq_inv k' /\
    mq_urgent_post n mq buffer msgs lr k r k'.
Proof.
  unfold mq_urgent_post.
  intros Hk Hi En Hc (q & fr & fl & Hrep & Hd) Elr. pose proof (mq_free_none _ _ _ _ Hrep) as Hfree.
  unfold rt_mq_urgent. munfold. rewrite (get_mq_run _ _ _ En). case_bool_decide as Hlen.
  { do 2 eexists. split; [done|]. split; [done|]. split; [done|]. by left. }
  destruct fr as [|msg fr].
  - rewrite (on_mq_run _ _ _ _ _ _ En (mq_alloc_full _ _ _ Hrep)), (mq_put_id _ _ _ En).
    do 2 eexists. split; [done|]. split; [done|]. split; [done|]. right; left. split; [lia|]. split; [by apply Hfree|done].
  - destruct (mq_push_front_ok _ _ _ _ _ buffer msgs Hrep ltac:(lia) Hd) as (m1 & m2 & m3 & rest & E1 & E2 & E3 & Hr3 & Hd3 & Hl & Hst).
    rewrite (on_mq_run _ _ _ _ _ _ En E1), (on_mq_run _ _ _ _ _ _ (mq_put_lookup _ _ _) E2),
      (on_mq_run _ _ _ _ _ _ (mq_put_lookup _ _ _) E3), !mq_put_put.
    assert (Hh : mq_holds m3 (front msgs (buffer ++ rest))) by (by exists (msg :: q), fr, fl).
    destruct (mq_signal_ok k n mq m3 (QMqRecv n) lr t) as (k' & E & Hk' & Hi' & Hm & Hsig); try done; [by eexists|apply Hst|].
    rewrite E. do 2 eexists. split; [done|]. split; [done|]. split; [done|]. right; right.
    split; [lia|]. split; [by rewrite Hfree|]. split; [done|]. split. by exists m3, rest.
Qed.

Lemma mq_recv_loop_ok k n mq t size timeout msgs ls :
  kinv None k -> mq_inv k -> k_mqs k !! n = Some mq -> running k t -> timeout < 2 ^ 31 -> mq_holds mq msgs ->
  s_queues (k_sched k) !! QMqSend n = Some ls ->
  exists r k', mq_recv_loop n size timeout k = Some (r, k') /\ kinv None k' /\ mq_inv k' /\
    ((exists d l mq', msgs = d :: l /\ r = inl (RT_EOK, Some (take (Z.to_nat (Z.min size (mq_msg_size mq))) d)) /\
        mq_holds mq' l /\ mq_static mq mq' /\ k_mqs k' = <[n := mq']> (k_mqs k) /\ signalled (QMqSend n) ls (mq_put n mq' k) k') \/
     msgs = [] /\ timeout = 0 /\ r = inl (- RT_ETIMEOUT, None) /\
       k' = with_error t (- RT_ETIMEOUT) (with_error t RT_EOK k) \/
     msgs = [] /\ timeout <> 0 /\ r = inr (t, timeout, t_tick (k_timers k)) /\
       blocked (QMqRecv n) t (mq_flag mq) timeout (with_error t RT_EOK k) k').
Proof.
  intros Hk Hi En Hr Ht (q & fr & fl & Hrep & Hd) Els. destruct (Hi n mq En) as (_ & Hf & [lr Elr] & _).
  destruct (proj2 Hr) as (th & Et & _). pose proof (mq_empty _ _ _ _ _ Hrep Hd) as Hempty.
  unfold mq_recv_loop. munfold. rewrite (get_mq_run _ _ _ En). case_bool_decide as Hz.
  - apply Hempty in Hz as ->. rewrite (self_run _ _ (proj1 Hr)), (set_error_run t RT_EOK k) by (by eexists).
    case_bool_decide as Hz.
    + rewrite (set_error_run t _ (with_error t RT_EOK k)) by (rewrite with_error_thread, decide_True, Et; by eexists).
      do 2 eexists. split; [done|]. split; [by do 2 apply kinv_with_error|]. split; [|by right; left].
      apply (mq_inv_error _ n mq); [by apply (mq_inv_error k n mq)|]. by rewrite (ik_mqs _ _ (with_error_keep t RT_EOK k)).
    + unfold rt_tick_get. munfold. rewrite (on_timers_run _ (with_error t RT_EOK k) _ _ eq_refl), set_timers_id.
      destruct (mq_wait_ok k n mq (QMqRecv n) t timeout lr) as (k' & E & Hk' & Hi' & Hb); try done.
      munfold in E. rewrite E. do 2 eexists. split; [done|]. split; [done|]. split; [done|].
      right; right. by rewrite with_error_timers.
  - destruct msgs as [|d msgs]; [by destruct Hz; apply Hempty|]. pose proof Hd as (msg & q' & _ & _ & ->)%Forall2_cons_inv_r.
    destruct (mq_pop_ok _ _ _ _ _ _ _ size Hrep Hd) as (m1 & m2 & E1 & E2 & E3 & Hr3 & Hd3 & Hst).
    rewrite (on_mq_run _ _ _ _ _ _ En E1), (on_mq_run _ _ _ _ _ _ (mq_put_lookup _ _ _) E2),
      (on_mq_run _ _ _ _ _ _ (mq_put_lookup _ _ _) E3), !mq_put_put.
    assert (Hh : mq_holds m2 msgs) by (by exists q', (msg :: fr), fl).
    destruct (mq_signal_ok k n mq m2 (QMqSend n) ls t) as (k' & E & Hk' & Hi' & Hm & Hsig); try done; [by eexists|apply Hst|apply Hr|].
    rewrite E. do 2 eexists. split; [done|]. split; [done|]. split; [done|]. left. by exists d, msgs, m2.
Qed.

(** ** Reset and initialisation *)

(** Neither unlinking nor freeing a block looks at the counter. *)
Lemma unlink_entry e mq : mq_unlink (set_mq_entry e mq) = prod_map id (set_mq_entry e) <$> mq_unlink mq.
Proof.
  destruct mq as [f ms mx en nx dt hd tl fr]. unfold mq_unlink, msg_next. munfold. cbn. destruct hd as [h|]; cbn; [|done].
  destruct (nx !! h); cbn; [|done]. by case_bool_decide.
Qed.
Lemma free_block_entry e msg mq : mq_free_block msg (set_mq_entry e mq) = prod_map id (set_mq_entry e) <$> mq_free_block msg mq.
Proof.
  destruct mq as [f ms mx en nx dt hd tl fr]. unfold mq_free_block, set_msg_next, msg_next. munfold. cbn. by destruct (nx !! msg).
Qed.

Lemma mq_reset_loop_ok fuel mq q fr fl :
  mqrep (set_mq_entry (Z.of_nat (length q)) mq) q fr fl -> (length q <= fuel)%nat ->
  exists mq', mq_reset_loop fuel mq = Some (tt, mq') /\ mqrep (set_mq_entry 0 mq') [] (rev q ++ fr) fl /\ mq_static mq mq'.
Proof.
  revert mq q fr. induction fuel as [|fuel IH]; intros mq q fr Hr Hl; (destruct q as [|msg q];
    [exists mq; split; [cbn; munfold; by rewrite (mr_queue _ _ _ _ Hr : mq_head mq = None)|done]|]); [cbn in Hl; lia|].
  destruct (chain_head _ _ _ _ (mr_queue _ _ _ _ Hr)) as (o' & Eh & _). cbn in Eh.
  destruct (mq_take_ok _ _ _ _ _ Hr) as (m1 & E1 & Hr1 & [Hs1 _]).
  destruct (mq_free_block_ok _ _ _ _ _ Hr1) as (m2 & E2 & Hr2 & [Hs2 _]).
  unfold mq_take in E1. munfold in E1. rewrite unlink_entry in E1. cbn. munfold. rewrite Eh.
  destruct (mq_unlink mq) as [[msg' mu]|] eqn:Eu; [|done]. cbn in E1. injection E1 as -> <-.
  set (e := u16 _) in *. replace (set_mq_entry e _) with (set_mq_entry e mu) in E2 by done.
  rewrite free_block_entry in E2. destruct (mq_free_block msg mu) as [[[] mf]|] eqn:Ef; [|done].
  cbn in E2. injection E2 as <-. destruct (IH mf q (msg :: fr)) as (mq' & E & Hr' & Hst); [|cbn in Hl; lia|].
  - pose proof (mr_entry _ _ _ _ Hr2) as He. cbn in He. by rewrite <- He.
  - exists mq'. rewrite E. split; [done|]. split; [cbn; by rewrite <- app_assoc|].
    etrans; [|done]. apply same_static in Hs1, Hs2. transitivity (set_mq_entry e mu); done.
Qed.

Lemma mq_static_refl mq : mq_static mq mq.
Proof. done. Qed.

Lemma pool_lookup {A} (f : nat -> A) n i :
  (i < n)%nat -> (list_to_map ((fun i => (i, f i)) <$> seq 0 n) : gmap nat A) !! i = Some (f i).
Proof.
  intros Hi. apply elem_of_list_to_map.
  - rewrite <- list_fmap_compose. erewrite list_fmap_ext; [apply NoDup_fmap_2; [|apply NoDup_seq]|intros ? ? _; cbn; done].
    intros x y. done.
  - apply list_elem_of_fmap. exists i. split; [done|]. apply elem_of_seq. lia.
Qed.

(** An initialised queue: every block is free. *)
Lemma mq_pool_ok msgpool msg_size max_msgs flag :
  0 <= msg_size -> 0 <= max_msgs < 2 ^ 16 -> max_msgs * (msg_size + MSG_HDR) <= Z.of_nat (length msgpool) ->
  exists mq, mq_init_free (Z.to_nat max_msgs) (mq_pool msgpool msg_size max_msgs flag) = Some (tt, mq) /\
    mqrep mq [] (rev (seq 0 (Z.to_nat max_msgs))) [] /\ mq_static (mq_pool msgpool msg_size max_msgs flag) mq.
Proof.
  intros Hs Hm Hl. set (mq0 := mq_pool _ _ _ _). set (n := Z.to_nat max_msgs).
  destruct (mq_init_free_ok mq0 n) as (mq & E & Hch & Hdom & Hsame & Hh & Ht & He); [|done|].
  { intros i Hi. cbn. rewrite (pool_lookup (fun _ => None)) by done. by eexists. }
  exists mq. split; [done|]. split; [|by apply same_static]. destruct Hsame as (Ed & Esz & Emx & _).
  assert (Hin : forall i, i ∈ [] ++ rev (seq 0 n) ++ [] -> (i < n)%nat).
  { intros i. cbn. rewrite app_nil_r. intros Hi%list_elem_of_In. apply in_rev, in_seq in Hi. lia. }
  split; try done; cbn.
  - rewrite app_nil_r. rewrite <- (Permutation_rev (seq 0 n)). apply NoDup_seq.
  - intros i Hi. by apply not_elem_of_nil in Hi.
  - rewrite app_nil_r, length_rev, length_seq. subst n. rewrite Emx. cbn. lia.
  - intros i Hi. apply Hin in Hi. exists (mq_block msgpool msg_size i). rewrite Ed. cbn. fold n.
    split; [by apply (pool_lookup (mq_block msgpool msg_size))|]. rewrite Esz. cbn.
    unfold mq_block, MSG_HDR in *. rewrite length_take, length_drop. nia.
Qed.

(** Rt_mq_control(RT_IPC_CMD_RESET): the loop over the pending messages terminates
    within max_msgs turns, the queue is empty and its blocks are free again, and nobody
    waits on it any more. *)
Theorem mq_reset_correct k n mq lr ls c :
  kinv None k -> mq_inv k -> k_mqs k !! n = Some mq -> s_queues (k_sched k) !! QMqRecv n = Some lr ->
  s_queues (k_sched k) !! QMqSend n = Some ls -> s_current (k_sched k) = Some c ->
  exists mq' k', rt_mq_control n true k = Some (RT_EOK, k') /\ kinv None k' /\
    k_mqs k' = <[n := mq']> (k_mqs k) /\ mq_holds mq' [] /\ mq_static mq mq' /\
    s_queues (k_sched k') !! QMqRecv n = Some [] /\ s_queues (k_sched k') !! QMqSend n = Some [].
Proof.
  intros Hk Hi En Er Es Hc. destruct (Hi n mq En) as ((msgs & q & fr & fl & Hrep & Hd) & _).
  destruct (ipc_resume_all_ok (QMqRecv n) lr k Hk ltac:(done) Er) as (k1 & E1 & Hk1 & Hw1).
  pose proof Hw1 as (Hik1 & Hc1 & _).
  assert (Es1 : s_queues (k_sched k1) !! QMqSend n = Some ls).
  { rewrite <- Es. apply (woken_all_other (QMqRecv n) _ lr k); try done. apply (ki_sched _ _ Hk). }
  destruct (ipc_resume_all_ok (QMqSend n) ls k1 Hk1 ltac:(done) Es1) as (k2 & E2 & Hk2 & Hw2).
  pose proof Hw2 as (Hik2 & Hc2 & _).
  assert (En2 : k_mqs k2 !! n = Some mq) by (by rewrite (ik_mqs _ _ Hik2), (ik_mqs _ _ Hik1)).
  destruct (mq_reset_loop_ok (Z.to_nat (mq_max_msgs mq)) mq q fr fl) as (mq1 & E3 & Hr3 & Hst).
  { destruct mq; cbn in *. pose proof (mr_entry _ _ _ _ Hrep) as He. cbn in He. by rewrite He in Hrep. }
  { pose proof (mr_max _ _ _ _ Hrep) as [He _]. rewrite !length_app in He. lia. }
  set (mq' := set_mq_entry 0 mq1) in *. set (k3 := mq_put n mq' k2).
  destruct (kschedule_ok k3 c) as (s' & E' & Hk' & (Hs' & Hf' & _)); [by apply kinv_mq_put|cbn; congruence|].
  assert (Hqs : forall h, is_wait h -> s_queues s' !! h = s_queues (k_sched k2) !! h) by (intros h; by apply wait_frame).
  exists mq', (set_k_sched s' k3). split_and!; try done.
  - unfold rt_mq_control. munfold. rewrite (get_mq_run _ _ _ En), E1, E2, (on_mq_run _ _ _ _ _ _ En2 E3).
    rewrite (on_mq_run _ _ _ _ _ _ (mq_put_lookup _ _ _) eq_refl), mq_put_put. fold mq' k3. by rewrite E'.
  - cbn. by rewrite (ik_mqs _ _ Hik2), (ik_mqs _ _ Hik1).
  - exists [], (rev q ++ fr), fl. by split.
  - cbn. rewrite Hqs by done. rewrite (woken_all_other (QMqSend n) _ ls k1); try done; [|apply (ki_sched _ _ Hk1)].
    by apply (woken_all_queue _ lr k).
  - cbn. rewrite Hqs by done. by apply (woken_all_queue _ ls k1).
Qed.

(** ** Properties *)

(** Sequences of sections with the events they perform. *)
Inductive mq_run : mq_state -> list mq_event -> mq_state -> Prop :=
| run_nil s : mq_run s [] s
| run_tau s s1 s2 evs : mq_step s None s1 -> mq_run s1 evs s2 -> mq_run s evs s2
| run_event s s1 s2 ev evs : mq_step s (Some ev) s1 -> mq_run s1 evs s2 -> mq_run s (ev :: evs) s2.
Inductive fifo_run : list (list Z) -> list mq_event -> list (list Z) -> Prop :=
| fifo_nil l : fifo_run l [] l
| fifo_event l l1 l2 ev evs : fifo_step l (Some ev) l1 -> fifo_run l1 evs l2 -> fifo_run l (ev :: evs) l2.

Lemma mq_run_sim s evs s' l : mq_run s evs s' -> mq_sim s l -> exists l', fifo_run l evs l' /\ mq_sim s' l'.
Proof.
  intros Hr. revert l. induction Hr as [s|s s1 s2 evs Hs _ IH|s s1 s2 ev evs Hs _ IH]; intros l Hl.
  - exists l. by split; [constructor|].
  - destruct (mq_sim_step _ _ _ _ Hl Hs) as (l1 & Hf & Hl1). inversion Hf; subst. by apply IH.
  - destruct (mq_sim_step _ _ _ _ Hl Hs) as (l1 & Hf & Hl1). destruct (IH l1 Hl1) as (l' & Hf' & Hl').
    exists l'. split; [by apply (fifo_event _ l1)|done].
Qed.

(** C4: however the sections of senders and receivers interleave, a message queue is a
    FIFO queue with urgent messages at the front.  Starting from a freshly initialised
    pool, every sequence of sections is a run of the specification; no block is lost,
    shared or linked twice; and in every state reached each section that may come next
    is defined, a receiver in particular reads back the message that was sent. *)
Theorem mq_interleaving_refines msgpool msg_size max_msgs flag mq evs s :
  0 <= msg_size -> 0 <= max_msgs < 2 ^ 16 -> max_msgs * (msg_size + MSG_HDR) <= Z.of_nat (length msgpool) ->
  mq_init_free (Z.to_nat max_msgs) (mq_pool msgpool msg_size max_msgs flag) = Some (tt, mq) ->
  mq_run (mq, []) evs s -> exists l, fifo_run [] evs l /\ mq_sim s l /\ mq_safe s.
Proof.
  intros Hs Hm Hl E Hr. destruct (mq_pool_ok msgpool msg_size max_msgs flag Hs Hm Hl) as (mq' & E' & Hrep & _).
  rewrite E in E'. injection E' as <-.
  assert (H0 : mq_sim (mq, []) []) by (exists [], (rev (seq 0 (Z.to_nat max_msgs))); by split_and!; [|constructor..]).
  destruct (mq_run_sim _ _ _ _ Hr H0) as (l & Hf & Hsim). exists l. split_and!; try done. by apply (mq_sim_safe s l).
Qed.

Definition mq_send_post (n : nat) (mq : rt_messagequeue) (t : nat) (buffer : list Z) (timeout : Z) (msgs : list (list Z)) (lr : list nat) (k : kernel) (r : Z + waiting) (k' : kernel) : Prop :=
  Z.of_nat (length buffer) > mq_msg_size mq /\ r = inl (- RT_ERROR) /\ k' = k \/
   Z.of_nat (length buffer) <= mq_msg_size mq /\
    (mq_free mq <> None /\ r = inl RT_EOK /\ mq_stored n mq snoc buffer msgs lr k k' \/
     mq_free mq = None /\ timeout = 0 /\ r = inl (- RT_EFULL) /\ k' = k \/
     mq_free mq = None /\ timeout <> 0 /\ r = inr (t, timeout, t_tick (k_timers k)) /\
       blocked (QMqSend n) t (mq_flag mq) timeout (with_error t RT_EOK k) k').

(** rt_mq_send_wait by a running thread: a message longer than a block is refused with
    -RT_ERROR and a full queue with -RT_EFULL if the timeout is 0, both without effect; with
    a free block the message is appended to the pending ones and the first waiting receiver
    is woken; otherwise the sender is suspended with its timer armed. *)
Lemma mq_send_ok k n mq t buffer timeout msgs lr :
  kinv None k -> mq_inv k -> k_mqs k !! n = Some mq -> running k t -> timeout < 2 ^ 31 -> mq_holds mq msgs ->
  s_queues (k_sched k) !! QMqRecv n = Some lr ->
  exists r k', rt_mq_send_wait n buffer timeout k = Some (r, k') /\ kinv None k' /\ mq_inv k' /\
    mq_send_post n mq t buffer timeout msgs lr k r k'.
Proof.
  unfold mq_send_post.
  intros Hk Hi En Hr Ht Hh El. unfold rt_mq_send_wait. munfold. rewrite (get_mq_run _ _ _ En). case_bool_decide as Hlen.
  { exists (inl (- RT_ERROR)), k. split_and!; try done. by left. }
  destruct (decide (mq_free mq = None /\ timeout = 0)) as [[Hf Hz]|Hn].
  - rewrite !bool_decide_true by done. exists (inl (- RT_EFULL)), k. split_and!; try done. right. split; [lia|]. by right; left.
  - replace (bool_decide _ && bool_decide _) with false by (symmetry; repeat case_bool_decide; tauto || done).
    destruct (mq_send_loop_ok k n mq t buffer timeout msgs lr Hk Hi En Hr Ht ltac:(lia) Hh El) as (r & k' & E & Hk' & Hi' & Hpost).
    exists r, k'. split_and!; try done. right. split; [lia|]. destruct Hpost as [?|[(Hf & Hz & _)|?]]; [by left| |by right; right].
    by destruct Hn.
Qed.

Definition mq_recv_post (n : nat) (mq : rt_messagequeue) (t : nat) (size timeout : Z) (msgs : list (list Z)) (ls : list nat) (k : kernel) (r : Z * option (list Z) + waiting) (k' : kernel) : Prop :=
  (exists d l mq', msgs = d :: l /\ r = inl (RT_EOK, Some (take (Z.to_nat (Z.min size (mq_msg_size mq))) d)) /\
      mq_holds mq' l /\ mq_static mq mq' /\ k_mqs k' = <[n := mq']> (k_mqs k) /\ signalled (QMqSend n) ls (mq_put n mq' k) k') \/
   msgs = [] /\ timeout = 0 /\ r = inl (- RT_ETIMEOUT, None) /\ k' = k \/
   msgs = [] /\ timeout <> 0 /\ r = inr (t, timeout, t_tick (k_timers k)) /\
     blocked (QMqRecv n) t (mq_flag mq) timeout (with_error t RT_EOK k) k'.

(** rt_mq_recv by a running thread: the oldest pending message is copied out, cut to
    the size of the buffer and of a block, its block is free again and the first waiting
    sender is woken; an empty queue is refused with -RT_ETIMEOUT if the timeout is 0;
    otherwise the receiver is suspended with its timer armed. *)
Lemma mq_recv_ok k n mq t size timeout msgs ls :
  kinv None k -> mq_inv k -> k_mqs k !! n = Some mq -> running k t -> timeout < 2 ^ 31 -> mq_holds mq msgs ->
  s_queues (k_sched k) !! QMqSend n = Some ls ->
  exists r k', rt_mq_recv n size timeout k = Some (r, k') /\ kinv None k' /\ mq_inv k' /\
    mq_recv_post n mq t size timeout msgs ls k r k'.
Proof.
  unfold mq_recv_post.
  intros Hk Hi En Hr Ht Hh El. pose proof Hh as (q & fr & fl & Hrep & Hd). pose proof (mq_empty _ _ _ _ _ Hrep Hd) as He.
  unfold rt_mq_recv. munfold. rewrite (get_mq_run _ _ _ En).
  destruct (decide (mq_entry mq = 0 /\ timeout = 0)) as [[Hf Hz]|Hn].
  - rewrite !bool_decide_true by done. exists (inl (- RT_ETIMEOUT, None)), k. split_and!; try done. right; left.
    split; [by apply He|done].
  - replace (bool_decide _ && bool_decide _) with false by (symmetry; repeat case_bool_decide; tauto || done).
    destruct (mq_recv_loop_ok k n mq t size timeout msgs ls Hk Hi En Hr Ht Hh El) as (r & k' & E & Hk' & Hi' & Hpost).
    exists r, k'. split_and!; try done. destruct Hpost as [?|[(Hf & Hz & _)|?]]; [by left| |by right; right].
    destruct Hn. split; [by apply He|done].
Qed.
