(* ===== verification/MemPool.v ===== *)
(** * Memory pools (rt-thread/src/mempool.c)

    Fixed-size blocks linked through their first words.  [mp_rep] says that the
    free list runs through exactly the blocks that are not allocated; the theorems
    show that no block is handed out twice and none is lost. *)
From S2P Require Import Prelude RtList Kernel Sched Timer Object Thread Ipc Sem Mailbox.
From stdpp Require Import base gmap sets list.
From Stdlib Require Import ZArith Lia.
#[local] Open Scope Z_scope.

(** ** Operations *)

Definition get_mp (n : nat) : M kernel rt_mempool := rd k_mps n.
Definition put_mp (n : nat) (mp : rt_mempool) : M kernel unit :=
  modify (fun k => set_k_mps (<[n := mp]> (k_mps k)) k).
Definition mps (A : Type) : Type := M rt_mempool A.
(** Running an operation on the control block of pool [n]. *)
Definition on_mp {A} (n : nat) (op : mps A) : M kernel A :=
  mp ← get_mp n;
  '(a, mp) ← liftO (op mp);
  put_mp n mp ;;
  mret a.

(** The first word of block [i]; there is no such word outside the memory of the pool. *)
Definition block_word (i : nat) : mps mp_word := fun mp =>
  match mp_words mp !! i with Some w => Some (w, mp) | None => None end.
Definition set_block_word (i : nat) (w : mp_word) : mps unit := fun mp =>
  match mp_words mp !! i with
  | Some _ => Some (tt, set_mp_words (<[i := w]> (mp_words mp)) mp)
  | None => None
  end.

(** The loop that links every block to the one behind it. *)
Fixpoint mp_link_blocks (todo offset : nat) : mps unit :=
  match todo with
  | O => mret tt
  | S todo => set_block_word offset (MpNext (Some (S offset))) ;; mp_link_blocks todo (S offset)
  end.
(** With no block at all the last statement writes in front of the pool. *)
Definition mp_init_list (total : nat) : mps unit :=
  mp_link_blocks total 0 ;;
  match total with O => ub | S last => set_block_word last (MpNext None) end ;;
  modify (set_mp_block_list (Some 0%nat)).

Definition MP_HDR : Z := 4.
(** A memory of [bytes] bytes as blocks of [block_size], whatever it contains. *)
Definition mp_memory (bytes block_size : Z) : gmap nat mp_word :=
  list_to_map ((fun i => (i, MpNext None)) <$> seq 0 (Z.to_nat (bytes / (block_size + MP_HDR)))).

Definition mp_setup (n : nat) (bytes size block_size total : Z) : M kernel unit :=
  put_mp n (RtMempool size block_size None total total (mp_memory bytes block_size)) ;;
  kq (q_init (QMempool n)) ;;
  on_mp n (mp_init_list (Z.to_nat total)).

Definition rt_mp_init (n : nat) (name : list Z) (size block_size : Z) : M kernel Z :=
  rt_object_init (OMemPool n) RT_Object_Class_MemPool name ;;
  let mp_size := RT_ALIGN_DOWN size in
  let block_size := RT_ALIGN block_size in
  mp_setup n size mp_size block_size (mp_size / u32 (block_size + MP_HDR)) ;;
  mret RT_EOK.

Definition rt_mp_detach (n : nat) : M kernel Z :=
  get_mp n ;;
  rt_ipc_list_resume_all (QMempool n) ;;
  rt_object_detach (OMemPool n) ;;
  mret RT_EOK.

(** [malloc] is the address of the object; [start] says whether the memory of the
    blocks could be allocated. *)
Definition rt_mp_create (name : list Z) (block_count block_size : Z) (malloc : option nat) (start : bool)
    : M kernel (option nat) :=
  rt_object_allocate RT_Object_Class_MemPool name (OMemPool <$> malloc) ;;
  match malloc with
  | None => mret None
  | Some n =>
      let block_size := RT_ALIGN block_size in
      let size := u32 (u32 (block_size + MP_HDR) * block_count) in
      if start then
        mp_setup n size size block_size block_count ;;
        mret (Some n)
      else
        rt_object_delete (OMemPool n) ;;
        mret None
  end.

(** The memory of the blocks goes with the record. *)
Definition rt_mp_delete (n : nat) : M kernel Z :=
  get_mp n ;;
  rt_ipc_list_resume_all (QMempool n) ;;
  rt_object_delete (OMemPool n) ;;
  modify (fun k => set_k_mps (delete n (k_mps k)) k) ;;
  mret RT_EOK.

(** Taking the first free block of pool [n]. *)
Definition mp_take_block (n : nat) : mps nat :=
  modify (fun mp => set_mp_block_free_count (u32 (mp_block_free_count mp - 1)) mp) ;;
  list ← gets mp_block_list;
  block_ptr ← liftO list;
  w ← block_word block_ptr;
  match w with
  | MpNext next =>
      modify (set_mp_block_list next) ;;
      set_block_word block_ptr (MpPool n) ;;
      mret block_ptr
  | MpPool _ => ub
  end.

(** Putting the caller in front of the waiting list. *)
Definition mp_wait (n t : nat) (time : Z) : M kernel unit :=
  rt_thread_suspend t ;;
  kq (q_insert_after (QMempool n) t) ;;
  (if bool_decide (time > 0) then start_thread_timer t time else mret tt).

(** The loop of rt_mp_alloc up to the next wait, and the allocation itself. *)
Definition mp_alloc_loop (n : nat) (time : Z) : M kernel (option nat + waiting) :=
  mp ← get_mp n;
  if bool_decide (mp_block_free_count mp = 0) then
    t ← self;
    if bool_decide (time = 0) then
      set_thread t (set_th_error (- RT_ETIMEOUT)) ;;
      mret (inl None)
    else
      set_thread t (set_th_error RT_EOK) ;;
      before_sleep ← on_timers rt_tick_get;
      mp_wait n t time ;;
      on_sched rt_schedule ;;
      mret (inr (t, time, before_sleep))
  else
    block_ptr ← on_mp n (mp_take_block n);
    mret (inl (Some block_ptr)).
Definition rt_mp_alloc (n : nat) (time : Z) : M kernel (option nat + waiting) := mp_alloc_loop n time.

Definition rt_mp_alloc_resume (n : nat) (w : waiting) : M kernel (option nat + waiting) :=
  let '(t, time, before_sleep) := w in
  th ← get_thread t;
  if bool_decide (th_error th <> RT_EOK) then mret (inl None)
  else
    now ← on_timers rt_tick_get;
    mp_alloc_loop n (remaining time before_sleep now).

(** Linking block [i] in front of the free list. *)
Definition mp_give_block (i : nat) : mps unit :=
  modify (fun mp => set_mp_block_free_count (u32 (mp_block_free_count mp + 1)) mp) ;;
  list ← gets mp_block_list;
  set_block_word i (MpNext list) ;;
  modify (set_mp_block_list (Some i)).

(** Block [i] of the memory of pool [n].  The pool is taken from the word in front of
    the block, which rt_mp_alloc has set; any other word is not the address of a pool. *)
Definition rt_mp_free (n i : nat) : M kernel unit :=
  w ← on_mp n (block_word i);
  match w with
  | MpPool m =>
      if decide (m = n) then
        on_mp n (mp_give_block i) ;;
        l ← kq (q_list (QMempool n));
        match l with
        | [] => mret tt
        | t :: _ =>
            set_thread t (set_th_error RT_EOK) ;;
            rt_thread_resume t ;;
            on_sched rt_schedule
        end
      else ub
  | MpNext _ => ub
  end.

(** ** The free list *)

(** The blocks of [l] are linked from [o] on, in this order. *)
Fixpoint free_chain (words : gmap nat mp_word) (o : option nat) (l : list nat) : Prop :=
  match l with
  | [] => o = None
  | i :: l => o = Some i /\ exists next, words !! i = Some (MpNext next) /\ free_chain words next l
  end.

Record mp_rep (n : nat) (mp : rt_mempool) (fr : list nat) : Prop := {
  mpr_nodup : NoDup fr;
  mpr_chain : free_chain (mp_words mp) (mp_block_list mp) fr;
  mpr_count : mp_block_free_count mp = Z.of_nat (length fr);
  mpr_total : 0 <= mp_block_total_count mp < 2 ^ 32;
  mpr_free : forall i, i ∈ fr -> Z.of_nat i < mp_block_total_count mp;
  mpr_used : forall i, Z.of_nat i < mp_block_total_count mp -> i ∉ fr -> mp_words mp !! i = Some (MpPool n);
}.

Lemma free_chain_ext words words' o l :
  (forall i, i ∈ l -> words' !! i = words !! i) -> free_chain words o l -> free_chain words' o l.
Proof.
  revert o. induction l as [|i l IH]; intros o He; cbn; [done|]. intros (-> & next & E & Hc). split; [done|].
  exists next. rewrite He by (apply elem_of_cons; by left). split; [done|]. apply IH; [|done].
  intros j Hj. apply He, elem_of_cons. by right.
Qed.
Lemma free_chain_word words o l i : free_chain words o l -> i ∈ l -> exists next, words !! i = Some (MpNext next).
Proof.
  revert o. induction l as [|j l IH]; intros o; cbn; [by intros _ Hi%not_elem_of_nil|]. intros (_ & next & E & Hc).
  intros [->|Hi]%elem_of_cons; [eauto|by eapply IH].
Qed.

(** A block is free or allocated, never both. *)
Lemma mp_rep_not_free n mp fr i : mp_rep n mp fr -> mp_words mp !! i = Some (MpPool n) -> i ∉ fr.
Proof. intros Hr E Hi. destruct (free_chain_word _ _ _ _ (mpr_chain _ _ _ Hr) Hi) as (next & E'). congruence. Qed.
Lemma mp_rep_bound n mp fr : mp_rep n mp fr -> mp_block_free_count mp <= mp_block_total_count mp.
Proof.
  intros Hr. rewrite (mpr_count _ _ _ Hr). pose proof (mpr_total _ _ _ Hr).
  assert (Hl : (length fr <= Z.to_nat (mp_block_total_count mp))%nat).
  { rewrite <- (length_seq (Z.to_nat (mp_block_total_count mp)) 0). apply NoDup_incl_length; [apply NoDup_ListNoDup, (mpr_nodup _ _ _ Hr)|].
    intros i Hi%list_elem_of_In. apply in_seq. pose proof (mpr_free _ _ _ Hr i Hi). lia. }
  lia.
Qed.

Lemma mp_take_ok n mp i fr :
  mp_rep n mp (i :: fr) ->
  exists mp' next, mp_take_block n mp = Some (i, mp') /\ mp_rep n mp' fr /\
    mp_words mp !! i = Some (MpNext next) /\
    mp' = RtMempool (mp_size mp) (mp_block_size mp) next (mp_block_total_count mp) (mp_block_free_count mp - 1)
            (<[i := MpPool n]> (mp_words mp)).
Proof.
  intros Hr. pose proof (mp_rep_bound _ _ _ Hr) as Hb. destruct Hr as [Hnd Hc Hn Ht Hf Hu]. cbn in Hc, Hn.
  destruct Hc as (Hl & next & E & Hc). apply NoDup_cons in Hnd as [Hi Hnd].
  unfold mp_take_block, block_word, set_block_word. munfold. cbn. rewrite Hl. cbn. rewrite E. cbn. rewrite E.
  rewrite (wrap_id 32) by lia. do 2 eexists. split; [done|]. split; [|done]. split; cbn; try done.
  - apply (free_chain_ext (mp_words mp)); [|done]. intros j Hj. apply lookup_insert_ne. by intros <-.
  - lia.
  - intros j Hj. apply Hf, elem_of_cons. by right.
  - intros j Hj Hjf. rewrite lookup_insert. case_decide; [done|]. apply Hu; [done|]. rewrite not_elem_of_cons. naive_solver.
Qed.

Lemma mp_give_ok n mp fr i :
  mp_rep n mp fr -> mp_words mp !! i = Some (MpPool n) -> Z.of_nat i < mp_block_total_count mp ->
  exists mp', mp_give_block i mp = Some (tt, mp') /\ mp_rep n mp' (i :: fr) /\
    mp' = RtMempool (mp_size mp) (mp_block_size mp) (Some i) (mp_block_total_count mp) (mp_block_free_count mp + 1)
            (<[i := MpNext (mp_block_list mp)]> (mp_words mp)).
Proof.
  intros Hr E Hlt. pose proof (mp_rep_not_free _ _ _ _ Hr E) as Hi. destruct Hr as [Hnd Hc Hn Ht Hf Hu].
  assert (Hb : mp_block_free_count mp < mp_block_total_count mp).
  { assert (Hl : (length (i :: fr) <= Z.to_nat (mp_block_total_count mp))%nat).
    { rewrite <- (length_seq (Z.to_nat (mp_block_total_count mp)) 0). apply NoDup_incl_length.
      - apply NoDup_ListNoDup. by constructor.
      - intros j [->|Hj]%list_elem_of_In%elem_of_cons; apply in_seq; [lia|]. pose proof (Hf j Hj). lia. }
    cbn in Hl. lia. }
  unfold mp_give_block, set_block_word. munfold. cbn. rewrite E, (wrap_id 32) by lia.
  eexists. split; [done|]. split; [|done]. split; cbn; try done.
  - by constructor.
  - split; [done|]. exists (mp_block_list mp). rewrite lookup_insert_eq. split; [done|].
    apply (free_chain_ext (mp_words mp)); [|done]. intros j Hj. apply lookup_insert_ne. by intros <-.
  - lia.
  - intros j [->|Hj]%elem_of_cons; [done|by apply Hf].
  - intros j Hj Hjf. apply not_elem_of_cons in Hjf as [Hne Hjf]. rewrite lookup_insert_ne by done. by apply Hu.
Qed.

(** The initial list runs through all blocks in order. *)
Lemma mp_link_ok todo offset mp :
  (forall i, (offset <= i < offset + todo)%nat -> is_Some (mp_words mp !! i)) ->
  exists words, mp_link_blocks todo offset mp = Some (tt, set_mp_words words mp) /\ dom words = dom (mp_words mp) /\
    (forall i, (i < offset \/ offset + todo <= i)%nat -> words !! i = mp_words mp !! i) /\
    forall i, (offset <= i < offset + todo)%nat -> words !! i = Some (MpNext (Some (S i))).
Proof.
  revert offset mp. induction todo as [|todo IH]; intros offset mp Hd; cbn [mp_link_blocks].
  { exists (mp_words mp). split_and!; try done; [by destruct mp|]. intros i Hi. lia. }
  destruct (Hd offset ltac:(lia)) as [w E]. munfold. unfold set_block_word. rewrite E.
  set (mp1 := set_mp_words _ mp).
  destruct (IH (S offset) mp1) as (words & E' & Hdom & Hout & Hin).
  { intros i Hi. cbn. apply lookup_insert_is_Some'. right. apply Hd. lia. }
  exists words. munfold in E'. rewrite E'. split_and!; try done.
  - rewrite Hdom. cbn. apply dom_insert_lookup_L. eauto.
  - intros i Hi. rewrite Hout by lia. apply lookup_insert_ne. lia.
  - intros i Hi. destruct (decide (i = offset)) as [->|Hne]; [rewrite Hout by lia; apply lookup_insert_eq|apply Hin; lia].
Qed.

Lemma mp_chain_seq words n off :
  (forall i, (off <= i < off + n)%nat -> words !! i = Some (MpNext (Some (S i)))) ->
  words !! (off + n)%nat = Some (MpNext None) ->
  free_chain words (Some off) (seq off (S n)).
Proof.
  revert off. induction n as [|n IH]; intros off Hin Hl; cbn.
  - rewrite Nat.add_0_r in Hl. split; [done|]. by exists None.
  - split; [done|]. exists (Some (S off)). split; [apply Hin; lia|]. apply (IH (S off)).
    + intros i Hi. apply Hin. lia.
    + by replace (S off + n)%nat with (off + S n)%nat by lia.
Qed.

Lemma mp_init_list_ok n mp total :
  (0 < total)%nat -> Z.of_nat total < 2 ^ 32 -> mp_block_total_count mp = Z.of_nat total ->
  mp_block_free_count mp = Z.of_nat total -> (forall i, (i < total)%nat -> is_Some (mp_words mp !! i)) ->
  exists mp', mp_init_list total mp = Some (tt, mp') /\ mp_rep n mp' (seq 0 total).
Proof.
  intros Hpos Hlt Ht Hf Hd. destruct (mp_link_ok total 0 mp) as (words & E & Hdom & Hout & Hin); [intros i Hi; apply Hd; lia|].
  destruct total as [|last]; [lia|].
  assert (Hlast : is_Some (words !! last)) by (apply elem_of_dom; rewrite Hdom; apply elem_of_dom, Hd; lia).
  destruct Hlast as [w Ew]. unfold mp_init_list. munfold. munfold in E. rewrite E. unfold set_block_word. cbn. rewrite Ew. cbn.
  eexists. split; [done|]. split; cbn -[seq]; try done.
  - apply (NoDup_seq 0 (S last)).
  - apply (mp_chain_seq _ last 0); [|apply lookup_insert_eq]. intros i Hi. rewrite lookup_insert_ne by lia. apply Hin. lia.
  - rewrite Hf. by rewrite length_seq.
  - lia.
  - intros i Hi. apply (elem_of_seq 0 (S last) i) in Hi. lia.
  - intros i Hi Hni. exfalso. apply Hni, (elem_of_seq 0 (S last) i). lia.
Qed.

(** ** Pools in the kernel *)

Definition mp_ok (k : kernel) (n : nat) (mp : rt_mempool) : Prop :=
  (exists fr, mp_rep n mp fr) /\ is_Some (s_queues (k_sched k) !! QMempool n).
Definition mp_inv (k : kernel) : Prop := forall n mp, k_mps k !! n = Some mp -> mp_ok k n mp.

Definition mp_put (n : nat) (mp : rt_mempool) (k : kernel) : kernel := set_k_mps (<[n := mp]> (k_mps k)) k.

Lemma get_mp_run k n mp : k_mps k !! n = Some mp -> get_mp n k = Some (mp, k).
Proof. apply rd_run. Qed.
Lemma on_mp_run {A} n (op : mps A) mp mp' a k :
  k_mps k !! n = Some mp -> op mp = Some (a, mp') -> on_mp n op k = Some (a, mp_put n mp' k).
Proof. intros En E. unfold on_mp, put_mp. munfold. rewrite (get_mp_run _ _ _ En), E. done. Qed.
Lemma mp_put_put n mp mp' k : mp_put n mp (mp_put n mp' k) = mp_put n mp k.
Proof. unfold mp_put. cbn. by rewrite insert_insert_eq. Qed.
Lemma mp_put_id n mp k : k_mps k !! n = Some mp -> mp_put n mp k = k.
Proof. intros E. unfold mp_put. rewrite insert_id by done. by destruct k. Qed.
Lemma kinv_mp_put n mp k : kinv None k -> kinv None (mp_put n mp k).
Proof. intros []. by split. Qed.

Lemma mp_inv_upd k k' n mp fr :
  mp_inv k -> k_mps k' = <[n := mp]> (k_mps k) -> is_Some (k_mps k !! n) -> mp_rep n mp fr ->
  (forall h, is_wait h -> is_Some (s_queues (k_sched k) !! h) -> is_Some (s_queues (k_sched k') !! h)) -> mp_inv k'.
Proof.
  intros Hi Es [mp0 E0] Hr Hq m mpm E. rewrite Es, lookup_insert in E. case_decide as Hd.
  - subst m. injection E as <-. destruct (Hi n mp0 E0) as (_ & H1). split; [by exists fr|by apply Hq].
  - destruct (Hi m mpm E) as (? & H1). split; [done|by apply Hq].
Qed.
Lemma mp_inv_same k k' :
  mp_inv k -> k_mps k' = k_mps k ->
  (forall h, is_wait h -> is_Some (s_queues (k_sched k) !! h) -> is_Some (s_queues (k_sched k') !! h)) -> mp_inv k'.
Proof. intros Hi Es Hq n mp E. rewrite Es in E. destruct (Hi n mp E) as (? & H1). split; [done|by apply Hq]. Qed.

(** Waiting for a block: the newest waiting thread is the first of the list. *)
Lemma mp_wait_ok k n t time l :
  kinv None k -> running k t -> s_queues (k_sched k) !! QMempool n = Some l -> time < 2 ^ 31 ->
  exists k', (mp_wait n t time ;; on_sched rt_schedule) k = Some (tt, k') /\
    blocked (QMempool n) t 2 time k k' /\ s_queues (k_sched k') !! QMempool n = Some (t :: l).
Proof.
  intros Hk [Hc (th & Et & Hr)] El Htime. assert (Ha : active th) by (by right).
  destruct (suspend_ok k t th Hk Et Ha) as (g & tms1 & E & Hk1 & Hf & Hft & Hsb & Htl).
  set (s1 := unready t g _ (k_sched k)) in *. set (k1 := set_k_timers tms1 (set_k_sched s1 k)) in *.
  assert (El1 : s_queues (k_sched k1) !! QMempool n = Some l)
    by (by apply (waiting_unready t th _ _ _ _ _ (ki_sched _ _ Hk) Et Ha)).
  assert (Et1 : s_threads (k_sched k1) !! t = Some (with_stat RT_THREAD_SUSPEND th)) by apply lookup_insert_eq.
  pose proof (kinv_enqueue k1 (QMempool n) l [] l t _ Hk1 I El1 eq_refl Hf Et1 (stat_with_suspend th)) as Hk2.
  set (k2 := set_k_sched (queued _ _ _) k1) in *.
  assert (Eq : kq (q_insert_after (QMempool n) t) k1 = Some (tt, k2)).
  { unfold kq, on_sched, sq, q_insert_after, q_update. munfold. by rewrite El1, decide_True by done. }
  assert (Harm : exists tms', (if bool_decide (time > 0) then start_thread_timer t time else mret tt) k2 = Some (tt, set_k_timers tms' k2) /\
    kinv None (set_k_timers tms' k2) /\ same_but (ThreadTimer t) (k_timers k) tms' /\
    (time <= 0 -> q_free (t_lists tms') (ThreadTimer t)) /\ (0 < time -> timer_pending t (u32 (t_tick (k_timers k) + time)) tms') /\
    (time < HALF -> timely 0 (k_timers k) tms')).
  { case_bool_decide as Hpos.
    - destruct (start_thread_timer_ok k2 t _ time Hk2 Et1 (stat_with_suspend th) Hft) as (tms' & E' & Hk' & Hsb' & Hp & Htl'); [lia|].
      exists tms'. split; [done|]. split; [done|]. split; [by apply same_but_trans with tms1|]. split; [intros ?; lia|].
      split; [intros _; destruct Hsb as (<- & _); exact Hp|]. intros Hh. etransitivity; [apply Htl|by apply Htl'].
    - exists tms1. split_and!; try done. intros ?. lia. }
  destruct Harm as (tms' & Ea & Hk3 & Hsb3 & Hnt & Hp & Htl3).
  destruct (blocked_after k (QMempool n) t th 2 time [] l g tms') as (k' & E' & Hb & Hq); try done.
  exists k'. split; [|done]. unfold mp_wait. munfold. munfold in Ea. rewrite E. fold k1. rewrite Eq, Ea. exact E'.
Qed.

(** The effect of a successful allocation on the pool. *)
Definition mp_allocated (n i : nat) (mp mp' : rt_mempool) : Prop :=
  (exists next, mp_words mp !! i = Some (MpNext next)) /\ mp_words mp' = <[i := MpPool n]> (mp_words mp) /\
  mp_block_free_count mp' = mp_block_free_count mp - 1 /\ mp_block_total_count mp' = mp_block_total_count mp.

Lemma mp_alloc_loop_ok k n mp t time l :
  kinv None k -> mp_inv k -> k_mps k !! n = Some mp -> running k t -> time < 2 ^ 31 ->
  s_queues (k_sched k) !! QMempool n = Some l ->
  exists r k', mp_alloc_loop n time k = Some (r, k') /\ kinv None k' /\ mp_inv k' /\
    (0 < mp_block_free_count mp /\ (exists i mp', r = inl (Some i) /\ mp_allocated n i mp mp' /\ k' = mp_put n mp' k) \/
     mp_block_free_count mp = 0 /\ time = 0 /\ r = inl None /\ k' = with_error t (- RT_ETIMEOUT) k \/
     mp_block_free_count mp = 0 /\ time <> 0 /\ r = inr (t, time, t_tick (k_timers k)) /\
       blocked (QMempool n) t 2 time (with_error t RT_EOK k) k' /\ s_queues (k_sched k') !! QMempool n = Some (t :: l)).
Proof.
  intros Hk Hi En Hr Htime El. destruct (Hi n mp En) as ((fr & Hrep) & _). destruct (proj2 Hr) as (th & Et & _).
  unfold mp_alloc_loop. munfold. rewrite (get_mp_run _ _ _ En). case_bool_decide as Hz.
  - rewrite (self_run _ _ (proj1 Hr)). case_bool_decide as Ht.
    + rewrite (set_error_run t _ k) by (by eexists). do 2 eexists. split; [done|]. split; [by apply kinv_with_error|].
      split; [|by right; left]. apply (mp_inv_same k); [done|apply (ik_mps _ _ (with_error_keep t _ k))|].
      intros h _. by rewrite with_error_queues.
    + rewrite (set_error_run t _ k) by (by eexists).
      unfold rt_tick_get. munfold. rewrite (on_timers_run _ (with_error t RT_EOK k) _ _ eq_refl), set_timers_id.
      destruct (mp_wait_ok (with_error t RT_EOK k) n t time l) as (k' & E & Hb & Hq);
        [by apply kinv_with_error|by apply running_with_error|by rewrite with_error_queues|done|].
      munfold in E. destruct (mp_wait n t time (with_error t RT_EOK k)) as [[[] k1]|]; [|done]. rewrite E.
      do 2 eexists. split; [done|]. split; [apply (bl_kinv _ _ _ _ _ _ Hb)|]. split; [|right; right; by rewrite with_error_timers].
      apply (mp_inv_same k); [done| |].
      * by rewrite (ik_mps _ _ (bl_keep _ _ _ _ _ _ Hb)), (ik_mps _ _ (with_error_keep t RT_EOK k)).
      * intros h Hw Hs. apply (blocked_queue_dom _ _ _ _ _ _ h Hb); [done|]. by rewrite with_error_queues.
  - destruct fr as [|i fr]; [by rewrite (mpr_count _ _ _ Hrep) in Hz|].
    destruct (mp_take_ok _ _ _ _ Hrep) as (mp' & next & E & Hrep' & Enext & Emp). rewrite (on_mp_run _ _ _ _ _ _ En E).
    do 2 eexists. split; [done|]. split; [by apply kinv_mp_put|].
    split; [by apply (mp_inv_upd k _ n mp' fr)|]. left.
    split; [rewrite (mpr_count _ _ _ Hrep) in *; cbn in *; lia|]. exists i, mp'. subst mp'. split; [done|]. split; [|done].
    split; [by exists next|done].
Qed.

(** ** Properties *)

Definition mp_alloc_post (n : nat) (mp : rt_mempool) (t : nat) (time : Z) (l : list nat) (k : kernel) (r : option nat + waiting) (k' : kernel) : Prop :=
  0 < mp_block_free_count mp /\ (exists i mp', r = inl (Some i) /\ mp_allocated n i mp mp' /\ k' = mp_put n mp' k) \/
   mp_block_free_count mp = 0 /\ time = 0 /\ r = inl None /\ k' = with_error t (- RT_ETIMEOUT) k \/
   mp_block_free_count mp = 0 /\ time <> 0 /\ r = inr (t, time, t_tick (k_timers k)) /\
     blocked (QMempool n) t 2 time (with_error t RT_EOK k) k' /\ s_queues (k_sched k') !! QMempool n = Some (t :: l).

(** rt_mp_alloc by a running thread.  If a block is free it returns one, which was
    not allocated, marks it with its pool and leaves every other block as it was; an
    exhausted pool is refused at once with -RT_ETIMEOUT if the time is 0; otherwise the
    caller is suspended in front of all threads that already wait, with its timer armed
    for a positive time.  The free list stays the list of exactly the free blocks. *)
Lemma mp_alloc_ok k n mp t time l :
  kinv None k -> mp_inv k -> k_mps k !! n = Some mp -> running k t -> time < 2 ^ 31 ->
  s_queues (k_sched k) !! QMempool n = Some l ->
  exists r k', rt_mp_alloc n time k = Some (r, k') /\ kinv None k' /\ mp_inv k' /\
    mp_alloc_post n mp t time l k r k'.
Proof.
  unfold mp_alloc_post. apply mp_alloc_loop_ok. Qed.

(** rt_mp_free of an allocated block puts it in front of the free list, changes no
    other block and, if threads wait for a block, wakes the first one of the list with
    error code RT_EOK and runs the scheduler. *)
Lemma mp_free_ok k n mp i c l :
  kinv None k -> mp_inv k -> k_mps k !! n = Some mp -> mp_words mp !! i = Some (MpPool n) ->
  Z.of_nat i < mp_block_total_count mp -> s_current (k_sched k) = Some c -> s_queues (k_sched k) !! QMempool n = Some l ->
  exists mp' k', rt_mp_free n i k = Some (tt, k') /\ kinv None k' /\ mp_inv k' /\
    mp_words mp' = <[i := MpNext (mp_block_list mp)]> (mp_words mp) /\ mp_block_list mp' = Some i /\
    mp_block_free_count mp' = mp_block_free_count mp + 1 /\
    match l with
    | [] => k' = mp_put n mp' k
    | u :: _ => woken (QMempool n) u (with_error u RT_EOK (mp_put n mp' k)) k'
    end.
Proof.
  intros Hk Hi En Ei Hlt Hc El. destruct (Hi n mp En) as ((fr & Hrep) & _).
  destruct (mp_give_ok _ _ _ _ Hrep Ei Hlt) as (mp' & E & Hrep' & Emp).
  unfold rt_mp_free. rewrite (bind_run _ _ _ _ _ (on_mp_run n (block_word i) mp mp _ k En ltac:(unfold block_word; by rewrite Ei))).
  rewrite (mp_put_id _ _ _ En), decide_True by done. rewrite (bind_run _ _ _ _ _ (on_mp_run _ _ _ _ _ _ En E)).
  set (k1 := mp_put n mp' k). assert (Hk1 : kinv None k1) by (by apply kinv_mp_put).
  assert (Hi1 : mp_inv k1) by (by apply (mp_inv_upd k _ n mp' (i :: fr))).
  rewrite (bind_run _ _ _ _ _ (kq_list_run _ _ k1 El)). exists mp'. subst mp'. destruct l as [|u l].
  { exists k1. by split_and!. }
  destruct (si_nodes _ _ (ki_sched _ _ Hk1) _ _ u El ltac:(apply elem_of_cons; by left)) as (_ & thu & Eu & _).
  rewrite (bind_run _ _ _ _ _ (set_error_run u RT_EOK k1 ltac:(by eexists))). set (k2 := with_error u RT_EOK k1).
  assert (El2 : s_queues (k_sched k2) !! QMempool n = Some (u :: l)) by (unfold k2; by rewrite with_error_queues).
  destruct (wake_ok k2 (QMempool n) u l c) as (k' & Ew & Hw); [by apply kinv_with_error|done|done|unfold k2; by rewrite with_error_current|].
  exists k'. split; [unfold rt_ipc_list_resume in Ew; munfold in Ew; munfold; rewrite (kq_list_run _ _ k2 El2) in Ew; by destruct (rt_thread_resume u k2) as [[? ?]|]|].
  split; [apply (wk_kinv _ _ _ _ Hw)|]. split; [|done].
  apply (mp_inv_same k1); [done| |].
  - rewrite (ik_mps _ _ (wk_keep _ _ _ _ Hw)). apply (ik_mps _ _ (with_error_keep u RT_EOK k1)).
  - intros h Hwh Hs. apply (signalled_queue_dom (QMempool n) (u :: l) k2 k' h Hw El2 Hwh). unfold k2. by rewrite with_error_queues.
Qed.

(** Allocating a block and freeing it again, with nobody waiting, leaves the pool
    and the rest of the kernel exactly as they were. *)
Theorem mp_alloc_free_roundtrip k n mp t time :
  kinv None k -> mp_inv k -> k_mps k !! n = Some mp -> running k t -> time < 2 ^ 31 ->
  s_queues (k_sched k) !! QMempool n = Some [] -> 0 < mp_block_free_count mp ->
  exists i k', rt_mp_alloc n time k = Some (inl (Some i), k') /\ rt_mp_free n i k' = Some (tt, k).
Proof.
  intros Hk Hi En Hr Ht El Hpos. destruct (Hi n mp En) as ((fr & Hrep) & _).
  destruct fr as [|i fr]; [rewrite (mpr_count _ _ _ Hrep) in Hpos; cbn in Hpos; lia|].
  destruct (mp_take_ok _ _ _ _ Hrep) as (mp' & next & E & Hrep' & Enext & Emp).
  pose proof (mpr_free _ _ _ Hrep i ltac:(apply elem_of_cons; by left)) as Hlt.
  destruct (mpr_chain _ _ _ Hrep) as (Hl & _).
  assert (Ei : mp_words mp' !! i = Some (MpPool n)) by (rewrite Emp; apply lookup_insert_eq).
  assert (En' : k_mps (mp_put n mp' k) !! n = Some mp') by apply lookup_insert_eq.
  destruct (mp_give_ok _ _ _ _ Hrep' Ei) as (mp2 & E2 & _ & Emp2); [by rewrite Emp|].
  assert (Eback : mp2 = mp).
  { rewrite Emp2, Emp. cbn. rewrite insert_insert_eq, insert_id by done. destruct mp; cbn in *. f_equal; [done|lia]. }
  exists i, (mp_put n mp' k). split.
  - unfold rt_mp_alloc, mp_alloc_loop. munfold. rewrite (get_mp_run _ _ _ En), bool_decide_false by lia.
    by rewrite (on_mp_run _ _ _ _ _ _ En E).
  - unfold rt_mp_free. rewrite (bind_run _ _ _ _ _ (on_mp_run n (block_word i) mp' mp' _ _ En' ltac:(unfold block_word; by rewrite Ei))).
    rewrite (mp_put_put n mp' mp' k), decide_True by done. rewrite (bind_run _ _ _ _ _ (on_mp_run _ _ _ _ _ _ En' E2)).
    rewrite mp_put_put, Eback, (mp_put_id _ _ _ En). by rewrite (bind_run _ _ _ _ _ (kq_list_run _ _ k El)).
Qed.
