(* ===== verification/Mem.v ===== *)
(** * The heap (rt-thread/src/mem.c, RT_USING_SMALL_MEM)

    The first-fit allocator.  The heap is an array of 32-bit words; every block starts
    with a [struct heap_mem] (magic and used flag, offset of the next block, offset of
    the previous block).  [heap_rep] says that the headers form one contiguous chain
    without two free neighbours; rt_malloc, rt_free and rt_realloc keep it and never
    touch the data of an allocated block. *)
From S2P Require Import Prelude RtList Kernel Sched Timer Object Thread Ipc Sem.
From stdpp Require Import base gmap sets list.
From Stdlib Require Import ZArith Lia.
#[local] Open Scope Z_scope.

(** ** Memory *)

Definition ld (off : Z) : M heap Z := fun h =>
  match hp_mem h !! off with Some w => Some (w, h) | None => None end.
Definition st (off v : Z) : M heap unit := fun h =>
  match hp_mem h !! off with Some _ => Some (tt, set_hp_mem (<[off := v]> (hp_mem h)) h) | None => None end.

Definition HEAP_MAGIC : Z := 0x1ea0.
Definition SIZEOF_STRUCT_MEM : Z := 12.
Definition MIN_SIZE : Z := 12.
Definition MIN_SIZE_ALIGNED : Z := RT_ALIGN MIN_SIZE.

(** struct heap_mem at offset [m]: the half words magic and used, then next and prev. *)
Definition mem_magic (m : Z) : M heap Z := w ← ld m; mret (w mod 2 ^ 16).
Definition mem_used (m : Z) : M heap Z := w ← ld m; mret (w / 2 ^ 16).
Definition mem_next (m : Z) : M heap Z := ld (m + 4).
Definition mem_prev (m : Z) : M heap Z := ld (m + 8).
Definition set_mem_magic (m v : Z) : M heap unit := w ← ld m; st m (w / 2 ^ 16 * 2 ^ 16 + v).
Definition set_mem_used (m v : Z) : M heap unit := w ← ld m; st m (v * 2 ^ 16 + w mod 2 ^ 16).
Definition set_mem_next (m v : Z) : M heap unit := st (m + 4) v.
Definition set_mem_prev (m v : Z) : M heap unit := st (m + 8) v.

(** ** Operations

    The sections that hold the semaphore heap_sem. *)

Definition plug_forward (mem : Z) : M heap unit :=
  heap_end ← gets hp_end;
  nmem ← mem_next mem;
  nused ← mem_used nmem;
  if bool_decide (mem <> nmem) && bool_decide (nused = 0) && bool_decide (nmem <> heap_end) then
    modify (fun h => if bool_decide (hp_lfree h = nmem) then set_hp_lfree mem h else h) ;;
    nnext ← mem_next nmem;
    set_mem_next mem nnext ;;
    set_mem_prev nnext mem
  else mret tt.
Definition plug_backward (mem : Z) : M heap unit :=
  pmem ← mem_prev mem;
  pused ← mem_used pmem;
  if bool_decide (pmem <> mem) && bool_decide (pused = 0) then
    modify (fun h => if bool_decide (hp_lfree h = mem) then set_hp_lfree pmem h else h) ;;
    next ← mem_next mem;
    set_mem_next pmem next ;;
    set_mem_prev next pmem
  else mret tt.
Definition plug_holes (mem : Z) : M heap unit := plug_forward mem ;; plug_backward mem.

(** [memory] is what the area contains.  [false] when the area is too small and the heap
    stays uninitialised. *)
Definition heap_init (begin_addr end_addr : Z) (memory : gmap Z Z) : M heap bool :=
  let begin_align := RT_ALIGN begin_addr in
  let end_align := RT_ALIGN_DOWN end_addr in
  if bool_decide (end_align > 2 * SIZEOF_STRUCT_MEM) && bool_decide (end_align - 2 * SIZEOF_STRUCT_MEM >= begin_align) then
    let size := end_align - begin_align - 2 * SIZEOF_STRUCT_MEM in
    let heap_end := size + SIZEOF_STRUCT_MEM in
    modify (fun h => Heap begin_align heap_end (hp_lfree h) size (hp_used_mem h) (hp_max_mem h) memory) ;;
    set_mem_magic 0 HEAP_MAGIC ;;
    set_mem_next 0 (size + SIZEOF_STRUCT_MEM) ;;
    set_mem_prev 0 0 ;;
    set_mem_used 0 0 ;;
    set_mem_magic heap_end HEAP_MAGIC ;;
    set_mem_used heap_end 1 ;;
    set_mem_next heap_end (size + SIZEOF_STRUCT_MEM) ;;
    set_mem_prev heap_end (size + SIZEOF_STRUCT_MEM) ;;
    modify (set_hp_lfree 0) ;;
    mret true
  else mret false.

Definition account (used : Z) : M heap unit := fun h =>
  let used_mem := u32 (hp_used_mem h + used) in
  let h := set_hp_used_mem used_mem h in
  Some (tt, if bool_decide (hp_max_mem h < used_mem) then set_hp_max_mem used_mem h else h).

(** Taking the free block at [ptr] for [size] bytes, splitting it if the rest can hold
    a block of its own. *)
Definition malloc_take (ptr size : Z) : M heap unit :=
  next ← mem_next ptr;
  (if bool_decide (u32 (next - (ptr + SIZEOF_STRUCT_MEM)) >= size + SIZEOF_STRUCT_MEM + MIN_SIZE_ALIGNED) then
     let ptr2 := ptr + SIZEOF_STRUCT_MEM + size in
     set_mem_magic ptr2 HEAP_MAGIC ;;
     set_mem_used ptr2 0 ;;
     set_mem_next ptr2 next ;;
     set_mem_prev ptr2 ptr ;;
     set_mem_next ptr ptr2 ;;
     set_mem_used ptr 1 ;;
     mem_size_aligned ← gets hp_mem_size_aligned;
     (if bool_decide (next <> mem_size_aligned + SIZEOF_STRUCT_MEM) then set_mem_prev next ptr2 else mret tt) ;;
     account (size + SIZEOF_STRUCT_MEM)
   else
     set_mem_used ptr 1 ;;
     account (next - ptr)) ;;
  set_mem_magic ptr HEAP_MAGIC.

(** The next free block from lfree on; [None] when the fuel runs out. *)
Fixpoint lfree_advance (fuel : nat) : M heap unit :=
  match fuel with
  | O => ub
  | S fuel =>
      lfree ← gets hp_lfree;
      heap_end ← gets hp_end;
      used ← mem_used lfree;
      if bool_decide (used <> 0) && bool_decide (lfree <> heap_end) then
        next ← mem_next lfree;
        modify (set_hp_lfree next) ;;
        lfree_advance fuel
      else mret tt
  end.

(** The search loop; the result is the offset of the data. *)
Fixpoint malloc_search (fuel : nat) (ptr size : Z) : M heap (option Z) :=
  match fuel with
  | O => ub
  | S fuel' =>
      mem_size_aligned ← gets hp_mem_size_aligned;
      if bool_decide (ptr < u32 (mem_size_aligned - size)) then
        used ← mem_used ptr;
        next ← mem_next ptr;
        if bool_decide (used = 0) && bool_decide (u32 (next - (ptr + SIZEOF_STRUCT_MEM)) >= size) then
          malloc_take ptr size ;;
          lfree ← gets hp_lfree;
          (if bool_decide (ptr = lfree) then lfree_advance fuel else mret tt) ;;
          mret (Some (ptr + SIZEOF_STRUCT_MEM))
        else malloc_search fuel' next size
      else mret None
  end.

(** The number of blocks is below the number of bytes. *)
Definition heap_fuel (h : heap) : nat := S (S (Z.to_nat (hp_mem_size_aligned h))).

(** The part of rt_malloc before the semaphore is taken: [None] when NULL is returned
    at once, otherwise the size to look for. *)
Definition malloc_size (size : Z) : M heap (option Z) :=
  if bool_decide (size = 0) then mret None
  else
    let size := RT_ALIGN size in
    mem_size_aligned ← gets hp_mem_size_aligned;
    if bool_decide (size > mem_size_aligned) then mret None
    else mret (Some (if bool_decide (size < MIN_SIZE_ALIGNED) then MIN_SIZE_ALIGNED else size)).
Definition malloc_locked (size : Z) : M heap (option Z) := fun h =>
  malloc_search (heap_fuel h) (hp_lfree h) size h.

(** [rmem] is the offset of the data. *)
Definition free_locked (rmem : Z) : M heap unit :=
  let mem := rmem - SIZEOF_STRUCT_MEM in
  mem_used mem ;;
  set_mem_used mem 0 ;;
  set_mem_magic mem HEAP_MAGIC ;;
  modify (fun h => if bool_decide (mem < hp_lfree h) then set_hp_lfree mem h else h) ;;
  next ← mem_next mem;
  modify (fun h => set_hp_used_mem (u32 (hp_used_mem h - (next - mem))) h) ;;
  plug_holes mem.

(** The first section of rt_realloc: [true] when the block could keep its place,
    [false] with the old size when it has to move. *)
Definition realloc_locked (rmem newsize : Z) : M heap (bool * Z) :=
  let ptr := rmem - SIZEOF_STRUCT_MEM in
  next ← mem_next ptr;
  let size := u32 (next - ptr - SIZEOF_STRUCT_MEM) in
  if bool_decide (size = newsize) then mret (true, size)
  else if bool_decide (newsize + SIZEOF_STRUCT_MEM + MIN_SIZE < size) then
    modify (fun h => set_hp_used_mem (u32 (hp_used_mem h - (size - newsize))) h) ;;
    let ptr2 := ptr + SIZEOF_STRUCT_MEM + newsize in
    set_mem_magic ptr2 HEAP_MAGIC ;;
    set_mem_used ptr2 0 ;;
    set_mem_next ptr2 next ;;
    set_mem_prev ptr2 ptr ;;
    set_mem_next ptr ptr2 ;;
    mem_size_aligned ← gets hp_mem_size_aligned;
    (if bool_decide (next <> mem_size_aligned + SIZEOF_STRUCT_MEM) then set_mem_prev next ptr2 else mret tt) ;;
    plug_holes ptr2 ;;
    mret (true, size)
  else mret (false, size).

(** ** The chain of blocks *)

(** The header at [off]. *)
Definition header (m : gmap Z Z) (off : Z) (used : bool) (next prev : Z) : Prop :=
  m !! off = Some ((if used then 2 ^ 16 else 0) + HEAP_MAGIC) /\ m !! (off + 4) = Some next /\ m !! (off + 8) = Some prev.

(** [bs] gives, block by block, the offset of the next block and the used flag.  The
    blocks, none without data, fill the memory from [off] to [e]; [pv] is the block before the first one,
    [pl] the last one. *)
Fixpoint seg (m : gmap Z Z) (pv off : Z) (bs : list (Z * bool)) (pl e : Z) : Prop :=
  match bs with
  | [] => pv = pl /\ off = e
  | (nx, u) :: bs => header m off u nx pv /\ off + SIZEOF_STRUCT_MEM < nx /\ nx mod 4 = 0 /\ seg m off nx bs pl e
  end.

Fixpoint merged (bs : list (Z * bool)) : Prop :=
  match bs with
  | (_, false) :: (((_, false) :: _)) => False
  | _ :: bs => merged bs
  | [] => True
  end.

(** The offsets of the blocks, with their ends and used flags. *)
Fixpoint blocks (off : Z) (bs : list (Z * bool)) : list (Z * Z * bool) :=
  match bs with [] => [] | (nx, u) :: bs => (off, nx, u) :: blocks nx bs end.
Definition starts (off : Z) (bs : list (Z * bool)) : list Z := (fun b => b.1.1) <$> blocks off bs.
Fixpoint used_bytes (off : Z) (bs : list (Z * bool)) : Z :=
  match bs with [] => 0 | (nx, u) :: bs => (if u : bool then nx - off else 0) + used_bytes nx bs end.

(** The memory and its chain of headers; the header at the end is always used. *)
Record heap_core (h : heap) (bs : list (Z * bool)) : Prop := {
  hc_size : MIN_SIZE_ALIGNED <= hp_mem_size_aligned h /\ hp_mem_size_aligned h mod 4 = 0;
  hc_end : hp_end h = hp_mem_size_aligned h + SIZEOF_STRUCT_MEM;
  hc_base : 0 < hp_ptr h /\ hp_ptr h mod 4 = 0 /\ hp_ptr h + hp_end h + SIZEOF_STRUCT_MEM <= 2 ^ 32;
  hc_words : forall x, 0 <= x < hp_end h + SIZEOF_STRUCT_MEM -> x mod 4 = 0 -> is_Some (hp_mem h !! x);
  hc_seg : exists pl, seg (hp_mem h) 0 0 bs pl (hp_end h);
  hc_last : exists pv, header (hp_mem h) (hp_end h) true (hp_end h) pv;
}.

(** No two free neighbours, lfree is a block, and used_mem counts the used blocks. *)
Record heap_rep (h : heap) (bs : list (Z * bool)) : Prop := {
  hr_core : heap_core h bs;
  hr_merged : merged bs;
  hr_lfree : hp_lfree h = hp_end h \/ hp_lfree h ∈ starts 0 bs;
  hr_used : hp_used_mem h = used_bytes 0 bs;
}.

Lemma min_size_eq : MIN_SIZE_ALIGNED = 12.
Proof. reflexivity. Qed.

Lemma seg_app m pv off bs1 bs2 pl e :
  seg m pv off (bs1 ++ bs2) pl e <-> exists pm om, seg m pv off bs1 pm om /\ seg m pm om bs2 pl e.
Proof.
  revert pv off. induction bs1 as [|[nx u] bs1 IH]; intros pv off; cbn.
  - split; [intros H; exists pv, off; done|]. by intros (pm & om & [-> ->] & H).
  - rewrite IH. naive_solver.
Qed.

Lemma seg_le m pv off bs pl e : seg m pv off bs pl e -> off <= e.
Proof.
  revert pv off. induction bs as [|[nx u] bs IH]; intros pv off; cbn; [lia|]. intros (_ & Hn & _ & Hs). apply IH in Hs.
  unfold SIZEOF_STRUCT_MEM in *. lia.
Qed.
Lemma seg_lt m pv off bs pl e : seg m pv off bs pl e -> bs <> [] -> off < e.
Proof.
  destruct bs as [|[nx u] bs]; [done|]. cbn. intros (_ & Hn & _ & Hs) _. apply seg_le in Hs. unfold SIZEOF_STRUCT_MEM in *. lia.
Qed.
Lemma seg_gap m pv off bs pl e : seg m pv off bs pl e -> off = e \/ off + SIZEOF_STRUCT_MEM <= e.
Proof. destruct bs as [|[nx u] bs]; cbn; [by intros [_ ->]; left|]. intros (_ & Hn & _ & Hs). apply seg_le in Hs. right. lia. Qed.
Lemma seg_mod m pv off bs pl e : seg m pv off bs pl e -> off mod 4 = 0 -> e mod 4 = 0.
Proof.
  revert pv off. induction bs as [|[nx u] bs IH]; intros pv off; cbn; [by intros [_ <-]|]. intros (_ & _ & Hm & Hs) _. by apply (IH _ _ Hs).
Qed.

Lemma header_frame m m' off u nx pv :
  (forall x, off <= x < off + SIZEOF_STRUCT_MEM -> m' !! x = m !! x) -> header m off u nx pv -> header m' off u nx pv.
Proof. unfold header, SIZEOF_STRUCT_MEM. intros Hf. by rewrite !Hf by lia. Qed.
Lemma seg_frame m m' pv off bs pl e :
  (forall x, off <= x < e -> m' !! x = m !! x) -> seg m pv off bs pl e -> seg m' pv off bs pl e.
Proof.
  revert pv off. induction bs as [|[nx u] bs IH]; intros pv off Hf; cbn; [done|]. intros (Hh & Hn & Hm & Hs).
  pose proof (seg_le _ _ _ _ _ _ Hs). split_and!; try done.
  - apply (header_frame m); [|done]. intros x Hx. apply Hf. unfold SIZEOF_STRUCT_MEM in *. lia.
  - apply IH; [|done]. intros x Hx. apply Hf. unfold SIZEOF_STRUCT_MEM in *. lia.
Qed.

(** Rewriting the link back to the previous block. *)
Lemma seg_set_prev m pv off bs pl e p :
  seg m pv off bs pl e -> exists pl', seg (<[off + 8 := p]> m) p off bs pl' e.
Proof.
  destruct bs as [|[nx u] bs]; cbn; [intros [_ <-]; by exists p|]. intros ((H1 & H2 & H3) & Hn & Hm & Hs).
  exists pl. unfold SIZEOF_STRUCT_MEM in *. split_and!; try done.
  - unfold header. by rewrite lookup_insert_eq, !lookup_insert_ne by lia.
  - apply (seg_frame m); [|done]. intros x Hx. apply lookup_insert_ne. lia.
Qed.
Lemma header_set_prev m off u nx pv p : header m off u nx pv -> header (<[off + 8 := p]> m) off u nx p.
Proof. intros (H1 & H2 & H3). unfold header. by rewrite lookup_insert_eq, !lookup_insert_ne by lia. Qed.

Lemma blocks_app off bs1 bs2 m pv pm om :
  seg m pv off bs1 pm om -> blocks off (bs1 ++ bs2) = blocks off bs1 ++ blocks om bs2.
Proof.
  revert pv off. induction bs1 as [|[nx u] bs1 IH]; intros pv off; cbn; [by intros [_ <-]|].
  intros (_ & _ & _ & Hs). by rewrite (IH _ _ Hs).
Qed.
Lemma starts_app off bs1 bs2 m pv pm om :
  seg m pv off bs1 pm om -> starts off (bs1 ++ bs2) = starts off bs1 ++ starts om bs2.
Proof. intros Hs. unfold starts. by rewrite (blocks_app _ _ _ _ _ _ _ Hs), fmap_app. Qed.
Lemma used_app off bs1 bs2 m pv pm om :
  seg m pv off bs1 pm om -> used_bytes off (bs1 ++ bs2) = used_bytes off bs1 + used_bytes om bs2.
Proof.
  revert pv off. induction bs1 as [|[nx u] bs1 IH]; intros pv off; cbn; [by intros [_ <-]|].
  intros (_ & _ & _ & Hs). rewrite (IH _ _ Hs). lia.
Qed.
Lemma used_bounds m pv off bs pl e : seg m pv off bs pl e -> 0 <= used_bytes off bs <= e - off.
Proof.
  revert pv off. induction bs as [|[nx u] bs IH]; intros pv off; cbn; [lia|].
  intros (_ & Hn & _ & Hs). apply IH in Hs. unfold SIZEOF_STRUCT_MEM in *. destruct u; lia.
Qed.
Lemma blocks_bounds m pv off bs pl e o nx u :
  seg m pv off bs pl e -> (o, nx, u) ∈ blocks off bs -> off <= o /\ o + SIZEOF_STRUCT_MEM < nx /\ nx <= e.
Proof.
  revert pv off. induction bs as [|[nx' u'] bs IH]; intros pv off; cbn; [by intros _ Hi%not_elem_of_nil|].
  intros (_ & Hn & _ & Hs) [[= -> -> ->]|Hi]%elem_of_cons; pose proof (seg_le _ _ _ _ _ _ Hs); [lia|].
  destruct (IH _ _ Hs Hi) as (? & ? & ?). unfold SIZEOF_STRUCT_MEM in *. lia.
Qed.
Lemma starts_split m pv off bs pl e o :
  seg m pv off bs pl e -> o ∈ starts off bs -> exists bs1 nx u bs2 pm,
    bs = bs1 ++ (nx, u) :: bs2 /\ seg m pv off bs1 pm o /\ seg m pm o ((nx, u) :: bs2) pl e.
Proof.
  revert pv off. unfold starts. induction bs as [|[nx u] bs IH]; intros pv off; cbn; [by intros _ Hi%not_elem_of_nil|].
  intros Hseg [-> |Hi]%elem_of_cons.
  - exists [], nx, u, bs, pv. split; [done|]. by split.
  - destruct Hseg as (Hh & Hn & Hm & Hs). destruct (IH _ _ Hs Hi) as (bs1 & nx' & u' & bs2 & pm & -> & H1 & H2).
    exists ((nx, u) :: bs1), nx', u', bs2, pm. split; [done|]. by split.
Qed.

(** ** Changing one block of the chain *)

(** The blocks behind a changed one: only the link back of the first may differ. *)
Lemma seg_behind m m' pv nx bs pl e p :
  seg m pv nx bs pl e -> (forall x, nx <= x < e -> x <> nx + 8 -> m' !! x = m !! x) ->
  (bs <> [] -> m' !! (nx + 8) = Some p) -> exists pl', seg m' p nx bs pl' e.
Proof.
  destruct bs as [|[nx' u] bs]; cbn; [intros [_ <-]; by exists p|]. intros ((H1 & H2 & _) & Hn & Hm & Hs) Hf Hp.
  pose proof (seg_le _ _ _ _ _ _ Hs) as Hle. unfold SIZEOF_STRUCT_MEM in *. exists pl. split; [|split; [done|split; [done|]]].
  - unfold header. rewrite Hp by done. by rewrite !Hf by lia.
  - apply (seg_frame m); [|done]. intros x Hx. apply Hf; lia.
Qed.

Lemma seg_retag m m' pm o nx u u' bs pl e :
  seg m pm o ((nx, u) :: bs) pl e -> header m' o u' nx pm -> (forall x, nx <= x < e -> m' !! x = m !! x) ->
  seg m' pm o ((nx, u') :: bs) pl e.
Proof. cbn. intros (_ & Hn & Hm & Hs) Hh Hf. split; [done|]. split; [done|]. split; [done|]. by apply (seg_frame m). Qed.

Lemma seg_split m m' pm o nx u bs pl e o2 u' u2 :
  seg m pm o ((nx, u) :: bs) pl e -> o + SIZEOF_STRUCT_MEM < o2 -> o2 + SIZEOF_STRUCT_MEM < nx -> o2 mod 4 = 0 ->
  header m' o u' o2 pm -> header m' o2 u2 nx o ->
  (forall x, nx <= x < e -> x <> nx + 8 -> m' !! x = m !! x) -> (bs <> [] -> m' !! (nx + 8) = Some o2) ->
  exists pl', seg m' pm o ((o2, u') :: (nx, u2) :: bs) pl' e.
Proof.
  cbn. intros (_ & Hn & Hm & Hs) H1 H2 H3 Hh1 Hh2 Hf Hp. destruct (seg_behind m m' _ _ _ _ _ o2 Hs Hf Hp) as (pl' & Hs').
  exists pl'. by repeat (split; [done|]).
Qed.

Lemma seg_merge m m' pm o nx u nx2 u2 bs pl e :
  seg m pm o ((nx, u) :: (nx2, u2) :: bs) pl e -> header m' o u nx2 pm ->
  (forall x, nx2 <= x < e -> x <> nx2 + 8 -> m' !! x = m !! x) -> m' !! (nx2 + 8) = Some o ->
  exists pl', seg m' pm o ((nx2, u) :: bs) pl' e.
Proof.
  cbn. intros (_ & Hn & _ & _ & Hn2 & Hm & Hs) Hh Hf Hp. destruct (seg_behind m m' _ _ _ _ _ o Hs Hf) as (pl' & Hs'); [done|].
  exists pl'. unfold SIZEOF_STRUCT_MEM in *. split; [done|]. split; [lia|]. by split.
Qed.

(** Accesses to a header that is there. *)
Lemma ld_run h off w : hp_mem h !! off = Some w -> ld off h = Some (w, h).
Proof. intros E. unfold ld. by rewrite E. Qed.
Lemma st_run h off v : is_Some (hp_mem h !! off) -> st off v h = Some (tt, set_hp_mem (<[off := v]> (hp_mem h)) h).
Proof. intros [w E]. unfold st. by rewrite E. Qed.

Definition word0 (used : bool) : Z := (if used then 2 ^ 16 else 0) + HEAP_MAGIC.
Lemma mem_used_run h m u nx pv : header (hp_mem h) m u nx pv -> mem_used m h = Some (Z.b2z u, h).
Proof. intros (E & _). unfold mem_used. munfold. rewrite (ld_run _ _ _ E). by destruct u. Qed.
Lemma mem_next_run h m u nx pv : header (hp_mem h) m u nx pv -> mem_next m h = Some (nx, h).
Proof. intros (_ & E & _). unfold mem_next. by rewrite (ld_run _ _ _ E). Qed.
Lemma mem_prev_run h m u nx pv : header (hp_mem h) m u nx pv -> mem_prev m h = Some (pv, h).
Proof. intros (_ & _ & E). unfold mem_prev. by rewrite (ld_run _ _ _ E). Qed.
Lemma set_used_run h m u nx pv u' :
  header (hp_mem h) m u nx pv -> set_mem_used m (Z.b2z u') h = Some (tt, set_hp_mem (<[m := word0 u']> (hp_mem h)) h).
Proof.
  intros (E & _). unfold set_mem_used. munfold. rewrite (ld_run _ _ _ E), st_run by eauto. by destruct u, u'.
Qed.
Lemma set_magic_run h m u nx pv : header (hp_mem h) m u nx pv -> set_mem_magic m HEAP_MAGIC h = Some (tt, h).
Proof.
  intros (E & _). unfold set_mem_magic. munfold. rewrite (ld_run _ _ _ E), st_run by eauto.
  rewrite insert_id; [by destruct h|]. rewrite E. by destruct u.
Qed.

(** The four stores that make a new header at [m]. *)
Definition put_header (m : Z) (nx pv : Z) (mem : gmap Z Z) : gmap Z Z :=
  <[m + 8 := pv]> (<[m + 4 := nx]> (<[m := word0 false]> mem)).
Lemma new_header_run {A} h m nx pv (k : M heap A) :
  is_Some (hp_mem h !! m) -> is_Some (hp_mem h !! (m + 4)) -> is_Some (hp_mem h !! (m + 8)) ->
  (set_mem_magic m HEAP_MAGIC ;; set_mem_used m 0 ;; set_mem_next m nx ;; set_mem_prev m pv ;; k) h =
    k (set_hp_mem (put_header m nx pv (hp_mem h)) h).
Proof.
  intros [w E] H4 H8. unfold set_mem_magic, set_mem_used, set_mem_next, set_mem_prev. munfold.
  rewrite (ld_run _ _ _ E), st_run by eauto. cbn.
  rewrite (ld_run _ m (w / 2 ^ 16 * 2 ^ 16 + HEAP_MAGIC)) by apply lookup_insert_eq.
  rewrite st_run by (cbn; rewrite lookup_insert_eq; eauto). cbn.
  rewrite st_run by (cbn; rewrite !lookup_insert_ne by lia; eauto). cbn.
  rewrite st_run by (cbn; rewrite !lookup_insert_ne by lia; eauto). cbn.
  unfold put_header. rewrite insert_insert_eq.
  replace (0 * 2 ^ 16 + (w / 2 ^ 16 * 2 ^ 16 + HEAP_MAGIC) mod 2 ^ 16) with (word0 false); [by destruct h|].
  rewrite (Z.add_comm (w / 2 ^ 16 * 2 ^ 16)), Z.mod_add by lia. done.
Qed.
Lemma put_header_header m nx pv mem : header (put_header m nx pv mem) m false nx pv.
Proof. unfold header, put_header. rewrite lookup_insert_eq. rewrite (lookup_insert_ne _ (m + 8) (m + 4)), lookup_insert_eq by lia. by rewrite !lookup_insert_ne, lookup_insert_eq by lia. Qed.
Lemma put_header_ne m nx pv mem x : ~ (m <= x < m + SIZEOF_STRUCT_MEM) -> put_header m nx pv mem !! x = mem !! x.
Proof. unfold put_header, SIZEOF_STRUCT_MEM. intros Hx. by rewrite !lookup_insert_ne by lia. Qed.

(** ** The heap before and after *)

Definition same_area (h h' : heap) : Prop :=
  hp_ptr h' = hp_ptr h /\ hp_end h' = hp_end h /\ hp_mem_size_aligned h' = hp_mem_size_aligned h /\ dom (hp_mem h') = dom (hp_mem h).

Lemma same_area_trans h1 h2 h3 : same_area h1 h2 -> same_area h2 h3 -> same_area h1 h3.
Proof. unfold same_area. intros (? & ? & ? & ?) (? & ? & ? & ?). split_and!; congruence. Qed.

Lemma core_update h h' bs bs' pl :
  heap_core h bs -> same_area h h' -> seg (hp_mem h') 0 0 bs' pl (hp_end h) ->
  hp_mem h' !! hp_end h = hp_mem h !! hp_end h -> hp_mem h' !! (hp_end h + 4) = hp_mem h !! (hp_end h + 4) -> heap_core h' bs'.
Proof.
  intros [Hsz He Hb Hw _ (pv & E0 & E4 & E8)] (Hp & Hen & Hms & Hd) Hs H0 H4.
  assert (Hw' : forall x, 0 <= x < hp_end h' + SIZEOF_STRUCT_MEM -> x mod 4 = 0 -> is_Some (hp_mem h' !! x)).
  { intros x Hx Hm. apply elem_of_dom. rewrite Hd. apply elem_of_dom. apply Hw; [by rewrite <- Hen|done]. }
  split; rewrite ?Hp, ?Hms, ?Hen in *; try done; [by exists pl|].
  destruct Hsz as [Hsz Hsm]. rewrite min_size_eq in Hsz.
  destruct (Hw' (hp_end h + 8)) as [pv' E8']; [unfold SIZEOF_STRUCT_MEM in *; lia| |].
  - rewrite He. unfold SIZEOF_STRUCT_MEM. rewrite <- Z.add_assoc. rewrite Z.add_mod, Hsm by lia. done.
  - exists pv'. unfold header. by rewrite H0, H4, E8'.
Qed.

(** The words of a block lie in the memory. *)
Lemma core_words h bs o : heap_core h bs -> 0 <= o -> o mod 4 = 0 -> o + SIZEOF_STRUCT_MEM <= hp_end h + SIZEOF_STRUCT_MEM ->
  is_Some (hp_mem h !! o) /\ is_Some (hp_mem h !! (o + 4)) /\ is_Some (hp_mem h !! (o + 8)).
Proof.
  intros Hc Ho Hm Hle. unfold SIZEOF_STRUCT_MEM in *.
  split_and!; apply (hc_words _ _ Hc); unfold SIZEOF_STRUCT_MEM; try lia; rewrite Z.add_mod, Hm by lia; done.
Qed.
Lemma dom_put_header m nx pv mem :
  is_Some (mem !! m) -> is_Some (mem !! (m + 4)) -> is_Some (mem !! (m + 8)) -> dom (put_header m nx pv mem) = dom mem.
Proof.
  intros H0 H4 H8. unfold put_header. rewrite !dom_insert_lookup_L; try done.
  - by rewrite lookup_insert_ne by lia.
  - by rewrite !lookup_insert_ne by lia.
Qed.
Lemma dom_st m off (v : Z) (mem : gmap Z Z) : is_Some (mem !! off) -> dom mem = m -> dom (<[off := v]> mem) = m.
Proof. intros H <-. by apply dom_insert_lookup_L. Qed.

(** Evaluating a word of an updated memory. *)
Ltac word := repeat first
  [ rewrite lookup_insert_eq
  | rewrite lookup_insert_ne by (unfold SIZEOF_STRUCT_MEM in *; lia)
  | rewrite put_header_ne by (unfold SIZEOF_STRUCT_MEM in *; lia) ].
Ltac heap_lia := unfold SIZEOF_STRUCT_MEM in *; lia.

Lemma account_run used h :
  exists mx, account used h = Some (tt, set_hp_max_mem mx (set_hp_used_mem (u32 (hp_used_mem h + used)) h)).
Proof.
  unfold account. case_bool_decide; [by eexists|]. exists (hp_max_mem h). by destruct h.
Qed.

(** What taking a block leaves alone. *)
Definition outside (o nx : Z) (h h' : heap) : Prop :=
  forall x, x < o \/ nx <= x -> x <> nx + 8 -> hp_mem h' !! x = hp_mem h !! x.


(** The memory after [o, nx) was cut at [o2]: the block at [o] keeps [u'], the rest is
    free.  The link back of the block behind is set unless that is the end. *)
Definition cut (o nx o2 e : Z) (u' : bool) (mem : gmap Z Z) : gmap Z Z :=
  let mem := <[o := word0 u']> (<[o + 4 := o2]> (put_header o2 nx o mem)) in
  if bool_decide (nx <> e) then <[nx + 8 := o2]> mem else mem.

Lemma cut_seg m pm o nx u bs2 pl e o2 u' :
  seg m pm o ((nx, u) :: bs2) pl e -> o + SIZEOF_STRUCT_MEM < o2 -> o2 + SIZEOF_STRUCT_MEM < nx -> o2 mod 4 = 0 ->
  (forall x, x < o \/ nx <= x -> x <> nx + 8 -> cut o nx o2 e u' m !! x = m !! x) /\
  exists pl', seg (cut o nx o2 e u' m) pm o ((o2, u') :: (nx, false) :: bs2) pl' e.
Proof.
  intros Hs H1 H2 H3. assert (Hf : forall x, x < o \/ nx <= x -> x <> nx + 8 -> cut o nx o2 e u' m !! x = m !! x).
  { intros x Hx Hne. unfold cut. case_bool_decide; word; done. }
  split; [done|]. pose proof Hs as ((E0 & E4 & E8) & Hn & Hm & Hs2).
  apply (seg_split m _ pm o nx u bs2 pl e o2 u' false); try done.
  - unfold header, cut. case_bool_decide; word; done.
  - apply (header_frame (put_header o2 nx o m)); [|apply put_header_header]. intros x Hx. unfold cut. case_bool_decide; word; done.
  - intros x Hx. apply Hf. lia.
  - intros Hb. pose proof (seg_lt _ _ _ _ _ _ Hs2 Hb). unfold cut. rewrite bool_decide_true by lia. by word.
Qed.

Lemma cut_dom m pm o nx u bs2 pl e o2 u' :
  seg m pm o ((nx, u) :: bs2) pl e -> o + SIZEOF_STRUCT_MEM < o2 -> o2 + SIZEOF_STRUCT_MEM < nx ->
  is_Some (m !! o2) -> is_Some (m !! (o2 + 4)) -> is_Some (m !! (o2 + 8)) -> is_Some (m !! (nx + 8)) ->
  dom (cut o nx o2 e u' m) = dom m.
Proof.
  intros ((E0 & E4 & E8) & _) H1 H2 S0 S4 S8 Sn. unfold cut.
  assert (Hd : dom (<[o := word0 u']> (<[o + 4 := o2]> (put_header o2 nx o m))) = dom m).
  { apply dom_st; [word; rewrite E0; eauto|]. apply dom_st; [word; rewrite E4; eauto|]. by apply dom_put_header. }
  case_bool_decide; [|done]. apply dom_st; [by word|done].
Qed.

(** Linking the new block to the one behind it. *)
Lemma link_back_run {A} h nx o2 (k : M heap A) :
  hp_end h = hp_mem_size_aligned h + SIZEOF_STRUCT_MEM -> is_Some (hp_mem h !! (nx + 8)) ->
  (mem_size_aligned ← gets hp_mem_size_aligned;
   (if bool_decide (nx <> mem_size_aligned + SIZEOF_STRUCT_MEM) then set_mem_prev nx o2 else mret tt) ;; k) h =
  k (set_hp_mem (if bool_decide (nx <> hp_end h) then <[nx + 8 := o2]> (hp_mem h) else hp_mem h) h).
Proof.
  intros He Hw. munfold. rewrite <- He. case_bool_decide; [|by destruct h].
  unfold set_mem_prev. by rewrite st_run.
Qed.

(** The stores of rt_malloc that cut a free block and mark its first part as used. *)
Lemma cut_run {A} h pm o nx bs2 pl o2 (k : M heap A) :
  seg (hp_mem h) pm o ((nx, false) :: bs2) pl (hp_end h) -> hp_end h = hp_mem_size_aligned h + SIZEOF_STRUCT_MEM ->
  o + SIZEOF_STRUCT_MEM < o2 -> o2 + SIZEOF_STRUCT_MEM < nx ->
  is_Some (hp_mem h !! o2) -> is_Some (hp_mem h !! (o2 + 4)) -> is_Some (hp_mem h !! (o2 + 8)) -> is_Some (hp_mem h !! (nx + 8)) ->
  (set_mem_magic o2 HEAP_MAGIC ;; set_mem_used o2 0 ;; set_mem_next o2 nx ;; set_mem_prev o2 o ;;
   set_mem_next o o2 ;; set_mem_used o 1 ;;
   mem_size_aligned ← gets hp_mem_size_aligned;
   (if bool_decide (nx <> mem_size_aligned + SIZEOF_STRUCT_MEM) then set_mem_prev nx o2 else mret tt) ;; k) h =
  k (set_hp_mem (cut o nx o2 (hp_end h) true (hp_mem h)) h).
Proof.
  intros ((E0 & E4 & E8) & _) He H1 H2 S0 S4 S8 Sn. rewrite new_header_run by done.
  set (h1 := set_hp_mem (put_header o2 nx o (hp_mem h)) h).
  set (h2 := set_hp_mem (<[o + 4 := o2]> (hp_mem h1)) h1). set (h3 := set_hp_mem (<[o := word0 true]> (hp_mem h2)) h2).
  rewrite (bind_run _ _ h1 tt h2) by (apply st_run; cbn; word; rewrite E4; eauto).
  rewrite (bind_run _ _ h2 tt h3) by (apply (set_used_run h2 o false o2 pm true); unfold header; cbn; word; done).
  rewrite (link_back_run h3) by (done || (cbn; word; done)). done.
Qed.

(** What rt_malloc makes of the block [o, nx): it is used up to [e], the rest is free. *)
Definition taken (o nx e : Z) : list (Z * bool) := if decide (e = nx) then [(nx, true)] else [(e, true); (nx, false)].

Lemma malloc_split_ok h bs1 bs2 pm o nx pl size :
  let o2 := o + SIZEOF_STRUCT_MEM + size in
  heap_core h (bs1 ++ (nx, false) :: bs2) -> seg (hp_mem h) 0 0 bs1 pm o ->
  seg (hp_mem h) pm o ((nx, false) :: bs2) pl (hp_end h) ->
  0 < size -> o2 mod 4 = 0 -> o2 + SIZEOF_STRUCT_MEM + MIN_SIZE_ALIGNED <= nx ->
  exists h', malloc_take o size h = Some (tt, h') /\ heap_core h' (bs1 ++ (o2, true) :: (nx, false) :: bs2) /\ same_area h h' /\
    hp_lfree h' = hp_lfree h /\ hp_used_mem h' = u32 (hp_used_mem h + (o2 - o)) /\ outside o nx h h'.
Proof.
  intros o2 Hc Hs1 Hs2 Hsz Hm2 Hfit. rewrite min_size_eq in Hfit. pose proof Hs2 as (Hh & Hn & Hm & Hs3).
  pose proof (seg_le _ _ _ _ _ _ Hs1) as Hpos. pose proof (seg_le _ _ _ _ _ _ Hs3) as Hle. pose proof (seg_gap _ _ _ _ _ _ Hs3) as Hgap.
  pose proof (hc_base _ _ Hc) as (Hb1 & Hb2 & Hb3).
  assert (Hlo : o + SIZEOF_STRUCT_MEM < o2) by (unfold o2; lia). assert (H2 : o2 + SIZEOF_STRUCT_MEM < nx) by heap_lia.
  destruct (core_words _ _ o2 Hc) as (S0 & S4 & S8); [heap_lia|done|heap_lia|].
  destruct (core_words _ _ nx Hc) as (_ & _ & Sn8); [heap_lia|done|heap_lia|].
  destruct (cut_seg _ _ _ _ _ _ _ _ o2 true Hs2 Hlo H2 Hm2) as (Hf & pl' & Hs').
  set (m' := cut o nx o2 (hp_end h) true (hp_mem h)) in *.
  destruct (account_run (size + SIZEOF_STRUCT_MEM) (set_hp_mem m' h)) as (mx & Ea).
  set (h' := set_hp_max_mem mx _) in Ea. exists h'.
  assert (Harea : same_area h h') by (split_and!; try done; by apply (cut_dom _ pm o nx false bs2 pl)).
  split_and!; try done.
  - unfold malloc_take. rewrite (bind_run _ _ _ _ _ (mem_next_run _ _ _ _ _ Hh)), (wrap_id 32) by heap_lia.
    rewrite min_size_eq, bool_decide_true by (unfold o2 in *; heap_lia). fold o2.
    erewrite bind_run; [by rewrite (set_magic_run h' o true o2 pm) by (by destruct Hs' as (Hh' & _))|].
    rewrite (cut_run h pm o nx bs2 pl o2) by (done || apply (hc_end _ _ Hc)). exact Ea.
  - apply (core_update h h' (bs1 ++ (nx, false) :: bs2) _ pl' Hc Harea); [|apply Hf; heap_lia..].
    apply seg_app. exists pm, o. split; [|done]. apply (seg_frame (hp_mem h)); [|done]. intros x Hx. apply Hf; heap_lia.
  - cbn. do 2 f_equal. unfold o2. heap_lia.
Qed.

Lemma malloc_whole_ok h bs1 bs2 pm o nx pl size :
  heap_core h (bs1 ++ (nx, false) :: bs2) -> seg (hp_mem h) 0 0 bs1 pm o ->
  seg (hp_mem h) pm o ((nx, false) :: bs2) pl (hp_end h) ->
  nx < o + SIZEOF_STRUCT_MEM + size + SIZEOF_STRUCT_MEM + MIN_SIZE_ALIGNED ->
  exists h', malloc_take o size h = Some (tt, h') /\ heap_core h' (bs1 ++ (nx, true) :: bs2) /\ same_area h h' /\
    hp_lfree h' = hp_lfree h /\ hp_used_mem h' = u32 (hp_used_mem h + (nx - o)) /\ outside o nx h h'.
Proof.
  intros Hc Hs1 Hs2 Hfit. pose proof Hs2 as (Hh & Hn & Hm & Hs3). pose proof Hh as (E0 & E4 & E8).
  pose proof (seg_le _ _ _ _ _ _ Hs1) as Hpos. pose proof (seg_le _ _ _ _ _ _ Hs3) as Hle. pose proof (seg_gap _ _ _ _ _ _ Hs3) as Hgap.
  pose proof (hc_base _ _ Hc) as (Hb1 & Hb2 & Hb3).
  destruct (account_run (nx - o) (set_hp_mem (<[o := word0 true]> (hp_mem h)) h)) as (mx & Ea).
  set (h' := set_hp_max_mem mx _) in Ea. exists h'.
  assert (Hh' : header (hp_mem h') o true nx pm) by (unfold header; cbn; word; done).
  assert (Harea : same_area h h') by (split_and!; try done; cbn; apply dom_st; [rewrite E0; eauto|done]).
  assert (Hf : forall x, x < o \/ nx <= x -> hp_mem h' !! x = hp_mem h !! x) by (intros x Hx; cbn; word; done).
  split_and!; try done.
  - unfold malloc_take. rewrite (bind_run _ _ _ _ _ (mem_next_run _ _ _ _ _ Hh)), (wrap_id 32) by heap_lia.
    pose proof (set_used_run h o false nx pm true Hh) as Eu. cbn [Z.b2z] in Eu.
    rewrite bool_decide_false by heap_lia. munfold. rewrite Eu, Ea. by rewrite (set_magic_run h' o true nx pm).
  - apply (core_update h h' (bs1 ++ (nx, false) :: bs2) _ pl Hc Harea); [|apply Hf; heap_lia..].
    apply seg_app. exists pm, o. split; [apply (seg_frame (hp_mem h)); [|done]; intros x Hx; apply Hf; heap_lia|].
    apply (seg_retag (hp_mem h) _ _ _ _ false); [done|done|]. intros x Hx. apply Hf. heap_lia.
  - intros x Hx _. by apply Hf.
Qed.

Lemma malloc_take_ok h bs1 bs2 pm o nx pl size :
  heap_core h (bs1 ++ (nx, false) :: bs2) -> seg (hp_mem h) 0 0 bs1 pm o ->
  seg (hp_mem h) pm o ((nx, false) :: bs2) pl (hp_end h) ->
  MIN_SIZE_ALIGNED <= size -> size mod 4 = 0 -> o + SIZEOF_STRUCT_MEM + size <= nx -> o mod 4 = 0 ->
  exists h' e, malloc_take o size h = Some (tt, h') /\ heap_core h' (bs1 ++ taken o nx e ++ bs2) /\ same_area h h' /\
    o + SIZEOF_STRUCT_MEM + size <= e <= nx /\
    hp_lfree h' = hp_lfree h /\ hp_used_mem h' = u32 (hp_used_mem h + (e - o)) /\ outside o nx h h'.
Proof.
  intros Hc Hs1 Hs2 Hmin Hmod Hfit Ho. unfold taken.
  destruct (decide (o + SIZEOF_STRUCT_MEM + size + SIZEOF_STRUCT_MEM + MIN_SIZE_ALIGNED <= nx)) as [Hsp|Hsp].
  - destruct (malloc_split_ok h bs1 bs2 pm o nx pl size Hc Hs1 Hs2) as (h' & E & Hc' & Ha & Hl & Hu & Hf); try done.
    { rewrite min_size_eq in Hmin. lia. }
    { unfold SIZEOF_STRUCT_MEM. rewrite (Z.add_mod _ size), (Z.add_mod o), Ho, Hmod by lia. done. }
    exists h', (o + SIZEOF_STRUCT_MEM + size). rewrite min_size_eq in *. rewrite decide_False by heap_lia.
    repeat (split; [done||heap_lia|]). done.
  - destruct (malloc_whole_ok h bs1 bs2 pm o nx pl size Hc Hs1 Hs2) as (h' & E & Hc' & Ha & Hl & Hu & Hf); [lia|].
    exists h', nx. rewrite decide_True by done. repeat (split; [done||lia|]). done.
Qed.

(** ** Free neighbours *)

Definition head_free (bs : list (Z * bool)) : Prop := match bs with (_, false) :: _ => True | _ => False end.
Definition last_free (bs : list (Z * bool)) : Prop := match last bs with Some (_, false) => True | _ => False end.

Lemma merged_cons nx u bs : merged ((nx, u) :: bs) <-> merged bs /\ (u = false -> ~ head_free bs).
Proof. destruct u, bs as [|[? []] bs]; cbn; naive_solver. Qed.
Lemma merged_app bs1 bs2 : merged (bs1 ++ bs2) <-> merged bs1 /\ merged bs2 /\ ~ (last_free bs1 /\ head_free bs2).
Proof.
  induction bs1 as [|[nx u] bs1 IH]; [cbn; tauto|]. change (((nx, u) :: bs1) ++ bs2) with ((nx, u) :: (bs1 ++ bs2)).
  rewrite !merged_cons, IH. destruct bs1 as [|[nx' u'] bs1].
  - unfold last_free. cbn. destruct u; naive_solver.
  - replace (last_free ((nx, u) :: (nx', u') :: bs1)) with (last_free ((nx', u') :: bs1)) by done.
    replace (head_free (((nx', u') :: bs1) ++ bs2)) with (head_free ((nx', u') :: bs1)) by done. tauto.
Qed.
Lemma merged_free_cons nx bs : merged ((nx, false) :: bs) -> merged bs /\ ~ head_free bs.
Proof. rewrite merged_cons. tauto. Qed.
Lemma merged_taken bs1 o nx e bs2 :
  merged (bs1 ++ (nx, false) :: bs2) -> merged (bs1 ++ taken o nx e ++ bs2).
Proof.
  rewrite !merged_app. intros (H1 & [H2 H3]%merged_free_cons & _). unfold taken. destruct (decide (e = nx)); cbn [app].
  - rewrite merged_cons. naive_solver.
  - rewrite !merged_cons. naive_solver.
Qed.

Lemma used_taken o nx e bs : used_bytes o (taken o nx e ++ bs) = (e - o) + used_bytes nx bs.
Proof. unfold taken. destruct (decide (e = nx)) as [->|]; cbn; lia. Qed.
Lemma starts_taken o nx e bs x : x ∈ starts o ((nx, false) :: bs) -> x ∈ starts o (taken o nx e ++ bs).
Proof.
  unfold starts, taken. cbn. destruct (decide (e = nx)) as [->|]; cbn; [done|]. rewrite !elem_of_cons. tauto.
Qed.

(** The next free block from lfree on. *)
Lemma lfree_advance_ok fuel h bs pm pl :
  seg (hp_mem h) pm (hp_lfree h) bs pl (hp_end h) -> (exists pv, header (hp_mem h) (hp_end h) true (hp_end h) pv) ->
  (length bs < fuel)%nat ->
  exists l, lfree_advance fuel h = Some (tt, set_hp_lfree l h) /\ (l = hp_end h \/ l ∈ starts (hp_lfree h) bs).
Proof.
  revert h bs pm. induction fuel as [|fuel IH]; intros h bs pm Hs (pv & He) Hf; [lia|]. cbn [lfree_advance]. munfold.
  destruct bs as [|[nx u] bs].
  - destruct Hs as [_ Hl]. rewrite Hl, (mem_used_run _ _ _ _ _ He), bool_decide_true, bool_decide_false by (done || naive_solver).
    exists (hp_end h). split; [rewrite <- Hl at 1; by destruct h|by left].
  - pose proof Hs as (Hh & Hn & Hm & Hs'). rewrite (mem_used_run _ _ _ _ _ Hh). destruct u; cbn [Z.b2z].
    + pose proof (seg_le _ _ _ _ _ _ Hs') as Hle. rewrite !bool_decide_true by (heap_lia || done). cbn [andb]. rewrite (mem_next_run _ _ _ _ _ Hh).
      destruct (IH (set_hp_lfree nx h) bs (hp_lfree h)) as (l & E & Hl); [done|by exists pv|cbn in Hf; lia|].
      exists l. munfold in E. rewrite E. split; [by destruct h|]. destruct Hl as [Hl|Hl]; [by left|right].
      unfold starts. cbn. apply elem_of_cons. by right.
    + rewrite bool_decide_false by naive_solver. exists (hp_lfree h). split; [by destruct h|]. right. apply elem_of_cons. by left.
Qed.

(** ** Allocating *)

Record malloced (h : heap) (bs : list (Z * bool)) (size p : Z) (h' : heap) (bs' : list (Z * bool)) : Prop := {
  ml_rep : heap_rep h' bs';
  ml_split : exists bs1 nx bs2 pm e, let o := p - SIZEOF_STRUCT_MEM in
    bs = bs1 ++ (nx, false) :: bs2 /\ bs' = bs1 ++ taken o nx e ++ bs2 /\ seg (hp_mem h) 0 0 bs1 pm o /\
    o mod 4 = 0 /\ p + size <= e <= nx /\ nx <= hp_end h /\ outside o nx h h';
  ml_area : same_area h h';
}.

Lemma seg_end m m' pv pv' off bs pl pl' e e' : seg m pv off bs pl e -> seg m' pv' off bs pl' e' -> e = e'.
Proof.
  revert pv pv' off. induction bs as [|[nx u] bs IH]; intros pv pv' off; cbn; [by intros [_ <-] [_ <-]|].
  intros (_ & _ & _ & H1) (_ & _ & _ & H2). by apply (IH _ _ _ H1 H2).
Qed.

(** The invariants after the block was taken, whatever block lfree points to. *)
Lemma taken_rep h h1 bs1 bs2 pm o nx size e l :
  heap_rep h (bs1 ++ (nx, false) :: bs2) -> seg (hp_mem h) 0 0 bs1 pm o -> o mod 4 = 0 -> nx <= hp_end h ->
  heap_core h1 (bs1 ++ taken o nx e ++ bs2) -> same_area h h1 -> o + SIZEOF_STRUCT_MEM + size <= e <= nx ->
  hp_used_mem h1 = u32 (hp_used_mem h + (e - o)) -> outside o nx h h1 ->
  l = hp_end h \/ l ∈ starts 0 (bs1 ++ taken o nx e ++ bs2) ->
  malloced h (bs1 ++ (nx, false) :: bs2) size (o + SIZEOF_STRUCT_MEM) (set_hp_lfree l h1) (bs1 ++ taken o nx e ++ bs2).
Proof.
  intros [Hc Hmg Hlf Hus] Hs1 Ho Hle Hc1 Ha He Hu1 Hout Hl.
  destruct (hc_seg _ _ Hc1) as (pl1 & Hseg1). pose proof Hseg1 as (pm1 & om1 & Hsa & _)%seg_app.
  pose proof (seg_end _ _ _ _ _ _ _ _ _ _ Hs1 Hsa) as <-. split; [|..].
  - split; [by destruct Hc1|by apply merged_taken|destruct Ha as (_ & Ha & _); cbn; by rewrite Ha|]. cbn.
    pose proof (used_bounds _ _ _ _ _ _ Hseg1) as Hb. pose proof (hc_base _ _ Hc1) as (? & _ & ?).
    rewrite Hu1, Hus, (used_app _ _ _ _ _ _ _ Hs1), (used_app _ _ _ _ _ _ _ Hsa), used_taken in *. cbn.
    rewrite (wrap_id 32); heap_lia.
  - exists bs1, nx, bs2, pm, e. cbn zeta. replace (o + SIZEOF_STRUCT_MEM - SIZEOF_STRUCT_MEM) with o by lia.
    do 6 (split; [done|]). exact Hout.
  - exact Ha.
Qed.

(** Taking the block at [o] and moving lfree on if it pointed there. *)
Lemma malloc_here_ok fuel h bs1 bs2 pm o nx pl size :
  heap_rep h (bs1 ++ (nx, false) :: bs2) -> seg (hp_mem h) 0 0 bs1 pm o ->
  seg (hp_mem h) pm o ((nx, false) :: bs2) pl (hp_end h) ->
  MIN_SIZE_ALIGNED <= size -> size mod 4 = 0 -> o + SIZEOF_STRUCT_MEM + size <= nx -> o mod 4 = 0 ->
  (S (S (length bs2)) < fuel)%nat ->
  exists h' bs', (malloc_take o size ;; lfree ← gets hp_lfree;
      (if bool_decide (o = lfree) then lfree_advance fuel else mret tt) ;; mret (Some (o + SIZEOF_STRUCT_MEM))) h =
      Some (Some (o + SIZEOF_STRUCT_MEM), h') /\
    malloced h (bs1 ++ (nx, false) :: bs2) size (o + SIZEOF_STRUCT_MEM) h' bs'.
Proof.
  intros Hr Hs1 Hs2 Hmin Hmod Hfit Ho Hfuel. pose proof Hs2 as (_ & _ & _ & Hs3). pose proof (seg_le _ _ _ _ _ _ Hs3) as Hle.
  destruct (malloc_take_ok h bs1 bs2 pm o nx pl size (hr_core _ _ Hr) Hs1 Hs2 Hmin Hmod Hfit Ho)
    as (h1 & e & E & Hc1 & Ha & He & Hl1 & Hu1 & Hout).
  rewrite (bind_run _ _ _ _ _ E). destruct (hc_seg _ _ Hc1) as (pl1 & (pm1 & om1 & Hsa & Hsb)%seg_app).
  pose proof (seg_end _ _ _ _ _ _ _ _ _ _ Hs1 Hsa) as <-.
  assert (Hend : hp_end h1 = hp_end h) by (by destruct Ha as (_ & -> & _)).
  unfold gets. cbn. munfold. case_bool_decide as Hol.
  - destruct (lfree_advance_ok fuel h1 (taken o nx e ++ bs2) pm1 pl1) as (l & El & Hl).
    + by rewrite <- Hol.
    + apply (hc_last _ _ Hc1).
    + unfold taken. destruct (decide (e = nx)); cbn; lia.
    + exists (set_hp_lfree l h1), (bs1 ++ taken o nx e ++ bs2). munfold in El. rewrite El. split; [done|].
      apply (taken_rep h h1 bs1 bs2 pm); try done. rewrite (starts_app _ _ _ _ _ _ _ Hsa), elem_of_app.
      rewrite <- Hol, Hend in Hl. tauto.
  - exists (set_hp_lfree (hp_lfree h1) h1), (bs1 ++ taken o nx e ++ bs2). split; [by destruct h1|].
    apply (taken_rep h h1 bs1 bs2 pm); try done. rewrite Hl1, (starts_app _ _ _ _ _ _ _ Hsa), elem_of_app.
    destruct (hr_lfree _ _ Hr) as [Hlf|Hlf]; [by left|right]. rewrite (starts_app _ _ _ _ _ _ _ Hs1), elem_of_app in Hlf.
    destruct Hlf as [?|?]; [by left|right; by apply starts_taken].
Qed.

(** A free block of enough size from [ptr] on, unless it is the last one and fits exactly. *)
Definition fits (size lim : Z) (b : Z * Z * bool) : Prop :=
  b.2 = false /\ size <= b.1.2 - (b.1.1 + SIZEOF_STRUCT_MEM) /\ b.1.1 < lim.

Lemma malloc_search_ok fuel h bs1 bs2 pm ptr pl size :
  heap_rep h (bs1 ++ bs2) -> seg (hp_mem h) 0 0 bs1 pm ptr -> seg (hp_mem h) pm ptr bs2 pl (hp_end h) -> ptr mod 4 = 0 ->
  MIN_SIZE_ALIGNED <= size <= hp_mem_size_aligned h -> size mod 4 = 0 -> (S (length bs2) < fuel)%nat ->
  (Forall (fun b => ~ fits size (hp_mem_size_aligned h - size) b) (blocks ptr bs2) /\
     malloc_search fuel ptr size h = Some (None, h)) \/
  exists p h' bs', malloc_search fuel ptr size h = Some (Some p, h') /\ malloced h (bs1 ++ bs2) size p h' bs'.
Proof.
  revert bs1 bs2 pm ptr. induction fuel as [|fuel IH]; intros bs1 bs2 pm ptr Hr Hs1 Hs2 Hp Hsz Hmod Hfuel; [lia|].
  pose proof (hr_core _ _ Hr) as Hc. pose proof (hc_base _ _ Hc) as (Hb1 & Hb2 & Hb3). pose proof (hc_end _ _ Hc) as He.
  pose proof (seg_le _ _ _ _ _ _ Hs1) as Hpos. pose proof (seg_le _ _ _ _ _ _ Hs2) as Hle. rewrite min_size_eq in Hsz.
  cbn [malloc_search]. munfold. rewrite (wrap_id 32 (hp_mem_size_aligned h - size)) by heap_lia. case_bool_decide as Hlim.
  2:{ left. split; [|done]. apply Forall_forall. intros [[o nx] u] Hin (_ & _ & Ho). cbn in Ho.
      pose proof (blocks_bounds _ _ _ _ _ _ _ _ _ Hs2 Hin). lia. }
  destruct bs2 as [|[nx u] bs2]; [destruct Hs2 as [_ ->]; heap_lia|]. pose proof Hs2 as (Hh & Hn & Hm & Hs3).
  pose proof (seg_le _ _ _ _ _ _ Hs3) as Hle3.
  rewrite (mem_used_run _ _ _ _ _ Hh), (mem_next_run _ _ _ _ _ Hh), (wrap_id 32) by heap_lia.
  destruct (decide (u = false /\ size <= nx - (ptr + SIZEOF_STRUCT_MEM))) as [[-> Hfit]|Hnfit].
  - rewrite !bool_decide_true by (done || heap_lia). cbn [andb]. right.
    destruct (malloc_here_ok (S fuel) h bs1 bs2 pm ptr nx pl size Hr Hs1 Hs2) as (h' & bs' & E & Hml); try done; [rewrite min_size_eq; lia|heap_lia|].
    munfold in E. exists (ptr + SIZEOF_STRUCT_MEM), h', bs'. by rewrite E.
  - replace (bool_decide (Z.b2z u = 0) && _) with false
      by (symmetry; destruct u; [done|]; cbn [Z.b2z]; rewrite bool_decide_true, bool_decide_false by (done || naive_solver lia); done).
    replace (bs1 ++ (nx, u) :: bs2) with ((bs1 ++ [(nx, u)]) ++ bs2) in * by (by rewrite <- app_assoc).
    destruct (IH (bs1 ++ [(nx, u)]) bs2 ptr nx) as [(Hno & E)|?]; try done.
    + apply seg_app. exists pm, ptr. split; [done|]. by repeat (split; [done|]).
    + cbn in Hfuel. lia.
    + left. split; [|done]. cbn. constructor; [|done]. intros (Hu & Hf & _). cbn in *. by apply Hnfit.
    + by right.
Qed.

(** ** Freeing *)

(** Merging the block at [o], whose end is [x], with the one that ends at [y]. *)
Definition joined (o y x : Z) (h : heap) : heap :=
  set_hp_mem (<[y + 8 := o]> (<[o + 4 := y]> (hp_mem h))) (if bool_decide (hp_lfree h = x) then set_hp_lfree o h else h).

Lemma join_run h bs pm o x ux y uy bs2 pl :
  heap_core h bs -> seg (hp_mem h) pm o ((x, ux) :: (y, uy) :: bs2) pl (hp_end h) -> 0 <= o ->
  (modify (fun h => if bool_decide (hp_lfree h = x) then set_hp_lfree o h else h) ;;
   n ← mem_next x; set_mem_next o n ;; set_mem_prev n o) h = Some (tt, joined o y x h).
Proof.
  intros Hc (Hh & Hn & Hm & Hh2 & Hn2 & Hm2 & Hs) Hpos. pose proof (seg_le _ _ _ _ _ _ Hs) as Hle.
  destruct (core_words _ _ y Hc) as (_ & _ & S8); [heap_lia|done|heap_lia|]. destruct Hh as (_ & E4 & _).
  set (h1 := if bool_decide (hp_lfree h = x) then set_hp_lfree o h else h).
  assert (Em : hp_mem h1 = hp_mem h) by (unfold h1; by case_bool_decide).
  unfold modify. munfold. fold h1. rewrite (mem_next_run h1 x uy y o) by (by rewrite Em).
  unfold set_mem_next. rewrite st_run by (rewrite Em, E4; eauto). unfold set_mem_prev. rewrite st_run by (cbn; rewrite Em; by word).
  cbn. rewrite Em. unfold joined. fold h1. by destruct h1.
Qed.

Lemma join_core h bs1 pm o x ux y uy bs2 pl :
  heap_core h (bs1 ++ (x, ux) :: (y, uy) :: bs2) -> seg (hp_mem h) 0 0 bs1 pm o ->
  seg (hp_mem h) pm o ((x, ux) :: (y, uy) :: bs2) pl (hp_end h) ->
  heap_core (joined o y x h) (bs1 ++ (y, ux) :: bs2) /\ same_area h (joined o y x h) /\
  hp_used_mem (joined o y x h) = hp_used_mem h /\ outside o y h (joined o y x h).
Proof.
  intros Hc Hs1 Hs2. pose proof (seg_le _ _ _ _ _ _ Hs1) as Hpos. pose proof Hs2 as (Hh & Hn & Hm & Hh2 & Hn2 & Hm2 & Hs).
  pose proof (seg_le _ _ _ _ _ _ Hs) as Hle. pose proof (seg_gap _ _ _ _ _ _ Hs) as Hgap.
  destruct (core_words _ _ y Hc) as (_ & _ & S8); [heap_lia|done|heap_lia|].
  assert (Em : hp_mem (joined o y x h) = <[y + 8 := o]> (<[o + 4 := y]> (hp_mem h))) by done.
  assert (Hout : outside o y h (joined o y x h)).
  { intros z Hz Hne. rewrite Em. destruct Hz; by word. }
  assert (Ha : same_area h (joined o y x h)).
  { unfold same_area. rewrite Em. destruct Hh as (_ & E4 & _).
    split_and!; try (unfold joined; by case_bool_decide). apply dom_st; [by word|]. apply dom_st; [rewrite E4; eauto|done]. }
  split_and!; try done; [|unfold joined; by case_bool_decide].
  destruct (seg_merge (hp_mem h) (hp_mem (joined o y x h)) pm o x ux y uy bs2 pl (hp_end h) Hs2) as (pl' & Hs').
  { destruct Hh as (E0 & E4 & E8). unfold header. rewrite Em. by word. }
  { intros z Hz Hne. apply Hout; [lia|done]. }
  { rewrite Em. by word. }
  apply (core_update h _ (bs1 ++ (x, ux) :: (y, uy) :: bs2) _ pl' Hc Ha); [|apply Hout; heap_lia..].
  apply seg_app. exists pm, o. split; [|done]. apply (seg_frame (hp_mem h)); [|done]. intros z Hz. apply Hout; heap_lia.
Qed.
Lemma joined_lfree o y x h : hp_lfree (joined o y x h) = if bool_decide (hp_lfree h = x) then o else hp_lfree h.
Proof. unfold joined. by case_bool_decide. Qed.

(** The list of blocks after the block [o, nx) between [bs1] and [bs2] became free. *)
Definition plug_right (nx : Z) (bs : list (Z * bool)) : Z * list (Z * bool) :=
  match bs with (nx2, false) :: bs => (nx2, bs) | _ => (nx, bs) end.

Lemma plug_forward_ok h bs1 pm o nx bs2 pl :
  heap_core h (bs1 ++ (nx, false) :: bs2) -> seg (hp_mem h) 0 0 bs1 pm o -> seg (hp_mem h) pm o ((nx, false) :: bs2) pl (hp_end h) ->
  let '(nx', bs2') := plug_right nx bs2 in
  exists h', plug_forward o h = Some (tt, h') /\ heap_core h' (bs1 ++ (nx', false) :: bs2') /\ same_area h h' /\
    hp_used_mem h' = hp_used_mem h /\ outside o nx' h h' /\
    hp_lfree h' = (if decide (nx' <> nx /\ hp_lfree h = nx) then o else hp_lfree h).
Proof.
  intros Hc Hs1 Hs2. pose proof (seg_le _ _ _ _ _ _ Hs1) as Hpos. pose proof Hs2 as (Hh & Hn & Hm & Hs). unfold plug_forward. munfold.
  rewrite (mem_next_run _ _ _ _ _ Hh). destruct bs2 as [|[y uy] bs2].
  - destruct Hs as [_ ->]. destruct (hc_last _ _ Hc) as (pv & Hl). rewrite (mem_used_run _ _ _ _ _ Hl). cbn.
    rewrite !andb_false_r. exists h. rewrite decide_False by naive_solver. by split_and!.
  - pose proof Hs as (Hh2 & Hn2 & Hm2 & Hs3). pose proof (seg_le _ _ _ _ _ _ Hs3) as Hle. rewrite (mem_used_run _ _ _ _ _ Hh2). destruct uy; cbn.
    + rewrite andb_false_r. exists h. rewrite decide_False by naive_solver. by split_and!.
    + rewrite !bool_decide_true by (done || heap_lia). cbn. pose proof (join_run _ _ _ _ _ _ _ _ _ _ Hc Hs2 Hpos) as E. munfold in E. cbn in E.
      destruct (join_core _ _ _ _ _ _ _ _ _ _ Hc Hs1 Hs2) as (Hc' & Ha & Hu & Hout). exists (joined o y nx h). rewrite joined_lfree.
      split_and!; try done. case_bool_decide; [rewrite decide_True|rewrite decide_False]; try done; [split; [heap_lia|done]|naive_solver].
Qed.

Lemma plug_backward_ok h bs1 pm o nx bs2 pl :
  heap_core h (bs1 ++ (nx, false) :: bs2) -> seg (hp_mem h) 0 0 bs1 pm o -> seg (hp_mem h) pm o ((nx, false) :: bs2) pl (hp_end h) ->
  exists h', plug_backward o h = Some (tt, h') /\ same_area h h' /\ hp_used_mem h' = hp_used_mem h /\ outside pm nx h h' /\
    ((~ last_free bs1 /\ h' = h) \/
     exists bs1' pm', bs1 = bs1' ++ [(o, false)] /\ seg (hp_mem h) 0 0 bs1' pm' pm /\ pm < o /\ heap_core h' (bs1' ++ (nx, false) :: bs2) /\
       hp_lfree h' = (if decide (hp_lfree h = o) then pm else hp_lfree h)).
Proof.
  intros Hc Hs1 Hs2. pose proof Hs2 as (Hh & Hn & Hm & Hs). unfold plug_backward. munfold. rewrite (mem_prev_run _ _ _ _ _ Hh).
  destruct (decide (bs1 = [])) as [->|Hne].
  - destruct Hs1 as [<- <-]. rewrite (mem_used_run _ _ _ _ _ Hh), bool_decide_false by naive_solver. exists h. split_and!; try done. left. by split; [intros []|].
  - destruct (exists_last Hne) as (bs1' & [x u] & ->). apply seg_app in Hs1 as (pm' & om & Hs1 & (Hhp & Hnp & Hmp & [-> ->])).
    rewrite (mem_used_run _ _ _ _ _ Hhp). destruct u; cbn.
    + rewrite andb_false_r. exists h. split_and!; try done. left. split; [|done]. unfold last_free. rewrite last_snoc. by intros [].
    + rewrite bool_decide_true by heap_lia. cbn. rewrite <- app_assoc in Hc. cbn in Hc.
      assert (Hs2' : seg (hp_mem h) pm' pm ((o, false) :: (nx, false) :: bs2) pl (hp_end h)) by (by repeat (split; [done|])).
      pose proof (join_run _ _ _ _ _ _ _ _ _ _ Hc Hs2' (seg_le _ _ _ _ _ _ Hs1)) as E. munfold in E. cbn in E.
      destruct (join_core _ _ _ _ _ _ _ _ _ _ Hc Hs1 Hs2') as (Hc' & Ha & Hu & Hout). exists (joined pm nx o h).
      split_and!; try done. right. exists bs1', pm'. split; [done|]. split; [done|]. split; [heap_lia|]. split; [done|].
      rewrite joined_lfree. case_bool_decide; [by rewrite decide_True|by rewrite decide_False].
Qed.

(** ** The allocated blocks *)

(** The allocated blocks in address order: offset of the header and end. *)
Definition allocs (off : Z) (bs : list (Z * bool)) : list (Z * Z) :=
  fst <$> filter (fun b : Z * Z * bool => b.2 = true) (blocks off bs).
(** No word of the data of these blocks has changed. *)
Definition data_kept (l : list (Z * Z)) (h h' : heap) : Prop :=
  forall o nx x, (o, nx) ∈ l -> o + SIZEOF_STRUCT_MEM <= x < nx -> hp_mem h' !! x = hp_mem h !! x.

Lemma allocs_app off bs1 bs2 m pv pm om :
  seg m pv off bs1 pm om -> allocs off (bs1 ++ bs2) = allocs off bs1 ++ allocs om bs2.
Proof. intros Hs. unfold allocs. by rewrite (blocks_app _ _ _ _ _ _ _ Hs), filter_app, fmap_app. Qed.
Lemma allocs_cons off nx u bs : allocs off ((nx, u) :: bs) = (if u then [(off, nx)] else []) ++ allocs nx bs.
Proof. unfold allocs. cbn [blocks]. rewrite filter_cons. destruct u; [by rewrite decide_True|by rewrite decide_False]. Qed.
Lemma allocs_bounds m pv off bs pl e o nx :
  seg m pv off bs pl e -> (o, nx) ∈ allocs off bs -> off <= o /\ o + SIZEOF_STRUCT_MEM < nx /\ nx <= e.
Proof.
  intros Hs Hin. apply list_elem_of_fmap in Hin as ([[o' nx'] u] & [= -> ->] & Hin).
  apply list_elem_of_filter in Hin as [_ Hin]. by apply (blocks_bounds _ _ _ _ _ _ _ _ _ Hs Hin).
Qed.

(** A change inside one block keeps the data of all the others. *)
Lemma outside_data h h' m pm lo hi bs1 bs2 pv' pl e :
  seg m 0 0 bs1 pm lo -> seg m pv' hi bs2 pl e -> lo <= hi -> outside lo hi h h' ->
  data_kept (allocs 0 bs1 ++ allocs hi bs2) h h'.
Proof.
  intros Hs1 Hs2 Hle Hout o nx x Hin Hx. apply elem_of_app in Hin as [Hin|Hin].
  - pose proof (allocs_bounds _ _ _ _ _ _ _ _ Hs1 Hin). apply Hout; heap_lia.
  - pose proof (allocs_bounds _ _ _ _ _ _ _ _ Hs2 Hin). apply Hout; heap_lia.
Qed.
Lemma data_kept_trans l h1 h2 h3 : data_kept l h1 h2 -> data_kept l h2 h3 -> data_kept l h1 h3.
Proof. intros H1 H2 o nx x Hin Hx. by rewrite (H2 o nx x Hin Hx), (H1 o nx x Hin Hx). Qed.

Lemma merged_plug bs1 nx bs2 :
  merged bs1 -> merged bs2 -> ~ last_free bs1 ->
  let '(nx', bs2') := plug_right nx bs2 in merged (bs1 ++ (nx', false) :: bs2').
Proof.
  intros H1 H2 Hl. unfold plug_right. destruct bs2 as [|[y []] bs2]; rewrite merged_app, merged_cons.
  - naive_solver.
  - cbn. naive_solver.
  - apply merged_free_cons in H2 as [H2 H3]. naive_solver.
Qed.
Lemma merged_snoc bs nx : merged (bs ++ [(nx, false)]) -> merged bs /\ ~ last_free bs.
Proof. rewrite merged_app. intros (H1 & _ & H2). split; [done|]. intros Hl. apply H2. by split. Qed.

(** The state after a block has become free and was merged with its neighbours. *)
Record plugged (h : heap) (bs1 : list (Z * bool)) (nx : Z) (bs2 : list (Z * bool)) (h' : heap) (bs' : list (Z * bool)) : Prop := {
  pg_rep : heap_rep h' bs';
  pg_area : same_area h h';
  pg_allocs : allocs 0 bs' = allocs 0 bs1 ++ allocs nx bs2;
  pg_data : data_kept (allocs 0 bs1 ++ allocs nx bs2) h h';
}.

Lemma plug_right_facts m pv nx bs pl e :
  seg m pv nx bs pl e -> let '(nx', bs') := plug_right nx bs in
  nx <= nx' /\ allocs nx' bs' = allocs nx bs /\ used_bytes nx' bs' = used_bytes nx bs /\
  (forall s, s ∈ starts nx bs -> s ∈ starts nx' bs' \/ nx' <> nx /\ s = nx) /\ exists pv', seg m pv' nx' bs' pl e.
Proof.
  unfold plug_right. destruct bs as [|[y []] bs]; intros Hs; cbn -[starts allocs].
  - split_and!; try done; eauto.
  - split_and!; try done; eauto.
  - destruct Hs as (Hh & Hn & Hm & Hs). split_and!; [heap_lia|by rewrite allocs_cons|lia| |eauto].
    intros s. unfold starts. cbn. intros [->|Hin]%elem_of_cons; [right; heap_lia|by left].
Qed.

Lemma plug_holes_ok h bs1 pm o nx bs2 pl :
  heap_core h (bs1 ++ (nx, false) :: bs2) -> seg (hp_mem h) 0 0 bs1 pm o -> seg (hp_mem h) pm o ((nx, false) :: bs2) pl (hp_end h) ->
  merged bs1 -> merged bs2 -> (hp_lfree h = hp_end h \/ hp_lfree h ∈ starts 0 (bs1 ++ (nx, false) :: bs2)) ->
  hp_used_mem h = used_bytes 0 bs1 + used_bytes nx bs2 ->
  exists h' bs', plug_holes o h = Some (tt, h') /\ plugged h bs1 nx bs2 h' bs'.
Proof.
  intros Hc Hs1 Hs2 Hm1 Hm2 Hlf Hu. pose proof (plug_forward_ok _ _ _ _ _ _ _ Hc Hs1 Hs2) as Hfw.
  pose proof Hs2 as (_ & Hn & _ & Hs3). pose proof (plug_right_facts _ _ _ _ _ _ Hs3) as Hpr.
  pose proof (merged_plug bs1 nx bs2 Hm1 Hm2) as Hmp. pose proof (merged_plug (removelast bs1) nx bs2) as Hmp'.
  destruct (plug_right nx bs2) as [nx' bs2']. destruct Hpr as (Hnx & Hal & Hub & Hst & pvr & Hsr).
  destruct Hfw as (h1 & E1 & Hc1 & Ha1 & Hu1 & Hout1 & Hl1).
  destruct (hc_seg _ _ Hc1) as (pl1 & (pm1 & o1 & Hsa & Hsb)%seg_app). pose proof (seg_end _ _ _ _ _ _ _ _ _ _ Hs1 Hsa) as <-.
  rewrite (starts_app _ _ _ _ _ _ _ Hs1), elem_of_app in Hlf. unfold starts in Hlf at 2. cbn in Hlf. rewrite elem_of_cons in Hlf.
  destruct (plug_backward_ok _ _ _ _ _ _ _ Hc1 Hsa Hsb) as (h' & E2 & Ha2 & Hu2 & Hout2 & Hcase).
  assert (Ha : same_area h h') by (by apply (same_area_trans _ h1)).
  unfold plug_holes. rewrite (bind_run _ _ _ _ _ E1), E2.
  destruct Hcase as [(Hnl & ->)|(bs1' & pm' & -> & Hsp & Hlt & Hc2 & Hl2)].
  - exists h1, (bs1 ++ (nx', false) :: bs2'). split; [done|]. split; [|done| |].
    + split; [done|by apply Hmp| |].
      * rewrite (starts_app _ _ _ _ _ _ _ Hsa), elem_of_app. unfold starts at 2. cbn. rewrite elem_of_cons.
        destruct Ha as (_ & -> & _). rewrite Hl1. case_decide; [tauto|]. naive_solver.
      * rewrite Hu1, Hu, (used_app _ _ _ _ _ _ _ Hsa). cbn. lia.
    + by rewrite (allocs_app _ _ _ _ _ _ _ Hsa), allocs_cons, <- Hal.
    + rewrite <- Hal. apply (outside_data _ _ (hp_mem h) pm o nx' bs1 bs2' pvr pl (hp_end h)); try done. heap_lia.
  - exists h', (bs1' ++ (nx', false) :: bs2'). apply seg_app in Hs1 as (pmo & oo & Hs1' & Hso).
    pose proof (seg_end _ _ _ _ _ _ _ _ _ _ Hs1' Hsp) as ->.
    apply merged_snoc in Hm1 as [Hm1 Hnl]. rewrite removelast_last in Hmp'.
    assert (Hal1 : allocs 0 (bs1' ++ [(o, false)]) = allocs 0 bs1') by (rewrite (allocs_app _ _ _ _ _ _ _ Hs1'), allocs_cons; apply app_nil_r).
    split; [done|]. split; [|done| |].
    + split; [done|by apply Hmp'| |].
      * rewrite (starts_app _ _ [(o, false)] _ _ _ _ Hs1'), elem_of_app in Hlf. rewrite (starts_app _ _ _ _ _ _ _ Hs1'), elem_of_app.
        unfold starts in Hlf at 2. unfold starts at 2. cbn in Hlf |- *. rewrite elem_of_cons, elem_of_nil in Hlf. rewrite elem_of_cons. destruct Ha as (_ & -> & _). rewrite Hl2, Hl1.
        clear - Hlf Hst. repeat case_decide; naive_solver.
      * rewrite Hu2, Hu1, Hu, !(used_app _ _ _ _ _ _ _ Hs1'). cbn. lia.
    + by rewrite Hal1, (allocs_app _ _ _ _ _ _ _ Hs1'), allocs_cons, <- Hal.
    + rewrite Hal1, <- Hal. apply data_kept_trans with h1.
      * rewrite <- Hal1. apply (outside_data _ _ (hp_mem h) pm o nx' _ bs2' pvr pl (hp_end h)); try done; [|heap_lia].
        apply seg_app. by exists pmo, pm1.
      * apply (outside_data _ _ (hp_mem h) pmo pm1 nx' bs1' bs2' pvr pl (hp_end h)); try done. heap_lia.
Qed.

Lemma allocs_split m pv off bs pl e l1 o nx l2 :
  seg m pv off bs pl e -> allocs off bs = l1 ++ (o, nx) :: l2 ->
  exists bs1 bs2 pm, bs = bs1 ++ (nx, true) :: bs2 /\ seg m pv off bs1 pm o /\ seg m pm o ((nx, true) :: bs2) pl e /\
    allocs off bs1 = l1 /\ allocs nx bs2 = l2.
Proof.
  revert pv off l1. induction bs as [|[nx' u] bs IH]; intros pv off l1; [by destruct l1|].
  intros Hs E. rewrite allocs_cons in E. pose proof Hs as (Hh & Hn & Hm & Hs'). destruct u; [destruct l1 as [|[o1 nx1] l1]|]; cbn in E.
  - injection E as -> -> <-. exists [], bs, pv. split; [done|]. split; [done|]. by split.
  - injection E as -> -> E. destruct (IH _ _ _ Hs' E) as (bs1 & bs2 & pm & -> & H1 & H2 & H3 & H4).
    exists ((nx1, true) :: bs1), bs2, pm. split; [done|]. split; [done|]. split; [done|]. split; [by rewrite allocs_cons, H3|done].
  - destruct (IH _ _ _ Hs' E) as (bs1 & bs2 & pm & -> & H1 & H2 & H3 & H4).
    exists ((nx', false) :: bs1), bs2, pm. split; [done|]. split; [done|]. split; [done|]. split; [by rewrite allocs_cons, H3|done].
Qed.

(** A chain in which the block at [o] has changed its used flag. *)
Lemma retag_core h bs1 pm o nx u u' bs2 pl :
  heap_core h (bs1 ++ (nx, u) :: bs2) -> seg (hp_mem h) 0 0 bs1 pm o -> seg (hp_mem h) pm o ((nx, u) :: bs2) pl (hp_end h) ->
  let h' := set_hp_mem (<[o := word0 u']> (hp_mem h)) h in
  heap_core h' (bs1 ++ (nx, u') :: bs2) /\ same_area h h' /\ seg (hp_mem h') 0 0 bs1 pm o /\
  seg (hp_mem h') pm o ((nx, u') :: bs2) pl (hp_end h') /\ outside o nx h h'.
Proof.
  intros Hc Hs1 Hs2 h'. pose proof Hs2 as (Hh & Hn & Hm & Hs3). pose proof Hh as (E0 & E4 & E8).
  pose proof (seg_le _ _ _ _ _ _ Hs3) as Hle. pose proof (seg_le _ _ _ _ _ _ Hs1) as Hpos.
  assert (Hf : forall x, x < o \/ nx <= x -> hp_mem h' !! x = hp_mem h !! x) by (intros x Hx; cbn; word; done).
  assert (Ha : same_area h h') by (split_and!; try done; apply dom_st; [rewrite E0; eauto|done]).
  assert (H1 : seg (hp_mem h') 0 0 bs1 pm o) by (apply (seg_frame (hp_mem h)); [intros x Hx; apply Hf; lia|done]).
  assert (H2 : seg (hp_mem h') pm o ((nx, u') :: bs2) pl (hp_end h')).
  { apply (seg_retag (hp_mem h) _ _ _ _ u); [done|unfold header; cbn; word; done|]. intros x Hx. apply Hf. lia. }
  split; [|split; [done|split; [done|split; [done|]]]]; [|intros x Hx _; by apply Hf].
  apply (core_update h h' (bs1 ++ (nx, u) :: bs2) _ pl Hc Ha); [apply seg_app; by exists pm, o|apply Hf; heap_lia..].
Qed.

Lemma free_locked_ok h bs l1 o nx l2 :
  heap_rep h bs -> allocs 0 bs = l1 ++ (o, nx) :: l2 ->
  exists h' bs' bs1 bs2, free_locked (o + SIZEOF_STRUCT_MEM) h = Some (tt, h') /\
    bs = bs1 ++ (nx, true) :: bs2 /\ allocs 0 bs1 = l1 /\ allocs nx bs2 = l2 /\ plugged h bs1 nx bs2 h' bs'.
Proof.
  intros [Hc Hmg Hlf Hus] Hin. destruct (hc_seg _ _ Hc) as (pl & Hs).
  destruct (allocs_split _ _ _ _ _ _ _ _ _ _ Hs Hin) as (bs1 & bs2 & pm & -> & Hs1 & Hs2 & El1 & El2).
  pose proof Hs2 as (Hh & Hn & Hm & Hs3). pose proof (seg_le _ _ _ _ _ _ Hs3) as Hle. pose proof (seg_le _ _ _ _ _ _ Hs1) as Hpos.
  destruct (retag_core _ _ _ _ _ _ false _ _ Hc Hs1 Hs2) as (Hc1 & Ha1 & Hs1' & Hs2' & Hout). set (h1 := set_hp_mem _ h) in *.
  set (h2 := if bool_decide (o < hp_lfree h1) then set_hp_lfree o h1 else h1).
  set (h3 := set_hp_used_mem (u32 (hp_used_mem h2 - (nx - o))) h2).
  assert (E3 : hp_mem h3 = hp_mem h1 /\ hp_end h3 = hp_end h /\ same_area h h3) by (unfold h3, h2; case_bool_decide; by split_and!).
  destruct E3 as (Em3 & Ee3 & Ha3). apply merged_app in Hmg as (Hm1 & [Hm2 _]%merged_cons & _).
  assert (Hc3 : heap_core h3 (bs1 ++ (nx, false) :: bs2)) by (unfold h3, h2; case_bool_decide; by destruct Hc1).
  assert (Hin3 : hp_lfree h3 = hp_end h3 \/ hp_lfree h3 ∈ starts 0 (bs1 ++ (nx, false) :: bs2)).
  { rewrite Ee3. rewrite (starts_app _ _ _ _ _ _ _ Hs1) in Hlf. rewrite (starts_app _ _ _ _ _ _ _ Hs1).
    unfold h3, h2. case_bool_decide; [|exact Hlf]. right. apply elem_of_app. right. apply elem_of_cons. by left. }
  assert (Hu3 : hp_used_mem h3 = used_bytes 0 bs1 + used_bytes nx bs2).
  { replace (hp_used_mem h3) with (u32 (hp_used_mem h - (nx - o))) by (unfold h3, h2; by case_bool_decide).
    rewrite Hus, (used_app _ _ _ _ _ _ _ Hs1). cbn. pose proof (used_bounds _ _ _ _ _ _ Hs1). pose proof (used_bounds _ _ _ _ _ _ Hs3).
    pose proof (hc_base _ _ Hc) as (? & _ & ?). rewrite (wrap_id 32); heap_lia. }
  destruct (plug_holes_ok h3 bs1 pm o nx bs2 pl Hc3) as (h' & bs' & E & Hp); try done; [by rewrite Em3|by rewrite Em3, Ee3|].
  exists h', bs', bs1, bs2. split; [|split; [done|]; split; [done|]; split; [done|]].
  - unfold free_locked. replace (o + SIZEOF_STRUCT_MEM - SIZEOF_STRUCT_MEM) with o by lia.
    pose proof (set_used_run h o true nx pm false Hh) as Eu. cbn [Z.b2z] in Eu. fold h1 in Eu.
    rewrite (bind_run _ _ _ _ _ (mem_used_run _ _ _ _ _ Hh)), (bind_run _ _ _ _ _ Eu).
    rewrite (bind_run _ _ _ _ _ (set_magic_run h1 o false nx pm (proj1 Hs2'))). unfold modify. rewrite (bind_run _ _ h1 tt h2) by done.
    rewrite (bind_run _ _ h2 nx h2) by (apply (mem_next_run h2 o false nx pm); replace (hp_mem h2) with (hp_mem h1) by (unfold h2; by case_bool_decide); apply Hs2').
    by rewrite (bind_run _ _ h2 tt h3).
  - destruct Hp as [Hr Ha Hal Hd]. split; try done.
    + by apply (same_area_trans _ h3).
    + apply data_kept_trans with h3; [|done]. apply (outside_data _ _ (hp_mem h) pm o nx bs1 bs2 o pl (hp_end h)); try done; [heap_lia|].
      intros x Hx Hne. rewrite Em3. by apply Hout.
Qed.

(** ** The heap as a list of allocated blocks *)

(** The abstract state: the allocated blocks in address order. *)
Definition heap_state (h : heap) (l : list (Z * Z)) : Prop := exists bs, heap_rep h bs /\ l = allocs 0 bs.

(** What a new block [o, nx) for [size] bytes of data is. *)
Record granted (h : heap) (l : list (Z * Z)) (size o nx : Z) (h' : heap) : Prop := {
  gr_state : exists l1 l2, l = l1 ++ l2 /\ heap_state h' (l1 ++ (o, nx) :: l2);
  gr_aligned : o mod 4 = 0;
  gr_size : o + SIZEOF_STRUCT_MEM + size <= nx;
  gr_area : same_area h h';
  gr_data : data_kept l h h';
  gr_apart : forall o' nx', (o', nx') ∈ l -> nx' <= o \/ nx <= o';
}.

Lemma seg_length m pv off bs pl e : seg m pv off bs pl e -> off + SIZEOF_STRUCT_MEM * Z.of_nat (length bs) <= e.
Proof.
  revert pv off. induction bs as [|[nx u] bs IH]; intros pv off; cbn -[Z.mul Z.of_nat]; [intros [_ ->]; cbn; lia|].
  intros (_ & Hn & _ & Hs). apply IH in Hs. heap_lia.
Qed.

(** Blocks do not overlap and lie in the heap. *)
Lemma allocs_sorted m pv off bs pl e l1 o nx l2 :
  seg m pv off bs pl e -> allocs off bs = l1 ++ (o, nx) :: l2 ->
  off <= o /\ o + SIZEOF_STRUCT_MEM < nx /\ nx <= e /\
  (forall o' nx', (o', nx') ∈ l1 -> nx' <= o) /\ (forall o' nx', (o', nx') ∈ l2 -> nx <= o').
Proof.
  revert pv off l1. induction bs as [|[y u] bs IH]; intros pv off l1; [by destruct l1|]. intros (_ & Hn & _ & Hs).
  rewrite allocs_cons. pose proof (seg_le _ _ _ _ _ _ Hs) as Hle. destruct u; cbn [app].
  - destruct l1 as [|[o1 nx1] l1]; intros [= -> -> E].
    + subst l2. split_and!; try lia; [by intros ? ? ?%not_elem_of_nil|]. intros o' nx' Hin.
      by destruct (allocs_bounds _ _ _ _ _ _ _ _ Hs Hin).
    + destruct (IH _ _ _ Hs E) as (? & ? & ? & H1 & H2). split_and!; try heap_lia; [|done].
      intros o' nx' [[= -> ->]|Hin]%elem_of_cons; [lia|by apply (H1 o')].
  - intros E. destruct (IH _ _ _ Hs E) as (? & ? & ? & H1 & H2). split_and!; try heap_lia; done.
Qed.

Lemma allocs_taken o nx e bs : allocs o (taken o nx e ++ bs) = (o, e) :: allocs nx bs.
Proof.
  unfold taken. destruct (decide (e = nx)) as [->|]; cbn [app]; by rewrite !allocs_cons.
Qed.

(** Taking a block in terms of the allocated blocks. *)
Lemma malloced_granted h bs size p h' bs' :
  heap_rep h bs -> malloced h bs size p h' bs' ->
  exists nx, granted h (allocs 0 bs) size (p - SIZEOF_STRUCT_MEM) nx h'.
Proof.
  intros Hr [Hr' (bs1 & nx & bs2 & pm & e & -> & -> & Hs1 & Hmod & He & Hle & Hout) Ha]. set (o := p - SIZEOF_STRUCT_MEM) in *. exists e.
  destruct (hc_seg _ _ (hr_core _ _ Hr)) as (pl & (pm' & o' & Hs1' & (Hh & Hn & Hm & Hs2))%seg_app).
  pose proof (seg_end _ _ _ _ _ _ _ _ _ _ Hs1 Hs1') as <-.
  destruct (hc_seg _ _ (hr_core _ _ Hr')) as (pl2 & (pm2 & o2 & Hs1'' & _)%seg_app).
  pose proof (seg_end _ _ _ _ _ _ _ _ _ _ Hs1 Hs1'') as <-.
  assert (El : allocs 0 (bs1 ++ (nx, false) :: bs2) = allocs 0 bs1 ++ allocs nx bs2)
    by (by rewrite (allocs_app _ _ _ _ _ _ _ Hs1), allocs_cons).
  split; [|done| |done| |].
  - exists (allocs 0 bs1), (allocs nx bs2). split; [done|]. eexists. split; [done|].
    by rewrite (allocs_app _ _ _ _ _ _ _ Hs1), allocs_taken.
  - unfold o. lia.
  - rewrite El. apply (outside_data _ _ (hp_mem h) pm o nx bs1 bs2 o pl (hp_end h)); try done. heap_lia.
  - rewrite El. intros o' nx' [Hin|Hin]%elem_of_app.
    + pose proof (allocs_bounds _ _ _ _ _ _ _ _ Hs1 Hin). left. lia.
    + pose proof (allocs_bounds _ _ _ _ _ _ _ _ Hs2 Hin). right. lia.
Qed.

(** The free block [o, nx) that rt_malloc would find, searching from lfree on. *)
Definition findable (h : heap) (bs : list (Z * bool)) (size : Z) : Prop :=
  exists b, b ∈ blocks 0 bs /\ hp_lfree h <= b.1.1 /\ fits size (hp_mem_size_aligned h - size) b.

Lemma malloc_locked_ok h bs size :
  heap_rep h bs -> MIN_SIZE_ALIGNED <= size <= hp_mem_size_aligned h -> size mod 4 = 0 ->
  (malloc_locked size h = Some (None, h) /\ ~ findable h bs size) \/
  exists p h' nx, malloc_locked size h = Some (Some p, h') /\ granted h (allocs 0 bs) size (p - SIZEOF_STRUCT_MEM) nx h'.
Proof.
  intros Hr Hsz Hmod. destruct (hc_seg _ _ (hr_core _ _ Hr)) as (pl & Hs). rewrite min_size_eq in Hsz. pose proof (hc_end _ _ (hr_core _ _ Hr)) as He.
  assert (Hsplit : exists bs1 bs2 pm, bs = bs1 ++ bs2 /\ seg (hp_mem h) 0 0 bs1 pm (hp_lfree h) /\ seg (hp_mem h) pm (hp_lfree h) bs2 pl (hp_end h)).
  { destruct (hr_lfree _ _ Hr) as [->|Hin].
    - exists bs, [], pl. rewrite app_nil_r. by split.
    - destruct (starts_split _ _ _ _ _ _ _ Hs Hin) as (bs1 & nx & u & bs2 & pm & -> & H1 & H2). by exists bs1, ((nx, u) :: bs2), pm. }
  destruct Hsplit as (bs1 & bs2 & pm & -> & Hs1 & Hs2). pose proof (seg_length _ _ _ _ _ _ Hs2) as Hlen. pose proof (seg_le _ _ _ _ _ _ Hs1).
  destruct (malloc_search_ok (heap_fuel h) h bs1 bs2 pm (hp_lfree h) pl size) as [(Hno & E)|(p & h' & bs' & E & Hm)]; try done.
  - by apply (seg_mod _ _ _ _ _ _ Hs1).
  - unfold heap_fuel. heap_lia.
  - left. split; [done|]. intros (b & Hb & Hlo & Hfit). rewrite (blocks_app _ _ _ _ _ _ _ Hs1), elem_of_app in Hb.
    destruct Hb as [Hb|Hb]; [|by apply (proj1 (Forall_forall _ _) Hno b Hb)].
    destruct b as [[o nx] u]. pose proof (blocks_bounds _ _ _ _ _ _ _ _ _ Hs1 Hb). cbn in Hlo. heap_lia.
  - right. destruct (malloced_granted _ _ _ _ _ _ Hr Hm) as (nx & Hg). by exists p, h', nx.
Qed.

(** The bytes of the allocated blocks, headers included. *)
Definition extent (l : list (Z * Z)) : Z := foldr (fun b a => (b.2 - b.1) + a) 0 l.
Lemma used_allocs off bs : used_bytes off bs = extent (allocs off bs).
Proof.
  revert off. induction bs as [|[nx u] bs IH]; intros off; [done|]. rewrite allocs_cons. cbn. rewrite IH. by destruct u.
Qed.
Lemma state_used h l : heap_state h l -> hp_used_mem h = extent l.
Proof. intros (bs & Hr & ->). by rewrite (hr_used _ _ Hr), used_allocs. Qed.
(** Allocated blocks lie in the heap, in address order and without overlap. *)
Lemma state_sorted h l1 o nx l2 :
  heap_state h (l1 ++ (o, nx) :: l2) ->
  0 <= o /\ o + SIZEOF_STRUCT_MEM < nx <= hp_end h /\
  (forall o' nx', (o', nx') ∈ l1 -> nx' <= o) /\ (forall o' nx', (o', nx') ∈ l2 -> nx <= o').
Proof.
  intros (bs & Hr & El). destruct (hc_seg _ _ (hr_core _ _ Hr)) as (pl & Hs).
  destruct (allocs_sorted _ _ _ _ _ _ _ _ _ _ Hs (eq_sym El)) as (? & ? & ? & ? & ?). by split_and!.
Qed.

(** rt_free of an allocated block removes it and nothing else. *)
Lemma free_state h l1 o nx l2 :
  heap_state h (l1 ++ (o, nx) :: l2) ->
  exists h', free_locked (o + SIZEOF_STRUCT_MEM) h = Some (tt, h') /\ heap_state h' (l1 ++ l2) /\
    same_area h h' /\ data_kept (l1 ++ l2) h h'.
Proof.
  intros (bs & Hr & El). destruct (free_locked_ok h bs l1 o nx l2 Hr (eq_sym El)) as (h' & bs' & bs1 & bs2 & E & -> & <- & <- & [Hr' Ha Hal Hd]).
  exists h'. split; [done|]. split; [by exists bs'|]. by split.
Qed.

(** ** Resizing *)

(** The stores of rt_realloc that cut a used block. *)
Lemma recut_run {A} h pm o nx bs2 pl o2 (k : M heap A) :
  seg (hp_mem h) pm o ((nx, true) :: bs2) pl (hp_end h) -> hp_end h = hp_mem_size_aligned h + SIZEOF_STRUCT_MEM ->
  o + SIZEOF_STRUCT_MEM < o2 -> o2 + SIZEOF_STRUCT_MEM < nx ->
  is_Some (hp_mem h !! o2) -> is_Some (hp_mem h !! (o2 + 4)) -> is_Some (hp_mem h !! (o2 + 8)) -> is_Some (hp_mem h !! (nx + 8)) ->
  (set_mem_magic o2 HEAP_MAGIC ;; set_mem_used o2 0 ;; set_mem_next o2 nx ;; set_mem_prev o2 o ;;
   set_mem_next o o2 ;;
   mem_size_aligned ← gets hp_mem_size_aligned;
   (if bool_decide (nx <> mem_size_aligned + SIZEOF_STRUCT_MEM) then set_mem_prev nx o2 else mret tt) ;; k) h =
  k (set_hp_mem (cut o nx o2 (hp_end h) true (hp_mem h)) h).
Proof.
  intros ((E0 & E4 & E8) & _) He H1 H2 S0 S4 S8 Sn. rewrite new_header_run by done.
  set (h1 := set_hp_mem (put_header o2 nx o (hp_mem h)) h). set (h2 := set_hp_mem (<[o + 4 := o2]> (hp_mem h1)) h1).
  rewrite (bind_run _ _ h1 tt h2) by (apply st_run; cbn; word; rewrite E4; eauto).
  rewrite (link_back_run h2) by (done || (cbn; word; done)). unfold cut.
  rewrite (insert_id _ o) by (word; rewrite E0; done). done.
Qed.

(** Cutting an allocated block at [o2] keeps the chain. *)
Lemma cut_core h bs1 pm o nx u bs2 pl o2 :
  heap_core h (bs1 ++ (nx, u) :: bs2) -> seg (hp_mem h) 0 0 bs1 pm o -> seg (hp_mem h) pm o ((nx, u) :: bs2) pl (hp_end h) ->
  o + SIZEOF_STRUCT_MEM < o2 -> o2 + SIZEOF_STRUCT_MEM < nx -> o2 mod 4 = 0 ->
  let h' := set_hp_mem (cut o nx o2 (hp_end h) true (hp_mem h)) h in
  heap_core h' (bs1 ++ (o2, true) :: (nx, false) :: bs2) /\ same_area h h' /\ outside o nx h h' /\
  (forall x, o + SIZEOF_STRUCT_MEM <= x < o2 -> hp_mem h' !! x = hp_mem h !! x) /\
  seg (hp_mem h') 0 0 bs1 pm o /\ exists pl', seg (hp_mem h') pm o ((o2, true) :: (nx, false) :: bs2) pl' (hp_end h').
Proof.
  intros Hc Hs1 Hs2 Hlo H2 Hm2 h'. pose proof Hs2 as (Hh & Hn & Hm & Hs3).
  pose proof (seg_le _ _ _ _ _ _ Hs1) as Hpos. pose proof (seg_le _ _ _ _ _ _ Hs3) as Hle. pose proof (seg_gap _ _ _ _ _ _ Hs3) as Hgap.
  destruct (core_words _ _ o2 Hc) as (S0 & S4 & S8); [heap_lia|done|heap_lia|].
  destruct (core_words _ _ nx Hc) as (_ & _ & Sn8); [heap_lia|done|heap_lia|].
  destruct (cut_seg _ _ _ _ _ _ _ _ o2 true Hs2 Hlo H2 Hm2) as (Hf & pl' & Hs').
  assert (Ha : same_area h h') by (split; [done|split; [done|split; [done|]]]; by apply (cut_dom _ pm o nx u bs2 pl)).
  assert (Hs1' : seg (hp_mem h') 0 0 bs1 pm o) by (apply (seg_frame (hp_mem h)); [intros x Hx; apply Hf; heap_lia|done]).
  split; [|split; [done|split; [exact Hf|split; [|split; [done|by exists pl']]]]].
  - apply (core_update h h' (bs1 ++ (nx, u) :: bs2) _ pl' Hc Ha); [|apply Hf; heap_lia..]. apply seg_app. by exists pm, o.
  - intros x Hx. cbn. unfold cut. case_bool_decide; by word.
Qed.

Lemma shrink_ok h l1 o nx l2 newsize :
  let size := nx - o - SIZEOF_STRUCT_MEM in let o2 := o + SIZEOF_STRUCT_MEM + newsize in
  heap_state h (l1 ++ (o, nx) :: l2) -> 0 < newsize -> newsize mod 4 = 0 -> newsize + SIZEOF_STRUCT_MEM + MIN_SIZE < size ->
  exists h', realloc_locked (o + SIZEOF_STRUCT_MEM) newsize h = Some ((true, size), h') /\
    heap_state h' (l1 ++ (o, o2) :: l2) /\ same_area h h' /\ data_kept (l1 ++ (o, o2) :: l2) h h'.
Proof.
  intros size o2 (bs & Hr & El) Hnn Hmod Hlt. unfold MIN_SIZE in Hlt. pose proof Hr as [Hc Hmg Hlf Hus]. destruct (hc_seg _ _ Hc) as (pl & Hs).
  destruct (allocs_split _ _ _ _ _ _ _ _ _ _ Hs (eq_sym El)) as (bs1 & bs2 & pm & -> & Hs1 & Hs2 & El1 & El2).
  pose proof Hs2 as (Hh & Hn & Hm & Hs3). pose proof (seg_le _ _ _ _ _ _ Hs3) as Hle. pose proof (seg_le _ _ _ _ _ _ Hs1) as Hpos.
  pose proof (seg_mod _ _ _ _ _ _ Hs1 eq_refl) as Ho. pose proof (hc_base _ _ Hc) as (Hb1 & _ & Hb3).
  assert (Hm2 : o2 mod 4 = 0) by (unfold o2, SIZEOF_STRUCT_MEM; rewrite (Z.add_mod _ newsize), (Z.add_mod o), Ho, Hmod by lia; done).
  set (h1 := set_hp_used_mem (u32 (hp_used_mem h - (size - newsize))) h).
  assert (Hc1 : heap_core h1 (bs1 ++ (nx, true) :: bs2)) by (by destruct Hc).
  destruct (cut_core h1 bs1 pm o nx true bs2 pl o2 Hc1 Hs1 Hs2) as (Hc2 & Ha2 & Hout & Hin & Hs1' & pl' & Hs2'); [unfold o2; lia|unfold o2, size in *; heap_lia|done|].
  set (h2 := set_hp_mem _ h1) in *. apply merged_app in Hmg as (Hm1 & [Hm2' _]%merged_cons & _).
  replace (bs1 ++ (o2, true) :: (nx, false) :: bs2) with ((bs1 ++ [(o2, true)]) ++ (nx, false) :: bs2) in Hc2 by (by rewrite <- app_assoc).
  assert (Hsl : seg (hp_mem h2) 0 0 (bs1 ++ [(o2, true)]) o o2) by (apply seg_app; exists pm, o; split; [done|]; destruct Hs2' as (? & ? & ? & _); by repeat (split; [done|])).
  assert (Hu : hp_used_mem h2 = used_bytes 0 (bs1 ++ [(o2, true)]) + used_bytes nx bs2).
  { rewrite (used_app _ _ _ _ _ _ _ Hs1). cbn. rewrite Hus, (used_app _ _ _ _ _ _ _ Hs1). cbn.
    pose proof (used_bounds _ _ _ _ _ _ Hs1). pose proof (used_bounds _ _ _ _ _ _ Hs3). unfold o2, size in *. rewrite (wrap_id 32); heap_lia. }
  destruct (plug_holes_ok h2 (bs1 ++ [(o2, true)]) o o2 nx bs2 pl' Hc2 Hsl) as (h' & bs' & Ep & [Hr' Ha' Hal Hd]); try done.
  { by destruct Hs2' as (_ & _ & _ & ?). }
  { apply merged_app. split; [done|]. by split; [|intros [_ []]]. }
  { rewrite <- app_assoc. cbn [app]. rewrite (starts_app _ _ _ _ _ _ _ Hs1) in Hlf. rewrite (starts_app _ _ _ _ _ _ _ Hs1).
    destruct Hlf as [Hlf|Hlf]; [by left|right]. rewrite elem_of_app in Hlf |- *. unfold starts in Hlf at 2 |- * at 2. cbn in Hlf |- *.
    rewrite !elem_of_cons in *. tauto. }
  assert (Eal : allocs 0 (bs1 ++ [(o2, true)]) ++ allocs nx bs2 = l1 ++ (o, o2) :: l2).
  { by rewrite (allocs_app _ _ _ _ _ _ _ Hs1), allocs_cons, El1, El2, <- app_assoc. }
  rewrite Eal in *. exists h'. split; [|split; [by exists bs'|split]].
  - unfold realloc_locked. replace (o + SIZEOF_STRUCT_MEM - SIZEOF_STRUCT_MEM) with o by lia.
    rewrite (bind_run _ _ _ _ _ (mem_next_run _ _ _ _ _ Hh)), (wrap_id 32) by heap_lia. fold size. fold o2.
    rewrite bool_decide_false by heap_lia. rewrite bool_decide_true by (unfold MIN_SIZE; heap_lia).
    unfold modify. rewrite (bind_run _ _ h tt h1) by done.
    destruct (core_words _ _ o2 Hc1) as (S0 & S4 & S8); [unfold o2; heap_lia|done|unfold o2, size in *; cbn; heap_lia|].
    destruct (core_words _ _ nx Hc1) as (_ & _ & Sn8); [heap_lia|done|cbn; heap_lia|].
    rewrite (recut_run h1 pm o nx bs2 pl o2) by (done || apply (hc_end _ _ Hc) || (unfold o2, size in *; heap_lia)). fold h2.
    by rewrite (bind_run _ _ _ _ _ Ep).
  - by apply (same_area_trans _ h2).
  - apply data_kept_trans with h2; [|done]. rewrite <- El1, <- El2. intros o' nx' x Hx Hb. apply elem_of_app in Hx as [Hx|[[= -> ->]|Hx]%elem_of_cons].
    + pose proof (allocs_bounds _ _ _ _ _ _ _ _ Hs1 Hx). apply Hout; heap_lia.
    + apply Hin. heap_lia.
    + pose proof (allocs_bounds _ _ _ _ _ _ _ _ Hs3 Hx). apply Hout; heap_lia.
Qed.

(** ** Start-up *)

(** A header that is written in any order of its fields. *)
Lemma magic_any_run h m w :
  hp_mem h !! m = Some w ->
  set_mem_magic m HEAP_MAGIC h = Some (tt, set_hp_mem (<[m := w / 2 ^ 16 * 2 ^ 16 + HEAP_MAGIC]> (hp_mem h)) h).
Proof. intros E. unfold set_mem_magic. munfold. by rewrite (ld_run _ _ _ E), st_run by eauto. Qed.
Lemma used_any_run h m w v :
  hp_mem h !! m = Some w -> set_mem_used m v h = Some (tt, set_hp_mem (<[m := v * 2 ^ 16 + w mod 2 ^ 16]> (hp_mem h)) h).
Proof. intros E. unfold set_mem_used. munfold. by rewrite (ld_run _ _ _ E), st_run by eauto. Qed.
Lemma magic_word w u : Z.b2z u * 2 ^ 16 + (w / 2 ^ 16 * 2 ^ 16 + HEAP_MAGIC) mod 2 ^ 16 = word0 u.
Proof. rewrite (Z.add_comm (w / 2 ^ 16 * 2 ^ 16)), Z.mod_add by lia. by destruct u. Qed.

Lemma heap_init_run b e memory h :
  let size := RT_ALIGN_DOWN e - RT_ALIGN b - 2 * SIZEOF_STRUCT_MEM in let he := size + SIZEOF_STRUCT_MEM in
  2 * SIZEOF_STRUCT_MEM < RT_ALIGN_DOWN e -> 0 <= size -> size mod 4 = 0 ->
  (forall x, 0 <= x < he + SIZEOF_STRUCT_MEM -> x mod 4 = 0 -> is_Some (memory !! x)) ->
  exists m', heap_init b e memory h = Some (true, Heap (RT_ALIGN b) he 0 size (hp_used_mem h) (hp_max_mem h) m') /\
    header m' 0 false he 0 /\ header m' he true he he /\ dom m' = dom memory.
Proof.
  intros size he H1 H2 H4 Hw. unfold heap_init. rewrite !bool_decide_true by (unfold size in *; lia). cbn [andb]. fold size. fold he.
  assert (S : forall x, x mod 4 = 0 -> x = 0 \/ x = 4 \/ x = 8 \/ x = he \/ x = he + 4 \/ x = he + 8 -> is_Some (memory !! x))
    by (intros x Hm Hx; apply Hw; [unfold he in *; heap_lia|done]).
  assert (Hhe : he mod 4 = 0 /\ (he + 4) mod 4 = 0 /\ (he + 8) mod 4 = 0)
    by (unfold he, SIZEOF_STRUCT_MEM; rewrite <- !Z.add_assoc, !(Z.add_mod size), H4 by lia; done).
  destruct Hhe as (Hm0 & Hm4 & Hm8). destruct (S 0) as [w0 E0]; [done|lia|]. destruct (S he) as [we Ee]; [done|lia|].
  assert (Hpos : 12 <= he) by (unfold he in *; heap_lia).
  unfold modify. munfold. cbn. unfold set_mem_next, set_mem_prev.
  erewrite magic_any_run by exact E0. rewrite st_run by (cbn; word; apply S; [done|lia]). cbn.
  rewrite st_run by (cbn; word; apply S; [done|lia]). cbn.
  erewrite used_any_run by (cbn; word; reflexivity). cbn.
  erewrite magic_any_run by (cbn; word; exact Ee). cbn.
  erewrite used_any_run by (cbn; word; reflexivity). cbn.
  rewrite st_run by (cbn; word; apply S; [done|lia]). cbn. rewrite st_run by (cbn; word; apply S; [done|lia]). cbn.
  eexists. split; [reflexivity|]. split; [|split].
  - unfold header. cbn [hp_mem set_hp_mem]. word. split; [f_equal; apply (magic_word w0 false)|done].
  - unfold header. cbn [hp_mem set_hp_mem]. word. split; [f_equal; apply (magic_word we true)|done].
  - cbn [hp_mem set_hp_mem]. repeat (apply dom_st; [word; first [rewrite ?E0, ?Ee; by eauto|apply S; [done|lia]]|]). done.
Qed.

Lemma heap_init_ok b e memory h :
  let size := RT_ALIGN_DOWN e - RT_ALIGN b - 2 * SIZEOF_STRUCT_MEM in
  0 < b < 2 ^ 32 - 3 -> e < 2 ^ 32 -> MIN_SIZE_ALIGNED <= size -> hp_used_mem h = 0 ->
  (forall x, 0 <= x < size + 2 * SIZEOF_STRUCT_MEM -> x mod 4 = 0 -> is_Some (memory !! x)) ->
  exists h', heap_init b e memory h = Some (true, h') /\ heap_state h' [] /\ hp_ptr h' = RT_ALIGN b /\
    hp_mem_size_aligned h' = size.
Proof.
  intros size Hb He Hsz Hu Hw. rewrite min_size_eq in Hsz.
  assert (Hal : RT_ALIGN b = 4 * ((b + 3) / 4)) by (apply align_eq; lia). pose proof (align_down_eq e) as Hde.
  assert (Hm : size mod 4 = 0) by (unfold size, SIZEOF_STRUCT_MEM; rewrite Hal, Hde; replace (4 * (e / 4) - 4 * ((b + 3) / 4) - 2 * 12) with ((e / 4 - (b + 3) / 4 - 6) * 4) by lia; apply Z.mod_mul; lia).
  assert (Hp : 0 < RT_ALIGN b) by (pose proof (Z.div_le_mono 4 (b + 3) 4 ltac:(lia) ltac:(lia)) as Hq; change (4 / 4) with 1 in Hq; lia).
  assert (Hd : RT_ALIGN_DOWN e <= 2 ^ 32) by (pose proof (Z.mul_div_le e 4 ltac:(lia)); lia).
  destruct (heap_init_run b e memory h) as (m' & E & H1 & H2 & Hdom); [unfold size in *; heap_lia|fold size; lia|done|fold size; intros x Hx; apply Hw; heap_lia|].
  fold size in E, H1, H2. set (he := size + SIZEOF_STRUCT_MEM) in *. eexists. split; [exact E|]. split; [|done].
  assert (Hhe : he mod 4 = 0) by (unfold he, SIZEOF_STRUCT_MEM; rewrite Z.add_mod, Hm by lia; done).
  exists [(he, false)]. split; [|done]. split; [split| | |]; cbn [hp_ptr hp_end hp_lfree hp_mem_size_aligned hp_used_mem hp_mem]; try done.
  - split; [done|]. split; [rewrite Hal, Z.mul_comm; apply Z.mod_mul; lia|]. unfold he, size in *. heap_lia.
  - intros x Hx Hxm. apply elem_of_dom. rewrite Hdom. apply elem_of_dom. apply Hw; [unfold he in *; heap_lia|done].
  - exists 0. split; [done|]. split; [unfold he; heap_lia|]. done.
  - by exists he.
  - right. by apply list_elem_of_singleton.
Qed.
