(* ===== verification/Malloc.v ===== *)
(** * Allocation by threads (rt-thread/src/mem.c)

    rt_malloc, rt_free, rt_realloc and rt_calloc as threads call them: the sections of
    Mem.v under the semaphore heap_sem, on which a caller may block.  Addresses are
    absolute; the data of the block with header offset [o] is at
    heap_ptr + o + SIZEOF_STRUCT_MEM. *)
From S2P Require Import Prelude RtList Kernel Sched Timer Object Thread Ipc Sem Mem.
From stdpp Require Import base gmap sets list.
From Stdlib Require Import ZArith Lia.
#[local] Open Scope Z_scope.

(** ** Operations *)

(** The static semaphore heap_sem has an identifier of its own. *)
Definition heap_sem : nat := 99%nat.
Definition heap_name : list Z := [104; 101; 97; 112].

Definition rt_system_heap_init (begin_addr end_addr : Z) (memory : gmap Z Z) : M kernel unit :=
  ok ← on_heap (heap_init begin_addr end_addr memory);
  if (ok : bool) then rt_sem_init heap_sem heap_name 1 RT_IPC_FLAG_FIFO ;; mret tt else mret tt.

(** What follows rt_sem_take(&heap_sem): the section and the release.  The result of
    rt_sem_take is not looked at. *)
Definition heap_section {A} (c : M heap A) : M kernel A :=
  a ← on_heap c;
  rt_sem_release heap_sem ;;
  mret a.
(** [inr t] when the caller [t] blocked; it goes on with [heap_section]. *)
Definition heap_locked {A} (c : M heap A) : M kernel (A + nat) :=
  r ← rt_sem_take heap_sem RT_WAITING_FOREVER;
  match r with
  | inl _ => a ← heap_section c; mret (inl a)
  | inr t => mret (inr t)
  end.

Definition malloc_section (size : Z) : M heap (option Z) :=
  p ← malloc_locked size;
  heap_ptr ← gets hp_ptr;
  mret ((fun off => heap_ptr + off) <$> p).
(** [None] is RT_NULL. *)
Definition rt_malloc (size : Z) : M kernel (option Z + nat) :=
  s ← on_heap (malloc_size size);
  match s with
  | None => mret (inl None)
  | Some size => heap_locked (malloc_section size)
  end.
Definition rt_malloc_resume (t : nat) (size : Z) : M kernel (option Z) :=
  rt_sem_take_resume t ;;
  s ← on_heap (malloc_size size);
  match s with None => mret None | Some size => heap_section (malloc_section size) end.

(** The address lies in the heap. *)
Definition in_heap (rmem : Z) (h : heap) : bool :=
  negb (bool_decide (rmem < hp_ptr h) || bool_decide (rmem >= hp_ptr h + hp_end h)).

Definition free_section (rmem : Z) : M heap unit :=
  heap_ptr ← gets hp_ptr;
  free_locked (rmem - heap_ptr).
Definition rt_free (rmem : Z) : M kernel (unit + nat) :=
  if bool_decide (rmem = 0) then mret (inl tt)
  else
    legal ← on_heap (gets (in_heap rmem));
    if (legal : bool) then heap_locked (free_section rmem) else mret (inl tt).
Definition rt_free_resume (t : nat) (rmem : Z) : M kernel unit :=
  rt_sem_take_resume t ;;
  heap_section (free_section rmem).

(** rt_memcpy and rt_memset on the data of blocks.  The sizes that rt_realloc copies are
    multiples of four and blocks are aligned, so whole words move. *)
Fixpoint copy_words (n : nat) (dst src : Z) : M heap unit :=
  match n with
  | O => mret tt
  | S n => w ← ld src; st dst w ;; copy_words n (dst + 4) (src + 4)
  end.
(** The low [count] bytes of the word at [off] are cleared. *)
Definition clear_bytes (off count : Z) : M heap unit :=
  w ← ld off; st off (w - w mod 2 ^ (8 * count)).
Fixpoint clear_words (n : nat) (off : Z) : M heap unit :=
  match n with
  | O => mret tt
  | S n => st off 0 ;; clear_words n (off + 4)
  end.
Definition heap_zero (off count : Z) : M heap unit :=
  clear_words (Z.to_nat (count / 4)) off ;;
  if bool_decide (count mod 4 = 0) then mret tt else clear_bytes (off + count / 4 * 4) (count mod 4).

(** The places where rt_realloc may block: in its own section, in rt_malloc, with the
    size of the old block, and in rt_free, with the new block. *)
Inductive realloc_at := AtResize | AtMalloc (size : Z) | AtFree (nmem : Z) | AtFreeOld.

Definition realloc_free (rmem nmem : Z) : M kernel (option Z + realloc_at * nat) :=
  r ← rt_free rmem;
  match r with inl _ => mret (inl (Some nmem)) | inr t => mret (inr (AtFree nmem, t)) end.
Definition realloc_moved (rmem size newsize : Z) (nmem : option Z) : M kernel (option Z + realloc_at * nat) :=
  match nmem with
  | None => mret (inl None)
  | Some nmem =>
      on_heap (heap_ptr ← gets hp_ptr;
        copy_words (Z.to_nat ((if bool_decide (size < newsize) then size else newsize) / 4)) (nmem - heap_ptr) (rmem - heap_ptr)) ;;
      realloc_free rmem nmem
  end.
Definition realloc_move (rmem size newsize : Z) : M kernel (option Z + realloc_at * nat) :=
  r ← rt_malloc newsize;
  match r with
  | inl nmem => realloc_moved rmem size newsize nmem
  | inr t => mret (inr (AtMalloc size, t))
  end.
Definition realloc_section (rmem newsize : Z) : M heap (bool * Z) :=
  legal ← gets (in_heap rmem);
  if (legal : bool) then heap_ptr ← gets hp_ptr; realloc_locked (rmem - heap_ptr) newsize
  else mret (true, 0).
Definition realloc_decided (rmem newsize : Z) (d : bool * Z) : M kernel (option Z + realloc_at * nat) :=
  if d.1 then mret (inl (Some rmem)) else realloc_move rmem d.2 newsize.
Definition rt_realloc (rmem newsize : Z) : M kernel (option Z + realloc_at * nat) :=
  let newsize := RT_ALIGN newsize in
  mem_size_aligned ← on_heap (gets hp_mem_size_aligned);
  if bool_decide (newsize > mem_size_aligned) then mret (inl None)
  else if bool_decide (newsize = 0) then
    r ← rt_free rmem;
    match r with inl _ => mret (inl None) | inr t => mret (inr (AtFreeOld, t)) end
  else if bool_decide (rmem = 0) then
    r ← rt_malloc newsize;
    match r with inl p => mret (inl p) | inr t => mret (inr (AtMalloc 0, t)) end
  else
    r ← heap_locked (realloc_section rmem newsize);
    match r with
    | inl d => realloc_decided rmem newsize d
    | inr t => mret (inr (AtResize, t))
    end.
Definition rt_realloc_resume (t : nat) (at_ : realloc_at) (rmem newsize : Z) : M kernel (option Z + realloc_at * nat) :=
  let newsize := RT_ALIGN newsize in
  match at_ with
  | AtResize => rt_sem_take_resume t ;; d ← heap_section (realloc_section rmem newsize); realloc_decided rmem newsize d
  | AtMalloc size =>
      nmem ← rt_malloc_resume t newsize;
      if bool_decide (rmem = 0) then mret (inl nmem) else realloc_moved rmem size newsize nmem
  | AtFree nmem => rt_free_resume t rmem ;; mret (inl (Some nmem))
  | AtFreeOld => rt_free_resume t rmem ;; mret (inl None)
  end.

Definition calloc_zero (count size : Z) (p : option Z) : M kernel (option Z) :=
  match p with
  | None => mret None
  | Some p => on_heap (heap_ptr ← gets hp_ptr; heap_zero (p - heap_ptr) (u32 (count * size))) ;; mret (Some p)
  end.
Definition rt_calloc (count size : Z) : M kernel (option Z + nat) :=
  r ← rt_malloc (u32 (count * size));
  match r with
  | inl p => p ← calloc_zero count size p; mret (inl p)
  | inr t => mret (inr t)
  end.
Definition rt_calloc_resume (t : nat) (count size : Z) : M kernel (option Z) :=
  p ← rt_malloc_resume t (u32 (count * size));
  calloc_zero count size p.

(** total, used and max_used *)
Definition rt_memory_info : M kernel (Z * Z * Z) :=
  on_heap (gets (fun h => (hp_mem_size_aligned h, hp_used_mem h, hp_max_mem h))).

(** ** The lock of the heap *)

Lemma kinv_set_heap h k : kinv None k -> kinv None (set_k_heap h k).
Proof. intros []. by split. Qed.
Lemma sem_inv_set_heap h k : sem_inv k -> sem_inv (set_k_heap h k).
Proof. intros Hi. by apply (sem_inv_frame k). Qed.
Lemma on_heap_run {A} (c : M heap A) k a h : c (k_heap k) = Some (a, h) -> on_heap c k = Some (a, set_k_heap h k).
Proof. intros E. unfold on_heap, zoom. by rewrite E. Qed.

(** A running thread that finds the lock free runs its section at once. *)
Lemma heap_locked_free {A} (c : M heap A) k sem t a h' :
  kinv None k -> sem_inv k -> k_sems k !! heap_sem = Some sem -> running k t -> 0 < sem_value sem ->
  c (k_heap k) = Some (a, h') -> heap_locked c k = Some (inl a, set_k_heap h' k).
Proof.
  intros Hk Hi Es Hr Hv E. destruct (Hi _ _ Es) as (Hb & _ & q & Eq & Hq). assert (q = []) as -> by (destruct Hq; [lia|done]).
  destruct (sem_take_now k heap_sem sem RT_WAITING_FOREVER Hk Hi Es Hv) as (E1 & Hk1 & Hi1).
  set (sem1 := set_sem_value (sem_value sem - 1) sem).
  destruct (sem_release_ok (set_k_heap h' (sem_taken heap_sem sem k)) heap_sem sem1 [] t) as (k2 & E2 & _ & _ & ->);
    [by apply kinv_set_heap|by apply sem_inv_set_heap|by apply lookup_insert_eq|done|apply Hr|].
  unfold heap_locked, heap_section. rewrite (bind_run _ _ _ _ _ E1). munfold. rewrite (on_heap_run c (sem_taken heap_sem sem k) a h' E), E2.
  do 2 f_equal. unfold sem_given, sem_taken, sem1. cbn. rewrite insert_insert_eq, (wrap_id 16) by lia.
  replace (sem_value sem - 1 + 1) with (sem_value sem) by lia. replace (set_sem_value _ _) with sem by (by destruct sem).
  rewrite insert_id by done. by destruct k.
Qed.
(** A running thread that finds the lock taken blocks and leaves the heap alone. *)
Lemma heap_locked_blocks {A} (c : M heap A) k sem t :
  kinv None k -> sem_inv k -> k_sems k !! heap_sem = Some sem -> running k t -> sem_value sem = 0 ->
  exists k', heap_locked c k = Some (inr t, k') /\ kinv None k' /\ sem_inv k' /\ k_heap k' = k_heap k /\
    blocked (QSem heap_sem) t (sem_flag sem) RT_WAITING_FOREVER (with_error t RT_EOK k) k'.
Proof.
  intros Hk Hi Es Hr Hv.
  destruct (sem_take_blocks k heap_sem sem t RT_WAITING_FOREVER Hk Hi Es Hr) as (k' & E & Hk' & Hi' & Hb); [done..|].
  exists k'. split; [unfold heap_locked; by rewrite (bind_run _ _ _ _ _ E)|]. split; [done|]. split; [done|]. split; [|done].
  rewrite (ik_heap _ _ (bl_keep _ _ _ _ _ _ Hb)). apply (ik_heap _ _ (with_error_keep t RT_EOK k)).
Qed.

(** ** Allocating and freeing

    The state of a thread that calls the allocator. *)

(** The heap holds the blocks [l], its lock exists and [t] is the running thread. *)
Record heap_ready (k : kernel) (t : nat) (sem : rt_semaphore) (l : list (Z * Z)) : Prop := {
  hy_kinv : kinv None k;
  hy_sem_inv : sem_inv k;
  hy_sem : k_sems k !! heap_sem = Some sem;
  hy_running : running k t;
  hy_state : heap_state (k_heap k) l;
}.
(** The caller [t] waits for the lock; nothing has happened to the heap. *)
Record heap_waits (k : kernel) (t : nat) (sem : rt_semaphore) (k' : kernel) : Prop := {
  hw_taken : sem_value sem = 0;
  hw_kinv : kinv None k';
  hw_sem_inv : sem_inv k';
  hw_heap : k_heap k' = k_heap k;
  hw_blocked : blocked (QSem heap_sem) t (sem_flag sem) RT_WAITING_FOREVER (with_error t RT_EOK k) k';
}.

Lemma heap_ready_set h l l' k t sem :
  heap_ready k t sem l -> heap_state h l' -> heap_ready (set_k_heap h k) t sem l'.
Proof. intros [] Hs. split; [by apply kinv_set_heap|by apply sem_inv_set_heap|done..]. Qed.

(** Running a section: it is done at once or its caller waits. *)
Lemma heap_locked_cases {A} (c : M heap A) k t sem l a h' :
  heap_ready k t sem l -> c (k_heap k) = Some (a, h') ->
  (0 < sem_value sem /\ heap_locked c k = Some (inl a, set_k_heap h' k)) \/
  exists k', heap_locked c k = Some (inr t, k') /\ heap_waits k t sem k'.
Proof.
  intros [Hk Hi Es Hr Hs] E. destruct (decide (0 < sem_value sem)) as [Hv|Hv].
  - left. split; [done|]. by apply (heap_locked_free c k sem t).
  - assert (Hz : sem_value sem = 0) by (destruct (Hi _ _ Es) as (? & _); lia). right.
    destruct (heap_locked_blocks c k sem t Hk Hi Es Hr Hz) as (k' & E' & ? & ? & ? & ?). exists k'. by split.
Qed.

(** The size rt_malloc looks for. *)
Definition wanted (size : Z) : Z := Z.max (RT_ALIGN size) MIN_SIZE_ALIGNED.
Lemma malloc_size_run size h :
  0 < size < 2 ^ 32 - 3 -> MIN_SIZE_ALIGNED <= hp_mem_size_aligned h -> hp_mem_size_aligned h mod 4 = 0 ->
  malloc_size size h = Some (if decide (size <= hp_mem_size_aligned h) then Some (wanted size) else None, h) /\
  size <= wanted size /\ wanted size mod 4 = 0 /\ (size <= hp_mem_size_aligned h -> wanted size <= hp_mem_size_aligned h).
Proof.
  intros Hsz Hmin Hmod. rewrite min_size_eq in Hmin. unfold malloc_size, wanted. munfold. rewrite bool_decide_false, min_size_eq by lia.
  assert (Hal : RT_ALIGN size = 4 * ((size + 3) / 4)) by (apply align_eq; lia).
  pose proof (Z.div_mod (size + 3) 4 ltac:(lia)) as Hd. pose proof (Z.mod_pos_bound (size + 3) 4 ltac:(lia)) as Hr.
  pose proof (Z.div_mod (hp_mem_size_aligned h) 4 ltac:(lia)) as Hd2.
  set (q := (size + 3) / 4) in *. set (q2 := hp_mem_size_aligned h / 4) in *. split; [|split; [lia|split; [|lia]]].
  - destruct (decide (size <= hp_mem_size_aligned h)); [rewrite bool_decide_false by lia|by rewrite bool_decide_true by lia].
    case_bool_decide; do 3 f_equal; lia.
  - destruct (Z.max_spec (RT_ALIGN size) 12) as [[_ ->]|[_ ->]]; [done|]. rewrite Hal, Z.mul_comm. apply Z.mod_mul. lia.
Qed.

(** What the section of rt_malloc leaves: a new block, or the reason for RT_NULL. *)
Definition malloc_result (h : heap) (bs : list (Z * bool)) (size : Z) (r : option Z) (h' : heap) : Prop :=
  match r with
  | Some p => exists o nx, p = hp_ptr h + (o + SIZEOF_STRUCT_MEM) /\ granted h (allocs 0 bs) size o nx h'
  | None => h' = h /\ (hp_mem_size_aligned h < size \/ ~ findable h bs (wanted size))
  end.

Lemma malloc_section_ok h bs size :
  heap_rep h bs -> 0 < size < 2 ^ 32 - 3 -> size <= hp_mem_size_aligned h ->
  exists r h', malloc_section (wanted size) h = Some (r, h') /\ malloc_result h bs size r h'.
Proof.
  intros Hr Hsz Hle. pose proof (hc_size _ _ (hr_core _ _ Hr)) as [Hmin Hmod].
  destruct (malloc_size_run size h) as (_ & Hw1 & Hw2 & Hw3); [lia|done..|]. specialize (Hw3 Hle).
  assert (Hmw : MIN_SIZE_ALIGNED <= wanted size) by (unfold wanted; lia). unfold malloc_section. munfold.
  destruct (malloc_locked_ok h bs (wanted size) Hr) as [(E & Hno)|(p & h' & nx & E & Hg)]; [done..| |]; rewrite E.
  - do 2 eexists. split; [done|]. split; [done|]. by right.
  - do 2 eexists. split; [done|]. exists (p - SIZEOF_STRUCT_MEM), nx. destruct Hg as [? ? Hgs Ha ? ?].
    pose proof Ha as (-> & _). split; [lia|]. split; try done. lia.
Qed.

Lemma malloc_here k t sem bs size :
  heap_ready k t sem (allocs 0 bs) -> heap_rep (k_heap k) bs -> 0 < size < 2 ^ 32 - 3 ->
  exists r h', malloc_result (k_heap k) bs size r h' /\
    ((0 < sem_value sem \/ r = None) /\ rt_malloc size k = Some (inl r, set_k_heap h' k) \/
     exists k', rt_malloc size k = Some (inr t, k') /\ heap_waits k t sem k').
Proof.
  intros Hy Hr Hsz. pose proof (hc_size _ _ (hr_core _ _ Hr)) as [Hmin Hmod]. unfold rt_malloc.
  destruct (malloc_size_run size (k_heap k)) as (Es & _); [lia|done..|].
  rewrite (bind_run _ _ _ _ _ (on_heap_run _ _ _ _ Es)). replace (set_k_heap (k_heap k) k) with k by (by destruct k).
  destruct (decide (size <= hp_mem_size_aligned (k_heap k))) as [Hle|Hgt].
  - destruct (malloc_section_ok _ _ _ Hr Hsz Hle) as (r & h' & E & Hm). exists r, h'. split; [done|].
    destruct (heap_locked_cases _ k t sem _ r h' Hy E) as [[Hv El]|Hw]; [left; by split; [left|]|by right].
  - exists None, (k_heap k). split; [split; [done|lia]|]. left. split; [by right|]. by destruct k.
Qed.

Lemma free_here k t sem l1 o nx l2 :
  heap_ready k t sem (l1 ++ (o, nx) :: l2) ->
  exists h', heap_state h' (l1 ++ l2) /\ same_area (k_heap k) h' /\ data_kept (l1 ++ l2) (k_heap k) h' /\
    ((0 < sem_value sem /\ rt_free (hp_ptr (k_heap k) + (o + SIZEOF_STRUCT_MEM)) k = Some (inl tt, set_k_heap h' k)) \/
     exists k', rt_free (hp_ptr (k_heap k) + (o + SIZEOF_STRUCT_MEM)) k = Some (inr t, k') /\ heap_waits k t sem k').
Proof.
  intros Hy. pose proof (hy_state _ _ _ _ Hy) as Hs. destruct (free_state _ _ _ _ _ Hs) as (h' & E & Hs' & Ha & Hd).
  destruct (state_sorted _ _ _ _ _ Hs) as (Ho & Hnx & _). destruct Hs as (bs & Hr & _).
  pose proof (hc_base _ _ (hr_core _ _ Hr)) as (Hb & _). set (rmem := hp_ptr (k_heap k) + (o + SIZEOF_STRUCT_MEM)).
  exists h'. split; [done|]. split; [done|]. split; [done|]. unfold rt_free. rewrite bool_decide_false by (unfold rmem; heap_lia).
  rewrite (bind_run _ _ k true k).
  2:{ rewrite (on_heap_run _ k true (k_heap k)); [by destruct k|]. munfold. unfold in_heap.
      by rewrite !bool_decide_false by (unfold rmem; heap_lia). }
  apply (heap_locked_cases _ k t sem _ tt h' Hy). unfold free_section. munfold.
  replace (rmem - hp_ptr (k_heap k)) with (o + SIZEOF_STRUCT_MEM) by (unfold rmem; lia). by rewrite E.
Qed.

(** What rt_malloc grants can be given back: rt_free of the block restores the
    allocated blocks, every one with its data, and the amount of used memory. *)
Theorem malloc_free_roundtrip k t sem bs size p k' :
  heap_ready k t sem (allocs 0 bs) -> heap_rep (k_heap k) bs -> 0 < size < 2 ^ 32 - 3 -> 0 < sem_value sem ->
  rt_malloc size k = Some (inl (Some p), k') ->
  exists h', rt_free p k' = Some (inl tt, set_k_heap h' k) /\ heap_state h' (allocs 0 bs) /\
    data_kept (allocs 0 bs) (k_heap k) h' /\ hp_used_mem h' = hp_used_mem (k_heap k).
Proof.
  intros Hy Hr Hsz Hv Em. destruct (malloc_here k t sem bs size Hy Hr Hsz) as (r & h1 & Hm & [[_ E]|(k1 & E & _)]); rewrite Em in E; [|done].
  injection E as <- ->. destruct Hm as (o & nx & -> & [(l1 & l2 & El & Hs) _ _ Ha Hd _]). rewrite El in *.
  destruct (free_here (set_k_heap h1 k) t sem l1 o nx l2) as (h' & Hs' & Ha' & Hd' & [[_ E]|(k2 & _ & Hw)]).
  - by apply (heap_ready_set h1 (l1 ++ l2)).
  - exists h'. cbn in E. destruct Ha as (Hp & _). rewrite Hp in E. rewrite E. split; [done|]. split; [done|].
    split; [by apply data_kept_trans with h1|]. by rewrite (state_used _ _ Hs'), (state_used _ _ (hy_state _ _ _ _ Hy)).
  - pose proof (hw_taken _ _ _ _ Hw). lia.
Qed.

(** ** Writing the data of blocks *)

(** [x] is a byte of the data of one of the blocks. *)
Definition in_data (l : list (Z * Z)) (x : Z) : Prop := exists o nx, (o, nx) ∈ l /\ o + SIZEOF_STRUCT_MEM <= x < nx.

Lemma seg_data m m' pv off bs pl e :
  seg m pv off bs pl e -> (forall x, off <= x < e -> ~ in_data (allocs off bs) x -> m' !! x = m !! x) -> seg m' pv off bs pl e.
Proof.
  revert pv off. induction bs as [|[nx u] bs IH]; intros pv off; [done|]. intros (Hh & Hn & Hm & Hs) Hf.
  pose proof (seg_le _ _ _ _ _ _ Hs) as Hle. rewrite allocs_cons in Hf.
  assert (Hlow : forall x, x < nx -> ~ in_data (allocs nx bs) x).
  { intros x Hx (o' & nx' & Hin & Hb). pose proof (allocs_bounds _ _ _ _ _ _ _ _ Hs Hin). heap_lia. }
  split; [|split; [done|split; [done|]]].
  - apply (header_frame m); [|done]. intros x Hx. apply Hf; [heap_lia|]. intros (o' & nx' & [Hin|Hin]%elem_of_app & Hb).
    + destruct u; [|by apply not_elem_of_nil in Hin]. apply list_elem_of_singleton in Hin as [= -> ->]. lia.
    + apply (Hlow x); [heap_lia|by exists o', nx'].
  - apply IH; [done|]. intros x Hx Hno. apply Hf; [heap_lia|]. intros (o' & nx' & [Hin|Hin]%elem_of_app & Hb).
    + destruct u; [|by apply not_elem_of_nil in Hin]. apply list_elem_of_singleton in Hin as [= -> ->]. lia.
    + apply Hno. by exists o', nx'.
Qed.

(** Writing data changes no block. *)
Lemma state_data h m' l :
  heap_state h l -> dom m' = dom (hp_mem h) -> (forall x, ~ in_data l x -> m' !! x = hp_mem h !! x) ->
  heap_state (set_hp_mem m' h) l.
Proof.
  intros (bs & [Hc Hmg Hlf Hu] & ->) Hd Hf. exists bs. split; [|done]. split; try done.
  destruct (hc_seg _ _ Hc) as (pl & Hs).
  assert (Hout : forall x, hp_end h <= x -> m' !! x = hp_mem h !! x).
  { intros x Hx. apply Hf. intros (o & nx & Hin & Hb). pose proof (allocs_bounds _ _ _ _ _ _ _ _ Hs Hin). lia. }
  apply (core_update h _ bs bs pl Hc); [by split|..|apply Hout; cbn; lia|apply Hout; cbn; lia].
  cbn. apply (seg_data (hp_mem h)); [done|]. intros x _. apply Hf.
Qed.

Lemma copy_words_ok n dst src h :
  (forall i, 0 <= i < Z.of_nat n -> is_Some (hp_mem h !! (dst + 4 * i)) /\ is_Some (hp_mem h !! (src + 4 * i))) ->
  src + 4 * Z.of_nat n <= dst \/ dst + 4 * Z.of_nat n <= src ->
  exists m', copy_words n dst src h = Some (tt, set_hp_mem m' h) /\ dom m' = dom (hp_mem h) /\
    (forall i, 0 <= i < Z.of_nat n -> m' !! (dst + 4 * i) = hp_mem h !! (src + 4 * i)) /\
    (forall x, ~ (dst <= x < dst + 4 * Z.of_nat n) -> m' !! x = hp_mem h !! x).
Proof.
  revert dst src h. induction n as [|n IH]; intros dst src h Hsome Hap.
  - exists (hp_mem h). split; [by destruct h|]. split; [done|]. split; [lia|done].
  - destruct (Hsome 0) as [Hd0 [w Ew]]; [lia|]. rewrite Z.mul_0_r, Z.add_0_r in *. cbn [copy_words]. munfold.
    rewrite (ld_run _ _ _ Ew), st_run by done. set (h1 := set_hp_mem (<[dst := w]> (hp_mem h)) h).
    destruct (IH (dst + 4) (src + 4) h1) as (m' & E & Hdom & Hcp & Hout); [|lia|].
    { intros i Hi. replace (dst + 4 + 4 * i) with (dst + 4 * (i + 1)) by lia. replace (src + 4 + 4 * i) with (src + 4 * (i + 1)) by lia.
      destruct (Hsome (i + 1)) as [? ?]; [lia|]. cbn. by rewrite !lookup_insert_ne by lia. }
    munfold in E. exists m'. rewrite E. split; [done|]. split; [rewrite Hdom; by apply dom_insert_lookup_L|]. split.
    + intros i Hi. destruct (decide (i = 0)) as [->|Hi0].
      * rewrite Z.mul_0_r, !Z.add_0_r, Hout by lia. cbn. by rewrite lookup_insert_eq.
      * replace (dst + 4 * i) with (dst + 4 + 4 * (i - 1)) by lia. rewrite Hcp by lia. cbn.
        rewrite lookup_insert_ne by lia. f_equal. lia.
    + intros x Hx. rewrite Hout by lia. cbn. by rewrite lookup_insert_ne by lia.
Qed.

(** ** Resizing *)

(** The block [o, nx) is now [o', nx'), with its first words. *)
Record resized (h : heap) (l : list (Z * Z)) (o nx newsize o' nx' : Z) (h' : heap) : Prop := {
  rs_state : exists l', heap_state h' l' /\ l' ≡ₚ (o', nx') :: l;
  rs_room : o' + SIZEOF_STRUCT_MEM + newsize <= nx';
  rs_area : same_area h h';
  rs_others : data_kept l h h';
  rs_data : forall i, 0 <= i < nx - (o + SIZEOF_STRUCT_MEM) -> i < newsize -> i mod 4 = 0 ->
    hp_mem h' !! (o' + SIZEOF_STRUCT_MEM + i) = hp_mem h !! (o + SIZEOF_STRUCT_MEM + i);
}.

Lemma resize_section_ok h l1 o nx l2 newsize :
  heap_state h (l1 ++ (o, nx) :: l2) -> 0 < newsize -> newsize mod 4 = 0 ->
  let size := nx - o - SIZEOF_STRUCT_MEM in
  realloc_section (hp_ptr h + (o + SIZEOF_STRUCT_MEM)) newsize h = Some ((false, size), h) \/
  exists h', realloc_section (hp_ptr h + (o + SIZEOF_STRUCT_MEM)) newsize h = Some ((true, size), h') /\
    exists nx', resized h (l1 ++ l2) o nx newsize o nx' h'.
Proof.
  intros Hs Hnz Hmod size. pose proof (state_sorted _ _ _ _ _ Hs) as (Ho & Hnx & _). unfold realloc_section. munfold.
  unfold in_heap. rewrite !bool_decide_false by heap_lia. cbn [negb orb].
  replace (hp_ptr h + (o + SIZEOF_STRUCT_MEM) - hp_ptr h) with (o + SIZEOF_STRUCT_MEM) by lia.
  destruct (decide (newsize + SIZEOF_STRUCT_MEM + MIN_SIZE < size)) as [Hlt|Hge].
  - right. destruct (shrink_ok h l1 o nx l2 newsize Hs Hnz Hmod Hlt) as (h' & E & Hs' & Ha & Hd). exists h'. split; [done|].
    exists (o + SIZEOF_STRUCT_MEM + newsize). split; [|lia|done| |].
    + eexists. split; [done|]. by rewrite Permutation_middle.
    + intros o' nx' x Hin. apply (Hd o' nx' x). apply elem_of_app in Hin. apply elem_of_app. rewrite elem_of_cons. tauto.
    + intros i Hi Hin _. apply (Hd o (o + SIZEOF_STRUCT_MEM + newsize)); [|lia]. apply elem_of_app. right. apply elem_of_cons. by left.
  - destruct Hs as (bs & Hr & El). destruct (hc_seg _ _ (hr_core _ _ Hr)) as (pl & Hsg). pose proof (hc_base _ _ (hr_core _ _ Hr)) as (Hb & _ & Hb2).
    destruct (allocs_split _ _ _ _ _ _ _ _ _ _ Hsg (eq_sym El)) as (bs1 & bs2 & pm & _ & _ & (Hh & _) & _).
    unfold realloc_locked. replace (o + SIZEOF_STRUCT_MEM - SIZEOF_STRUCT_MEM) with o by lia. munfold.
    rewrite (mem_next_run _ _ _ _ _ Hh), (wrap_id 32) by heap_lia. fold size. destruct (decide (size = newsize)) as [He|Hne].
    + right. rewrite bool_decide_true by done. exists h. split; [done|]. exists nx. unfold size in *. split; [|lia|done|done|done].
      eexists. split; [by exists bs|]. by rewrite Permutation_middle.
    + left. rewrite !bool_decide_false by (done || lia). done.
Qed.

(** rt_memcpy of [4 * n] bytes from the data of one block to that of another. *)
Lemma copy_block_ok h l o nx o' nx' n :
  heap_state h l -> (o, nx) ∈ l -> (o', nx') ∈ l -> nx <= o' \/ nx' <= o -> o mod 4 = 0 -> o' mod 4 = 0 ->
  o + SIZEOF_STRUCT_MEM + 4 * Z.of_nat n <= nx -> o' + SIZEOF_STRUCT_MEM + 4 * Z.of_nat n <= nx' ->
  exists h', copy_words n (o' + SIZEOF_STRUCT_MEM) (o + SIZEOF_STRUCT_MEM) h = Some (tt, h') /\ heap_state h' l /\ same_area h h' /\
    (forall i, 0 <= i < Z.of_nat n -> hp_mem h' !! (o' + SIZEOF_STRUCT_MEM + 4 * i) = hp_mem h !! (o + SIZEOF_STRUCT_MEM + 4 * i)) /\
    (forall x, ~ (o' + SIZEOF_STRUCT_MEM <= x < nx') -> hp_mem h' !! x = hp_mem h !! x).
Proof.
  intros Hs Hin Hin' Hap Ho Ho' Hfit Hfit'. pose proof Hs as (bs & Hr & El). pose proof (hr_core _ _ Hr) as Hc.
  assert (Hb : forall o nx, (o, nx) ∈ l -> 0 <= o /\ nx <= hp_end h).
  { intros o1 nx1 (l1 & l2 & ->)%list_elem_of_split. destruct (state_sorted _ _ _ _ _ Hs) as (? & ? & _). lia. }
  assert (Hw : forall b n0 i, (b, n0) ∈ l -> b mod 4 = 0 -> b + SIZEOF_STRUCT_MEM + 4 * Z.of_nat n <= n0 -> 0 <= i < Z.of_nat n ->
    is_Some (hp_mem h !! (b + SIZEOF_STRUCT_MEM + 4 * i))).
  { intros b n0 i Hi Hbm Hbf Hii. destruct (Hb _ _ Hi). apply (hc_words _ _ Hc); [heap_lia|].
    unfold SIZEOF_STRUCT_MEM. rewrite Z.mul_comm, Z.mod_add, Z.add_mod, Hbm by lia. done. }
  destruct (copy_words_ok n (o' + SIZEOF_STRUCT_MEM) (o + SIZEOF_STRUCT_MEM) h) as (m' & E & Hd & Hcp & Hout); [|heap_lia|].
  { intros i Hi. split; [by apply (Hw o' nx')|by apply (Hw o nx)]. }
  exists (set_hp_mem m' h). split; [done|]. split; [|split; [by split|split; [done|]]].
  - apply state_data; [done..|]. intros x Hx. apply Hout. intros Hxb. apply Hx. exists o', nx'. split; [done|lia].
  - intros x Hx. apply Hout. lia.
Qed.

Lemma state_block h l o nx : heap_state h l -> (o, nx) ∈ l -> o mod 4 = 0 /\ nx mod 4 = 0 /\ 0 <= o /\ o + SIZEOF_STRUCT_MEM < nx <= hp_end h.
Proof.
  intros Hs (l1 & l2 & ->)%list_elem_of_split. destruct (state_sorted _ _ _ _ _ Hs) as (Ho & Hnx & _).
  destruct Hs as (bs & Hr & El). destruct (hc_seg _ _ (hr_core _ _ Hr)) as (pl & Hs).
  destruct (allocs_split _ _ _ _ _ _ _ _ _ _ Hs (eq_sym El)) as (bs1 & bs2 & pm & _ & Hs1 & (_ & _ & Hm & _) & _).
  split; [by apply (seg_mod _ _ _ _ _ _ Hs1)|done].
Qed.

(** The number of words rt_realloc copies. *)
Lemma copied_words size newsize :
  0 <= size -> 0 < newsize -> let n := Z.to_nat ((if bool_decide (size < newsize) then size else newsize) / 4) in
  4 * Z.of_nat n <= size /\ 4 * Z.of_nat n <= newsize /\
  (size mod 4 = 0 -> newsize mod 4 = 0 -> forall i, 0 <= i < size -> i < newsize -> i mod 4 = 0 -> exists j, i = 4 * j /\ 0 <= j < Z.of_nat n).
Proof.
  intros Hs Hn n. assert (Hc : exists c, Z.of_nat n = c / 4 /\ 0 <= c <= size /\ c <= newsize /\ (c = size \/ c = newsize)).
  { unfold n. case_bool_decide; eexists; (split; [rewrite Z2Nat.id; [done|by apply Z.div_pos; lia]|]); lia. }
  destruct Hc as (c & -> & Hc1 & Hc2 & Hc3). pose proof (Z.mul_div_le c 4 ltac:(lia)). split; [lia|]. split; [lia|].
  intros Hsm Hnm i Hi Hin Him. exists (i / 4). pose proof (Z.div_mod i 4 ltac:(lia)). pose proof (Z.div_mod c 4 ltac:(lia)).
  assert (c mod 4 = 0) by (by destruct Hc3 as [->| ->]). lia.
Qed.

(** Replacing the block [o, nx) among the allocated ones by the new block. *)
Lemma swap_split (l1 l2 l1' l2' : list (Z * Z)) b b' :
  l1' ++ l2' = l1 ++ b :: l2 -> exists la lb, l1' ++ b' :: l2' = la ++ b :: lb /\ la ++ lb ≡ₚ b' :: l1 ++ l2.
Proof.
  intros E. assert (Hin : b ∈ l1' ++ b' :: l2').
  { assert (b ∈ l1' ++ l2') as Hb by (rewrite E; apply elem_of_app; right; apply elem_of_cons; by left).
    rewrite elem_of_app in Hb. rewrite elem_of_app, elem_of_cons. tauto. }
  apply list_elem_of_split in Hin as (la & lb & Eq). exists la, lb. split; [done|].
  apply (Permutation_cons_inv (a := b)). rewrite Permutation_middle, <- Eq, <- Permutation_middle, E.
  rewrite <- Permutation_middle. apply perm_swap.
Qed.

(** rt_realloc that has to move the block. *)
Lemma realloc_move_ok k t sem l1 o nx l2 newsize :
  heap_ready k t sem (l1 ++ (o, nx) :: l2) -> 0 < sem_value sem -> 0 < newsize < 2 ^ 32 - 3 -> newsize mod 4 = 0 ->
  exists r h', realloc_move (hp_ptr (k_heap k) + (o + SIZEOF_STRUCT_MEM)) (nx - o - SIZEOF_STRUCT_MEM) newsize k = Some (inl r, set_k_heap h' k) /\
    match r with
    | Some p => exists o' nx', p = hp_ptr (k_heap k) + (o' + SIZEOF_STRUCT_MEM) /\ resized (k_heap k) (l1 ++ l2) o nx newsize o' nx' h'
    | None => h' = k_heap k
    end.
Proof.
  intros Hy Hv Hnz Hmod. pose proof (hy_state _ _ _ _ Hy) as Hs. pose proof Hs as (bs & Hr & El). set (h := k_heap k) in *. set (size := nx - o - SIZEOF_STRUCT_MEM).
  assert (Hin : (o, nx) ∈ l1 ++ (o, nx) :: l2) by (apply elem_of_app; right; apply elem_of_cons; by left).
  destruct (state_block _ _ _ _ Hs Hin) as (Hom & Hnm & Ho & Hnx).
  pose proof Hy as Hy0. rewrite El in Hy0. destruct (malloc_here k t sem bs newsize Hy0 Hr Hnz) as (r & h1 & Hm & [[_ E]|(? & _ & Hw)]); [|pose proof (hw_taken _ _ _ _ Hw); lia].
  unfold realloc_move. rewrite (bind_run _ _ _ _ _ E). destruct r as [p|]; [|by destruct Hm as [-> _]; exists None, h].
  destruct Hm as (o' & nx' & -> & [(l1' & l2' & El' & Hs1) Ho' Hroom Ha Hd Hap]). rewrite <- El in *.
  destruct (swap_split l1 l2 l1' l2' (o, nx) (o', nx') (eq_sym El')) as (la & lb & Eab & Hperm). rewrite Eab in Hs1.
  assert (Hin1 : (o, nx) ∈ la ++ (o, nx) :: lb) by (apply elem_of_app; right; apply elem_of_cons; by left).
  assert (Hin1' : (o', nx') ∈ la ++ lb) by (rewrite Hperm; apply elem_of_cons; by left).
  assert (Hsz : size mod 4 = 0) by (unfold size, SIZEOF_STRUCT_MEM; rewrite Zminus_mod, (Zminus_mod nx), Hom, Hnm by lia; done).
  destruct (copied_words size newsize) as (Hc1 & Hc2 & Hc3); [unfold size; heap_lia|lia|]. set (n := Z.to_nat _) in *.
  destruct (copy_block_ok h1 _ o nx o' nx' n Hs1 Hin1) as (h2 & Ec & Hs2 & Ha2 & Hcp & Hout); [|by apply Hap|done..|unfold size in *; heap_lia|lia|].
  { rewrite elem_of_app, elem_of_cons. rewrite elem_of_app in Hin1'. tauto. }
  destruct (free_here (set_k_heap h2 k) t sem la o nx lb) as (h3 & Hs3 & Ha3 & Hd3 & [[_ Ef]|(? & _ & Hw)]); [by apply (heap_ready_set h2 _ _ _ _ _ Hy)| |pose proof (hw_taken _ _ _ _ Hw); lia].
  assert (Hp2 : hp_ptr h2 = hp_ptr h) by (etransitivity; [apply Ha2|apply Ha]). cbn in Ef. rewrite Hp2 in Ef.
  exists (Some (hp_ptr h + (o' + SIZEOF_STRUCT_MEM))), h3. split.
  - unfold realloc_moved. rewrite (bind_run _ _ _ tt (set_k_heap h2 k)).
    2:{ apply (on_heap_run _ (set_k_heap h1 k)). munfold. cbn. rewrite (proj1 Ha). fold h. fold n.
        replace (hp_ptr h + (o' + SIZEOF_STRUCT_MEM) - hp_ptr h) with (o' + SIZEOF_STRUCT_MEM) by lia.
        replace (hp_ptr h + (o + SIZEOF_STRUCT_MEM) - hp_ptr h) with (o + SIZEOF_STRUCT_MEM) by lia. exact Ec. }
    unfold realloc_free. by rewrite (bind_run _ _ _ _ _ Ef).
  - exists o', nx'. split; [done|]. split; [by exists (la ++ lb)|done| | |].
    + by apply (same_area_trans _ h1), (same_area_trans _ h2).
    + intros o1 nx1 x Hx Hb. assert (Hl : (o1, nx1) ∈ l1 ++ (o, nx) :: l2) by (rewrite elem_of_app in *; rewrite elem_of_cons; tauto).
      rewrite (Hd3 o1 nx1 x); [|rewrite Hperm; apply elem_of_cons; by right|done]. cbn.
      rewrite Hout, (Hd o1 nx1 x); [done..|]. destruct (Hap _ _ Hl); heap_lia.
    + intros i Hi Hin2 Him. destruct (Hc3 Hsz Hmod i) as (j & -> & Hj); [unfold size; lia|done..|].
      rewrite (Hd3 o' nx'); [|done|heap_lia]. cbn. rewrite Hcp by done. apply (Hd o nx); [done|unfold size in *; heap_lia].
Qed.

(** rt_realloc of an allocated block to a positive size, by a thread that finds the
    lock free, returns.  RT_NULL leaves everything as it was; otherwise the block at the
    returned address has room for the new size and starts with the words of the old one
    up to the smaller of the sizes, all other blocks are there with their data, and the
    old block is gone unless it stayed in its place. *)
Lemma realloc_ok k t sem l1 o nx l2 newsize :
  heap_ready k t sem (l1 ++ (o, nx) :: l2) -> 0 < sem_value sem -> 0 < newsize < 2 ^ 32 - 6 ->
  exists r h', rt_realloc (hp_ptr (k_heap k) + (o + SIZEOF_STRUCT_MEM)) newsize k = Some (inl r, set_k_heap h' k) /\
    match r with
    | Some p => exists o' nx', p = hp_ptr (k_heap k) + (o' + SIZEOF_STRUCT_MEM) /\ resized (k_heap k) (l1 ++ l2) o nx newsize o' nx' h'
    | None => h' = k_heap k
    end.
Proof.
  intros Hy Hv Hnz. pose proof (hy_state _ _ _ _ Hy) as Hs. destruct (state_sorted _ _ _ _ _ Hs) as (Ho & Hnx & _).
  assert (Hb : 0 < hp_ptr (k_heap k)) by (destruct Hs as (bs & Hr & _); apply (hc_base _ _ (hr_core _ _ Hr))).
  assert (Hal : RT_ALIGN newsize = 4 * ((newsize + 3) / 4)) by (apply align_eq; lia). set (ns := RT_ALIGN newsize) in *.
  pose proof (Z.div_mod (newsize + 3) 4 ltac:(lia)). pose proof (Z.mod_pos_bound (newsize + 3) 4 ltac:(lia)).
  assert (Hns : newsize <= ns < 2 ^ 32 - 3) by lia. assert (Hnm : ns mod 4 = 0) by (rewrite Hal, Z.mul_comm; apply Z.mod_mul; lia).
  assert (Hweak : forall o' nx' h', resized (k_heap k) (l1 ++ l2) o nx ns o' nx' h' -> resized (k_heap k) (l1 ++ l2) o nx newsize o' nx' h').
  { intros o' nx' h' [Hst Hroom Ha Hot Hda]. split; try done; [lia|]. intros i Hi Hin. apply Hda; lia. }
  unfold rt_realloc. fold ns. rewrite (bind_run _ _ k (hp_mem_size_aligned (k_heap k)) k) by (by destruct k).
  case_bool_decide as Hbig; [exists None, (k_heap k); by destruct k|].
  rewrite !bool_decide_false by heap_lia. destruct (resize_section_ok _ l1 o nx l2 ns Hs) as [E|(h' & E & nx' & Hrs)]; [lia|done|..].
  - rewrite (bind_run _ _ _ _ _ (heap_locked_free _ k sem t _ _ (hy_kinv _ _ _ _ Hy) (hy_sem_inv _ _ _ _ Hy) (hy_sem _ _ _ _ Hy) (hy_running _ _ _ _ Hy) Hv E)).
    replace (set_k_heap (k_heap k) k) with k by (by destruct k). unfold realloc_decided. cbn [fst snd].
    destruct (realloc_move_ok k t sem l1 o nx l2 ns Hy Hv) as (r & h' & Em & Hr); [lia|done|]. exists r, h'. split; [done|].
    destruct r as [p|]; [|done]. destruct Hr as (o' & nx' & -> & Hr). exists o', nx'. split; [done|by apply Hweak].
  - rewrite (bind_run _ _ _ _ _ (heap_locked_free _ k sem t _ _ (hy_kinv _ _ _ _ Hy) (hy_sem_inv _ _ _ _ Hy) (hy_sem _ _ _ _ Hy) (hy_running _ _ _ _ Hy) Hv E)).
    do 2 eexists. split; [done|]. exists o, nx'. split; [done|by apply Hweak].
Qed.

(** ** Zeroed blocks *)

(** The byte at offset [x]; words are little-endian. *)
Definition heap_byte (h : heap) (x : Z) : option Z :=
  (fun w => w / 2 ^ (8 * (x mod 4)) mod 256) <$> hp_mem h !! (x - x mod 4).

Lemma clear_words_ok n off h :
  (forall i, 0 <= i < Z.of_nat n -> is_Some (hp_mem h !! (off + 4 * i))) ->
  exists m', clear_words n off h = Some (tt, set_hp_mem m' h) /\ dom m' = dom (hp_mem h) /\
    (forall i, 0 <= i < Z.of_nat n -> m' !! (off + 4 * i) = Some 0) /\
    (forall x, ~ (off <= x < off + 4 * Z.of_nat n) -> m' !! x = hp_mem h !! x).
Proof.
  revert off h. induction n as [|n IH]; intros off h Hsome.
  - exists (hp_mem h). split; [by destruct h|]. split; [done|]. split; [lia|done].
  - pose proof (Hsome 0 ltac:(lia)) as H0. rewrite Z.mul_0_r, Z.add_0_r in H0. cbn [clear_words]. munfold. rewrite st_run by done.
    set (h1 := set_hp_mem (<[off := 0]> (hp_mem h)) h). destruct (IH (off + 4) h1) as (m' & E & Hdom & Hz & Hout).
    { intros i Hi. replace (off + 4 + 4 * i) with (off + 4 * (i + 1)) by lia. cbn. rewrite lookup_insert_ne by lia. apply Hsome. lia. }
    munfold in E. exists m'. rewrite E. split; [done|]. split; [rewrite Hdom; by apply dom_insert_lookup_L|]. split.
    + intros i Hi. destruct (decide (i = 0)) as [->|Hi0].
      * rewrite Z.mul_0_r, Z.add_0_r, Hout by lia. cbn. by rewrite lookup_insert_eq.
      * replace (off + 4 * i) with (off + 4 + 4 * (i - 1)) by lia. apply Hz. lia.
    + intros x Hx. rewrite Hout by lia. cbn. by rewrite lookup_insert_ne by lia.
Qed.

(** The low bytes of a word that was cleared by [clear_bytes]. *)
Lemma cleared_byte w c j : 0 <= j < c -> (w - w mod 2 ^ (8 * c)) / 2 ^ (8 * j) mod 256 = 0.
Proof.
  intros Hj. pose proof (Z.div_mod w (2 ^ (8 * c)) ltac:(lia)) as Hd.
  replace (w - w mod 2 ^ (8 * c)) with (w / 2 ^ (8 * c) * 2 ^ (8 * (c - j - 1)) * 256 * 2 ^ (8 * j)).
  - rewrite Z.div_mul by lia. apply Z.mod_mul. lia.
  - replace (2 ^ (8 * c)) with (2 ^ (8 * (c - j - 1)) * 256 * 2 ^ (8 * j)) in Hd |- *; [nia|].
    change 256 with (2 ^ 8). rewrite <- !Z.pow_add_r by lia. f_equal. lia.
Qed.

Lemma kept_byte w c j : 0 <= c <= j -> (w - w mod 2 ^ (8 * c)) / 2 ^ (8 * j) mod 256 = w / 2 ^ (8 * j) mod 256.
Proof.
  intros Hj. pose proof (Z.div_mod w (2 ^ (8 * c)) ltac:(lia)) as Hd. f_equal.
  replace (2 ^ (8 * j)) with (2 ^ (8 * c) * 2 ^ (8 * (j - c))) by (rewrite <- Z.pow_add_r by lia; f_equal; lia).
  replace (w - w mod 2 ^ (8 * c)) with (w / 2 ^ (8 * c) * 2 ^ (8 * c)) by lia.
  rewrite <- !Z.div_div by lia. by rewrite Z.div_mul by lia.
Qed.

Lemma heap_zero_ok off count h :
  0 <= count -> off mod 4 = 0 -> (forall x, off <= x < off + count -> x mod 4 = 0 -> is_Some (hp_mem h !! x)) ->
  exists m', heap_zero off count h = Some (tt, set_hp_mem m' h) /\ dom m' = dom (hp_mem h) /\
    (forall x, off <= x < off + count -> heap_byte (set_hp_mem m' h) x = Some 0) /\
    (forall x, ~ (off <= x < off + count) -> m' !! x = hp_mem h !! x) /\
    (forall x, ~ (off <= x < off + count) -> heap_byte (set_hp_mem m' h) x = heap_byte h x).
Proof.
  intros Hc Ho Hw. pose proof (Z.div_mod count 4 ltac:(lia)) as Hd. pose proof (Z.mod_pos_bound count 4 ltac:(lia)) as Hr.
  set (n := count / 4) in *. set (r := count mod 4) in *. assert (Hn : 0 <= n) by lia.
  assert (Hwd : forall i, 0 <= i -> 4 * i < count -> is_Some (hp_mem h !! (off + 4 * i))).
  { intros i Hi Hic. apply Hw; [lia|]. by rewrite Z.mul_comm, Z.mod_add by lia. }
  destruct (clear_words_ok (Z.to_nat n) off h) as (m1 & E1 & Hd1 & Hz1 & Hout1); [intros i Hi; apply Hwd; lia|]. rewrite Z2Nat.id in * by lia.
  assert (Hpos : forall x, off <= x -> exists i, x - x mod 4 = off + 4 * i /\ x = off + 4 * i + x mod 4 /\ 0 <= i).
  { intros x Hx. exists ((x - off) / 4). pose proof (Z.div_mod (x - off) 4 ltac:(lia)). pose proof (Z.div_mod off 4 ltac:(lia)).
    replace (x mod 4) with ((x - off) mod 4); [|rewrite Zminus_mod, Ho, Z.sub_0_r; apply Z.mod_mod; lia].
    split; [lia|]. split; [lia|apply Z.div_pos; lia]. }
  assert (Hlow : forall x, ~ (off <= x < off + count) -> ~ (off <= x - x mod 4 < off + 4 * n)).
  { intros x Hx Hw4. pose proof (Z.mod_pos_bound x 4 ltac:(lia)). destruct (Hpos x) as (i & Ei & Hxi & Hi); [lia|]. rewrite Ei in Hw4. lia. }
  unfold heap_zero. fold n. fold r. munfold. rewrite E1. unfold heap_byte. cbn. case_bool_decide as Hr0.
  - exists m1. split; [done|]. split; [done|].
    split; [|split; [intros x Hx; apply Hout1; lia|intros x Hx; by rewrite Hout1 by (by apply Hlow)]]. intros x Hx.
    destruct (Hpos x) as (i & -> & Hxi & Hi); [lia|]. pose proof (Z.mod_pos_bound x 4 ltac:(lia)). by rewrite Hz1 by lia.
  - destruct (Hwd n) as [w Ew]; [lia|lia|]. assert (E1w : m1 !! (off + n * 4) = Some w) by (rewrite Hout1 by lia; by rewrite (Z.mul_comm n)).
    unfold clear_bytes. munfold. rewrite (ld_run (set_hp_mem m1 h) _ w) by done. rewrite st_run by (cbn; rewrite E1w; eauto).
    exists (<[off + n * 4 := w - w mod 2 ^ (8 * r)]> m1). split; [done|]. split; [|split; [|split]].
    + rewrite <- Hd1. apply dom_insert_lookup_L. by rewrite E1w.
    + intros x Hx. destruct (Hpos x) as (i & -> & Hxi & Hi); [lia|]. pose proof (Z.mod_pos_bound x 4 ltac:(lia)).
      destruct (decide (i = n)) as [->|Hin].
      * rewrite (Z.mul_comm 4 n), lookup_insert_eq. cbn. f_equal. apply cleared_byte. lia.
      * rewrite lookup_insert_ne by lia. by rewrite Hz1 by lia.
    + intros x Hx. rewrite lookup_insert_ne by lia. apply Hout1. lia.
    + intros x Hx. destruct (decide (x - x mod 4 = off + n * 4)) as [Ex|Hne]; [|rewrite lookup_insert_ne by done; by rewrite Hout1 by (by apply Hlow)].
      rewrite Ex, lookup_insert_eq, (Z.mul_comm n 4), Ew. cbn. f_equal. apply kept_byte. pose proof (Z.mod_pos_bound x 4 ltac:(lia)). lia.
Qed.

(** rt_calloc, when count * size does not overflow and the lock is free, returns
    RT_NULL with nothing changed or a block as rt_malloc would grant it in which all
    count * size bytes are zero. *)
Lemma calloc_ok k t sem bs count size :
  heap_ready k t sem (allocs 0 bs) -> heap_rep (k_heap k) bs -> 0 < sem_value sem -> 0 < count * size < 2 ^ 32 - 3 ->
  exists r h', rt_calloc count size k = Some (inl r, set_k_heap h' k) /\
    match r with
    | Some p => exists o nx, p = hp_ptr (k_heap k) + (o + SIZEOF_STRUCT_MEM) /\ granted (k_heap k) (allocs 0 bs) (count * size) o nx h' /\
        (forall i, 0 <= i < count * size -> heap_byte h' (o + SIZEOF_STRUCT_MEM + i) = Some 0)
    | None => h' = k_heap k
    end.
Proof.
  intros Hy Hr Hv Hsz. unfold rt_calloc. rewrite (wrap_id 32) by lia. set (h := k_heap k) in *.
  destruct (malloc_here k t sem bs (count * size) Hy Hr Hsz) as (r & h1 & Hm & [[_ E]|(? & _ & Hw)]); [|pose proof (hw_taken _ _ _ _ Hw); lia].
  rewrite (bind_run _ _ _ _ _ E). destruct r as [p|]; [|by destruct Hm as [-> _]; exists None, h].
  destruct Hm as (o & nx & -> & [(l1 & l2 & El & Hs1) Ho Hroom Ha Hd Hap]). fold h in Ha, Hd.
  destruct (state_sorted _ _ _ _ _ Hs1) as (Hpos & Hend & _). pose proof Hs1 as (bs1 & Hr1 & _).
  destruct (heap_zero_ok (o + SIZEOF_STRUCT_MEM) (count * size) h1) as (m' & Ez & Hdm & Hz & Hout & _); [lia|..].
  { unfold SIZEOF_STRUCT_MEM. rewrite Z.add_mod, Ho by lia. done. }
  { intros x Hx. apply (hc_words _ _ (hr_core _ _ Hr1)). heap_lia. }
  exists (Some (hp_ptr h + (o + SIZEOF_STRUCT_MEM))), (set_hp_mem m' h1). split.
  - unfold calloc_zero. munfold. rewrite (on_heap_run _ (set_k_heap h1 k) tt (set_hp_mem m' h1)); [done|].
    munfold. cbn. rewrite (proj1 Ha), (wrap_id 32) by lia. fold h.
    replace (hp_ptr h + (o + SIZEOF_STRUCT_MEM) - hp_ptr h) with (o + SIZEOF_STRUCT_MEM) by lia. exact Ez.
  - exists o, nx. split; [done|]. split; [split; try done|intros i Hi; apply Hz; lia].
    + exists l1, l2. split; [done|]. apply state_data; [done..|]. intros x Hx. apply Hout. intros Hxb. apply Hx. exists o, nx.
      split; [apply elem_of_app; right; apply elem_of_cons; by left|lia].
    + apply (same_area_trans _ h1); [done|by split].
    + intros o1 nx1 x Hin Hx. cbn. rewrite Hout, (Hd o1 nx1 x); [done..|]. destruct (Hap o1 nx1 Hin); heap_lia.
Qed.
