(* ===== verification/HeapBytes.v ===== *)
(** * The data of blocks as bytes

    Mem.v and Malloc.v see the heap as words.  Here the memory is also seen as bytes,
    on which the functions of KMem.v work: the word loops by which the heap model copies
    and clears data do what rt_memcpy and rt_memset do with the bytes. *)
From S2P Require Import Prelude KMem Kernel Mem Malloc.
From stdpp Require Import base gmap sets list.
From Stdlib Require Import ZArith Lia.
#[local] Open Scope Z_scope.

(** The bytes of [m] at the addresses of the heap are those of its words. *)
Definition viewed (h : heap) (m : gmap Z Z) : Prop :=
  forall x, 0 <= x < hp_end h + SIZEOF_STRUCT_MEM -> m !! (hp_ptr h + x) = heap_byte h x.
(** All words of the area from [off] on are there. *)
Definition words (h : heap) (off n : Z) : Prop := forall x, off <= x < off + n -> x mod 4 = 0 -> is_Some (hp_mem h !! x).

Lemma word_start off x : off mod 4 = 0 -> off <= x -> off <= x - x mod 4 /\ (x - x mod 4) mod 4 = 0.
Proof.
  intros Ho Hx. pose proof (Z.div_mod x 4 ltac:(lia)). pose proof (Z.div_mod off 4 ltac:(lia)). pose proof (Z.mod_pos_bound x 4 ltac:(lia)).
  split; [lia|]. replace (x - x mod 4) with (x / 4 * 4) by lia. by apply Z.mod_mul.
Qed.
Lemma words_byte h off n x : off mod 4 = 0 -> words h off n -> off <= x < off + n -> is_Some (heap_byte h x).
Proof.
  intros Ho Hw Hx. destruct (word_start off x Ho) as [H1 H2]; [lia|]. pose proof (Z.mod_pos_bound x 4 ltac:(lia)).
  destruct (Hw (x - x mod 4)) as [w E]; [lia|done|]. unfold heap_byte. rewrite E. by eexists.
Qed.
Lemma viewed_mapped h m off n :
  viewed h m -> off mod 4 = 0 -> words h off n -> 0 <= off -> off + n <= hp_end h + SIZEOF_STRUCT_MEM -> mapped m (hp_ptr h + off) n.
Proof.
  intros Hv Ho Hw H0 Hn x Hx. replace x with (hp_ptr h + (x - hp_ptr h)) by lia. rewrite Hv by lia. apply (words_byte h off n); [done..|lia].
Qed.

(** Copying words from block to block, as the model of rt_realloc does it, is rt_memcpy
    on the bytes: from bytes that agree with the words both are defined and end in bytes
    that agree with the words. *)
Theorem heap_copy_is_memcpy h m n dst src :
  viewed h m -> byte_values m -> dst mod 4 = 0 -> src mod 4 = 0 -> words h dst (4 * Z.of_nat n) -> words h src (4 * Z.of_nat n) ->
  0 <= dst -> 0 <= src -> dst + 4 * Z.of_nat n <= hp_end h + SIZEOF_STRUCT_MEM -> src + 4 * Z.of_nat n <= hp_end h + SIZEOF_STRUCT_MEM ->
  src + 4 * Z.of_nat n <= dst \/ dst + 4 * Z.of_nat n <= src -> 4 * Z.of_nat n < 2 ^ 31 ->
  exists h' m', copy_words n dst src h = Some (tt, h') /\
    rt_memcpy (hp_ptr h + dst) (hp_ptr h + src) (4 * Z.of_nat n) m = Some (hp_ptr h + dst, m') /\ viewed h' m'.
Proof.
  intros Hv Hb Hd Hs Hwd Hws H0d H0s Hed Hes Hap Hmax.
  destruct (copy_words_ok n dst src h) as (w' & Ew & _ & Hcp & Hout); [|done|].
  { intros i Hi. split; [apply Hwd|apply Hws]; try lia; rewrite Z.mul_comm, Z.mod_add; done || lia. }
  destruct (memcpy_ok m (hp_ptr h + dst) (hp_ptr h + src) (4 * Z.of_nat n)) as (m' & Em & Hc & _);
    [lia|done|by apply viewed_mapped|by apply viewed_mapped|lia|].
  exists (set_hp_mem w' h), m'. split; [done|]. split; [done|]. intros x Hx. cbn in Hx |- *. rewrite Hc. unfold heap_byte. cbn.
  case_bool_decide as Hin.
  - destruct (word_start dst x Hd) as [H1 H2]; [lia|]. pose proof (Z.mod_pos_bound x 4 ltac:(lia)).
    pose proof (Z.div_mod (x - x mod 4) 4 ltac:(lia)). pose proof (Z.div_mod dst 4 ltac:(lia)).
    set (i := (x - x mod 4) / 4 - dst / 4) in *. assert (Ei : x - x mod 4 = dst + 4 * i) by lia.
    replace (hp_ptr h + src + (hp_ptr h + x - (hp_ptr h + dst))) with (hp_ptr h + (src + 4 * i + x mod 4)) by lia.
    rewrite Hv by lia. unfold heap_byte. rewrite Ei, Hcp by lia.
    assert (Er : (src + 4 * i + x mod 4) mod 4 = x mod 4).
    { rewrite Z.add_mod, (Z.add_mod src), Hs, (Z.mul_comm 4), Z.mod_mul by lia. cbn. rewrite Z.mod_mod by lia. apply Z.mod_small. lia. }
    rewrite Er. by replace (src + 4 * i + x mod 4 - x mod 4) with (src + 4 * i) by lia.
  - rewrite Hv by lia. unfold heap_byte. destruct (decide (dst <= x - x mod 4 < dst + 4 * Z.of_nat n)) as [Hw4|Hw4]; [|by rewrite Hout].
    pose proof (Z.mod_pos_bound x 4 ltac:(lia)). destruct (word_start dst x Hd) as [H1 H2]; [lia|].
    pose proof (Z.div_mod (x - x mod 4) 4 ltac:(lia)). pose proof (Z.div_mod dst 4 ltac:(lia)). lia.
Qed.

(** Clearing a block by words, as the model of rt_calloc does it, is rt_memset with 0
    on the bytes. *)
Lemma heap_zero_is_memset h m off count :
  viewed h m -> off mod 4 = 0 -> words h off count -> 0 <= off -> 0 <= count -> off + count <= hp_end h + SIZEOF_STRUCT_MEM ->
  exists h' m', heap_zero off count h = Some (tt, h') /\ rt_memset (hp_ptr h + off) 0 count m = Some (hp_ptr h + off, m') /\ viewed h' m'.
Proof.
  intros Hv Ho Hw H0 Hc He. destruct (heap_zero_ok off count h Hc Ho Hw) as (w' & Ew & _ & Hz & _ & Hout).
  destruct (memset_ok m (hp_ptr h + off) 0 count Hc) as (m' & Em & Hf & _); [by apply viewed_mapped|].
  exists (set_hp_mem w' h), m'. split; [done|]. split; [done|]. intros x Hx. cbn in Hx. rewrite Hf. cbn [hp_ptr set_hp_mem]. case_bool_decide as Hin.
  - by rewrite Hz by lia.
  - rewrite Hout by lia. by apply Hv.
Qed.
