(* ===== verification/System.v ===== *)
(** * The kernel as a whole

    [sys_inv] is the conjunction of the invariants of all components.  An operation
    belongs to one part of the kernel; what it does to the rest is described by [keeps]
    (the stores) and [quiet] (the waiting lists of the other parts lose threads at most,
    and waiting threads keep their wait condition), from which [sys_inv] follows. *)
From S2P Require Import Prelude RtList Kernel Sched Timer Object Thread Lifecycle Ipc Sem Mutex Event Mailbox MsgQueue MemPool Mem Malloc.
From stdpp Require Import base gmap sets list.
From Stdlib Require Import ZArith Lia.
#[local] Open Scope Z_scope.

(** ** The invariant *)

Lemma half_bound time : time < HALF -> time < 2 ^ 31.
Proof. unfold HALF. lia. Qed.

(** What holds at all times. *)
Record sys_core (k : kernel) : Prop := {
  sy_kinv : kinv None k;
  sy_objs : oinv (k_objs k);
  sy_sems : sem_inv k;
  sy_mutexes : mutex_inv k;
  sy_events : event_inv k;
  sy_mbs : mb_inv k;
  sy_mqs : mq_inv k;
  sy_mps : mp_inv k;
  sy_heap : exists l, heap_state (k_heap k) l;
  sy_lock : is_Some (k_sems k !! heap_sem);
}.

(** Between two ticks the timer lists are sorted, the hard list seen from the current tick. *)
Definition timed (k : kernel) : Prop :=
  exists softbase, tsorted (based (t_tick (k_timers k)) softbase) (k_timers k) /\ periods (k_timers k).

(** The invariant of the kernel between two ticks. *)
Record sys_inv (k : kernel) : Prop := { sy_core : sys_core k; sy_time : timed k }.
Coercion sy_core : sys_inv >-> sys_core.

(** ** The parts of the kernel *)

Inductive part := PThread | PSem | PMutex | PEvent | PMailbox | PMsgQueue | PMemPool | PHeap | PDriver.
Definition part_of (h : qhead) : part :=
  match h with
  | QReady _ | QDefunct => PThread
  | QSem _ => PSem
  | QMutex _ => PMutex
  | QEvent _ => PEvent
  | QMbRecv _ | QMbSend _ => PMailbox
  | QMqRecv _ | QMqSend _ => PMsgQueue
  | QMempool _ => PMemPool
  | QComp _ | QDqPush _ | QDqPop _ => PDriver
  end.

(** The stores outside part [c] are the same, and the containers stay well formed. *)
Record keeps (c : part) (k k' : kernel) : Prop := {
  kp_objs : oinv (k_objs k) -> oinv (k_objs k');
  kp_sems : c <> PSem -> k_sems k' = k_sems k;
  kp_mutexes : c <> PMutex -> k_mutexes k' = k_mutexes k;
  kp_events : c <> PEvent -> k_events k' = k_events k;
  kp_mbs : c <> PMailbox -> k_mbs k' = k_mbs k;
  kp_mqs : c <> PMsgQueue -> k_mqs k' = k_mqs k;
  kp_mps : c <> PMemPool -> k_mps k' = k_mps k;
  kp_heap : c <> PHeap -> k_heap k' = k_heap k;
  kp_lock : is_Some (k_sems k !! heap_sem) -> is_Some (k_sems k' !! heap_sem);
}.

(** The waiting lists outside part [c] only lose threads; no thread disappears; and who
    still waits for an event waits for the same bits. *)
Record quiet (c : part) (k k' : kernel) : Prop := {
  qt_queues : forall h l, is_wait h -> part_of h <> c -> s_queues (k_sched k) !! h = Some l ->
    exists l', s_queues (k_sched k') !! h = Some l' /\ forall u, u ∈ l' -> u ∈ l;
  qt_dom : forall u, is_Some (s_threads (k_sched k) !! u) -> is_Some (s_threads (k_sched k') !! u);
  qt_conds : c <> PEvent -> forall n l0 l u th, s_queues (k_sched k) !! QEvent n = Some l0 ->
    s_queues (k_sched k') !! QEvent n = Some l -> u ∈ l -> s_threads (k_sched k) !! u = Some th ->
    exists th', s_threads (k_sched k') !! u = Some th' /\ th_event_info th' = th_event_info th /\ th_event_set th' = th_event_set th;
}.

(** ** Frame lemmas of the components *)

Section Frames.
Context (c : part) (k k' : kernel) (Hkeep : keeps c k k') (Hq : quiet c k k') (Hk : kinv None k).

Lemma sem_inv_quiet : c <> PSem -> sem_inv k -> sem_inv k'.
Proof.
  intros Hc Hi n sem E. rewrite (kp_sems _ _ _ Hkeep Hc) in E. destruct (Hi n sem E) as (Hv & Hf & l & El & Hl).
  destruct (qt_queues _ _ _ Hq (QSem n) l) as (l' & El' & Hsub); [done..|]. split; [done|]. split; [done|]. exists l'. split; [done|].
  destruct Hl as [Hl| ->]; [by left|right]. destruct l' as [|u l']; [done|]. destruct (not_elem_of_nil u). apply Hsub, elem_of_cons. by left.
Qed.

Lemma mutex_inv_quiet : c <> PMutex -> mutex_inv k -> mutex_inv k'.
Proof.
  intros Hc Hi n mx E. rewrite (kp_mutexes _ _ _ Hkeep Hc) in E. destruct (Hi n mx E) as (Hf & l & El & Ho).
  destruct (qt_queues _ _ _ Hq (QMutex n) l) as (l' & El' & Hsub); [done..|]. split; [done|]. exists l'. split; [done|].
  destruct (mx_owner mx) as [o|].
  - destruct Ho as (? & ? & ? & Ho & Hin). split; [done|]. split; [done|]. split; [done|]. split; [by apply (qt_dom _ _ _ Hq)|].
    intros Ho'. by apply Hin, Hsub.
  - destruct Ho as [Ho ->]. split; [done|]. destruct l' as [|u l']; [done|]. destruct (not_elem_of_nil u). apply Hsub, elem_of_cons. by left.
Qed.

Lemma event_inv_quiet : c <> PEvent -> event_inv k -> event_inv k'.
Proof.
  intros Hc Hi n ev E. rewrite (kp_events _ _ _ Hkeep Hc) in E. destruct (Hi n ev E) as (Hf & Hs & l & El & Hl).
  destruct (qt_queues _ _ _ Hq (QEvent n) l) as (l' & El' & Hsub); [done..|]. split; [done|]. split; [done|]. exists l'. split; [done|].
  intros t th' Ht Et'. destruct (si_nodes _ _ (ki_sched _ _ Hk) _ _ t El (Hsub t Ht)) as (_ & th & Et & _).
  destruct (qt_conds _ _ _ Hq Hc n l l' t th El El' Ht Et) as (th2 & Et2 & Hi2 & Hs2). rewrite Et' in Et2. injection Et2 as <-.
  rewrite Hi2, Hs2. by apply (Hl t th); [apply Hsub|].
Qed.

Lemma waiting_quiet h : is_wait h -> part_of h <> c -> is_Some (s_queues (k_sched k) !! h) -> is_Some (s_queues (k_sched k') !! h).
Proof. intros Hw Hc [l El]. destruct (qt_queues _ _ _ Hq h l Hw Hc El) as (l' & -> & _). eauto. Qed.

Lemma mb_inv_quiet : c <> PMailbox -> mb_inv k -> mb_inv k'.
Proof.
  intros Hc Hi n mb E. rewrite (kp_mbs _ _ _ Hkeep Hc) in E. destruct (Hi n mb E) as (? & ? & ? & ?).
  split; [done|]. split; [done|]. split; by apply waiting_quiet.
Qed.
Lemma mq_inv_quiet : c <> PMsgQueue -> mq_inv k -> mq_inv k'.
Proof.
  intros Hc Hi n mq E. rewrite (kp_mqs _ _ _ Hkeep Hc) in E. destruct (Hi n mq E) as (? & ? & ? & ?).
  split; [done|]. split; [done|]. split; by apply waiting_quiet.
Qed.
Lemma mp_inv_quiet : c <> PMemPool -> mp_inv k -> mp_inv k'.
Proof.
  intros Hc Hi n mp E. rewrite (kp_mps _ _ _ Hkeep Hc) in E. destruct (Hi n mp E) as (? & ?). split; [done|]. by apply waiting_quiet.
Qed.
End Frames.

Lemma timed_timely k k' : timed k -> timely 0 (k_timers k) (k_timers k') -> timed k'.
Proof.
  intros (sb & Ho & Hp) [Ht Hord Hper]. exists sb. rewrite Ht. split; [|by apply Hper]. apply Hord; [|done]. cbn. by rewrite Z.sub_diag.
Qed.

(** The invariant of one part. *)
Definition part_inv (c : part) (k : kernel) : Prop :=
  match c with
  | PThread => True
  | PSem => sem_inv k
  | PMutex => mutex_inv k
  | PEvent => event_inv k
  | PMailbox => mb_inv k
  | PMsgQueue => mq_inv k
  | PMemPool => mp_inv k
  | PHeap => exists l, heap_state (k_heap k) l
  | PDriver => True
  end.

#[global] Instance part_eq_dec : EqDecision part.
Proof. solve_decision. Defined.

(** An operation of part [c] keeps the invariant of the system if it keeps its own. *)
Lemma sys_part c k k' :
  sys_core k -> kinv None k' -> part_inv c k' -> keeps c k k' -> quiet c k k' -> sys_core k'.
Proof.
  intros [Hk Ho Hs Hm He Hb Hq Hp Hh Hl] Hk' Hc Hkp Hqt. split.
  - done.
  - by apply (kp_objs _ _ _ Hkp).
  - destruct (decide (c = PSem)) as [->|]; [done|by apply (sem_inv_quiet c k)].
  - destruct (decide (c = PMutex)) as [->|]; [done|by apply (mutex_inv_quiet c k)].
  - destruct (decide (c = PEvent)) as [->|]; [done|by apply (event_inv_quiet c k)].
  - destruct (decide (c = PMailbox)) as [->|]; [done|by apply (mb_inv_quiet c k)].
  - destruct (decide (c = PMsgQueue)) as [->|]; [done|by apply (mq_inv_quiet c k)].
  - destruct (decide (c = PMemPool)) as [->|]; [done|by apply (mp_inv_quiet c k)].
  - destruct (decide (c = PHeap)) as [->|]; [done|by rewrite (kp_heap _ _ _ Hkp)].
  - by apply (kp_lock _ _ _ Hkp).
Qed.

(** ** What is quiet *)

#[global] Instance quiet_refl c : Reflexive (quiet c).
Proof. intros k. split; eauto. Qed.
#[global] Instance quiet_trans c : Transitive (quiet c).
Proof.
  intros k1 k2 k3 [Q1 D1 C1] [Q2 D2 C2]. split.
  - intros h l Hw Hc El. destruct (Q1 h l Hw Hc El) as (l2 & E2 & H2). destruct (Q2 h l2 Hw Hc E2) as (l3 & E3 & H3). eauto.
  - intros u Hu. by apply D2, D1.
  - intros Hc n l1 l3 u th El1 El3 Hu Et. destruct (Q1 (QEvent n) l1) as (l2 & El2 & H2); [done..|].
    destruct (Q2 (QEvent n) l2) as (l3' & El3' & H3); [done..|]. rewrite El3 in El3'. injection El3' as <-.
    destruct (C1 Hc n l1 l2 u th El1 El2 (H3 u Hu) Et) as (th2 & Et2 & Hi2 & Hs2).
    destruct (C2 Hc n l2 l3 u th2 El2 El3 Hu Et2) as (th3 & Et3 & Hi3 & Hs3). exists th3. split; [done|]. split; congruence.
Qed.

(** A change outside the scheduler. *)
Lemma quiet_stores c k k' : k_sched k' = k_sched k -> quiet c k k'.
Proof. intros E. split; rewrite E; eauto. Qed.

(** A change of the scheduler after which every waiting list and wait condition is the same. *)
Lemma quiet_same c k k' :
  (forall h, is_wait h -> part_of h <> c -> s_queues (k_sched k') !! h = s_queues (k_sched k) !! h) ->
  (forall u th, s_threads (k_sched k) !! u = Some th -> exists th', s_threads (k_sched k') !! u = Some th' /\
     th_event_info th' = th_event_info th /\ th_event_set th' = th_event_set th) -> quiet c k k'.
Proof.
  intros Hq Ht. split.
  - intros h l Hw Hc El. exists l. by rewrite Hq.
  - intros u [th Et]. destruct (Ht u th Et) as (th' & -> & _). eauto.
  - intros _ n l0 l u th _ _ _ Et. by apply Ht.
Qed.

Lemma same_stat_conds a b : set_th_stat 0 a = set_th_stat 0 b -> th_event_info a = th_event_info b /\ th_event_set a = th_event_set b.
Proof. intros E. split; [by apply (f_equal th_event_info) in E|by apply (f_equal th_event_set) in E]. Qed.

Lemma quiet_error c t e k : quiet c k (with_error t e k).
Proof.
  apply quiet_same; [intros h _ _; by rewrite with_error_queues|]. intros u th Et. rewrite with_error_thread, Et.
  case_decide; [|by exists th]. by eexists.
Qed.
Lemma quiet_blocked h t flag time k k' : blocked h t flag time k k' -> quiet (part_of h) k k'.
Proof.
  intros Hb. apply quiet_same.
  - intros h' Hw Hc. apply (bl_queues _ _ _ _ _ _ Hb); [done|by intros ->].
  - intros u th Et. destruct (decide (u = t)) as [->|Hne].
    + destruct (bl_thread _ _ _ _ _ _ Hb th Et) as (th' & Et' & _ & E). exists th'. split; [done|]. by apply same_stat_conds.
    + pose proof (bl_threads _ _ _ _ _ _ Hb u Hne) as Ho. rewrite Et in Ho. inversion Ho as [x y [E _] Hx Hy|]; subst.
      exists y. split; [done|]. by apply same_stat_conds.
Qed.
Lemma quiet_woken c h t l k k' :
  s_queues (k_sched k) !! h = Some (t :: l) -> woken h t k k' -> quiet c k k'.
Proof.
  intros El Hw. assert (Ht : forall u th, s_threads (k_sched k) !! u = Some th -> exists th', s_threads (k_sched k') !! u = Some th' /\
     th_event_info th' = th_event_info th /\ th_event_set th' = th_event_set th).
  { intros u th Et. destruct (decide (u = t)) as [->|Hne].
    + destruct (wk_thread _ _ _ _ Hw th Et) as (th' & Et' & _ & E). exists th'. split; [done|]. by apply same_stat_conds.
    + pose proof (wk_threads _ _ _ _ Hw u Hne) as Ho. rewrite Et in Ho. inversion Ho as [x y [E _] Hx Hy|]; subst.
      exists y. split; [done|]. by apply same_stat_conds. }
  split.
  - intros h' l' Hwt _ El'. destruct (decide (h' = h)) as [->|Hne].
    + rewrite El in El'. injection El' as <-. exists l. split; [by apply (wk_queue _ _ _ _ Hw)|]. intros u Hu. apply elem_of_cons. by right.
    + exists l'. by rewrite (wk_queues _ _ _ _ Hw).
  - intros u [th Et]. destruct (Ht u th Et) as (th' & -> & _). eauto.
  - intros _ n l0 l1 u th _ _ _ Et. by apply Ht.
Qed.
Lemma quiet_signalled c h l k k' : s_queues (k_sched k) !! h = Some l -> signalled h l k k' -> quiet c k k'.
Proof. destruct l as [|t l]; cbn; [by intros _ ->|]. intros El. by apply quiet_woken with l. Qed.
Lemma quiet_frame c k s' : sched_frame (k_sched k) s' -> quiet c k (set_k_sched s' k).
Proof.
  intros Hf. apply quiet_same; [intros h Hw _; by apply wait_frame|]. intros u th Et.
  destruct (frame_lookup _ _ _ _ Hf Et) as (th' & Et' & E & _). exists th'. split; [done|]. by apply same_stat_conds.
Qed.
Lemma quiet_reprioritised c t p k s' : reprioritised t p (k_sched k) s' -> quiet c k (set_k_sched s' k).
Proof.
  intros Hr. apply quiet_same; [intros h Hw _; apply (rp_waiting _ _ _ _ Hr); intros q; by apply is_wait_ready|].
  intros u th Et. destruct (decide (u = t)) as [->|Hne].
  - destruct (rp_thread _ _ _ _ Hr th Et) as (th' & Et' & _ & _ & _ & ? & ? & _). by exists th'.
  - exists th. cbn. by rewrite (rp_threads _ _ _ _ Hr).
Qed.

(** ** What is kept *)

Lemma keeps_ikeep c k k' : ikeep k k' -> keeps c k k'.
Proof. intros []. split; try done; congruence. Qed.
#[global] Instance keeps_trans c : Transitive (keeps c).
Proof. intros k1 k2 k3 [] []. split; naive_solver congruence. Qed.

(** The ways in which operations of part [c] leave the kernel. *)
Record calm (c : part) (k k' : kernel) : Prop := {
  cl_keeps : keeps c k k';
  cl_quiet : quiet c k k';
  cl_timely : timely 0 (k_timers k) (k_timers k');
}.
#[global] Instance calm_refl c : Reflexive (calm c).
Proof. split; [by apply keeps_ikeep|done|done]. Qed.
#[global] Instance calm_trans c : Transitive (calm c).
Proof. intros k1 k2 k3 [] []. split; etransitivity; eauto. Qed.

Lemma calm_error c t e k : calm c k (with_error t e k).
Proof. split; [apply keeps_ikeep, with_error_keep|apply quiet_error|by rewrite with_error_timers]. Qed.
Lemma calm_blocked h t flag time k k' : blocked h t flag time k k' -> time < HALF -> calm (part_of h) k k'.
Proof. intros Hb Ht. split; [apply keeps_ikeep, (bl_keep _ _ _ _ _ _ Hb)|by eapply quiet_blocked|by apply (bl_timely _ _ _ _ _ _ Hb)]. Qed.
(** Blocking starts with clearing the error number. *)
Lemma calm_error_blocked h t flag time e k k' : blocked h t flag time (with_error t e k) k' -> time < HALF -> calm (part_of h) k k'.
Proof. intros Hb Ht. etransitivity; [apply (calm_error _ t e)|by eapply calm_blocked]. Qed.
Lemma calm_woken c h t l k k' : s_queues (k_sched k) !! h = Some (t :: l) -> woken h t k k' -> calm c k k'.
Proof. intros El Hw. split; [apply keeps_ikeep, (wk_keep _ _ _ _ Hw)|by eapply quiet_woken|apply (wk_timely _ _ _ _ Hw)]. Qed.
Lemma calm_signalled c h l k k' : s_queues (k_sched k) !! h = Some l -> signalled h l k k' -> calm c k k'.
Proof. destruct l as [|t l]; cbn; [by intros _ ->|]. intros El. by apply calm_woken with l. Qed.
Lemma calm_frame c k s' : sched_frame (k_sched k) s' -> calm c k (set_k_sched s' k).
Proof. intros Hf. split; [apply keeps_ikeep, ikeep_sched|by apply quiet_frame|done]. Qed.
Lemma calm_reprioritised c t p k s' : reprioritised t p (k_sched k) s' -> calm c k (set_k_sched s' k).
Proof. intros Hr. split; [apply keeps_ikeep, ikeep_sched|by apply (quiet_reprioritised c t p)|done]. Qed.

Lemma calm_sems n sem k : calm PSem k (set_k_sems (<[n := sem]> (k_sems k)) k).
Proof. split; [|by apply quiet_stores|done]. split; try done. intros H. cbn. apply lookup_insert_is_Some'. by right. Qed.
Lemma calm_mutexes m k : calm PMutex k (set_k_mutexes m k).
Proof. split; [by split|by apply quiet_stores|done]. Qed.
Lemma calm_events m k : calm PEvent k (set_k_events m k).
Proof. split; [by split|by apply quiet_stores|done]. Qed.
Lemma calm_mbs m k : calm PMailbox k (set_k_mbs m k).
Proof. split; [by split|by apply quiet_stores|done]. Qed.
Lemma calm_mqs m k : calm PMsgQueue k (set_k_mqs m k).
Proof. split; [by split|by apply quiet_stores|done]. Qed.
Lemma calm_mps m k : calm PMemPool k (set_k_mps m k).
Proof. split; [by split|by apply quiet_stores|done]. Qed.
Lemma calm_heap h k : calm PHeap k (set_k_heap h k).
Proof. split; [by split|by apply quiet_stores|done]. Qed.

Lemma sys_calm c k k' : sys_inv k -> kinv None k' -> part_inv c k' -> calm c k k' -> sys_inv k'.
Proof. intros Hs Hk Hc []. split; [apply (sys_part c k); [apply Hs|done..]|by apply (timed_timely k); [apply Hs|]]. Qed.

(** ** The operations on semaphores, mutexes and events *)

Lemma sem_take_calm n sem t time k r k' : time < HALF -> sem_take_post n sem t time k r k' -> calm PSem k k'.
Proof.
  intros Ht [(_ & _ & ->)|[(_ & _ & _ & ->)|(_ & _ & _ & Hb)]]; [apply calm_sems|done|]. by apply (calm_error_blocked _ _ _ _ _ _ _ Hb).
Qed.
Lemma sem_release_calm n sem l k k' :
  s_queues (k_sched k) !! QSem n = Some l ->
  match l with [] => k' = sem_given n sem k | t :: _ => woken (QSem n) t k k' end -> calm PSem k k'.
Proof. destruct l as [|t l]; [intros _ ->; apply calm_sems|]. intros El. by apply calm_woken with l. Qed.

Lemma mutex_take_calm n mx t time k r k' : time < HALF -> mutex_take_post n mx t time k r k' -> calm PMutex k k'.
Proof.
  intros Ht. unfold mutex_take_post. destruct (mx_owner mx) as [o|]; [destruct (decide (o = t)); [|destruct (decide (time = 0))]|].
  - intros (_ & ->). etransitivity; [apply (calm_error _ t RT_EOK)|]. apply calm_mutexes.
  - intros (_ & ->). apply calm_error.
  - intros (_ & th & tho & s1 & _ & _ & Hr & Hb). etransitivity; [apply (calm_error _ t RT_EOK)|].
    etransitivity; [by apply (calm_reprioritised _ _ _ _ s1 Hr)|]. by apply (calm_blocked _ _ _ _ _ _ Hb).
  - intros (_ & th & _ & ->). etransitivity; [apply (calm_error _ t RT_EOK)|]. apply calm_mutexes.
Qed.
Lemma mutex_release_calm n mx t l k k' :
  s_queues (k_sched k) !! QMutex n = Some l -> mutex_release_post n mx t l k k' -> calm PMutex k k'.
Proof.
  intros El. unfold mutex_release_post. destruct (decide _); [intros ->; apply calm_mutexes|]. intros (s1 & Hr & Hl).
  etransitivity; [by apply (calm_reprioritised _ _ _ _ s1 Hr)|]. destruct l as [|u l].
  - subst k'. apply calm_mutexes.
  - destruct Hl as (thu & _ & Hw). etransitivity; [apply (calm_mutexes (<[n := RtMutex (mx_flag mx) 0 (th_current_priority thu) 1 (Some u)]> (k_mutexes k)))|].
    apply (calm_woken _ (QMutex n) u l); [cbn; by rewrite (rp_waiting _ _ _ _ Hr)|done].
Qed.

Lemma calm_cond t set opts k : is_Some (s_threads (k_sched k) !! t) -> calm PEvent k (with_cond t set opts k).
Proof.
  intros [th Et]. destruct (with_cond_facts k t th set opts Et) as (Hk & Hq & _ & Ht & _). split; [by apply keeps_ikeep| |unfold with_cond; by rewrite Et]. split.
  - intros h l _ _ El. exists l. by rewrite Hq.
  - intros u Hu. rewrite Ht. apply lookup_insert_is_Some'. by right.
  - done.
Qed.
Lemma event_recv_calm n ev t set opts timeout k r k' :
  timeout < HALF -> is_Some (s_threads (k_sched k) !! t) -> event_recv_post n ev t set opts timeout k r k' -> calm PEvent k k'.
Proof.
  intros Htime Ht [(_ & _ & ->)|[(_ & _ & _ & ->)|(_ & _ & _ & Hb)]].
  - etransitivity; [apply (calm_error _ t RT_EOK)|]. apply calm_events.
  - apply calm_error.
  - etransitivity; [by apply (calm_cond t set opts)|]. by apply (calm_blocked _ _ _ _ _ _ Hb).
Qed.
Lemma event_sent_calm w k k' : event_sent w k k' -> calm PEvent k k'.
Proof.
  intros [? Hsm ? ? ? ? ? Hq Hd Htl]. split; [split; try done; congruence| |apply Htl]. split; [|done|done].
  intros h l Hw _ El. exists (filter (fun u => u ∉ w.*1) l). rewrite (Hq h Hw), El. split; [done|]. intros u Hu%list_elem_of_filter. tauto.
Qed.

(** ** Mailboxes, message queues, memory pools and the heap *)

Lemma mb_send_calm n mb t value timeout lr k r k' :
  timeout < HALF -> s_queues (k_sched k) !! QMbRecv n = Some lr -> mb_send_post n mb t value timeout lr k r k' -> calm PMailbox k k'.
Proof.
  intros Ht El [(_ & _ & mb' & _ & _ & _ & Hs)|[(_ & _ & _ & ->)|(_ & _ & _ & Hb)]]; [|done|].
  - etransitivity; [apply (calm_mbs (<[n := mb']> (k_mbs k)))|]. by apply (calm_signalled _ (QMbRecv n) lr).
  - by apply (calm_error_blocked _ _ _ _ _ _ _ Hb).
Qed.
Lemma mb_recv_calm n mb t timeout ls k r k' :
  timeout < HALF -> s_queues (k_sched k) !! QMbSend n = Some ls -> mb_recv_post n mb t timeout ls k r k' -> calm PMailbox k k'.
Proof.
  intros Ht El [(v & l & mb' & _ & _ & _ & _ & _ & Hs)|[(_ & _ & _ & ->)|(_ & _ & _ & Hb)]]; [|done|].
  - etransitivity; [apply (calm_mbs (<[n := mb']> (k_mbs k)))|]. by apply (calm_signalled _ (QMbSend n) ls).
  - by apply (calm_error_blocked _ _ _ _ _ _ _ Hb).
Qed.

Lemma mq_stored_calm n mq ext buffer msgs lr k k' :
  s_queues (k_sched k) !! QMqRecv n = Some lr -> mq_stored n mq ext buffer msgs lr k k' -> calm PMsgQueue k k'.
Proof.
  intros El [(mq' & rest & _ & _ & _ & _ & Hs)]. etransitivity; [apply (calm_mqs (<[n := mq']> (k_mqs k)))|].
  by apply (calm_signalled _ (QMqRecv n) lr).
Qed.
Lemma mq_send_calm n mq t buffer timeout msgs lr k r k' :
  timeout < HALF -> s_queues (k_sched k) !! QMqRecv n = Some lr -> mq_send_post n mq t buffer timeout msgs lr k r k' -> calm PMsgQueue k k'.
Proof.
  intros Ht El [(_ & _ & ->)|(_ & [(_ & _ & Hs)|[(_ & _ & _ & ->)|(_ & _ & _ & Hb)]])]; [done| |done|].
  - by apply (mq_stored_calm _ _ _ _ _ _ _ _ El Hs).
  - by apply (calm_error_blocked _ _ _ _ _ _ _ Hb).
Qed.
Lemma mq_urgent_calm n mq buffer msgs lr k r k' :
  s_queues (k_sched k) !! QMqRecv n = Some lr -> mq_urgent_post n mq buffer msgs lr k r k' -> calm PMsgQueue k k'.
Proof.
  intros El [(_ & _ & ->)|[(_ & _ & _ & ->)|(_ & _ & _ & Hs)]]; [done..|]. by apply (mq_stored_calm _ _ _ _ _ _ _ _ El Hs).
Qed.
Lemma mq_recv_calm n mq t size timeout msgs ls k r k' :
  timeout < HALF -> s_queues (k_sched k) !! QMqSend n = Some ls -> mq_recv_post n mq t size timeout msgs ls k r k' -> calm PMsgQueue k k'.
Proof.
  intros Ht El [(d & l & mq' & _ & _ & _ & _ & _ & Hs)|[(_ & _ & _ & ->)|(_ & _ & _ & Hb)]]; [|done|].
  - etransitivity; [apply (calm_mqs (<[n := mq']> (k_mqs k)))|]. by apply (calm_signalled _ (QMqSend n) ls).
  - by apply (calm_error_blocked _ _ _ _ _ _ _ Hb).
Qed.

Lemma mp_alloc_calm n mp t time l k r k' : time < HALF -> mp_alloc_post n mp t time l k r k' -> calm PMemPool k k'.
Proof.
  intros Ht [(_ & i & mp' & _ & _ & ->)|[(_ & _ & _ & ->)|(_ & _ & _ & Hb & _)]]; [apply calm_mps|apply calm_error|].
  by apply (calm_error_blocked _ _ _ _ _ _ _ Hb).
Qed.
Lemma mp_free_calm n mp' l k k' :
  s_queues (k_sched k) !! QMempool n = Some l ->
  match l with [] => k' = mp_put n mp' k | u :: _ => woken (QMempool n) u (with_error u RT_EOK (mp_put n mp' k)) k' end ->
  calm PMemPool k k'.
Proof.
  intros El. destruct l as [|u l]; [intros ->; apply calm_mps|]. intros Hw.
  etransitivity; [apply (calm_mps (<[n := mp']> (k_mps k)))|]. etransitivity; [apply (calm_error _ u RT_EOK)|].
  apply (calm_woken _ (QMempool n) u l); [by rewrite with_error_queues|done].
Qed.

(** A caller that waits for the lock of the heap. *)
Lemma heap_waits_sys k t sem k' : sys_inv k -> heap_waits k t sem k' -> sys_inv k'.
Proof. intros Hs []. apply (sys_calm PSem k); try done. by apply (calm_error_blocked _ _ _ _ _ _ _ hw_blocked). Qed.
Lemma heap_sys k h l : sys_inv k -> heap_state h l -> sys_inv (set_k_heap h k).
Proof. intros Hs Hh. apply (sys_calm PHeap k); [done|apply kinv_set_heap, (sy_kinv _ Hs)|by exists l|apply calm_heap]. Qed.
Lemma sys_heap_ready k t sem l :
  sys_inv k -> k_sems k !! heap_sem = Some sem -> running k t -> heap_state (k_heap k) l -> heap_ready k t sem l.
Proof. intros [[] _]. by split. Qed.

(** ** Threads *)

Lemma list_del_sub (u t : nat) l : u ∈ list_del t l -> u ∈ l.
Proof. by intros [? _]%elem_of_list_del. Qed.

(** A thread that leaves its list for another state of its control block. *)
Lemma quiet_moved c k k' t th th' :
  s_threads (k_sched k) !! t = Some th -> th_event_info th' = th_event_info th -> th_event_set th' = th_event_set th ->
  (forall h l, is_wait h -> s_queues (k_sched k) !! h = Some l -> s_queues (k_sched k') !! h = Some (list_del t l)) ->
  s_threads (k_sched k') = <[t := th']> (s_threads (k_sched k)) -> quiet c k k'.
Proof.
  intros Et Hi Hs Hq Eth. assert (Ht : forall u thu, s_threads (k_sched k) !! u = Some thu ->
    exists thu', s_threads (k_sched k') !! u = Some thu' /\ th_event_info thu' = th_event_info thu /\ th_event_set thu' = th_event_set thu).
  { intros u thu Eu. rewrite Eth, lookup_insert. case_decide as Hd; [|by exists thu]. subst u. rewrite Et in Eu. injection Eu as <-. by exists th'. }
  split.
  - intros h l Hw _ El. exists (list_del t l). split; [by apply Hq|]. intros u. apply list_del_sub.
  - intros u [thu Eu]. destruct (Ht u thu Eu) as (thu' & -> & _). eauto.
  - intros _ n l0 l u thu _ _ _ Eu. by apply Ht.
Qed.
Lemma calm_timers c tms k : timely 0 (k_timers k) tms -> calm c k (set_k_timers tms k).
Proof. split; [apply keeps_ikeep, ikeep_timers|by apply quiet_stores|done]. Qed.
Lemma calm_unready c t g st th k :
  s_threads (k_sched k) !! t = Some th -> calm c k (set_k_sched (unready t g (with_stat st th) (k_sched k)) k).
Proof.
  intros Et. split; [apply keeps_ikeep, ikeep_sched| |done]. apply (quiet_moved c k _ t th (with_stat st th)); try done.
  intros h l _ El. cbn. by rewrite lookup_fmap, El.
Qed.
Lemma calm_resumed c t th0 th l k :
  s_threads (k_sched k) !! t = Some th0 -> th_event_info th = th_event_info th0 -> th_event_set th = th_event_set th0 ->
  calm c k (set_k_sched (resumed t th l (k_sched k)) k).
Proof.
  intros Et Hi Hs. split; [apply keeps_ikeep, ikeep_sched| |done].
  apply (quiet_moved c k _ t th0 (with_stat (if bool_decide (s_current (k_sched k) = Some t) then RT_THREAD_RUNNING else RT_THREAD_READY) th)); try done.
  - intros h l0 Hw El. cbn. by apply resumed_queue.
  - cbn. unfold resumed, inserted. cbn. by case_bool_decide.
Qed.

(** ** The operations keep the invariant of the system *)

(** C8: rt_sem_take by a running thread returns or blocks and keeps the invariants of
    the whole kernel: a positive value is decremented; value 0 with time 0 is refused with
    -RT_ETIMEOUT and no effect; otherwise the caller is suspended in the list of the
    semaphore (at its end, or by priority), its timer is armed exactly for a positive
    time, and another thread runs. *)
Theorem sem_take_correct k n sem t time :
  sys_inv k -> k_sems k !! n = Some sem -> running k t -> time < HALF ->
  exists r k', rt_sem_take n time k = Some (r, k') /\ sys_inv k' /\ sem_take_post n sem t time k r k'.
Proof.
  intros Hs En Hr Ht. destruct (sem_take_ok k n sem t time (sy_kinv _ Hs) (sy_sems _ Hs) En Hr (half_bound _ Ht)) as (r & k' & E & Hk & Hi & Hp).
  exists r, k'. split; [done|]. split; [|done]. apply (sys_calm PSem k); try done. by apply (sem_take_calm _ _ _ _ _ _ _ Ht Hp).
Qed.

(** C6: rt_mutex_take by a running thread keeps the invariants of the whole kernel: a
    free mutex becomes owned by the caller, which saves its priority; an owner takes it
    again by counting; a mutex owned by somebody else is refused with -RT_ETIMEOUT if the
    time is 0, and otherwise the owner is raised to the priority of the caller if that is
    higher (priority inheritance) before the caller is suspended in the waiting list with
    its timer armed and another thread runs. *)
Theorem mutex_take_correct k n mx t time :
  sys_inv k -> k_mutexes k !! n = Some mx -> running k t -> time < HALF -> (mx_owner mx = Some t -> mx_hold mx < 255) ->
  exists r k', rt_mutex_take n time k = Some (r, k') /\ sys_inv k' /\ mutex_take_post n mx t time k r k'.
Proof.
  intros Hs En Hr Ht Hh. destruct (mutex_take_ok k n mx t time (sy_kinv _ Hs) (sy_mutexes _ Hs) En Hr (half_bound _ Ht) Hh) as (r & k' & E & Hk & Hi & Hp).
  exists r, k'. split; [done|]. split; [|done]. apply (sys_calm PMutex k); try done. by apply (mutex_take_calm _ _ _ _ _ _ _ Ht Hp).
Qed.

(** C7: rt_mutex_release by the owner keeps the invariants of the whole kernel: an inner
    release only counts down; the last one restores the priority the owner had when it took
    the mutex and hands the mutex to the first waiting thread, which becomes ready as its
    owner, or frees it. *)
Theorem mutex_release_correct k n mx t l :
  sys_inv k -> k_mutexes k !! n = Some mx -> mx_owner mx = Some t -> running k t -> s_queues (k_sched k) !! QMutex n = Some l ->
  exists k', rt_mutex_release n k = Some (RT_EOK, k') /\ sys_inv k' /\ mutex_release_post n mx t l k k'.
Proof.
  intros Hs En Ho Hr El. destruct (mutex_release_ok k n mx t l (sy_kinv _ Hs) (sy_mutexes _ Hs) En Ho Hr El) as (k' & E & Hk & Hi & Hp).
  exists k'. split; [done|]. split; [|done]. apply (sys_calm PMutex k); try done. by apply (mutex_release_calm _ _ _ _ _ _ El Hp).
Qed.

(** C33: rt_event_send implements its specification [scan_spec] and keeps the invariants of
    the whole kernel: with the new bits or-ed in, the waiting threads are served in list
    order, each one against the bits left by the ones before it; exactly the threads whose
    AND/OR condition holds leave the list and become ready with the bits they received, a
    CLEAR option consumes them, and the event set left is that of the specification.  No
    waiting thread whose condition holds is left behind ([event_inv]). *)
Theorem event_send_correct k n ev l set c w set' :
  sys_inv k -> k_events k !! n = Some ev -> s_queues (k_sched k) !! QEvent n = Some l -> s_current (k_sched k) = Some c -> 0 < set ->
  scan_spec (s_threads (k_sched k)) l (Z.lor (ev_set ev) set) = (w, set') ->
  exists k', rt_event_send n set k = Some (RT_EOK, k') /\ sys_inv k' /\
    k_events k' = <[n := set_ev_set set' ev]> (k_events k) /\
    s_queues (k_sched k') !! QEvent n = Some (filter (fun u => u ∉ w.*1) l) /\
    (forall t es, (t, es) ∈ w -> exists th th', s_threads (k_sched k) !! t = Some th /\
       s_threads (k_sched k') !! t = Some th' /\ active th' /\ th_event_set th' = es /\ th_error th' = th_error th).
Proof.
  intros Hs En El Hc Hset Hw. destruct (event_send_ok k n ev l set c w set' (sy_kinv _ Hs) (sy_events _ Hs) En El Hc Hset Hw)
    as (k' & E & Hk & Hi & He & Hq & Ht & Hsent).
  exists k'. split; [done|]. split; [|done]. apply (sys_calm PEvent k); try done. by apply (event_sent_calm _ _ _ Hsent).
Qed.

(** Rt_event_recv by a running thread keeps the invariants of the whole kernel: if the
    condition holds now the bits are returned and consumed if asked for; with timeout 0 it
    fails with -RT_ETIMEOUT and leaves the event alone; otherwise the thread is suspended
    with its condition stored in its control block and its timer armed. *)
Theorem event_recv_correct k n ev t set opts timeout :
  sys_inv k -> k_events k !! n = Some ev -> running k t -> 0 < set -> timeout < HALF ->
  exists r k', rt_event_recv n set opts timeout k = Some (r, k') /\ sys_inv k' /\ event_recv_post n ev t set opts timeout k r k'.
Proof.
  intros Hs En Hr Hset Ht. destruct (event_recv_ok k n ev t set opts timeout (sy_kinv _ Hs) (sy_events _ Hs) En Hr Hset (half_bound _ Ht)) as (r & k' & E & Hk & Hi & Hp).
  exists r, k'. split; [done|]. split; [|done]. apply (sys_calm PEvent k); try done.
  apply (event_recv_calm n ev t set opts timeout k r); [done| |done]. destruct Hr as [_ (th & Et & _)]. eauto.
Qed.

(** Rt_mb_send_wait by a running thread keeps the invariants of the whole kernel.  A
    mailbox with room stores the mail behind all others and wakes the first waiting
    receiver; a full one is refused at once with -RT_EFULL if the timeout is 0, without any
    effect; otherwise the sender is suspended in the list of senders with its timer armed. *)
Theorem mb_send_correct k n mb t value timeout lr :
  sys_inv k -> k_mbs k !! n = Some mb -> running k t -> timeout < HALF -> s_queues (k_sched k) !! QMbRecv n = Some lr ->
  exists r k', rt_mb_send_wait n value timeout k = Some (r, k') /\ sys_inv k' /\ mb_send_post n mb t value timeout lr k r k'.
Proof.
  intros Hs En Hr Ht El. destruct (mb_send_ok k n mb t value timeout lr (sy_kinv _ Hs) (sy_mbs _ Hs) En Hr (half_bound _ Ht) El) as (r & k' & E & Hk & Hi & Hp).
  exists r, k'. split; [done|]. split; [|done]. apply (sys_calm PMailbox k); try done. by apply (mb_send_calm _ _ _ _ _ _ _ _ _ Ht El Hp).
Qed.

(** Rt_mb_recv by a running thread keeps the invariants of the whole kernel.  A
    non-empty mailbox gives up its oldest mail and wakes the first waiting sender; an empty
    one is refused at once with -RT_ETIMEOUT if the timeout is 0; otherwise the receiver is
    suspended with its timer armed. *)
Theorem mb_recv_correct k n mb t timeout ls :
  sys_inv k -> k_mbs k !! n = Some mb -> running k t -> timeout < HALF -> s_queues (k_sched k) !! QMbSend n = Some ls ->
  exists r k', rt_mb_recv n timeout k = Some (r, k') /\ sys_inv k' /\ mb_recv_post n mb t timeout ls k r k'.
Proof.
  intros Hs En Hr Ht El. destruct (mb_recv_ok k n mb t timeout ls (sy_kinv _ Hs) (sy_mbs _ Hs) En Hr (half_bound _ Ht) El) as (r & k' & E & Hk & Hi & Hp).
  exists r, k'. split; [done|]. split; [|done]. apply (sys_calm PMailbox k); try done. by apply (mb_recv_calm _ _ _ _ _ _ _ _ Ht El Hp).
Qed.

(** C32: rt_mq_send_wait by a running thread keeps the invariants of the whole kernel: a
    message longer than a block is refused with -RT_ERROR and a full queue with -RT_EFULL if
    the timeout is 0, both without effect; with a free block the message is appended to the
    pending ones and the first waiting receiver is woken; otherwise the sender is suspended
    with its timer armed. *)
Theorem mq_send_correct k n mq t buffer timeout msgs lr :
  sys_inv k -> k_mqs k !! n = Some mq -> running k t -> timeout < HALF -> mq_holds mq msgs ->
  s_queues (k_sched k) !! QMqRecv n = Some lr ->
  exists r k', rt_mq_send_wait n buffer timeout k = Some (r, k') /\ sys_inv k' /\ mq_send_post n mq t buffer timeout msgs lr k r k'.
Proof.
  intros Hs En Hr Ht Hh El. destruct (mq_send_ok k n mq t buffer timeout msgs lr (sy_kinv _ Hs) (sy_mqs _ Hs) En Hr (half_bound _ Ht) Hh El) as (r & k' & E & Hk & Hi & Hp).
  exists r, k'. split; [done|]. split; [|done]. apply (sys_calm PMsgQueue k); try done. by apply (mq_send_calm _ _ _ _ _ _ _ _ _ _ Ht El Hp).
Qed.

(** Rt_mq_recv by a running thread keeps the invariants of the whole kernel: the
    oldest pending message is copied out, cut to the size of the buffer and of a block, its
    block is free again and the first waiting sender is woken; an empty queue is refused
    with -RT_ETIMEOUT if the timeout is 0; otherwise the receiver is suspended with its
    timer armed. *)
Theorem mq_recv_correct k n mq t size timeout msgs ls :
  sys_inv k -> k_mqs k !! n = Some mq -> running k t -> timeout < HALF -> mq_holds mq msgs ->
  s_queues (k_sched k) !! QMqSend n = Some ls ->
  exists r k', rt_mq_recv n size timeout k = Some (r, k') /\ sys_inv k' /\ mq_recv_post n mq t size timeout msgs ls k r k'.
Proof.
  intros Hs En Hr Ht Hh El. destruct (mq_recv_ok k n mq t size timeout msgs ls (sy_kinv _ Hs) (sy_mqs _ Hs) En Hr (half_bound _ Ht) Hh El) as (r & k' & E & Hk & Hi & Hp).
  exists r, k'. split; [done|]. split; [|done]. apply (sys_calm PMsgQueue k); try done. by apply (mq_recv_calm _ _ _ _ _ _ _ _ _ _ Ht El Hp).
Qed.

(** C34: rt_mp_alloc by a running thread keeps the invariants of the whole kernel.  If a
    block is free it returns one, which was not allocated, marks it with its pool and leaves
    every other block as it was; an exhausted pool is refused at once with -RT_ETIMEOUT if
    the time is 0; otherwise the caller is suspended in front of all threads that already
    wait, with its timer armed. *)
Theorem mp_alloc_correct k n mp t time l :
  sys_inv k -> k_mps k !! n = Some mp -> running k t -> time < HALF -> s_queues (k_sched k) !! QMempool n = Some l ->
  exists r k', rt_mp_alloc n time k = Some (r, k') /\ sys_inv k' /\ mp_alloc_post n mp t time l k r k'.
Proof.
  intros Hs En Hr Ht El. destruct (mp_alloc_ok k n mp t time l (sy_kinv _ Hs) (sy_mps _ Hs) En Hr (half_bound _ Ht) El) as (r & k' & E & Hk & Hi & Hp).
  exists r, k'. split; [done|]. split; [|done]. apply (sys_calm PMemPool k); try done. by apply (mp_alloc_calm _ _ _ _ _ _ _ _ Ht Hp).
Qed.

(** Rt_mp_free of an allocated block keeps the invariants of the whole kernel, puts
    the block in front of the free list, changes no other block and, if threads wait for a
    block, wakes the first one of the list with error code RT_EOK and runs the scheduler. *)
Theorem mp_free_correct k n mp i c l :
  sys_inv k -> k_mps k !! n = Some mp -> mp_words mp !! i = Some (MpPool n) -> Z.of_nat i < mp_block_total_count mp ->
  s_current (k_sched k) = Some c -> s_queues (k_sched k) !! QMempool n = Some l ->
  exists mp' k', rt_mp_free n i k = Some (tt, k') /\ sys_inv k' /\
    mp_words mp' = <[i := MpNext (mp_block_list mp)]> (mp_words mp) /\ mp_block_list mp' = Some i /\
    mp_block_free_count mp' = mp_block_free_count mp + 1 /\
    match l with
    | [] => k' = mp_put n mp' k
    | u :: _ => woken (QMempool n) u (with_error u RT_EOK (mp_put n mp' k)) k'
    end.
Proof.
  intros Hs En Ei Hlt Hc El. destruct (mp_free_ok k n mp i c l (sy_kinv _ Hs) (sy_mps _ Hs) En Ei Hlt Hc El) as (mp' & k' & E & Hk & Hi & H1 & H2 & H3 & Hp).
  exists mp', k'. split; [done|]. split; [|done]. apply (sys_calm PMemPool k); try done. by apply (mp_free_calm n mp' l).
Qed.

(** C5: rt_malloc of [size] bytes by a running thread returns or waits for the lock and
    keeps the invariants of the whole kernel.  A block it grants is aligned, has room for
    [size] bytes, overlaps no allocated block, and the data of every allocated block is as
    before; RT_NULL changes nothing and means that the size is 0, exceeds the heap, or that
    no free block behind lfree has the room (a last block that fits exactly does not
    count). *)
Theorem malloc_correct k t sem bs size :
  sys_inv k -> running k t -> k_sems k !! heap_sem = Some sem -> heap_rep (k_heap k) bs -> 0 <= size < 2 ^ 32 - 3 ->
  exists r k', rt_malloc size k = Some (r, k') /\ sys_inv k' /\
    match r with
    | inl (Some p) => exists o nx h', p = hp_ptr (k_heap k) + (o + SIZEOF_STRUCT_MEM) /\ k' = set_k_heap h' k /\
        granted (k_heap k) (allocs 0 bs) size o nx h' /\ 0 < size
    | inl None => k' = k /\ (size = 0 \/ hp_mem_size_aligned (k_heap k) < size \/ ~ findable (k_heap k) bs (wanted size))
    | inr t' => t' = t /\ heap_waits k t sem k'
    end.
Proof.
  intros Hs Hr Es Hrep Hsz. assert (Hst : heap_state (k_heap k) (allocs 0 bs)) by (by exists bs).
  pose proof (sys_heap_ready k t sem _ Hs Es Hr Hst) as Hy. destruct (decide (size = 0)) as [->|Hnz].
  { exists (inl None), k. split; [by destruct k|]. split; [done|]. split; [done|]. by left. }
  destruct (malloc_here k t sem bs size Hy Hrep) as (r & h' & Hm & [[_ E]|(k' & E & Hw)]); [lia| |]; rewrite E; do 2 eexists; (split; [done|]).
  - destruct r as [p|].
    + destruct Hm as (o & nx & -> & Hg). pose proof (gr_state _ _ _ _ _ _ Hg) as (l1 & l2 & _ & Hs').
      split; [by apply (heap_sys k h' _ Hs Hs')|]. exists o, nx, h'. split; [done|]. split; [done|]. split; [done|lia].
    + destruct Hm as [-> Hm]. replace (set_k_heap (k_heap k) k) with k by (by destruct k). split; [done|]. split; [done|by right].
  - split; [by apply (heap_waits_sys k t sem)|done].
Qed.

(** C27: rt_free of an allocated block by a running thread returns or waits for the lock
    and keeps the invariants of the whole kernel; when it returns exactly that block has
    left the allocated ones, their data is as before and used_mem is the sum of their
    extents. *)
Theorem free_correct k t sem l1 o nx l2 :
  sys_inv k -> running k t -> k_sems k !! heap_sem = Some sem -> heap_state (k_heap k) (l1 ++ (o, nx) :: l2) ->
  exists r k', rt_free (hp_ptr (k_heap k) + (o + SIZEOF_STRUCT_MEM)) k = Some (r, k') /\ sys_inv k' /\
    match r with
    | inl _ => exists h', k' = set_k_heap h' k /\ heap_state h' (l1 ++ l2) /\ same_area (k_heap k) h' /\
        data_kept (l1 ++ l2) (k_heap k) h' /\ hp_used_mem h' = extent (l1 ++ l2)
    | inr t' => t' = t /\ heap_waits k t sem k'
    end.
Proof.
  intros Hs Hr Es Hst. pose proof (sys_heap_ready k t sem _ Hs Es Hr Hst) as Hy.
  destruct (free_here k t sem l1 o nx l2 Hy) as (h' & Hs' & Ha & Hd & [[_ E]|(k' & E & Hw)]); rewrite E; do 2 eexists; (split; [done|]).
  - split; [by apply (heap_sys k h' _ Hs Hs')|]. exists h'. split; [done|]. split; [done|]. split; [done|]. split; [done|by apply state_used].
  - split; [by apply (heap_waits_sys k t sem)|done].
Qed.


(** Rt_calloc, when count * size does not overflow and the lock is free, keeps the
    invariants of the whole kernel and returns RT_NULL with nothing changed or a block as
    rt_malloc would grant it in which all count * size bytes are zero. *)
Theorem calloc_correct k t sem bs count size :
  sys_inv k -> running k t -> k_sems k !! heap_sem = Some sem -> heap_rep (k_heap k) bs -> 0 < sem_value sem ->
  0 < count * size < 2 ^ 32 - 3 ->
  exists r h', rt_calloc count size k = Some (inl r, set_k_heap h' k) /\ sys_inv (set_k_heap h' k) /\
    match r with
    | Some p => exists o nx, p = hp_ptr (k_heap k) + (o + SIZEOF_STRUCT_MEM) /\ granted (k_heap k) (allocs 0 bs) (count * size) o nx h' /\
        (forall i, 0 <= i < count * size -> heap_byte h' (o + SIZEOF_STRUCT_MEM + i) = Some 0)
    | None => h' = k_heap k
    end.
Proof.
  intros Hs Hr Es Hrep Hv Hsz. assert (Hst : heap_state (k_heap k) (allocs 0 bs)) by (by exists bs).
  pose proof (sys_heap_ready k t sem _ Hs Es Hr Hst) as Hy.
  destruct (calloc_ok k t sem bs count size Hy Hrep Hv Hsz) as (r & h' & E & Hp). exists r, h'. split; [done|]. split; [|done].
  destruct r as [p|]; [|subst h'; by destruct k]. destruct Hp as (o & nx & _ & Hg & _). destruct (gr_state _ _ _ _ _ _ Hg) as (l1 & l2 & _ & Hs').
  by apply (heap_sys k h' _ Hs Hs').
Qed.

(** ** Safe calls *)

(** [c] is defined in [k] and leads to a kernel with the system invariant. *)
Definition safe {A} (c : M kernel A) (k : kernel) : Prop := exists a k', c k = Some (a, k') /\ sys_inv k'.

Lemma safe_calm {A} p (c : M kernel A) k a k' :
  sys_inv k -> c k = Some (a, k') -> kinv None k' -> part_inv p k' -> calm p k k' -> safe c k.
Proof. intros Hs E Hk Hp Hc. exists a, k'. split; [done|]. by apply (sys_calm p k). Qed.
Lemma safe_bind {A B} (c : M kernel A) (f : A -> M kernel B) k a k' :
  c k = Some (a, k') -> safe (f a) k' -> safe (c ≫= f) k.
Proof. intros E (b & k2 & E2 & Hs). exists b, k2. by rewrite (bind_run _ _ _ _ _ E). Qed.
Lemma safe_ret {A} (a : A) k : sys_inv k -> safe (mret a) k.
Proof. intros Hs. by exists a, k. Qed.
Lemma safe_unit {A} (c : M kernel A) k : safe c k -> safe (c ;; mret tt) k.
Proof. intros (a & k' & E & Hs). exists tt, k'. by rewrite (bind_run _ _ _ _ _ E). Qed.
(** A result of a call is looked at by what follows. *)
Lemma safe_then {A B} (c : M kernel A) (f : A -> M kernel B) k :
  safe c k -> (forall a k', sys_inv k' -> safe (f a) k') -> safe (c ≫= f) k.
Proof. intros (a & k' & E & Hs) Hf. by apply (safe_bind c f k a k'), Hf. Qed.
