(* ===== verification/MallocAlign.v ===== *)
(** * Aligned allocation (rt-thread/src/kservice.c)

    rt_malloc_align and rt_free_align on top of rt_malloc and rt_free: the address of the
    block is kept in the word below the aligned address. *)
From S2P Require Import Prelude RtList Kernel Sched Timer Object Thread Ipc Sem Mem Malloc System.
From stdpp Require Import base gmap sets list.
From Stdlib Require Import ZArith Lia.
#[local] Open Scope Z_scope.

(** ** Operations *)

(** The aligned address behind at least one word of the block. *)
Definition align_ptr (ptr align : Z) : Z :=
  if bool_decide (Z.land ptr (u32 (align - 1)) = 0) then u32 (ptr + align)
  else Z.land (u32 (ptr + u32 (align - 1))) (Z.lnot (u32 (align - 1))).
(** What follows rt_malloc. *)
Definition malloc_align_rest (align : Z) (ptr : option Z) : M kernel (option Z) :=
  match ptr with
  | None => mret None
  | Some ptr =>
      on_heap (heap_ptr ← gets hp_ptr; st (align_ptr ptr align - 4 - heap_ptr) ptr) ;;
      mret (Some (align_ptr ptr align))
  end.
Definition align_size (size align : Z) : Z := u32 (RT_ALIGN size + RT_ALIGN align).
Definition rt_malloc_align (size align : Z) : M kernel (option Z + nat) :=
  r ← rt_malloc (align_size size align);
  match r with
  | inl ptr => p ← malloc_align_rest (RT_ALIGN align) ptr; mret (inl p)
  | inr t => mret (inr t)
  end.
Definition rt_malloc_align_resume (t : nat) (size align : Z) : M kernel (option Z) :=
  ptr ← rt_malloc_resume t (align_size size align);
  malloc_align_rest (RT_ALIGN align) ptr.

Definition rt_free_align (ptr : Z) : M kernel (unit + nat) :=
  real_ptr ← on_heap (heap_ptr ← gets hp_ptr; ld (ptr - 4 - heap_ptr));
  rt_free real_ptr.

(** ** Arithmetic *)

Lemma land_clear x e : 0 <= e -> Z.land x (Z.lnot (2 ^ e - 1)) = 2 ^ e * (x / 2 ^ e).
Proof.
  intros He. replace (2 ^ e - 1) with (Z.ones e) by (rewrite Z.ones_equiv; lia).
  rewrite <- Z.ldiff_land, Z.ldiff_ones_r by lia.
  rewrite Z.shiftl_mul_pow2, Z.shiftr_div_pow2 by lia. lia.
Qed.
Lemma align_ptr_ok ptr e :
  2 <= e -> 0 < ptr -> ptr mod 4 = 0 -> ptr + 2 ^ e < 2 ^ 32 ->
  align_ptr ptr (2 ^ e) mod 2 ^ e = 0 /\ align_ptr ptr (2 ^ e) mod 4 = 0 /\ ptr + 4 <= align_ptr ptr (2 ^ e) <= ptr + 2 ^ e.
Proof.
  intros He Hp H4 Hb. assert (Hpe : 4 <= 2 ^ e) by (change 4 with (2 ^ 2); apply Z.pow_le_mono_r; lia).
  assert (Hd4 : (4 | 2 ^ e)) by (exists (2 ^ (e - 2)); change 4 with (2 ^ 2); rewrite <- Z.pow_add_r by lia; f_equal; lia).
  apply Z.mod_divide in H4; [|lia].
  assert (Hgoal : forall q, align_ptr ptr (2 ^ e) = 2 ^ e * q -> ptr < 2 ^ e * q <= ptr + 2 ^ e ->
    align_ptr ptr (2 ^ e) mod 2 ^ e = 0 /\ align_ptr ptr (2 ^ e) mod 4 = 0 /\ ptr + 4 <= align_ptr ptr (2 ^ e) <= ptr + 2 ^ e).
  { intros q -> Hq. split; [rewrite Z.mul_comm; apply Z.mod_mul; lia|]. assert (H4q : (4 | 2 ^ e * q)) by (by apply Z.divide_mul_l).
    split; [by apply Z.mod_divide; [lia|]|]. destruct H4 as [x Hx], H4q as [y Hy]. lia. }
  unfold align_ptr in *. rewrite (wrap_id 32 (2 ^ e - 1)) in * by lia.
  assert (El : Z.land ptr (2 ^ e - 1) = ptr mod 2 ^ e) by (rewrite <- Z.land_ones by lia; by rewrite Z.ones_equiv).
  rewrite El in *. pose proof (Z.div_mod ptr (2 ^ e) ltac:(lia)) as Hdm. pose proof (Z.mod_pos_bound ptr (2 ^ e) ltac:(lia)) as Hr.
  destruct (bool_decide_reflect (ptr mod 2 ^ e = 0)) as [H0|H0].
  - rewrite (wrap_id 32 (ptr + 2 ^ e)) in * by lia. apply (Hgoal (ptr / 2 ^ e + 1)); lia.
  - rewrite (wrap_id 32 (ptr + (2 ^ e - 1))) in * by lia. rewrite land_clear in * by lia. apply (Hgoal _ eq_refl).
    replace ((ptr + (2 ^ e - 1)) / 2 ^ e) with (ptr / 2 ^ e + 1); [lia|].
    apply (Z.div_unique_pos _ _ _ (ptr mod 2 ^ e - 1)); lia.
Qed.

Lemma align_up_le size : 0 <= size < 2 ^ 32 - 3 -> size <= RT_ALIGN size.
Proof. intros Hs. rewrite align_eq by lia. Z.to_euclidean_division_equations; lia. Qed.

(** ** Behaviour *)

(** The aligned block: its address, its room and the word that leads back to the block. *)
Record aligned_block (h : heap) (l : list (Z * Z)) (size a o nx p : Z) (h' : heap) : Prop := {
  ab_granted : granted h l (align_size size a) o nx h';
  ab_aligned : p mod RT_ALIGN a = 0;
  ab_inside : hp_ptr h + (o + SIZEOF_STRUCT_MEM) + 4 <= p /\ p + size <= hp_ptr h + nx;
  ab_back : hp_mem h' !! (p - 4 - hp_ptr h) = Some (hp_ptr h + (o + SIZEOF_STRUCT_MEM));
}.

Lemma align_rest_ok k l size a e o nx h1 :
  RT_ALIGN a = 2 ^ e -> 2 <= e -> 0 <= size < 2 ^ 32 - 3 -> RT_ALIGN size + 2 ^ e < 2 ^ 32 - 3 ->
  granted (k_heap k) l (align_size size a) o nx h1 ->
  let ptr := hp_ptr (k_heap k) + (o + SIZEOF_STRUCT_MEM) in
  exists h' p, malloc_align_rest (RT_ALIGN a) (Some ptr) (set_k_heap h1 k) = Some (Some p, set_k_heap h' k) /\
    aligned_block (k_heap k) l size a o nx p h'.
Proof.
  intros Ea He Hs Hsum Hg ptr. pose proof Hg as [(l1 & l2 & -> & Hst) Hal Hsz Har Hd Hap].
  destruct (state_block h1 (l1 ++ (o, nx) :: l2) o nx Hst) as (Ho4 & Hn4 & Ho0 & Hnx & Hend); [set_solver|].
  pose proof Hst as (bs1 & Hrep & Ebs). pose proof (hr_core _ _ Hrep) as Hc. destruct (hc_base _ _ Hc) as (Hb1 & Hb2 & Hb3).
  destruct Har as (Ep & Ee & Esz & Edom). assert (Hpe : 4 <= 2 ^ e) by (change 4 with (2 ^ 2); apply Z.pow_le_mono_r; lia).
  pose proof (align_up_le size Hs) as Hle. assert (Esize : align_size size a = RT_ALIGN size + 2 ^ e) by (unfold align_size; rewrite Ea, wrap_id; lia).
  rewrite Esize in Hsz.
  assert (Hp4 : ptr mod 4 = 0) by (unfold ptr, SIZEOF_STRUCT_MEM in *; rewrite <- Ep; Z.to_euclidean_division_equations; lia).
  destruct (align_ptr_ok ptr e He) as (Hpa & Hpa4 & Hpr); [unfold ptr, SIZEOF_STRUCT_MEM; lia|done|unfold ptr, SIZEOF_STRUCT_MEM in *; lia|].
  set (p := align_ptr ptr (2 ^ e)) in *. set (off := p - 4 - hp_ptr (k_heap k)).
  assert (Hoff : o + SIZEOF_STRUCT_MEM <= off < nx /\ off mod 4 = 0).
  { unfold off, ptr in *. split; [unfold SIZEOF_STRUCT_MEM in *; lia|]. rewrite <- Ep. Z.to_euclidean_division_equations; lia. }
  assert (Hsome : is_Some (hp_mem h1 !! off)) by (apply (hc_words _ _ Hc); unfold SIZEOF_STRUCT_MEM in *; lia).
  exists (set_hp_mem (<[off := ptr]> (hp_mem h1)) h1), p. split.
  { unfold malloc_align_rest. rewrite Ea. fold p. erewrite bind_run; [|apply on_heap_run; munfold; cbn [k_heap set_k_heap]; rewrite Ep; fold off; by apply st_run].
    by destruct k. }
  assert (Hin : in_data (l1 ++ (o, nx) :: l2) off) by (exists o, nx; split; [set_solver|lia]).
  split; [|rewrite Ea; done|unfold ptr, SIZEOF_STRUCT_MEM in *; lia|cbn; by rewrite lookup_insert_eq].
  split; try done; rewrite ?Esize; try done.
  - exists l1, l2. split; [done|]. apply state_data; [done|by apply dom_insert_lookup_L|]. intros x Hx. rewrite lookup_insert_ne; [done|]. by intros <-.
  - split_and!; try done. cbn. rewrite <- Edom. by apply dom_insert_lookup_L.
  - intros o' nx' x Hin' Hx. cbn. rewrite lookup_insert_ne; [by apply (Hd o' nx')|].
    destruct (Hap o' nx' Hin') as [?|?]; unfold SIZEOF_STRUCT_MEM in *; lia.
Qed.

Lemma malloc_align_here k t sem bs size a e :
  heap_ready k t sem (allocs 0 bs) -> heap_rep (k_heap k) bs -> RT_ALIGN a = 2 ^ e -> 2 <= e -> 0 <= size < 2 ^ 32 - 3 -> RT_ALIGN size + 2 ^ e < 2 ^ 32 - 3 ->
  (exists p o nx h', rt_malloc_align size a k = Some (inl (Some p), set_k_heap h' k) /\ aligned_block (k_heap k) (allocs 0 bs) size a o nx p h') \/
  rt_malloc_align size a k = Some (inl None, k) \/
  exists k', rt_malloc_align size a k = Some (inr t, k') /\ heap_waits k t sem k'.
Proof.
  intros Hy Hrep Ea He Hs Hsum. assert (Hpe : 4 <= 2 ^ e) by (change 4 with (2 ^ 2); apply Z.pow_le_mono_r; lia).
  assert (Hsz : 0 < align_size size a < 2 ^ 32 - 3) by (pose proof (align_up_le size Hs); unfold align_size; rewrite Ea, wrap_id; lia).
  unfold rt_malloc_align. destruct (malloc_here k t sem bs _ Hy Hrep Hsz) as (r & h1 & Hm & [[_ E]|(k' & E & Hw)]); rewrite (bind_run _ _ _ _ _ E); [|right; right; by exists k'].
  destruct r as [ptr|]; [|destruct Hm as [-> _]; right; left; by destruct k]. destruct Hm as (o & nx & -> & Hg).
  destruct (align_rest_ok k (allocs 0 bs) size a e o nx h1 Ea He Hs Hsum Hg) as (h' & p & Er & Hb). rewrite (bind_run _ _ _ _ _ Er).
  left. by exists p, o, nx, h'.
Qed.

(** C29: rt_malloc_align by a thread that finds the heap free returns RT_NULL with nothing
    changed or an address that is a multiple of the alignment (a power of two), behind the
    first word of a newly granted block and with room for [size] bytes; and rt_free_align of
    that address finds the block and gives it back: the allocated blocks, their data and the
    amount of used memory are those of before. *)
Theorem malloc_align_roundtrip k t sem bs size a e :
  sys_inv k -> running k t -> k_sems k !! heap_sem = Some sem -> heap_rep (k_heap k) bs -> 0 < sem_value sem ->
  RT_ALIGN a = 2 ^ e -> 2 <= e -> 0 <= size < 2 ^ 32 - 3 -> RT_ALIGN size + 2 ^ e < 2 ^ 32 - 3 ->
  rt_malloc_align size a k = Some (inl None, k) \/
  exists p o nx h1 h2, rt_malloc_align size a k = Some (inl (Some p), set_k_heap h1 k) /\ sys_inv (set_k_heap h1 k) /\
    p mod RT_ALIGN a = 0 /\ granted (k_heap k) (allocs 0 bs) (align_size size a) o nx h1 /\
    hp_ptr (k_heap k) + (o + SIZEOF_STRUCT_MEM) + 4 <= p /\ p + size <= hp_ptr (k_heap k) + nx /\
    rt_free_align p (set_k_heap h1 k) = Some (inl tt, set_k_heap h2 k) /\ sys_inv (set_k_heap h2 k) /\
    heap_state h2 (allocs 0 bs) /\ data_kept (allocs 0 bs) (k_heap k) h2 /\ hp_used_mem h2 = hp_used_mem (k_heap k).
Proof.
  intros Hsys Hrun Es Hrep Hv Ea He Hs Hsum. assert (Hst : heap_state (k_heap k) (allocs 0 bs)) by (by exists bs).
  pose proof (sys_heap_ready k t sem _ Hsys Es Hrun Hst) as Hy.
  destruct (malloc_align_here k t sem bs size a e Hy Hrep Ea He Hs Hsum) as [(p & o & nx & h1 & E & [Hg Hpa [Hi1 Hi2] Hb])|[E|(k' & _ & Hw)]];
    [right|by left|pose proof (hw_taken _ _ _ _ Hw); lia].
  pose proof Hg as [(l1 & l2 & El & Hs1) _ _ Har Hd _]. destruct Har as (Ep & _).
  destruct (free_here (set_k_heap h1 k) t sem l1 o nx l2) as (h2 & Hs2 & Ha2 & Hd2 & [[_ Ef]|(k2 & _ & Hw)]);
    [by apply (heap_ready_set h1 (allocs 0 bs))| |pose proof (hw_taken _ _ _ _ Hw); lia].
  exists p, o, nx, h1, h2. split; [done|]. split; [by apply (heap_sys k h1 _ Hsys Hs1)|]. split; [done|]. split; [done|]. split; [done|]. split; [done|].
  rewrite El in *. split; [|split; [by apply (heap_sys k h2 _ Hsys Hs2)|split; [done|split; [by apply data_kept_trans with h1|]]]].
  - unfold rt_free_align. erewrite bind_run; [|apply on_heap_run; munfold; cbn [k_heap set_k_heap]; rewrite Ep; by apply ld_run].
    cbn in Ef. rewrite Ep in Ef. transitivity (Some (inl tt : unit + nat, set_k_heap h2 (set_k_heap h1 k))); [rewrite <- Ef|]; by destruct k.
  - by rewrite (state_used _ _ Hs2), (state_used _ _ Hst).
Qed.
