(* ===== verification/Ticks.v ===== *)
(** * The tick interrupt and the whole kernel (rt-thread/src/clock.c, timer.c)

    rt_tick_increase keeps the invariant of the system: the timers that have come due end
    the waits of threads on whatever object they wait for, and call the timeout functions
    of the application, which promise to keep the invariant ([SysTimeout]). *)
From S2P Require Import Prelude RtList Kernel Sched Timer Object Thread Lifecycle Ipc Sem Mutex Event Mailbox MsgQueue MemPool Mem Malloc System.
From stdpp Require Import base gmap sets list.
From Stdlib Require Import ZArith Lia.
#[local] Open Scope Z_scope.

(** The promises of the timeout functions: those of [TimeoutSpec] to the timer code, and
    that the invariants of all components are kept. *)
Class SysTimeout (ut : nat -> M kernel unit) : Prop := {
  st_timeout : forall base, TimeoutSpec base ut;
  st_core : forall m k k', sys_core k -> ut m k = Some (tt, k') -> sys_core k';
}.

Lemma core_timers k tms : sys_core k -> kinv None (set_k_timers tms k) -> sys_core (set_k_timers tms k).
Proof. intros Hs Hk. apply (sys_part PThread k); [done..|apply keeps_ikeep, ikeep_timers|by apply quiet_stores]. Qed.
Lemma core_sliced k k' : sys_core k -> kinv None k' -> sliced k k' -> sys_core k'.
Proof.
  intros Hs Hk [Hst Hq Ht]. apply (sys_part PThread k); [done..| |].
  - rewrite Hst. apply keeps_ikeep, ikeep_sched.
  - apply quiet_same; [|exact Ht]. intros h Hw _. apply Hq. intros p. by apply is_wait_ready.
Qed.

(** rt_thread_timeout for a thread whose timer was just taken off its list. *)
Lemma core_timeout k t th c k' :
  sys_core k -> s_threads (k_sched k) !! t = Some th -> stat_of th = RT_THREAD_SUSPEND ->
  q_free (t_lists (k_timers k)) (ThreadTimer t) -> s_current (k_sched k) = Some c ->
  rt_thread_timeout t k = Some (tt, k') -> sys_core k'.
Proof.
  intros Hs Et Hst Hf Hc E. destruct (timeout_ok k t th c (sy_kinv _ Hs) Et Hst Hf Hc) as (l & s' & _ & _ & E' & Hk' & (_ & Hfr & _)).
  rewrite E in E'. injection E' as ->. assert (Hcalm : calm PThread k (set_k_sched s' k)).
  { etransitivity; [by apply (calm_resumed _ t th (set_th_error (- RT_ETIMEOUT) th) l k Et)|]. by apply (calm_frame _ (set_k_sched _ k) s' Hfr). }
  destruct Hcalm. by apply (sys_part PThread k).
Qed.

(** The callback of an expired timer. *)
Lemma core_call base ut k n l tm k2 :
  SysTimeout ut -> tick_inv base k -> sys_core k -> t_lists (k_timers k) !! TLHard = Some (n :: l) ->
  t_timers (k_timers k) !! n = Some tm ->
  call_timeout ut (tm_func tm) (set_k_timers (tremoved n (k_timers k)) k) = Some (tt, k2) -> sys_core k2.
Proof.
  intros Hut Hk Hs El En E. pose proof (sy_kinv _ Hs) as Hki. pose proof (core_timers k _ Hs (kinv_removed k n Hki)) as Hs1.
  destruct n as [t|m].
  - destruct (ki_wait _ _ Hki _ _ t El ltac:(apply elem_of_cons; by left)) as (_ & th & Et & Hst).
    destruct (ki_ttimer _ _ Hki t th Et) as (tm0 & E0 & Hfn & _). rewrite En in E0. injection E0 as <-. rewrite Hfn in E.
    destruct (tk_cur _ _ Hk) as [c Hc]. by apply (core_timeout _ t th c k2 Hs1 Et Hst (tremoved_free _ _) Hc).
  - destruct (ki_user _ _ Hki m tm En) as [u Hu]. rewrite Hu in E. by apply (st_core u _ k2 Hs1).
Qed.

Lemma check_loop_core base ut fuel k k' b :
  SysTimeout ut -> tick_inv base k -> sys_core k -> timer_check_loop ut fuel (t_tick (k_timers k)) k = Some (b, k') -> sys_core k'.
Proof.
  intros Hut. revert k. induction fuel as [|fuel IH]; intros k Hk Hs; [by intros [= _ <-]|].
  pose proof (ki_timers _ _ (tk_kinv _ _ Hk)) as Hti.
  destruct (ti_heads _ Hti TLHard) as [l El]. cbn [timer_check_loop]. munfold.
  rewrite (on_timers_run _ k l (k_timers k)), set_timers_id.
  2: { unfold tq, zoom, q_list. rewrite El. by destruct (k_timers k). }
  destruct l as [|n l]; [by intros [= _ <-]|].
  destruct (ti_nodes _ Hti _ _ n El ltac:(apply elem_of_cons; by left)) as (tm & En & _ & _).
  rewrite (on_timers_run _ _ _ _ (rd_timer_run _ _ _ En)), set_timers_id.
  destruct (timer_due (t_tick (k_timers k)) tm); [|by intros [= _ <-]].
  rewrite (on_timers_run _ _ _ _ (tremove_run n _)).
  destruct (fire_ok base ut k n l tm (st_timeout base) Hk El En) as (k2 & tm2 & E2 & Hk2 & Ht2 & _ & En2 & Hf2 & Hb2 & Hp2 & _).
  pose proof (core_call base ut k n l tm k2 Hut Hk Hs El En E2) as Hs2.
  rewrite E2. unfold rt_tick_get at 1. munfold. rewrite (on_timers_run _ k2 _ _ eq_refl), set_timers_id.
  destruct (rearm_ok base k2 n tm2 Hk2 En2 Hf2 Hb2 Hp2) as (k3 & E3 & Hk3 & Ht3 & _ & Es3 & _). rewrite E3, <- Ht3.
  apply (IH k3 Hk3). rewrite Es3. apply core_timers; [done|]. rewrite <- Es3. apply (tk_kinv _ _ Hk3).
Qed.

Lemma at_rest_sys k c : sys_inv k -> s_current (k_sched k) = Some c -> exists softbase, at_rest softbase k.
Proof.
  intros [Hs (sb & Ho & Hp)] Hc. exists sb. split; [apply Hs|by eexists|done|done|]. cbn. rewrite Z.sub_diag. done.
Qed.
Lemma tick_sys ut k c fuel :
  SysTimeout ut -> sys_inv k -> s_current (k_sched k) = Some c -> (ndue (k_timers (ticked k)) < fuel)%nat ->
  exists k', rt_tick_increase ut fuel k = Some (true, k') /\ sys_inv k' /\
    t_tick (k_timers k') = u32 (t_tick (k_timers k) + 1) /\
    (forall n, n ∈ hard_list (k_timers k') -> ~ due_now (k_timers k') n) /\
    (forall t, expiring (ticked k) t \/ awake k t -> awake k' t).
Proof.
  intros Hut Hs Hc Hfuel. destruct (at_rest_sys k c Hs Hc) as [sb Hk].
  destruct (tick_increase_ok sb ut k fuel st_timeout Hk Hfuel) as (k' & E & Hk' & Ht & Hnd & Haw).
  exists k'. split; [done|]. split; [|done]. split; [|exists sb; split; [apply (tk_sorted _ _ Hk')|apply (tk_period _ _ Hk')]].
  pose proof (ticked_inv sb k Hk) as Hk1. pose proof (core_timers k _ Hs (tk_kinv _ _ Hk1)) as Hs1.
  destruct (tick_slice_ok _ _ c Hk1 Hc) as (k2 & E2 & Hk2 & Et2 & _ & Hsl). pose proof (core_sliced _ k2 Hs1 (tk_kinv _ _ Hk2) Hsl) as Hs2.
  apply (check_loop_core _ ut fuel k2 k' true Hut Hk2 Hs2). revert E.
  change (rt_tick_increase ut fuel k) with ((t ← self; tick_slice t ;; rt_timer_check ut fuel) (ticked k)).
  munfold. rewrite (self_run (ticked k) c Hc), E2. unfold rt_timer_check, rt_tick_get. munfold.
  by rewrite (on_timers_run _ k2 _ _ eq_refl), set_timers_id.
Qed.

(** C3: the tick interrupt rt_tick_increase terminates (a fuel of one more than the number
    of timers that come due suffices) and keeps the invariants of the whole kernel.  It
    advances the tick by one with wrap-around, wakes every thread whose timeout has come,
    whatever it waits for, and leaves no expired timer in the list.  The timeout functions of
    application timers are arbitrary ones that keep the promises of [SysTimeout]. *)
Theorem tick_interrupt_correct ut k c fuel :
  SysTimeout ut -> sys_inv k -> s_current (k_sched k) = Some c -> (ndue (k_timers (ticked k)) < fuel)%nat ->
  exists k', rt_tick_increase ut fuel k = Some (true, k') /\ sys_inv k' /\
    t_tick (k_timers k') = u32 (t_tick (k_timers k) + 1) /\
    (forall n, n ∈ hard_list (k_timers k') -> ~ due_now (k_timers k') n) /\
    (forall t, expiring (ticked k) t \/ awake k t -> awake k' t).
Proof. apply tick_sys. Qed.
