(* ===== verification/Creation.v ===== *)
(** * Creating and removing kernel objects (rt-thread/src/ipc.c, mempool.c, object.c)

    Initialising, detaching, resetting, creating and deleting IPC objects and memory pools,
    seen from the whole kernel: each keeps the system invariant.  A new object has to have
    a control block that is in no container, and waiting lists without threads. *)
From S2P Require Import Prelude RtList KString Kernel Sched Timer Object Thread Lifecycle Idle Ipc Sem Mutex Event Mailbox MsgQueue MemPool Mem Malloc System.
From stdpp Require Import base gmap sets list.
From Stdlib Require Import ZArith Lia.
#[local] Open Scope Z_scope.

(** ** Containers, waiting lists and stores *)

Lemma calm_objs c objs' k : oinv objs' -> calm c k (set_k_objs objs' k).
Proof. intros Ho. split; [by split|by apply quiet_stores|done]. Qed.

(** The waiting lists and wait conditions, and the stores, are those of before. *)
Record untouched (k k' : kernel) : Prop := {
  un_keep : okeep k k';
  un_queues : forall h, is_wait h -> s_queues (k_sched k') !! h = s_queues (k_sched k) !! h;
  un_threads : forall t, option_Forall2 th_sched (s_threads (k_sched k) !! t) (s_threads (k_sched k') !! t);
  un_calm : forall c, calm c k k';
}.
Lemma untouched_sys k k' : sys_inv k -> kinv None k' -> untouched k k' -> sys_inv k'.
Proof. intros Hs Hk Hu. apply (sys_calm PThread k); try done. apply (un_calm _ _ Hu). Qed.
Lemma untouched_objs objs' s' k : sched_frame (k_sched k) s' -> oinv objs' -> untouched k (set_k_objs objs' (set_k_sched s' k)).
Proof.
  intros Hf Ho. split; [by split|by intros h Hw; apply wait_frame|apply (sf_threads _ _ Hf)|].
  intros c. etransitivity; [by apply calm_frame|by apply calm_objs].
Qed.

Lemma object_init_sys o type name k :
  sys_inv k -> can_lock k -> type ∈ rt_object_container -> q_free (o_lists (k_objs k)) o ->
  exists k', rt_object_init o type name k = Some (tt, k') /\ kinv None k' /\ untouched k k'.
Proof.
  intros Hs Hl Hc Hf. destruct (object_init_ok o type name k (ki_sched _ _ (sy_kinv _ Hs)) Hl (sy_objs _ Hs) Hc Hf)
    as (l & s' & _ & E & Ho & Hs' & Hfr & _). eexists. split; [exact E|].
  split; [apply kinv_set_objs, kinv_frame; [apply Hs|done|done]|by apply untouched_objs].
Qed.
Lemma object_allocate_sys o type name k :
  sys_inv k -> type ∈ rt_object_container -> q_free (o_lists (k_objs k)) o ->
  exists k', rt_object_allocate type name (Some o) k = Some (Some o, k') /\ kinv None k' /\ untouched k k'.
Proof.
  intros Hs Hc Hf. pose proof (sy_objs _ Hs) as Ho. destruct (proj2 (oi_heads _ Ho type) Hc) as [l El].
  destruct (oinv_register o type l (RtObject type (rt_strncpy name RT_NAME_MAX)) _ Ho El Hf) as [Er Hr]; [by apply class_of_static|].
  eexists. split; [|split; [by apply (kinv_set_objs (registered o type l (RtObject type (rt_strncpy name RT_NAME_MAX)) (k_objs k)) k), Hs|]].
  - unfold rt_object_allocate. rewrite get_information_spec, decide_True by done.
    match goal with |- _ = ?r => transitivity (((on_objs (put_obj o (RtObject type (rt_strncpy name RT_NAME_MAX))) ;; on_objs (oq (q_insert_after type o))) ;; mret (Some o)) k) end.
    { munfold. destruct (on_objs (put_obj _ _) k) as [[[] k1]|]; [|done]. by destruct (on_objs _ k1) as [[[] k2]|]. }
    erewrite bind_run; [|rewrite on_objs_bind; apply on_objs_run, Er]. done.
  - pose proof (untouched_objs _ (k_sched k) k ltac:(done) Hr) as Hu. by replace (set_k_sched (k_sched k) k) with k in Hu by (by destruct k).
Qed.

(** A waiting list that does not exist or is empty. *)
Definition no_waiters (k : kernel) (h : qhead) : Prop := s_queues (k_sched k) !! h = None \/ s_queues (k_sched k) !! h = Some [].
Definition with_list (h : qhead) (k : kernel) : kernel :=
  set_k_sched (set_s_queues (<[h := []]> (s_queues (k_sched k))) (k_sched k)) k.

Lemma list_init_run h k : no_waiters k h -> kq (q_init h) k = Some (tt, with_list h k).
Proof. intros [E|E]; unfold kq, on_sched, sq, zoom, q_init; by rewrite E. Qed.
Lemma ipc_init_run h k : no_waiters k h -> rt_ipc_object_init h k = Some (RT_EOK, with_list h k).
Proof. intros Hn. unfold rt_ipc_object_init. by rewrite (bind_run _ _ _ _ _ (list_init_run h k Hn)). Qed.
Lemma with_list_lookup h h' k : s_queues (k_sched (with_list h k)) !! h' = if decide (h = h') then Some [] else s_queues (k_sched k) !! h'.
Proof. apply lookup_insert. Qed.
Lemma with_list_mono h h' l k : no_waiters k h -> s_queues (k_sched k) !! h' = Some l -> s_queues (k_sched (with_list h k)) !! h' = Some l.
Proof. intros Hn E. rewrite with_list_lookup. case_decide; [subst|done]. destruct Hn as [H|H]; congruence. Qed.
Lemma with_list_nodes h h' l k t : s_queues (k_sched (with_list h k)) !! h' = Some l -> t ∈ l -> s_queues (k_sched k) !! h' = Some l.
Proof. rewrite with_list_lookup. case_decide; [|done]. intros [= <-] Ht. by apply not_elem_of_nil in Ht. Qed.

Lemma kinv_with_list h k : kinv None k -> is_wait h -> no_waiters k h -> kinv None (with_list h k).
Proof.
  intros Hk Hw Hn. destruct Hk as [Hs Ht Htt Hwt Hu]. split; try done. pose proof Hs as [Hwf Hh Hd Hg Hb Hp Hr Hrun Hnd Hc].
  assert (Hready : forall p, s_queues (k_sched (with_list h k)) !! QReady p = s_queues (k_sched k) !! QReady p)
    by (intros p; rewrite with_list_lookup, decide_False; [done|by intros ->]).
  split; try done.
  - split.
    + intros h' l. rewrite with_list_lookup. case_decide; [intros [= <-]; constructor|apply (proj1 Hwf)].
    + intros h1 h2 l1 l2 n E1 E2 N1 N2. by apply (proj2 Hwf h1 h2 l1 l2 n); try done; eapply with_list_nodes.
  - intros p. rewrite Hready. apply Hh.
  - rewrite with_list_lookup. case_decide; [by eexists|done].
  - intros p l. rewrite Hready. apply Hb.
  - intros t th Hx Et Hst. rewrite Hready. by apply Hr.
  - intros h' l t E Hin. apply (Hnd h' l t); [|done]. by eapply with_list_nodes.
Qed.
Lemma calm_with_list c h k : no_waiters k h -> calm c k (with_list h k).
Proof.
  intros Hn. split; [by apply keeps_ikeep, ikeep_sched| |done]. split.
  - intros h' l _ _ E. exists l. split; [by apply with_list_mono|done].
  - done.
  - intros _ n l0 l u th _ _ _ Et. by exists th.
Qed.

Lemma no_waiters_untouched h k k' : untouched k k' -> is_wait h -> no_waiters k h -> no_waiters k' h.
Proof. intros Hu Hw. unfold no_waiters. by rewrite (un_queues _ _ Hu). Qed.
Lemma no_waiters_list h h' k : no_waiters k h -> no_waiters (with_list h' k) h.
Proof. intros Hn. unfold no_waiters. rewrite with_list_lookup. case_decide; [by right|done]. Qed.
Lemma with_list_some h h' k : is_Some (s_queues (k_sched k) !! h') -> is_Some (s_queues (k_sched (with_list h k)) !! h').
Proof. intros Hs. rewrite with_list_lookup. case_decide; [by eexists|done]. Qed.
Lemma with_list_new h k : is_Some (s_queues (k_sched (with_list h k)) !! h).
Proof. rewrite with_list_lookup, decide_True by done. by eexists. Qed.

(** ** New objects

    [k1] is the kernel after the control block was entered in its container. *)

Section New.
Context (k k1 : kernel) (Hs : sys_inv k) (Hk1 : kinv None k1) (Hu : untouched k k1).

Lemma sem_new n sem :
  no_waiters k (QSem n) -> 0 <= sem_value sem < 2 ^ 16 -> ipc_flag_ok (sem_flag sem) ->
  sys_inv (set_k_sems (<[n := sem]> (k_sems k1)) (with_list (QSem n) k1)).
Proof using Hs Hk1 Hu.
  intros Hn Hv Hf. pose proof (no_waiters_untouched (QSem n) k k1 Hu I Hn) as Hn1. apply (sys_calm PSem k); [done| | |].
  - apply kinv_set_sems, kinv_with_list; done.
  - apply (sem_inv_upd k _ n sem []); try done; [apply (sy_sems _ Hs)| | | |by right].
    + cbn. by rewrite (ok_sems _ _ (un_keep _ _ Hu)).
    + intros m Hm. cbn. rewrite lookup_insert_ne by congruence. by apply (un_queues _ _ Hu).
    + cbn. apply lookup_insert_eq.
  - etransitivity; [apply (un_calm _ _ Hu)|]. etransitivity; [by apply (calm_with_list _ (QSem n))|]. apply (calm_sems n sem (with_list (QSem n) k1)).
Qed.
Lemma mutex_new n flag :
  no_waiters k (QMutex n) -> ipc_flag_ok flag ->
  sys_inv (set_k_mutexes (<[n := free_mutex flag]> (k_mutexes k1)) (with_list (QMutex n) k1)).
Proof using Hs Hk1 Hu.
  intros Hn Hf. pose proof (no_waiters_untouched (QMutex n) k k1 Hu I Hn) as Hn1. apply (sys_calm PMutex k); [done| | |].
  - apply kinv_set_mutexes, kinv_with_list; done.
  - apply (mutex_inv_upd k _ n (free_mutex flag)); [apply (sy_mutexes _ Hs)| | | |].
    + cbn. by rewrite (ok_mutexes _ _ (un_keep _ _ Hu)).
    + intros m Hm. cbn. rewrite lookup_insert_ne by congruence. by apply (un_queues _ _ Hu).
    + intros u [th Et]. pose proof (un_threads _ _ Hu u) as Ho. rewrite Et in Ho. cbn. inversion Ho; subst. eauto.
    + split; [done|]. exists []. split; [apply lookup_insert_eq|done].
  - etransitivity; [apply (un_calm _ _ Hu)|]. etransitivity; [by apply (calm_with_list _ (QMutex n))|]. apply (calm_mutexes _ (with_list (QMutex n) k1)).
Qed.
Lemma event_new n flag :
  no_waiters k (QEvent n) -> ipc_flag_ok flag ->
  sys_inv (set_k_events (<[n := RtEvent flag 0]> (k_events k1)) (with_list (QEvent n) k1)).
Proof using Hs Hk1 Hu.
  intros Hn Hf. pose proof (no_waiters_untouched (QEvent n) k k1 Hu I Hn) as Hn1. apply (sys_calm PEvent k); [done| | |].
  - apply kinv_set_events, kinv_with_list; done.
  - apply (event_inv_upd k _ n (RtEvent flag 0)); [apply (sy_events _ Hs)| | | |].
    + cbn. by rewrite (ok_events _ _ (un_keep _ _ Hu)).
    + intros m Hm. cbn. rewrite lookup_insert_ne by congruence. by apply (un_queues _ _ Hu).
    + intros m l t _ _ _. apply same_cond_sched, (un_threads _ _ Hu).
    + split; [done|]. split; [done|]. exists []. split; [apply lookup_insert_eq|]. intros t th Ht. by apply not_elem_of_nil in Ht.
  - etransitivity; [apply (un_calm _ _ Hu)|]. etransitivity; [by apply (calm_with_list _ (QEvent n))|]. apply (calm_events _ (with_list (QEvent n) k1)).
Qed.

(** The lists of the other objects of a part are still there. *)
Lemma lists_kept h : is_wait h -> is_Some (s_queues (k_sched k) !! h) -> is_Some (s_queues (k_sched k1) !! h).
Proof using Hu. intros Hw. by rewrite (un_queues _ _ Hu h Hw). Qed.

Lemma mb_new n mb :
  no_waiters k (QMbRecv n) -> no_waiters k (QMbSend n) -> mb_wf mb -> ipc_flag_ok (mb_flag mb) ->
  sys_inv (with_list (QMbSend n) (set_k_mbs (<[n := mb]> (k_mbs k1)) (with_list (QMbRecv n) k1))).
Proof using Hs Hk1 Hu.
  intros Hr Hsd Hwf Hf. pose proof (no_waiters_untouched (QMbRecv n) k k1 Hu I Hr) as Hr1.
  pose proof (no_waiters_list _ (QMbRecv n) _ (no_waiters_untouched (QMbSend n) k k1 Hu I Hsd)) as Hs1.
  apply (sys_calm PMailbox k); [done| | |].
  - apply kinv_with_list; [|done|done]. by apply kinv_set_mbs, kinv_with_list.
  - intros m mbm. cbn. rewrite lookup_insert. case_decide as Hd.
    + intros [= <-]. subst m. split; [done|]. split; [done|]. split; [apply with_list_some, (with_list_new (QMbRecv n) k1)|apply with_list_new].
    + rewrite (ok_mbs _ _ (un_keep _ _ Hu)). intros E. destruct (sy_mbs _ Hs m mbm E) as (? & ? & ? & ?). split; [done|]. split; [done|].
      split; by apply with_list_some, (with_list_some (QMbRecv n) _ k1), lists_kept.
  - etransitivity; [apply (un_calm _ _ Hu)|]. etransitivity; [by apply (calm_with_list _ (QMbRecv n))|].
    etransitivity; [apply (calm_mbs (<[n := mb]> (k_mbs k1)) (with_list (QMbRecv n) k1))|by apply calm_with_list].
Qed.
Lemma mq_new n mq :
  no_waiters k (QMqRecv n) -> no_waiters k (QMqSend n) -> (exists msgs, mq_holds mq msgs) -> ipc_flag_ok (mq_flag mq) ->
  sys_inv (with_list (QMqSend n) (mq_put n mq (with_list (QMqRecv n) k1))).
Proof using Hs Hk1 Hu.
  intros Hr Hsd Hwf Hf. pose proof (no_waiters_untouched (QMqRecv n) k k1 Hu I Hr) as Hr1.
  pose proof (no_waiters_list _ (QMqRecv n) _ (no_waiters_untouched (QMqSend n) k k1 Hu I Hsd)) as Hs1.
  apply (sys_calm PMsgQueue k); [done| | |].
  - apply kinv_with_list; [|done|done]. by apply kinv_mq_put, kinv_with_list.
  - intros m mqm. cbn. rewrite lookup_insert. case_decide as Hd.
    + intros [= <-]. subst m. split; [done|]. split; [done|]. split; [apply with_list_some, (with_list_new (QMqRecv n) k1)|apply with_list_new].
    + rewrite (ok_mqs _ _ (un_keep _ _ Hu)). intros E. destruct (sy_mqs _ Hs m mqm E) as (? & ? & ? & ?). split; [done|]. split; [done|].
      split; by apply with_list_some, (with_list_some (QMqRecv n) _ k1), lists_kept.
  - etransitivity; [apply (un_calm _ _ Hu)|]. etransitivity; [by apply (calm_with_list _ (QMqRecv n))|].
    etransitivity; [apply (calm_mqs (<[n := mq]> (k_mqs k1)) (with_list (QMqRecv n) k1))|by apply calm_with_list].
Qed.
Lemma mp_new n mp fr :
  no_waiters k (QMempool n) -> mp_rep n mp fr -> sys_inv (mp_put n mp (with_list (QMempool n) k1)).
Proof using Hs Hk1 Hu.
  intros Hn Hr. pose proof (no_waiters_untouched (QMempool n) k k1 Hu I Hn) as Hn1. apply (sys_calm PMemPool k); [done| | |].
  - assert (Hk : kinv None (with_list (QMempool n) k1)) by (by apply kinv_with_list). destruct Hk. by split.
  - intros m mpm. cbn. rewrite lookup_insert. case_decide as Hd.
    + intros [= <-]. subst m. split; [by exists fr|apply (with_list_new (QMempool n) k1)].
    + rewrite (ok_mps _ _ (un_keep _ _ Hu)). intros E. destruct (sy_mps _ Hs m mpm E) as (? & ?). split; [done|].
      by apply (with_list_some (QMempool n) _ k1), lists_kept.
  - etransitivity; [apply (un_calm _ _ Hu)|]. etransitivity; [by apply (calm_with_list _ (QMempool n))|]. apply (calm_mps _ (with_list (QMempool n) k1)).
Qed.
End New.

(** ** Initialisation and creation *)

Section Make.
Context (k : kernel) (Hs : sys_inv k).

(** What all initialisations start with. *)
Lemma init_then {A} o type name (rest : M kernel A) :
  can_lock k -> type ∈ rt_object_container -> q_free (o_lists (k_objs k)) o ->
  (forall k1, kinv None k1 -> untouched k k1 -> safe rest k1) -> safe (rt_object_init o type name ;; rest) k.
Proof using Hs.
  intros Hl Hc Hf Hrest. destruct (object_init_sys o type name k Hs Hl Hc Hf) as (k1 & E & Hk1 & Hu).
  apply (safe_bind _ _ k tt k1 E). by apply Hrest.
Qed.
Lemma allocate_then {A} o type name (rest : M kernel A) :
  type ∈ rt_object_container -> q_free (o_lists (k_objs k)) o ->
  (forall k1, kinv None k1 -> untouched k k1 -> safe rest k1) -> safe (rt_object_allocate type name (Some o) ;; rest) k.
Proof using Hs.
  intros Hc Hf Hrest. destruct (object_allocate_sys o type name k Hs Hc Hf) as (k1 & E & Hk1 & Hu).
  apply (safe_bind _ _ k (Some o) k1 E). by apply Hrest.
Qed.
Lemma list_then {A} h (rest : M kernel A) k1 :
  untouched k k1 -> is_wait h -> no_waiters k h -> safe rest (with_list h k1) -> safe (rt_ipc_object_init h ;; rest) k1.
Proof. intros Hu Hw Hn Hr. apply (safe_bind _ _ k1 RT_EOK (with_list h k1)); [|done]. apply ipc_init_run. by apply (no_waiters_untouched h k k1). Qed.

(** The rest of the work, shared by rt_X_init and rt_X_create. *)
Section Rest.
Context (k1 : kernel) (Hk1 : kinv None k1) (Hu : untouched k k1).

Lemma sem_made {A} (a : A) n value flag :
  no_waiters k (QSem n) -> ipc_flag_ok flag -> safe (rt_ipc_object_init (QSem n) ;; put_sem n (RtSemaphore flag (u16 value)) ;; mret a) k1.
Proof using Hs Hk1 Hu.
  intros Hn Hfl. apply list_then; [done..|].
  apply (safe_bind _ _ _ tt (set_k_sems (<[n := RtSemaphore flag (u16 value)]> (k_sems k1)) (with_list (QSem n) k1))); [done|].
  apply safe_ret, (sem_new k k1); try done. apply (wrap_range 16). lia.
Qed.
Lemma mutex_made {A} (a : A) n flag :
  no_waiters k (QMutex n) -> ipc_flag_ok flag -> safe (rt_ipc_object_init (QMutex n) ;; put_mutex n (free_mutex flag) ;; mret a) k1.
Proof using Hs Hk1 Hu.
  intros Hn Hfl. apply list_then; [done..|].
  apply (safe_bind _ _ _ tt (set_k_mutexes (<[n := free_mutex flag]> (k_mutexes k1)) (with_list (QMutex n) k1))); [done|].
  by apply safe_ret, (mutex_new k k1).
Qed.
Lemma event_made {A} (a : A) n flag :
  no_waiters k (QEvent n) -> ipc_flag_ok flag -> safe (rt_ipc_object_init (QEvent n) ;; put_event n (RtEvent flag 0) ;; mret a) k1.
Proof using Hs Hk1 Hu.
  intros Hn Hfl. apply list_then; [done..|].
  apply (safe_bind _ _ _ tt (set_k_events (<[n := RtEvent flag 0]> (k_events k1)) (with_list (QEvent n) k1))); [done|].
  by apply safe_ret, (event_new k k1).
Qed.
Lemma mb_made {A} (a : A) n msgpool size flag :
  no_waiters k (QMbRecv n) -> no_waiters k (QMbSend n) -> ipc_flag_ok flag -> 0 < size < 2 ^ 16 -> Z.of_nat (length msgpool) = size ->
  safe (rt_ipc_object_init (QMbRecv n) ;; put_mb n (RtMailbox flag msgpool (u16 size) 0 0 0) ;; kq (q_init (QMbSend n)) ;; mret a) k1.
Proof using Hs Hk1 Hu.
  intros Hr Hsd Hfl Hsz Hlen. apply list_then; [done..|]. set (mb := RtMailbox flag msgpool (u16 size) 0 0 0).
  apply (safe_bind _ _ _ tt (set_k_mbs (<[n := mb]> (k_mbs k1)) (with_list (QMbRecv n) k1))); [done|].
  eapply safe_bind; [apply list_init_run; apply (no_waiters_list (QMbSend n) (QMbRecv n) k1); by apply (no_waiters_untouched _ k)|].
  apply safe_ret, (mb_new k k1); try done. unfold mb_wf. cbn. rewrite (wrap_id 16) by lia. rewrite Z.mod_0_l by lia. lia.
Qed.
Lemma mq_made {A} (a : A) n msgpool msg_size max_msgs flag :
  no_waiters k (QMqRecv n) -> no_waiters k (QMqSend n) -> ipc_flag_ok flag ->
  0 <= msg_size -> 0 <= max_msgs < 2 ^ 16 -> max_msgs * (msg_size + MSG_HDR) <= Z.of_nat (length msgpool) ->
  safe (rt_ipc_object_init (QMqRecv n) ;; mq_setup n msgpool msg_size max_msgs flag ;; mret a) k1.
Proof using Hs Hk1 Hu.
  intros Hr Hsd Hfl Hm1 Hm2 Hlen. apply list_then; [done..|]. apply safe_then; [|intros ? k' Hk'; by apply safe_ret].
  destruct (mq_pool_ok msgpool msg_size max_msgs flag Hm1 Hm2 Hlen) as (mq & E & Hrep & Hst).
  set (k2 := with_list (QMqRecv n) k1). set (mq0 := mq_pool msgpool msg_size max_msgs flag) in *.
  apply (safe_bind _ _ _ tt (mq_put n mq0 k2)); [done|].
  apply (safe_bind _ _ _ tt (mq_put n mq k2)); [rewrite <- (mq_put_put n mq mq0 k2); apply (on_mq_run n _ mq0); [apply mq_put_lookup|exact E]|].
  eexists tt, _. split; [apply list_init_run; apply (no_waiters_list (QMqSend n) (QMqRecv n) k1); by apply (no_waiters_untouched _ k)|].
  apply (mq_new k k1); try done; [exists [], [], (rev (seq 0 (Z.to_nat max_msgs))), []; split; [exact Hrep|constructor]|]. by rewrite (proj2 (proj2 Hst)).
Qed.
Lemma mp_made {A} (a : A) n bytes size block_size total :
  no_waiters k (QMempool n) -> 0 < total < 2 ^ 32 -> 0 < block_size + MP_HDR -> total * (block_size + MP_HDR) <= bytes ->
  safe (mp_setup n bytes size block_size total ;; mret a) k1.
Proof using Hs Hk1 Hu.
  intros Hn Ht Hb Hsz. apply safe_then; [|intros ? k' Hk'; by apply safe_ret]. set (mp0 := RtMempool size block_size None total total (mp_memory bytes block_size)).
  destruct (mp_init_list_ok n mp0 (Z.to_nat total)) as (mp & E & Hrep); [lia|lia|cbn; lia|cbn; lia| |].
  { intros i Hi. cbn. unfold mp_memory. assert (total <= bytes / (block_size + MP_HDR)) by (apply Z.div_le_lower_bound; lia).
    rewrite (pool_lookup (fun _ => MpNext None)) by lia. by eexists. }
  assert (Hn1 : no_waiters k1 (QMempool n)) by (by apply (no_waiters_untouched _ k)).
  apply (safe_bind _ _ _ tt (mp_put n mp0 k1)); [done|]. apply (safe_bind _ _ _ tt (with_list (QMempool n) (mp_put n mp0 k1))); [by apply list_init_run|].
  exists tt, (mp_put n mp (with_list (QMempool n) k1)). split; [|by apply (mp_new k k1 Hs Hk1 Hu n mp (seq 0 (Z.to_nat total)))].
  rewrite (on_mp_run n _ mp0 mp tt); [|apply lookup_insert_eq|exact E]. do 2 f_equal. unfold mp_put. cbn. by rewrite insert_insert_eq.
Qed.
End Rest.

(** A control block may be entered: nobody holds it in a container. *)
Notation unlisted o := (q_free (o_lists (k_objs k)) o).

Lemma sem_init_safe n name value flag :
  can_lock k -> unlisted (OSem n) -> no_waiters k (QSem n) -> ipc_flag_ok flag -> safe (rt_sem_init n name value flag) k.
Proof using Hs. intros. apply init_then; [done|by vm_compute; set_solver|done|]. intros k1 ? ?. by apply sem_made. Qed.
Lemma sem_create_safe n name value flag :
  unlisted (OSem n) -> no_waiters k (QSem n) -> ipc_flag_ok flag -> safe (rt_sem_create name value flag (Some n)) k.
Proof using Hs. intros. apply allocate_then; [by vm_compute; set_solver|done|]. intros k1 ? ?. by apply sem_made. Qed.
Lemma mutex_init_safe n name flag :
  can_lock k -> unlisted (OMutex n) -> no_waiters k (QMutex n) -> ipc_flag_ok flag -> safe (rt_mutex_init n name flag) k.
Proof using Hs. intros. apply init_then; [done|by vm_compute; set_solver|done|]. intros k1 ? ?. by apply mutex_made. Qed.
Lemma mutex_create_safe n name flag :
  unlisted (OMutex n) -> no_waiters k (QMutex n) -> ipc_flag_ok flag -> safe (rt_mutex_create name flag (Some n)) k.
Proof using Hs. intros. apply allocate_then; [by vm_compute; set_solver|done|]. intros k1 ? ?. by apply mutex_made. Qed.
Lemma event_init_safe n name flag :
  can_lock k -> unlisted (OEvent n) -> no_waiters k (QEvent n) -> ipc_flag_ok flag -> safe (rt_event_init n name flag) k.
Proof using Hs. intros. apply init_then; [done|by vm_compute; set_solver|done|]. intros k1 ? ?. by apply event_made. Qed.
Lemma event_create_safe n name flag :
  unlisted (OEvent n) -> no_waiters k (QEvent n) -> ipc_flag_ok flag -> safe (rt_event_create name flag (Some n)) k.
Proof using Hs. intros. apply allocate_then; [by vm_compute; set_solver|done|]. intros k1 ? ?. by apply event_made. Qed.
Lemma mb_init_safe n name msgpool size flag :
  can_lock k -> unlisted (OMailBox n) -> no_waiters k (QMbRecv n) -> no_waiters k (QMbSend n) -> ipc_flag_ok flag ->
  0 < size < 2 ^ 16 -> Z.of_nat (length msgpool) = size -> safe (rt_mb_init n name msgpool size flag) k.
Proof using Hs. intros. apply init_then; [done|by vm_compute; set_solver|done|]. intros k1 ? ?. by apply mb_made. Qed.
Lemma mb_create_safe n name msgpool size flag :
  unlisted (OMailBox n) -> no_waiters k (QMbRecv n) -> no_waiters k (QMbSend n) -> ipc_flag_ok flag ->
  0 < size < 2 ^ 16 -> Z.of_nat (length msgpool) = size -> safe (rt_mb_create name size flag (Some n) (Some msgpool)) k.
Proof using Hs. intros. apply allocate_then; [by vm_compute; set_solver|done|]. intros k1 ? ?. by apply mb_made. Qed.
(** The memory of a message queue holds the blocks that its sizes ask for. *)
Lemma mq_init_safe n name msgpool msg_size pool_size flag :
  can_lock k -> unlisted (OMessageQueue n) -> no_waiters k (QMqRecv n) -> no_waiters k (QMqSend n) -> ipc_flag_ok flag ->
  0 <= pool_size <= Z.of_nat (length msgpool) -> safe (rt_mq_init n name msgpool msg_size pool_size flag) k.
Proof using Hs.
  intros Hl Hf Hr Hsd Hfl Hp. apply init_then; [done|by vm_compute; set_solver|done|]. intros k1 ? ?.
  pose proof (wrap_range 16 (RT_ALIGN msg_size) ltac:(lia)) as Hm. set (m := u16 (RT_ALIGN msg_size)) in *.
  pose proof (wrap_range 16 (pool_size / (m + MSG_HDR)) ltac:(lia)) as Hx. unfold MSG_HDR in *.
  assert (Hle : u16 (pool_size / (m + 4)) <= pool_size / (m + 4)) by (apply Z.mod_le; [apply Z.div_pos; lia|lia]).
  pose proof (Z.mul_div_le pool_size (m + 4) ltac:(lia)). apply mq_made; unfold MSG_HDR; try done; [lia|]. nia.
Qed.
Lemma mq_create_safe n name msgpool msg_size max_msgs flag :
  unlisted (OMessageQueue n) -> no_waiters k (QMqRecv n) -> no_waiters k (QMqSend n) -> ipc_flag_ok flag ->
  u16 max_msgs * (u16 (RT_ALIGN msg_size) + MSG_HDR) <= Z.of_nat (length msgpool) ->
  safe (rt_mq_create name msg_size max_msgs flag (Some n) (Some msgpool)) k.
Proof using Hs.
  intros. apply allocate_then; [by vm_compute; set_solver|done|]. intros k1 ? ?. apply mq_made; try done; by apply (wrap_range 16).
Qed.
Lemma mp_init_safe n name size block_size :
  can_lock k -> unlisted (OMemPool n) -> no_waiters k (QMempool n) -> 0 <= size < 2 ^ 32 -> 0 <= block_size -> RT_ALIGN block_size + MP_HDR < 2 ^ 32 ->
  RT_ALIGN block_size + MP_HDR <= RT_ALIGN_DOWN size -> safe (rt_mp_init n name size block_size) k.
Proof using Hs.
  intros Hl Hf Hn Hsz Hb Hw Hfit. apply init_then; [done|by vm_compute; set_solver|done|]. intros k1 ? ?.
  assert (Hal : 0 <= RT_ALIGN block_size) by (apply Z.land_nonneg; left; apply (wrap_range 32); lia). unfold MP_HDR in *.
  rewrite align_down_eq in *. pose proof (Z.mul_div_le size 4 ltac:(lia)). rewrite (wrap_id 32) by lia.
  set (b := RT_ALIGN block_size + 4) in *. assert (Hd : 0 < 4 * (size / 4) / b) by (apply Z.div_str_pos; lia).
  pose proof (Z.mul_div_le (4 * (size / 4)) b ltac:(lia)). apply mp_made; unfold MP_HDR; try done; fold b; [|lia|lia].
  split; [done|]. apply Z.le_lt_trans with (4 * (size / 4)); [|lia]. apply Z.div_le_upper_bound; [lia|]. nia.
Qed.
Lemma mp_create_safe n name block_count block_size :
  unlisted (OMemPool n) -> no_waiters k (QMempool n) -> 0 <= block_size -> 0 < block_count ->
  (RT_ALIGN block_size + MP_HDR) * block_count < 2 ^ 32 -> safe (rt_mp_create name block_count block_size (Some n) true) k.
Proof using Hs.
  intros Hf Hn Hb Hc Hfit. apply allocate_then; [by vm_compute; set_solver|done|]. intros k1 ? ?.
  assert (Hal : 0 <= RT_ALIGN block_size) by (apply Z.land_nonneg; left; apply (wrap_range 32); lia). unfold MP_HDR in *.
  rewrite (wrap_id 32 (RT_ALIGN block_size + 4)), (wrap_id 32 (_ * block_count)) by nia. apply mp_made; unfold MP_HDR; try done; nia.
Qed.
End Make.

(** ** Waking all waiters, detaching and deleting *)

Lemma calm_woken_all l k k' : woken_all l k k' -> calm PThread k k'.
Proof.
  intros (Hik & _ & _ & Hin & Hout & Hq & Ht). split; [by apply keeps_ikeep| |apply Ht]. split.
  - intros h l0 Hw _ E. exists (filter (fun u => u ∉ l) l0). rewrite Hq, E by done. split; [done|]. intros u Hu%list_elem_of_filter. tauto.
  - intros u Hu. destruct (decide (u ∈ l)) as [Hl|Hl]; [destruct (Hin u Hl) as (th & -> & _); eauto|by rewrite Hout].
  - intros _ n l0 l1 u th E0 E1 Hu Et. rewrite Hq, E0 in E1 by done. injection E1 as <-. apply list_elem_of_filter in Hu as [Hu _].
    exists th. by rewrite Hout.
Qed.

Section Remove.
Context (k : kernel) (Hs : sys_inv k).

Lemma resume_all_sys h l : is_wait h -> s_queues (k_sched k) !! h = Some l ->
  exists k', rt_ipc_list_resume_all h k = Some (true, k') /\ sys_inv k' /\ woken_all l k k'.
Proof using Hs.
  intros Hw El. destruct (ipc_resume_all_ok h l k (sy_kinv _ Hs) Hw El) as (k' & E & Hk & Hwa). exists k'. split; [done|]. split; [|done].
  apply (sys_calm PThread k); try done. by apply (calm_woken_all l).
Qed.
Lemma object_detach_safe o : is_Some (o_objs (k_objs k) !! o) -> safe (rt_object_detach o) k.
Proof using Hs.
  intros [ob Eo]. destruct (object_detach_ok o k ob (sy_objs _ Hs) Eo) as (E & Ho & _). eexists tt, _. split; [exact E|].
  apply (sys_calm PThread k); try done; [by apply kinv_set_objs, Hs|by apply calm_objs].
Qed.
Lemma object_delete_safe o : is_Some (o_objs (k_objs k) !! o) -> safe (rt_object_delete o) k.
Proof using Hs.
  intros [ob Eo]. destruct (object_delete_ok o k ob (sy_objs _ Hs) Eo) as (objs' & E & Ho & _). eexists tt, _. split; [exact E|].
  apply (sys_calm PThread k); try done; [by apply kinv_set_objs, Hs|by apply calm_objs].
Qed.

(** A control block that is given back. *)
Lemma sem_dropped n : n <> heap_sem -> sys_inv (set_k_sems (delete n (k_sems k)) k).
Proof using Hs.
  intros Hn. apply (sys_calm PSem k); [done|by apply kinv_set_sems, Hs| |].
  - intros m sem E. cbn in E. apply lookup_delete_Some in E as [_ E]. by apply (sy_sems _ Hs m sem).
  - split; [|by apply quiet_stores|done]. split; try done. intros H. cbn. by rewrite lookup_delete_ne.
Qed.
Lemma mutex_dropped n : sys_inv (set_k_mutexes (delete n (k_mutexes k)) k).
Proof using Hs.
  apply (sys_calm PMutex k); [done|by apply kinv_set_mutexes, Hs| |apply calm_mutexes].
  intros m x E. cbn in E. apply lookup_delete_Some in E as [_ E]. by apply (sy_mutexes _ Hs m x).
Qed.
Lemma event_dropped n : sys_inv (set_k_events (delete n (k_events k)) k).
Proof using Hs.
  apply (sys_calm PEvent k); [done|by apply kinv_set_events, Hs| |apply calm_events].
  intros m x E. cbn in E. apply lookup_delete_Some in E as [_ E]. by apply (sy_events _ Hs m x).
Qed.
Lemma mb_dropped n : sys_inv (set_k_mbs (delete n (k_mbs k)) k).
Proof using Hs.
  apply (sys_calm PMailbox k); [done|by apply kinv_set_mbs, Hs| |apply calm_mbs].
  intros m x E. cbn in E. apply lookup_delete_Some in E as [_ E]. by apply (sy_mbs _ Hs m x).
Qed.
Lemma kinv_set_mqs m : kinv None (set_k_mqs m k).
Proof using Hs. destruct (sy_kinv _ Hs). by split. Qed.
Lemma mq_dropped n : sys_inv (set_k_mqs (delete n (k_mqs k)) k).
Proof using Hs.
  apply (sys_calm PMsgQueue k); [done|apply kinv_set_mqs| |apply calm_mqs].
  intros m x E. cbn in E. apply lookup_delete_Some in E as [_ E]. by apply (sy_mqs _ Hs m x).
Qed.
Lemma kinv_set_mps m : kinv None (set_k_mps m k).
Proof using Hs. destruct (sy_kinv _ Hs). by split. Qed.
Lemma mp_dropped n : sys_inv (set_k_mps (delete n (k_mps k)) k).
Proof using Hs.
  apply (sys_calm PMemPool k); [done|apply kinv_set_mps| |apply calm_mps].
  intros m x E. cbn in E. apply lookup_delete_Some in E as [_ E]. by apply (sy_mps _ Hs m x).
Qed.
End Remove.

(** What is left when the waiters of some lists were woken: the stores, the current thread,
    and lists that only lost threads. *)
Record awakened (k k' : kernel) : Prop := {
  aw_keep : ikeep k k';
  aw_current : s_current (k_sched k') = s_current (k_sched k);
  aw_lists : forall h l, is_wait h -> s_queues (k_sched k) !! h = Some l ->
    exists l', s_queues (k_sched k') !! h = Some l' /\ (l = [] -> l' = []);
}.
Lemma awakened_some k k' h : awakened k k' -> is_wait h -> is_Some (s_queues (k_sched k) !! h) -> is_Some (s_queues (k_sched k') !! h).
Proof. intros Ha Hw [l El]. destruct (aw_lists _ _ Ha h l Hw El) as (l' & -> & _). by eexists. Qed.
Lemma awakened_all l k k' : woken_all l k k' -> awakened k k'.
Proof.
  intros (Hik & Hc & _ & _ & _ & Hq & _). split; [done|done|]. intros h l0 Hw E. rewrite Hq, E by done. eexists. split; [done|]. by intros ->.
Qed.

(** Wake the waiters of one list, then go on. *)
Lemma wake_then {A} h (rest : M kernel A) k :
  sys_inv k -> is_wait h -> is_Some (s_queues (k_sched k) !! h) ->
  (forall k', sys_inv k' -> awakened k k' -> s_queues (k_sched k') !! h = Some [] -> safe rest k') ->
  safe (rt_ipc_list_resume_all h ;; rest) k.
Proof.
  intros Hs Hw [l El] Hr. destruct (resume_all_sys k Hs h l Hw El) as (k' & E & Hs' & Hwa). apply (safe_bind _ _ k true k' E), Hr; [done| |].
  - by apply (awakened_all l).
  - by apply (woken_all_queue h l k).
Qed.
Lemma detach_then {A} o (a : A) k : sys_inv k -> is_Some (o_objs (k_objs k) !! o) -> safe (rt_object_detach o ;; mret a) k.
Proof. intros Hs Ho. apply safe_then; [by apply object_detach_safe|]. intros _ k' Hk'. by apply safe_ret. Qed.
(** Delete the object, then give back its control block. *)
Lemma delete_then {A} o (drop : kernel -> kernel) (a : A) k :
  sys_inv k -> is_Some (o_objs (k_objs k) !! o) -> (forall k', sys_inv k' -> sys_inv (drop k')) -> safe (rt_object_delete o ;; modify drop ;; mret a) k.
Proof.
  intros Hs Ho Hd. apply safe_then; [by apply object_delete_safe|]. intros _ k' Hk'. apply (safe_bind _ _ k' tt (drop k')); [done|]. by apply safe_ret, Hd.
Qed.
(** Change the control block, then schedule. *)
Lemma schedule_then {A} (a : A) k c : sys_inv k -> s_current (k_sched k) = Some c -> safe (on_sched rt_schedule ;; mret a) k.
Proof.
  intros Hs Hc. destruct (kschedule_ok k c (sy_kinv _ Hs) Hc) as (s' & E & Hk & (_ & Hf & _)).
  apply (safe_bind _ _ k tt _ E), safe_ret, (sys_calm PThread k); try done. by apply calm_frame.
Qed.

Section Objects.
Context (k : kernel) (Hs : sys_inv k).
Notation listed o := (is_Some (o_objs (k_objs k) !! o)).

Lemma sem_detach_safe n : is_Some (k_sems k !! n) -> listed (OSem n) -> safe (rt_sem_detach n) k.
Proof using Hs.
  intros [x En] Ho. apply (safe_bind _ _ k x k); [by apply get_sem_run|]. destruct (sy_sems _ Hs n x En) as (_ & _ & l & El & _).
  apply wake_then; [done|done|by eexists|]. intros k' Hs' Ha _. apply detach_then; [done|]. by rewrite (ik_objs _ _ (aw_keep _ _ Ha)).
Qed.
Lemma sem_delete_safe n : is_Some (k_sems k !! n) -> n <> heap_sem -> listed (OSem n) -> safe (rt_sem_delete n) k.
Proof using Hs.
  intros [x En] Hn Ho. apply (safe_bind _ _ k x k); [by apply get_sem_run|]. destruct (sy_sems _ Hs n x En) as (_ & _ & l & El & _).
  apply wake_then; [done|done|by eexists|]. intros k' Hs' Ha _. apply delete_then; [done| |].
  - by rewrite (ik_objs _ _ (aw_keep _ _ Ha)).
  - intros k2 Hs2. by apply sem_dropped.
Qed.
Lemma sem_control_safe n cmd arg c : is_Some (k_sems k !! n) -> s_current (k_sched k) = Some c -> safe (rt_sem_control n cmd arg) k.
Proof using Hs.
  intros [x En] Hc. destruct cmd; [|by apply safe_ret]. apply (safe_bind _ _ k x k); [by apply get_sem_run|].
  destruct (sy_sems _ Hs n x En) as (_ & Hf & l & El & _). apply wake_then; [done|done|by eexists|]. intros k' Hs' Ha E0.
  assert (En' : k_sems k' !! n = Some x) by (by rewrite (ik_sems _ _ (aw_keep _ _ Ha))).
  apply (safe_bind _ _ k' tt _ (upd_sem_run _ _ _ _ En')), (schedule_then _ _ c); [|by rewrite <- Hc, <- (aw_current _ _ Ha)].
  apply (sys_calm PSem k'); [done|by apply kinv_set_sems, Hs'| |apply calm_sems].
  apply (sem_inv_upd k' _ n (set_sem_value (u16 arg) x) []); try done; [apply (sy_sems _ Hs')| |by right]. apply (wrap_range 16). lia.
Qed.
Lemma mutex_detach_safe n : is_Some (k_mutexes k !! n) -> listed (OMutex n) -> safe (rt_mutex_detach n) k.
Proof using Hs.
  intros [x En] Ho. apply (safe_bind _ _ k x k); [by apply get_mutex_run|]. destruct (sy_mutexes _ Hs n x En) as (_ & l & El & _).
  apply wake_then; [done|done|by eexists|]. intros k' Hs' Ha _. apply detach_then; [done|]. by rewrite (ik_objs _ _ (aw_keep _ _ Ha)).
Qed.
Lemma mutex_delete_safe n : is_Some (k_mutexes k !! n) -> listed (OMutex n) -> safe (rt_mutex_delete n) k.
Proof using Hs.
  intros [x En] Ho. apply (safe_bind _ _ k x k); [by apply get_mutex_run|]. destruct (sy_mutexes _ Hs n x En) as (_ & l & El & _).
  apply wake_then; [done|done|by eexists|]. intros k' Hs' Ha _. apply delete_then; [done| |].
  - by rewrite (ik_objs _ _ (aw_keep _ _ Ha)).
  - intros k2 Hs2. by apply mutex_dropped.
Qed.
Lemma event_detach_safe n : is_Some (k_events k !! n) -> listed (OEvent n) -> safe (rt_event_detach n) k.
Proof using Hs.
  intros [x En] Ho. apply (safe_bind _ _ k x k); [by apply get_event_run|]. destruct (sy_events _ Hs n x En) as (_ & _ & l & El & _).
  apply wake_then; [done|done|by eexists|]. intros k' Hs' Ha _. apply detach_then; [done|]. by rewrite (ik_objs _ _ (aw_keep _ _ Ha)).
Qed.
Lemma event_delete_safe n : is_Some (k_events k !! n) -> listed (OEvent n) -> safe (rt_event_delete n) k.
Proof using Hs.
  intros [x En] Ho. apply (safe_bind _ _ k x k); [by apply get_event_run|]. destruct (sy_events _ Hs n x En) as (_ & _ & l & El & _).
  apply wake_then; [done|done|by eexists|]. intros k' Hs' Ha _. apply delete_then; [done| |].
  - by rewrite (ik_objs _ _ (aw_keep _ _ Ha)).
  - intros k2 Hs2. by apply event_dropped.
Qed.
Lemma event_control_safe n cmd c : is_Some (k_events k !! n) -> s_current (k_sched k) = Some c -> safe (rt_event_control n cmd) k.
Proof using Hs.
  intros [x En] Hc. destruct cmd; [|by apply safe_ret]. apply (safe_bind _ _ k x k); [by apply get_event_run|].
  destruct (sy_events _ Hs n x En) as (Hf & _ & l & El & _). apply wake_then; [done|done|by eexists|]. intros k' Hs' Ha E0.
  assert (En' : k_events k' !! n = Some x) by (by rewrite (ik_events _ _ (aw_keep _ _ Ha))).
  apply (safe_bind _ _ k' tt _ (upd_event_run _ _ _ _ En')), (schedule_then _ _ c); [|by rewrite <- Hc, <- (aw_current _ _ Ha)].
  apply (sys_calm PEvent k'); [done|by apply kinv_set_events, Hs'| |apply calm_events].
  apply (event_inv_upd k' _ n (set_ev_set 0 x)); try done; [apply (sy_events _ Hs')|intros; apply same_cond_refl|].
  split; [done|]. split; [done|]. exists []. split; [done|]. intros t th Ht. by apply not_elem_of_nil in Ht.
Qed.

(** The two lists of mailboxes and message queues. *)
Lemma wake_both {A} h1 h2 (rest : M kernel A) :
  is_wait h1 -> is_wait h2 -> is_Some (s_queues (k_sched k) !! h1) -> is_Some (s_queues (k_sched k) !! h2) ->
  (forall k', sys_inv k' -> ikeep k k' -> s_current (k_sched k') = s_current (k_sched k) -> safe rest k') ->
  safe (rt_ipc_list_resume_all h1 ;; rt_ipc_list_resume_all h2 ;; rest) k.
Proof using Hs.
  intros Hw1 Hw2 H1 H2 Hr. apply wake_then; [done..|]. intros k1 Hs1 Ha1 _. apply wake_then; [done|done|by apply (awakened_some k)|]. intros k2 Hs2 Ha2 _.
  apply Hr; [done| |by rewrite (aw_current _ _ Ha2), (aw_current _ _ Ha1)]. etransitivity; [apply (aw_keep _ _ Ha1)|apply (aw_keep _ _ Ha2)].
Qed.
Lemma mb_detach_safe n : is_Some (k_mbs k !! n) -> listed (OMailBox n) -> safe (rt_mb_detach n) k.
Proof using Hs.
  intros [x En] Ho. apply (safe_bind _ _ k x k); [by apply get_mb_run|]. destruct (sy_mbs _ Hs n x En) as (_ & _ & H1 & H2).
  apply wake_both; [done..|]. intros k' Hs' Hik _. apply detach_then; [done|]. by rewrite (ik_objs _ _ Hik).
Qed.
Lemma mb_delete_safe n : is_Some (k_mbs k !! n) -> listed (OMailBox n) -> safe (rt_mb_delete n) k.
Proof using Hs.
  intros [x En] Ho. apply (safe_bind _ _ k x k); [by apply get_mb_run|]. destruct (sy_mbs _ Hs n x En) as (_ & _ & H1 & H2).
  apply wake_both; [done..|]. intros k' Hs' Hik _. apply delete_then; [done|by rewrite (ik_objs _ _ Hik)|]. intros k2 Hs2. by apply mb_dropped.
Qed.
Lemma mb_control_safe n cmd c : is_Some (k_mbs k !! n) -> s_current (k_sched k) = Some c -> safe (rt_mb_control n cmd) k.
Proof using Hs.
  intros [x En] Hc. destruct cmd; [|by apply safe_ret]. apply (safe_bind _ _ k x k); [by apply get_mb_run|]. destruct (sy_mbs _ Hs n x En) as (Hwf & Hf & H1 & H2).
  apply wake_both; [done..|]. intros k' Hs' Hik Hc'. assert (En' : k_mbs k' !! n = Some x) by (by rewrite (ik_mbs _ _ Hik)).
  apply (safe_bind _ _ k' x k'); [by apply get_mb_run|]. set (mb := set_mb_out_offset 0 _).
  apply (safe_bind _ _ k' tt (set_k_mbs (<[n := mb]> (k_mbs k')) k')); [done|]. apply (schedule_then _ _ c); [|by rewrite <- Hc, <- Hc'].
  apply (sys_calm PMailbox k'); [done|by apply kinv_set_mbs, Hs'| |apply calm_mbs].
  apply (mb_inv_upd k' _ n mb); try done; [apply (sy_mbs _ Hs')|]. destruct Hwf as (? & ? & _). unfold mb_wf, mb. cbn.
  rewrite Z.mod_0_l by lia. lia.
Qed.
Lemma mq_detach_safe n : is_Some (k_mqs k !! n) -> listed (OMessageQueue n) -> safe (rt_mq_detach n) k.
Proof using Hs.
  intros [x En] Ho. apply (safe_bind _ _ k x k); [by apply get_mq_run|]. destruct (sy_mqs _ Hs n x En) as (_ & _ & H1 & H2).
  apply wake_both; [done..|]. intros k' Hs' Hik _. apply detach_then; [done|]. by rewrite (ik_objs _ _ Hik).
Qed.
Lemma mq_delete_safe n : is_Some (k_mqs k !! n) -> listed (OMessageQueue n) -> safe (rt_mq_delete n) k.
Proof using Hs.
  intros [x En] Ho. apply (safe_bind _ _ k x k); [by apply get_mq_run|]. destruct (sy_mqs _ Hs n x En) as (_ & _ & H1 & H2).
  apply wake_both; [done..|]. intros k' Hs' Hik _. apply (safe_bind _ _ k' tt (set_k_mqs (delete n (k_mqs k')) k')); [done|].
  apply safe_then; [|intros _ k2 Hk2; by apply safe_ret]. apply object_delete_safe; [by apply mq_dropped|]. cbn. by rewrite (ik_objs _ _ Hik).
Qed.
Lemma mq_control_safe n cmd c : is_Some (k_mqs k !! n) -> s_current (k_sched k) = Some c -> safe (rt_mq_control n cmd) k.
Proof using Hs.
  intros [x En] Hc. destruct cmd; [|by apply safe_ret]. apply (safe_bind _ _ k x k); [by apply get_mq_run|].
  destruct (sy_mqs _ Hs n x En) as ((msgs & q & fr & fl & Hrep & Hd) & Hf & H1 & H2).
  apply wake_both; [done..|]. intros k' Hs' Hik Hc'. assert (En' : k_mqs k' !! n = Some x) by (by rewrite (ik_mqs _ _ Hik)).
  destruct (mq_reset_loop_ok (Z.to_nat (mq_max_msgs x)) x q fr fl) as (mq1 & E1 & Hr1 & Hst); [| |].
  { destruct x; cbn in *. pose proof (mr_entry _ _ _ _ Hrep) as He. cbn in He. by rewrite He in Hrep. }
  { pose proof (mr_max _ _ _ _ Hrep) as [He _]. rewrite !length_app in He. lia. }
  apply (safe_bind _ _ k' tt (mq_put n mq1 k')); [by apply (on_mq_run n _ x)|].
  apply (safe_bind _ _ _ tt (mq_put n (set_mq_entry 0 mq1) k')); [rewrite <- (mq_put_put n (set_mq_entry 0 mq1) mq1 k'); apply (on_mq_run n _ mq1); [apply mq_put_lookup|done]|].
  apply (schedule_then _ _ c); [|by rewrite <- Hc, <- Hc']. apply (sys_calm PMsgQueue k'); [done|by apply kinv_mq_put, Hs'| |apply calm_mqs].
  apply (mq_inv_upd k' _ n (set_mq_entry 0 mq1) x); try done; [apply (sy_mqs _ Hs')| |apply Hst]. exists [], [], (rev q ++ fr), fl. split; [done|constructor].
Qed.
Lemma mp_detach_safe n : is_Some (k_mps k !! n) -> listed (OMemPool n) -> safe (rt_mp_detach n) k.
Proof using Hs.
  intros [x En] Ho. apply (safe_bind _ _ k x k); [by apply get_mp_run|]. destruct (sy_mps _ Hs n x En) as (_ & H1).
  apply wake_then; [done..|]. intros k' Hs' Ha _. apply detach_then; [done|]. by rewrite (ik_objs _ _ (aw_keep _ _ Ha)).
Qed.
Lemma mp_delete_safe n : is_Some (k_mps k !! n) -> listed (OMemPool n) -> safe (rt_mp_delete n) k.
Proof using Hs.
  intros [x En] Ho. apply (safe_bind _ _ k x k); [by apply get_mp_run|]. destruct (sy_mps _ Hs n x En) as (_ & H1).
  apply wake_then; [done..|]. intros k' Hs' Ha _. apply delete_then; [done|by rewrite (ik_objs _ _ (aw_keep _ _ Ha))|]. intros k2 Hs2. by apply mp_dropped.
Qed.
End Objects.

(** ** Threads *)

Lemma keeps_shape c k k' s tms objs : k' = set_k_timers tms (set_k_objs objs (set_k_sched s k)) -> oinv (k_objs k') -> keeps c k k'.
Proof. intros ->. by split. Qed.

Lemma initialised_calm t th k k' : s_threads (k_sched k) !! t = None -> initialised t th k k' -> calm PThread k k'.
Proof.
  intros Hn [_ Ho _ Hf _ Htl (s & tms & objs & Esh) _]. split; [by apply (keeps_shape _ _ _ s tms objs)| |done]. apply quiet_same.
  - intros h Hw _. by rewrite (wait_frame _ _ h Hf Hw).
  - intros u thu Eu. assert (Hu : u <> t) by congruence.
    destruct (frame_lookup _ _ u thu Hf) as (th' & Et' & E & _); [cbn; by rewrite lookup_insert_ne|]. exists th'. split; [done|]. by apply same_stat_conds.
Qed.
Lemma ended_calm t k k' : sinv None (k_sched k) -> ended t k k' -> calm PThread k k'.
Proof.
  intros Hs [_ Ho (tht & Ett & _) _ _ _ Htl (s & tms & objs & Esh) Hl Hth]. split; [by apply (keeps_shape _ _ _ s tms objs)| |done]. split.
  - intros h l Hw _ El. exists (list_del t l). split; [apply Hl; [intros p; by apply is_wait_ready|by destruct h|done]|].
    intros u [Hu _]%elem_of_list_del. done.
  - intros u [thu Eu]. destruct (decide (u = t)) as [->|Hu]; [by exists tht|]. pose proof (Hth u Hu) as H. rewrite Eu in H. inversion H; subst. by eexists.
  - intros _ n l0 l u thu El0 El Hu Eu. rewrite (Hl (QEvent n) l0) in El by done. injection El as <-. apply elem_of_list_del in Hu as [_ Hu].
    pose proof (Hth u Hu) as H. rewrite Eu in H. inversion H as [x y [E _] Hx Hy|]; subst. exists y. split; [done|]. by apply same_stat_conds.
Qed.

Section Threads.
Context (k : kernel) (Hs : sys_inv k).

Lemma thread_init_safe t name entry parameter stack_start stack_size priority tick :
  can_lock k -> fresh_thread k t -> 0 <= priority < RT_THREAD_PRIORITY_MAX ->
  safe (rt_thread_init t name entry parameter stack_start stack_size priority tick) k.
Proof using Hs.
  intros Hl Hf Hp. destruct (thread_init_ok k t name entry parameter stack_start stack_size priority tick (sy_kinv _ Hs) (sy_objs _ Hs) Hl Hf Hp) as (k' & E & Hi).
  apply (safe_calm PThread _ k _ _ Hs E (in_kinv _ _ _ _ Hi)); [done|]. eapply initialised_calm; [apply Hf|exact Hi].
Qed.
Lemma thread_startup_safe t th :
  s_threads (k_sched k) !! t = Some th -> stat_of th = RT_THREAD_INIT -> 0 <= th_init_priority th < 32 -> is_Some (s_current (k_sched k)) ->
  safe (rt_thread_startup t) k.
Proof using Hs.
  intros Et Hst Hp Hc. destruct (startup_ok k t th (sy_kinv _ Hs) Et Hst Hp) as (l & s' & tms' & _ & E & Hk & _ & Htl & _ & _ & Hpost).
  apply (safe_calm PThread _ k _ _ Hs E Hk); [done|]. destruct (Hpost Hc) as (_ & Hf & _).
  etransitivity; [by apply (calm_resumed _ t th (started th) l k)|]. etransitivity; [by apply (calm_frame _ (set_k_sched _ k) s')|]. by apply calm_timers.
Qed.
Lemma thread_detach_safe t th :
  s_threads (k_sched k) !! t = Some th -> stat_of th <> RT_THREAD_INIT ->
  is_Some (o_objs (k_objs k) !! OThread t) -> is_Some (o_objs (k_objs k) !! OTimer (ThreadTimer t)) -> safe (rt_thread_detach t) k.
Proof using Hs.
  intros Et Hst [ob Eo] [obt Eot]. destruct (thread_detach_correct k t th ob obt (sy_kinv _ Hs) (sy_objs _ Hs) Et Hst Eo Eot) as (k' & E & He).
  apply (safe_calm PThread _ k _ _ Hs E (en_kinv _ _ _ He)); [done|]. apply (ended_calm t); [apply (ki_sched _ _ (sy_kinv _ Hs))|done].
Qed.
Lemma thread_exit_safe t :
  running k t -> is_Some (o_objs (k_objs k) !! OThread t) -> is_Some (o_objs (k_objs k) !! OTimer (ThreadTimer t)) -> safe rt_thread_exit k.
Proof using Hs.
  intros [Hc (th & Et & Hr)] [ob Eo] [obt Eot].
  destruct (thread_exit_ok k t th ob obt (sy_kinv _ Hs) (sy_objs _ Hs) Hc Et Hr Eo Eot) as (k' & E & He & _).
  apply (safe_calm PThread _ k _ _ Hs E (en_kinv _ _ _ He)); [done|]. apply (ended_calm t); [apply (ki_sched _ _ (sy_kinv _ Hs))|done].
Qed.
End Threads.
