(* ===== verification/DevIpc.v ===== *)
(** * Completions and data queues (rt-thread/components/drivers/src)

    completion.c and dataqueue.c: the synchronisation objects of the device drivers.  They
    are not kernel objects; their control blocks live in the drivers, so the state [dstate]
    holds them beside the kernel.  A completion is a flag with a waiting thread, a data
    queue a bounded ring of items with waiting threads on both sides. *)
From S2P Require Import Prelude RtList Kernel Sched Timer Object Thread Lifecycle Ipc Sem Mailbox System Creation.
From stdpp Require Import base gmap sets list.
From Stdlib Require Import ZArith Lia.
#[local] Open Scope Z_scope.

(** ** State *)

Definition RT_EEMPTY : Z := 4.
Definition RT_ENOMEM : Z := 5.
Definition RT_COMPLETED : Z := 1.
Definition RT_UNCOMPLETED : Z := 0.
Definition RT_DATAQUEUE_EVENT_POP : Z := 1.
Definition RT_DATAQUEUE_EVENT_PUSH : Z := 2.
Definition RT_DATAQUEUE_EVENT_LWM : Z := 3.

(** An item is the address and the size of a block of data. *)
Definition rt_data_item : Type := Z * Z.
(** [dq_evt_notify]: whether there is a function to notify. *)
Record rt_data_queue := RtDataQueue {
  dq_size : Z; dq_lwm : Z; dq_get_index : Z; dq_put_index : Z; dq_queue : list rt_data_item; dq_evt_notify : bool;
}.
Definition set_dq_get_index (v : Z) (q : rt_data_queue) : rt_data_queue :=
  RtDataQueue (dq_size q) (dq_lwm q) v (dq_put_index q) (dq_queue q) (dq_evt_notify q).

(** The flags of the completions and the data queues; their lists are in the kernel. *)
Record dstate := DState { ds_kernel : kernel; ds_comps : gmap nat Z; ds_dqs : gmap nat rt_data_queue }.
Definition set_ds_kernel (v : kernel) (s : dstate) : dstate := DState v (ds_comps s) (ds_dqs s).
Definition set_ds_comps (v : gmap nat Z) (s : dstate) : dstate := DState (ds_kernel s) v (ds_dqs s).
Definition set_ds_dqs (v : gmap nat rt_data_queue) (s : dstate) : dstate := DState (ds_kernel s) (ds_comps s) v.

Definition kern {A} (c : M kernel A) : M dstate A := zoom ds_kernel set_ds_kernel c.
Definition get_comp (n : nat) : M dstate Z := fun s => match ds_comps s !! n with Some f => Some (f, s) | None => None end.
Definition put_comp (n : nat) (f : Z) : M dstate unit := modify (fun s => set_ds_comps (<[n := f]> (ds_comps s)) s).
Definition get_dq (n : nat) : M dstate rt_data_queue := fun s => match ds_dqs s !! n with Some q => Some (q, s) | None => None end.
Definition put_dq (n : nat) (q : rt_data_queue) : M dstate unit := modify (fun s => set_ds_dqs (<[n := q]> (ds_dqs s)) s).

(** Clear the error number, suspend, link at the end of the list, arm the timer, schedule. *)
Definition suspend_on (h : qhead) (t : nat) (timeout : Z) : M kernel unit :=
  set_thread t (set_th_error RT_EOK) ;;
  rt_thread_suspend t ;;
  kq (q_insert_before h t) ;;
  (if bool_decide (timeout > 0) then start_thread_timer t timeout else mret tt) ;;
  on_sched rt_schedule.

(** ** Completions *)

Definition rt_completion_init (n : nat) : M dstate unit :=
  put_comp n RT_UNCOMPLETED ;;
  kern (kq (q_init (QComp n))).

(** [inr t]: the thread [t] waits. *)
Definition rt_completion_wait (n : nat) (timeout : Z) : M dstate (Z + nat) :=
  flag ← get_comp n;
  if bool_decide (flag <> RT_COMPLETED) then
    if bool_decide (timeout = 0) then mret (inl (- RT_ETIMEOUT))
    else
      t ← kern self;
      kern (suspend_on (QComp n) t timeout) ;;
      mret (inr t)
  else
    put_comp n RT_UNCOMPLETED ;;
    mret (inl RT_EOK).
Definition rt_completion_wait_resume (n t : nat) : M dstate Z :=
  th ← kern (get_thread t);
  put_comp n RT_UNCOMPLETED ;;
  mret (th_error th).

Definition rt_completion_done (n : nat) : M dstate unit :=
  flag ← get_comp n;
  if bool_decide (flag = RT_COMPLETED) then mret tt
  else
    put_comp n RT_COMPLETED ;;
    kern (ipc_signal (QComp n)).

(** ** Data queues *)

(** [malloc] is the memory for the items. *)
Definition rt_data_queue_init (n : nat) (size lwm : Z) (evt_notify : bool) (malloc : option (list rt_data_item)) : M dstate Z :=
  kern (kq (q_init (QDqPush n))) ;;
  kern (kq (q_init (QDqPop n))) ;;
  put_dq n (RtDataQueue size lwm 0 0 (default [] malloc) evt_notify) ;;
  mret (match malloc with None => - RT_ENOMEM | Some _ => RT_EOK end).

Definition dq_store (x : rt_data_item) (q : rt_data_queue) : option rt_data_queue :=
  let i := Z.to_nat (dq_put_index q mod dq_size q) in
  if bool_decide (dq_size q <> 0) && bool_decide (i < length (dq_queue q))%nat then
    Some (RtDataQueue (dq_size q) (dq_lwm q) (dq_get_index q) (u16 (dq_put_index q + 1)) (<[i := x]> (dq_queue q)) (dq_evt_notify q))
  else None.
Definition dq_first (q : rt_data_queue) : option rt_data_item :=
  if bool_decide (dq_size q <> 0) then dq_queue q !! Z.to_nat (dq_get_index q mod dq_size q) else None.
Definition notify (q : rt_data_queue) (event : Z) : option Z := if dq_evt_notify q then Some event else None.

(** A finished call gives its result and the event that evt_notify is called with.  The
    difference of the two 16-bit indices is an int. *)
Definition push_loop (n : nat) (x : rt_data_item) (timeout : Z) : M dstate ((Z * option Z) + nat) :=
  q ← get_dq n;
  if bool_decide (dq_put_index q - dq_get_index q = dq_size q) then
    if bool_decide (timeout = 0) then mret (inl (- RT_ETIMEOUT, None))
    else
      t ← kern self;
      kern (suspend_on (QDqPush n) t timeout) ;;
      mret (inr t)
  else
    q ← liftO (dq_store x q);
    put_dq n q ;;
    empty ← kern (kq (q_isempty (QDqPop n)));
    if (empty : bool) then mret (inl (RT_EOK, notify q RT_DATAQUEUE_EVENT_PUSH))
    else kern (rt_ipc_list_resume (QDqPop n) ;; on_sched rt_schedule) ;; mret (inl (RT_EOK, None)).
Definition rt_data_queue_push : nat -> rt_data_item -> Z -> M dstate ((Z * option Z) + nat) := push_loop.
Definition rt_data_queue_push_resume (n t : nat) (x : rt_data_item) (timeout : Z) : M dstate ((Z * option Z) + nat) :=
  th ← kern (get_thread t);
  if bool_decide (th_error th <> RT_EOK) then mret (inl (th_error th, None)) else push_loop n x timeout.

(** The popped item comes with the result. *)
Definition pop_loop (n : nat) (timeout : Z) : M dstate ((Z * option rt_data_item * option Z) + nat) :=
  q ← get_dq n;
  if bool_decide (dq_get_index q = dq_put_index q) then
    if bool_decide (timeout = 0) then mret (inl (- RT_ETIMEOUT, None, None))
    else
      t ← kern self;
      kern (suspend_on (QDqPop n) t timeout) ;;
      mret (inr t)
  else
    x ← liftO (dq_first q);
    let q := set_dq_get_index (u16 (dq_get_index q + 1)) q in
    put_dq n q ;;
    if bool_decide (dq_put_index q - dq_get_index q <= dq_lwm q) then
      kern (ipc_signal (QDqPush n)) ;;
      mret (inl (RT_EOK, Some x, notify q RT_DATAQUEUE_EVENT_LWM))
    else mret (inl (RT_EOK, Some x, notify q RT_DATAQUEUE_EVENT_POP)).
Definition rt_data_queue_pop : nat -> Z -> M dstate ((Z * option rt_data_item * option Z) + nat) := pop_loop.
Definition rt_data_queue_pop_resume (n t : nat) (timeout : Z) : M dstate ((Z * option rt_data_item * option Z) + nat) :=
  th ← kern (get_thread t);
  if bool_decide (th_error th <> RT_EOK) then mret (inl (th_error th, None, None)) else pop_loop n timeout.

Definition rt_data_queue_peak (n : nat) : M dstate (Z * option rt_data_item) :=
  q ← get_dq n;
  if bool_decide (dq_get_index q = dq_put_index q) then mret (- RT_EEMPTY, None)
  else x ← liftO (dq_first q); mret (RT_EOK, Some x).

(** The waiting threads are woken with an error; the items stay. *)
Definition rt_data_queue_reset (n : nat) : M dstate unit :=
  get_dq n ;;
  kern (on_sched rt_enter_critical ;;
        rt_ipc_list_resume_all (QDqPop n) ;;
        rt_ipc_list_resume_all (QDqPush n) ;;
        on_sched rt_exit_critical ;;
        on_sched rt_schedule).

(** ** Invariant *)

(** The ring of [q] holds [items], the oldest first.  The indices count the items from the
    start, so this describes the first 65535 pushes. *)
Record dq_rep (q : rt_data_queue) (items : list rt_data_item) : Prop := {
  dr_size : 0 < dq_size q < 2 ^ 16;
  dr_queue : Z.of_nat (length (dq_queue q)) = dq_size q;
  dr_get : 0 <= dq_get_index q;
  dr_put : dq_put_index q = dq_get_index q + Z.of_nat (length items);
  dr_bound : dq_put_index q < 2 ^ 16;
  dr_fits : Z.of_nat (length items) <= dq_size q;
  dr_items : forall i x, items !! i = Some x -> dq_queue q !! Z.to_nat ((dq_get_index q + Z.of_nat i) mod dq_size q) = Some x;
}.

Notation queue_of k h := (s_queues (k_sched k) !! h).

(** At most one thread waits for a completion, and none does when it is completed. *)
Definition comp_ok (f : Z) (l : list nat) : Prop :=
  (f = RT_COMPLETED \/ f = RT_UNCOMPLETED) /\ (f = RT_COMPLETED -> l = []) /\ forall u v, u ∈ l -> v ∈ l -> u = v.

Record drv_inv (s : dstate) : Prop := {
  dn_sys : sys_inv (ds_kernel s);
  dn_comps : forall n f, ds_comps s !! n = Some f -> exists l, queue_of (ds_kernel s) (QComp n) = Some l /\ comp_ok f l;
  dn_dqs : forall n q, ds_dqs s !! n = Some q -> exists items, dq_rep q items;
  dn_push : forall n, is_Some (ds_dqs s !! n) -> is_Some (queue_of (ds_kernel s) (QDqPush n));
  dn_pop : forall n, is_Some (ds_dqs s !! n) -> is_Some (queue_of (ds_kernel s) (QDqPop n));
}.

Lemma drv_inv_empty k : sys_inv k -> drv_inv (DState k ∅ ∅).
Proof.
  intros Hs. split; cbn; [done|..].
  - intros n f E. by rewrite lookup_empty in E.
  - intros n q E. by rewrite lookup_empty in E.
  - intros n [q E]. by rewrite lookup_empty in E.
  - intros n [q E]. by rewrite lookup_empty in E.
Qed.

(** The lists of the drivers lose threads at most: what everything else in the kernel does
    to them. *)
Definition lists_shrink (k k' : kernel) : Prop :=
  forall h l, part_of h = PDriver -> queue_of k h = Some l -> exists l', queue_of k' h = Some l' /\ forall u, u ∈ l' -> u ∈ l.

Lemma lists_shrink_refl k : lists_shrink k k.
Proof. intros h l _ E. by exists l. Qed.
Lemma is_wait_driver h : part_of h = PDriver -> is_wait h.
Proof. by destruct h. Qed.
Lemma calm_shrink c k k' : c <> PDriver -> calm c k k' -> lists_shrink k k'.
Proof. intros Hc [_ Hq _] h l Hh. apply (qt_queues _ _ _ Hq); [by apply is_wait_driver|congruence]. Qed.

Lemma comp_ok_shrink f l l' : comp_ok f l -> (forall u, u ∈ l' -> u ∈ l) -> comp_ok f l'.
Proof.
  intros (Hf & He & Hu) Hsub. split_and!; [done| |].
  - intros E. specialize (He E). subst l. destruct l' as [|u l']; [done|]. destruct (not_elem_of_nil u). apply Hsub, elem_of_cons. by left.
  - intros u v ? ?. by apply Hu; apply Hsub.
Qed.

Lemma drv_inv_kernel s k' :
  drv_inv s -> sys_inv k' ->
  (forall n l, queue_of (ds_kernel s) (QComp n) = Some l -> exists l', queue_of k' (QComp n) = Some l' /\ forall u, u ∈ l' -> u ∈ l) ->
  (forall n, is_Some (queue_of (ds_kernel s) (QDqPush n)) -> is_Some (queue_of k' (QDqPush n))) ->
  (forall n, is_Some (queue_of (ds_kernel s) (QDqPop n)) -> is_Some (queue_of k' (QDqPop n))) -> drv_inv (set_ds_kernel k' s).
Proof.
  intros [Hs Hc Hd H1 H2] Hk Hq Hp Ho. split; cbn; try done; [|by intros n Hn; apply Hp, H1|by intros n Hn; apply Ho, H2].
  intros n f E. destruct (Hc n f E) as (l & El & Hl). destruct (Hq n l El) as (l' & El' & Hsub). exists l'. split; [done|]. by apply (comp_ok_shrink f l).
Qed.
Lemma drv_inv_shrink s k' : drv_inv s -> sys_inv k' -> lists_shrink (ds_kernel s) k' -> drv_inv (set_ds_kernel k' s).
Proof.
  intros Hi Hk Hs. apply drv_inv_kernel; try done; [intros n l; by apply Hs|..]; intros n [l El];
    [destruct (Hs (QDqPush n) l eq_refl El) as (l' & -> & _)|destruct (Hs (QDqPop n) l eq_refl El) as (l' & -> & _)]; by eexists.
Qed.

(** ** Suspending and waking *)

Lemma suspend_on_wait h t timeout k :
  suspend_on h t timeout k = (set_thread t (set_th_error RT_EOK) ;; (ipc_wait h t RT_IPC_FLAG_FIFO timeout ;; on_sched rt_schedule)) k.
Proof.
  unfold suspend_on, ipc_wait, rt_ipc_list_suspend. munfold. destruct (set_thread t (set_th_error RT_EOK) k) as [[[] k1]|]; [|done].
  destruct (rt_thread_suspend t k1) as [[r k2]|]; [|done]. rewrite (bool_decide_true (RT_IPC_FLAG_FIFO = RT_IPC_FLAG_FIFO)) by done. destruct (kq (q_insert_before h t) k2) as [[[] k3]|]; [|done]. done.
Qed.

(** What the kernel looks like after the running thread [t] went to sleep on [h]. *)
Definition slept (h : qhead) (t : nat) (timeout : Z) (k k' : kernel) : Prop := blocked h t RT_IPC_FLAG_FIFO timeout (with_error t RT_EOK k) k'.

Lemma sleep_on_ok h t timeout l k :
  sys_inv k -> running k t -> part_of h = PDriver -> queue_of k h = Some l -> timeout < HALF ->
  exists k', suspend_on h t timeout k = Some (tt, k') /\ slept h t timeout k k' /\ sys_inv k' /\ queue_of k' h = Some (l ++ [t]).
Proof.
  intros Hs Hr Hh El Ht. pose proof Hr as [_ (th & Et & _)].
  destruct (block_running (with_error t RT_EOK k) h t RT_IPC_FLAG_FIFO timeout l) as (k' & E & Hb).
  - apply kinv_with_error, Hs.
  - by apply running_with_error.
  - by apply is_wait_driver.
  - by rewrite with_error_queues.
  - by left.
  - by apply half_bound.
  - exists k'. split; [rewrite suspend_on_wait, (bind_run _ _ _ _ _ (set_error_run t RT_EOK k ltac:(by eexists))); exact E|]. split; [done|].
    pose proof (calm_error_blocked _ _ _ _ _ _ _ Hb Ht) as Hc. rewrite Hh in Hc. split; [by apply (sys_calm PDriver k); [|apply (bl_kinv _ _ _ _ _ _ Hb)| |]|].
    destruct (bl_queue _ _ _ _ _ _ Hb) as (l1 & l2 & E1 & E2 & Hf & _). rewrite with_error_queues, El in E1. injection E1 as ->. specialize (Hf eq_refl). subst l2. by rewrite app_nil_r.
Qed.
Lemma slept_other h t timeout k k' h' : slept h t timeout k k' -> is_wait h' -> h' <> h -> queue_of k' h' = queue_of k h'.
Proof. intros Hb Hw Hn. rewrite (bl_queues _ _ _ _ _ _ Hb) by done. by rewrite with_error_queues. Qed.

Lemma signal_sys h l c k :
  sys_inv k -> part_of h = PDriver -> queue_of k h = Some l -> s_current (k_sched k) = Some c ->
  exists k', ipc_signal h k = Some (tt, k') /\ signalled h l k k' /\ sys_inv k' /\ lists_shrink k k' /\ queue_of k' h = Some (tail l).
Proof.
  intros Hs Hh El Hc. destruct (signal_ok k h l c (sy_kinv _ Hs) (is_wait_driver h Hh) El Hc) as (k' & E & Hw & Hk). exists k'. split; [done|]. split; [done|].
  pose proof (calm_signalled PThread h l k k' El Hw) as Hcalm. split; [by apply (sys_calm PThread k)|]. split; [by apply (calm_shrink PThread)|].
  destruct l as [|u l]; cbn in *; [by subst k'|by apply (wk_queue _ _ _ _ Hw)].
Qed.
Lemma kern_run {A} (c : M kernel A) s a k' : c (ds_kernel s) = Some (a, k') -> kern c s = Some (a, set_ds_kernel k' s).
Proof. intros E. unfold kern, zoom. by rewrite E. Qed.
Lemma set_ds_kernel_id s : set_ds_kernel (ds_kernel s) s = s.
Proof. by destruct s. Qed.

(** ** Completions *)

Lemma get_comp_run n f s : ds_comps s !! n = Some f -> get_comp n s = Some (f, s).
Proof. intros E. unfold get_comp. by rewrite E. Qed.
Lemma drv_inv_comp s n f l : drv_inv s -> queue_of (ds_kernel s) (QComp n) = Some l -> comp_ok f l -> drv_inv (set_ds_comps (<[n := f]> (ds_comps s)) s).
Proof.
  intros [Hs Hc Hd H1 H2] El Hl. split; cbn; try done. intros m g [[<- <-]|[_ E]]%lookup_insert_Some; [by exists l|by apply Hc].
Qed.
(** Clearing the flag is always possible. *)
Lemma drv_inv_clear s n : drv_inv s -> is_Some (ds_comps s !! n) -> drv_inv (set_ds_comps (<[n := RT_UNCOMPLETED]> (ds_comps s)) s).
Proof. intros Hi [f E]. destruct (dn_comps _ Hi n f E) as (l & El & _ & _ & Hu). apply (drv_inv_comp s n _ l); try done. split_and!; [by right|done|done]. Qed.

Inductive comp_wait_outcome (n t : nat) (timeout f : Z) (s : dstate) : Z + nat -> dstate -> Prop :=
| wait_completed : f = RT_COMPLETED -> comp_wait_outcome n t timeout f s (inl RT_EOK) (set_ds_comps (<[n := RT_UNCOMPLETED]> (ds_comps s)) s)
| wait_refused : f <> RT_COMPLETED -> timeout = 0 -> comp_wait_outcome n t timeout f s (inl (- RT_ETIMEOUT)) s
| wait_blocks k' : f <> RT_COMPLETED -> timeout <> 0 -> slept (QComp n) t timeout (ds_kernel s) k' -> queue_of k' (QComp n) = Some [t] ->
    comp_wait_outcome n t timeout f s (inr t) (set_ds_kernel k' s).

Lemma comp_wait_ok n t timeout f s :
  drv_inv s -> running (ds_kernel s) t -> ds_comps s !! n = Some f -> queue_of (ds_kernel s) (QComp n) = Some [] -> timeout < HALF ->
  exists r s', rt_completion_wait n timeout s = Some (r, s') /\ comp_wait_outcome n t timeout f s r s' /\ drv_inv s'.
Proof.
  intros Hi Hr En El Ht. unfold rt_completion_wait. rewrite (bind_run _ _ _ _ _ (get_comp_run n f s En)). case_bool_decide as Hf; [case_bool_decide as H0|].
  - eexists _, _. split; [done|]. split; [by apply wait_refused|done].
  - destruct (sleep_on_ok (QComp n) t timeout [] (ds_kernel s) (dn_sys _ Hi) Hr eq_refl El Ht) as (k' & E & Hb & Hs & El').
    rewrite (bind_run _ _ _ _ _ (kern_run _ s t _ (self_run _ _ (proj1 Hr)))), set_ds_kernel_id, (bind_run _ _ _ _ _ (kern_run _ s _ _ E)).
    eexists _, _. split; [done|]. split; [by apply wait_blocks|]. destruct Hi as [? Hc Hd H1 H2]. split; cbn; try done.
    + intros m g Em. destruct (decide (m = n)) as [->|Hm].
      * exists [t]. split; [done|]. rewrite En in Em. injection Em as <-. destruct (Hc n f En) as (l & _ & [?|?] & _); [done|]. split_and!; [by right|done|].
        intros u v ->%list_elem_of_singleton ->%list_elem_of_singleton. done.
      * rewrite (slept_other _ _ _ _ _ (QComp m) Hb) by (done || congruence). by apply Hc.
    + intros m Hm. rewrite (slept_other _ _ _ _ _ (QDqPush m) Hb) by done. by apply H1.
    + intros m Hm. rewrite (slept_other _ _ _ _ _ (QDqPop m) Hb) by done. by apply H2.
  - eexists _, _. split; [done|]. split; [by apply wait_completed|]. by apply drv_inv_clear; [|eexists].
Qed.

(** After rt_completion_done the completion is completed, and nobody waits for it. *)
Lemma comp_done_ok n c f l s :
  drv_inv s -> s_current (k_sched (ds_kernel s)) = Some c -> ds_comps s !! n = Some f -> queue_of (ds_kernel s) (QComp n) = Some l ->
  exists k', rt_completion_done n s = Some (tt, set_ds_kernel k' (set_ds_comps (<[n := RT_COMPLETED]> (ds_comps s)) s)) /\
    signalled (QComp n) l (ds_kernel s) k' /\ queue_of k' (QComp n) = Some [] /\
    drv_inv (set_ds_kernel k' (set_ds_comps (<[n := RT_COMPLETED]> (ds_comps s)) s)).
Proof.
  intros Hi Hc En El. destruct (dn_comps _ Hi n f En) as (l' & El' & Hf & He & Hu). rewrite El in El'. injection El' as <-.
  unfold rt_completion_done. rewrite (bind_run _ _ _ _ _ (get_comp_run n f s En)). case_bool_decide as Hfc.
  - subst f. specialize (He eq_refl). subst l. exists (ds_kernel s). rewrite insert_id by done. destruct s. by split_and!.
  - destruct (signal_sys (QComp n) l c (ds_kernel s) (dn_sys _ Hi) eq_refl El Hc) as (k' & E & Hw & Hs & Hsh & Eq).
    assert (Hl : tail l = []).
    { destruct l as [|u [|v l]]; [done|done|]. pose proof (proj1 (si_wf _ _ (ki_sched _ _ (sy_kinv _ (dn_sys _ Hi)))) _ _ El) as Hnd.
      apply NoDup_cons in Hnd as [Hnd _]. destruct Hnd. rewrite (Hu u v); apply elem_of_cons; rewrite ?elem_of_cons; auto. }
    rewrite Hl in Eq. exists k'. split; [|split; [done|split; [done|]]].
    + unfold put_comp. rewrite (bind_run _ _ s tt (set_ds_comps (<[n := RT_COMPLETED]> (ds_comps s)) s)) by done. by apply kern_run.
    + assert (Hi' : drv_inv (set_ds_kernel k' s)) by (by apply drv_inv_shrink).
      change (drv_inv (set_ds_comps (<[n := RT_COMPLETED]> (ds_comps (set_ds_kernel k' s))) (set_ds_kernel k' s))).
      apply (drv_inv_comp _ n _ []); [done|done|]. split_and!; [by left|done|]. by intros u v ?%not_elem_of_nil.
Qed.
Lemma comp_resume_ok n t th s :
  drv_inv s -> is_Some (ds_comps s !! n) -> s_threads (k_sched (ds_kernel s)) !! t = Some th ->
  exists s', rt_completion_wait_resume n t s = Some (th_error th, s') /\ s' = set_ds_comps (<[n := RT_UNCOMPLETED]> (ds_comps s)) s /\ drv_inv s'.
Proof.
  intros Hi Hn Et. eexists. split; [|split; [done|by apply drv_inv_clear]]. unfold rt_completion_wait_resume.
  rewrite (bind_run _ _ _ _ _ (kern_run _ s th _ (get_thread_run _ _ _ Et))), set_ds_kernel_id. done.
Qed.

(** ** The ring of a data queue *)

Lemma dq_full q items : dq_rep q items -> (dq_put_index q - dq_get_index q = dq_size q <-> Z.of_nat (length items) = dq_size q).
Proof. intros []. lia. Qed.
Lemma dq_empty q items : dq_rep q items -> (dq_get_index q = dq_put_index q <-> items = []).
Proof. intros []. destruct items; cbn in *; [split; [done|lia]|split; [lia|done]]. Qed.
Lemma mod_window (g i j size : Z) : 0 < size -> 0 <= i < j -> j < size -> (g + i) mod size <> (g + j) mod size.
Proof.
  intros Hs Hi Hj E. assert (H0 : (j - i) mod size = 0) by (replace (j - i) with ((g + j) - (g + i)) by lia; rewrite Zminus_mod, E, Z.sub_diag; by apply Z.mod_0_l; lia).
  rewrite Z.mod_small in H0 by lia. lia.
Qed.
Lemma ring_index_lt q items z : dq_rep q items -> (Z.to_nat (z mod dq_size q) < length (dq_queue q))%nat.
Proof. intros []. pose proof (Z.mod_pos_bound z (dq_size q)). lia. Qed.

Lemma dq_store_ok q items x :
  dq_rep q items -> Z.of_nat (length items) < dq_size q -> dq_put_index q + 1 < 2 ^ 16 ->
  exists q', dq_store x q = Some q' /\ dq_rep q' (items ++ [x]) /\ dq_put_index q' = dq_put_index q + 1 /\
    dq_size q' = dq_size q /\ dq_evt_notify q' = dq_evt_notify q.
Proof.
  intros Hr Hl Hb. pose proof Hr as [Hs Hq Hg Hp _ Hf Hi]. unfold dq_store. rewrite !bool_decide_true by (lia || by eapply ring_index_lt). cbn.
  eexists. split; [done|]. rewrite (wrap_id 16) by lia. split; [|done]. split; cbn; rewrite ?length_app, ?length_insert; cbn; try done; try lia.
  intros i y [Ey|[Hi1 Ey]]%lookup_app_Some.
  - rewrite list_lookup_insert_ne; [by apply Hi|]. apply lookup_lt_Some in Ey. rewrite Hp. pose proof (mod_window (dq_get_index q) (Z.of_nat i) (Z.of_nat (length items)) (dq_size q)).
    pose proof (Z.mod_pos_bound (dq_get_index q + Z.of_nat i) (dq_size q)). pose proof (Z.mod_pos_bound (dq_get_index q + Z.of_nat (length items)) (dq_size q)). lia.
  - apply list_lookup_singleton_Some in Ey as [Ei <-]. replace (dq_get_index q + Z.of_nat i) with (dq_put_index q) by lia.
    apply list_lookup_insert_eq. by eapply ring_index_lt.
Qed.
Lemma dq_first_ok q x items : dq_rep q (x :: items) -> dq_first q = Some x.
Proof. intros []. unfold dq_first. rewrite bool_decide_true by lia. specialize (dr_items0 0%nat x eq_refl). by rewrite Z.add_0_r in dr_items0. Qed.
Lemma dq_drop_ok q x items : dq_rep q (x :: items) -> dq_rep (set_dq_get_index (u16 (dq_get_index q + 1)) q) items.
Proof.
  intros []. cbn [length] in *. rewrite (wrap_id 16) by lia. split; cbn; try done; try lia. intros i y Ey.
  rewrite <- (dr_items0 (S i) y Ey). do 3 f_equal. lia.
Qed.

(** ** Push, pop and peak *)

Lemma get_dq_run n q s : ds_dqs s !! n = Some q -> get_dq n s = Some (q, s).
Proof. intros E. unfold get_dq. by rewrite E. Qed.
Definition with_dq (n : nat) (q : rt_data_queue) (s : dstate) : dstate := set_ds_dqs (<[n := q]> (ds_dqs s)) s.
Lemma drv_inv_dq s n q items : drv_inv s -> is_Some (ds_dqs s !! n) -> dq_rep q items -> drv_inv (with_dq n q s).
Proof.
  intros [Hs Hc Hd H1 H2] Hn Hq. split; cbn; try done.
  - intros m p [[<- <-]|[_ E]]%lookup_insert_Some; [by exists items|by apply (Hd m)].
  - intros m [<-|E]%lookup_insert_is_Some'; [by apply H1|by apply H1].
  - intros m [<-|E]%lookup_insert_is_Some'; [by apply H2|by apply H2].
Qed.
(** A thread that sleeps on one of the lists of a data queue. *)
Lemma drv_inv_slept h n t timeout s k' :
  drv_inv s -> h = QDqPush n \/ h = QDqPop n -> slept h t timeout (ds_kernel s) k' -> sys_inv k' -> is_Some (queue_of k' h) -> drv_inv (set_ds_kernel k' s).
Proof.
  intros Hi Hh Hb Hs Hq. apply drv_inv_kernel; try done.
  - intros m l El. exists l. rewrite (slept_other _ _ _ _ _ (QComp m) Hb); [done|done|by destruct Hh as [-> | ->]].
  - intros m Hm. destruct (decide (QDqPush m = h)) as [->|Hne]; [done|]. by rewrite (slept_other _ _ _ _ _ (QDqPush m) Hb).
  - intros m Hm. destruct (decide (QDqPop m = h)) as [->|Hne]; [done|]. by rewrite (slept_other _ _ _ _ _ (QDqPop m) Hb).
Qed.

(** Storing hands the item to a waiting receiver or notifies; a full queue refuses, or blocks
    the caller behind the other senders. *)
Inductive push_outcome (n t : nat) (x : rt_data_item) (timeout : Z) (q : rt_data_queue) (items : list rt_data_item) (s : dstate) :
    (Z * option Z) + nat -> dstate -> Prop :=
| push_stored q' l k' ev :
    Z.of_nat (length items) < dq_size q -> dq_rep q' (items ++ [x]) -> dq_put_index q' = dq_put_index q + 1 -> dq_size q' = dq_size q ->
    queue_of (ds_kernel s) (QDqPop n) = Some l -> signalled (QDqPop n) l (ds_kernel s) k' ->
    ev = match l with [] => notify q RT_DATAQUEUE_EVENT_PUSH | _ => None end ->
    push_outcome n t x timeout q items s (inl (RT_EOK, ev)) (set_ds_kernel k' (with_dq n q' s))
| push_refused : Z.of_nat (length items) = dq_size q -> timeout = 0 -> push_outcome n t x timeout q items s (inl (- RT_ETIMEOUT, None)) s
| push_blocks k' :
    Z.of_nat (length items) = dq_size q -> timeout <> 0 -> slept (QDqPush n) t timeout (ds_kernel s) k' ->
    push_outcome n t x timeout q items s (inr t) (set_ds_kernel k' s).

Lemma push_ok n t x timeout q items s :
  drv_inv s -> running (ds_kernel s) t -> ds_dqs s !! n = Some q -> dq_rep q items -> dq_put_index q + 1 < 2 ^ 16 -> timeout < HALF ->
  exists r s', push_loop n x timeout s = Some (r, s') /\ push_outcome n t x timeout q items s r s' /\ drv_inv s'.
Proof.
  intros Hi Hr En Hq Hb Ht. pose proof (proj1 Hr) as Hc. unfold push_loop. rewrite (bind_run _ _ _ _ _ (get_dq_run n q s En)).
  rewrite (bool_decide_ext _ _ (dq_full q items Hq)). case_bool_decide as Hfull; [case_bool_decide as H0|].
  - eexists _, _. split; [done|]. split; [by apply push_refused|done].
  - destruct (dn_push _ Hi n ltac:(by eexists)) as [l El].
    destruct (sleep_on_ok (QDqPush n) t timeout l (ds_kernel s) (dn_sys _ Hi) Hr eq_refl El Ht) as (k' & E & Hsl & Hs & El').
    rewrite (bind_run _ _ _ _ _ (kern_run _ s t _ (self_run _ _ Hc))), set_ds_kernel_id, (bind_run _ _ _ _ _ (kern_run _ s _ _ E)).
    eexists _, _. split; [done|]. split; [by apply push_blocks|]. apply (drv_inv_slept (QDqPush n) n t timeout); [done|by left|done|done|by eexists].
  - pose proof (dr_fits _ _ Hq). destruct (dq_store_ok q items x Hq ltac:(lia) Hb) as (q' & E & Hq' & Hp' & Hsz & Hev). rewrite E.
    assert (Hi1 : drv_inv (with_dq n q' s)) by (by eapply drv_inv_dq; [|eexists|]).
    destruct (dn_pop _ Hi n ltac:(by eexists)) as [l El]. change (ds_kernel s) with (ds_kernel (with_dq n q' s)) in *.
    destruct (signal_sys (QDqPop n) l t (ds_kernel (with_dq n q' s)) (dn_sys _ Hi1) eq_refl El Hc) as (k' & Ek & Hw & Hs & Hsh & _).
    exists (inl (RT_EOK, match l with [] => notify q RT_DATAQUEUE_EVENT_PUSH | _ => None end)), (set_ds_kernel k' (with_dq n q' s)).
    split; [|split; [by eapply push_stored; eauto; lia|by apply drv_inv_shrink]].
    rewrite (bind_run (liftO _) _ s q' s), (bind_run (put_dq n q') _ s tt (with_dq n q' s)) by done.
    rewrite (bind_run _ _ _ _ _ (kern_run _ (with_dq n q' s) _ _ (kq_isempty_run _ _ _ El))), set_ds_kernel_id.
    unfold ipc_signal in Ek. rewrite (bind_run _ _ _ _ _ (kq_isempty_run _ _ _ El)) in Ek. unfold notify. rewrite Hev. destruct l as [|u l].
    + rewrite bool_decide_true in Ek |- * by done. injection Ek as <-. by destruct s.
    + rewrite bool_decide_false in Ek |- * by done. by rewrite (bind_run _ _ _ _ _ (kern_run _ (with_dq n q' s) _ _ Ek)).
Qed.

(** The oldest item comes out; at the low water mark a waiting sender is woken.  An empty
    queue refuses or blocks the caller behind the other receivers. *)
Inductive pop_outcome (n t : nat) (timeout : Z) (q : rt_data_queue) (items : list rt_data_item) (s : dstate) :
    (Z * option rt_data_item * option Z) + nat -> dstate -> Prop :=
| pop_taken x rest q' k' ev :
    items = x :: rest -> dq_rep q' rest -> dq_put_index q' = dq_put_index q -> dq_size q' = dq_size q ->
    (if bool_decide (Z.of_nat (length rest) <= dq_lwm q)
     then ev = notify q RT_DATAQUEUE_EVENT_LWM /\ exists l, queue_of (ds_kernel s) (QDqPush n) = Some l /\ signalled (QDqPush n) l (ds_kernel s) k'
     else ev = notify q RT_DATAQUEUE_EVENT_POP /\ k' = ds_kernel s) ->
    pop_outcome n t timeout q items s (inl (RT_EOK, Some x, ev)) (set_ds_kernel k' (with_dq n q' s))
| pop_refused : items = [] -> timeout = 0 -> pop_outcome n t timeout q items s (inl (- RT_ETIMEOUT, None, None)) s
| pop_blocks k' :
    items = [] -> timeout <> 0 -> slept (QDqPop n) t timeout (ds_kernel s) k' ->
    pop_outcome n t timeout q items s (inr t) (set_ds_kernel k' s).

Lemma pop_ok n t timeout q items s :
  drv_inv s -> running (ds_kernel s) t -> ds_dqs s !! n = Some q -> dq_rep q items -> timeout < HALF ->
  exists r s', pop_loop n timeout s = Some (r, s') /\ pop_outcome n t timeout q items s r s' /\ drv_inv s'.
Proof.
  intros Hi Hr En Hq Ht. pose proof (proj1 Hr) as Hc. unfold pop_loop. rewrite (bind_run _ _ _ _ _ (get_dq_run n q s En)).
  rewrite (bool_decide_ext _ _ (dq_empty q items Hq)). case_bool_decide as Hempty; [case_bool_decide as H0|].
  - eexists _, _. split; [done|]. split; [by apply pop_refused|done].
  - destruct (dn_pop _ Hi n ltac:(by eexists)) as [l El].
    destruct (sleep_on_ok (QDqPop n) t timeout l (ds_kernel s) (dn_sys _ Hi) Hr eq_refl El Ht) as (k' & E & Hsl & Hs & El').
    rewrite (bind_run _ _ _ _ _ (kern_run _ s t _ (self_run _ _ Hc))), set_ds_kernel_id, (bind_run _ _ _ _ _ (kern_run _ s _ _ E)).
    eexists _, _. split; [done|]. split; [by apply pop_blocks|]. apply (drv_inv_slept (QDqPop n) n t timeout); [done|by right|done|done|by eexists].
  - destruct items as [|x rest]; [done|]. rewrite (dq_first_ok q x rest Hq). pose proof (dq_drop_ok q x rest Hq) as Hq'.
    set (q' := set_dq_get_index (u16 (dq_get_index q + 1)) q) in *.
    assert (Hi1 : drv_inv (with_dq n q' s)) by (by eapply drv_inv_dq; [|eexists|]).
    rewrite (bind_run (liftO _) _ s x s), (bind_run (put_dq n q') _ s tt (with_dq n q' s)) by done.
    assert (Hlen : dq_put_index q' - dq_get_index q' = Z.of_nat (length rest)) by (destruct Hq'; lia). rewrite Hlen.
    assert (Hlwm : dq_lwm q' = dq_lwm q) by done. rewrite Hlwm. case_bool_decide as Hl.
    + destruct (dn_push _ Hi n ltac:(by eexists)) as [l El]. change (ds_kernel s) with (ds_kernel (with_dq n q' s)) in *.
      destruct (signal_sys (QDqPush n) l t (ds_kernel (with_dq n q' s)) (dn_sys _ Hi1) eq_refl El Hc) as (k' & Ek & Hw & Hs & Hsh & _).
      rewrite (bind_run _ _ _ _ _ (kern_run _ (with_dq n q' s) _ _ Ek)). eexists _, _. split; [done|].
      split; [|by apply drv_inv_shrink]. eapply pop_taken; try done. rewrite bool_decide_true by done. split; [done|]. by exists l.
    + eexists _, _. split; [done|]. split; [|done]. replace (with_dq n q' s) with (set_ds_kernel (ds_kernel s) (with_dq n q' s)) by (by destruct s).
      eapply pop_taken; try done. by rewrite bool_decide_false.
Qed.
Lemma peak_ok n q items s :
  ds_dqs s !! n = Some q -> dq_rep q items ->
  rt_data_queue_peak n s = Some (match items with [] => (- RT_EEMPTY, None) | x :: _ => (RT_EOK, Some x) end, s).
Proof.
  intros En Hq. unfold rt_data_queue_peak. rewrite (bind_run _ _ _ _ _ (get_dq_run n q s En)). rewrite (bool_decide_ext _ _ (dq_empty q items Hq)).
  destruct items as [|x rest]; [by rewrite bool_decide_true|]. by rewrite bool_decide_false, (dq_first_ok q x rest Hq) by done.
Qed.

(** ** Reset *)

Lemma lock_calm n k : calm PThread k (set_k_sched (set_s_lock_nest n (k_sched k)) k).
Proof. split; [apply keeps_ikeep, ikeep_sched| |done]. apply quiet_same; [done|]. intros u th Et. by exists th. Qed.
Lemma kinv_lock n k : kinv None k -> kinv None (set_k_sched (set_s_lock_nest n (k_sched k)) k).
Proof. intros []. split; try done. by apply sinv_lock_nest. Qed.
Lemma lock_sys n k : sys_inv k -> sys_inv (set_k_sched (set_s_lock_nest n (k_sched k)) k).
Proof. intros Hs. apply (sys_calm PThread k); [done|apply kinv_lock, Hs|done|apply lock_calm]. Qed.

(** Leaving a critical section, and a call of the scheduler. *)
Lemma exit_sys k : sys_inv k -> 1 <= s_lock_nest (k_sched k) < 2 ^ 15 -> is_Some (s_current (k_sched k)) ->
  exists k', on_sched rt_exit_critical k = Some (tt, k') /\ sys_inv k' /\ calm PThread k k' /\ is_Some (s_current (k_sched k')) /\
    forall h, is_wait h -> queue_of k' h = queue_of k h.
Proof.
  intros Hs Hn Hc. destruct (exit_critical_ok (k_sched k) (ki_sched _ _ (sy_kinv _ Hs)) Hn) as (s' & E & Hs' & _ & Hf & _ & Hcur).
  set (k1 := set_k_sched (set_s_lock_nest (s_lock_nest (k_sched k) - 1) (k_sched k)) k).
  assert (Hs1 : sys_inv k1) by (by apply lock_sys). assert (Hcalm : calm PThread k (set_k_sched s' k1)) by (etransitivity; [apply lock_calm|by apply (calm_frame PThread k1)]).
  exists (set_k_sched s' k1). split; [unfold on_sched, zoom; by rewrite E|]. split; [|split; [done|split; [by apply Hcur|]]].
  - apply (sys_calm PThread k); try done. apply kinv_frame; [apply Hs1|done|done].
  - intros h Hw. by apply (wait_frame (k_sched k1)).
Qed.
Lemma schedule_sys k c : sys_inv k -> s_current (k_sched k) = Some c ->
  exists k', on_sched rt_schedule k = Some (tt, k') /\ sys_inv k' /\ calm PThread k k' /\ is_Some (s_current (k_sched k')) /\
    forall h, is_wait h -> queue_of k' h = queue_of k h.
Proof.
  intros Hs Hc. destruct (kschedule_ok k c (sy_kinv _ Hs) Hc) as (s' & E & Hk & (_ & Hf & Hcur & _)). eexists. split; [exact E|].
  assert (Hcalm : calm PThread k (set_k_sched s' k)) by (by apply calm_frame). split; [by apply (sys_calm PThread k)|]. split; [done|]. split; [done|].
  intros h Hw. by apply wait_frame.
Qed.

Lemma reset_ok n c s :
  drv_inv s -> is_Some (ds_dqs s !! n) -> s_current (k_sched (ds_kernel s)) = Some c -> can_lock (ds_kernel s) ->
  exists k', rt_data_queue_reset n s = Some (tt, set_ds_kernel k' s) /\ drv_inv (set_ds_kernel k' s) /\
    queue_of k' (QDqPush n) = Some [] /\ queue_of k' (QDqPop n) = Some [].
Proof.
  intros Hi [q En] Hc Hl. pose proof (dn_sys _ Hi) as Hs. set (k := ds_kernel s) in *. destruct (dn_push _ Hi n ltac:(by eexists)) as [lh Eh]. destruct (dn_pop _ Hi n ltac:(by eexists)) as [lo Eo].
  set (k1 := set_k_sched (set_s_lock_nest (s_lock_nest (k_sched k) + 1) (k_sched k)) k).
  assert (E1 : on_sched rt_enter_critical k = Some (tt, k1)) by (unfold on_sched, zoom; by rewrite (enter_critical_run _ Hl)).
  assert (Hs1 : sys_inv k1) by (by apply lock_sys).
  destruct (resume_all_sys k1 Hs1 (QDqPop n) lo I Eo) as (k2 & E2 & Hs2 & Hw2).
  assert (Eh1 : queue_of k1 (QDqPush n) = Some lh) by exact Eh.
  assert (Eh2 : exists l2, queue_of k2 (QDqPush n) = Some l2) by (destruct Hw2 as (_ & _ & _ & _ & _ & Hq & _); rewrite Hq, Eh1 by done; by eexists).
  destruct Eh2 as [l2 Eh2]. destruct (resume_all_sys k2 Hs2 (QDqPush n) l2 I Eh2) as (k3 & E3 & Hs3 & Hw3).
  assert (Hc3 : s_current (k_sched k3) = Some c) by (destruct Hw2 as (_ & Hc2 & _), Hw3 as (_ & Hc3 & _); by rewrite Hc3, Hc2).
  destruct (exit_sys k3 Hs3) as (k4 & E4 & Hs4 & Hcalm4 & [c4 Hc4] & Hq4); [|by eexists|].
  { destruct Hw2 as (_ & _ & Hn2 & _), Hw3 as (_ & _ & Hn3 & _). rewrite Hn3, Hn2. cbn. unfold can_lock in Hl. fold k. lia. }
  destruct (schedule_sys k4 c4 Hs4 Hc4) as (k5 & E5 & Hs5 & Hcalm5 & _ & Hq5).
  assert (Hcalm : calm PThread k k5).
  { etransitivity; [apply lock_calm|]. etransitivity; [by apply (calm_woken_all lo _ k2)|]. etransitivity; [by apply (calm_woken_all l2 _ k3)|]. by etransitivity. }
  exists k5. split; [|split; [|split]].
  - unfold rt_data_queue_reset. rewrite (bind_run _ _ _ _ _ (get_dq_run n q s En)). apply kern_run.
    fold k. by rewrite (bind_run _ _ _ _ _ E1), (bind_run _ _ _ _ _ E2), (bind_run _ _ _ _ _ E3), (bind_run _ _ _ _ _ E4).
  - apply drv_inv_shrink; [done|done|]. by apply (calm_shrink PThread).
  - rewrite Hq5, Hq4 by done. by apply (woken_all_queue (QDqPush n) l2 k2).
  - rewrite Hq5, Hq4 by done. pose proof (woken_all_queue (QDqPop n) lo k1 k2 Hw2 I Eo) as Eo2. destruct Hw3 as (_ & _ & _ & _ & _ & Hq & _). rewrite Hq, Eo2 by done. done.
Qed.

(** ** Runs of calls *)

(** What a push put into the queue, and what a pop took out of it. *)
Definition sent (x : rt_data_item) (r : (Z * option Z) + nat) : list rt_data_item :=
  match r with inl (e, _) => if bool_decide (e = RT_EOK) then [x] else [] | inr _ => [] end.
Definition got (r : (Z * option rt_data_item * option Z) + nat) : list rt_data_item :=
  match r with inl (_, Some x, _) => [x] | _ => [] end.

(** The calls of all threads, first halves and second halves, and whatever else happens in the
    kernel between them. *)
Inductive dq_step (n : nat) (s : dstate) : list rt_data_item -> list rt_data_item -> dstate -> Prop :=
| step_push t x timeout r s' : running (ds_kernel s) t -> timeout < HALF ->
    rt_data_queue_push n x timeout s = Some (r, s') -> dq_step n s (sent x r) [] s'
| step_push_resume t x timeout r s' : running (ds_kernel s) t -> timeout < HALF ->
    rt_data_queue_push_resume n t x timeout s = Some (r, s') -> dq_step n s (sent x r) [] s'
| step_pop t timeout r s' : running (ds_kernel s) t -> timeout < HALF ->
    rt_data_queue_pop n timeout s = Some (r, s') -> dq_step n s [] (got r) s'
| step_pop_resume t timeout r s' : running (ds_kernel s) t -> timeout < HALF ->
    rt_data_queue_pop_resume n t timeout s = Some (r, s') -> dq_step n s [] (got r) s'
| step_reset t s' : running (ds_kernel s) t -> can_lock (ds_kernel s) -> rt_data_queue_reset n s = Some (tt, s') -> dq_step n s [] [] s'
| step_kernel k' : sys_inv k' -> lists_shrink (ds_kernel s) k' -> dq_step n s [] [] (set_ds_kernel k' s).
Inductive dq_run (n : nat) : dstate -> list rt_data_item -> list rt_data_item -> dstate -> Prop :=
| run_done s : dq_run n s [] [] s
| run_step s p1 g1 s1 p2 g2 s2 : dq_step n s p1 g1 s1 -> dq_run n s1 p2 g2 s2 -> dq_run n s (p1 ++ p2) (g1 ++ g2) s2.

(** The queue [n] of [s] holds [items] and has seen [put] pushes. *)
Definition holds (n : nat) (size put : Z) (items : list rt_data_item) (s : dstate) : Prop :=
  exists q, ds_dqs s !! n = Some q /\ dq_rep q items /\ dq_put_index q = put /\ dq_size q = size.

Lemma push_holds n t x timeout q items s r s' :
  ds_dqs s !! n = Some q -> dq_rep q items -> push_outcome n t x timeout q items s r s' ->
  holds n (dq_size q) (dq_put_index q + Z.of_nat (length (sent x r))) (items ++ sent x r) s'.
Proof.
  intros En Hq [q' l k' ev Hl Hq' Hp' Hsz _ _ _|Hl _|k' Hl _ _]; cbn [sent].
  - rewrite bool_decide_true by done. exists q'. split; [apply lookup_insert_eq|]. done.
  - rewrite bool_decide_false by done. exists q. cbn. rewrite app_nil_r, Z.add_0_r. done.
  - exists q. cbn. rewrite app_nil_r, Z.add_0_r. done.
Qed.
Lemma pop_holds n t timeout q items s r s' :
  ds_dqs s !! n = Some q -> dq_rep q items -> pop_outcome n t timeout q items s r s' ->
  exists rest, items = got r ++ rest /\ holds n (dq_size q) (dq_put_index q) rest s'.
Proof.
  intros En Hq [x rest q' k' ev -> Hq' Hp' Hsz _| -> _|k' -> _ _]; cbn.
  - exists rest. split; [done|]. exists q'. cbn. split; [apply lookup_insert_eq|]. done.
  - exists []. split; [done|]. by exists q.
  - exists []. split; [done|]. by exists q.
Qed.

Lemma step_holds n s p g s' size put items :
  drv_inv s -> holds n size put items s -> put + 1 < 2 ^ 16 -> dq_step n s p g s' ->
  drv_inv s' /\ exists items', items ++ p = g ++ items' /\ holds n size (put + Z.of_nat (length p)) items' s'.
Proof.
  intros Hi (q & En & Hq & <- & <-) Hb Hstep.
  assert (Hpush : forall t x timeout r s', running (ds_kernel s) t -> timeout < HALF -> push_loop n x timeout s = Some (r, s') ->
    drv_inv s' /\ exists items', items ++ sent x r = [] ++ items' /\ holds n (dq_size q) (dq_put_index q + Z.of_nat (length (sent x r))) items' s').
  { intros t x timeout r s1 Hr Ht E. destruct (push_ok n t x timeout q items s Hi Hr En Hq Hb Ht) as (r' & s2 & E' & Ho & Hi'). rewrite E in E'. injection E' as <- <-.
    split; [done|]. exists (items ++ sent x r). split; [done|]. by apply (push_holds n t x timeout q items s). }
  assert (Hpop : forall t timeout r s', running (ds_kernel s) t -> timeout < HALF -> pop_loop n timeout s = Some (r, s') ->
    drv_inv s' /\ exists items', items ++ [] = got r ++ items' /\ holds n (dq_size q) (dq_put_index q + Z.of_nat (length (@nil rt_data_item))) items' s').
  { intros t timeout r s1 Hr Ht E. destruct (pop_ok n t timeout q items s Hi Hr En Hq Ht) as (r' & s2 & E' & Ho & Hi'). rewrite E in E'. injection E' as <- <-.
    split; [done|]. cbn. rewrite app_nil_r, Z.add_0_r. by apply (pop_holds n t timeout q items s). }
  assert (Hsame : forall k', holds n (dq_size q) (dq_put_index q + Z.of_nat (length (@nil rt_data_item))) items (set_ds_kernel k' s)).
  { intros k'. exists q. cbn. by rewrite Z.add_0_r. }
  destruct Hstep as [t x timeout r s1 Hr Ht E|t x timeout r s1 Hr Ht E|t timeout r s1 Hr Ht E|t timeout r s1 Hr Ht E|t s1 Hr Hl E|k' Hk Hsh].
  - by apply (Hpush t x timeout).
  - pose proof Hr as [_ (th & Et & _)]. unfold rt_data_queue_push_resume in E. rewrite (bind_run _ _ _ _ _ (kern_run _ s th _ (get_thread_run _ _ _ Et))), set_ds_kernel_id in E.
    case_bool_decide as He; [|by apply (Hpush t x timeout)]. injection E as <- <-. cbn. rewrite bool_decide_false by done. split; [done|]. exists items. split; [by rewrite app_nil_r|].
    specialize (Hsame (ds_kernel s)). by rewrite set_ds_kernel_id in Hsame.
  - by apply (Hpop t timeout).
  - pose proof Hr as [_ (th & Et & _)]. unfold rt_data_queue_pop_resume in E. rewrite (bind_run _ _ _ _ _ (kern_run _ s th _ (get_thread_run _ _ _ Et))), set_ds_kernel_id in E.
    case_bool_decide as He; [|by apply (Hpop t timeout)]. injection E as <- <-. split; [done|]. exists items. split; [by rewrite app_nil_r|].
    specialize (Hsame (ds_kernel s)). by rewrite set_ds_kernel_id in Hsame.
  - destruct (reset_ok n t s Hi ltac:(by eexists) (proj1 Hr) Hl) as (k' & E' & Hi' & _). rewrite E in E'. injection E' as ->. split; [done|]. exists items. by rewrite app_nil_r.
  - split; [by apply drv_inv_shrink|]. exists items. by rewrite app_nil_r.
Qed.

Lemma run_holds n s p g s' size put items :
  dq_run n s p g s' -> drv_inv s -> holds n size put items s -> put + Z.of_nat (length p) + 1 < 2 ^ 16 ->
  drv_inv s' /\ exists items', items ++ p = g ++ items' /\ holds n size (put + Z.of_nat (length p)) items' s'.
Proof.
  intros Hrun. revert put items. induction Hrun as [s|s p1 g1 s1 p2 g2 s2 Hstep Hrun IH]; intros put items Hi Hh Hb.
  - split; [done|]. exists items. cbn. by rewrite app_nil_r, Z.add_0_r.
  - rewrite length_app in *. destruct (step_holds n s p1 g1 s1 size put items Hi Hh ltac:(lia) Hstep) as (Hi1 & items1 & E1 & Hh1).
    destruct (IH (put + Z.of_nat (length p1)) items1 Hi1 Hh1 ltac:(lia)) as (Hi2 & items2 & E2 & Hh2). split; [done|]. exists items2. split.
    + by rewrite app_assoc, E1, <- !app_assoc, E2.
    + by replace (put + Z.of_nat (length p1 + length p2)) with (put + Z.of_nat (length p1) + Z.of_nat (length p2)) by lia.
Qed.

(** ** Initialisation *)

Lemma shrink_with_list h k : no_waiters k h -> lists_shrink k (with_list h k).
Proof.
  intros Hn h' l Hh El. cbn. destruct (decide (h' = h)) as [->|Hne]; [rewrite lookup_insert_eq|rewrite lookup_insert_ne by done].
  - destruct Hn as [E|E]; rewrite El in E; [done|]. injection E as ->. by exists [].
  - by exists l.
Qed.
Lemma with_list_sys h k : part_of h = PDriver -> sys_inv k -> no_waiters k h -> sys_inv (with_list h k).
Proof.
  intros Hh Hs Hn. apply (sys_calm PDriver k); [done| |done|].
  - apply kinv_with_list; [apply Hs|by apply is_wait_driver|done].
  - by apply calm_with_list.
Qed.

Lemma comp_init_ok n s : drv_inv s -> no_waiters (ds_kernel s) (QComp n) ->
  exists s', rt_completion_init n s = Some (tt, s') /\ drv_inv s' /\ ds_comps s' !! n = Some RT_UNCOMPLETED /\ queue_of (ds_kernel s') (QComp n) = Some [].
Proof.
  intros Hi Hn. eexists. split.
  - unfold rt_completion_init, put_comp. rewrite (bind_run (modify _) _ s tt (set_ds_comps (<[n := RT_UNCOMPLETED]> (ds_comps s)) s)) by done.
    apply kern_run. by apply list_init_run.
  - cbn. split; [|split; apply lookup_insert_eq].
    assert (Hi1 : drv_inv (set_ds_kernel (with_list (QComp n) (ds_kernel s)) s)).
    { apply drv_inv_shrink; [done| |by apply shrink_with_list]. apply with_list_sys; [done|apply Hi|done]. }
    apply (drv_inv_comp _ n RT_UNCOMPLETED []) in Hi1; [done|apply lookup_insert_eq|]. split_and!; [by right|done|]. by intros u v ?%not_elem_of_nil.
Qed.

Lemma dq_init_ok n size lwm evt mem s :
  drv_inv s -> no_waiters (ds_kernel s) (QDqPush n) -> no_waiters (ds_kernel s) (QDqPop n) -> 0 < size < 2 ^ 16 -> Z.of_nat (length mem) = size ->
  exists s', rt_data_queue_init n size lwm evt (Some mem) s = Some (RT_EOK, s') /\ drv_inv s' /\ holds n size 0 [] s'.
Proof.
  intros Hi Hn1 Hn2 Hsz Hm. set (k1 := with_list (QDqPush n) (ds_kernel s)). assert (Hs1 : sys_inv k1) by (apply with_list_sys; [done|apply Hi|done]).
  assert (Hn2' : no_waiters k1 (QDqPop n)) by (unfold no_waiters, k1; cbn; by rewrite lookup_insert_ne). set (k2 := with_list (QDqPop n) k1).
  assert (Hs2 : sys_inv k2) by (by apply with_list_sys). set (q := RtDataQueue size lwm 0 0 mem evt).
  assert (Hi2 : drv_inv (set_ds_kernel k2 s)).
  { change (set_ds_kernel k2 s) with (set_ds_kernel k2 (set_ds_kernel k1 s)). apply drv_inv_shrink; [apply drv_inv_shrink; [done|done|by apply shrink_with_list]|done|by apply (shrink_with_list (QDqPop n) k1)]. }
  assert (Hq : dq_rep q []) by (by split; cbn; try lia). exists (with_dq n q (set_ds_kernel k2 s)). split; [|split].
  - unfold rt_data_queue_init. rewrite (bind_run _ _ _ _ _ (kern_run _ s _ _ (list_init_run _ _ Hn1))).
    by rewrite (bind_run _ _ _ _ _ (kern_run _ (set_ds_kernel k1 s) _ _ (list_init_run _ _ Hn2'))).
  - destruct Hi2 as [H1 Hc Hd H2 H3]. split; [done|done|..]; cbn [ds_dqs with_dq set_ds_dqs set_ds_kernel ds_kernel].
    + intros m p [[<- <-]|[_ E]]%lookup_insert_Some; [by exists []|by apply (Hd m)].
    + intros m [<-|E]%lookup_insert_is_Some'; [|by apply H2]. unfold k2, k1; cbn. rewrite lookup_insert_ne, lookup_insert_eq by done. by eexists.
    + intros m [<-|E]%lookup_insert_is_Some'; [|by apply H3]. unfold k2, k1; cbn. rewrite lookup_insert_eq. by eexists.
  - exists q. cbn. rewrite lookup_insert_eq. done.
Qed.

(** ** Properties *)

(** C17: a thread that waits for a completion is woken by rt_completion_done: the thread goes
    to sleep as the only waiter, and in every later state in which it still waits,
    rt_completion_done makes it ready with its timer stopped, and its call returns RT_EOK
    with the completion reset.  A completion that is done before anybody waits is remembered:
    the next wait returns RT_EOK at once, and the one after it would wait again. *)
Theorem completion_handshake n t timeout s :
  drv_inv s -> running (ds_kernel s) t -> ds_comps s !! n = Some RT_UNCOMPLETED -> queue_of (ds_kernel s) (QComp n) = Some [] ->
  timeout <> 0 -> timeout < HALF ->
  (exists s1, rt_completion_wait n timeout s = Some (inr t, s1) /\ drv_inv s1 /\ slept (QComp n) t timeout (ds_kernel s) (ds_kernel s1) /\
    forall s2 c th, drv_inv s2 -> ds_comps s2 !! n = Some RT_UNCOMPLETED -> queue_of (ds_kernel s2) (QComp n) = Some [t] ->
      s_current (k_sched (ds_kernel s2)) = Some c -> s_threads (k_sched (ds_kernel s2)) !! t = Some th -> th_error th = RT_EOK ->
      exists s3 th3 s4, rt_completion_done n s2 = Some (tt, s3) /\ drv_inv s3 /\ s_threads (k_sched (ds_kernel s3)) !! t = Some th3 /\ active th3 /\
        q_free (t_lists (k_timers (ds_kernel s3))) (ThreadTimer t) /\
        rt_completion_wait_resume n t s3 = Some (RT_EOK, s4) /\ drv_inv s4 /\ ds_comps s4 !! n = Some RT_UNCOMPLETED) /\
  (exists s1, rt_completion_done n s = Some (tt, s1) /\ rt_completion_done n s1 = Some (tt, s1) /\
    rt_completion_wait n timeout s1 = Some (inl RT_EOK, s) /\ rt_completion_wait n 0 s = Some (inl (- RT_ETIMEOUT), s)).
Proof.
  intros Hi Hr En El H0 Ht. split.
  - destruct (comp_wait_ok n t timeout RT_UNCOMPLETED s Hi Hr En El Ht) as (r & s1 & E & Ho & Hi1). inversion Ho as [|? ?|k' _ _ Hsl Eq]; subst; [done|done|].
    eexists. split; [exact E|]. split; [done|]. split; [done|]. intros s2 c th Hi2 En2 El2 Hc Et He.
    destruct (comp_done_ok n c RT_UNCOMPLETED [t] s2 Hi2 Hc En2 El2) as (k3 & E3 & Hw & _ & Hi3). cbn in Hw.
    destruct (wk_thread _ _ _ _ Hw th Et) as (th3 & Et3 & Ha & Eq3). apply (f_equal th_error) in Eq3. cbn in Eq3. rewrite He in Eq3.
    destruct (comp_resume_ok n t th3 _ Hi3 ltac:(cbn; rewrite lookup_insert_eq; by eexists) Et3) as (s4 & E4 & -> & Hi4). rewrite Eq3 in E4.
    eexists _, th3, _. split; [exact E3|]. split; [done|]. split; [done|]. split; [done|]. split; [apply (wk_timer _ _ _ _ Hw)|]. split; [exact E4|]. split; [done|].
    apply lookup_insert_eq.
  - eexists. split; [unfold rt_completion_done; rewrite (bind_run _ _ _ _ _ (get_comp_run n _ s En)), bool_decide_false by done|split; [|split]].
    + rewrite (bind_run (put_comp _ _) _ s tt (set_ds_comps (<[n := RT_COMPLETED]> (ds_comps s)) s)) by done. apply kern_run. cbn. unfold ipc_signal.
      by rewrite (bind_run _ _ _ _ _ (kq_isempty_run _ _ _ El)), bool_decide_true.
    + unfold rt_completion_done. erewrite bind_run; [|apply get_comp_run; apply lookup_insert_eq]. by rewrite bool_decide_true.
    + unfold rt_completion_wait. erewrite bind_run; [|apply get_comp_run; apply lookup_insert_eq]. rewrite bool_decide_false by (by intros []). munfold.
      destruct s. cbn. unfold set_ds_comps. cbn in *. by rewrite insert_insert_eq, insert_id.
    + unfold rt_completion_wait. by rewrite (bind_run _ _ _ _ _ (get_comp_run n _ s En)), bool_decide_true.
Qed.

(** C15: a data queue is a bounded FIFO queue under every interleaving.  Over every run of
    pushes and pops of all threads (their second halves after a wait included), resets and
    other kernel activity, the items popped are the items pushed, in this order and without
    loss, the rest is what the queue holds, never more than its size; and every further push
    or pop is defined and stores, hands out, refuses or blocks as the contents ask for.  This
    is so for the first 65534 pushes, up to which the 16-bit index does not wrap. *)
Theorem data_queue_fifo n size put items s pushed popped s' :
  drv_inv s -> holds n size put items s -> dq_run n s pushed popped s' -> put + Z.of_nat (length pushed) + 1 < 2 ^ 16 ->
  exists q' items', ds_dqs s' !! n = Some q' /\ dq_size q' = size /\ dq_rep q' items' /\ items ++ pushed = popped ++ items' /\ drv_inv s' /\
    rt_data_queue_peak n s' = Some (match items' with [] => (- RT_EEMPTY, None) | x :: _ => (RT_EOK, Some x) end, s') /\
    forall t timeout, running (ds_kernel s') t -> timeout < HALF ->
      (forall x, exists r s2, rt_data_queue_push n x timeout s' = Some (r, s2) /\ push_outcome n t x timeout q' items' s' r s2) /\
      (exists r s2, rt_data_queue_pop n timeout s' = Some (r, s2) /\ pop_outcome n t timeout q' items' s' r s2).
Proof.
  intros Hi Hh Hrun Hb. destruct (run_holds n s pushed popped s' size put items Hrun Hi Hh Hb) as (Hi' & items' & E & (q' & En & Hq & Hp & Hsz)).
  exists q', items'. split; [done|]. split; [done|]. split; [done|]. split; [done|]. split; [done|]. split; [by apply (peak_ok n q')|]. intros t timeout Hr Ht. split.
  - intros x. destruct (push_ok n t x timeout q' items' s' Hi' Hr En Hq ltac:(lia) Ht) as (r & s2 & E2 & Ho & _). by exists r, s2.
  - destruct (pop_ok n t timeout q' items' s' Hi' Hr En Hq Ht) as (r & s2 & E2 & Ho & _). by exists r, s2.
Qed.

(** A completion that is done between the timeout of the waiting thread and its next step is
    lost: the call returns -RT_ETIMEOUT and resets the flag that was just set. *)
Theorem completion_lost n c t th s :
  drv_inv s -> s_current (k_sched (ds_kernel s)) = Some c -> ds_comps s !! n = Some RT_UNCOMPLETED -> queue_of (ds_kernel s) (QComp n) = Some [] ->
  s_threads (k_sched (ds_kernel s)) !! t = Some th -> th_error th = - RT_ETIMEOUT ->
  exists s1 s2, rt_completion_done n s = Some (tt, s1) /\ ds_comps s1 !! n = Some RT_COMPLETED /\
    rt_completion_wait_resume n t s1 = Some (- RT_ETIMEOUT, s2) /\ ds_comps s2 !! n = Some RT_UNCOMPLETED.
Proof.
  intros Hi Hc En El Et He. destruct (comp_done_ok n c RT_UNCOMPLETED [] s Hi Hc En El) as (k' & E & Hw & _ & Hi'). cbn in Hw. subst k'.
  destruct (comp_resume_ok n t th _ Hi' ltac:(cbn; rewrite lookup_insert_eq; by eexists) Et) as (s2 & E2 & -> & _). rewrite He in E2.
  eexists _, _. split; [exact E|]. split; [apply lookup_insert_eq|]. split; [exact E2|]. apply lookup_insert_eq.
Qed.
