(* ===== verification/Parking.v ===== *)
(** * Threads that sleep on no list

    Wait queues and work queues do not link the threads that sleep: a thread suspends itself with
    rt_thread_suspend, and whoever wakes it calls rt_thread_resume.  This file holds what both need
    of the kernel: suspending ([park]), resuming and scheduling keep [sys_inv], and what they do to
    the other threads. *)
From S2P Require Import Prelude RtList Kernel Sched Timer Thread Lifecycle Ipc System.
From stdpp Require Import base gmap sets list.
From Stdlib Require Import ZArith Lia.
#[local] Open Scope Z_scope.

Definition thread_at (k : kernel) (t : nat) : option rt_thread := s_threads (k_sched k) !! t.
Definition asleep (th : rt_thread) : Prop := stat_of th = RT_THREAD_SUSPEND.

(** The threads in [P] are there and differ in scheduling at most. *)
Definition kept (P : nat -> Prop) (k k' : kernel) : Prop :=
  forall u th, P u -> thread_at k u = Some th -> exists th', thread_at k' u = Some th' /\ th_sched th th'.
Notation all_kept := (kept (fun _ => True)).
Notation others_kept t := (kept (fun u => u <> t)).

#[export] Instance kept_refl P : Reflexive (kept P).
Proof. intros k u th _ E. by exists th. Qed.
#[export] Instance kept_trans P : Transitive (kept P).
Proof.
  intros k1 k2 k3 H1 H2 u th HP E. destruct (H1 u th HP E) as (th1 & E1 & S1). destruct (H2 u th1 HP E1) as (th2 & E2 & S2).
  exists th2. split; [done|by etransitivity].
Qed.
Lemma kept_weaken (P Q : nat -> Prop) k k' : (forall u, P u -> Q u) -> kept Q k k' -> kept P k k'.
Proof. intros HPQ H u th HP. by apply H, HPQ. Qed.
Lemma kept_frame P k s' : sched_frame (k_sched k) s' -> kept P k (set_k_sched s' k).
Proof. intros Hf u th _ E. by apply (frame_lookup _ _ _ _ Hf E). Qed.

Lemma asleep_not_active th : asleep th -> ~ active th.
Proof. unfold asleep, active. intros -> [|]; done. Qed.
Lemma th_sched_active a b : th_sched a b -> active a -> active b.
Proof. intros [_ [E|[_ ?]]] Ha; [|done]. unfold active in *. by rewrite <- E. Qed.
Lemma th_sched_asleep a b : th_sched a b -> asleep a -> asleep b.
Proof. apply th_sched_suspend. Qed.

(** A call of the scheduler. *)
Lemma schedule_run k : sys_inv k -> is_Some (s_current (k_sched k)) ->
  exists k', on_sched rt_schedule k = Some (tt, k') /\ sys_inv k' /\ calm PThread k k' /\ all_kept k k' /\
    is_Some (s_current (k_sched k')) /\ k_timers k' = k_timers k.
Proof.
  intros Hs [c Hc]. destruct (kschedule_ok k c (sy_kinv _ Hs) Hc) as (s' & E & Hk & (_ & Hf & Hcur & _)). eexists. split; [exact E|].
  assert (Hcalm : calm PThread k (set_k_sched s' k)) by (by apply calm_frame).
  split_and!; [by apply (sys_calm PThread k)|done|by apply kept_frame|done|done].
Qed.

(** The caller goes to sleep, for [tick] ticks or until it is resumed. *)
Definition park (t : nat) (tick : Z) : M kernel unit :=
  rt_thread_suspend t ;;
  (if bool_decide (tick <> RT_WAITING_FOREVER) then start_thread_timer t tick else mret tt) ;;
  on_sched rt_schedule.

Lemma suspend_run k t th : sys_inv k -> thread_at k t = Some th -> active th ->
  exists k', rt_thread_suspend t k = Some (RT_EOK, k') /\ sys_inv k' /\ calm PThread k k' /\ others_kept t k k' /\
    thread_at k' t = Some (with_stat RT_THREAD_SUSPEND th) /\ s_current (k_sched k') = s_current (k_sched k) /\
    q_free (t_lists (k_timers k')) (ThreadTimer t).
Proof.
  intros Hs Et Ha. destruct (suspend_ok k t th (sy_kinv _ Hs) Et Ha) as (g & tms & E & Hk & _ & Hf & _ & Htl). cbn zeta in *.
  eexists. split; [exact E|]. set (k' := set_k_timers _ _) in *.
  assert (Hcalm : calm PThread k k') by (etransitivity; [by apply (calm_unready _ t g RT_THREAD_SUSPEND th)|apply calm_timers, Htl]).
  split_and!; [by apply (sys_calm PThread k)|done| |apply lookup_insert_eq|done|done].
  intros u thu Hu Eu. exists thu. split; [|done]. unfold thread_at, k'. cbn. by rewrite lookup_insert_ne.
Qed.

Lemma park_ok k t tick :
  sys_inv k -> running k t -> tick = RT_WAITING_FOREVER \/ 0 <= tick < HALF ->
  exists k' th', park t tick k = Some (tt, k') /\ sys_inv k' /\ calm PThread k k' /\ others_kept t k k' /\
    thread_at k' t = Some th' /\ asleep th' /\ is_Some (s_current (k_sched k')).
Proof.
  intros Hs [Hc (th & Et & Hr)] Htick. destruct (suspend_run k t th Hs Et ltac:(by right)) as (k1 & E1 & Hs1 & Hc1 & Ho1 & Et1 & Hcur1 & Hf1).
  assert (exists k2, (if bool_decide (tick <> RT_WAITING_FOREVER) then start_thread_timer t tick else mret tt) k1 = Some (tt, k2) /\
    sys_inv k2 /\ calm PThread k1 k2 /\ k_sched k2 = k_sched k1) as (k2 & E2 & Hs2 & Hc2 & Es2).
  { case_bool_decide as Hw; [|by exists k1]. destruct Htick as [->|Htick]; [done|].
    destruct (start_thread_timer_ok k1 t _ tick (sy_kinv _ Hs1) Et1) as (tms2 & E2 & Hk2 & _ & _ & Htl2);
      [by rewrite stat_with_suspend|done|unfold HALF in *; lia|].
    assert (calm PThread k1 (set_k_timers tms2 k1)) by (apply calm_timers, Htl2; lia).
    eexists. split; [exact E2|]. split_and!; [by apply (sys_calm PThread k1)|done|done]. }
  destruct (schedule_run k2 Hs2) as (k3 & E3 & Hs3 & Hc3 & Ho3 & Hcur3 & _); [rewrite Es2, Hcur1, Hc; by eexists|].
  destruct (Ho3 t (with_stat RT_THREAD_SUSPEND th) I) as (th' & Et' & Hth); [unfold thread_at; by rewrite Es2|].
  exists k3, th'. split_and!; try done.
  - unfold park. rewrite (bind_run _ _ _ _ _ E1), (bind_run _ _ _ _ _ E2). exact E3.
  - by etransitivity; [|etransitivity].
  - etransitivity; [done|]. apply (kept_weaken _ (fun _ => True)); [done|]. intros u thu Hu Eu. apply Ho3; [done|]. unfold thread_at. by rewrite Es2.
  - apply (th_sched_asleep _ _ Hth), stat_with_suspend.
Qed.

(** Resuming a thread that sleeps; a thread that does not is left alone. *)
Lemma resume_run k t th : sys_inv k -> thread_at k t = Some th -> asleep th ->
  exists k' th', rt_thread_resume t k = Some (RT_EOK, k') /\ sys_inv k' /\ calm PThread k k' /\ others_kept t k k' /\
    thread_at k' t = Some th' /\ active th' /\ set_th_stat 0 th' = set_th_stat 0 th /\
    s_current (k_sched k') = s_current (k_sched k) /\ q_free (t_lists (k_timers k')) (ThreadTimer t).
Proof.
  intros Hs Et Ha. destruct (resume_ok k t th (sy_kinv _ Hs) Et Ha) as (l & tms & _ & E & Hk & Hf & _ & Htl). cbn zeta in *.
  eexists _, _. split; [exact E|]. set (k' := set_k_timers _ _) in *.
  assert (Hcalm : calm PThread k k') by (etransitivity; [by apply (calm_resumed _ t th)|apply calm_timers, Htl]).
  assert (Hlk : forall u, thread_at k' u = s_threads (resumed t th l (k_sched k)) !! u) by done.
  split_and!; [by apply (sys_calm PThread k)|done| |rewrite Hlk, resumed_thread; by rewrite decide_True| | |apply resumed_current|done].
  - intros u thu Hu Eu. exists thu. split; [|done]. rewrite Hlk, resumed_thread. by rewrite decide_False.
  - unfold active. case_bool_decide; [right; apply stat_with_running|left; apply stat_with_ready].
  - done.
Qed.

(** The thread [t] was resumed, if it slept, and the scheduler called. *)
Record roused (t : nat) (k k' : kernel) : Prop := {
  ro_others : others_kept t k k';
  ro_thread : forall th, thread_at k t = Some th -> exists th', thread_at k' t = Some th' /\ set_th_stat 0 th' = set_th_stat 0 th /\
    (asleep th -> active th' /\ q_free (t_lists (k_timers k')) (ThreadTimer t)) /\ (~ asleep th -> th_sched th th');
  ro_current : is_Some (s_current (k_sched k'))
}.

Lemma rouse_ok k t : sys_inv k -> is_Some (thread_at k t) -> is_Some (s_current (k_sched k)) ->
  exists r k1 k', rt_thread_resume t k = Some (r, k1) /\ on_sched rt_schedule k1 = Some (tt, k') /\
    sys_inv k' /\ calm PThread k k' /\ roused t k k' /\ (r = RT_EOK \/ r = - RT_ERROR /\ k1 = k).
Proof.
  intros Hs [th Et] Hc. destruct (decide (stat_of th = RT_THREAD_SUSPEND)) as [Ha|Ha].
  - destruct (resume_run k t th Hs Et Ha) as (k1 & th1 & E1 & Hs1 & Hc1 & Ho1 & Et1 & Ha1 & Eq1 & Hcur1 & Hf1).
    destruct (schedule_run k1 Hs1) as (k2 & E2 & Hs2 & Hc2 & Ho2 & Hcur2 & Ht2); [by rewrite Hcur1|].
    destruct (Ho2 t th1 I Et1) as (th2 & Et2 & Hth). exists RT_EOK, k1, k2. split_and!; try done; [by etransitivity| |by left]. split; [|intros th'|done].
    + etransitivity; [done|]. by apply (kept_weaken _ (fun _ => True)).
    + rewrite Et. intros [= <-]. exists th2. split_and!; [done|rewrite <- Eq1; by symmetry; apply Hth| |done].
      intros _. split; [by apply (th_sched_active th1)|by rewrite Ht2].
  - destruct (schedule_run k Hs Hc) as (k2 & E2 & Hs2 & Hc2 & Ho2 & Hcur2 & _).
    exists (- RT_ERROR), k, k2. split_and!; try done; [by apply (resume_error k t th)| |by right]. split; [|intros th'|done].
    + by apply (kept_weaken _ (fun _ => True)).
    + rewrite Et. intros [= <-]. destruct (Ho2 t th I Et) as (th2 & Et2 & Hth). exists th2. split_and!; [done|by symmetry; apply Hth|done|done].
Qed.

(** A thread that can run or sleeps stays so when some thread is roused; the roused one can run. *)
Lemma roused_fate t k k' u th : roused t k k' -> thread_at k u = Some th ->
  exists th', thread_at k' u = Some th' /\ (active th -> active th') /\ (asleep th -> active th' \/ u <> t /\ asleep th').
Proof.
  intros Hr Eu. destruct (decide (u = t)) as [->|Hu].
  - destruct (ro_thread _ _ _ Hr th Eu) as (th' & E' & _ & Hs & Hk). exists th'. split_and!; [done| |intros Ha; left; by apply Hs].
    intros Ha. apply (th_sched_active th); [|done]. apply Hk. intros Has. by apply (asleep_not_active th).
  - destruct (ro_others _ _ _ Hr u th Hu Eu) as (th' & E' & Hs). exists th'. split_and!; [done|by apply (th_sched_active th)|].
    intros Ha. right. split; [done|by apply (th_sched_asleep th)].
Qed.
Lemma roused_there t k k' u : roused t k k' -> is_Some (thread_at k u) -> is_Some (thread_at k' u).
Proof.
  intros Hr [th Eu]. destruct (decide (u = t)) as [->|Hu].
  - destruct (ro_thread _ _ _ Hr th Eu) as (th' & E' & _). by eexists.
  - destruct (ro_others _ _ _ Hr u th Hu Eu) as (th' & E' & _). by eexists.
Qed.
