(* ===== verification/WaitQueue.v ===== *)
(** * Wait queues (rt-thread/components/drivers/src/waitqueue.c)

    A wait queue is a flag and a list of nodes; a node names a thread and a wakeup function that
    decides whether a wakeup with some key is for this thread.  rt_wqueue_wait links a node of its
    own stack and suspends the caller; pollers of several queues link nodes of their own.  The state
    [wstate] holds queues and nodes beside the kernel; a node that lives on a stack is in the store
    of nodes as long as its function has not returned.  A call that blocks gives [inr] with the
    thread; the second half of the function is the [_resume] definition.

    The wakeup functions of the application are a parameter: what the function [f] returns for a
    node and a key. *)
From S2P Require Import Prelude RtList Kernel Sched Timer Thread Lifecycle Ipc System Parking.
From stdpp Require Import base gmap sets list relations.
From Stdlib Require Import ZArith Lia.
#[local] Open Scope Z_scope.

(** ** State *)

Definition RT_WQ_FLAG_CLEAN : Z := 0x00.
Definition RT_WQ_FLAG_WAKEUP : Z := 0x01.

(** [wn_wakeup]: [None] is [__wqueue_default_wake]. *)
Record rt_wqueue_node := WqNode { wn_polling_thread : nat; wn_wakeup : option nat; wn_key : Z }.

Record wstate := WState {
  ws_kernel : kernel;
  ws_flags : gmap nat Z;
  ws_lists : gmap nat (list nat);
  ws_nodes : gmap nat rt_wqueue_node
}.
Definition set_ws_kernel v s := WState v (ws_flags s) (ws_lists s) (ws_nodes s).
Definition set_ws_flags v s := WState (ws_kernel s) v (ws_lists s) (ws_nodes s).
Definition set_ws_lists v s := WState (ws_kernel s) (ws_flags s) v (ws_nodes s).
Definition set_ws_nodes v s := WState (ws_kernel s) (ws_flags s) (ws_lists s) v.

Definition wkern {A} (c : M kernel A) : M wstate A := zoom ws_kernel set_ws_kernel c.
Definition wlist {A} (c : M (gmap nat (list nat)) A) : M wstate A := zoom ws_lists set_ws_lists c.
Definition get_flag (n : nat) : M wstate Z := fun s => match ws_flags s !! n with Some f => Some (f, s) | None => None end.
Definition put_flag (n : nat) (f : Z) : M wstate unit := modify (fun s => set_ws_flags (<[n := f]> (ws_flags s)) s).
Definition get_node (w : nat) : M wstate rt_wqueue_node := fun s => match ws_nodes s !! w with Some e => Some (e, s) | None => None end.
(** The life of a node: from its initialisation to the end of the function it belongs to. *)
Definition put_node (w : nat) (e : rt_wqueue_node) : M wstate unit :=
  wlist (q_node_init w) ;; modify (fun s => set_ws_nodes (<[w := e]> (ws_nodes s)) s).
Definition drop_node (w : nat) : M wstate unit := modify (fun s => set_ws_nodes (delete w (ws_nodes s)) s).

(** ** Operations *)

Section Operations.
Context (user_wakeup : nat -> nat -> Z -> Z).

Definition rt_wqueue_init (n : nat) : M wstate unit :=
  put_flag n RT_WQ_FLAG_CLEAN ;; wlist (q_init n).

Definition rt_wqueue_add (n w : nat) : M wstate unit := wlist (q_insert_before n w).
Definition rt_wqueue_remove (w : nat) : M wstate unit := wlist (q_remove w).

Definition __wqueue_default_wake (wait : nat) (key : Z) : Z := 0.
(** entry->wakeup(entry, key) *)
Definition call_wakeup (e : rt_wqueue_node) (entry : nat) (key : Z) : Z :=
  match wn_wakeup e with None => __wqueue_default_wake entry key | Some f => user_wakeup f entry key end.

(** The loop of rt_wqueue_wakeup; the result is need_schedule. *)
Fixpoint wakeup_loop (nodes : list nat) (key : Z) : M wstate bool :=
  match nodes with
  | [] => mret false
  | entry :: nodes' =>
    e ← get_node entry;
    if bool_decide (call_wakeup e entry key = 0) then
      wkern (rt_thread_resume (wn_polling_thread e)) ;;
      rt_wqueue_remove entry ;;
      mret true
    else wakeup_loop nodes' key
  end.
Definition rt_wqueue_wakeup (n : nat) (key : Z) : M wstate unit :=
  put_flag n RT_WQ_FLAG_WAKEUP ;;
  nodes ← wlist (q_list n);
  need_schedule ← wakeup_loop nodes key;
  if (need_schedule : bool) then wkern (on_sched rt_schedule) else mret tt.

(** [w] is the address of the node [__wait]. *)
Definition rt_wqueue_wait (n w : nat) (condition : bool) (msec : Z) : M wstate (Z + nat) :=
  tid ← wkern self;
  let tick := s32 (rt_tick_from_millisecond msec) in
  if condition || bool_decide (tick = 0) then mret (inl 0)
  else
    put_node w (WqNode tid None 0) ;;
    flag ← get_flag n;
    if bool_decide (flag = RT_WQ_FLAG_WAKEUP) then
      put_flag n RT_WQ_FLAG_CLEAN ;; rt_wqueue_remove w ;; drop_node w ;; mret (inl 0)
    else
      rt_wqueue_add n w ;;
      wkern (park tid tick) ;;
      mret (inr tid).
Definition rt_wqueue_wait_resume (n w : nat) : M wstate Z :=
  put_flag n RT_WQ_FLAG_CLEAN ;; rt_wqueue_remove w ;; drop_node w ;; mret 0.

(** ** Invariant *)

Record wq_inv (s : wstate) : Prop := {
  wi_sys : sys_inv (ws_kernel s);
  wi_wf : qwf (ws_lists s);
  wi_flags : forall n, is_Some (ws_flags s !! n) <-> is_Some (ws_lists s !! n);
  wi_nodes : forall n l w, ws_lists s !! n = Some l -> w ∈ l -> exists e, ws_nodes s !! w = Some e /\
    is_Some (thread_at (ws_kernel s) (wn_polling_thread e))
}.

(** The calls of rt_wqueue_wait in progress: a thread, its queue and its node. *)
Abbreviation calls := (gmap nat (nat * nat)).

(** The thread [t] inside rt_wqueue_wait can run and finish its call, or its node is still where a
    wakeup finds it. *)
Definition waits (s : wstate) (t n w : nat) : Prop :=
  is_Some (ws_flags s !! n) /\ ws_nodes s !! w = Some (WqNode t None 0) /\
  exists th, thread_at (ws_kernel s) t = Some th /\
    (active th \/ asleep th /\ exists l, ws_lists s !! n = Some l /\ w ∈ l).
Definition all_wait (s : wstate) (c : calls) : Prop := forall t n w, c !! t = Some (n, w) -> waits s t n w.

(** ** Steps *)

(** What may happen between the calls on wait queues: the kernel runs on; threads inside
    rt_wqueue_wait can only be woken (by their timers), as they execute nothing. *)
Definition runs_on (c : calls) (k k' : kernel) : Prop :=
  (forall t, is_Some (thread_at k t) -> is_Some (thread_at k' t)) /\
  forall t th, is_Some (c !! t) -> thread_at k t = Some th -> exists th', thread_at k' t = Some th' /\
    (active th -> active th') /\ (asleep th -> active th' \/ asleep th').

Inductive wq_step : wstate * calls -> wstate * calls -> Prop :=
| step_wait s c t n w cond msec r s' :
    running (ws_kernel s) t -> c !! t = None -> is_Some (ws_flags s !! n) -> ws_nodes s !! w = None -> - 2 ^ 31 <= msec < HALF ->
    rt_wqueue_wait n w cond msec s = Some (r, s') ->
    wq_step (s, c) (s', match r with inl _ => c | inr _ => <[t := (n, w)]> c end)
| step_wait_returns s c t n w r s' :
    running (ws_kernel s) t -> c !! t = Some (n, w) -> rt_wqueue_wait_resume n w s = Some (r, s') ->
    wq_step (s, c) (s', delete t c)
| step_wakeup s c n key s' :
    is_Some (s_current (k_sched (ws_kernel s))) -> is_Some (ws_flags s !! n) -> rt_wqueue_wakeup n key s = Some (tt, s') ->
    wq_step (s, c) (s', c)
| step_poll s c n w e s' :
    is_Some (ws_flags s !! n) -> ws_nodes s !! w = None -> is_Some (thread_at (ws_kernel s) (wn_polling_thread e)) ->
    (put_node w e ;; rt_wqueue_add n w) s = Some (tt, s') -> wq_step (s, c) (s', c)
| step_poll_ends s c w s' :
    (forall t n, c !! t <> Some (n, w)) -> (rt_wqueue_remove w ;; drop_node w) s = Some (tt, s') -> wq_step (s, c) (s', c)
| step_other s c k' :
    sys_inv k' -> runs_on c (ws_kernel s) k' -> wq_step (s, c) (set_ws_kernel k' s, c).

(** ** Lemmas *)

Lemma wkern_run {A} (c : M kernel A) s a k' : c (ws_kernel s) = Some (a, k') -> wkern c s = Some (a, set_ws_kernel k' s).
Proof. intros E. unfold wkern, zoom. by rewrite E. Qed.

Lemma inv_kernel s k' :
  wq_inv s -> sys_inv k' -> (forall t, is_Some (thread_at (ws_kernel s) t) -> is_Some (thread_at k' t)) -> wq_inv (set_ws_kernel k' s).
Proof.
  intros [Hs Hw Hf Hn] Hk Ht. split; cbn; try done. intros n l w El Hin. destruct (Hn n l w El Hin) as (e & Ee & He). eauto.
Qed.
Lemma inv_flag s n f : wq_inv s -> is_Some (ws_flags s !! n) -> wq_inv (set_ws_flags (<[n := f]> (ws_flags s)) s).
Proof.
  intros [Hs Hw Hf Hn] Hfl. split; cbn; try done. intros m. rewrite lookup_insert. case_decide as Hd; [|apply Hf]. subst m. rewrite <- Hf. split; [done|by eexists].
Qed.
Lemma inv_list s n l l' :
  wq_inv s -> ws_lists s !! n = Some l -> qwf (<[n := l']> (ws_lists s)) ->
  (forall w, w ∈ l' -> w ∈ l \/ exists e, ws_nodes s !! w = Some e /\ is_Some (thread_at (ws_kernel s) (wn_polling_thread e))) ->
  wq_inv (set_ws_lists (<[n := l']> (ws_lists s)) s).
Proof.
  intros [Hs Hw Hf Hn] El Hwf Hl'. split; cbn; try done.
  - intros m. rewrite Hf, lookup_insert. case_decide as Hd; [|done]. subst m. rewrite El. split; by eexists.
  - intros m lm w [[<- <-]|[_ Em]]%lookup_insert_Some Hin; [destruct (Hl' w Hin) as [?|?]; [by apply (Hn n l)|done]|by apply (Hn m lm)].
Qed.
Lemma inv_unlink s w : wq_inv s -> wq_inv (set_ws_lists (list_del w <$> ws_lists s) s).
Proof.
  intros [Hs Hw Hf Hn]. split; cbn; [done|by apply qwf_remove| |].
  - intros n. by rewrite lookup_fmap, fmap_is_Some.
  - intros n l v. rewrite lookup_fmap. destruct (ws_lists s !! n) as [l0|] eqn:El; [|done]. cbn. intros [= <-] [Hv _]%elem_of_list_del.
    by apply (Hn n l0).
Qed.
Lemma inv_nodes s m : wq_inv s -> (forall n l w, ws_lists s !! n = Some l -> w ∈ l -> m !! w = ws_nodes s !! w) -> wq_inv (set_ws_nodes m s).
Proof.
  intros [Hs Hw Hf Hn] Hm. split; cbn; try done. intros n l w El Hin. rewrite (Hm n l w El Hin). by apply (Hn n l).
Qed.

Lemma del_keeps (v w : nat) l : v <> w -> v ∈ l -> v ∈ list_del w l.
Proof. intros Hne Hin. by apply elem_of_list_del. Qed.

(** *** A wakeup *)

Definition refuses (s : wstate) (key : Z) (w : nat) : Prop := forall e, ws_nodes s !! w = Some e -> call_wakeup e w key <> 0.

(** The first node that accepts the key leaves the list and its thread is roused. *)
Inductive wakeup_outcome (n : nat) (key : Z) (s : wstate) (l : list nat) : wstate -> Prop :=
| wakes_one l1 w l2 e k' :
    l = l1 ++ w :: l2 -> (forall v, v ∈ l1 -> refuses s key v) -> ws_nodes s !! w = Some e -> call_wakeup e w key = 0 ->
    roused (wn_polling_thread e) (ws_kernel s) k' ->
    wakeup_outcome n key s l
      (set_ws_kernel k' (set_ws_lists (list_del w <$> ws_lists s) (set_ws_flags (<[n := RT_WQ_FLAG_WAKEUP]> (ws_flags s)) s)))
| wakes_none :
    (forall v, v ∈ l -> refuses s key v) ->
    wakeup_outcome n key s l (set_ws_flags (<[n := RT_WQ_FLAG_WAKEUP]> (ws_flags s)) s).

Lemma wakeup_loop_ok key s l :
  (forall w, w ∈ l -> is_Some (ws_nodes s !! w)) ->
  (exists l1 w l2 e, l = l1 ++ w :: l2 /\ (forall v, v ∈ l1 -> refuses s key v) /\ ws_nodes s !! w = Some e /\ call_wakeup e w key = 0 /\
     wakeup_loop l key s = (wkern (rt_thread_resume (wn_polling_thread e)) ;; rt_wqueue_remove w ;; mret true) s) \/
  ((forall v, v ∈ l -> refuses s key v) /\ wakeup_loop l key s = Some (false, s)).
Proof.
  induction l as [|w l IH]; intros Hn; [right; split; [by intros v ?%not_elem_of_nil|done]|].
  destruct (Hn w ltac:(set_solver)) as [e Ee]. cbn [wakeup_loop].
  rewrite (bind_run (get_node w) _ s e s) by (unfold get_node; by rewrite Ee). case_bool_decide as Hk.
  - left. exists [], w, l, e. split_and!; try done. by intros v ?%not_elem_of_nil.
  - assert (refuses s key w) by (intros e' E'; rewrite Ee in E'; by injection E' as <-).
    destruct IH as [(l1 & v & l2 & e' & -> & H1 & H2 & H3 & E)|[H1 E]]; [set_solver| |].
    + left. exists (w :: l1), v, l2, e'. split_and!; try done. intros u [->|?]%elem_of_cons; [done|by apply H1].
    + right. split; [|done]. intros u [->|?]%elem_of_cons; [done|by apply H1].
Qed.

Lemma wakeup_ok n key s l :
  wq_inv s -> is_Some (s_current (k_sched (ws_kernel s))) -> ws_lists s !! n = Some l ->
  exists s', rt_wqueue_wakeup n key s = Some (tt, s') /\ wq_inv s' /\ wakeup_outcome n key s l s'.
Proof.
  intros Hi Hc El. assert (Hfl : is_Some (ws_flags s !! n)) by (apply (wi_flags _ Hi); by eexists).
  pose proof (inv_flag s n RT_WQ_FLAG_WAKEUP Hi Hfl) as Hi1. set (s1 := set_ws_flags _ s) in *.
  unfold rt_wqueue_wakeup. rewrite (bind_run (put_flag _ _) _ s tt s1) by done.
  rewrite (bind_run (wlist _) _ s1 l s1) by (unfold wlist, zoom, q_list; cbn; by rewrite El).
  destruct (wakeup_loop_ok key s1 l) as [(l1 & w & l2 & e & -> & H1 & H2 & H3 & E)|[H1 E]].
  - intros w Hw. destruct (wi_nodes _ Hi1 n l w El Hw) as (e & -> & _). by eexists.
  - destruct (wi_nodes _ Hi1 n _ w El ltac:(set_solver)) as (e' & E' & Ht). rewrite H2 in E'. injection E' as <-.
    destruct (rouse_ok (ws_kernel s) (wn_polling_thread e) (wi_sys _ Hi) Ht Hc) as (r & k1 & k' & Er & Es & Hs' & _ & Hro & _).
    eexists. split; [|split; [|by eapply wakes_one]].
    + unfold mbind at 1, M_bind at 1. rewrite E. munfold. unfold wkern, zoom. cbn [ws_kernel s1 set_ws_flags]. rewrite Er. munfold. cbn. by rewrite Es.
    + apply inv_kernel; [by apply (inv_unlink s1)|done|]. intros t. by apply (roused_there _ _ _ t Hro).
  - exists s1. rewrite (bind_run _ _ _ _ _ E). split; [done|]. split; [done|]. by apply wakes_none.
Qed.

(** *** Waiting *)

Lemma unnamed_free s w : wq_inv s -> ws_nodes s !! w = None -> q_free (ws_lists s) w.
Proof. intros Hi Hw n l El Hin. destruct (wi_nodes _ Hi n l w El Hin) as (e & Ee & _). congruence. Qed.
Lemma put_node_run s w e : q_free (ws_lists s) w -> put_node w e s = Some (tt, set_ws_nodes (<[w := e]> (ws_nodes s)) s).
Proof.
  intros Hf. unfold put_node. rewrite (bind_run (wlist _) _ s tt s); [done|]. unfold wlist, zoom, q_node_init. destruct s. by rewrite decide_True.
Qed.
Lemma add_run s n w l : q_free (ws_lists s) w -> ws_lists s !! n = Some l ->
  rt_wqueue_add n w s = Some (tt, set_ws_lists (<[n := l ++ [w]]> (ws_lists s)) s).
Proof. intros Hf El. unfold rt_wqueue_add, wlist, zoom, q_insert_before, q_update. by rewrite El, decide_True. Qed.

(** A new node at the end of a list. *)
Definition linked (n w : nat) (e : rt_wqueue_node) (l : list nat) (s : wstate) : wstate :=
  set_ws_lists (<[n := l ++ [w]]> (ws_lists s)) (set_ws_nodes (<[w := e]> (ws_nodes s)) s).
Lemma inv_linked n w e l s :
  wq_inv s -> ws_nodes s !! w = None -> ws_lists s !! n = Some l -> is_Some (thread_at (ws_kernel s) (wn_polling_thread e)) ->
  wq_inv (linked n w e l s).
Proof.
  intros Hi Hw El He. pose proof (unnamed_free s w Hi Hw) as Hfr.
  assert (Hi1 : wq_inv (set_ws_nodes (<[w := e]> (ws_nodes s)) s)).
  { apply inv_nodes; [done|]. intros m lm v Em Hv. rewrite lookup_insert_ne; [done|]. intros ->. by apply (Hfr m lm Em). }
  apply (inv_list _ n l (l ++ [w]) Hi1 El).
  - apply (qwf_insert _ n l (l ++ [w]) w); [apply Hi|done|done| |intros v; set_solver].
    apply NoDup_app. split_and!; [by apply (proj1 (wi_wf _ Hi) n)| |by apply NoDup_singleton]. intros v Hv ->%list_elem_of_singleton. by apply (Hfr n l El).
  - intros v [?| ->%list_elem_of_singleton]%elem_of_app; [by left|]. right. exists e. cbn. by rewrite lookup_insert_eq.
Qed.

Inductive wait_outcome (n w t : nat) (cond : bool) (tick : Z) (s : wstate) : Z + nat -> wstate -> Prop :=
| wait_not_needed : cond = true \/ tick = 0 -> wait_outcome n w t cond tick s (inl 0) s
| wait_already_woken :
    cond = false -> tick <> 0 -> ws_flags s !! n = Some RT_WQ_FLAG_WAKEUP ->
    wait_outcome n w t cond tick s (inl 0) (set_ws_flags (<[n := RT_WQ_FLAG_CLEAN]> (ws_flags s)) s)
| wait_sleeps l k' th' :
    cond = false -> tick <> 0 -> ws_flags s !! n <> Some RT_WQ_FLAG_WAKEUP -> ws_lists s !! n = Some l ->
    others_kept t (ws_kernel s) k' -> thread_at k' t = Some th' -> asleep th' ->
    wait_outcome n w t cond tick s (inr t) (set_ws_kernel k' (linked n w (WqNode t None 0) l s)).

Lemma tick_ms ms : - 2 ^ 31 <= ms < HALF -> let tick := s32 (rt_tick_from_millisecond ms) in tick = RT_WAITING_FOREVER \/ 0 <= tick < HALF.
Proof.
  intros Hm. cbn zeta. unfold rt_tick_from_millisecond, RT_TICK_PER_SECOND, HALF in *. case_bool_decide as H0; [by left|]. right.
  pose proof (Z.quot_rem' ms 1000) as Hqr. pose proof (Z.rem_bound_pos ms 1000 ltac:(lia) ltac:(lia)) as Hr.
  assert (Hq : Z.quot (1000 * Z.rem ms 1000 + 999) 1000 = Z.rem ms 1000).
  { rewrite Z.quot_div_nonneg by lia. symmetry. apply (Z.div_unique _ _ _ 999); lia. }
  rewrite Hq. pose proof (Z.quot_pos ms 1000 ltac:(lia) ltac:(lia)). rewrite (wrap_id 32 (1000 * _)) by lia. rewrite wrap_id by lia.
  rewrite swrap_id by lia. lia.
Qed.

Lemma wait_ok n w t cond msec s :
  wq_inv s -> running (ws_kernel s) t -> is_Some (ws_flags s !! n) -> ws_nodes s !! w = None -> - 2 ^ 31 <= msec < HALF ->
  exists r s', rt_wqueue_wait n w cond msec s = Some (r, s') /\ wq_inv s' /\ wait_outcome n w t cond (s32 (rt_tick_from_millisecond msec)) s r s'.
Proof.
  intros Hi Hr [f Ef] Hw Hms. pose proof (tick_ms msec Hms) as Htick. cbn zeta in Htick. set (tick := s32 _) in *.
  pose proof (unnamed_free s w Hi Hw) as Hfr. unfold rt_wqueue_wait.
  rewrite (bind_run (wkern self) _ s t s) by (rewrite (wkern_run _ s t (ws_kernel s) (self_run _ _ (proj1 Hr))); by destruct s). fold tick.
  destruct (cond || bool_decide (tick = 0)) eqn:Hcond.
  { exists (inl 0), s. split_and!; try done. apply wait_not_needed. apply orb_true_iff in Hcond as [?|?%bool_decide_eq_true]; auto. }
  apply orb_false_iff in Hcond as [Hc0 Ht0%bool_decide_eq_false].
  rewrite (bind_run _ _ _ _ _ (put_node_run s w _ Hfr)). set (s1 := set_ws_nodes _ s).
  rewrite (bind_run (get_flag n) _ s1 f s1) by (unfold get_flag; cbn; by rewrite Ef). case_bool_decide as Hf.
  - exists (inl 0), (set_ws_flags (<[n := RT_WQ_FLAG_CLEAN]> (ws_flags s)) s). split; [|split; [apply inv_flag; [done|by eexists]|by apply wait_already_woken; [..|by subst f]]].
    unfold put_flag, rt_wqueue_remove, drop_node, wlist, q_remove. munfold. cbn. rewrite (q_del_free _ w Hfr), delete_insert_id by done. by destruct s.
  - destruct (proj1 (wi_flags _ Hi n)) as [l El]; [by eexists|].
    rewrite (bind_run _ _ _ _ _ (add_run s1 n w l Hfr El)).
    destruct (park_ok (ws_kernel s) t tick (wi_sys _ Hi) Hr Htick) as (k' & th' & E & Hs' & _ & Ho & Et' & Ha & _).
    rewrite (bind_run _ _ _ _ _ (wkern_run _ (linked n w (WqNode t None 0) l s) _ _ E)). eexists _, _. split; [done|]. split.
    + apply inv_kernel; [|done|].
      * apply inv_linked; try done. destruct Hr as [_ (th & Et & _)]. by exists th.
      * intros u [thu Eu]. destruct (decide (u = t)) as [->|Hu]; [by eexists|]. destruct (Ho u thu Hu Eu) as (thu' & -> & _). by eexists.
    + apply (wait_sleeps _ _ _ _ _ _ l k' th'); try done. rewrite Ef. congruence.
Qed.

(** *** Every step keeps every waiting thread reachable *)

Lemma waits_mono s s' t n w :
  waits s t n w -> (is_Some (ws_flags s !! n) -> is_Some (ws_flags s' !! n)) -> ws_nodes s' !! w = ws_nodes s !! w ->
  (forall th, thread_at (ws_kernel s) t = Some th -> exists th', thread_at (ws_kernel s') t = Some th' /\ (active th -> active th') /\
     (asleep th -> active th' \/ asleep th' /\
        forall l, ws_lists s !! n = Some l -> w ∈ l -> exists l', ws_lists s' !! n = Some l' /\ w ∈ l')) ->
  waits s' t n w.
Proof.
  intros (Hf & Hn & th & Et & Ha) Hf' Hn' Ht. destruct (Ht th Et) as (th' & Et' & H1 & H2). split; [by apply Hf'|]. split; [by rewrite Hn'|].
  exists th'. split; [done|]. destruct Ha as [Ha|[Ha (l & El & Hin)]]; [left; by apply H1|].
  destruct (H2 Ha) as [?|[? Hl]]; [by left|]. right. split; [done|]. by apply (Hl l).
Qed.

(** The thread does not change. *)
Lemma waits_same s s' t n w :
  waits s t n w -> (is_Some (ws_flags s !! n) -> is_Some (ws_flags s' !! n)) -> ws_nodes s' !! w = ws_nodes s !! w ->
  ws_kernel s' = ws_kernel s -> (forall l, ws_lists s !! n = Some l -> w ∈ l -> exists l', ws_lists s' !! n = Some l' /\ w ∈ l') ->
  waits s' t n w.
Proof. intros Hw Hf Hn Hk Hl. apply (waits_mono s); try done. intros th Et. exists th. rewrite Hk. auto. Qed.
Lemma flag_there (m : gmap nat Z) n f x : is_Some (m !! x) -> is_Some (<[n := f]> m !! x).
Proof. intros H. apply lookup_insert_is_Some'. by right. Qed.

Lemma wakeup_waits n key s l s' c : wakeup_outcome n key s l s' -> all_wait s c -> all_wait s' c.
Proof.
  intros Ho Hall t m w' Ec. pose proof (Hall t m w' Ec) as Hw. pose proof Hw as (_ & Hnode & _).
  destruct Ho as [l1 w l2 e k' _ _ He _ Hro|_]; [apply (waits_mono s)|apply (waits_same s)]; try done; cbn; try apply flag_there; [|by eauto].
  intros th Et. destruct (roused_fate _ _ _ t th Hro Et) as (th' & Et' & H1 & H2). exists th'. split_and!; [done|done|].
  intros Ha. destruct (H2 Ha) as [?|[Hne ?]]; [by left|]. right. split; [done|]. intros l0 El0 Hin. exists (list_del w l0).
  rewrite lookup_fmap, El0. split; [done|]. apply del_keeps; [|done]. intros ->. rewrite Hnode in He. injection He as <-. done.
Qed.

Lemma linked_waits n w e l s t m v : ws_nodes s !! w = None -> ws_lists s !! n = Some l -> waits s t m v -> waits (linked n w e l s) t m v.
Proof.
  intros Hw El Hv. pose proof Hv as (_ & Hnode & _). apply (waits_same s); try done; cbn.
  - rewrite lookup_insert_ne; [done|congruence].
  - intros lm Em Hin. rewrite lookup_insert. case_decide as Hd; [|by eauto]. subst m. rewrite El in Em. injection Em as <-. eexists. split; [done|]. set_solver.
Qed.

Lemma wait_waits n w t cond tick s r s' c :
  wait_outcome n w t cond tick s r s' -> is_Some (ws_flags s !! n) -> ws_nodes s !! w = None -> c !! t = None -> all_wait s c ->
  all_wait s' (match r with inl _ => c | inr _ => <[t := (n, w)]> c end).
Proof.
  intros Ho Hf Hw Hc Hall. destruct Ho as [_|_ _ _|l k' th' _ _ _ El Hk Et' Ha]; [done| |].
  - intros u m v Ec. apply (waits_same s); [by apply Hall|apply flag_there|done|done|by eauto].
  - intros u m v [[<- [= <- <-]]|[Hne Ec]]%lookup_insert_Some.
    + split; [done|]. cbn. rewrite lookup_insert_eq. split; [done|]. exists th'. split; [done|]. right. split; [done|]. exists (l ++ [w]).
      rewrite lookup_insert_eq. split; [done|]. set_solver.
    + pose proof (linked_waits n w (WqNode t None 0) l s u m v Hw El (Hall u m v Ec)) as Hv.
      apply (waits_mono _ _ _ _ _ Hv); try done; cbn. intros th Et. destruct (Hk u th ltac:(done) Et) as (th1 & E1 & Hs). exists th1.
      split_and!; [done|by apply th_sched_active|]. intros Has. right. split; [by apply (th_sched_asleep th)|by eauto].
Qed.

(** A node that belongs to none of the calls [c] goes away. *)
Definition unlinked (w : nat) (s : wstate) : wstate := set_ws_nodes (delete w (ws_nodes s)) (set_ws_lists (list_del w <$> ws_lists s) s).
Lemma unlinked_ok w s c :
  wq_inv s -> all_wait s c -> (forall t n, c !! t <> Some (n, w)) -> wq_inv (unlinked w s) /\ all_wait (unlinked w s) c.
Proof.
  intros Hi Hall Hc. split.
  - apply inv_nodes; [by apply inv_unlink|]. cbn. intros n l v El Hv. rewrite lookup_delete_ne; [done|]. intros ->. by apply (q_free_del (ws_lists s) v n l).
  - intros t n v Ec. assert (v <> w) by (intros ->; by apply (Hc t n)). apply (waits_same s); [by apply Hall|done|cbn; by rewrite lookup_delete_ne|done|].
    intros l El Hin. exists (list_del w l). cbn. rewrite lookup_fmap, El. split; [done|by apply del_keeps].
Qed.

Lemma step_ok x y : wq_step x y -> wq_inv x.1 /\ all_wait x.1 x.2 -> wq_inv y.1 /\ all_wait y.1 y.2.
Proof.
  intros Hstep [Hi Hall]. destruct Hstep as [s c t n w cond msec r s' Hr Hc Hf Hw Hm E|s c t n w r s' Hr Ec E|s c n key s' Hcur Hf E|
    s c n w e s' Hf Hw He E|s c w s' Hc E|s c k' Hk Hro]; cbn in *.
  - destruct (wait_ok n w t cond msec s Hi Hr Hf Hw Hm) as (r1 & s1 & E1 & Hi1 & Ho). rewrite E in E1. injection E1 as <- <-.
    split; [done|]. by eapply (wait_waits n w t cond _ s).
  - injection E as <- <-. destruct (Hall t n w Ec) as (Hf & Hnode & _). set (s1 := set_ws_flags (<[n := RT_WQ_FLAG_CLEAN]> (ws_flags s)) s).
    apply (unlinked_ok w s1 (delete t c)); [by apply inv_flag| |].
    + intros u m v [_ Eu]%lookup_delete_Some. apply (waits_same s); [by apply Hall|apply flag_there|done|done|by eauto].
    + intros u m [Hne Eu]%lookup_delete_Some. destruct (Hall u m w Eu) as (_ & Hnode' & _). congruence.
  - destruct (proj1 (wi_flags _ Hi n) Hf) as [l El]. destruct (wakeup_ok n key s l Hi Hcur El) as (s1 & E1 & Hi1 & Ho).
    rewrite E in E1. injection E1 as <-. split; [done|]. by apply (wakeup_waits n key s l).
  - destruct (proj1 (wi_flags _ Hi n) Hf) as [l El]. pose proof (unnamed_free s w Hi Hw) as Hfr.
    rewrite (bind_run _ _ _ _ _ (put_node_run s w e Hfr)), (add_run (set_ws_nodes (<[w := e]> (ws_nodes s)) s) n w l Hfr El) in E.
    injection E as <-. change (set_ws_lists _ _) with (linked n w e l s). split; [by apply inv_linked|]. intros t m v Ec. by apply linked_waits; [..|apply Hall].
  - injection E as <-. by apply (unlinked_ok w s c).
  - destruct Hro as [Hth Hc]. split; [by apply inv_kernel|]. intros t n w Ec. apply (waits_mono s); [by apply Hall|done|done|]. intros th Et.
    destruct (Hc t th ltac:(by eexists) Et) as (th' & Et' & H1 & H2). exists th'. split_and!; [done|done|]. intros Ha. destruct (H2 Ha) as [?|?]; [by left|]. right.
    split; [done|by eauto].
Qed.

Lemma steps_ok x y : rtc wq_step x y -> wq_inv x.1 /\ all_wait x.1 x.2 -> wq_inv y.1 /\ all_wait y.1 y.2.
Proof. induction 1 as [|x y z Hxy _ IH]; [done|]. intros Hx. by apply IH, (step_ok x y). Qed.

Lemma first_split (l1 : list nat) x l2 l1' y l2' : l1 ++ x :: l2 = l1' ++ y :: l2' -> x ∉ l1' -> y ∉ l1 -> x = y.
Proof.
  intros E Hx Hy. apply app_eq_inv in E as [(k & -> & E)|(k & -> & E)]; destruct k as [|z k]; cbn in E; injection E; intros; subst; try done; set_solver.
Qed.

(** A wakeup that no node before [w] takes reaches the thread of [w]. *)
Lemma woken_waiter n key s l1 w l2 s' t :
  wq_inv s -> waits s t n w -> ws_lists s !! n = Some (l1 ++ w :: l2) -> (forall v, v ∈ l1 -> refuses s key v) ->
  wakeup_outcome n key s (l1 ++ w :: l2) s' ->
  exists th', thread_at (ws_kernel s') t = Some th' /\ active th' /\
    (forall th, thread_at (ws_kernel s) t = Some th -> asleep th -> q_free (t_lists (k_timers (ws_kernel s'))) (ThreadTimer t)) /\
    exists s2, rt_wqueue_wait_resume n w s' = Some (0, s2) /\ ws_flags s2 !! n = Some RT_WQ_FLAG_CLEAN /\ ws_nodes s2 !! w = None /\
      q_free (ws_lists s2) w.
Proof.
  intros Hi (_ & Hnode & th & Et & Ha) El Hno Ho.
  assert (Hend : exists s2, rt_wqueue_wait_resume n w s' = Some (0, s2) /\ ws_flags s2 !! n = Some RT_WQ_FLAG_CLEAN /\ ws_nodes s2 !! w = None /\ q_free (ws_lists s2) w).
  { eexists. split; [done|]. cbn. split_and!; [apply lookup_insert_eq|apply lookup_delete_eq|apply q_free_del]. }
  destruct Ho as [l1' w' l2' e k' Hl Hno' He Hk Hro|Hnone].
  - assert (w = w') as <-.
    { apply (first_split l1 w l2 l1' w' l2' Hl).
      - intros Hin. by apply (Hno' w Hin _ Hnode).
      - intros Hin. by apply (Hno w' Hin _ He). }
    rewrite Hnode in He. injection He as <-. cbn in Hro |- *. destruct (roused_fate _ _ _ t th Hro Et) as (th' & Et' & H1 & H2).
    exists th'. split_and!; [done| | |done].
    + destruct Ha as [Ha|[Ha _]]; [by apply H1|]. by destruct (H2 Ha) as [?|[? _]].
    + intros th0 E0 Ha0. destruct (ro_thread _ _ _ Hro th0 E0) as (th1 & _ & _ & Hf & _). by apply Hf.
  - destruct (Hnone w ltac:(set_solver) _ Hnode). done.
Qed.

(** C19: no thread that waits on a wait queue is forgotten.  After any sequence of waits, returns,
    wakeups, pollers coming and going and other activity of the kernel, every thread inside
    rt_wqueue_wait can run, or sleeps with its node in the list of its queue; every wakeup
    returns, sets the flag and rouses the thread of exactly the first node that accepts the key; so a
    wakeup wakes a sleeping thread, with its timer stopped, as soon as no node before its own takes
    the wakeup, and the woken call returns 0 with flag and node cleared.  A wait returns at once if
    its condition holds, its time is zero or the queue was woken since the flag was cleared. *)
Theorem wqueue_waiters_reachable s0 s c :
  wq_inv s0 -> rtc wq_step (s0, ∅) (s, c) ->
  wq_inv s /\ (forall t n w, c !! t = Some (n, w) -> waits s t n w) /\
  (forall n key l, ws_lists s !! n = Some l -> is_Some (s_current (k_sched (ws_kernel s))) ->
     exists s', rt_wqueue_wakeup n key s = Some (tt, s') /\ wakeup_outcome n key s l s' /\
       forall t w l1 l2, c !! t = Some (n, w) -> l = l1 ++ w :: l2 -> (forall v, v ∈ l1 -> refuses s key v) ->
         exists th', thread_at (ws_kernel s') t = Some th' /\ active th' /\
           (forall th, thread_at (ws_kernel s) t = Some th -> asleep th -> q_free (t_lists (k_timers (ws_kernel s'))) (ThreadTimer t)) /\
           exists s2, rt_wqueue_wait_resume n w s' = Some (0, s2) /\ ws_flags s2 !! n = Some RT_WQ_FLAG_CLEAN /\ ws_nodes s2 !! w = None /\
             q_free (ws_lists s2) w) /\
  (forall t n w cond msec, running (ws_kernel s) t -> is_Some (ws_flags s !! n) -> ws_nodes s !! w = None -> - 2 ^ 31 <= msec < HALF ->
     exists r s', rt_wqueue_wait n w cond msec s = Some (r, s') /\ wait_outcome n w t cond (s32 (rt_tick_from_millisecond msec)) s r s').
Proof.
  intros Hi0 Hrun. assert (wq_inv s /\ all_wait s c) as [Hi Hall].
  { apply (steps_ok (s0, ∅) (s, c) Hrun). split; [done|]. intros t n w Ec. cbn in Ec. by rewrite lookup_empty in Ec. }
  split; [done|]. split; [done|]. split.
  - intros n key l El Hcur. destruct (wakeup_ok n key s l Hi Hcur El) as (s' & E & Hi' & Ho). exists s'. split; [done|]. split; [done|].
    intros t w l1 l2 Ec -> Hno. exact (woken_waiter n key s l1 w l2 s' t Hi (Hall t n w Ec) El Hno Ho).
  - intros t n w cond msec Hr Hf Hw Hm. destruct (wait_ok n w t cond msec s Hi Hr Hf Hw Hm) as (r & s' & E & _ & Ho). by exists r, s'.
Qed.

(** A wakeup is lost when the first thread in the list has timed out but has not run yet: the wakeup
    takes its node off the list, the thread then clears the flag, and the second thread, for which
    the list was long enough, sleeps on. *)
Theorem wqueue_wakeup_lost n key s ta tb wa wb l tha thb :
  wq_inv s -> is_Some (s_current (k_sched (ws_kernel s))) -> ws_lists s !! n = Some (wa :: wb :: l) ->
  ws_nodes s !! wa = Some (WqNode ta None 0) -> ws_nodes s !! wb = Some (WqNode tb None 0) ->
  thread_at (ws_kernel s) ta = Some tha -> active tha -> thread_at (ws_kernel s) tb = Some thb -> asleep thb ->
  exists s1 s2 thb', rt_wqueue_wakeup n key s = Some (tt, s1) /\ rt_wqueue_wait_resume n wa s1 = Some (0, s2) /\
    ws_flags s2 !! n = Some RT_WQ_FLAG_CLEAN /\ thread_at (ws_kernel s2) tb = Some thb' /\ asleep thb' /\ ws_lists s2 !! n = Some (wb :: l).
Proof.
  intros Hi Hc El Ha Hb Eta Aa Etb Ab. destruct (wakeup_ok n key s _ Hi Hc El) as (s1 & E & _ & Ho). pose proof (proj1 (wi_wf _ Hi) n _ El) as Hnd.
  destruct Ho as [l1 w l2 e k' Hl Hno He Hk Hro|Hnone]; [|destruct (Hnone wa ltac:(set_solver) _ Ha); done].
  assert (wa = w) as <-.
  { apply (first_split [] wa (wb :: l) l1 w l2 Hl); [|apply not_elem_of_nil]. intros Hin. by apply (Hno wa Hin _ Ha). }
  rewrite Ha in He. injection He as <-. cbn in Hro.
  assert (tb <> ta) as Hne by (intros ->; rewrite Eta in Etb; injection Etb as <-; by apply (asleep_not_active tha)).
  destruct (ro_others _ _ _ Hro tb thb Hne Etb) as (thb' & Etb' & Hs). eexists _, _, thb'. split; [exact E|]. split; [done|]. cbn.
  split_and!; [apply lookup_insert_eq|done|by apply (th_sched_asleep thb)|]. rewrite !lookup_fmap, El.
  cbn [fmap option_fmap option_map]. rewrite list_del_head by done. apply NoDup_cons in Hnd as [Hnd _]. by rewrite list_del_notin.
Qed.

(** ** Initialisation *)

Lemma wq_inv_empty k : sys_inv k -> wq_inv (WState k ∅ ∅ ∅).
Proof.
  intros Hs. split; cbn; [done|split| |].
  - intros h l. by rewrite lookup_empty.
  - intros h1 h2 l1 l2 n. by rewrite lookup_empty.
  - intros n. by rewrite !lookup_empty.
  - intros n l w. by rewrite lookup_empty.
Qed.
Lemma wqueue_init_ok n s : wq_inv s -> ws_lists s !! n = None ->
  exists s', rt_wqueue_init n s = Some (tt, s') /\ wq_inv s' /\ ws_flags s' !! n = Some RT_WQ_FLAG_CLEAN /\ ws_lists s' !! n = Some [].
Proof.
  intros [Hs Hw Hf Hn] Hno. eexists. split; [unfold rt_wqueue_init, wlist, q_init; munfold; cbn; by rewrite Hno|]. cbn.
  split; [|split; apply lookup_insert_eq]. split; cbn; [done|split| |].
  - intros h l [[_ <-]|[_ El]]%lookup_insert_Some; [apply NoDup_nil_2|by apply (proj1 Hw h)].
  - intros h1 h2 l1 l2 w [[<- <-]|[H1 E1]]%lookup_insert_Some [[<- <-]|[H2 E2]]%lookup_insert_Some Hi1 Hi2; [done|..]; try (by apply not_elem_of_nil in Hi1);
      [by apply not_elem_of_nil in Hi2|by apply (proj2 Hw h1 h2 l1 l2 w)].
  - intros m. rewrite !lookup_insert. case_decide; [|apply Hf]. split; by eexists.
  - intros m l w [[_ <-]|[_ El]]%lookup_insert_Some; [by intros ?%not_elem_of_nil|by apply (Hn m l)].
Qed.
End Operations.
