(* ===== verification/WorkQueue.v ===== *)
(** * Work queues (rt-thread/components/drivers/src/workqueue.c)

    A work queue is a list of works and a thread that runs them one after the other; whoever waits
    for the end of the current work waits for the semaphore of the queue.  The state [qstate]
    holds queues, their lists and the works beside the kernel.  The semaphore and the thread of a queue
    and the timer of a work are kernel objects.

    The thread of a queue, _workqueue_thread_entry, is a loop whose parts between which other code
    can run are separate definitions (worker_...): the test for an empty list, the suspension, taking
    the first work (interrupts disabled), the end of a work, and the completion.  What the function of
    a work does is the business of the application: it happens between worker_take and
    worker_clear.

    The theorems are about works that are submitted at once; delayed works add the timer. *)
From S2P Require Import Prelude RtList Kernel Sched Timer Object Thread Lifecycle Ipc Sem System DevIpc Parking.
From stdpp Require Import base gmap sets list relations.
From Stdlib Require Import ZArith Lia.
#[local] Open Scope Z_scope.

(** ** State *)

Definition RT_WORK_STATE_PENDING : Z := 0x0001.
Definition RT_WORK_STATE_SUBMITTING : Z := 0x0002.
Definition RT_WORK_TYPE_DELAYED : Z := 0x0001.
(** errno.h *)
Definition EINVAL : Z := 22.

(** [wk_timer]: the number of the timer inside the work. *)
Record rt_work := RtWork { wk_flags : Z; wk_type : Z; wk_timer : nat; wk_workqueue : option nat }.
Definition set_wk_flags v x := RtWork v (wk_type x) (wk_timer x) (wk_workqueue x).
Definition set_wk_type v x := RtWork (wk_flags x) v (wk_timer x) (wk_workqueue x).
Definition set_wk_workqueue v x := RtWork (wk_flags x) (wk_type x) (wk_timer x) v.
Definition set_flag (f : Z) (x : rt_work) : rt_work := set_wk_flags (Z.lor (wk_flags x) f) x.
Definition clear_flag (f : Z) (x : rt_work) : rt_work := set_wk_flags (Z.land (wk_flags x) (Z.lnot f)) x.
Definition has_flag (f : Z) (x : rt_work) : bool := bool_decide (Z.land (wk_flags x) f <> 0).
Definition delayed (x : rt_work) : bool := bool_decide (Z.land (wk_type x) RT_WORK_TYPE_DELAYED <> 0).

Record rt_workqueue := RtWorkqueue { wq_work_current : option nat; wq_sem : nat; wq_work_thread : nat }.
Definition set_wq_work_current v q := RtWorkqueue v (wq_sem q) (wq_work_thread q).

Record qstate := QState {
  qs_kernel : kernel;
  qs_queues : gmap nat rt_workqueue;
  qs_lists : gmap nat (list nat);
  qs_works : gmap nat rt_work
}.
Definition set_qs_kernel v s := QState v (qs_queues s) (qs_lists s) (qs_works s).
Definition set_qs_queues v s := QState (qs_kernel s) v (qs_lists s) (qs_works s).
Definition set_qs_lists v s := QState (qs_kernel s) (qs_queues s) v (qs_works s).
Definition set_qs_works v s := QState (qs_kernel s) (qs_queues s) (qs_lists s) v.

Definition qkern {A} (c : M kernel A) : M qstate A := zoom qs_kernel set_qs_kernel c.
Definition qlist {A} (c : M (gmap nat (list nat)) A) : M qstate A := zoom qs_lists set_qs_lists c.
Definition get_wq (n : nat) : M qstate rt_workqueue := fun s => match qs_queues s !! n with Some q => Some (q, s) | None => None end.
Definition put_wq (n : nat) (q : rt_workqueue) : M qstate unit := modify (fun s => set_qs_queues (<[n := q]> (qs_queues s)) s).
Definition get_work (w : nat) : M qstate rt_work := fun s => match qs_works s !! w with Some x => Some (x, s) | None => None end.
Definition put_work (w : nat) (x : rt_work) : M qstate unit := modify (fun s => set_qs_works (<[w := x]> (qs_works s)) s).
Definition upd_work (w : nat) (f : rt_work -> rt_work) : M qstate unit := x ← get_work w; put_work w (f x).

(** ** The thread of a queue *)

Fixpoint completion_loop (fuel : nat) (sem : nat) : M kernel Z :=
  match fuel with
  | O => ub
  | S fuel' =>
    result ← rt_sem_trytake sem;
    match result with
    | inr _ => ub
    | inl r =>
      if bool_decide (r = - RT_ETIMEOUT) then rt_sem_release sem ;; completion_loop fuel' sem
      else if bool_decide (r = RT_EOK) then mret RT_EOK
      else mret (- RT_ERROR)
    end
  end.
Definition _workqueue_work_completion (fuel : nat) (n : nat) : M qstate Z :=
  q ← get_wq n;
  qkern (on_sched rt_enter_critical) ;;
  result ← qkern (completion_loop fuel (wq_sem q));
  qkern (on_sched rt_exit_critical) ;;
  mret result.

(** _workqueue_thread_entry: whether the list is empty *)
Definition worker_check (n : nat) : M qstate bool := qlist (q_isempty n).
Definition worker_suspend : M qstate nat :=
  t ← qkern self;
  qkern (rt_thread_suspend t) ;;
  qkern (on_sched rt_schedule) ;;
  mret t.
(** The code takes the list head for a work when the list is empty. *)
Definition worker_take (n : nat) : M qstate nat :=
  l ← qlist (q_list n);
  match l with
  | [] => ub
  | work :: _ =>
    qlist (q_remove work) ;;
    q ← get_wq n;
    put_wq n (set_wq_work_current (Some work) q) ;;
    upd_work work (clear_flag RT_WORK_STATE_PENDING) ;;
    upd_work work (set_wk_workqueue None) ;;
    mret work
  end.
Definition worker_clear (n : nat) : M qstate unit :=
  q ← get_wq n; put_wq n (set_wq_work_current None q).

(** ** Submitting and cancelling *)

Definition _workqueue_submit_work (n work : nat) : M qstate Z :=
  x ← get_work work;
  if has_flag RT_WORK_STATE_PENDING x then mret (- RT_EBUSY)
  else
    q ← get_wq n;
    if bool_decide (wq_work_current q = Some work) then mret (- RT_EBUSY)
    else
      qlist (q_remove work) ;;
      qlist (q_insert_before n work) ;;
      upd_work work (set_flag RT_WORK_STATE_PENDING) ;;
      (if bool_decide (wq_work_current q = None) then
         qkern (rt_thread_resume (wq_work_thread q)) ;; qkern (on_sched rt_schedule)
       else mret tt) ;;
      mret RT_EOK.

Definition _workqueue_cancel_work (n work : nat) : M qstate Z :=
  q ← get_wq n;
  if bool_decide (wq_work_current q = Some work) then mret (- RT_EBUSY)
  else
    qlist (q_remove work) ;;
    upd_work work (clear_flag RT_WORK_STATE_PENDING) ;;
    mret RT_EOK.

Definition cancel_timer (work : nat) (x : rt_work) : M qstate unit :=
  qkern (on_timers (rt_timer_stop (UserTimer (wk_timer x)))) ;;
  qkern (rt_timer_detach (UserTimer (wk_timer x))) ;;
  upd_work work (clear_flag RT_WORK_STATE_SUBMITTING).
Definition _workqueue_cancel_delayed_work (work : nat) : M qstate Z :=
  x ← get_work work;
  match wk_workqueue x with
  | None => mret (- EINVAL)
  | Some n =>
    ret ← (if has_flag RT_WORK_STATE_PENDING x then _workqueue_cancel_work n work
           else if has_flag RT_WORK_STATE_SUBMITTING x then cancel_timer work x ;; mret RT_EOK
           else mret RT_EOK);
    if bool_decide (ret <> 0) then mret ret
    else
      upd_work work (set_wk_workqueue None) ;;
      upd_work work (clear_flag RT_WORK_STATE_PENDING) ;;
      mret ret
  end.

(** "work" *)
Definition work_timer_name : list Z := [119; 111; 114; 107].
(** The timer of a work calls _delayed_work_timeout_handler with the work. *)
Definition _workqueue_submit_delayed_work (n work : nat) (ticks : Z) : M qstate Z :=
  x ← get_work work;
  match wk_workqueue x with
  | Some m =>
    if bool_decide (m <> n) then mret (inl (- RT_EINVAL))
    else
      ret ← _workqueue_cancel_delayed_work work;
      mret (if bool_decide (ret < 0) then inl ret else inr tt)
  | None => mret (inr tt)
  end ≫= fun early : Z + unit =>
  match early with
  | inl ret => mret ret
  | inr _ =>
    upd_work work (set_wk_workqueue (Some n)) ;;
    if bool_decide (ticks = 0) then _workqueue_submit_work n work
    else
      upd_work work (set_flag RT_WORK_STATE_SUBMITTING) ;;
      x ← get_work work;
      qkern (rt_timer_init (UserTimer (wk_timer x)) work_timer_name (TF_user (wk_timer x)) ticks RT_TIMER_FLAG_SOFT_TIMER) ;;
      qkern (rt_timer_start (UserTimer (wk_timer x))) ;;
      mret RT_EOK
  end.

Definition _delayed_work_timeout_handler (work : nat) : M qstate unit :=
  x ← get_work work;
  qkern (on_timers (rt_timer_stop (UserTimer (wk_timer x)))) ;;
  qkern (rt_timer_detach (UserTimer (wk_timer x))) ;;
  upd_work work (clear_flag RT_WORK_STATE_SUBMITTING) ;;
  upd_work work (fun x => set_wk_type (Z.land (wk_type x) (Z.lnot RT_WORK_TYPE_DELAYED)) x) ;;
  x ← get_work work;
  match wk_workqueue x with
  | None => ub
  | Some n => _workqueue_submit_work n work ;; mret tt
  end.

(** ** The interface *)

(** "wqueue" *)
Definition wqueue_name : list Z := [119; 113; 117; 101; 117; 101].
(** [queue], [thread] and [stack] are the results of the allocations, [sem] is the semaphore inside
    the queue, [entry] the address of _workqueue_thread_entry.  The thread gets the address of the
    queue as its parameter. *)
Definition rt_workqueue_create (name : list Z) (stack_size priority entry : Z) (queue : option nat) (sem : nat)
    (thread : option nat) (stack : option Z) : M qstate (option nat) :=
  match queue with
  | None => mret None
  | Some n =>
    qlist (q_init n) ;;
    qkern (rt_sem_init sem wqueue_name 0 RT_IPC_FLAG_FIFO) ;;
    ot ← qkern (rt_thread_create name entry (Z.of_nat n) stack_size priority 10 thread stack);
    match ot with
    | None => mret None
    | Some t =>
      put_wq n (RtWorkqueue None sem t) ;;
      qkern (rt_thread_startup t) ;;
      mret (Some n)
    end
  end.

(** The memory of the queue goes back to the heap; its list head stays what it was until the memory
    is used again. *)
Definition rt_workqueue_destroy (n : nat) : M qstate Z :=
  q ← get_wq n;
  qkern (rt_thread_delete (wq_work_thread q)) ;;
  modify (fun s => set_qs_queues (delete n (qs_queues s)) s) ;;
  mret RT_EOK.

Definition rt_workqueue_dowork (n work : nat) : M qstate Z := _workqueue_submit_work n work.

Definition rt_workqueue_submit_work (n work : nat) (time : Z) : M qstate Z :=
  (if bool_decide (time > 0) then upd_work work (fun x => set_wk_type (Z.lor (wk_type x) RT_WORK_TYPE_DELAYED) x) else mret tt) ;;
  x ← get_work work;
  if delayed x then _workqueue_submit_delayed_work n work time else _workqueue_submit_work n work.

Definition rt_workqueue_critical_work (n work : nat) : M qstate Z :=
  q ← get_wq n;
  if bool_decide (wq_work_current q = Some work) then mret (- RT_EBUSY)
  else
    qlist (q_remove work) ;;
    qlist (q_insert_before n work) ;;
    (if bool_decide (wq_work_current q = None) then
       qkern (rt_thread_resume (wq_work_thread q)) ;; qkern (on_sched rt_schedule)
     else mret tt) ;;
    mret RT_EOK.

Definition rt_workqueue_cancel_work (n work : nat) : M qstate Z :=
  x ← get_work work;
  if delayed x then _workqueue_cancel_delayed_work work else _workqueue_cancel_work n work.

(** [inr t]: the caller waits for the end of the current work. *)
Definition rt_workqueue_cancel_work_sync (n work : nat) : M qstate (Z + nat) :=
  q ← get_wq n;
  r ← (if bool_decide (wq_work_current q = Some work) then qkern (rt_sem_take (wq_sem q) RT_WAITING_FOREVER)
       else qlist (q_remove work) ;; mret (inl RT_EOK));
  match r with
  | inl _ => upd_work work (clear_flag RT_WORK_STATE_PENDING) ;; mret (inl RT_EOK)
  | inr t => mret (inr t)
  end.
Definition rt_workqueue_cancel_work_sync_resume (work : nat) : M qstate Z :=
  upd_work work (clear_flag RT_WORK_STATE_PENDING) ;; mret RT_EOK.

Fixpoint cancel_all_loop (nodes : list nat) : M qstate unit :=
  match nodes with
  | [] => mret tt
  | node :: nodes' => qlist (q_remove node) ;; cancel_all_loop nodes'
  end.
Definition rt_workqueue_cancel_all_work (n : nat) : M qstate Z :=
  qkern (on_sched rt_enter_critical) ;;
  nodes ← qlist (q_list n);
  cancel_all_loop nodes ;;
  qkern (on_sched rt_exit_critical) ;;
  mret RT_EOK.

(** [timer] is the timer inside the work. *)
Definition rt_work_init (work timer : nat) : M qstate unit :=
  qlist (q_node_init work) ;;
  put_work work (RtWork 0 0 timer None).
Definition rt_delayed_work_init (work timer : nat) : M qstate unit := rt_work_init work timer.

(** ** Completion *)

Lemma trytake_none k sem v : k_sems k !! sem = Some v -> sem_value v = 0 -> rt_sem_trytake sem k = Some (inl (- RT_ETIMEOUT), k).
Proof. intros Ev H0. unfold rt_sem_trytake, rt_sem_take. munfold. by rewrite (get_sem_run _ _ _ Ev), bool_decide_false by lia. Qed.

(** One unit goes in and comes out again. *)
Lemma give_and_take k sem v :
  sys_inv k -> k_sems k !! sem = Some v -> sem_value v = 0 -> queue_of k (QSem sem) = Some [] -> is_Some (s_current (k_sched k)) ->
  exists k1 k2, rt_sem_release sem k = Some (RT_EOK, k1) /\ rt_sem_trytake sem k1 = Some (inl RT_EOK, k2) /\ sys_inv k2 /\
    k_sched k2 = k_sched k /\ k_timers k2 = k_timers k /\ k_sems k2 = k_sems k.
Proof.
  intros Hs Ev H0 El [c Hc]. destruct (sem_release_ok k sem v [] c (sy_kinv _ Hs) (sy_sems _ Hs) Ev El Hc) as (k1 & E1 & Hk1 & Hi1 & ->).
  assert (Hs1 : sys_inv (sem_given sem v k)) by (apply (sys_calm PSem k); [done|done|done|apply calm_sems]).
  assert (Ev1 : k_sems (sem_given sem v k) !! sem = Some (set_sem_value 1 v)) by (cbn; rewrite lookup_insert_eq, H0; done).
  destruct (sem_take_now _ sem _ 0 Hk1 Hi1 Ev1) as (E2 & Hk2 & Hi2); [done|].
  eexists _, _. split; [exact E1|]. split; [exact E2|]. split; [apply (sys_calm PSem (sem_given sem v k)); [done|done|done|apply calm_sems]|].
  split_and!; [done|done|]. cbn. rewrite insert_insert_eq. rewrite insert_id; [done|]. rewrite Ev. destruct v. cbn in *. by rewrite H0.
Qed.

(** The loop wakes every thread that waits for the semaphore and ends. *)
Lemma completion_loop_ok sem v l : forall fuel k,
  sys_inv k -> k_sems k !! sem = Some v -> sem_value v = 0 -> queue_of k (QSem sem) = Some l -> is_Some (s_current (k_sched k)) ->
  (length l + 2 <= fuel)%nat ->
  exists k', completion_loop fuel sem k = Some (RT_EOK, k') /\ sys_inv k' /\ k_sems k' !! sem = Some v /\ queue_of k' (QSem sem) = Some [] /\
    is_Some (s_current (k_sched k')) /\ s_lock_nest (k_sched k') = s_lock_nest (k_sched k) /\
    (forall u, u ∈ l -> is_Some (thread_at k u) -> exists th', thread_at k' u = Some th' /\ active th') /\ kept (fun u => u ∉ l) k k'.
Proof.
  induction l as [|u l IH]; intros fuel k Hs Ev H0 El Hc Hfuel; cbn [length] in Hfuel; destruct fuel as [|fuel]; try lia;
    cbn [completion_loop]; rewrite (bind_run _ _ _ _ _ (trytake_none k sem v Ev H0)), bool_decide_true by done.
  - destruct fuel as [|fuel]; [lia|]. destruct (give_and_take k sem v Hs Ev H0 El Hc) as (k1 & k2 & E1 & E2 & Hs2 & Es & Et & Em).
    rewrite (bind_run _ _ _ _ _ E1). cbn [completion_loop]. rewrite (bind_run _ _ _ _ _ E2). exists k2. rewrite Es, Em. split_and!; try done.
    + by intros u ?%not_elem_of_nil.
    + intros u th _ E. exists th. unfold thread_at. by rewrite Es.
  - destruct Hc as [c Hc]. destruct (sem_release_ok k sem v (u :: l) c (sy_kinv _ Hs) (sy_sems _ Hs) Ev El Hc) as (k1 & E1 & Hk1 & Hi1 & Hw).
    assert (Hs1 : sys_inv k1) by (apply (sys_calm PSem k); [done|done|done|by apply (sem_release_calm sem v (u :: l))]).
    rewrite (bind_run _ _ _ _ _ E1).
    destruct (IH fuel k1 Hs1) as (k' & E & Hs' & Ev' & El' & Hc' & Hn' & Hact & Hk'); try done.
    + by rewrite (ik_sems _ _ (wk_keep _ _ _ _ Hw)).
    + by apply (wk_queue _ _ _ _ Hw).
    + apply (wk_cur _ _ _ _ Hw).
    + lia.
    + exists k'. split_and!; try done; [by rewrite Hn', (wk_lock _ _ _ _ Hw)| |].
      * assert (Hth : forall x, is_Some (thread_at k x) -> is_Some (thread_at k1 x)).
        { intros x [th Ex]. destruct (decide (x = u)) as [->|Hx].
          - destruct (wk_thread _ _ _ _ Hw th Ex) as (th' & Ex' & _). by exists th'.
          - pose proof (wk_threads _ _ _ _ Hw x Hx) as Hf. unfold thread_at in *. rewrite Ex in Hf. inversion Hf. by eexists. }
        intros x Hin Hx. destruct (decide (x ∈ l)) as [Hl|Hl]; [by apply Hact, Hth|]. apply elem_of_cons in Hin as [->|?]; [|done].
        destruct Hx as [th Eu]. destruct (wk_thread _ _ _ _ Hw th Eu) as (th1 & E1' & Ha & _).
        destruct (Hk' u th1 Hl E1') as (th' & Eu' & Hsch). exists th'. split; [done|]. by apply (th_sched_active th1).
      * intros x th Hx Ex. apply not_elem_of_cons in Hx as [Hxu Hxl]. pose proof (wk_threads _ _ _ _ Hw x Hxu) as Hf. unfold thread_at in Ex.
        rewrite Ex in Hf. inversion Hf as [? th1 Hsch Ea Eb|]. destruct (Hk' x th1 Hxl) as (th' & Ex' & Hsch'); [by unfold thread_at|].
        exists th'. split; [done|]. by transitivity th1.
Qed.

(** Leaving a critical section. *)
Lemma exit_run k : sys_inv k -> 1 <= s_lock_nest (k_sched k) < 2 ^ 15 -> is_Some (s_current (k_sched k)) ->
  exists k', on_sched rt_exit_critical k = Some (tt, k') /\ sys_inv k' /\ all_kept k k' /\ is_Some (s_current (k_sched k')) /\ k_sems k' = k_sems k /\
    (forall h, is_wait h -> queue_of k' h = queue_of k h).
Proof.
  intros Hs Hn Hc. destruct (exit_sys k Hs Hn Hc) as (k' & E & Hs' & Hcalm & Hc' & Hq). exists k'. split_and!; try done; [|by apply (kp_sems _ _ _ (cl_keeps _ _ _ Hcalm))].
  destruct (exit_critical_ok (k_sched k) (ki_sched _ _ (sy_kinv _ Hs)) Hn) as (s' & E' & _ & _ & Hf & _).
  unfold on_sched, zoom in E. rewrite E' in E. injection E as <-. intros u th _ Eu. by apply (frame_lookup _ _ _ _ Hf).
Qed.

Lemma completion_ok n q v l fuel s :
  sys_inv (qs_kernel s) -> qs_queues s !! n = Some q -> k_sems (qs_kernel s) !! wq_sem q = Some v -> sem_value v = 0 ->
  queue_of (qs_kernel s) (QSem (wq_sem q)) = Some l -> is_Some (s_current (k_sched (qs_kernel s))) -> can_lock (qs_kernel s) ->
  (length l + 2 <= fuel)%nat ->
  exists k', _workqueue_work_completion fuel n s = Some (RT_EOK, set_qs_kernel k' s) /\ sys_inv k' /\ k_sems k' !! wq_sem q = Some v /\
    queue_of k' (QSem (wq_sem q)) = Some [] /\
    (forall u, u ∈ l -> is_Some (thread_at (qs_kernel s) u) -> exists th', thread_at k' u = Some th' /\ active th') /\
    kept (fun u => u ∉ l) (qs_kernel s) k'.
Proof.
  intros Hs En Ev H0 El Hc Hlock Hfuel. set (k := qs_kernel s) in *. set (k1 := set_k_sched (set_s_lock_nest (s_lock_nest (k_sched k) + 1) (k_sched k)) k).
  assert (E1 : on_sched rt_enter_critical k = Some (tt, k1)) by (unfold on_sched, zoom; by rewrite (enter_critical_run _ Hlock)).
  destruct (completion_loop_ok (wq_sem q) v l fuel k1) as (k2 & E2 & Hs2 & Ev2 & El2 & Hc2 & Hn2 & Hact & Hk2); try done; [by apply lock_sys|].
  destruct (exit_run k2 Hs2) as (k3 & E3 & Hs3 & Hk3 & _ & Em3 & Hq3); [rewrite Hn2; cbn; unfold can_lock in Hlock; lia|done|].
  exists k3. split_and!; try done.
  - unfold _workqueue_work_completion. rewrite (bind_run (get_wq n) _ s q s) by (unfold get_wq; by rewrite En).
    unfold qkern, zoom. munfold. fold k. rewrite E1. cbn [qs_kernel set_qs_kernel]. rewrite E2. cbn [qs_kernel set_qs_kernel]. by rewrite E3.
  - by rewrite Em3.
  - by rewrite Hq3.
  - intros u Hu Ht. destruct (Hact u Hu Ht) as (th' & Et' & Ha). destruct (Hk3 u th' I Et') as (th3 & E3' & Hsch). exists th3. split; [done|]. by apply (th_sched_active th').
  - intros u th Hu Et. destruct (Hk2 u th Hu Et) as (th2 & Et2 & H2). destruct (Hk3 u th2 I Et2) as (th3 & E3' & H3). exists th3. split; [done|by transitivity th2].
Qed.

(** ** The abstract queue *)

Inductive work_event := ESubmit (w : nat) | ECancel (w : nat) | ETake (w : nat).
Definition spec_event (e : work_event) (l : list nat) : option (list nat) :=
  match e, l with
  | ESubmit w, _ => if decide (w ∈ l) then None else Some (l ++ [w])
  | ECancel w, _ => Some (list_del w l)
  | ETake w, v :: l' => if decide (v = w) then Some l' else None
  | ETake w, [] => None
  end.
Fixpoint spec_run (es : list work_event) (l : list nat) : option (list nat) :=
  match es with
  | [] => Some l
  | e :: es' => match spec_event e l with Some l' => spec_run es' l' | None => None end
  end.
Lemma spec_run_app a b l l' : spec_run a l = Some l' -> spec_run (a ++ b) l = spec_run b l'.
Proof. revert l. induction a as [|e a IH]; intros l; cbn; [by intros [= ->]|]. destruct (spec_event e l); [apply IH|done]. Qed.

(** ** Steps *)

(** Where the thread of the queue is: before the test, between the test and the suspension, asleep or
    woken from it, before taking a work, in the function of a work, before the completion. *)
Inductive phase := PCheck | PSleep | PAsleep | PTake | PBusy (w : nat) | PDone.

Section Steps.
Context (n t sem : nat).

Definition accepted (r : Z) (e : work_event) : list work_event := if bool_decide (r = RT_EOK) then [e] else [].

(** The steps of the thread [t] of queue [n], of those who submit and cancel works (threads or
    interrupts), and of the rest of the system.  Two of them have a condition: nobody submits between
    the test and the suspension of the thread, and nobody takes back the last work while the thread
    is about to take it. *)
Inductive work_step : qstate * phase -> list work_event -> qstate * phase -> Prop :=
| st_check s b s' : running (qs_kernel s) t -> worker_check n s = Some (b, s') ->
    work_step (s, PCheck) [] (s', if (b : bool) then PSleep else PTake)
| st_sleep s u s' : running (qs_kernel s) t -> worker_suspend s = Some (u, s') -> work_step (s, PSleep) [] (s', PAsleep)
| st_wake s : running (qs_kernel s) t -> work_step (s, PAsleep) [] (s, PTake)
| st_take s w s' : running (qs_kernel s) t -> worker_take n s = Some (w, s') -> work_step (s, PTake) [ETake w] (s', PBusy w)
| st_clear s w s' : running (qs_kernel s) t -> worker_clear n s = Some (tt, s') -> work_step (s, PBusy w) [] (s', PDone)
| st_complete s fuel r s' :
    running (qs_kernel s) t -> can_lock (qs_kernel s) -> _workqueue_work_completion fuel n s = Some (r, s') ->
    work_step (s, PDone) [] (s', PCheck)
| st_submit s ph w r s' :
    is_Some (s_current (k_sched (qs_kernel s))) -> is_Some (qs_works s !! w) -> ph <> PSleep ->
    rt_workqueue_dowork n w s = Some (r, s') -> work_step (s, ph) (accepted r (ESubmit w)) (s', ph)
| st_cancel s ph w r s' :
    is_Some (qs_works s !! w) ->
    (ph = PTake \/ ph = PAsleep -> exists v l, qs_lists s !! n = Some l /\ (l = [] \/ v ∈ l /\ v <> w)) ->
    _workqueue_cancel_work n w s = Some (r, s') -> work_step (s, ph) (accepted r (ECancel w)) (s', ph)
| st_init s ph w timer s' : qs_works s !! w = None -> rt_work_init w timer s = Some (tt, s') -> work_step (s, ph) [] (s', ph)
| st_other s ph k' :
    sys_inv k' -> is_Some (thread_at k' t) -> k_sems k' !! sem = k_sems (qs_kernel s) !! sem ->
    (ph = PAsleep -> exists th th', thread_at (qs_kernel s) t = Some th /\ thread_at k' t = Some th' /\ (asleep th -> asleep th') /\ (active th -> active th')) ->
    work_step (s, ph) [] (set_qs_kernel k' s, ph).
Inductive work_run : qstate * phase -> list work_event -> qstate * phase -> Prop :=
| wrun_done x : work_run x [] x
| wrun_step x es1 y es2 z : work_step x es1 y -> work_run y es2 z -> work_run x (es1 ++ es2) z.

(** ** Invariant *)

Definition current_of (ph : phase) : option nat := match ph with PBusy w => Some w | _ => None end.
Definition phase_ok (l : list nat) (k : kernel) (ph : phase) : Prop :=
  match ph with
  | PSleep => l = []
  | PTake => l <> []
  | PAsleep => exists th, thread_at k t = Some th /\ (active th /\ l <> [] \/ asleep th /\ l = [])
  | _ => True
  end.
Record work_inv (l : list nat) (s : qstate) (ph : phase) : Prop := {
  qi_sys : sys_inv (qs_kernel s);
  qi_wf : qwf (qs_lists s);
  qi_list : qs_lists s !! n = Some l;
  qi_only : forall m lm w, qs_lists s !! m = Some lm -> w ∈ lm -> m = n;
  qi_queue : qs_queues s !! n = Some (RtWorkqueue (current_of ph) sem t);
  qi_works : forall w, w ∈ l <-> exists x, qs_works s !! w = Some x /\ has_flag RT_WORK_STATE_PENDING x = true;
  qi_thread : is_Some (thread_at (qs_kernel s) t);
  qi_sem : exists v, k_sems (qs_kernel s) !! sem = Some v /\ sem_value v = 0;
  qi_phase : phase_ok l (qs_kernel s) ph
}.

Lemma pending_set x : has_flag RT_WORK_STATE_PENDING (set_flag RT_WORK_STATE_PENDING x) = true.
Proof.
  apply bool_decide_eq_true. cbn. intros E. apply (f_equal (fun z => Z.testbit z 0)) in E.
  rewrite Z.land_spec, Z.lor_spec, orb_comm in E. done.
Qed.
Lemma pending_clear x : has_flag RT_WORK_STATE_PENDING (clear_flag RT_WORK_STATE_PENDING x) = false.
Proof. apply bool_decide_eq_false. cbn. rewrite <- Z.land_assoc. rewrite Z.land_0_r. tauto. Qed.

Lemma inv_qkernel l s ph k' :
  work_inv l s ph -> sys_inv k' -> is_Some (thread_at k' t) -> k_sems k' !! sem = k_sems (qs_kernel s) !! sem -> phase_ok l k' ph ->
  work_inv l (set_qs_kernel k' s) ph.
Proof. intros [] Hk Ht Hsem Hph. split; cbn; try done. by rewrite Hsem. Qed.

(** The thread of the queue goes on. *)
Lemma inv_moved l s ph ph' :
  work_inv l s ph -> phase_ok l (qs_kernel s) ph' ->
  work_inv l (set_qs_queues (<[n := RtWorkqueue (current_of ph') sem t]> (qs_queues s)) s) ph'.
Proof. intros [] Hph. split; cbn; try done. apply lookup_insert_eq. Qed.
Lemma inv_stays l s ph ph' : work_inv l s ph -> current_of ph' = current_of ph -> phase_ok l (qs_kernel s) ph' -> work_inv l s ph'.
Proof. intros [] Hc Hph. split; try done. by rewrite Hc. Qed.

Lemma not_listed l s ph w x : work_inv l s ph -> qs_works s !! w = Some x -> has_flag RT_WORK_STATE_PENDING x = false -> q_free (qs_lists s) w.
Proof.
  intros Hi Ex Hp m lm Em Hin. assert (m = n) as -> by (by apply (qi_only _ _ _ Hi m lm w)). rewrite (qi_list _ _ _ Hi) in Em. injection Em as <-.
  apply (qi_works _ _ _ Hi) in Hin as (x' & Ex' & Hp'). congruence.
Qed.

(** A work is linked at the end of the list, and the kernel goes on. *)
Lemma inv_added l s ph w x k' :
  work_inv l s ph -> qs_works s !! w = Some x -> has_flag RT_WORK_STATE_PENDING x = false ->
  sys_inv k' -> is_Some (thread_at k' t) -> k_sems k' !! sem = k_sems (qs_kernel s) !! sem -> phase_ok (l ++ [w]) k' ph ->
  work_inv (l ++ [w]) (set_qs_kernel k' (set_qs_works (<[w := set_flag RT_WORK_STATE_PENDING x]> (qs_works s))
                        (set_qs_lists (<[n := l ++ [w]]> (qs_lists s)) s))) ph.
Proof.
  intros Hi Ex Hp Hk Ht Hsem Hph. pose proof (not_listed l s ph w x Hi Ex Hp) as Hfr. destruct Hi as [H1 H2 H3 H4 H5 H6 H7 H8 H9]. split; cbn; try done.
  - apply (qwf_insert _ n l (l ++ [w]) w); [done|done|done| |intros v; set_solver].
    apply NoDup_app. split_and!; [by apply (proj1 H2 n)| |by apply NoDup_singleton]. intros v Hv ->%list_elem_of_singleton. by apply (Hfr n l H3).
  - apply lookup_insert_eq.
  - intros m lm v [[<- _]|[_ Em]]%lookup_insert_Some; [done|by apply (H4 m)].
  - intros v. rewrite elem_of_app, list_elem_of_singleton, lookup_insert. case_decide as Hd.
    + subst v. split; [|by right]. intros _. eexists. split; [done|apply pending_set].
    + rewrite H6. split; [intros [?|?]; [done|by subst]|by left].
  - by rewrite Hsem.
Qed.

(** A work leaves the list, its flag cleared. *)
Lemma inv_removed l s ph w x' :
  work_inv l s ph -> has_flag RT_WORK_STATE_PENDING x' = false -> phase_ok (list_del w l) (qs_kernel s) ph ->
  work_inv (list_del w l) (set_qs_works (<[w := x']> (qs_works s)) (set_qs_lists (list_del w <$> qs_lists s) s)) ph.
Proof.
  intros [H1 H2 H3 H4 H5 H6 H7 H8 H9] Hp Hph. split; cbn; try done.
  - by apply qwf_remove.
  - by rewrite lookup_fmap, H3.
  - intros m lm v. rewrite lookup_fmap. destruct (qs_lists s !! m) as [l0|] eqn:Em; [|done]. cbn. intros [= <-] [Hv _]%elem_of_list_del. by apply (H4 m l0 v).
  - intros v. rewrite elem_of_list_del, lookup_insert. case_decide as Hd.
    + subst v. split; [tauto|]. intros (x & [= <-] & Hp'). congruence.
    + rewrite H6. split; [tauto|by intros ?].
Qed.

(** *** The operations *)

Lemma qkern_run {A} (c : M kernel A) s a k' : c (qs_kernel s) = Some (a, k') -> qkern c s = Some (a, set_qs_kernel k' s).
Proof. intros E. unfold qkern, zoom. by rewrite E. Qed.
Lemma get_work_run w x s : qs_works s !! w = Some x -> get_work w s = Some (x, s).
Proof. intros E. unfold get_work. by rewrite E. Qed.
Lemma upd_work_run w f x s : qs_works s !! w = Some x -> upd_work w f s = Some (tt, set_qs_works (<[w := f x]> (qs_works s)) s).
Proof. intros E. unfold upd_work. by rewrite (bind_run _ _ _ _ _ (get_work_run w x s E)). Qed.
Lemma get_wq_run l s ph : work_inv l s ph -> get_wq n s = Some (RtWorkqueue (current_of ph) sem t, s).
Proof. intros Hi. unfold get_wq. by rewrite (qi_queue _ _ _ Hi). Qed.

Lemma take_work_ok w l s : work_inv (w :: l) s PTake -> exists s', worker_take n s = Some (w, s') /\ work_inv l s' (PBusy w).
Proof.
  intros Hi. pose proof (proj1 (qi_wf _ _ _ Hi) n _ (qi_list _ _ _ Hi)) as Hnd. destruct (proj1 (qi_works _ _ _ Hi w)) as (x & Ex & _); [set_solver|].
  eexists. split.
  - unfold worker_take, qlist, q_list, q_remove, get_wq, put_wq, upd_work, get_work, put_work. munfold. cbn. rewrite (qi_list _ _ _ Hi). cbn.
    rewrite (qi_queue _ _ _ Hi). cbn. rewrite Ex. cbn. rewrite lookup_insert_eq. cbn. rewrite insert_insert_eq. done.
  - pose proof (inv_moved _ s PTake (PBusy w) Hi I) as Hi1.
    pose proof (inv_removed _ _ (PBusy w) w (set_wk_workqueue None (clear_flag RT_WORK_STATE_PENDING x)) Hi1 (pending_clear x) I) as Hi2.
    rewrite list_del_head in Hi2 by done. exact Hi2.
Qed.

Lemma submit_ok w l s ph :
  work_inv l s ph -> is_Some (s_current (k_sched (qs_kernel s))) -> is_Some (qs_works s !! w) -> ph <> PSleep ->
  exists r s' l', rt_workqueue_dowork n w s = Some (r, s') /\ work_inv l' s' ph /\ spec_run (accepted r (ESubmit w)) l = Some l' /\
    (r = - RT_EBUSY /\ s' = s /\ (w ∈ l \/ ph = PBusy w) \/ r = RT_EOK /\ l' = l ++ [w] /\ w ∉ l).
Proof.
  intros Hi Hc [x Ex] Hph. unfold rt_workqueue_dowork, _workqueue_submit_work. rewrite (bind_run _ _ _ _ _ (get_work_run w x s Ex)).
  destruct (has_flag RT_WORK_STATE_PENDING x) eqn:Hp.
  { exists (- RT_EBUSY), s, l. split_and!; try done. left. split_and!; try done. left. apply (qi_works _ _ _ Hi). by exists x. }
  rewrite (bind_run _ _ _ _ _ (get_wq_run l s ph Hi)). cbn [wq_work_current wq_work_thread]. case_bool_decide as Hcur.
  { exists (- RT_EBUSY), s, l. split_and!; try done. left. split_and!; try done. right. destruct ph; try done. cbn in Hcur. congruence. }
  pose proof (not_listed l s ph w x Hi Ex Hp) as Hfr. pose proof (Hfr n l (qi_list _ _ _ Hi)) as Hnl.
  set (s1 := set_qs_works (<[w := set_flag RT_WORK_STATE_PENDING x]> (qs_works s)) (set_qs_lists (<[n := l ++ [w]]> (qs_lists s)) s)).
  assert (E1 : forall f : unit -> M qstate Z, (qlist (q_remove w) ;; qlist (q_insert_before n w) ;; upd_work w (set_flag RT_WORK_STATE_PENDING) ≫= f) s = f tt s1).
  { intros f. unfold qlist, q_remove, q_insert_before, q_update, upd_work, get_work, put_work. munfold. cbn. rewrite (q_del_free _ w Hfr), (qi_list _ _ _ Hi).
    rewrite decide_True by done. cbn. rewrite Ex. done. }
  rewrite (E1 (fun _ => _)).
  assert (exists k', (if bool_decide (current_of ph = None) then qkern (rt_thread_resume t) ;; qkern (on_sched rt_schedule) else mret tt) s1 =
    Some (tt, set_qs_kernel k' s1) /\ sys_inv k' /\ is_Some (thread_at k' t) /\ k_sems k' !! sem = k_sems (qs_kernel s) !! sem /\ phase_ok (l ++ [w]) k' ph) as
    (k' & E2 & Hk & Ht & Hsem & Hpk).
  { destruct (decide (current_of ph = None)) as [H0|H0].
    - rewrite bool_decide_true by done. destruct (rouse_ok (qs_kernel s) t (qi_sys _ _ _ Hi) (qi_thread _ _ _ Hi) Hc) as (r & k1 & k' & Er & Es & Hk & Hcalm & Hro & _).
      exists k'. split_and!; [|done|by apply (roused_there _ _ _ t Hro), (qi_thread _ _ _ Hi)|by rewrite (kp_sems _ _ _ (cl_keeps _ _ _ Hcalm))|].
      + rewrite (bind_run _ _ _ _ _ (qkern_run _ s1 _ _ Er)). by rewrite (qkern_run _ (set_qs_kernel k1 s1) _ _ Es).
      + destruct ph; try done; [|by destruct l]. destruct (qi_phase _ _ _ Hi) as (th & Et & Hth). destruct (roused_fate _ _ _ t th Hro Et) as (th' & Et' & H1 & H2).
        exists th'. split; [done|]. left. split; [|by destruct l]. destruct Hth as [[? _]|[Ha _]]; [by apply H1|]. by destruct (H2 Ha) as [?|[? _]].
    - rewrite bool_decide_false by done. exists (qs_kernel s). split_and!; [by destruct s|apply Hi|apply Hi|done|]. by destruct ph. }
  exists RT_EOK, (set_qs_kernel k' s1), (l ++ [w]). rewrite (bind_run _ _ _ _ _ E2). split_and!; [done|by apply inv_added| |by right].
  unfold accepted. rewrite bool_decide_true by done. cbn [spec_run spec_event]. by rewrite decide_False.
Qed.

Lemma cancel_ok w l s ph :
  work_inv l s ph -> is_Some (qs_works s !! w) -> (ph = PTake \/ ph = PAsleep -> l = [] \/ exists v, v ∈ l /\ v <> w) ->
  exists r s' l', _workqueue_cancel_work n w s = Some (r, s') /\ work_inv l' s' ph /\ spec_run (accepted r (ECancel w)) l = Some l' /\
    (r = - RT_EBUSY /\ s' = s /\ ph = PBusy w \/ r = RT_EOK /\ l' = list_del w l).
Proof.
  intros Hi [x Ex] Hgd. unfold _workqueue_cancel_work. rewrite (bind_run _ _ _ _ _ (get_wq_run l s ph Hi)). cbn [wq_work_current]. case_bool_decide as Hcur.
  { exists (- RT_EBUSY), s, l. split_and!; try done. left. split_and!; try done. destruct ph; try done. cbn in Hcur. congruence. }
  eexists RT_EOK, _, (list_del w l). split; [|split; [|split; [done|by right]]].
  - unfold qlist, q_remove. munfold. cbn. rewrite (upd_work_run w _ x) by done. done.
  - apply (inv_removed l s ph w (clear_flag RT_WORK_STATE_PENDING x)); [done|apply pending_clear|]. pose proof (qi_phase _ _ _ Hi) as Hph. destruct ph; try done; cbn in *.
    + by subst l.
    + destruct Hph as (th & Et & Hth). exists th. split; [done|]. destruct Hth as [[Ha Hl]|[Ha ->]]; [left|by right]. split; [done|].
      destruct (Hgd ltac:(by right)) as [?|(v & Hv & Hne)]; [done|]. intros E. apply (not_elem_of_nil v). rewrite <- E. by apply elem_of_list_del.
    + destruct (Hgd ltac:(by left)) as [?|(v & Hv & Hne)]; [done|]. intros E. apply (not_elem_of_nil v). rewrite <- E. by apply elem_of_list_del.
Qed.

Lemma sleep_ok s : work_inv [] s PSleep -> running (qs_kernel s) t -> exists s', worker_suspend s = Some (t, s') /\ work_inv [] s' PAsleep.
Proof.
  intros Hi Hr. destruct (park_ok (qs_kernel s) t RT_WAITING_FOREVER (qi_sys _ _ _ Hi) Hr ltac:(by left)) as (k' & th' & E & Hk & Hcalm & _ & Et' & Ha & _).
  unfold park in E. rewrite bool_decide_false in E by tauto. munfold in E. destruct (rt_thread_suspend t (qs_kernel s)) as [[r k1]|] eqn:E1; [|done].
  exists (set_qs_kernel k' s). split.
  - unfold worker_suspend. rewrite (bind_run (qkern self) _ s t s) by (rewrite (qkern_run _ s t (qs_kernel s) (self_run _ _ (proj1 Hr))); by destruct s).
    rewrite (bind_run _ _ _ _ _ (qkern_run _ s _ _ E1)). by rewrite (bind_run _ _ _ _ _ (qkern_run _ (set_qs_kernel k1 s) _ _ E)).
  - apply (inv_stays [] _ PSleep); [|done|exists th'; split; [done|by right]].
    apply inv_qkernel; [done|done|by eexists|by rewrite (kp_sems _ _ _ (cl_keeps _ _ _ Hcalm))|done].
Qed.

Lemma check_ok l s : work_inv l s PCheck -> exists b, worker_check n s = Some (b, s) /\ work_inv l s (if (b : bool) then PSleep else PTake).
Proof.
  intros Hi. exists (bool_decide (l = [])). split.
  - unfold worker_check, qlist, q_isempty. munfold. cbn. rewrite (qi_list _ _ _ Hi). by destruct s.
  - case_bool_decide; (apply (inv_stays l s PCheck); [done|done|done]).
Qed.
Lemma clear_ok l s w : work_inv l s (PBusy w) -> exists s', worker_clear n s = Some (tt, s') /\ work_inv l s' PDone.
Proof.
  intros Hi. eexists. split; [unfold worker_clear; by rewrite (bind_run _ _ _ _ _ (get_wq_run _ _ _ Hi))|]. by apply (inv_moved l s (PBusy w) PDone).
Qed.

(** Fuel for the completion: the threads that wait for the current work. *)
Definition waiters (s : qstate) : nat := match queue_of (qs_kernel s) (QSem sem) with Some l => length l | None => 0%nat end.
Lemma complete_ok l s fuel :
  work_inv l s PDone -> running (qs_kernel s) t -> can_lock (qs_kernel s) -> (waiters s + 2 <= fuel)%nat ->
  exists k', _workqueue_work_completion fuel n s = Some (RT_EOK, set_qs_kernel k' s) /\ work_inv l (set_qs_kernel k' s) PCheck /\
    queue_of k' (QSem sem) = Some [] /\
    forall u lw, queue_of (qs_kernel s) (QSem sem) = Some lw -> u ∈ lw -> is_Some (thread_at (qs_kernel s) u) -> exists th', thread_at k' u = Some th' /\ active th'.
Proof.
  intros Hi Hr Hlock Hfuel. destruct (qi_sem _ _ _ Hi) as (v & Ev & H0). destruct (sy_sems _ (qi_sys _ _ _ Hi) sem v Ev) as (_ & _ & lw & Elw & _).
  unfold waiters in Hfuel. rewrite Elw in Hfuel.
  destruct (completion_ok n _ v lw fuel s (qi_sys _ _ _ Hi) (qi_queue _ _ _ Hi) Ev H0 Elw) as (k' & E & Hk & Ev' & Elw' & Hact & Hkept); [|done|done|].
  { destruct Hr as [-> _]. by eexists. }
  cbn [wq_sem] in Ev', Elw'. exists k'. split; [done|]. split_and!; [|done|].
  - apply (inv_stays l _ PDone); [|done|done]. apply inv_qkernel; [done|done| |by rewrite Ev, Ev'|done].
    destruct (qi_thread _ _ _ Hi) as [th Et]. destruct (decide (t ∈ lw)) as [Hin|Hin].
    + destruct (Hact t Hin ltac:(by eexists)) as (th' & -> & _). by eexists.
    + destruct (Hkept t th Hin Et) as (th' & -> & _). by eexists.
  - intros u lw' Elw2 Hu Hth. rewrite Elw in Elw2. injection Elw2 as <-. by apply Hact.
Qed.

Lemma completion_loop_more sem0 r k k' : forall fuel, completion_loop fuel sem0 k = Some (r, k') ->
  forall more, (fuel <= more)%nat -> completion_loop more sem0 k = Some (r, k').
Proof.
  intros fuel. revert k. induction fuel as [|fuel IH]; intros k E more Hle; [done|]. destruct more as [|more]; [lia|]. cbn [completion_loop] in *.
  munfold in E. munfold. destruct (rt_sem_trytake sem0 k) as [[[r0|u] k1]|]; [|done|done]. case_bool_decide; [|done].
  destruct (rt_sem_release sem0 k1) as [[r1 k2]|]; [|done]. apply IH; [done|lia].
Qed.

(** Every step is a step of the abstract queue. *)
Lemma work_step_ok s ph es s' ph' l :
  work_inv l s ph -> work_step (s, ph) es (s', ph') -> exists l', spec_run es l = Some l' /\ work_inv l' s' ph'.
Proof.
  intros Hi Hstep. inversion Hstep as [s0 b s1 Hr E|s0 u s1 Hr E|s0 Hr|s0 w s1 Hr E|s0 w s1 Hr E|s0 fuel r s1 Hr Hlock E|
    s0 ph0 w r s1 Hc Hw Hph E|s0 ph0 w r s1 Hw Hgd E|s0 ph0 w timer s1 Hw E|s0 ph0 k' Hk Ht Hsem Hph]; subst.
  - destruct (check_ok l s Hi) as (b' & E' & Hi'). rewrite E in E'. injection E' as <- ->. by exists l.
  - pose proof (qi_phase _ _ _ Hi) as Hl. cbn in Hl. subst l. destruct (sleep_ok s Hi Hr) as (s2 & E' & Hi'). rewrite E in E'. injection E' as _ <-. by exists [].
  - exists l. split; [done|]. apply (inv_stays l s' PAsleep); [done|done|]. destruct (qi_phase _ _ _ Hi) as (th & Et & [[_ ?]|[Ha _]]); [done|].
    destruct Hr as [_ (th0 & Et0 & Hr)]. unfold thread_at in Et. rewrite Et in Et0. injection Et0 as <-. unfold asleep in Ha. by rewrite Hr in Ha.
  - pose proof (qi_phase _ _ _ Hi) as Hl. cbn in Hl. destruct l as [|v l]; [done|]. destruct (take_work_ok v l s Hi) as (s2 & E' & Hi'). rewrite E in E'. injection E' as -> <-.
    exists l. cbn. by rewrite decide_True.
  - destruct (clear_ok l s w Hi) as (s2 & E' & Hi'). rewrite E in E'. injection E' as <-. by exists l.
  - destruct (complete_ok l s (fuel + waiters s + 2) Hi Hr Hlock ltac:(lia)) as (k' & E' & Hi' & _). exists l. split; [done|].
    assert (set_qs_kernel k' s = s') as <-; [|done]. unfold _workqueue_work_completion in *. rewrite (bind_run _ _ _ _ _ (get_wq_run _ _ _ Hi)) in E.
    rewrite (bind_run _ _ _ _ _ (get_wq_run _ _ _ Hi)) in E'.
    unfold qkern, zoom in E, E'. munfold in E. munfold in E'. destruct (on_sched rt_enter_critical (qs_kernel s)) as [[[] k1]|]; [|done].
    cbn [qs_kernel set_qs_kernel wq_sem] in *. destruct (completion_loop fuel sem k1) as [[r1 k2]|] eqn:E1; [|done].
    rewrite (completion_loop_more sem r1 k1 k2 fuel E1) in E' by lia. cbn [qs_kernel set_qs_kernel] in *.
    destruct (on_sched rt_exit_critical k2) as [[[] k3]|]; [|done]. congruence.
  - destruct (submit_ok w l s ph' Hi Hc Hw Hph) as (r' & s2 & l' & E' & Hi' & Hsp & _). rewrite E in E'. injection E' as <- <-. by exists l'.
  - destruct (cancel_ok w l s ph' Hi Hw) as (r' & s2 & l' & E' & Hi' & Hsp & _).
    { intros Hp. destruct (Hgd Hp) as (v & l0 & El & Hv). rewrite (qi_list _ _ _ Hi) in El. injection El as <-. destruct Hv as [?|[? ?]]; [by left|right; by exists v]. }
    rewrite E in E'. injection E' as <- <-. by exists l'.
  - exists l. split; [done|]. unfold rt_work_init, qlist, q_node_init, put_work in E. munfold in E. case_decide as Hf; [|done]. injection E as <-.
    destruct Hi as [H1 H2 H3 H4 H5 H6 H7 H8 H9]. split; cbn; try done. intros v. rewrite lookup_insert. case_decide as Hd; [|apply H6]. subst v. rewrite H6, Hw.
    split; [by intros (x & ? & _)|]. intros (x & [= <-] & Hp). done.
  - exists l. split; [done|]. apply inv_qkernel; [done|done|done|done|]. pose proof (qi_phase _ _ _ Hi) as H9. destruct ph'; try done.
    destruct (Hph eq_refl) as (th & th' & E & E' & Ha & Hb). destruct H9 as (th0 & E0 & Hc). rewrite E in E0. injection E0 as ->.
    exists th'. split; [done|]. destruct Hc as [[? ?]|[? ?]]; [left|right]; auto.
Qed.
Lemma work_run_ok x es y : work_run x es y -> forall l, work_inv l x.1 x.2 -> exists l', spec_run es l = Some l' /\ work_inv l' y.1 y.2.
Proof.
  induction 1 as [x|[s1 ph1] es1 [s2 ph2] es2 z Hstep _ IH]; intros l Hi; [by exists l|]. cbn in *.
  destruct (work_step_ok s1 ph1 es1 s2 ph2 l Hi Hstep) as (l1 & E1 & Hi1). destruct (IH l1 Hi1) as (l2 & E2 & Hi2). exists l2. split; [|done].
  by rewrite (spec_run_app _ _ _ _ E1).
Qed.

End Steps.
