(* ===== verification/Device.v ===== *)
(** * Devices and the console (rt-thread/src/device.c, irq.c, kservice.c)

    The device registry, the reference counted open and close, the calls that are passed on
    to a driver, errno, and the console that rt_kputs and rt_kprintf write to.

    A driver is code outside of these files: the function pointers of a struct rt_device are
    the number of a driver ([dv_driver]), and [ops] gives the handlers of each driver, which
    act on the whole state and have a state [D] of their own.  [DriverSpec] is what device.c
    relies on.  A handler returns before another thread runs. *)
From S2P Require Import Prelude RtList KString KMem Kprintf Kernel Sched Timer Object Thread Lifecycle Idle Ipc System Creation.
From Stdlib Require Import String Ascii.
From stdpp Require Import base gmap sets list.
From Stdlib Require Import ZArith Lia.
#[local] Open Scope Z_scope.

(** ** Data *)

Definition RT_DEVICE_FLAG_STANDALONE : Z := 0x008.
Definition RT_DEVICE_FLAG_ACTIVATED : Z := 0x010.
Definition RT_DEVICE_FLAG_STREAM : Z := 0x040.
Definition RT_DEVICE_OFLAG_CLOSE : Z := 0x000.
Definition RT_DEVICE_OFLAG_RDWR : Z := 0x003.
Definition RT_DEVICE_OFLAG_OPEN : Z := 0x008.
Definition RT_DEVICE_OFLAG_MASK : Z := 0xf0f.
Definition RT_CONSOLEBUF_SIZE : Z := 256.

(** struct rt_device without its object header. *)
Record rt_device := RtDevice {
  dv_type : Z;
  dv_flag : Z;
  dv_open_flag : Z;
  dv_ref_count : Z;
  dv_device_id : Z;
  dv_rx_indicate : option nat;
  dv_tx_complete : option nat;
  dv_driver : option nat;
  dv_user_data : Z;
}.
Definition set_dv_flag (v : Z) (d : rt_device) : rt_device :=
  RtDevice (dv_type d) v (dv_open_flag d) (dv_ref_count d) (dv_device_id d) (dv_rx_indicate d) (dv_tx_complete d) (dv_driver d) (dv_user_data d).
Definition set_dv_open_flag (v : Z) (d : rt_device) : rt_device :=
  RtDevice (dv_type d) (dv_flag d) v (dv_ref_count d) (dv_device_id d) (dv_rx_indicate d) (dv_tx_complete d) (dv_driver d) (dv_user_data d).
Definition set_dv_ref_count (v : Z) (d : rt_device) : rt_device :=
  RtDevice (dv_type d) (dv_flag d) (dv_open_flag d) v (dv_device_id d) (dv_rx_indicate d) (dv_tx_complete d) (dv_driver d) (dv_user_data d).
Definition set_dv_rx_indicate (v : option nat) (d : rt_device) : rt_device :=
  RtDevice (dv_type d) (dv_flag d) (dv_open_flag d) (dv_ref_count d) (dv_device_id d) v (dv_tx_complete d) (dv_driver d) (dv_user_data d).
Definition set_dv_tx_complete (v : option nat) (d : rt_device) : rt_device :=
  RtDevice (dv_type d) (dv_flag d) (dv_open_flag d) (dv_ref_count d) (dv_device_id d) (dv_rx_indicate d) v (dv_driver d) (dv_user_data d).

(** The kernel with the devices, _console_device, __rt_errno, rt_interrupt_nest, the memory
    that holds strings and buffers, and the state of the drivers. *)
Record dsys {D : Type} := Dsys {
  d_kernel : kernel;
  d_devs : gmap nat rt_device;
  d_console : option nat;
  d_errno : Z;
  d_nest : Z;
  d_mem : gmap Z Z;
  d_drv : D;
}.
Arguments dsys : clear implicits.
Arguments Dsys {D}.

(** The handlers of struct rt_device; RT_NULL is [None]. *)
Record device_ops {D : Type} := DeviceOps {
  op_init : option (nat -> M (dsys D) Z);
  op_open : option (nat -> Z -> M (dsys D) Z);
  op_close : option (nat -> M (dsys D) Z);
  op_read : option (nat -> Z -> Z -> Z -> M (dsys D) Z);
  op_write : option (nat -> Z -> Z -> Z -> M (dsys D) Z);
  op_control : option (nat -> Z -> Z -> M (dsys D) Z);
}.
Arguments device_ops : clear implicits.
Arguments DeviceOps {D}.
Definition no_ops {D} : device_ops D := DeviceOps None None None None None None.

Section Device.
Context {D : Type} (ops : nat -> device_ops D).
(** The address of the static buffer of rt_kprintf, and the size of a device. *)
Context (rt_log_buf sizeof_rt_device : Z).
Implicit Types (s : dsys D).

Definition set_d_kernel (v : kernel) s : dsys D := Dsys v (d_devs s) (d_console s) (d_errno s) (d_nest s) (d_mem s) (d_drv s).
Definition set_d_devs (v : gmap nat rt_device) s : dsys D := Dsys (d_kernel s) v (d_console s) (d_errno s) (d_nest s) (d_mem s) (d_drv s).
Definition set_d_console (v : option nat) s : dsys D := Dsys (d_kernel s) (d_devs s) v (d_errno s) (d_nest s) (d_mem s) (d_drv s).
Definition set_d_errno (v : Z) s : dsys D := Dsys (d_kernel s) (d_devs s) (d_console s) v (d_nest s) (d_mem s) (d_drv s).
Definition set_d_nest (v : Z) s : dsys D := Dsys (d_kernel s) (d_devs s) (d_console s) (d_errno s) v (d_mem s) (d_drv s).
Definition set_d_mem (v : gmap Z Z) s : dsys D := Dsys (d_kernel s) (d_devs s) (d_console s) (d_errno s) (d_nest s) v (d_drv s).

Definition on_kernel {A} (c : M kernel A) : M (dsys D) A := zoom d_kernel set_d_kernel c.
Definition on_mem {A} (c : M (gmap Z Z) A) : M (dsys D) A := zoom d_mem set_d_mem c.
Definition rd_dev (dev : nat) : M (dsys D) rt_device := fun s =>
  match d_devs s !! dev with Some d => Some (d, s) | None => None end.
Definition upd_dev (dev : nat) (f : rt_device -> rt_device) : M (dsys D) unit := fun s =>
  match d_devs s !! dev with Some d => Some (tt, set_d_devs (<[dev := f d]> (d_devs s)) s) | None => None end.
(** The handlers of a device. *)
Definition dev_ops (d : rt_device) : device_ops D := match dv_driver d with Some i => ops i | None => no_ops end.
(** [(d->flag & f) != 0] *)
Definition has (v f : Z) : bool := bool_decide (Z.land v f <> 0).

(** ** Interrupt nesting and errno *)

Definition rt_interrupt_enter : M (dsys D) unit := modify (fun s => set_d_nest (u8 (d_nest s + 1)) s).
Definition rt_interrupt_leave : M (dsys D) unit := modify (fun s => set_d_nest (u8 (d_nest s - 1)) s).
Definition rt_interrupt_get_nest : M (dsys D) Z := gets d_nest.

Definition rt_get_errno : M (dsys D) Z :=
  nest ← rt_interrupt_get_nest;
  if bool_decide (nest <> 0) then gets d_errno
  else
    tid ← on_kernel rt_thread_self;
    match tid with
    | None => gets d_errno
    | Some t => th ← on_kernel (get_thread t); mret (th_error th)
    end.

Definition rt_set_errno (error : Z) : M (dsys D) unit :=
  nest ← rt_interrupt_get_nest;
  if bool_decide (nest <> 0) then modify (set_d_errno error)
  else
    tid ← on_kernel rt_thread_self;
    match tid with
    | None => modify (set_d_errno error)
    | Some t => on_kernel (set_thread t (set_th_error error))
    end.

(** ** Registering and finding *)

(** The walk of rt_device_find, in a critical section once threads run. *)
Definition find_device (name : list Z) : M kernel (option obj_id) :=
  cur ← rt_thread_self;
  (if bool_decide (cur <> None) then on_sched rt_enter_critical else mret tt) ;;
  information ← liftO (rt_object_get_information RT_Object_Class_Device);
  l ← on_objs (oq (q_list information));
  r ← on_objs (find_name name l);
  cur ← rt_thread_self;
  (if bool_decide (cur <> None) then on_sched rt_exit_critical else mret tt) ;;
  mret r.
(** The object is cast to a device. *)
Definition rt_device_find (name : list Z) : M (dsys D) (option nat) :=
  r ← on_kernel (find_device name);
  match r with
  | None => mret None
  | Some (ODevice n) => mret (Some n)
  | Some _ => ub
  end.

Definition rt_device_register (dev : option nat) (name : list Z) (flags : Z) : M (dsys D) Z :=
  match dev with
  | None => mret (- RT_ERROR)
  | Some dev =>
      r ← rt_device_find name;
      if bool_decide (r <> None) then mret (- RT_ERROR)
      else
        on_kernel (rt_object_init (ODevice dev) RT_Object_Class_Device name) ;;
        upd_dev dev (fun d => set_dv_open_flag 0 (set_dv_ref_count 0 (set_dv_flag flags d))) ;;
        mret RT_EOK
  end.

Definition rt_device_unregister (dev : nat) : M (dsys D) Z :=
  on_kernel (rt_object_detach (ODevice dev)) ;;
  mret RT_EOK.

Definition rt_device_init_all : M (dsys D) Z := mret RT_EOK.

(** [malloc] is the device that rt_malloc returns for a size. *)
Definition rt_device_create (type attach_size : Z) (malloc : Z -> option nat) : M (dsys D) (option nat) :=
  match malloc (u32 (RT_ALIGN sizeof_rt_device + RT_ALIGN attach_size)) with
  | None => mret None
  | Some n =>
      modify (fun s => set_d_devs (<[n := RtDevice type 0 0 0 0 None None None 0]> (d_devs s)) s) ;;
      mret (Some n)
  end.

(** rt_object_detach and rt_free of the memory that holds the object and the device. *)
Definition rt_device_destroy (dev : nat) : M (dsys D) unit :=
  on_kernel (rt_object_delete (ODevice dev)) ;;
  _ ← rd_dev dev;
  modify (fun s => set_d_devs (delete dev (d_devs s)) s).

(** ** Calls to the driver *)

Definition rt_device_read (dev : nat) (pos buffer size : Z) : M (dsys D) Z :=
  d ← rd_dev dev;
  if bool_decide (dv_ref_count d = 0) then
    rt_set_errno (- RT_ERROR) ;; mret 0
  else
    match op_read (dev_ops d) with
    | Some device_read => device_read dev pos buffer size
    | None => rt_set_errno (- RT_ENOSYS) ;; mret 0
    end.

Definition rt_device_write (dev : nat) (pos buffer size : Z) : M (dsys D) Z :=
  d ← rd_dev dev;
  if bool_decide (dv_ref_count d = 0) then
    rt_set_errno (- RT_ERROR) ;; mret 0
  else
    match op_write (dev_ops d) with
    | Some device_write => device_write dev pos buffer size
    | None => rt_set_errno (- RT_ENOSYS) ;; mret 0
    end.

Definition rt_device_control (dev : nat) (cmd arg : Z) : M (dsys D) Z :=
  d ← rd_dev dev;
  match op_control (dev_ops d) with
  | Some device_control => device_control dev cmd arg
  | None => mret (- RT_ENOSYS)
  end.

Definition rt_device_set_rx_indicate (dev : nat) (rx_ind : option nat) : M (dsys D) Z :=
  upd_dev dev (set_dv_rx_indicate rx_ind) ;; mret RT_EOK.
Definition rt_device_set_tx_complete (dev : nat) (tx_done : option nat) : M (dsys D) Z :=
  upd_dev dev (set_dv_tx_complete tx_done) ;; mret RT_EOK.

(** ** Console output *)

(** The weak function that a board may replace. *)
Definition rt_hw_console_output (str : Z) : M (dsys D) unit := mret tt.

(** [length] bytes at [str] to the console device, which is in stream mode meanwhile. *)
Definition console_write (console : nat) (str length : Z) : M (dsys D) unit :=
  d ← rd_dev console;
  let old_flag := dv_open_flag d in
  upd_dev console (fun d => set_dv_open_flag (Z.lor (dv_open_flag d) RT_DEVICE_FLAG_STREAM) d) ;;
  _ ← rt_device_write console 0 str length;
  upd_dev console (set_dv_open_flag old_flag).

(** The characters of the string at an address; there are at most as many as bytes of memory. *)
Fixpoint c_string (fuel : nat) (a : Z) : M (gmap Z Z) (list Z) :=
  c ← ldb a;
  if bool_decide (c = 0) then mret []
  else match fuel with O => ub | S fuel => r ← c_string fuel (a + 1); mret (c :: r) end.

Definition rt_kputs (str : option Z) : M (dsys D) unit :=
  match str with
  | None => mret tt
  | Some str =>
      console ← gets d_console;
      match console with
      | None => rt_hw_console_output str
      | Some console =>
          fuel ← gets (fun s => size (d_mem s));
          text ← on_mem (c_string fuel str);
          console_write console str (Z.of_nat (rt_strlen text))
      end
  end.

Definition rt_kprintf (fmt : list Z) (args : list arg) : M (dsys D) unit :=
  length ← on_mem (rt_vsnprintf rt_log_buf (RT_CONSOLEBUF_SIZE - 1) fmt args);
  let length := u32 length in
  let length := if bool_decide (length > RT_CONSOLEBUF_SIZE - 1) then RT_CONSOLEBUF_SIZE - 1 else length in
  console ← gets d_console;
  match console with
  | None => rt_hw_console_output rt_log_buf
  | Some console => console_write console rt_log_buf length
  end.

(** ** Initialising, opening and closing *)

(** The name of a device as a string; without a NUL in its eight bytes the reader of the
    string leaves the array. *)
Fixpoint name_text (l : list Z) : option (list Z) :=
  match l with
  | [] => None
  | c :: l => if bool_decide (c = 0) then Some [] else r ← name_text l; Some (c :: r)
  end.
Definition lit (t : string) : list Z := map ch (list_ascii_of_string t).
Definition init_failed_text : list Z := lit "To initialize device:%s failed. The error code is %d" ++ [10].
Definition init_failed (dev : nat) (result : Z) : M (dsys D) unit :=
  ob ← on_kernel (on_objs (rd_obj (ODevice dev)));
  name ← liftO (name_text (ob_name ob));
  rt_kprintf init_failed_text [AStr (Some name); AWord (u32 result)].

Definition activate (dev : nat) : M (dsys D) unit :=
  upd_dev dev (fun d => set_dv_flag (Z.lor (dv_flag d) RT_DEVICE_FLAG_ACTIVATED) d).

Definition rt_device_init (dev : nat) : M (dsys D) Z :=
  d ← rd_dev dev;
  match op_init (dev_ops d) with
  | Some device_init =>
      if has (dv_flag d) RT_DEVICE_FLAG_ACTIVATED then mret RT_EOK
      else
        result ← device_init dev;
        (if bool_decide (result <> RT_EOK) then init_failed dev result else activate dev) ;;
        mret result
  | None => mret RT_EOK
  end.

(** The first part of rt_device_open; [Some result] is the early return. *)
Definition open_init (dev : nat) : M (dsys D) (option Z) :=
  d ← rd_dev dev;
  if has (dv_flag d) RT_DEVICE_FLAG_ACTIVATED then mret None
  else
    match op_init (dev_ops d) with
    | Some device_init =>
        result ← device_init dev;
        if bool_decide (result <> RT_EOK) then init_failed dev result ;; mret (Some result)
        else activate dev ;; mret None
    | None => activate dev ;; mret None
    end.

Definition open_driver (dev : nat) (oflag : Z) : M (dsys D) Z :=
  d ← rd_dev dev;
  match op_open (dev_ops d) with
  | Some device_open => device_open dev oflag
  | None => upd_dev dev (set_dv_open_flag (Z.land oflag RT_DEVICE_OFLAG_MASK)) ;; mret RT_EOK
  end.

Definition succeeded (result : Z) : bool := bool_decide (result = RT_EOK \/ result = - RT_ENOSYS).

Definition rt_device_open (dev : nat) (oflag : Z) : M (dsys D) Z :=
  early ← open_init dev;
  match early with
  | Some result => mret result
  | None =>
      d ← rd_dev dev;
      if has (dv_flag d) RT_DEVICE_FLAG_STANDALONE && has (dv_open_flag d) RT_DEVICE_OFLAG_OPEN then mret (- RT_EBUSY)
      else
        result ← open_driver dev oflag;
        (if succeeded result then
           upd_dev dev (fun d => set_dv_ref_count (u8 (dv_ref_count d + 1))
             (set_dv_open_flag (Z.lor (dv_open_flag d) RT_DEVICE_OFLAG_OPEN) d))
         else mret tt) ;;
        mret result
  end.

Definition rt_device_close (dev : nat) : M (dsys D) Z :=
  d ← rd_dev dev;
  if bool_decide (dv_ref_count d = 0) then mret (- RT_ERROR)
  else
    upd_dev dev (fun d => set_dv_ref_count (u8 (dv_ref_count d - 1)) d) ;;
    d ← rd_dev dev;
    if bool_decide (dv_ref_count d <> 0) then mret RT_EOK
    else
      result ← match op_close (dev_ops d) with Some device_close => device_close dev | None => mret RT_EOK end;
      (if succeeded result then upd_dev dev (set_dv_open_flag RT_DEVICE_OFLAG_CLOSE) else mret tt) ;;
      mret result.

(** ** The console device *)

Definition rt_console_get_device : M (dsys D) (option nat) := gets d_console.

Definition rt_console_set_device (name : list Z) : M (dsys D) (option nat) :=
  old_device ← gets d_console;
  new_device ← rt_device_find name;
  match new_device with
  | None => mret old_device
  | Some new_device =>
      console ← gets d_console;
      (match console with Some console => _ ← rt_device_close console; mret tt | None => mret tt end) ;;
      _ ← rt_device_open new_device (Z.lor RT_DEVICE_OFLAG_RDWR RT_DEVICE_FLAG_STREAM);
      modify (set_d_console (Some new_device)) ;;
      mret old_device
  end.

(** ** The interface of a driver *)

Definition keeps_open (d d' : rt_device) : Prop := has (dv_open_flag d') RT_DEVICE_OFLAG_OPEN = has (dv_open_flag d) RT_DEVICE_OFLAG_OPEN.
(** What a handler leaves of its device. *)
Record kept (d d' : rt_device) : Prop := {
  kd_ref : dv_ref_count d' = dv_ref_count d;
  kd_driver : dv_driver d' = dv_driver d;
  kd_standalone : has (dv_flag d') RT_DEVICE_FLAG_STANDALONE = has (dv_flag d) RT_DEVICE_FLAG_STANDALONE;
  kd_activated : has (dv_flag d') RT_DEVICE_FLAG_ACTIVATED = has (dv_flag d) RT_DEVICE_FLAG_ACTIVATED;
}.
(** What a call on device [n] leaves of everything else. *)
Record around (n : nat) s s' : Prop := {
  ar_sys : sys_inv (d_kernel s) -> sys_inv (d_kernel s');
  ar_objs : k_objs (d_kernel s') = k_objs (d_kernel s);
  ar_lock : s_lock_nest (k_sched (d_kernel s')) = s_lock_nest (k_sched (d_kernel s));
  ar_devs : forall m, m <> n -> d_devs s' !! m = d_devs s !! m;
  ar_console : d_console s' = d_console s;
  ar_nest : d_nest s' = d_nest s;
  ar_mem : forall a, is_Some (d_mem s !! a) -> is_Some (d_mem s' !! a);
}.
Record steady (n : nat) s s' : Prop := {
  st_around : around n s s';
  st_dev : forall d, d_devs s !! n = Some d -> exists d', d_devs s' !! n = Some d' /\ kept d d';
}.
Definition still_open (n : nat) s s' : Prop :=
  forall d d', d_devs s !! n = Some d -> d_devs s' !! n = Some d' -> keeps_open d d'.

(** The state between two calls: an open device has a reference, a standalone device at most
    one, and what the registry and the console name are devices. *)
Record dev_ok (d : rt_device) : Prop := {
  do_ref : 0 <= dv_ref_count d < 256;
  do_open : dv_ref_count d <> 0 -> has (dv_open_flag d) RT_DEVICE_OFLAG_OPEN = true;
  do_standalone : has (dv_flag d) RT_DEVICE_FLAG_STANDALONE = true -> dv_ref_count d <= 1;
}.
Record dinv s : Prop := {
  di_sys : sys_inv (d_kernel s);
  di_lock : can_lock (d_kernel s);
  di_dev : forall n d, d_devs s !! n = Some d -> dev_ok d;
  di_list : forall l o, o_lists (k_objs (d_kernel s)) !! RT_Object_Class_Device = Some l -> o ∈ l ->
    exists n, o = ODevice n /\ is_Some (d_devs s !! n);
  di_console : forall n, d_console s = Some n -> is_Some (d_devs s !! n);
  di_log : mapped (d_mem s) rt_log_buf RT_CONSOLEBUF_SIZE;
  di_addr : 0 < rt_log_buf /\ rt_log_buf + RT_CONSOLEBUF_SIZE < 2 ^ 32;
}.

(** A call of handler [h] on device [n], which driver [i] serves. *)
Definition behaves (i : nat) (pre : rt_device -> dsys D -> Prop) (h : nat -> M (dsys D) Z) (post : nat -> Z -> dsys D -> dsys D -> Prop) : Prop :=
  forall n d s, dinv s -> d_devs s !! n = Some d -> dv_driver d = Some i -> pre d s ->
    exists r s', h n s = Some (r, s') /\ steady n s s' /\ post n r s s'.
(** An error code is an int other than the smallest one. *)
Definition errcode (r : Z) : Prop := - 2 ^ 31 < r < 2 ^ 31.

(** What the handlers promise: they are defined, keep the invariant of the kernel, other
    devices, the reference count and the driver's identity of their own device, and leave
    it open or closed, but for a successful open and for close. *)
Class DriverSpec (accepts : nat -> Z -> Z -> dsys D -> Prop) : Prop := {
  drv_init i h : op_init (ops i) = Some h ->
    behaves i (fun _ _ => True) h (fun n r s s' => still_open n s s' /\ errcode r);
  drv_open i h oflag : op_open (ops i) = Some h -> 0 <= oflag < 2 ^ 16 ->
    behaves i (fun _ _ => True) (fun n => h n oflag) (fun n r s s' => succeeded r = false -> still_open n s s');
  drv_close i h : op_close (ops i) = Some h -> behaves i (fun d _ => dv_ref_count d = 0) h (fun _ _ _ _ => True);
  drv_read i h pos buffer size : op_read (ops i) = Some h ->
    behaves i (fun d s => dv_ref_count d <> 0 /\ mapped (d_mem s) buffer size) (fun n => h n pos buffer size) (fun n _ s s' => still_open n s s');
  drv_write i h pos buffer size : op_write (ops i) = Some h ->
    behaves i (fun d s => dv_ref_count d <> 0 /\ mapped (d_mem s) buffer size) (fun n => h n pos buffer size) (fun n _ s s' => still_open n s s');
  drv_control i h cmd arg : op_control (ops i) = Some h ->
    behaves i (fun _ => accepts i cmd arg) (fun n => h n cmd arg) (fun n _ s s' => still_open n s s');
}.

(** ** Frames *)

#[local] Instance around_refl n : Reflexive (around n).
Proof. by split. Qed.
#[local] Instance around_trans n : Transitive (around n).
Proof. intros s1 s2 s3 [] []. split; try congruence; auto. intros m Hm. by rewrite ar_devs1, ar_devs0. Qed.

Lemma around_upd n d s : around n s (set_d_devs (<[n := d]> (d_devs s)) s).
Proof. split; try done. intros m Hm. cbn. by rewrite lookup_insert_ne. Qed.

Lemma upd_dev_run n f d s : d_devs s !! n = Some d -> upd_dev n f s = Some (tt, set_d_devs (<[n := f d]> (d_devs s)) s).
Proof. intros E. unfold upd_dev. by rewrite E. Qed.
Lemma rd_dev_run n d s : d_devs s !! n = Some d -> rd_dev n s = Some (d, s).
Proof. intros E. unfold rd_dev. by rewrite E. Qed.

(** The invariant after a call on device [n] that leaves a good device. *)
Lemma dinv_around n s s' d' : dinv s -> around n s s' -> d_devs s' !! n = Some d' -> dev_ok d' -> dinv s'.
Proof.
  intros [] [] E Hd. assert (Hsome : forall m, is_Some (d_devs s !! m) -> is_Some (d_devs s' !! m)).
  { intros m Hm. destruct (decide (m = n)) as [->|]; [by eexists|by rewrite ar_devs0]. }
  split; auto.
  - unfold can_lock in *. by rewrite ar_lock0.
  - intros m d Em. destruct (decide (m = n)) as [->|]; [congruence|]. rewrite ar_devs0 in Em by done. eauto.
  - intros l o. rewrite ar_objs0. intros El Ho. destruct (di_list0 l o El Ho) as (m & -> & Hm). eauto.
  - intros m. rewrite ar_console0. auto.
  - intros a Ha. auto.
Qed.

Lemma dev_ok_kept d d' : kept d d' -> keeps_open d d' -> dev_ok d -> dev_ok d'.
Proof. intros [] Ho []. split; rewrite ?kd_ref0, ?kd_standalone0, ?Ho; auto. Qed.
Lemma dinv_steady n s s' d : dinv s -> d_devs s !! n = Some d -> steady n s s' -> still_open n s s' -> dinv s'.
Proof.
  intros Hi E [Ha Hd] Ho. destruct (Hd d E) as (d' & E' & Hk). apply (dinv_around n s s' d'); try done.
  apply (dev_ok_kept d); [done|by apply Ho|by apply (di_dev s Hi n)].
Qed.
Lemma steady_same n s s' : around n s s' -> d_devs s' = d_devs s -> steady n s s' /\ still_open n s s'.
Proof. intros Ha E. split; [split; [done|]|]; [intros d Ed; exists d; by rewrite E|]. intros d d' E1 E2. unfold keeps_open. congruence. Qed.

(** What a call leaves that changes no device's reference count, flags and driver. *)
Record settled s s' : Prop := {
  se_sys : sys_inv (d_kernel s) -> sys_inv (d_kernel s');
  se_objs : k_objs (d_kernel s') = k_objs (d_kernel s);
  se_lock : s_lock_nest (k_sched (d_kernel s')) = s_lock_nest (k_sched (d_kernel s));
  se_devs : forall m, option_Forall2 (fun d d' => kept d d' /\ keeps_open d d') (d_devs s !! m) (d_devs s' !! m);
  se_console : d_console s' = d_console s;
  se_nest : d_nest s' = d_nest s;
  se_mem : forall a, is_Some (d_mem s !! a) -> is_Some (d_mem s' !! a);
}.
Lemma option_Forall2_refl_eq {A} (R : A -> A -> Prop) (o o' : option A) : (forall a, R a a) -> o' = o -> option_Forall2 R o o'.
Proof. intros H ->. destruct o; by constructor. Qed.
Lemma kept_refl d : kept d d /\ keeps_open d d.
Proof. by split; [split|]. Qed.
Lemma settled_same s s' :
  (sys_inv (d_kernel s) -> sys_inv (d_kernel s')) -> k_objs (d_kernel s') = k_objs (d_kernel s) ->
  s_lock_nest (k_sched (d_kernel s')) = s_lock_nest (k_sched (d_kernel s)) -> d_devs s' = d_devs s ->
  d_console s' = d_console s -> d_nest s' = d_nest s -> (forall a, is_Some (d_mem s !! a) -> is_Some (d_mem s' !! a)) -> settled s s'.
Proof. intros. split; try done. intros m. apply option_Forall2_refl_eq; [apply kept_refl|congruence]. Qed.
Lemma settled_steady n d s s' : d_devs s !! n = Some d -> steady n s s' -> still_open n s s' -> settled s s'.
Proof.
  intros E [[] Hd] Ho. split; try done. intros m. destruct (decide (m = n)) as [->|Hm].
  - destruct (Hd d E) as (d' & E' & Hk). rewrite E, E'. constructor. split; [done|by apply Ho].
  - apply option_Forall2_refl_eq; [apply kept_refl|auto].
Qed.
#[local] Instance settled_trans : Transitive settled.
Proof.
  intros s1 s2 s3 [] []. split; try congruence; auto. intros m. specialize (se_devs0 m). specialize (se_devs1 m).
  inversion se_devs0 as [d1 d2 [[] Ho] H1 H2|H1 H2]; rewrite <- H2 in se_devs1; inversion se_devs1 as [d2' d3 [[] Ho'] H3 H4|H3 H4]; subst; constructor.
  split; [split; congruence|unfold keeps_open in *; congruence].
Qed.
Lemma dinv_settled s s' : dinv s -> settled s s' -> dinv s'.
Proof.
  intros [] []. assert (Hsome : forall m, is_Some (d_devs s !! m) -> is_Some (d_devs s' !! m)).
  { intros m [d Em]. specialize (se_devs0 m). rewrite Em in se_devs0. inversion se_devs0. by eexists. }
  split; auto.
  - unfold can_lock in *. by rewrite se_lock0.
  - intros m d' Em. specialize (se_devs0 m). rewrite Em in se_devs0. inversion se_devs0 as [d d0 [Hk Ho] Ed Ed'|]; subst. apply (dev_ok_kept d); eauto.
  - intros l o. rewrite se_objs0. intros El Ho. destruct (di_list0 l o El Ho) as (m & -> & Hm). eauto.
  - intros m. rewrite se_console0. auto.
  - intros a Ha. auto.
Qed.

(** ** errno *)

Lemma errno_ok error n s : dinv s ->
  exists s', rt_set_errno error s = Some (tt, s') /\ around n s s' /\ d_devs s' = d_devs s /\ d_drv s' = d_drv s /\ d_mem s' = d_mem s /\
    rt_get_errno s' = Some (error, s').
Proof.
  intros Hi. unfold rt_set_errno, rt_get_errno, rt_interrupt_get_nest, on_kernel, rt_thread_self. munfold.
  destruct (bool_decide_reflect (d_nest s <> 0)) as [Hn|Hn].
  { eexists. do 5 (split; [done|]). cbn. by rewrite bool_decide_true. }
  replace (set_d_kernel (d_kernel s) s) with s by (by destruct s).
  destruct (s_current (k_sched (d_kernel s))) as [t|] eqn:Ec.
  2: { eexists. do 5 (split; [done|]). cbn. rewrite bool_decide_false by done. cbn. rewrite Ec. done. }
  destruct (si_cur _ _ (ki_sched _ _ (sy_kinv _ (di_sys s Hi))) t Ec) as (th & Et & _).
  rewrite set_error_run by (by eexists). eexists. split; [done|]. split_and!; [|done|done|done|].
  - split; try done.
    + intros Hs. apply (sys_calm PThread (d_kernel s)); try done; [by apply kinv_with_error, Hs|apply calm_error].
    + cbn. unfold with_error. by rewrite Et.
    + cbn. by rewrite with_error_lock.
  - cbn [d_nest d_kernel set_d_kernel]. rewrite bool_decide_false by done. cbn [d_kernel set_d_kernel]. rewrite with_error_current, Ec. unfold get_thread, on_sched, rd_thread. munfold.
    cbn [d_kernel set_d_kernel]. rewrite with_error_thread, decide_True, Et by done. cbn. do 2 f_equal. by destruct (with_error t error (d_kernel s)).
Qed.

(** ** Behaviour of the calls *)

Section Calls.
Context {accepts : nat -> Z -> Z -> dsys D -> Prop} {HD : DriverSpec accepts}.

(** A call that is passed on to a handler of the device. *)
Lemma handler_ok {H} (sel : device_ops D -> option H) (call : H -> nat -> M (dsys D) Z) pre post n d s :
  (forall i h, sel (ops i) = Some h -> behaves i pre (call h) post) -> sel no_ops = None ->
  dinv s -> d_devs s !! n = Some d -> pre d s ->
  match sel (dev_ops d) with
  | Some h => exists r s', call h n s = Some (r, s') /\ steady n s s' /\ post n r s s'
  | None => True
  end.
Proof using.
  intros Hb Hn Hi E Hp. unfold dev_ops. destruct (dv_driver d) as [i|] eqn:Ei; [|by rewrite Hn].
  destruct (sel (ops i)) as [h|] eqn:Eh; [|done]. by apply (Hb i h Eh n d).
Qed.

(** rt_device_read and rt_device_write. *)
Definition transfer (sel : device_ops D -> option (nat -> Z -> Z -> Z -> M (dsys D) Z)) (n : nat) (pos buffer size : Z) : M (dsys D) Z :=
  d ← rd_dev n;
  if bool_decide (dv_ref_count d = 0) then rt_set_errno (- RT_ERROR) ;; mret 0
  else match sel (dev_ops d) with Some h => h n pos buffer size | None => rt_set_errno (- RT_ENOSYS) ;; mret 0 end.
Lemma transfer_ok sel n d pos buffer size s :
  (forall i h, sel (ops i) = Some h -> behaves i (fun d s => dv_ref_count d <> 0 /\ mapped (d_mem s) buffer size)
    (fun n => h n pos buffer size) (fun n _ s s' => still_open n s s')) -> sel no_ops = None ->
  dinv s -> d_devs s !! n = Some d -> mapped (d_mem s) buffer size ->
  exists r s', transfer sel n pos buffer size s = Some (r, s') /\ steady n s s' /\ still_open n s s' /\
    match (if bool_decide (dv_ref_count d = 0) then None else sel (dev_ops d)) with
    | Some h => h n pos buffer size s = Some (r, s')
    | None => r = 0 /\ d_devs s' = d_devs s /\ d_drv s' = d_drv s /\ d_mem s' = d_mem s /\
        rt_get_errno s' = Some (- (if bool_decide (dv_ref_count d = 0) then RT_ERROR else RT_ENOSYS), s')
    end.
Proof using.
  intros Hb Hno Hi E Hm. unfold transfer. rewrite (bind_run _ _ _ _ _ (rd_dev_run _ _ _ E)).
  destruct (bool_decide_reflect (dv_ref_count d = 0)) as [Hr|Hr].
  { destruct (errno_ok (- RT_ERROR) n s Hi) as (s' & Es & Ha & E1 & E2 & E3 & E4). exists 0, s'. rewrite (bind_run _ _ _ _ _ Es).
    split; [done|]. destruct (steady_same n s s' Ha E1). by split_and!. }
  pose proof (handler_ok sel (fun h n => h n pos buffer size) _ _ n d s Hb Hno Hi E (conj Hr Hm)) as Hh.
  destruct (sel (dev_ops d)) as [h|]; [destruct Hh as (r & s' & Eh & Hst & Ho); by exists r, s'|].
  destruct (errno_ok (- RT_ENOSYS) n s Hi) as (s' & Es & Ha & E1 & E2 & E3 & E4). exists 0, s'. rewrite (bind_run _ _ _ _ _ Es).
  split; [done|]. destruct (steady_same n s s' Ha E1). by split_and!.
Qed.

Lemma write_ok n d pos buffer size s :
  dinv s -> d_devs s !! n = Some d -> mapped (d_mem s) buffer size ->
  exists r s', rt_device_write n pos buffer size s = Some (r, s') /\ steady n s s' /\ still_open n s s'.
Proof using HD.
  intros Hi E Hm. destruct (transfer_ok op_write n d pos buffer size s) as (r & s' & Ew & Hs & Ho & _); try done; [|by exists r, s'].
  intros i h Eh. by apply drv_write.
Qed.

(** The console is written in stream mode and keeps its open flag. *)
Lemma console_write_ok n d str len s :
  dinv s -> d_devs s !! n = Some d -> mapped (d_mem s) str len ->
  let s1 := set_d_devs (<[n := set_dv_open_flag (Z.lor (dv_open_flag d) RT_DEVICE_FLAG_STREAM) d]> (d_devs s)) s in
  exists r s2 d2, rt_device_write n 0 str len s1 = Some (r, s2) /\ d_devs s2 !! n = Some d2 /\
    let s' := set_d_devs (<[n := set_dv_open_flag (dv_open_flag d) d2]> (d_devs s2)) s2 in
    console_write n str len s = Some (tt, s') /\ steady n s s' /\ still_open n s s'.
Proof using HD.
  intros Hi E Hm s1. set (d1 := set_dv_open_flag (Z.lor (dv_open_flag d) RT_DEVICE_FLAG_STREAM) d) in s1.
  assert (E1 : d_devs s1 !! n = Some d1) by apply lookup_insert_eq.
  assert (Hk1 : keeps_open d d1) by (unfold keeps_open, has; apply bool_decide_ext; cbn; by rewrite Z.land_lor_distr_l, Z.lor_0_r).
  assert (Hi1 : dinv s1) by (apply (dinv_around n s s1 d1); [done|apply around_upd|done|by apply (dev_ok_kept d); [|done|apply (di_dev _ Hi n)]]).
  destruct (write_ok n d1 0 str len s1 Hi1 E1 Hm) as (r & s2 & Ew & [Ha Hd] & Ho). destruct (Hd d1 E1) as (d2 & E2 & Hk).
  exists r, s2, d2. split; [done|]. split; [done|]. cbv zeta. split.
  { unfold console_write. rewrite (bind_run _ _ _ _ _ (rd_dev_run _ _ _ E)). rewrite (bind_run _ _ _ _ _ (upd_dev_run _ _ _ _ E)).
    rewrite (bind_run _ _ _ _ _ Ew). by apply upd_dev_run. }
  split; [split|].
  - transitivity s1; [apply around_upd|]. transitivity s2; [done|apply around_upd].
  - intros d0 E0. eexists. split; [apply lookup_insert_eq|]. rewrite E in E0. injection E0 as <-. destruct Hk. by split.
  - intros d0 d0' E0 E0'. cbn in E0'. rewrite lookup_insert_eq in E0'. injection E0' as <-. rewrite E in E0. by injection E0 as <-.
Qed.
(** The characters a device driver gets: those in the buffer, at most 255. *)
Definition clipped (out : list Z) : Z := Z.min (Z.of_nat (length out)) (RT_CONSOLEBUF_SIZE - 1).

Lemma kprintf_ok fmt args out s :
  dinv s -> text fmt args = Some out -> rt_log_buf + Z.of_nat (length out) < 2 ^ 32 ->
  exists m, printed (d_mem s) rt_log_buf (RT_CONSOLEBUF_SIZE - 1) out m /\ settled s (set_d_mem m s) /\
    rt_kprintf fmt args s =
      match d_console s with
      | None => Some (tt, set_d_mem m s)
      | Some n => console_write n rt_log_buf (clipped out) (set_d_mem m s)
      end.
Proof using HD.
  intros Hi Ht Hl. destruct (di_addr _ Hi) as [Ha1 Ha2]. unfold RT_CONSOLEBUF_SIZE in *.
  assert (Hcap : capacity rt_log_buf (256 - 1) = 256 - 1) by (unfold capacity; rewrite bool_decide_true; lia).
  destruct (vsnprintf_ok (d_mem s) rt_log_buf (256 - 1) fmt args out) as (m & Ev & Hp); try done; try lia.
  { rewrite Hcap. intros a Ha. apply (di_log _ Hi). unfold RT_CONSOLEBUF_SIZE. lia. }
  rewrite Hcap in Hp. exists m. split; [done|]. split.
  { apply settled_same; try done. intros a Hs. cbn. rewrite (Hp a). rewrite bool_decide_true by lia.
    case_bool_decide; [apply lookup_lt_is_Some_2; lia|]. by case_bool_decide. }
  unfold rt_kprintf, on_mem, RT_CONSOLEBUF_SIZE. munfold. rewrite Ev. cbn [d_console set_d_mem].
  destruct (d_console s) as [n|]; [|done].
  replace (u32 (s32 (Z.of_nat (length out)))) with (Z.of_nat (length out)).
  { match goal with |- console_write _ _ ?l _ = _ => replace l with (clipped out); [done|] end.
    unfold clipped, RT_CONSOLEBUF_SIZE. case_bool_decide; lia. }
  unfold swrap. rewrite (wrap_id 32 (Z.of_nat (length out))) by lia. case_bool_decide; [by rewrite wrap_id by lia|].
  unfold wrap. rewrite <- (Z.mod_add _ 1) by lia. rewrite Z.mod_small; lia.
Qed.
Lemma kprintf_settled fmt args out s :
  dinv s -> text fmt args = Some out -> rt_log_buf + Z.of_nat (length out) < 2 ^ 32 ->
  exists s', rt_kprintf fmt args s = Some (tt, s') /\ settled s s'.
Proof using HD.
  intros Hi Ht Hl. destruct (kprintf_ok fmt args out s Hi Ht Hl) as (m & Hp & Hs & E). rewrite E.
  destruct (d_console s) as [n|] eqn:Ec; [|by eexists]. destruct (di_console _ Hi n Ec) as [d Ed].
  pose proof (dinv_settled _ _ Hi Hs) as Hi1.
  destruct (console_write_ok n d rt_log_buf (clipped out) (set_d_mem m s) Hi1 Ed) as (r & s2 & d2 & _ & _ & Ew & Hst & Ho).
  { intros a Ha. apply (di_log _ Hi1). unfold clipped in Ha. lia. }
  eexists. split; [exact Ew|]. etransitivity; [done|]. by apply (settled_steady n d).
Qed.

(** The device has a name that ends within its eight bytes. *)
Definition named (n : nat) s : Prop :=
  exists ob name, o_objs (k_objs (d_kernel s)) !! ODevice n = Some ob /\ name_text (ob_name ob) = Some name /\ cstr name /\ (length name < 8)%nat.

Lemma init_failed_printed name r :
  cstr name -> (length name < 8)%nat -> errcode r ->
  exists out, text init_failed_text [AStr (Some name); AWord (u32 r)] = Some out /\ (length out < 128)%nat.
Proof using.
  intros Hc Hl Hr. assert (Hn : format_number 0 SIGN (u32 r) = r).
  { unfold errcode in Hr. unfold format_number. change (flag SIGN SIGN) with true. rewrite !bool_decide_false by done. cbn iota. unfold swrap, wrap.
    repeat case_bool_decide; Z.to_euclidean_division_equations; lia. }
  set (t := number_text r 10 (-1) (-1) SIGN). pose proof (number_text_length r 10 SIGN) as Ht. fold t in Ht.
  exists (lit "To initialize device:" ++ name ++ lit " failed. The error code is " ++ t ++ [10] ++ []). split.
  - assert (Ha : adds (format_loop put_text (length init_failed_text) init_failed_text [AStr (Some name); AWord (u32 r)])
      (lit "To initialize device:" ++ name ++ lit " failed. The error code is " ++ t ++ [10] ++ []) tt); [|unfold text; by rewrite Ha].
    apply (adds_literal (lit "To initialize device:") 32 (ch "%" :: ch "s" :: (lit " failed. The error code is " ++ ch "%" :: ch "d" :: [10]))); [vm_compute; repeat constructor; done|].
    apply adds_string; [done|lia|].
    apply (adds_literal (lit " failed. The error code is ") 4 (ch "%" :: ch "d" :: [10])); [vm_compute; repeat constructor; done|].
    unfold t. rewrite <- Hn at 2. apply adds_int; [by rewrite Hn|]. apply (adds_literal [10] 2 []); [repeat constructor; done|]. apply adds_ret.
  - rewrite !length_app. change (length (lit "To initialize device:")) with 21%nat. change (length (lit " failed. The error code is ")) with 27%nat. cbn [length]. lia.
Qed.
Lemma init_failed_ok n r s : dinv s -> named n s -> errcode r -> exists s', init_failed n r s = Some (tt, s') /\ settled s s'.
Proof using HD.
  intros Hi (ob & name & Eo & En & Hc & Hl) Hr. destruct (init_failed_printed name r Hc Hl Hr) as (out & Et & Ho).
  destruct (di_addr _ Hi) as [Ha1 Ha2]. unfold RT_CONSOLEBUF_SIZE in Ha2.
  destruct (kprintf_settled _ _ _ s Hi Et ltac:(lia)) as (s' & Ek & Hs). exists s'. split; [|done].
  unfold init_failed. erewrite bind_run. 2: { unfold on_kernel, on_objs, rd_obj. munfold. by rewrite Eo. }
  rewrite En. rewrite <- Ek. f_equal. by destruct s as [[]].
Qed.

(** Setting the flag of an initialised device. *)
Lemma has_lor v f g : has (Z.lor v f) g = has v g || has f g.
Proof using.
  unfold has. rewrite Z.land_lor_distr_l. apply eq_true_iff_eq. rewrite orb_true_iff, !bool_decide_eq_true, Z.lor_eq_0_iff.
  destruct (decide (Z.land v g = 0)), (decide (Z.land f g = 0)); tauto.
Qed.
Definition activated (d : rt_device) : rt_device := set_dv_flag (Z.lor (dv_flag d) RT_DEVICE_FLAG_ACTIVATED) d.
Record initialised_dev (n : nat) s s' (d d' : rt_device) : Prop := {
  ini_around : around n s s';
  ini_dev : d_devs s' !! n = Some d';
  ini_ref : dv_ref_count d' = dv_ref_count d;
  ini_driver : dv_driver d' = dv_driver d;
  ini_standalone : has (dv_flag d') RT_DEVICE_FLAG_STANDALONE = has (dv_flag d) RT_DEVICE_FLAG_STANDALONE;
  ini_activated : has (dv_flag d') RT_DEVICE_FLAG_ACTIVATED = true;
  ini_open : keeps_open d d';
}.
Lemma activate_ok n s s1 d d1 :
  around n s s1 -> d_devs s1 !! n = Some d1 -> kept d d1 -> keeps_open d d1 ->
  exists s', activate n s1 = Some (tt, s') /\ initialised_dev n s s' d (activated d1).
Proof using.
  intros Ha E [] Ho. eexists. split; [by apply upd_dev_run|]. split; try done.
  - etransitivity; [done|]. apply around_upd.
  - apply lookup_insert_eq.
  - cbn. rewrite has_lor, kd_standalone0. apply orb_false_r.
  - cbn. rewrite has_lor. apply orb_true_r.
Qed.
Lemma initialised_dinv n s s' d d' : dinv s -> d_devs s !! n = Some d -> initialised_dev n s s' d d' -> dinv s'.
Proof using.
  intros Hi E []. apply (dinv_around n s s' d'); try done. destruct (di_dev _ Hi n d E).
  split; rewrite ?ini_ref0, ?ini_standalone0, ?ini_open0; auto.
Qed.

Lemma open_init_ok n d s :
  dinv s -> d_devs s !! n = Some d -> named n s ->
  (exists s1 d1, open_init n s = Some (None, s1) /\ initialised_dev n s s1 d d1) \/
  (exists s1 r h, op_init (dev_ops d) = Some h /\ has (dv_flag d) RT_DEVICE_FLAG_ACTIVATED = false /\
     open_init n s = Some (Some r, s1) /\ r <> RT_EOK /\ settled s s1).
Proof using HD.
  intros Hi E Hn. unfold open_init. rewrite (bind_run _ _ _ _ _ (rd_dev_run _ _ _ E)).
  destruct (has (dv_flag d) RT_DEVICE_FLAG_ACTIVATED) eqn:Ea; [left; by exists s, d|].
  pose proof (handler_ok op_init (fun h => h) (fun _ _ => True) (fun n r s s' => still_open n s s' /\ errcode r) n d s) as Hh.
  destruct (op_init (dev_ops d)) as [h|].
  - destruct Hh as (r & s1 & Eh & Hst & Ho & Hr); try done; [intros i h0; apply drv_init|]. rewrite (bind_run _ _ _ _ _ Eh).
    pose proof (settled_steady n d s s1 E Hst Ho) as Hse. destruct Hst as [Ha Hd]. destruct (Hd d E) as (d1 & E1 & Hk).
    case_bool_decide as He.
    + assert (Hn1 : named n s1) by (unfold named; by rewrite (ar_objs _ _ _ Ha)).
      destruct (init_failed_ok n r s1 (dinv_settled _ _ Hi Hse) Hn1 Hr) as (s2 & Ef & Hs2). rewrite (bind_run _ _ _ _ _ Ef).
      right. exists s2, r, h. split_and!; try done. by transitivity s1.
    + destruct (activate_ok n s s1 d d1) as (s' & Eact & Hini); try done; [by apply Ho|]. rewrite (bind_run _ _ _ _ _ Eact). left. by eexists _, _.
  - destruct (activate_ok n s s d d) as (s' & Eact & Hini); try done. rewrite (bind_run _ _ _ _ _ Eact). left. by eexists _, _.
Qed.

(** The four ways an open ends: the driver's init fails, a standalone device is in use, the
    driver refuses, or there is one more reference. *)
Inductive open_outcome (n : nat) (d : rt_device) s : Z -> dsys D -> Prop :=
  | open_not_initialised r s' :
      is_Some (op_init (dev_ops d)) -> has (dv_flag d) RT_DEVICE_FLAG_ACTIVATED = false -> r <> RT_EOK -> settled s s' -> open_outcome n d s r s'
  | open_busy s' d' :
      initialised_dev n s s' d d' -> has (dv_flag d) RT_DEVICE_FLAG_STANDALONE = true -> has (dv_open_flag d) RT_DEVICE_OFLAG_OPEN = true ->
      open_outcome n d s (- RT_EBUSY) s'
  | open_refused r s' d' :
      initialised_dev n s s' d d' -> succeeded r = false -> is_Some (op_open (dev_ops d)) ->
      has (dv_flag d) RT_DEVICE_FLAG_STANDALONE && has (dv_open_flag d) RT_DEVICE_OFLAG_OPEN = false -> open_outcome n d s r s'
  | open_done r s' d' :
      around n s s' -> d_devs s' !! n = Some d' -> succeeded r = true ->
      has (dv_flag d) RT_DEVICE_FLAG_STANDALONE && has (dv_open_flag d) RT_DEVICE_OFLAG_OPEN = false ->
      dv_ref_count d' = u8 (dv_ref_count d + 1) -> dv_driver d' = dv_driver d ->
      has (dv_flag d') RT_DEVICE_FLAG_STANDALONE = has (dv_flag d) RT_DEVICE_FLAG_STANDALONE ->
      has (dv_flag d') RT_DEVICE_FLAG_ACTIVATED = true -> has (dv_open_flag d') RT_DEVICE_OFLAG_OPEN = true ->
      open_outcome n d s r s'.

Lemma dev_ops_driver d d' : dv_driver d' = dv_driver d -> dev_ops d' = dev_ops d.
Proof using. intros E. unfold dev_ops. by rewrite E. Qed.

(** The call of the driver, or the open flag of a device without one. *)
Lemma open_driver_ok n d oflag s :
  dinv s -> d_devs s !! n = Some d -> 0 <= oflag < 2 ^ 16 ->
  exists r s' d', open_driver n oflag s = Some (r, s') /\ around n s s' /\ d_devs s' !! n = Some d' /\ kept d d' /\
    (succeeded r = false -> is_Some (op_open (dev_ops d)) /\ keeps_open d d').
Proof using HD.
  intros Hi E Hf. unfold open_driver. rewrite (bind_run _ _ _ _ _ (rd_dev_run _ _ _ E)).
  pose proof (handler_ok op_open (fun h n => h n oflag) (fun _ _ => True) (fun n r s s' => succeeded r = false -> still_open n s s') n d s) as Hh.
  destruct (op_open (dev_ops d)) as [h|] eqn:Eo.
  - destruct Hh as (r & s' & Eh & [Ha Hd] & Ho); try done; [intros i h0 Eh; by apply drv_open|]. destruct (Hd d E) as (d' & E' & Hk).
    exists r, s', d'. split_and!; try done. intros Hr. split; [done|by apply Ho].
  - rewrite (bind_run _ _ _ _ _ (upd_dev_run _ _ _ _ E)). eexists _, _, _. split; [done|]. split; [apply around_upd|].
    split; [apply lookup_insert_eq|]. split; [by split|]. intros Hr. by vm_compute in Hr.
Qed.

Lemma open_ok n d oflag s :
  dinv s -> d_devs s !! n = Some d -> named n s -> 0 <= oflag < 2 ^ 16 ->
  exists r s', rt_device_open n oflag s = Some (r, s') /\ open_outcome n d s r s'.
Proof using HD.
  intros Hi E Hn Hf. unfold rt_device_open.
  destruct (open_init_ok n d s Hi E Hn) as [(s1 & d1 & E1 & Hini)|(s1 & r & h & Eh & Ea & E1 & Hr & Hs)].
  2: { rewrite (bind_run _ _ _ _ _ E1). eexists _, _. split; [done|]. by apply open_not_initialised; rewrite ?Eh. }
  rewrite (bind_run _ _ _ _ _ E1). pose proof (initialised_dinv _ _ _ _ _ Hi E Hini) as Hi1. pose proof Hini as [].
  rewrite (bind_run _ _ _ _ _ (rd_dev_run _ _ _ ini_dev0)). rewrite ini_standalone0, ini_open0.
  destruct (has (dv_flag d) _ && has (dv_open_flag d) _) eqn:Eb.
  { apply andb_true_iff in Eb as [? ?]. eexists _, _. split; [done|]. by apply (open_busy n d s s1 d1). }
  destruct (open_driver_ok n d1 oflag s1 Hi1 ini_dev0 Hf) as (r & s2 & d2 & Ed & Ha2 & E2 & Hk2 & Ho2). rewrite (bind_run _ _ _ _ _ Ed).
  assert (Ha : around n s s2) by (by transitivity s1). destruct (succeeded r) eqn:Er.
  - rewrite (bind_run _ _ _ _ _ (upd_dev_run _ _ _ _ E2)). eexists _, _. split; [done|]. destruct Hk2.
    eapply open_done; [etransitivity; [exact Ha|apply around_upd]|apply lookup_insert_eq|..]; try (cbn; congruence).
    cbn. rewrite has_lor. apply orb_true_r.
  - eexists _, _. split; [done|]. destruct (Ho2 eq_refl) as [Hop Hko]. destruct Hk2. apply (open_refused n d s r s2 d2); try done; [|by rewrite <- (dev_ops_driver _ _ ini_driver0)].
    split; try done; unfold keeps_open in *; congruence.
Qed.
Lemma open_dinv n d s r s' : dinv s -> d_devs s !! n = Some d -> open_outcome n d s r s' -> dinv s'.
Proof using.
  intros Hi E Ho. destruct Ho as [r s' _ _ _ Hs|s' d' Hini _ _|r s' d' Hini _ _ _|r s' d' Ha E' _ Hb Hr Hd Hst Hact Hop].
  - by apply (dinv_settled s).
  - by apply (initialised_dinv n s s' d d').
  - by apply (initialised_dinv n s s' d d').
  - apply (dinv_around n s s' d'); try done. destruct (di_dev _ Hi n d E). pose proof (wrap_range 8 (dv_ref_count d + 1) ltac:(lia)).
    split; [rewrite Hr; lia|done|]. rewrite Hst. intros Hs. rewrite Hs in Hb. cbn in Hb.
    destruct (decide (dv_ref_count d = 0)) as [E0|E0]; [by rewrite Hr, E0|]. by rewrite (do_open0 E0) in Hb.
Qed.

(** The ways a close ends: the device is not open, it has more references, or the driver
    closes it. *)
Inductive close_outcome (n : nat) (d : rt_device) s : Z -> dsys D -> Prop :=
  | close_not_open : dv_ref_count d = 0 -> close_outcome n d s (- RT_ERROR) s
  | close_shared : 1 < dv_ref_count d ->
      close_outcome n d s RT_EOK (set_d_devs (<[n := set_dv_ref_count (dv_ref_count d - 1) d]> (d_devs s)) s)
  | close_last r s' d' :
      dv_ref_count d = 1 -> around n s s' -> d_devs s' !! n = Some d' -> dv_ref_count d' = 0 -> dv_driver d' = dv_driver d ->
      has (dv_flag d') RT_DEVICE_FLAG_STANDALONE = has (dv_flag d) RT_DEVICE_FLAG_STANDALONE ->
      (if succeeded r then dv_open_flag d' = RT_DEVICE_OFLAG_CLOSE else is_Some (op_close (dev_ops d))) ->
      close_outcome n d s r s'.

Lemma close_ok n d s :
  dinv s -> d_devs s !! n = Some d -> exists r s', rt_device_close n s = Some (r, s') /\ close_outcome n d s r s'.
Proof using HD.
  intros Hi E. pose proof (di_dev _ Hi n d E) as []. unfold rt_device_close. rewrite (bind_run _ _ _ _ _ (rd_dev_run _ _ _ E)).
  case_bool_decide as H0; [eexists _, _; split; [done|by apply close_not_open]|].
  rewrite (bind_run _ _ _ _ _ (upd_dev_run _ _ _ _ E)). cbv beta. rewrite wrap_id by lia.
  set (d1 := set_dv_ref_count (dv_ref_count d - 1) d). set (s1 := set_d_devs (<[n := d1]> (d_devs s)) s).
  assert (E1 : d_devs s1 !! n = Some d1) by apply lookup_insert_eq. rewrite (bind_run _ _ _ _ _ (rd_dev_run _ _ _ E1)).
  case_bool_decide as H1; [eexists _, _; split; [done|apply close_shared; cbn in H1; lia]|]. cbn in H1.
  assert (Ha1 : around n s s1) by apply around_upd.
  assert (Hi1 : dinv s1) by (apply (dinv_around n s s1 d1); try done; split; cbn; intros; lia).
  assert (Hc : exists r s2 d2, match op_close (dev_ops d1) with Some device_close => device_close n | None => mret RT_EOK end s1 = Some (r, s2) /\
    around n s1 s2 /\ d_devs s2 !! n = Some d2 /\ kept d1 d2 /\ (succeeded r = false -> is_Some (op_close (dev_ops d)))).
  { pose proof (handler_ok op_close (fun h => h) (fun d _ => dv_ref_count d = 0) (fun _ _ _ _ => True) n d1 s1) as Hh.
    change (dev_ops d1) with (dev_ops d) in *. destruct (op_close (dev_ops d)) as [h|].
    - destruct Hh as (r & s2 & Eh & [Ha Hd] & _); try done; [intros i h0; apply drv_close|]. destruct (Hd d1 E1) as (d2 & E2 & Hk).
      by exists r, s2, d2.
    - exists RT_EOK, s1, d1. split_and!; try done; by split. }
  destruct Hc as (r & s2 & d2 & Ec & Ha2 & E2 & [] & Hr). rewrite (bind_run _ _ _ _ _ Ec).
  assert (Ha : around n s s2) by (by transitivity s1). destruct (succeeded r) eqn:Er.
  - rewrite (bind_run _ _ _ _ _ (upd_dev_run _ _ _ _ E2)). eexists _, _. split; [done|]. eapply close_last;
      [lia|etransitivity; [exact Ha|apply around_upd]|apply lookup_insert_eq|cbn; by rewrite kd_ref0|done|done|by rewrite Er].
  - eexists _, _. split; [done|]. eapply close_last; [lia|done|done|by rewrite kd_ref0|done|done|]. rewrite Er. auto.
Qed.
Lemma close_dinv n d s r s' : dinv s -> d_devs s !! n = Some d -> close_outcome n d s r s' -> dinv s'.
Proof using.
  intros Hi E Hc. pose proof (di_dev _ Hi n d E) as []. destruct Hc as [H0|H1|r s' d' H1 Ha E' Hr Hd Hst _]; [done| |].
  - eapply (dinv_around n s); [done|apply around_upd|apply lookup_insert_eq|]. split; cbn; [lia|intros _; apply do_open0; lia|intros ?; specialize (do_standalone0 ltac:(done)); lia].
  - apply (dinv_around n s s' d'); try done. split; rewrite ?Hr; intros; lia.
Qed.

(** rt_device_init: initialised or not, no reference is taken. *)
Lemma init_ok n d s :
  dinv s -> d_devs s !! n = Some d -> named n s ->
  exists r s', rt_device_init n s = Some (r, s') /\ (settled s s' \/ exists d', r = RT_EOK /\ initialised_dev n s s' d d').
Proof using HD.
  intros Hi E Hn. unfold rt_device_init. rewrite (bind_run _ _ _ _ _ (rd_dev_run _ _ _ E)).
  assert (Hrefl : settled s s) by (by apply settled_same).
  pose proof (handler_ok op_init (fun h => h) (fun _ _ => True) (fun n r s s' => still_open n s s' /\ errcode r) n d s) as Hh.
  destruct (op_init (dev_ops d)) as [h|]; [|eexists _, _; split; [done|by left]].
  destruct (has (dv_flag d) RT_DEVICE_FLAG_ACTIVATED); [eexists _, _; split; [done|by left]|].
  destruct Hh as (r & s1 & Eh & Hst & Ho & Hr); try done; [intros i h0; apply drv_init|]. rewrite (bind_run _ _ _ _ _ Eh).
  pose proof (settled_steady n d s s1 E Hst Ho) as Hse. destruct Hst as [Ha Hd]. destruct (Hd d E) as (d1 & E1 & Hk). case_bool_decide as He.
  - assert (Hn1 : named n s1) by (unfold named; by rewrite (ar_objs _ _ _ Ha)).
    destruct (init_failed_ok n r s1 (dinv_settled _ _ Hi Hse) Hn1 Hr) as (s2 & Ef & Hs2). rewrite (bind_run _ _ _ _ _ Ef).
    eexists _, _. split; [done|]. left. by transitivity s1.
  - destruct (activate_ok n s s1 d d1) as (s' & Eact & Hini); try done; [by apply Ho|]. rewrite (bind_run _ _ _ _ _ Eact).
    eexists _, _. split; [done|]. right. eexists. split; [|done]. apply dec_stable. by intros ?.
Qed.

Lemma read_ok n d pos buffer size s :
  dinv s -> d_devs s !! n = Some d -> mapped (d_mem s) buffer size ->
  exists r s', rt_device_read n pos buffer size s = Some (r, s') /\ settled s s'.
Proof using HD.
  intros Hi E Hm. destruct (transfer_ok op_read n d pos buffer size s) as (r & s' & Ew & Hs & Ho & _); try done; [intros i h Eh; by apply drv_read|].
  exists r, s'. split; [done|]. by apply (settled_steady n d).
Qed.
Lemma control_ok n d cmd arg s :
  dinv s -> d_devs s !! n = Some d -> (forall i, dv_driver d = Some i -> accepts i cmd arg s) ->
  exists r s', rt_device_control n cmd arg s = Some (r, s') /\ settled s s'.
Proof using HD.
  intros Hi E Hacc. unfold rt_device_control. rewrite (bind_run _ _ _ _ _ (rd_dev_run _ _ _ E)). unfold dev_ops.
  assert (Hrefl : settled s s) by (by apply settled_same).
  destruct (dv_driver d) as [i|] eqn:Ed; [|by eexists _, _]. destruct (op_control (ops i)) as [h|] eqn:Eh; [|by eexists _, _].
  destruct (drv_control i h cmd arg Eh n d s Hi E Ed (Hacc i eq_refl)) as (r & s' & E' & Hst & Ho). exists r, s'. split; [done|].
  by apply (settled_steady n d).
Qed.

(** The characters at an address, and the NUL behind them. *)
Definition string_at (m : gmap Z Z) (a : Z) (t : list Z) : Prop :=
  cstr t /\ (forall i c, t !! i = Some c -> m !! (a + Z.of_nat i) = Some c) /\ m !! (a + Z.of_nat (length t)) = Some 0.
Lemma c_string_ok fuel m a t : string_at m a t -> (length t <= fuel)%nat -> c_string fuel a m = Some (t, m).
Proof using.
  revert a t. induction fuel as [|fuel IH]; intros a t (Hc & Ht & H0) Hl.
  { destruct t; [|cbn in Hl; lia]. cbn in H0. rewrite Z.add_0_r in H0. cbn. unfold ldb. munfold. by rewrite H0. }
  cbn [c_string]. unfold ldb. munfold. destruct t as [|c t].
  { cbn in H0. rewrite Z.add_0_r in H0. by rewrite H0. }
  specialize (Ht 0%nat c eq_refl) as Hc0. rewrite Z.add_0_r in Hc0. rewrite Hc0.
  apply Forall_cons in Hc as [Hcr Hc]. rewrite bool_decide_false by lia.
  munfold. rewrite (IH (a + 1) t); [done| |cbn in Hl; lia]. split; [done|]. split.
  - intros i x Ei. specialize (Ht (S i) x Ei). by replace (a + 1 + Z.of_nat i) with (a + Z.of_nat (S i)) by lia.
  - cbn [length] in H0. by replace (a + 1 + Z.of_nat (length t)) with (a + Z.of_nat (S (length t))) by lia.
Qed.
Lemma string_size m a t : string_at m a t -> (length t <= size m)%nat.
Proof using.
  intros (_ & Ht & _). rewrite <- (size_dom (D := gset Z)).
  set (X := list_to_set ((fun i => a + Z.of_nat i) <$> seq 0 (length t)) : gset Z).
  assert (Hx : size X = length t).
  { unfold X. rewrite size_list_to_set; [by rewrite length_fmap, length_seq|]. apply NoDup_fmap_2_strong; [intros; lia|apply NoDup_seq]. }
  rewrite <- Hx. apply subseteq_size. intros x Hin. unfold X in Hin. apply elem_of_list_to_set in Hin.
  apply list_elem_of_fmap in Hin as (i & -> & Hi%elem_of_seq). destruct (lookup_lt_is_Some_2 t i) as [c E]; [lia|].
  apply elem_of_dom. eexists. by apply Ht.
Qed.
Lemma kputs_ok str t s :
  dinv s -> string_at (d_mem s) str t ->
  exists s', rt_kputs (Some str) s = Some (tt, s') /\ settled s s'.
Proof using HD.
  intros Hi Hs. assert (Hrefl : settled s s) by (by apply settled_same). unfold rt_kputs. munfold.
  destruct (d_console s) as [n|] eqn:Ec; [|by eexists]. destruct (di_console _ Hi n Ec) as [d Ed].
  unfold on_mem. munfold. rewrite (c_string_ok _ _ _ t Hs (string_size _ _ _ Hs)). replace (set_d_mem (d_mem s) s) with s by (by destruct s).
  rewrite strlen_cstr by apply Hs.
  destruct (console_write_ok n d str (Z.of_nat (length t)) s Hi Ed) as (r & s2 & d2 & _ & _ & Ew & Hst & Ho).
  { intros a Ha. destruct Hs as (_ & Ht & _). destruct (lookup_lt_is_Some_2 t (Z.to_nat (a - str))) as [c E]; [lia|].
    specialize (Ht _ _ E). replace (str + Z.of_nat (Z.to_nat (a - str))) with a in Ht by lia. by eexists. }
  eexists. split; [exact Ew|]. by apply (settled_steady n d).
Qed.

(** ** Finding and registering *)

Lemma dinv_kernel s k : dinv s -> sys_inv k -> k_objs k = k_objs (d_kernel s) -> s_lock_nest (k_sched k) = s_lock_nest (k_sched (d_kernel s)) -> dinv (set_d_kernel k s).
Proof using. intros [] Hk Ho Hl. split; try done; cbn; [unfold can_lock in *; by rewrite Hl|by rewrite Ho]. Qed.

Lemma device_list s : dinv s -> exists l, o_lists (k_objs (d_kernel s)) !! RT_Object_Class_Device = Some l.
Proof using. intros Hi. apply (oi_heads _ (sy_objs _ (di_sys _ Hi))). by apply (bool_decide_unpack _). Qed.

(** The walk is atomic: a reschedule can only follow it. *)
Lemma find_walk name l s :
  dinv s -> o_lists (k_objs (d_kernel s)) !! RT_Object_Class_Device = Some l ->
  exists sc, find_device name (d_kernel s) = Some (List.find (has_name (k_objs (d_kernel s)) name) l, set_k_sched sc (d_kernel s)) /\
    sinv None sc /\ sched_frame (k_sched (d_kernel s)) sc.
Proof using.
  intros Hi El. pose proof (sy_objs _ (di_sys _ Hi)) as Ho. pose proof (ki_sched _ _ (sy_kinv _ (di_sys _ Hi))) as Hs.
  destruct (critical_ok _ Hs (di_lock _ Hi)) as (s1 & s' & E1 & E2 & Hs' & Hfr & _ & _).
  set (k := d_kernel s) in *. assert (Hw : forall k0, k_objs k0 = k_objs k -> on_objs (find_name name l) k0 = Some (List.find (has_name (k_objs k) name) l, k0)).
  { intros k0 Ek. erewrite on_objs_run by (rewrite Ek; apply find_name_ok; intros o Hin; destruct (oi_nodes _ Ho _ _ _ El Hin) as (ob & E & _); eauto).
    rewrite <- Ek. by rewrite set_objs_id. }
  assert (Hl : forall k0, k_objs k0 = k_objs k -> on_objs (oq (q_list RT_Object_Class_Device)) k0 = Some (l, k0)).
  { intros k0 Ek. erewrite on_objs_run by (rewrite Ek; by apply oq_list_run). rewrite <- Ek. by rewrite set_objs_id. }
  unfold find_device, rt_thread_self. munfold.
  destruct (bool_decide_reflect (s_current (k_sched k) <> None)) as [Hc|Hc].
  - exists s'. split; [|done]. rewrite (on_sched_run _ _ _ _ E1). change (rt_object_get_information RT_Object_Class_Device) with (Some RT_Object_Class_Device).
    cbv beta iota. rewrite Hl by done. cbv beta iota. rewrite Hw by done. cbv beta iota. assert (Ec : s_current s1 = s_current (k_sched k)).
    { unfold rt_enter_critical in E1. munfold in E1. by injection E1 as <-. }
    cbn [k_sched set_k_sched]. rewrite Ec, bool_decide_true by done. by rewrite (on_sched_run _ _ tt s') by done.
  - exists (k_sched k). split; [|by split]. change (rt_object_get_information RT_Object_Class_Device) with (Some RT_Object_Class_Device).
    cbv beta iota. rewrite Hl by done. cbv beta iota. rewrite Hw by done. cbv beta iota. rewrite bool_decide_false by done. by destruct k.
Qed.

(** Whether a device has the name. *)
Definition found (s : dsys D) (name : list Z) (r : option nat) : Prop :=
  exists l, o_lists (k_objs (d_kernel s)) !! RT_Object_Class_Device = Some l /\ List.find (has_name (k_objs (d_kernel s)) name) l = ODevice <$> r.

Lemma find_ok name s :
  dinv s -> exists r k, rt_device_find name s = Some (r, set_d_kernel k s) /\ found s name r /\ sys_inv k /\ k_objs k = k_objs (d_kernel s) /\
    s_lock_nest (k_sched k) = s_lock_nest (k_sched (d_kernel s)) /\ (forall n, r = Some n -> is_Some (d_devs s !! n)).
Proof using.
  intros Hi. destruct (device_list s Hi) as [l El]. destruct (find_walk name l s Hi El) as (sc & Ew & Hs & Hf).
  assert (Hk : sys_inv (set_k_sched sc (d_kernel s))).
  { apply (sys_calm PThread (d_kernel s)); [apply Hi|apply kinv_frame; [apply Hi|done|done]|done|by apply calm_frame]. }
  unfold rt_device_find. erewrite bind_run; [|unfold on_kernel, zoom; by rewrite Ew].
  destruct (List.find (has_name (k_objs (d_kernel s)) name) l) as [o|] eqn:Ef.
  - apply List.find_some in Ef as Hin. destruct Hin as [Hin _]. apply list_elem_of_In in Hin. destruct (di_list _ Hi l o El Hin) as (n & -> & Hn).
    exists (Some n), (set_k_sched sc (d_kernel s)). split; [done|]. split; [by exists l|]. split_and!; try done; [apply (sf_lock _ _ Hf)|by intros ? [= <-]].
  - exists None, (set_k_sched sc (d_kernel s)). split; [done|]. split; [by exists l|]. split_and!; try done. apply (sf_lock _ _ Hf).
Qed.

(** A device that was registered. *)
Definition fresh_device (flags : Z) (d : rt_device) : rt_device := set_dv_open_flag 0 (set_dv_ref_count 0 (set_dv_flag flags d)).
Record was_registered (n : nat) (name : list Z) (flags : Z) s s' : Prop := {
  re_inv : dinv s';
  re_devs : exists d, d_devs s !! n = Some d /\ d_devs s' = <[n := fresh_device flags d]> (d_devs s);
  re_objs : exists l, o_lists (k_objs (d_kernel s)) !! RT_Object_Class_Device = Some l /\
    k_objs (d_kernel s') = registered (ODevice n) RT_Object_Class_Device l
      (RtObject (Z.lor RT_Object_Class_Device RT_Object_Class_Static) (rt_strncpy name RT_NAME_MAX)) (k_objs (d_kernel s));
}.
Lemma register_ok n name flags s :
  dinv s -> is_Some (d_devs s !! n) -> q_free (o_lists (k_objs (d_kernel s))) (ODevice n) ->
  (exists r k, found s name (Some r) /\ rt_device_register (Some n) name flags s = Some (- RT_ERROR, set_d_kernel k s) /\ dinv (set_d_kernel k s)) \/
  (exists s', found s name None /\ rt_device_register (Some n) name flags s = Some (RT_EOK, s') /\ was_registered n name flags s s').
Proof using.
  intros Hi [d Ed] Hf. destruct (find_ok name s Hi) as (r & k & Ef & Hfound & Hk & Ho & Hl & _).
  pose proof (dinv_kernel s k Hi Hk Ho Hl) as Hi1. unfold rt_device_register. rewrite (bind_run _ _ _ _ _ Ef). destruct r as [r|]; [left; by exists r, k|].
  right. rewrite bool_decide_false by (intros H; by apply H). unfold can_lock in *.
  destruct (object_init_ok (ODevice n) RT_Object_Class_Device name k) as (l & sc & El & Einit & Hoi & Hsc & Hfr & _).
  { apply (ki_sched _ _ (sy_kinv _ Hk)). } { unfold can_lock. rewrite Hl. apply Hi. } { apply Hk. } { by apply (bool_decide_unpack _). } { by rewrite Ho. }
  cbv zeta in Einit, Hoi. set (ob := RtObject _ _) in *. set (objs' := registered (ODevice n) RT_Object_Class_Device l ob (k_objs k)) in *.
  set (k2 := set_k_objs objs' (set_k_sched sc k)) in *.
  erewrite bind_run; [|unfold on_kernel, zoom; cbn [d_kernel set_d_kernel]; by rewrite Einit].
  erewrite bind_run; [|by apply (upd_dev_run n _ d)]. eexists. split; [done|]. split; [done|].
  assert (Hk2 : sys_inv k2). { apply (untouched_sys k); [done| |by apply untouched_objs]. apply kinv_set_objs, kinv_frame; [apply Hk|done|done]. }
  split; cbn [d_devs d_kernel set_d_devs set_d_kernel].
  - destruct Hi as [? ? Hdev Hlist Hcon ? ?]. split; cbn [d_devs d_kernel d_console d_mem set_d_devs set_d_kernel]; try done.
    + unfold can_lock. change (k_sched k2) with sc. rewrite (sf_lock _ _ Hfr), Hl. done.
    + intros m dm. rewrite lookup_insert. case_decide; [intros [= <-]|by apply Hdev]. split; cbn; lia.
    + intros l' o. change (k_objs k2) with objs'. unfold objs', registered. cbn [o_lists set_o_lists]. rewrite lookup_insert_eq. intros [= <-].
      rewrite Ho in El. intros [->|Hin]%elem_of_cons; [exists n; split; [done|]; by rewrite lookup_insert_eq|].
      destruct (Hlist l o El Hin) as (m & -> & Hm). exists m. split; [done|]. rewrite lookup_insert. by case_decide.
    + intros m Hm. rewrite lookup_insert. case_decide; [done|]. by apply Hcon.
  - by exists d.
  - exists l. rewrite <- Ho. split; [done|]. done.
Qed.

End Calls.
End Device.
