(* ===== verification/DevCalls.v ===== *)
(** * Sequences of device calls (rt-thread/src/device.c, kservice.c)

    Any sequence of calls of the device interface and of the console is defined and keeps the
    invariant, whatever drivers serve the devices, as long as they satisfy [DriverSpec]; and
    the reference count of a device is the number of its sessions. *)
From S2P Require Import Prelude RtList KString KMem Kprintf Kernel Sched Timer Object Thread Lifecycle Idle Ipc System Creation Device.
From stdpp Require Import base gmap sets list relations.
From Stdlib Require Import ZArith Lia.
#[local] Open Scope Z_scope.

Section DevCalls.
Context {D : Type} (ops : nat -> device_ops D) (rt_log_buf sizeof_rt_device : Z).
Context {accepts : nat -> Z -> Z -> dsys D -> Prop} {HD : DriverSpec ops rt_log_buf accepts}.
Implicit Types (s : dsys D).

(** ** The calls *)

(** The calls on a registered device, and console output. *)
Inductive io_call :=
  | IoInit (n : nat)
  | IoOpen (n : nat) (oflag : Z)
  | IoClose (n : nat)
  | IoRead (n : nat) (pos buffer size : Z)
  | IoWrite (n : nat) (pos buffer size : Z)
  | IoControl (n : nat) (cmd arg : Z)
  | IoKputs (str : Z)
  | IoKprintf (fmt : list Z) (args : list arg)
  | IoErrno (error : Z).
Definition io_perform (c : io_call) : M (dsys D) Z :=
  match c with
  | IoInit n => rt_device_init ops rt_log_buf n
  | IoOpen n oflag => rt_device_open ops rt_log_buf n oflag
  | IoClose n => rt_device_close ops n
  | IoRead n pos buffer size => rt_device_read ops n pos buffer size
  | IoWrite n pos buffer size => rt_device_write ops n pos buffer size
  | IoControl n cmd arg => rt_device_control ops n cmd arg
  | IoKputs str => rt_kputs ops (Some str) ;; mret 0
  | IoKprintf fmt args => rt_kprintf ops rt_log_buf fmt args ;; mret 0
  | IoErrno error => rt_set_errno error ;; mret 0
  end.
(** What the caller has to provide. *)
Definition io_ready (c : io_call) s : Prop :=
  match c with
  | IoInit n => is_Some (d_devs s !! n) /\ named n s
  | IoOpen n oflag => is_Some (d_devs s !! n) /\ named n s /\ 0 <= oflag < 2 ^ 16
  | IoClose n => is_Some (d_devs s !! n)
  | IoRead n _ buffer size | IoWrite n _ buffer size => is_Some (d_devs s !! n) /\ mapped (d_mem s) buffer size
  | IoControl n cmd arg => exists d, d_devs s !! n = Some d /\ forall i, dv_driver d = Some i -> accepts i cmd arg s
  | IoKputs str => exists t, string_at (d_mem s) str t
  | IoKprintf fmt args => exists out, text fmt args = Some out /\ rt_log_buf + Z.of_nat (length out) < 2 ^ 32
  | IoErrno _ => True
  end.

(** Sessions: the number of opens of each device that were not closed yet.  The result
    -RT_ENOSYS of an open does not tell whether there is a new one. *)
Definition session_step (c : io_call) (r : Z) (sessions sessions' : nat -> Z) : Prop :=
  match c with
  | IoOpen n _ =>
      (sessions' n = sessions n + 1 /\ succeeded r = true \/ sessions' n = sessions n /\ r <> RT_EOK) /\
      (forall m, m <> n -> sessions' m = sessions m)
  | IoClose n =>
      sessions' n = (if bool_decide (0 < sessions n) then sessions n - 1 else sessions n) /\ (forall m, m <> n -> sessions' m = sessions m)
  | _ => forall m, sessions' m = sessions m
  end.
Definition counts (sessions : nat -> Z) s : Prop := forall n d, d_devs s !! n = Some d -> dv_ref_count d = sessions n.
(** The driver of a device is called for a transfer only while there is a session. *)
Definition io_guarded (c : io_call) (r : Z) (sessions : nat -> Z) s s' : Prop :=
  match c with
  | IoRead n _ _ _ | IoWrite n _ _ _ =>
      sessions n = 0 -> r = 0 /\ d_devs s' = d_devs s /\ d_drv s' = d_drv s /\ d_mem s' = d_mem s /\ rt_get_errno s' = Some (- RT_ERROR, s')
  | IoClose n => sessions n = 0 -> r = - RT_ERROR /\ s' = s
  | _ => True
  end.

Lemma counts_settled sessions s s' : counts sessions s -> settled s s' -> counts sessions s'.
Proof.
  intros Hc [_ _ _ Hd _ _ _] n d' E. specialize (Hd n). rewrite E in Hd. inversion Hd as [d ? [[] _] E1 E2|]; subst. rewrite kd_ref. by apply Hc.
Qed.
Lemma counts_around sessions f n s s' d' :
  counts sessions s -> around n s s' -> d_devs s' !! n = Some d' -> dv_ref_count d' = f n -> (forall m, m <> n -> f m = sessions m) -> counts f s'.
Proof.
  intros Hc Ha E Hr Hf m d Em. destruct (decide (m = n)) as [->|Hm]; [congruence|]. rewrite (ar_devs _ _ _ Ha) in Em by done. rewrite Hf by done. by apply Hc.
Qed.

(** One call: defined, the invariant, and the sessions, unless the counter of the device
    would overflow. *)
Record io_done (c : io_call) (sessions : nat -> Z) s (r : Z) s' : Prop := {
  dn_inv : dinv rt_log_buf s';
  dn_counts : exists sessions', session_step c r sessions sessions' /\ ((forall n, sessions' n < 256) -> counts sessions' s');
  dn_guarded : io_guarded c r sessions s s';
}.
Lemma settled_done c sessions s r s' :
  dinv rt_log_buf s -> counts sessions s -> settled s s' -> session_step c r sessions sessions -> io_guarded c r sessions s s' -> io_done c sessions s r s'.
Proof. intros Hi Hc Hs Hst Hg. split; [by apply (dinv_settled _ s)|exists sessions; split; [done|]; intros _; by apply (counts_settled _ s)|done]. Qed.
Lemma initialised_counts n d d' sessions s s' :
  counts sessions s -> d_devs s !! n = Some d -> initialised_dev n s s' d d' -> counts sessions s'.
Proof. intros Hc E []. apply (counts_around sessions _ n s s' d'); try done. rewrite ini_ref. by apply Hc. Qed.

Lemma open_io_done n d oflag sessions s r s' :
  dinv rt_log_buf s -> counts sessions s -> d_devs s !! n = Some d -> open_outcome ops n d s r s' -> io_done (IoOpen n oflag) sessions s r s'.
Proof.
  intros Hi Hc E Ho. split; [by apply (open_dinv ops rt_log_buf n d s r)| |done]. pose proof (di_dev _ _ Hi n d E) as [Hr0 _ _].
  destruct Ho as [r s' _ _ Hr Hs|s' d' Hini _ _|r s' d' Hini Hr _ _|r s' d' Ha E' Hs Hb Hr _ _ _ _].
  - exists sessions. split; [by split; [right|]|]. intros _. by apply (counts_settled _ s).
  - exists sessions. split; [by split; [right|]|]. intros _. by apply (initialised_counts n d d' sessions s).
  - exists sessions. split; [split; [right; split; [done|]|done]|]; [by intros ->|]. intros _. by apply (initialised_counts n d d' sessions s).
  - exists (fun m => if bool_decide (m = n) then sessions m + 1 else sessions m). split.
    + split; [left|intros m Hm]; [by rewrite bool_decide_true|by rewrite bool_decide_false].
    + intros Hlt. specialize (Hlt n). rewrite bool_decide_true in Hlt by done. apply (counts_around sessions _ n s s' d'); try done.
      * rewrite bool_decide_true by done. rewrite Hr, (Hc n d E), wrap_id; [done|]. rewrite <- (Hc n d E) in *. lia.
      * intros m Hm. by rewrite bool_decide_false.
Qed.
Lemma close_io_done n d sessions s r s' :
  dinv rt_log_buf s -> counts sessions s -> d_devs s !! n = Some d -> close_outcome ops n d s r s' -> io_done (IoClose n) sessions s r s'.
Proof.
  intros Hi Hc E Ho. pose proof (Hc n d E) as Hn. split; [by apply (close_dinv ops rt_log_buf n d s r)| |].
  - exists (fun m => if bool_decide (m = n) then if bool_decide (0 < sessions n) then sessions n - 1 else sessions n else sessions m).
    split; [split; [by rewrite bool_decide_true|intros m Hm; by rewrite bool_decide_false]|]. intros _.
    assert (Hoth : forall m, m <> n -> (if bool_decide (m = n) then if bool_decide (0 < sessions n) then sessions n - 1 else sessions n else sessions m) = sessions m)
      by (intros m Hm; by rewrite bool_decide_false).
    destruct Ho as [H0|H1|r s' d' H1 Ha E' Hr _ _ _].
    + apply (counts_around sessions _ n s s d); try done. rewrite bool_decide_true, bool_decide_false by (done || lia). done.
    + eapply (counts_around sessions _ n s); [done|apply around_upd|apply lookup_insert_eq| |done]. cbn. rewrite !bool_decide_true by (done || lia). lia.
    + apply (counts_around sessions _ n s s' d'); try done. rewrite !bool_decide_true by (done || lia). lia.
  - intros H0. destruct Ho; [done|lia..].
Qed.

Lemma io_call_ok c sessions s :
  dinv rt_log_buf s -> counts sessions s -> io_ready c s -> exists r s', io_perform c s = Some (r, s') /\ io_done c sessions s r s'.
Proof using HD.
  intros Hi Hc Hr. destruct c as [n|n oflag|n|n pos buffer size|n pos buffer size|n cmd arg|str|fmt args|e]; cbn [io_perform io_ready] in *.
  - destruct Hr as [[d E] Hn]. destruct (init_ok ops rt_log_buf n d s Hi E Hn) as (r & s' & Ei & [Hs|(d' & _ & Hini)]); exists r, s'; (split; [done|]).
    + by apply settled_done.
    + split; [by apply (initialised_dinv _ n s s' d d')| |done]. exists sessions. split; [done|]. intros _. by apply (initialised_counts n d d' sessions s).
  - destruct Hr as ([d E] & Hn & Hf). destruct (open_ok ops rt_log_buf n d oflag s Hi E Hn Hf) as (r & s' & Eo & Ho). exists r, s'. split; [done|].
    by apply (open_io_done n d).
  - destruct Hr as [d E]. destruct (close_ok ops rt_log_buf n d s Hi E) as (r & s' & Eo & Ho). exists r, s'. split; [done|]. by apply (close_io_done n d).
  - destruct Hr as [[d E] Hm].
    destruct (transfer_ok ops rt_log_buf op_read n d pos buffer size s) as (r & s' & Ew & Hs & Ho & Hg); try done; [intros i h Eh; by apply (@drv_read _ _ _ _ HD)|].
    exists r, s'. split; [done|]. apply settled_done; try done; [by apply (settled_steady n d)|]. intros H0.
    rewrite bool_decide_true in Hg by (by rewrite (Hc n d E)). done.
  - destruct Hr as [[d E] Hm].
    destruct (transfer_ok ops rt_log_buf op_write n d pos buffer size s) as (r & s' & Ew & Hs & Ho & Hg); try done; [intros i h Eh; by apply (@drv_write _ _ _ _ HD)|].
    exists r, s'. split; [done|]. apply settled_done; try done; [by apply (settled_steady n d)|]. intros H0.
    rewrite bool_decide_true in Hg by (by rewrite (Hc n d E)). done.
  - destruct Hr as (d & E & Ha). destruct (control_ok ops rt_log_buf n d cmd arg s Hi E Ha) as (r & s' & Ec & Hs). exists r, s'. split; [done|]. by apply settled_done.
  - destruct Hr as [t Ht]. destruct (kputs_ok ops rt_log_buf str t s Hi Ht) as (s' & Ek & Hs). exists 0, s'. rewrite (bind_run _ _ _ _ _ Ek). split; [done|]. by apply settled_done.
  - destruct Hr as (out & Ht & Hl). destruct (kprintf_settled ops rt_log_buf fmt args out s Hi Ht Hl) as (s' & Ek & Hs). exists 0, s'. rewrite (bind_run _ _ _ _ _ Ek).
    split; [done|]. by apply settled_done.
  - destruct (errno_ok rt_log_buf e 0 s Hi) as (s' & Ee & [] & Hd & _). exists 0, s'. rewrite (bind_run _ _ _ _ _ Ee). split; [done|].
    apply settled_done; try done. by apply settled_same.
Qed.

(** ** Registration, creation, removal and the console *)

Lemma dinv_unlisted n objs' s :
  dinv rt_log_buf s -> oinv objs' -> o_lists objs' = list_del (ODevice n) <$> o_lists (k_objs (d_kernel s)) ->
  dinv rt_log_buf (set_d_kernel (set_k_objs objs' (d_kernel s)) s).
Proof.
  intros [] Ho El. split; try done; cbn.
  - apply (sys_calm PThread (d_kernel s)); try done; [by apply kinv_set_objs, di_sys|by apply calm_objs].
  - intros l o. rewrite El, lookup_fmap, fmap_Some. intros (l0 & E0 & ->) [Hin _]%elem_of_list_del. by apply (di_list l0 o).
Qed.
Lemma unregister_ok n s :
  dinv rt_log_buf s -> is_Some (o_objs (k_objs (d_kernel s)) !! ODevice n) ->
  exists s', rt_device_unregister n s = Some (RT_EOK, s') /\ dinv rt_log_buf s'.
Proof.
  intros Hi [ob Eo]. destruct (object_detach_ok (ODevice n) (d_kernel s) ob (sy_objs _ (di_sys _ _ Hi)) Eo) as (E & Ho & _). cbv zeta in *.
  eexists. unfold rt_device_unregister. erewrite bind_run; [|unfold on_kernel, zoom; by rewrite E]. split; [done|]. by apply (dinv_unlisted n).
Qed.
Lemma create_ok type attach malloc s :
  dinv rt_log_buf s -> (forall n, malloc (u32 (RT_ALIGN sizeof_rt_device + RT_ALIGN attach)) = Some n -> d_devs s !! n = None) ->
  exists r s', rt_device_create sizeof_rt_device type attach malloc s = Some (r, s') /\ dinv rt_log_buf s' /\
    forall n, r = Some n -> exists d, d_devs s' !! n = Some d /\ dv_ref_count d = 0 /\ dv_driver d = None.
Proof.
  intros Hi Hm. unfold rt_device_create. destruct (malloc _) as [n|]; [|by eexists _, _]. specialize (Hm n eq_refl).
  eexists _, _. split; [done|]. split; [|intros ? [= <-]; eexists; by split; [apply lookup_insert_eq|]].
  eapply (dinv_around _ n s); [done|apply around_upd|apply lookup_insert_eq|]. by split; cbn; intros.
Qed.
Lemma destroy_ok n s :
  dinv rt_log_buf s -> is_Some (o_objs (k_objs (d_kernel s)) !! ODevice n) -> is_Some (d_devs s !! n) -> d_console s <> Some n ->
  exists s', rt_device_destroy n s = Some (tt, s') /\ dinv rt_log_buf s' /\ d_devs s' = delete n (d_devs s).
Proof.
  intros Hi [ob Eo] [d Ed] Hc. destruct (object_delete_ok (ODevice n) (d_kernel s) ob (sy_objs _ (di_sys _ _ Hi)) Eo) as (objs' & E & Ho & _ & El).
  unfold rt_device_destroy. erewrite bind_run; [|unfold on_kernel, zoom; by rewrite E]. erewrite bind_run; [|by apply (rd_dev_run n d)].
  eexists. split; [done|]. split; [|done]. pose proof (dinv_unlisted n objs' s Hi Ho El) as [].
  split; try done; cbn in *.
  - intros m dm Em. apply lookup_delete_Some in Em as [_ Em]. eauto.
  - intros l o El' Hin. destruct (di_list l o El' Hin) as (m & -> & Hm). exists m. split; [done|].
    rewrite El, lookup_fmap, fmap_Some in El'. destruct El' as (l0 & _ & ->). apply elem_of_list_del in Hin as [_ Hne].
    rewrite lookup_delete_ne; [done|]. congruence.
  - intros m Hm. rewrite lookup_delete_ne; [eauto|]. congruence.
Qed.

(** What closing leaves for the next step. *)
Lemma close_keeps n d s r s' :
  d_devs s !! n = Some d -> close_outcome ops n d s r s' ->
  k_objs (d_kernel s') = k_objs (d_kernel s) /\ forall m, is_Some (d_devs s !! m) -> is_Some (d_devs s' !! m).
Proof.
  intros E Ho. assert (Hg : forall s2 d2, around n s s2 -> d_devs s2 !! n = Some d2 ->
    k_objs (d_kernel s2) = k_objs (d_kernel s) /\ forall m, is_Some (d_devs s !! m) -> is_Some (d_devs s2 !! m)).
  { intros s2 d2 [] E2. split; [done|]. intros m Hm. destruct (decide (m = n)) as [->|]; [by eexists|by rewrite ar_devs]. }
  destruct Ho as [H0|H1|r s' d' _ Ha E' _ _ _ _]; [done| |by apply (Hg s' d')]. eapply Hg; [apply around_upd|apply lookup_insert_eq].
Qed.
Lemma open_keeps n d s r s' :
  d_devs s !! n = Some d -> open_outcome ops n d s r s' -> d_console s' = d_console s /\ is_Some (d_devs s' !! n).
Proof.
  intros E Ho. destruct Ho as [r s' _ _ _ [_ _ _ Hd Hc _ _]|s' d' [[]] _ _|r s' d' [[]] _ _ _|r s' d' [] E' _ _ _ _ _ _ _]; try (by split; [|eexists]).
  split; [done|]. specialize (Hd n). rewrite E in Hd. inversion Hd. by eexists.
Qed.
Lemma console_ok name s :
  dinv rt_log_buf s -> (forall n, found s name (Some n) -> named n s) ->
  exists s' r, rt_console_set_device ops rt_log_buf name s = Some (d_console s, s') /\ dinv rt_log_buf s' /\ found s name r /\
    d_console s' = match r with Some n => Some n | None => d_console s end.
Proof using HD.
  intros Hi Hn. destruct (find_ok rt_log_buf name s Hi) as (r & k & Ef & Hf & Hk & Ho & Hl & Hd).
  pose proof (dinv_kernel _ s k Hi Hk Ho Hl) as Hi1. unfold rt_console_set_device.
  rewrite (bind_run (gets d_console) _ s (d_console s) s) by done. rewrite (bind_run _ _ _ _ _ Ef).
  destruct r as [n|]; [|by eexists _, None]. specialize (Hn n Hf). destruct (Hd n eq_refl) as [d Ed].
  set (s1 := set_d_kernel k s) in *. rewrite (bind_run (gets d_console) _ s1 (d_console s) s1) by done.
  assert (Hclose : exists s2, match d_console s with Some console => _ ← rt_device_close ops console; mret tt | None => mret tt end s1 = Some (tt, s2) /\ dinv rt_log_buf s2 /\ k_objs (d_kernel s2) = k_objs (d_kernel s) /\ is_Some (d_devs s2 !! n)).
  { destruct (d_console s) as [c|] eqn:Ec; [|exists s1; split_and!; [done|done|done|by eexists]].
    destruct (di_console _ _ Hi c Ec) as [dc Edc]. destruct (close_ok ops rt_log_buf c dc s1 Hi1 Edc) as (rc & s2 & E2 & Hc). exists s2. rewrite (bind_run _ _ _ _ _ E2).
    destruct (close_keeps c dc s1 rc s2 Edc Hc) as [Hko Hkd]. split; [done|]. split; [by apply (close_dinv ops rt_log_buf c dc s1 rc)|].
    split; [by rewrite Hko|]. apply Hkd. by eexists. }
  destruct Hclose as (s2 & E2 & Hi2 & Ho2 & [d2 Ed2]). rewrite (bind_run _ _ _ _ _ E2). assert (Hn2 : named n s2) by (unfold named in *; by rewrite Ho2).
  destruct (open_ok ops rt_log_buf n d2 (Z.lor RT_DEVICE_OFLAG_RDWR RT_DEVICE_FLAG_STREAM) s2 Hi2 Ed2 Hn2) as (ro & s3 & E3 & Hopen); [done|].
  rewrite (bind_run _ _ _ _ _ E3). destruct (open_keeps n d2 s2 ro s3 Ed2 Hopen) as [_ Hs3]. pose proof (open_dinv ops rt_log_buf n d2 s2 ro s3 Hi2 Ed2 Hopen) as [].
  eexists _, (Some n). split; [done|]. split; [|done]. split; try done. cbn. by intros ? [= <-].
Qed.

(** ** All calls *)

Inductive dev_call :=
  | DevIo (c : io_call)
  | DevRegister (n : nat) (name : list Z) (flags : Z)
  | DevUnregister (n : nat)
  | DevCreate (type attach : Z) (malloc : Z -> option nat)
  | DevDestroy (n : nat)
  | DevConsole (name : list Z)
  | DevRxIndicate (n : nat) (f : option nat)
  | DevTxComplete (n : nat) (f : option nat)
  | DevInterruptEnter
  | DevInterruptLeave.
Definition dev_perform (c : dev_call) : M (dsys D) unit :=
  match c with
  | DevIo c => _ ← io_perform c; mret tt
  | DevRegister n name flags => _ ← rt_device_register (Some n) name flags; mret tt
  | DevUnregister n => _ ← rt_device_unregister n; mret tt
  | DevCreate type attach malloc => _ ← rt_device_create sizeof_rt_device type attach malloc; mret tt
  | DevDestroy n => rt_device_destroy n
  | DevConsole name => _ ← rt_console_set_device ops rt_log_buf name; mret tt
  | DevRxIndicate n f => _ ← rt_device_set_rx_indicate n f; mret tt
  | DevTxComplete n f => _ ← rt_device_set_tx_complete n f; mret tt
  | DevInterruptEnter => rt_interrupt_enter
  | DevInterruptLeave => rt_interrupt_leave
  end.
Definition dev_ready (c : dev_call) s : Prop :=
  match c with
  | DevIo c => io_ready c s
  | DevRegister n _ _ => is_Some (d_devs s !! n) /\ q_free (o_lists (k_objs (d_kernel s))) (ODevice n)
  | DevUnregister n => is_Some (o_objs (k_objs (d_kernel s)) !! ODevice n)
  | DevCreate _ attach malloc => forall n, malloc (u32 (RT_ALIGN sizeof_rt_device + RT_ALIGN attach)) = Some n -> d_devs s !! n = None
  | DevDestroy n => is_Some (o_objs (k_objs (d_kernel s)) !! ODevice n) /\ is_Some (d_devs s !! n) /\ d_console s <> Some n
  | DevConsole name => forall n, found s name (Some n) -> named n s
  | DevRxIndicate n _ | DevTxComplete n _ => is_Some (d_devs s !! n)
  | DevInterruptEnter | DevInterruptLeave => True
  end.

Lemma upd_callback n f s : dinv rt_log_buf s -> is_Some (d_devs s !! n) -> (forall d, dev_ok d -> dev_ok (f d)) ->
  exists s', (upd_dev n f ;; mret RT_EOK) s = Some (RT_EOK, s') /\ dinv rt_log_buf s'.
Proof.
  intros Hi [d E] Hf. eexists. rewrite (bind_run _ _ _ _ _ (upd_dev_run _ _ _ _ E)). split; [done|].
  eapply (dinv_around _ n s); [done|apply around_upd|apply lookup_insert_eq|]. apply Hf. by apply (di_dev _ _ Hi n).
Qed.
Lemma then_unit {A} (c : M (dsys D) A) s a s' : c s = Some (a, s') -> dinv rt_log_buf s' -> exists s', (_ ← c; mret tt) s = Some (tt, s') /\ dinv rt_log_buf s'.
Proof. intros E Hi. exists s'. by rewrite (bind_run _ _ _ _ _ E). Qed.

Lemma dev_call_ok c s : dinv rt_log_buf s -> dev_ready c s -> exists s', dev_perform c s = Some (tt, s') /\ dinv rt_log_buf s'.
Proof using HD.
  intros Hi Hr. destruct c as [c|n name flags|n|type attach malloc|n|name|n f|n f| |]; cbn [dev_perform dev_ready] in *.
  - destruct (io_call_ok c (fun n => match d_devs s !! n with Some d => dv_ref_count d | None => 0 end) s Hi) as (r & s' & E & []); [by intros n d ->|done|].
    by apply (then_unit _ _ r s').
  - destruct Hr as [Hn Hf]. destruct (register_ok rt_log_buf n name flags s Hi Hn Hf) as [(r & k & _ & E & Hi')|(s' & _ & E & [])]; by eapply then_unit.
  - destruct (unregister_ok n s Hi Hr) as (s' & E & Hi'). by eapply then_unit.
  - destruct (create_ok type attach malloc s Hi Hr) as (r & s' & E & Hi' & _). by eapply then_unit.
  - destruct Hr as (Ho & Hd & Hc). destruct (destroy_ok n s Hi Ho Hd Hc) as (s' & E & Hi' & _). by exists s'.
  - destruct (console_ok name s Hi Hr) as (s' & r & E & Hi' & _). by eapply then_unit.
  - destruct (upd_callback n (set_dv_rx_indicate f) s Hi Hr) as (s' & E & Hi'); [by intros d []|]. by eapply then_unit.
  - destruct (upd_callback n (set_dv_tx_complete f) s Hi Hr) as (s' & E & Hi'); [by intros d []|]. by eapply then_unit.
  - eexists. split; [done|]. by destruct Hi.
  - eexists. split; [done|]. by destruct Hi.
Qed.

Inductive dev_step s s' : Prop :=
  | dev_step_call c : dev_ready c s -> dev_perform c s = Some (tt, s') -> dev_step s s'.

(** A run of io calls with their results. *)
Inductive io_trace : list (io_call * Z) -> dsys D -> dsys D -> Prop :=
  | io_trace_nil s : io_trace [] s s
  | io_trace_cons c r tr s s1 s' :
      io_ready c s -> io_perform c s = Some (r, s1) -> io_trace tr s1 s' -> io_trace ((c, r) :: tr) s s'.
(** The same run, with the sessions of the specification next to each state. *)
Inductive session_run : list (io_call * Z) -> (nat -> Z) -> dsys D -> (nat -> Z) -> dsys D -> Prop :=
  | session_run_nil sessions s : counts sessions s -> session_run [] sessions s sessions s
  | session_run_cons c r tr sessions sessions1 sessions' s s1 s' :
      counts sessions s -> session_step c r sessions sessions1 -> io_guarded c r sessions s s1 ->
      session_run tr sessions1 s1 sessions' s' -> session_run ((c, r) :: tr) sessions s sessions' s'.

Lemma session_step_bound c r sessions sessions' n : session_step c r sessions sessions' -> sessions' n <= sessions n + 1.
Proof.
  destruct c as [m|m oflag|m|m ? ? ?|m ? ? ?|m ? ?|?|? ?|?]; cbn; try (intros H; rewrite H; lia).
  - intros [H1 H2]. destruct (decide (n = m)) as [->|Hn]; [lia|rewrite H2 by done; lia].
  - intros [H1 H2]. destruct (decide (n = m)) as [->|Hn]; [case_bool_decide; lia|rewrite H2 by done; lia].
Qed.
Lemma session_run_ok tr sessions s s' :
  dinv rt_log_buf s -> counts sessions s -> io_trace tr s s' -> (forall n, sessions n + Z.of_nat (length tr) < 256) ->
  exists sessions', session_run tr sessions s sessions' s' /\ dinv rt_log_buf s'.
Proof using HD.
  intros Hi Hc Ht. revert sessions Hi Hc. induction Ht as [s|c r tr s s1 s' Hr E Ht IH]; intros sessions Hi Hc Hb.
  { exists sessions. by split; [constructor|]. }
  destruct (io_call_ok c sessions s Hi Hc Hr) as (r' & s1' & E' & [Hi' (sessions1 & Hst & Hcs) Hg]). rewrite E in E'. injection E' as <- <-.
  assert (Hb1 : forall n, sessions1 n + Z.of_nat (length tr) < 256).
  { intros n. pose proof (session_step_bound c r sessions sessions1 n Hst). specialize (Hb n). cbn [length] in Hb. lia. }
  destruct (IH sessions1 Hi') as (sessions' & Hrun & Hi2); [apply Hcs; intros n; specialize (Hb1 n); lia|done|].
  exists sessions'. split; [|done]. by apply (session_run_cons c r tr sessions sessions1 sessions' s s1 s').
Qed.

(** ** Properties *)

(** C11: the device layer is safe with every driver that keeps its contract.  In every state
    that calls of the device interface and of the console can reach, the kernel's invariant
    holds, a device with references is open, a standalone device has at most one, the
    registry and the console name existing devices, and the next call is defined, on every
    error path too. *)
Theorem device_calls_safe s0 s :
  dinv rt_log_buf s0 -> rtc dev_step s0 s ->
  dinv rt_log_buf s /\ forall c, dev_ready c s -> exists s', dev_perform c s = Some (tt, s').
Proof using HD.
  intros H0 Hrun. assert (Hi : dinv rt_log_buf s).
  { induction Hrun as [|s s1 s2 [c Hr E] _ IH]; [done|]. apply IH. destruct (dev_call_ok c s H0 Hr) as (s' & E' & Hi'). congruence. }
  split; [done|]. intros c Hr. destruct (dev_call_ok c s Hi Hr) as (s' & E & _). by exists s'.
Qed.


(** A device registered under a free name is what rt_device_find returns for that name,
    with no references and closed, and the name is not given away again: registering another
    device under it fails and changes no device. *)
Theorem device_register_find n m name flags s :
  dinv rt_log_buf s -> is_Some (d_devs s !! n) -> is_Some (d_devs s !! m) -> m <> n ->
  q_free (o_lists (k_objs (d_kernel s))) (ODevice n) -> q_free (o_lists (k_objs (d_kernel s))) (ODevice m) -> found s name None -> cstr name ->
  exists s1 s2 s3, rt_device_register (Some n) name flags s = Some (RT_EOK, s1) /\ dinv rt_log_buf s1 /\
    (exists d, d_devs s1 !! n = Some d /\ dv_ref_count d = 0 /\ dv_open_flag d = 0 /\ dv_flag d = flags) /\
    rt_device_find name s1 = Some (Some n, s2) /\ dinv rt_log_buf s2 /\
    rt_device_register (Some m) name flags s2 = Some (- RT_ERROR, s3) /\ d_devs s3 = d_devs s1.
Proof.
  intros Hi Hn Hm Hmn Hf Hfm (l & El & Hnone) Hname.
  destruct (register_ok rt_log_buf n name flags s Hi Hn Hf) as [(r & k & (l' & El' & Hr) & _)|(s1 & _ & E1 & [Hi1 (d & Ed & Hd1) (l1 & El1 & Ho1)])].
  { rewrite El in El'. injection El' as <-. by rewrite Hnone in Hr. }
  assert (Hfound : found s1 name (Some n)).
  { exists (ODevice n :: l1). rewrite Ho1. unfold registered. cbn [o_lists set_o_lists]. split; [apply lookup_insert_eq|].
    cbn [List.find]. unfold has_name at 1. cbn [o_objs set_o_lists set_o_objs]. rewrite lookup_insert_eq. cbn [ob_name]. by rewrite bool_decide_true by (by apply strncmp_strncpy). }
  destruct (find_ok rt_log_buf name s1 Hi1) as (r & k & E2 & (l2 & El2 & Hr2) & Hk & Hko & Hkl & _).
  assert (r = Some n) as ->. { destruct Hfound as (l3 & El3 & Hr3). rewrite El2 in El3. injection El3 as <-. rewrite Hr2 in Hr3. destruct r; by simplify_eq. }
  pose proof (dinv_kernel _ s1 k Hi1 Hk Hko Hkl) as Hi2. set (s2 := set_d_kernel k s1) in *.
  destruct (register_ok rt_log_buf m name flags s2 Hi2) as [(r & k3 & _ & E3 & _)|(s3 & (l4 & El4 & Hr4) & _)].
  - cbn. rewrite Hd1. rewrite lookup_insert_ne by done. done.
  - cbn. rewrite Hko, Ho1. unfold registered. cbn. intros c lc. rewrite lookup_insert. case_decide; [|apply Hfm].
    intros [= <-]. apply not_elem_of_cons. split; [congruence|]. by apply (Hfm RT_Object_Class_Device).
  - exists s1, s2, (set_d_kernel k3 s2). split_and!; try done. exists (fresh_device flags d). rewrite Hd1, lookup_insert_eq. done.
  - cbn in El4, Hr4. rewrite Hko in El4, Hr4. destruct Hfound as (l3 & El3 & Hr3). rewrite El3 in El4. injection El4 as <-. rewrite Hr3 in Hr4. done.
Qed.

(** Rt_kprintf hands the console device what its buffer holds: the beginning of the text,
    at most 254 characters and a NUL, as one write of at most 255 bytes with the device in
    stream mode, and afterwards the device has its old open flag. *)
Theorem kprintf_console fmt args out n d s :
  dinv rt_log_buf s -> text fmt args = Some out -> rt_log_buf + Z.of_nat (length out) < 2 ^ 32 ->
  d_console s = Some n -> d_devs s !! n = Some d ->
  exists m r s2 d2 s', printed (d_mem s) rt_log_buf (RT_CONSOLEBUF_SIZE - 1) out m /\
    rt_device_write ops n 0 rt_log_buf (Z.min (Z.of_nat (length out)) (RT_CONSOLEBUF_SIZE - 1))
      (set_d_devs (<[n := set_dv_open_flag (Z.lor (dv_open_flag d) RT_DEVICE_FLAG_STREAM) d]> (d_devs s)) (set_d_mem m s)) = Some (r, s2) /\
    d_devs s2 !! n = Some d2 /\ rt_kprintf ops rt_log_buf fmt args s = Some (tt, s') /\
    s' = set_d_devs (<[n := set_dv_open_flag (dv_open_flag d) d2]> (d_devs s2)) s2 /\ dinv rt_log_buf s'.
Proof using HD.
  intros Hi Ht Hl Hc Ed. destruct (kprintf_ok ops rt_log_buf fmt args out s Hi Ht Hl) as (m & Hp & Hs & E). rewrite Hc in E.
  pose proof (dinv_settled _ _ _ Hi Hs) as Hi1.
  destruct (console_write_ok ops rt_log_buf n d rt_log_buf (clipped out) (set_d_mem m s) Hi1 Ed) as (r & s2 & d2 & Ew & E2 & Ek & Hst & Ho).
  { intros a Ha. apply (di_log _ _ Hi1). unfold clipped in Ha. lia. }
  exists m, r, s2, d2. eexists. split; [done|]. split; [exact Ew|]. split; [done|]. split; [by rewrite E|]. split; [done|].
  by apply (dinv_steady _ n _ _ d Hi1).
Qed.
End DevCalls.
