(* ===== verification/Serial.v ===== *)
(** * The serial driver framework (rt-thread/components/drivers/serial/serial.c)

    The receive side of a serial device in its three modes (polling, interrupt and DMA with a
    software FIFO), the receive interrupts, transmission by polling, and the handlers init,
    open, close, read and control.  The UART itself (struct rt_uart_ops) is a parameter.  The
    bytes a call stores at its data argument are part of its result, and so is the length
    that rx_indicate is called with.  Transmission by interrupt and by DMA, which waits for a
    completion or a data queue, is in SerialTx.v. *)
From S2P Require Import Prelude RingBuffer Kernel Device.
From stdpp Require Import base list.
From Stdlib Require Import ZArith Lia.
#[local] Open Scope Z_scope.
Import RingBuffer.

(** ** Data *)

Definition RT_DEVICE_FLAG_SUSPENDED : Z := 0x020.
Definition RT_DEVICE_FLAG_INT_RX : Z := 0x100.
Definition RT_DEVICE_FLAG_DMA_RX : Z := 0x200.
Definition RT_DEVICE_FLAG_INT_TX : Z := 0x400.
Definition RT_DEVICE_FLAG_DMA_TX : Z := 0x800.
Definition RT_DEVICE_CTRL_RESUME : Z := 0x01.
Definition RT_DEVICE_CTRL_SUSPEND : Z := 0x02.
Definition RT_DEVICE_CTRL_CONFIG : Z := 0x03.
Definition RT_DEVICE_CTRL_SET_INT : Z := 0x10.
Definition RT_DEVICE_CTRL_CLR_INT : Z := 0x11.

(** struct serial_configure. *)
Record serial_configure := SerialConfigure {
  baud_rate : Z; data_bits : Z; stop_bits : Z; parity : Z; bit_order : Z; invert : Z; bufsz : Z; reserved : Z;
}.
(** struct rt_serial_rx_fifo with the buffer behind it. *)
Record rt_serial_rx_fifo := RxFifo { rf_buffer : list Z; rf_put_index : Z; rf_get_index : Z; rf_is_full : bool }.
(** What serial_rx and serial_tx point to; a transmit structure is known by its kind. *)
Inductive rx_struct := RxF (f : rt_serial_rx_fifo) | RxD (activated : bool).
Inductive tx_struct := TxF | TxD (activated : bool).

(** struct rt_serial_device, with the fields of its device that serial.c uses, the flag
    already_output of _serial_check_buffer_size, errno and the state [H] of the UART. *)
Record serial {H : Type} := Serial {
  sr_flag : Z;
  sr_open_flag : Z;
  sr_ref_count : Z;
  sr_rx_indicate : bool;
  sr_config : serial_configure;
  sr_rx : option rx_struct;
  sr_tx : option tx_struct;
  sr_warned : bool;
  sr_errno : Z;
  sr_hw : H;
}.
Arguments serial : clear implicits.
Arguments Serial {H}.

(** struct rt_uart_ops on the state of the UART; [configure] may be RT_NULL.  dma_transmit is
    [uo_dma_receive] of a size or [uo_dma_transmit] of an address and a size. *)
Record rt_uart_ops {H : Type} := UartOps {
  uo_configure : option (serial_configure -> H -> Z * H);
  uo_control : Z -> Z -> H -> Z * H;
  uo_putc : Z -> H -> Z * H;
  uo_getc : H -> Z * H;
  uo_dma_receive : Z -> H -> H;
  uo_dma_transmit : Z -> Z -> H -> H;
}.
Arguments rt_uart_ops : clear implicits.

Section Serial.
Context {H : Type} (ops : rt_uart_ops H).
Implicit Types (s : serial H) (f : rt_serial_rx_fifo).

Definition set_sr_flag v s : serial H := Serial v (sr_open_flag s) (sr_ref_count s) (sr_rx_indicate s) (sr_config s) (sr_rx s) (sr_tx s) (sr_warned s) (sr_errno s) (sr_hw s).
Definition set_sr_open_flag v s : serial H := Serial (sr_flag s) v (sr_ref_count s) (sr_rx_indicate s) (sr_config s) (sr_rx s) (sr_tx s) (sr_warned s) (sr_errno s) (sr_hw s).
Definition set_sr_config v s : serial H := Serial (sr_flag s) (sr_open_flag s) (sr_ref_count s) (sr_rx_indicate s) v (sr_rx s) (sr_tx s) (sr_warned s) (sr_errno s) (sr_hw s).
Definition set_sr_rx v s : serial H := Serial (sr_flag s) (sr_open_flag s) (sr_ref_count s) (sr_rx_indicate s) (sr_config s) v (sr_tx s) (sr_warned s) (sr_errno s) (sr_hw s).
Definition set_sr_tx v s : serial H := Serial (sr_flag s) (sr_open_flag s) (sr_ref_count s) (sr_rx_indicate s) (sr_config s) (sr_rx s) v (sr_warned s) (sr_errno s) (sr_hw s).
Definition set_sr_warned v s : serial H := Serial (sr_flag s) (sr_open_flag s) (sr_ref_count s) (sr_rx_indicate s) (sr_config s) (sr_rx s) (sr_tx s) v (sr_errno s) (sr_hw s).
Definition set_sr_errno v s : serial H := Serial (sr_flag s) (sr_open_flag s) (sr_ref_count s) (sr_rx_indicate s) (sr_config s) (sr_rx s) (sr_tx s) (sr_warned s) v (sr_hw s).
Definition set_sr_hw v s : serial H := Serial (sr_flag s) (sr_open_flag s) (sr_ref_count s) (sr_rx_indicate s) (sr_config s) (sr_rx s) (sr_tx s) (sr_warned s) (sr_errno s) v.

Definition size_of s : Z := bufsz (sr_config s).
(** A call of the UART. *)
Definition uart {A} (c : H -> A * H) : M (serial H) A := fun s => let '(a, h) := c (sr_hw s) in Some (a, set_sr_hw h s).
(** serial_rx as a FIFO. *)
Definition rx_fifo : M (serial H) rt_serial_rx_fifo := fun s => match sr_rx s with Some (RxF f) => Some (f, s) | _ => None end.
Definition put_fifo f : M (serial H) unit := modify (set_sr_rx (Some (RxF f))).

(** ** Polling *)

Fixpoint _serial_poll_rx (length : nat) : M (serial H) (list Z) :=
  match length with
  | O => mret []
  | S length =>
      ch ← uart (uo_getc ops);
      if bool_decide (ch = -1) then mret []
      else if bool_decide (ch = 10) then mret [u8 ch]
      else data ← _serial_poll_rx length; mret (u8 ch :: data)
  end.

Fixpoint poll_tx_loop (data : list Z) : M (serial H) unit :=
  match data with
  | [] => mret tt
  | c :: data =>
      open_flag ← gets sr_open_flag;
      (if bool_decide (c = 10) && has open_flag RT_DEVICE_FLAG_STREAM then _ ← uart (uo_putc ops 13); mret tt else mret tt) ;;
      _ ← uart (uo_putc ops c);
      poll_tx_loop data
  end.
Definition _serial_poll_tx (data : list Z) : M (serial H) Z := poll_tx_loop data ;; mret (Z.of_nat (length data)).

(** ** Interrupt mode *)

(** One turn of the loop of _serial_int_rx, with interrupts disabled; [None] is the break. *)
Definition int_rx_byte : M (serial H) (option Z) :=
  f ← rx_fifo;
  if bool_decide (rf_get_index f = rf_put_index f) && negb (rf_is_full f) then mret None
  else
    ch ← liftO (rf_buffer f !! Z.to_nat (rf_get_index f));
    size ← gets size_of;
    let get_index := u16 (rf_get_index f + 1) in
    let get_index := if bool_decide (get_index >= size) then 0 else get_index in
    put_fifo (RxFifo (rf_buffer f) (rf_put_index f) get_index false) ;;
    mret (Some (Z.land ch 0xff)).
Fixpoint _serial_int_rx (length : nat) : M (serial H) (list Z) :=
  match length with
  | O => mret []
  | S length =>
      r ← int_rx_byte;
      match r with
      | None => mret []
      | Some ch => data ← _serial_int_rx length; mret (ch :: data)
      end
  end.

Definition _serial_check_buffer_size : M (serial H) unit := modify (set_sr_warned true).

(** ** DMA mode *)

Definition _serial_fifo_calc_recved_len : M (serial H) Z :=
  f ← rx_fifo;
  size ← gets size_of;
  mret (if bool_decide (rf_put_index f = rf_get_index f) then if rf_is_full f then size else 0
        else if bool_decide (rf_put_index f > rf_get_index f) then rf_put_index f - rf_get_index f
        else size - (rf_get_index f - rf_put_index f)).
Definition rt_dma_calc_recved_len : M (serial H) Z := _serial_fifo_calc_recved_len.

Definition rt_dma_recv_update_get_index (len : Z) : M (serial H) unit :=
  f ← rx_fifo;
  size ← gets size_of;
  let is_full := if rf_is_full f && bool_decide (len <> 0) then false else rf_is_full f in
  let get_index := u16 (rf_get_index f + len) in
  let get_index := if bool_decide (get_index >= size) then get_index mod size else get_index in
  put_fifo (RxFifo (rf_buffer f) (rf_put_index f) get_index is_full).

Definition rt_dma_recv_update_put_index (len : Z) : M (serial H) unit :=
  f ← rx_fifo;
  size ← gets size_of;
  let put_index := u16 (rf_put_index f + len) in
  let wrapped := if bool_decide (put_index >= size) then put_index mod size else put_index in
  let '(put_index, is_full) :=
    if bool_decide (rf_get_index f <= rf_put_index f) then
      (wrapped, if bool_decide (put_index >= size) && bool_decide (wrapped >= rf_get_index f) then true else rf_is_full f)
    else if bool_decide (put_index >= rf_get_index f) then (wrapped, true)
    else (put_index, rf_is_full f) in
  if is_full : bool then
    _serial_check_buffer_size ;;
    put_fifo (RxFifo (rf_buffer f) put_index put_index is_full)
  else put_fifo (RxFifo (rf_buffer f) put_index (rf_get_index f) is_full).

(** The result and the bytes that are copied; without a FIFO the DMA is started. *)
Definition _serial_dma_rx (length : Z) : M (serial H) (Z * list Z) :=
  size ← gets size_of;
  if bool_decide (size = 0) then
    rx ← gets sr_rx;
    match rx with
    | Some (RxD activated) =>
        if activated then modify (set_sr_errno (- RT_EBUSY)) ;; mret (0, [])
        else
          modify (set_sr_rx (Some (RxD true))) ;;
          _ ← uart (fun h => (tt, uo_dma_receive ops length h));
          mret (length, [])
    | _ => ub
    end
  else
    f ← rx_fifo;
    fifo_recved_len ← rt_dma_calc_recved_len;
    let recv_len := if bool_decide (length < s32 fifo_recved_len) then u32 length else fifo_recved_len in
    data ← (if bool_decide (rf_get_index f + recv_len < size) then
              liftO (slice (rf_buffer f) (rf_get_index f) recv_len)
            else
              d1 ← liftO (slice (rf_buffer f) (rf_get_index f) (size - rf_get_index f));
              d2 ← liftO (slice (rf_buffer f) 0 (recv_len + rf_get_index f - size));
              mret (d1 ++ d2));
    rt_dma_recv_update_get_index recv_len ;;
    mret (s32 recv_len, data).

(** ** Receive interrupts *)

(** A byte in the FIFO, the oldest one goes when there is no room. *)
Definition isr_byte (ch : Z) : M (serial H) unit :=
  f ← rx_fifo;
  size ← gets size_of;
  buffer ← liftO (store_byte (rf_buffer f) (rf_put_index f) (u8 ch));
  let put_index := u16 (rf_put_index f + 1) in
  let put_index := if bool_decide (put_index >= size) then 0 else put_index in
  if bool_decide (put_index = rf_get_index f) then
    let get_index := u16 (rf_get_index f + 1) in
    let get_index := if bool_decide (get_index >= size) then 0 else get_index in
    put_fifo (RxFifo buffer put_index get_index true) ;;
    _serial_check_buffer_size
  else put_fifo (RxFifo buffer put_index (rf_get_index f) (rf_is_full f)).
(** The loop takes bytes until the UART has none; [fuel] bounds their number. *)
Fixpoint isr_loop (fuel : nat) : M (serial H) unit :=
  ch ← uart (uo_getc ops);
  if bool_decide (ch = -1) then mret tt
  else match fuel with O => ub | S fuel => isr_byte ch ;; isr_loop fuel end.

(** RT_SERIAL_EVENT_RX_IND of rt_hw_serial_isr. *)
Definition isr_rx_ind (fuel : nat) : M (serial H) (option Z) :=
  _ ← rx_fifo;
  isr_loop fuel ;;
  rx_indicate ← gets sr_rx_indicate;
  if rx_indicate : bool then
    f ← rx_fifo;
    size ← gets size_of;
    let rx_length := if bool_decide (rf_put_index f >= rf_get_index f) then rf_put_index f - rf_get_index f
                     else size - (rf_get_index f - rf_put_index f) in
    mret (if bool_decide (rx_length <> 0) then Some rx_length else None)
  else mret None.

(** RT_SERIAL_EVENT_RX_DMADONE: [length] bytes were received. *)
Definition isr_rx_dmadone (length : Z) : M (serial H) (option Z) :=
  size ← gets size_of;
  rx_indicate ← gets sr_rx_indicate;
  if bool_decide (size = 0) then
    rx ← gets sr_rx;
    match rx with
    | Some (RxD _) => if rx_indicate : bool then modify (set_sr_rx (Some (RxD false))) ;; mret (Some length) else ub
    | _ => ub
    end
  else
    rt_dma_recv_update_put_index length ;;
    length ← rt_dma_calc_recved_len;
    mret (if rx_indicate : bool then Some (s32 length) else None).

(** ** Handlers *)

Definition rt_serial_init : M (serial H) Z :=
  modify (set_sr_rx None) ;;
  modify (set_sr_tx None) ;;
  config ← gets sr_config;
  match uo_configure ops with
  | Some configure => uart (configure config)
  | None => mret RT_EOK
  end.

Definition or_open_flag (v : Z) : M (serial H) unit := modify (fun s => set_sr_open_flag (Z.lor (sr_open_flag s) v) s).
Definition clear_open_flag (v : Z) : M (serial H) unit := modify (fun s => set_sr_open_flag (Z.land (sr_open_flag s) (Z.lnot v)) s).
Definition control_ (cmd arg : Z) : M (serial H) unit := _ ← uart (uo_control ops cmd arg); mret tt.
Definition new_fifo (size : Z) : rt_serial_rx_fifo := RxFifo (replicate (Z.to_nat size) 0) 0 0 false.

(** The receive and the transmit half of rt_serial_open; rt_malloc has to succeed. *)
Definition open_rx (oflag : Z) : M (serial H) unit :=
  rx ← gets sr_rx;
  size ← gets size_of;
  match rx with
  | None =>
      if has oflag RT_DEVICE_FLAG_INT_RX then
        put_fifo (new_fifo size) ;;
        or_open_flag RT_DEVICE_FLAG_INT_RX ;;
        control_ RT_DEVICE_CTRL_SET_INT RT_DEVICE_FLAG_INT_RX
      else if has oflag RT_DEVICE_FLAG_DMA_RX then
        (if bool_decide (size = 0) then modify (set_sr_rx (Some (RxD false)))
         else
           put_fifo (new_fifo size) ;;
           control_ RT_DEVICE_CTRL_CONFIG RT_DEVICE_FLAG_DMA_RX) ;;
        or_open_flag RT_DEVICE_FLAG_DMA_RX
      else modify (set_sr_rx None)
  | Some _ =>
      if has oflag RT_DEVICE_FLAG_INT_RX then or_open_flag RT_DEVICE_FLAG_INT_RX
      else if has oflag RT_DEVICE_FLAG_DMA_RX then or_open_flag RT_DEVICE_FLAG_DMA_RX
      else mret tt
  end.
Definition open_tx (oflag : Z) : M (serial H) unit :=
  tx ← gets sr_tx;
  match tx with
  | None =>
      if has oflag RT_DEVICE_FLAG_INT_TX then
        modify (set_sr_tx (Some TxF)) ;;
        or_open_flag RT_DEVICE_FLAG_INT_TX ;;
        control_ RT_DEVICE_CTRL_SET_INT RT_DEVICE_FLAG_INT_TX
      else if has oflag RT_DEVICE_FLAG_DMA_TX then
        modify (set_sr_tx (Some (TxD false))) ;;
        or_open_flag RT_DEVICE_FLAG_DMA_TX ;;
        control_ RT_DEVICE_CTRL_CONFIG RT_DEVICE_FLAG_DMA_TX
      else modify (set_sr_tx None)
  | Some _ =>
      if has oflag RT_DEVICE_FLAG_INT_TX then or_open_flag RT_DEVICE_FLAG_INT_TX
      else if has oflag RT_DEVICE_FLAG_DMA_TX then or_open_flag RT_DEVICE_FLAG_DMA_TX
      else mret tt
  end.

Definition rt_serial_open (oflag : Z) : M (serial H) Z :=
  flag ← gets sr_flag;
  if has oflag RT_DEVICE_FLAG_DMA_RX && negb (has flag RT_DEVICE_FLAG_DMA_RX) then mret (- RT_EIO)
  else if has oflag RT_DEVICE_FLAG_DMA_TX && negb (has flag RT_DEVICE_FLAG_DMA_TX) then mret (- RT_EIO)
  else if has oflag RT_DEVICE_FLAG_INT_RX && negb (has flag RT_DEVICE_FLAG_INT_RX) then mret (- RT_EIO)
  else if has oflag RT_DEVICE_FLAG_INT_TX && negb (has flag RT_DEVICE_FLAG_INT_TX) then mret (- RT_EIO)
  else
    open_flag ← gets sr_open_flag;
    let stream_flag := if has oflag RT_DEVICE_FLAG_STREAM || has open_flag RT_DEVICE_FLAG_STREAM then RT_DEVICE_FLAG_STREAM else 0 in
    modify (set_sr_open_flag (Z.land oflag 0xff)) ;;
    open_rx oflag ;;
    open_tx oflag ;;
    or_open_flag stream_flag ;;
    mret RT_EOK.

(** rt_free of the structure is the pointer set to RT_NULL. *)
Definition close_rx : M (serial H) unit :=
  open_flag ← gets sr_open_flag;
  if has open_flag RT_DEVICE_FLAG_INT_RX then
    modify (set_sr_rx None) ;;
    clear_open_flag RT_DEVICE_FLAG_INT_RX ;;
    control_ RT_DEVICE_CTRL_CLR_INT RT_DEVICE_FLAG_INT_RX
  else if has open_flag RT_DEVICE_FLAG_DMA_RX then
    control_ RT_DEVICE_CTRL_CLR_INT RT_DEVICE_FLAG_DMA_RX ;;
    modify (set_sr_rx None) ;;
    clear_open_flag RT_DEVICE_FLAG_DMA_RX
  else mret tt.
Definition close_tx : M (serial H) unit :=
  open_flag ← gets sr_open_flag;
  if has open_flag RT_DEVICE_FLAG_INT_TX then
    modify (set_sr_tx None) ;;
    clear_open_flag RT_DEVICE_FLAG_INT_TX ;;
    control_ RT_DEVICE_CTRL_CLR_INT RT_DEVICE_FLAG_INT_TX
  else if has open_flag RT_DEVICE_FLAG_DMA_TX then
    modify (set_sr_tx None) ;;
    clear_open_flag RT_DEVICE_FLAG_DMA_TX
  else mret tt.
Definition rt_serial_close : M (serial H) Z :=
  ref_count ← gets sr_ref_count;
  if bool_decide (ref_count > 1) then mret RT_EOK
  else close_rx ;; close_tx ;; mret RT_EOK.

(** The number of bytes and the bytes. *)
Definition rt_serial_read (size : Z) : M (serial H) (Z * list Z) :=
  if bool_decide (size = 0) then mret (0, [])
  else
    open_flag ← gets sr_open_flag;
    if has open_flag RT_DEVICE_FLAG_INT_RX then
      data ← _serial_int_rx (Z.to_nat size); mret (Z.of_nat (length data), data)
    else if has open_flag RT_DEVICE_FLAG_DMA_RX then _serial_dma_rx (s32 size)
    else data ← _serial_poll_rx (Z.to_nat size); mret (Z.of_nat (length data), data).

(** [config] is what args points to for RT_DEVICE_CTRL_CONFIG. *)
Definition rt_serial_control (cmd args : Z) (config : option serial_configure) : M (serial H) Z :=
  if bool_decide (cmd = RT_DEVICE_CTRL_SUSPEND) then
    modify (fun s => set_sr_flag (Z.lor (sr_flag s) RT_DEVICE_FLAG_SUSPENDED) s) ;; mret RT_EOK
  else if bool_decide (cmd = RT_DEVICE_CTRL_RESUME) then
    modify (fun s => set_sr_flag (Z.land (sr_flag s) (Z.lnot RT_DEVICE_FLAG_SUSPENDED)) s) ;; mret RT_EOK
  else if bool_decide (cmd = RT_DEVICE_CTRL_CONFIG) then
    match config with
    | None => mret RT_EOK
    | Some pconfig =>
        size ← gets size_of;
        ref_count ← gets sr_ref_count;
        if bool_decide (bufsz pconfig <> size) && bool_decide (ref_count <> 0) then mret RT_EBUSY
        else
          modify (set_sr_config pconfig) ;;
          (if bool_decide (ref_count <> 0) then
             match uo_configure ops with
             | Some configure => _ ← uart (configure pconfig); mret tt
             | None => ub
             end
           else mret tt) ;;
          mret RT_EOK
    end
  else uart (uo_control ops cmd args).

(** ** The FIFO as a queue *)

(** The FIFO holds [q], oldest byte first, with room for [cap] bytes. *)
Record fifo_holds (size cap : Z) f (q : list Z) : Prop := {
  fh_size : 0 < size < 2 ^ 16;
  fh_buffer : Z.of_nat (length (rf_buffer f)) = size;
  fh_bytes : Forall (fun c => 0 <= c < 256) (rf_buffer f);
  fh_get : 0 <= rf_get_index f < size;
  fh_put : rf_put_index f = Z.of_nat (pos (Z.to_nat size) (Z.to_nat (rf_get_index f) + length q));
  fh_cap : Z.of_nat (length q) <= cap <= size;
  fh_queue : q = cyc (rf_buffer f) (Z.to_nat size) (Z.to_nat (rf_get_index f)) (length q);
}.
(** In interrupt mode one place stays free; in DMA mode is_full tells a full FIFO. *)
Definition int_fifo (size : Z) f (q : list Z) : Prop := fifo_holds size (size - 1) f q /\ (rf_is_full f = true -> q <> []).
Definition dma_fifo (size : Z) f (q : list Z) : Prop := fifo_holds size size f q /\ rf_is_full f = bool_decide (Z.of_nat (length q) = size).

(** The queue that forgets its oldest bytes. *)
Definition lossy (cap : Z) (q bytes : list Z) : list Z := drop (length (q ++ bytes) - Z.to_nat cap) (q ++ bytes).
Lemma lossy_app cap q a b : lossy cap (lossy cap q a) b = lossy cap q (a ++ b).
Proof.
  unfold lossy. set (c := Z.to_nat cap). rewrite !length_app, length_drop, !length_app, app_assoc.
  rewrite <- drop_app_le by (rewrite length_app; lia). rewrite drop_drop. f_equal. lia.
Qed.
Lemma lossy_nil cap q : Z.of_nat (length q) <= cap -> lossy cap q [] = q.
Proof. intros Hl. unfold lossy. rewrite app_nil_r. replace (length q - Z.to_nat cap)%nat with 0%nat by lia. done. Qed.

(** Dropping the oldest [d] bytes moves get_index. *)
Lemma fifo_drop size cap f q d get full :
  fifo_holds size cap f q -> (d <= length q)%nat -> get = Z.of_nat (pos (Z.to_nat size) (Z.to_nat (rf_get_index f) + d)) ->
  fifo_holds size cap (RxFifo (rf_buffer f) (rf_put_index f) get full) (drop d q).
Proof.
  intros [] Hd ->. split; cbn [rf_buffer rf_get_index rf_put_index]; try done; rewrite ?Nat2Z.id, ?length_drop.
  - unfold pos. case_decide; lia.
  - rewrite fh_put0. f_equal. unfold pos. repeat case_decide; lia.
  - lia.
  - rewrite fh_queue0 at 1. by rewrite cyc_drop by lia.
Qed.

(** The index behind an index. *)
Lemma next_index size i : 0 < size < 2 ^ 16 -> 0 <= i < size ->
  (if bool_decide (u16 (i + 1) >= size) then 0 else u16 (i + 1)) = Z.of_nat (pos (Z.to_nat size) (Z.to_nat i + 1)).
Proof. intros Hs Hi. rewrite wrap_id by lia. unfold pos. case_bool_decide; case_decide; lia. Qed.

Lemma cyc_store b size w c :
  (size <= length b)%nat -> (w < size)%nat -> cyc_write b (<[w := c]> b) size w [c].
Proof.
  intros Hb Hw. split; [apply length_insert|]. intros k Hk. unfold byte_at.
  destruct (decide (pos size (w + k) = w)) as [E|E].
  - assert (k = 0%nat) as -> by (unfold pos in E; case_decide; lia). rewrite E, list_lookup_insert_eq by lia. done.
  - rewrite list_lookup_insert_ne by done. rewrite decide_False; [done|]. cbn [length]. intros Hk1. apply E. unfold pos. case_decide; lia.
Qed.

Definition with_fifo f s : serial H := set_sr_rx (Some (RxF f)) s.
Lemma rx_fifo_run f s : sr_rx s = Some (RxF f) -> rx_fifo s = Some (f, s).
Proof. intros E. unfold rx_fifo. by rewrite E. Qed.

(** *** Interrupt mode *)

Lemma fifo_head size cap f c q : fifo_holds size cap f (c :: q) -> rf_buffer f !! Z.to_nat (rf_get_index f) = Some c /\ 0 <= c < 256.
Proof.
  intros [Hs Hb Hby Hg Hp Hc Hq]. assert (E : (c :: q) !! 0%nat = Some c) by done. rewrite Hq in E. cbn [length] in E. rewrite cyc_lookup in E by lia.
  rewrite Nat.add_0_r in E. replace (pos (Z.to_nat size) (Z.to_nat (rf_get_index f))) with (Z.to_nat (rf_get_index f)) in E by (unfold pos; case_decide; lia).
  rewrite <- byte_at_lookup in E by lia. split; [done|]. by apply (Forall_lookup_1 _ _ _ _ Hby E).
Qed.
Lemma int_rx_byte_ok size f q s :
  sr_rx s = Some (RxF f) -> size_of s = size -> int_fifo size f q ->
  match q with
  | [] => int_rx_byte s = Some (None, s)
  | c :: q => exists f', int_rx_byte s = Some (Some c, with_fifo f' s) /\ int_fifo size f' q
  end.
Proof.
  intros Es Hsz [Hh Hfull]. unfold int_rx_byte. rewrite (bind_run _ _ _ _ _ (rx_fifo_run _ _ Es)). pose proof Hh as [Hs Hb Hby Hg Hp Hc _]. destruct q as [|c q].
  - cbn [length] in Hp. rewrite bool_decide_true by (rewrite Hp; unfold pos; case_decide; lia).
    destruct (rf_is_full f); [by destruct (Hfull eq_refl)|done].
  - destruct (fifo_head _ _ _ _ _ Hh) as [Eb Hc8]. rewrite bool_decide_false.
    2: { rewrite Hp. cbn [length] in *. unfold pos. case_decide; lia. }
    cbn [andb]. rewrite Eb. munfold. rewrite Hsz, next_index by done. eexists. split; [|split].
    + replace (Z.land c 255) with c; [done|]. change 255 with (Z.ones 8). rewrite Z.land_ones by lia. symmetry. apply Z.mod_small. lia.
    + by apply (fifo_drop size _ f (c :: q) 1); [|cbn; lia|].
    + done.
Qed.
Lemma int_rx_ok n size f q s :
  sr_rx s = Some (RxF f) -> size_of s = size -> int_fifo size f q ->
  exists f', _serial_int_rx n s = Some (take n q, with_fifo f' s) /\ int_fifo size f' (drop n q).
Proof.
  revert f q s. induction n as [|n IH]; intros f q s Es Hsz Hf; cbn [_serial_int_rx].
  { exists f. split; [|done]. unfold with_fifo. rewrite take_0. by destruct s; cbn in *; subst. }
  pose proof (int_rx_byte_ok size f q s Es Hsz Hf) as Hb. destruct q as [|c q].
  - rewrite (bind_run _ _ _ _ _ Hb). exists f. split; [|done]. by destruct s; cbn in *; subst.
  - destruct Hb as (f1 & E1 & Hf1). rewrite (bind_run _ _ _ _ _ E1). destruct (IH f1 q (with_fifo f1 s)) as (f2 & E2 & Hf2); [done..|].
    rewrite (bind_run _ _ _ _ _ E2). by exists f2.
Qed.

Lemma isr_byte_ok size f q ch s :
  sr_rx s = Some (RxF f) -> size_of s = size -> 2 <= size -> int_fifo size f q ->
  exists f' w, isr_byte ch s = Some (tt, set_sr_warned w (with_fifo f' s)) /\ int_fifo size f' (lossy (size - 1) q [u8 ch]).
Proof.
  intros Es Hsz H2 [[Hs Hb Hby Hg Hp Hc Hq] Hfull]. unfold isr_byte. rewrite (bind_run _ _ _ _ _ (rx_fifo_run _ _ Es)). munfold. rewrite Hsz.
  set (N := Z.to_nat size) in *. set (r := Z.to_nat (rf_get_index f)) in *. set (w := pos N (r + length q)) in *.
  assert (Hw : (w < N)%nat) by (unfold w, pos; case_decide; lia).
  unfold store_byte. rewrite bool_decide_true by lia. rewrite Hp, Nat2Z.id. rewrite next_index by lia. rewrite Nat2Z.id. fold N.
  set (b' := <[w := u8 ch]> (rf_buffer f)).
  assert (Hcw : cyc_write (rf_buffer f) b' N w [u8 ch]) by (apply cyc_store; lia).
  assert (Hb' : Z.of_nat (length b') = size) by (unfold b'; by rewrite length_insert).
  pose proof (wrap_range 8 ch ltac:(lia)) as Hch.
  assert (Hby' : Forall (fun c => 0 <= c < 256) b') by (apply Forall_insert; [done|exact Hch]).
  pose proof (cyc_after_write (rf_buffer f) b' N r (length q) w [u8 ch]) as Haw. cbn [length] in Haw.
  destruct (bool_decide_reflect (Z.of_nat (pos N (w + 1)) = rf_get_index f)) as [Hov|Hov].
  - assert (Hlen : Z.of_nat (length q) = size - 1) by (unfold w, pos in Hov; repeat case_decide; lia).
    rewrite next_index by lia. fold N r. eexists _, true. split; [done|].
    assert (Elo : lossy (size - 1) q [u8 ch] = drop 1 (q ++ [u8 ch])) by (unfold lossy; f_equal; rewrite length_app; cbn [length]; lia).
    split; [|intros _; rewrite Elo; destruct q as [|? [|]]; [cbn in Hlen; lia|done..]]. rewrite Elo.
    split; cbn [rf_buffer rf_get_index rf_put_index]; rewrite ?Nat2Z.id; try done; rewrite ?length_drop, ?length_app; cbn [length].
    + unfold pos. case_decide; lia.
    + f_equal. fold N. unfold w, pos. repeat case_decide; lia.
    + lia.
    + fold N. rewrite Haw by (done || lia). by rewrite <- Hq.
  - assert (Hlen : Z.of_nat (length q) < size - 1) by (unfold w, pos in Hov; repeat case_decide; lia).
    eexists _, (sr_warned s). split; [by destruct s|].
    assert (Elo : lossy (size - 1) q [u8 ch] = q ++ [u8 ch]) by (unfold lossy; rewrite length_app; cbn [length]; by replace (length q + 1 - Z.to_nat (size - 1))%nat with 0%nat by lia).
    rewrite Elo. split; [|intros _; by destruct q].
    split; cbn [rf_buffer rf_get_index rf_put_index]; try done; rewrite ?length_app; cbn [length].
    + fold N r. f_equal. unfold w, pos. repeat case_decide; lia.
    + lia.
    + fold N r. specialize (Haw 0%nat Hcw ltac:(lia) eq_refl ltac:(lia) ltac:(lia) ltac:(lia) ltac:(lia) ltac:(lia)).
      rewrite Nat.add_0_r, Nat.sub_0_r in Haw. replace (pos N r) with r in Haw by (unfold pos; case_decide; lia).
      rewrite Haw. cbn [drop]. by rewrite <- Hq.
Qed.

(** The UART hands out [bytes], one by one, and then has none. *)
Fixpoint delivers (bytes : list Z) (h h' : H) : Prop :=
  match bytes with
  | [] => uo_getc ops h = (-1, h')
  | c :: bytes => 0 <= c < 256 /\ exists h1, uo_getc ops h = (c, h1) /\ delivers bytes h1 h'
  end.
(** What the calls on the receive path leave. *)
Definition same_setup s s' : Prop :=
  sr_flag s' = sr_flag s /\ sr_open_flag s' = sr_open_flag s /\ sr_ref_count s' = sr_ref_count s /\ sr_rx_indicate s' = sr_rx_indicate s /\
  sr_config s' = sr_config s /\ sr_tx s' = sr_tx s /\ sr_errno s' = sr_errno s.
#[local] Instance same_setup_trans : Transitive same_setup.
Proof. unfold same_setup. intros s1 s2 s3 (?&?&?&?&?&?&?) (?&?&?&?&?&?&?). split_and!; congruence. Qed.

Lemma isr_loop_ok bytes fuel h' size f q s :
  sr_rx s = Some (RxF f) -> size_of s = size -> 2 <= size -> int_fifo size f q -> delivers bytes (sr_hw s) h' -> (length bytes <= fuel)%nat ->
  exists f' s', isr_loop fuel s = Some (tt, s') /\ sr_rx s' = Some (RxF f') /\ int_fifo size f' (lossy (size - 1) q bytes) /\ same_setup s s'.
Proof.
  revert fuel f q s. induction bytes as [|c bytes IH]; intros fuel f q s Es Hsz H2 Hf Hd Hl; destruct fuel as [|fuel]; cbn [isr_loop delivers] in *; try (cbn in Hl; lia).
  1, 2: unfold uart; munfold; rewrite Hd, bool_decide_true by done; eexists f, _; split; [done|]; rewrite lossy_nil by apply Hf; by split.
  destruct Hd as (Hc & h1 & Eg & Hd). unfold uart. munfold. rewrite Eg, bool_decide_false by lia.
  destruct (isr_byte_ok size f q c (set_sr_hw h1 s) Es Hsz H2 Hf) as (f1 & w & E1 & Hf1). rewrite wrap_id in Hf1 by lia. rewrite E1.
  destruct (IH fuel f1 (lossy (size - 1) q [c]) (set_sr_warned w (with_fifo f1 (set_sr_hw h1 s)))) as (f2 & s2 & E2 & Es2 & Hf2 & Hsame); try done; [cbn in Hl; lia|].
  exists f2, s2. split; [done|]. split; [done|]. split; [by rewrite lossy_app in Hf2|done].
Qed.

Lemma isr_rx_ind_ok bytes fuel h' size f q s :
  sr_rx s = Some (RxF f) -> size_of s = size -> 2 <= size -> int_fifo size f q -> delivers bytes (sr_hw s) h' -> (length bytes <= fuel)%nat ->
  let q' := lossy (size - 1) q bytes in
  exists f' s', isr_rx_ind fuel s = Some (if sr_rx_indicate s then if bool_decide (q' = []) then None else Some (Z.of_nat (length q')) else None, s') /\
    sr_rx s' = Some (RxF f') /\ int_fifo size f' q' /\ same_setup s s'.
Proof.
  intros Es Hsz H2 Hf Hd Hl q'. destruct (isr_loop_ok bytes fuel h' size f q s Es Hsz H2 Hf Hd Hl) as (f' & s' & E & Es' & Hf' & Hsame).
  exists f', s'. split; [|done]. unfold isr_rx_ind. rewrite (bind_run _ _ _ _ _ (rx_fifo_run _ _ Es)), (bind_run _ _ _ _ _ E). munfold.
  destruct Hsame as (_ & _ & _ & Ei & Ec & _). rewrite Ei. destruct (sr_rx_indicate s); [|done]. rewrite (rx_fifo_run _ _ Es').
  do 2 f_equal. replace (size_of s') with size by (unfold size_of in *; congruence). fold q' in Hf'. destruct Hf' as [Hh _].
  pose proof Hh as [Hs Hb _ Hg Hp Hc _].
  assert (Hlen : (if bool_decide (rf_put_index f' >= rf_get_index f') then rf_put_index f' - rf_get_index f' else size - (rf_get_index f' - rf_put_index f')) = Z.of_nat (length q')).
  { rewrite Hp. unfold pos. case_bool_decide; case_decide; lia. }
  rewrite Hlen. destruct q' as [|c q']; [done|]. rewrite bool_decide_true, bool_decide_false by (done || cbn; lia). done.
Qed.

(** *** DMA mode *)

(** The DMA controller has written [bytes] from put_index on. *)
Definition dma_wrote (size : Z) (bytes : list Z) f f' : Prop :=
  cyc_write (rf_buffer f) (rf_buffer f') (Z.to_nat size) (Z.to_nat (rf_put_index f)) bytes /\ Forall (fun c => 0 <= c < 256) (rf_buffer f') /\
  rf_put_index f' = rf_put_index f /\ rf_get_index f' = rf_get_index f /\ rf_is_full f' = rf_is_full f.

Lemma dma_calc_ok size f q s :
  sr_rx s = Some (RxF f) -> size_of s = size -> dma_fifo size f q -> rt_dma_calc_recved_len s = Some (Z.of_nat (length q), s).
Proof.
  intros Es Hsz [Hh Hfull]. unfold rt_dma_calc_recved_len, _serial_fifo_calc_recved_len. rewrite (bind_run _ _ _ _ _ (rx_fifo_run _ _ Es)). munfold. rewrite Hsz.
  do 2 f_equal. pose proof Hh as [Hs Hb _ Hg Hp Hc _]. rewrite Hp, Hfull. unfold pos. repeat case_bool_decide; repeat case_decide; lia.
Qed.

Lemma mod_pos size i n : 0 < size < 2 ^ 16 -> 0 <= i < size -> 0 <= n <= size -> i + n < 2 ^ 16 ->
  (if bool_decide (u16 (i + n) >= size) then u16 (i + n) mod size else u16 (i + n)) = Z.of_nat (pos (Z.to_nat size) (Z.to_nat i + Z.to_nat n)).
Proof.
  intros Hs Hi Hn Hb. rewrite wrap_id by lia. unfold pos. case_bool_decide; case_decide; try lia.
  replace (i + n) with (i + n - size + 1 * size) by lia. rewrite Z_mod_plus_full, Z.mod_small; lia.
Qed.

Lemma dma_get_ok size f q len s :
  sr_rx s = Some (RxF f) -> size_of s = size -> size <= 2 ^ 15 -> dma_fifo size f q -> (len <= length q)%nat ->
  exists f', rt_dma_recv_update_get_index (Z.of_nat len) s = Some (tt, with_fifo f' s) /\ dma_fifo size f' (drop len q).
Proof.
  intros Es Hsz H15 [Hh Hfull] Hl. unfold rt_dma_recv_update_get_index. rewrite (bind_run _ _ _ _ _ (rx_fifo_run _ _ Es)). munfold. rewrite Hsz.
  pose proof Hh as [Hs Hb _ Hg Hp Hc _]. rewrite mod_pos by lia. rewrite Nat2Z.id. eexists. split; [done|]. split; [by apply fifo_drop|].
  cbn [rf_is_full]. rewrite length_drop, Hfull. repeat case_bool_decide; cbn [andb]; (done || lia).
Qed.

Lemma pos_lt size r n : (r < size)%nat -> (n <= size)%nat -> (pos size (r + n) < size)%nat.
Proof. intros. unfold pos. case_decide; lia. Qed.
Lemma pos_id size r : (r < size)%nat -> pos size r = r.
Proof. intros. unfold pos. by rewrite decide_True. Qed.
Lemma dma_put_ok size f f1 q bytes s :
  sr_rx s = Some (RxF f1) -> size_of s = size -> size <= 2 ^ 15 -> dma_fifo size f q -> dma_wrote size bytes f f1 -> Z.of_nat (length bytes) <= size ->
  exists f' w, rt_dma_recv_update_put_index (Z.of_nat (length bytes)) s = Some (tt, set_sr_warned w (with_fifo f' s)) /\ dma_fifo size f' (lossy size q bytes).
Proof.
  intros Es Hsz H15 [[Hs Hb Hby Hg Hp Hc Hq] Hfull] (Hcw & Hby1 & Ep & Eg & Ef) Hl. unfold rt_dma_recv_update_put_index.
  rewrite (bind_run _ _ _ _ _ (rx_fifo_run _ _ Es)). munfold. rewrite Hsz, Ep, Eg, Ef.
  set (N := Z.to_nat size) in *. set (r := Z.to_nat (rf_get_index f)) in *. set (w := pos N (r + length q)) in *.
  assert (Hw : (w < N)%nat) by (apply pos_lt; lia). rewrite Hp in *. rewrite Nat2Z.id in Hcw.
  rewrite mod_pos by lia. fold N. rewrite !Nat2Z.id. rewrite wrap_id by lia.
  rewrite Hfull.
  set (full := bool_decide (size <= Z.of_nat (length q) + Z.of_nat (length bytes))).
  match goal with |- context [let '(p, b) := ?c in _] => replace c with (Z.of_nat (pos N (w + length bytes)), full) end.
  2: { unfold full. repeat case_bool_decide; cbn [andb orb]; try done; try (f_equal; unfold w, pos in *; repeat case_decide; lia). }
  set (d := (length q + length bytes - N)%nat).
  assert (Hlen1 : Z.of_nat (length (rf_buffer f1)) = size) by (destruct Hcw as [-> _]; done).
  assert (Elo : lossy size q bytes = drop d (q ++ bytes)) by (unfold lossy, d; by rewrite length_app).
  pose proof (cyc_after_write (rf_buffer f) (rf_buffer f1) N r (length q) w bytes d Hcw) as Haw. rewrite <- Hq in Haw.
  rewrite Elo. destruct (bool_decide_reflect (size <= Z.of_nat (length q) + Z.of_nat (length bytes))) as [Hfl|Hfl]; subst full.
  - eexists _, true. split; [done|]. assert (Epos : pos N (w + length bytes) = pos N (r + d)) by (unfold w, d, pos; repeat case_decide; lia).
    split; [|cbn; rewrite length_drop, length_app; rewrite bool_decide_true; lia].
    split; cbn [rf_buffer rf_get_index rf_put_index]; rewrite ?Nat2Z.id; try done; rewrite ?length_drop, ?length_app.
    + rewrite Epos. pose proof (pos_lt N r d ltac:(lia) ltac:(lia)). lia.
    + f_equal. fold N. assert (pos N (w + length bytes) < N)%nat by (rewrite Epos; apply pos_lt; lia).
      replace (length q + length bytes - d)%nat with N by lia. unfold pos at 2. rewrite decide_False by lia. lia.
    + lia.
    + fold N. rewrite Epos. symmetry. apply Haw; lia.
  - eexists _, (sr_warned s). split; [by destruct s|]. assert (Hd0 : d = 0%nat) by lia. rewrite Hd0, drop_0 in *.
    split; [|cbn; rewrite length_app; rewrite bool_decide_false; lia].
    split; cbn [rf_buffer rf_get_index rf_put_index]; try done; rewrite ?length_app.
    + fold N r. f_equal. unfold w, pos. repeat case_decide; lia.
    + lia.
    + fold N r. rewrite Nat.add_0_r, Nat.sub_0_r in Haw. rewrite (pos_id N r) in Haw by lia.
      symmetry. apply Haw; lia.
Qed.

(** The bytes of one or two copies out of the buffer. *)
Lemma slices_cyc b (size r k : nat) :
  length b = size -> (r < size)%nat -> (k <= size)%nat ->
  take k (drop r b) ++ take (k - (size - r)) b = cyc b size r k.
Proof.
  intros Hb Hr Hk. apply list_eq. intros i. destruct (decide (i < k)%nat) as [Hi|Hi].
  2: { rewrite !lookup_ge_None_2; [done|rewrite length_cyc; lia|rewrite length_app, !length_take, length_drop; lia]. }
  rewrite cyc_lookup by done. destruct (decide (r + i < size)%nat) as [Hri|Hri].
  - rewrite lookup_app_l by (rewrite length_take, length_drop; lia). rewrite lookup_take_lt by lia. rewrite lookup_drop.
    rewrite (pos_id size (r + i)) by done. by apply byte_at_lookup; lia.
  - rewrite lookup_app_r by (rewrite length_take, length_drop; lia). rewrite length_take, length_drop.
    rewrite lookup_take_lt by lia. unfold pos. rewrite decide_False by lia. rewrite <- byte_at_lookup by lia. f_equal. lia.
Qed.
Lemma dma_rx_ok size f q n s :
  sr_rx s = Some (RxF f) -> size_of s = size -> size <= 2 ^ 15 -> dma_fifo size f q -> 0 <= n < 2 ^ 31 ->
  exists f', _serial_dma_rx n s = Some ((Z.of_nat (length (take (Z.to_nat n) q)), take (Z.to_nat n) q), with_fifo f' s) /\
    dma_fifo size f' (drop (Z.to_nat n) q).
Proof.
  intros Es Hsz H15 Hf Hn. pose proof Hf as [[Hs Hb Hby Hg Hp Hc Hq] _]. unfold _serial_dma_rx. munfold. rewrite Hsz, bool_decide_false by lia.
  rewrite (rx_fifo_run _ _ Es). rewrite (dma_calc_ok size f q s Es Hsz Hf). rewrite (swrap_id 32) by lia.
  set (k := (Z.to_nat n `min` length q)%nat).
  match goal with |- context [if bool_decide (n < _) then ?a else ?b] =>
    replace (if bool_decide (n < Z.of_nat (length q)) then a else b) with (Z.of_nat k) by (unfold k; case_bool_decide; rewrite ?wrap_id; lia) end.
  assert (Etake : take (Z.to_nat n) q = take k q) by (unfold k; destruct (decide (Z.to_nat n <= length q)%nat); [by rewrite Nat.min_l|rewrite Nat.min_r, !take_ge by lia; done]).
  assert (Edrop : drop (Z.to_nat n) q = drop k q) by (unfold k; destruct (decide (Z.to_nat n <= length q)%nat); [by rewrite Nat.min_l|rewrite Nat.min_r, !drop_ge by lia; done]).
  rewrite Etake, Edrop. destruct (dma_get_ok size f q k s Es Hsz H15 Hf) as (f' & Eg & Hf'); [lia|]. exists f'. split; [|done].
  set (r := Z.to_nat (rf_get_index f)) in *. set (N := Z.to_nat size) in *.
  assert (Ecyc : take k (drop r (rf_buffer f)) ++ take (k - (N - r)) (rf_buffer f) = take k q).
  { rewrite slices_cyc by lia. transitivity (take k (cyc (rf_buffer f) N r (length q))); [apply cyc_take; lia|by rewrite <- Hq]. }
  rewrite length_take. replace (k `min` length q)%nat with k by lia.
  destruct (bool_decide_reflect (rf_get_index f + Z.of_nat k < size)) as [Hk|Hk].
  - rewrite slice_Some by lia. rewrite Eg, (swrap_id 32), Nat2Z.id by lia. fold r. rewrite <- Ecyc.
    replace (k - (N - r))%nat with 0%nat by lia. by rewrite take_0, app_nil_r.
  - rewrite !slice_Some by lia. rewrite Eg, (swrap_id 32) by lia. fold r. change (Z.to_nat 0) with 0%nat. rewrite drop_0, <- Ecyc.
    replace (Z.to_nat (Z.of_nat k + rf_get_index f - size)) with (k - (N - r))%nat by lia. do 4 f_equal.
    rewrite !take_ge by (rewrite length_drop; lia). done.
Qed.

(** The DMA controller stores bytes one after another, round the buffer. *)
Fixpoint dma_bytes (size w : nat) (bytes b : list Z) : list Z :=
  match bytes with
  | [] => b
  | c :: bytes => dma_bytes size (pos size (w + 1)) bytes (<[w := c]> b)
  end.
Definition dma_store (size : Z) (bytes : list Z) f : rt_serial_rx_fifo :=
  RxFifo (dma_bytes (Z.to_nat size) (Z.to_nat (rf_put_index f)) bytes (rf_buffer f)) (rf_put_index f) (rf_get_index f) (rf_is_full f).

Lemma dma_bytes_ok size w bytes b :
  length b = size -> (w < size)%nat -> (length bytes <= size)%nat -> cyc_write b (dma_bytes size w bytes b) size w bytes.
Proof.
  revert w b. induction bytes as [|c bytes IH]; intros w b Hb Hw Hl; cbn [dma_bytes length] in *.
  { split; [done|]. intros k Hk. by rewrite (decide_False (P := (k < 0)%nat)) by lia. }
  destruct (IH (pos size (w + 1)) (<[w := c]> b)) as [Hlen Hc]; [by rewrite length_insert|apply pos_lt; lia|lia|].
  split; [by rewrite Hlen, length_insert|]. intros k Hk. destruct k as [|k].
  - specialize (Hc (size - 1)%nat ltac:(lia)). rewrite (decide_False (P := (size - 1 < length bytes)%nat)) in Hc by lia.
    replace (pos size (pos size (w + 1) + (size - 1))) with w in Hc by (unfold pos; repeat case_decide; lia).
    rewrite Nat.add_0_r, (pos_id size w) by done. rewrite Hc. cbn. unfold byte_at. by rewrite list_lookup_insert_eq by lia.
  - specialize (Hc k ltac:(lia)). replace (pos size (pos size (w + 1) + k)) with (pos size (w + S k)) in Hc by (unfold pos; repeat case_decide; lia).
    rewrite Hc. destruct (decide (k < length bytes)%nat);
      [by rewrite (decide_True (P := (S k < S (length bytes))%nat)) by lia|]. rewrite (decide_False (P := (S k < S (length bytes))%nat)) by lia.
    unfold byte_at. rewrite list_lookup_insert_ne; [done|]. unfold pos. case_decide; lia.
Qed.
Lemma dma_bytes_range size w bytes b :
  Forall (fun c => 0 <= c < 256) bytes -> Forall (fun c => 0 <= c < 256) b -> Forall (fun c => 0 <= c < 256) (dma_bytes size w bytes b).
Proof. intros Hb. revert w b. induction Hb as [|c bytes Hc Hb IH]; intros w b Hf; cbn; [done|]. apply IH. by apply Forall_insert. Qed.
Lemma dma_store_ok size cap f q bytes :
  fifo_holds size cap f q -> Z.of_nat (length bytes) <= size -> Forall (fun c => 0 <= c < 256) bytes -> dma_wrote size bytes f (dma_store size bytes f).
Proof.
  intros [Hs Hb Hby Hg Hp Hc Hq] Hl Hr. split_and!; try done; cbn.
  - apply dma_bytes_ok; [lia| |lia]. rewrite Hp, Nat2Z.id. apply pos_lt; lia.
  - by apply dma_bytes_range.
Qed.

(** ** Arrivals and reads in any order *)

Inductive rx_event := Arrive (bytes : list Z) | Fetch (n : Z).
(** [feed] puts bytes into the UART. *)
Context (feed : list Z -> H -> H).
Class UartSpec : Prop := feeds bytes h : Forall (fun c => 0 <= c < 256) bytes -> exists h', delivers bytes (feed bytes h) h'.

(** Bytes come with an interrupt, or by DMA with an interrupt at the end; a reader calls
    rt_serial_read. *)
Definition int_arrive (bytes : list Z) : M (serial H) unit :=
  modify (fun s => set_sr_hw (feed bytes (sr_hw s)) s) ;; _ ← isr_rx_ind (length bytes); mret tt.
Definition dma_arrive (bytes : list Z) : M (serial H) unit :=
  f ← rx_fifo; size ← gets size_of;
  put_fifo (dma_store size bytes f) ;; _ ← isr_rx_dmadone (Z.of_nat (length bytes)); mret tt.
Fixpoint rx_run (arrive : list Z -> M (serial H) unit) (evs : list rx_event) : M (serial H) (list (list Z)) :=
  match evs with
  | [] => mret []
  | Arrive bytes :: evs => arrive bytes ;; rx_run arrive evs
  | Fetch n :: evs => '(_, data) ← rt_serial_read n; outs ← rx_run arrive evs; mret (data :: outs)
  end.
(** The same on a queue that forgets its oldest bytes. *)
Fixpoint lossy_run (cap : Z) (q : list Z) (evs : list rx_event) : list (list Z) * list Z :=
  match evs with
  | [] => ([], q)
  | Arrive bytes :: evs => lossy_run cap (lossy cap q bytes) evs
  | Fetch n :: evs => let '(outs, q') := lossy_run cap (drop (Z.to_nat n) q) evs in (take (Z.to_nat n) q :: outs, q')
  end.
Definition event_ok (size : Z) (e : rx_event) : Prop :=
  match e with
  | Arrive bytes => Forall (fun c => 0 <= c < 256) bytes /\ Z.of_nat (length bytes) <= size
  | Fetch n => 0 < n < 2 ^ 31
  end.
Fixpoint arrived (evs : list rx_event) : list Z :=
  match evs with [] => [] | Arrive bytes :: evs => bytes ++ arrived evs | Fetch _ :: evs => arrived evs end.
(** The reader keeps up: the bytes never exceed the room, starting with [n]. *)
Fixpoint keeps_up (cap n : Z) (evs : list rx_event) : Prop :=
  match evs with
  | [] => True
  | Arrive bytes :: evs => n + Z.of_nat (length bytes) <= cap /\ keeps_up cap (n + Z.of_nat (length bytes)) evs
  | Fetch m :: evs => keeps_up cap (Z.max 0 (n - m)) evs
  end.
Lemma lossless cap size q evs :
  Forall (event_ok size) evs -> keeps_up cap (Z.of_nat (length q)) evs ->
  concat (fst (lossy_run cap q evs)) ++ snd (lossy_run cap q evs) = q ++ arrived evs.
Proof.
  intros Hev. revert q. induction Hev as [|[bytes|n] evs He Hev IH]; intros q Hk; cbn in *; [by rewrite app_nil_r| |].
  - destruct Hk as [Hc Hk]. assert (El : lossy cap q bytes = q ++ bytes).
    { unfold lossy. rewrite length_app. by replace (length q + length bytes - Z.to_nat cap)%nat with 0%nat by lia. }
    rewrite El, IH; [by rewrite app_assoc|]. by rewrite length_app, Nat2Z.inj_add.
  - specialize (IH (drop (Z.to_nat n) q)). destruct (lossy_run cap (drop (Z.to_nat n) q) evs) as [outs q']. cbn in *.
    rewrite <- app_assoc, IH; [by rewrite app_assoc, take_drop|]. rewrite length_drop. replace (Z.of_nat (length q - Z.to_nat n)) with (Z.max 0 (Z.of_nat (length q) - n)) by lia. done.
Qed.

(** A mode: its flag in the open flag, its room, and what holds of the FIFO. *)
Lemma rx_run_ok (good : rt_serial_rx_fifo -> list Z -> Prop) (setup : serial H -> Prop) size cap arrive evs f q s :
  (forall s s', setup s -> same_setup s s' -> setup s') ->
  (forall bytes f q s, setup s -> sr_rx s = Some (RxF f) -> good f q -> event_ok size (Arrive bytes) ->
     exists f' s', arrive bytes s = Some (tt, s') /\ sr_rx s' = Some (RxF f') /\ good f' (lossy cap q bytes) /\ same_setup s s') ->
  (forall n f q s, setup s -> sr_rx s = Some (RxF f) -> good f q -> event_ok size (Fetch n) ->
     exists f', rt_serial_read n s = Some ((Z.of_nat (length (take (Z.to_nat n) q)), take (Z.to_nat n) q), with_fifo f' s) /\ good f' (drop (Z.to_nat n) q)) ->
  setup s -> sr_rx s = Some (RxF f) -> good f q -> Forall (event_ok size) evs ->
  exists f' s', rx_run arrive evs s = Some (fst (lossy_run cap q evs), s') /\ sr_rx s' = Some (RxF f') /\ good f' (snd (lossy_run cap q evs)) /\ setup s'.
Proof.
  intros Hset Harr Hfetch Hs Es Hg Hev. revert f q s Hs Es Hg. induction Hev as [|[bytes|n] evs He Hev IH]; intros f q s Hs Es Hg; cbn [rx_run lossy_run].
  - by exists f, s.
  - destruct (Harr bytes f q s Hs Es Hg He) as (f1 & s1 & E1 & Es1 & Hg1 & Hsame). rewrite (bind_run _ _ _ _ _ E1).
    destruct (IH f1 (lossy cap q bytes) s1) as (f2 & s2 & E2 & ?); eauto.
  - destruct (Hfetch n f q s Hs Es Hg He) as (f1 & E1 & Hg1). rewrite (bind_run _ _ _ _ _ E1).
    destruct (IH f1 (drop (Z.to_nat n) q) (with_fifo f1 s)) as (f2 & s2 & E2 & Es2 & Hg2 & Hs2); [by apply (Hset s)|done|done|].
    rewrite (bind_run _ _ _ _ _ E2). exists f2, s2. by destruct (lossy_run cap (drop (Z.to_nat n) q) evs).
Qed.

Definition int_setup (size : Z) s : Prop := size_of s = size /\ has (sr_open_flag s) RT_DEVICE_FLAG_INT_RX = true.
Definition dma_setup (size : Z) s : Prop :=
  size_of s = size /\ has (sr_open_flag s) RT_DEVICE_FLAG_INT_RX = false /\ has (sr_open_flag s) RT_DEVICE_FLAG_DMA_RX = true.

Lemma int_arrive_ok {HF : UartSpec} size bytes f q s :
  2 <= size -> int_setup size s -> sr_rx s = Some (RxF f) -> int_fifo size f q -> event_ok size (Arrive bytes) ->
  exists f' s', int_arrive bytes s = Some (tt, s') /\ sr_rx s' = Some (RxF f') /\ int_fifo size f' (lossy (size - 1) q bytes) /\ same_setup s s'.
Proof.
  intros H2 [Hsz _] Es Hf [Hb _]. unfold int_arrive. set (s1 := set_sr_hw (feed bytes (sr_hw s)) s). destruct (feeds bytes (sr_hw s) Hb) as [h' Hd].
  destruct (isr_rx_ind_ok bytes (length bytes) h' size f q s1) as (f' & s' & E & Es' & Hf' & Hsame); try done.
  exists f', s'. munfold. fold s1. by rewrite E.
Qed.
Lemma int_fetch_ok size n f q s :
  int_setup size s -> sr_rx s = Some (RxF f) -> int_fifo size f q -> event_ok size (Fetch n) ->
  exists f', rt_serial_read n s = Some ((Z.of_nat (length (take (Z.to_nat n) q)), take (Z.to_nat n) q), with_fifo f' s) /\ int_fifo size f' (drop (Z.to_nat n) q).
Proof.
  intros [Hsz Ho] Es Hf Hn. cbn in Hn. destruct (int_rx_ok (Z.to_nat n) size f q s Es Hsz Hf) as (f' & E & Hf'). exists f'. split; [|done].
  unfold rt_serial_read. rewrite bool_decide_false by lia. munfold. rewrite Ho, E. done.
Qed.
Lemma dma_arrive_ok size bytes f q s :
  size <= 2 ^ 15 -> dma_setup size s -> sr_rx s = Some (RxF f) -> dma_fifo size f q -> event_ok size (Arrive bytes) ->
  exists f' s', dma_arrive bytes s = Some (tt, s') /\ sr_rx s' = Some (RxF f') /\ dma_fifo size f' (lossy size q bytes) /\ same_setup s s'.
Proof.
  intros H15 [Hsz _] Es Hf [Hb Hl]. unfold dma_arrive. rewrite (bind_run _ _ _ _ _ (rx_fifo_run _ _ Es)). munfold. rewrite Hsz.
  destruct (dma_put_ok size f (dma_store size bytes f) q bytes (with_fifo (dma_store size bytes f) s)) as (f' & w & E & Hf'); try done.
  { destruct Hf. by apply (dma_store_ok size size f q). }
  set (s1 := set_sr_warned w (with_fifo f' (with_fifo (dma_store size bytes f) s))) in *.
  exists f', s1. split; [|by split]. unfold put_fifo. munfold. fold (with_fifo (dma_store size bytes f) s). unfold isr_rx_dmadone. munfold.
  replace (size_of (with_fifo (dma_store size bytes f) s)) with size by (by rewrite <- Hsz).
  rewrite bool_decide_false by (destruct Hf as [[] _]; lia). rewrite E.
  by rewrite (dma_calc_ok size f' (lossy size q bytes) s1) by done.
Qed.
Lemma dma_fetch_ok size n f q s :
  size <= 2 ^ 15 -> dma_setup size s -> sr_rx s = Some (RxF f) -> dma_fifo size f q -> event_ok size (Fetch n) ->
  exists f', rt_serial_read n s = Some ((Z.of_nat (length (take (Z.to_nat n) q)), take (Z.to_nat n) q), with_fifo f' s) /\ dma_fifo size f' (drop (Z.to_nat n) q).
Proof.
  intros H15 (Hsz & Hi & Ho) Es Hf Hn. cbn in Hn. destruct (dma_rx_ok size f q n s Es Hsz H15 Hf) as (f' & E & Hf'); [lia|]. exists f'. split; [|done].
  unfold rt_serial_read. rewrite bool_decide_false by lia. munfold. rewrite Hi, Ho, (swrap_id 32) by lia. done.
Qed.

(** ** Opening and closing *)

(** The structures are those of the modes in the open flag. *)
Definition rx_mode (flags : Z) : bool := has flags RT_DEVICE_FLAG_INT_RX || has flags RT_DEVICE_FLAG_DMA_RX.
Definition tx_mode (flags : Z) : bool := has flags RT_DEVICE_FLAG_INT_TX || has flags RT_DEVICE_FLAG_DMA_TX.
Record consistent s : Prop := {
  co_rx : is_Some (sr_rx s) <-> rx_mode (sr_open_flag s) = true;
  co_tx : is_Some (sr_tx s) <-> tx_mode (sr_open_flag s) = true;
}.
(** The device supports the modes of an open flag. *)
Definition supported (flag oflag : Z) : bool :=
  (negb (has oflag RT_DEVICE_FLAG_DMA_RX) || has flag RT_DEVICE_FLAG_DMA_RX) && (negb (has oflag RT_DEVICE_FLAG_DMA_TX) || has flag RT_DEVICE_FLAG_DMA_TX) &&
  (negb (has oflag RT_DEVICE_FLAG_INT_RX) || has flag RT_DEVICE_FLAG_INT_RX) && (negb (has oflag RT_DEVICE_FLAG_INT_TX) || has flag RT_DEVICE_FLAG_INT_TX).

Lemma has_low oflag (g : Z) : has g 0xff = false -> has (Z.land oflag 0xff) g = false.
Proof using.
  unfold has. rewrite !bool_decide_eq_false. intros Hf Hn. apply Hf. intros E. apply Hn. by rewrite <- Z.land_assoc, (Z.land_comm 255), E, Z.land_0_r.
Qed.
Lemma has_clear v (c g : Z) : Z.land (Z.lnot c) g = g -> has (Z.land v (Z.lnot c)) g = has v g.
Proof using. intros E. unfold has. by rewrite <- Z.land_assoc, E. Qed.

(** The open flag of a half after an open. *)
Definition rx_flag (oflag : Z) : Z :=
  if has oflag RT_DEVICE_FLAG_INT_RX then RT_DEVICE_FLAG_INT_RX else if has oflag RT_DEVICE_FLAG_DMA_RX then RT_DEVICE_FLAG_DMA_RX else 0.
Definition tx_flag (oflag : Z) : Z :=
  if has oflag RT_DEVICE_FLAG_INT_TX then RT_DEVICE_FLAG_INT_TX else if has oflag RT_DEVICE_FLAG_DMA_TX then RT_DEVICE_FLAG_DMA_TX else 0.

(** serial_tx after an open. *)
Definition opened_tx (oflag : Z) (tx : option tx_struct) : option tx_struct :=
  match tx with
  | Some _ => tx
  | None => if has oflag RT_DEVICE_FLAG_INT_TX then Some TxF else if has oflag RT_DEVICE_FLAG_DMA_TX then Some (TxD false) else None
  end.
Lemma opened_tx_some oflag tx : is_Some (opened_tx oflag tx) <-> is_Some tx \/ tx_mode oflag = true.
Proof using.
  unfold opened_tx, tx_mode. destruct tx as [tx|]; [split; [by left|by eexists]|].
  destruct (has oflag RT_DEVICE_FLAG_INT_TX), (has oflag RT_DEVICE_FLAG_DMA_TX); cbn; (split; [intros [? ?]; by right|intros [[? ?]|?]; (done || by eexists)]).
Qed.

Lemma open_rx_ok oflag s :
  exists s', open_rx oflag s = Some (tt, s') /\ sr_open_flag s' = Z.lor (sr_open_flag s) (rx_flag oflag) /\ sr_flag s' = sr_flag s /\
    sr_ref_count s' = sr_ref_count s /\ sr_config s' = sr_config s /\ sr_tx s' = sr_tx s /\ (is_Some (sr_rx s') <-> is_Some (sr_rx s) \/ rx_mode oflag = true).
Proof using.
  unfold open_rx, control_, put_fifo, or_open_flag, rx_flag, rx_mode, uart. munfold. destruct (sr_rx s) as [rx|] eqn:Er.
  - destruct (has oflag RT_DEVICE_FLAG_INT_RX), (has oflag RT_DEVICE_FLAG_DMA_RX); (eexists; split; [done|]; cbn; rewrite ?Z.lor_0_r, ?Er; split_and!; try done; naive_solver).
  - destruct (has oflag RT_DEVICE_FLAG_INT_RX), (has oflag RT_DEVICE_FLAG_DMA_RX); cbn; try case_bool_decide;
      repeat match goal with |- context [uo_control ops ?a ?b ?h] => destruct (uo_control ops a b h) as [? ?] end;
      (eexists; split; [done|]; cbn; rewrite ?Z.lor_0_r; split_and!; try done; try (by split; [right|]); (split; [by intros [? ?]|intros [[? ?]|?]; done])).
Qed.
Lemma open_tx_ok oflag s :
  exists s', open_tx oflag s = Some (tt, s') /\ sr_open_flag s' = Z.lor (sr_open_flag s) (tx_flag oflag) /\ sr_flag s' = sr_flag s /\
    sr_ref_count s' = sr_ref_count s /\ sr_config s' = sr_config s /\ sr_rx s' = sr_rx s /\ sr_tx s' = opened_tx oflag (sr_tx s).
Proof using.
  unfold open_tx, control_, or_open_flag, tx_flag, opened_tx, uart. munfold. destruct (sr_tx s) as [tx|] eqn:Er.
  - destruct (has oflag RT_DEVICE_FLAG_INT_TX), (has oflag RT_DEVICE_FLAG_DMA_TX); (eexists; split; [done|]; cbn; rewrite ?Z.lor_0_r, ?Er; split_and!; done).
  - destruct (has oflag RT_DEVICE_FLAG_INT_TX), (has oflag RT_DEVICE_FLAG_DMA_TX); cbn;
      repeat match goal with |- context [uo_control ops ?a ?b ?h] => destruct (uo_control ops a b h) as [? ?] end;
      (eexists; split; [done|]; cbn; rewrite ?Z.lor_0_r; split_and!; done).
Qed.

(** The modes in the open flag after an open are those it asked for. *)
Lemma modes_after oflag stream : stream = 0 \/ stream = RT_DEVICE_FLAG_STREAM ->
  let v := Z.lor (Z.lor (Z.lor (Z.land oflag 0xff) (rx_flag oflag)) (tx_flag oflag)) stream in
  rx_mode v = rx_mode oflag /\ tx_mode v = tx_mode oflag.
Proof using.
  intros Hs v. unfold v, rx_mode, tx_mode. rewrite !has_lor. rewrite !has_low by done.
  unfold rx_flag, tx_flag. destruct (has oflag RT_DEVICE_FLAG_INT_RX), (has oflag RT_DEVICE_FLAG_DMA_RX), (has oflag RT_DEVICE_FLAG_INT_TX), (has oflag RT_DEVICE_FLAG_DMA_TX);
    destruct Hs as [-> | ->]; done.
Qed.

Lemma guards {A} (a b c d e g i j : bool) (x y : A) :
  (if a && negb b then x else if c && negb d then x else if e && negb g then x else if i && negb j then x else y) =
  if (negb a || b) && (negb c || d) && (negb e || g) && (negb i || j) then y else x.
Proof using. destruct a, b; try done; destruct c, d; try done; destruct e, g; try done; by destruct i, j. Qed.

Lemma serial_open_ok oflag s :
  exists s', sr_flag s' = sr_flag s /\ sr_ref_count s' = sr_ref_count s /\ sr_config s' = sr_config s /\
    if supported (sr_flag s) oflag then
      rt_serial_open oflag s = Some (RT_EOK, s') /\ rx_mode (sr_open_flag s') = rx_mode oflag /\ tx_mode (sr_open_flag s') = tx_mode oflag /\
      (is_Some (sr_rx s') <-> is_Some (sr_rx s) \/ rx_mode oflag = true) /\ sr_tx s' = opened_tx oflag (sr_tx s)
    else rt_serial_open oflag s = Some (- RT_EIO, s') /\ s' = s.
Proof using.
  unfold rt_serial_open. rewrite (bind_run (gets sr_flag) _ s (sr_flag s) s) by done. rewrite guards. fold (supported (sr_flag s) oflag).
  destruct (supported (sr_flag s) oflag); [|by exists s]. rewrite (bind_run (gets sr_open_flag) _ s (sr_open_flag s) s) by done. cbv zeta.
  set (stream := if _ || _ then RT_DEVICE_FLAG_STREAM else 0).
  assert (Hst : stream = 0 \/ stream = RT_DEVICE_FLAG_STREAM) by (unfold stream; destruct (_ || _); auto).
  rewrite (bind_run (modify _) _ s tt (set_sr_open_flag (Z.land oflag 0xff) s)) by done.
  destruct (open_rx_ok oflag (set_sr_open_flag (Z.land oflag 0xff) s)) as (s1 & E1 & Ho1 & Hf1 & Hr1 & Hc1 & Ht1 & Hx1). rewrite (bind_run _ _ _ _ _ E1).
  destruct (open_tx_ok oflag s1) as (s2 & E2 & Ho2 & Hf2 & Hr2 & Hc2 & Ht2 & Hx2). rewrite (bind_run _ _ _ _ _ E2).
  rewrite (bind_run (or_open_flag stream) _ s2 tt (set_sr_open_flag (Z.lor (sr_open_flag s2) stream) s2)) by done.
  eexists. cbn [sr_flag sr_ref_count sr_config sr_open_flag sr_rx sr_tx set_sr_open_flag] in *.
  destruct (modes_after oflag stream Hst) as [Hm1 Hm2].
  split; [|split; [|split; [|split; [done|]]]]; cbn; try congruence. rewrite Ho2, Ho1, Ht2. split_and!; try done. by rewrite Hx2, Ht1.
Qed.

Lemma close_rx_ok s :
  exists s', close_rx s = Some (tt, s') /\ sr_tx s' = sr_tx s /\ tx_mode (sr_open_flag s') = tx_mode (sr_open_flag s) /\
    sr_rx s' = if rx_mode (sr_open_flag s) then None else sr_rx s.
Proof using.
  unfold close_rx, control_, clear_open_flag, rx_mode, tx_mode, uart. munfold.
  destruct (has (sr_open_flag s) RT_DEVICE_FLAG_INT_RX); [|destruct (has (sr_open_flag s) RT_DEVICE_FLAG_DMA_RX); [|by exists s]]; cbn;
    match goal with |- context [uo_control ops ?a ?b ?h] => destruct (uo_control ops a b h) as [? ?] end;
    (eexists; split; [done|]; cbn; rewrite !has_clear by done; done).
Qed.
Lemma close_tx_ok s :
  exists s', close_tx s = Some (tt, s') /\ sr_rx s' = sr_rx s /\ sr_tx s' = if tx_mode (sr_open_flag s) then None else sr_tx s.
Proof using.
  unfold close_tx, control_, clear_open_flag, tx_mode, uart. munfold.
  destruct (has (sr_open_flag s) RT_DEVICE_FLAG_INT_TX); [|destruct (has (sr_open_flag s) RT_DEVICE_FLAG_DMA_TX); [eexists; split; [done|done]|by exists s]].
  cbn. destruct (uo_control ops _ _ _) as [? ?]. eexists. split; [done|done].
Qed.
Lemma serial_close_ok s :
  consistent s -> sr_ref_count s <= 1 -> exists s', rt_serial_close s = Some (RT_EOK, s') /\ sr_rx s' = None /\ sr_tx s' = None.
Proof using.
  intros [Hrx Htx] Href. unfold rt_serial_close. munfold. rewrite bool_decide_false by lia.
  destruct (close_rx_ok s) as (s1 & E1 & Ht1 & Hm1 & Hr1). rewrite E1. destruct (close_tx_ok s1) as (s2 & E2 & Hr2 & Ht2). rewrite E2.
  exists s2. split; [done|]. rewrite Hr2, Hr1, Ht2, Ht1, Hm1. split.
  - destruct (rx_mode (sr_open_flag s)); [done|]. destruct (sr_rx s); [|done]. naive_solver.
  - destruct (tx_mode (sr_open_flag s)); [done|]. destruct (sr_tx s); [|done]. naive_solver.
Qed.

(** Opens one after another. *)
Fixpoint opens (oflags : list Z) : M (serial H) unit :=
  match oflags with [] => mret tt | oflag :: oflags => _ ← rt_serial_open oflag; opens oflags end.
(** The device was opened with these receive and transmit modes. *)
Definition in_modes (rx tx : bool) s : Prop :=
  (is_Some (sr_rx s) <-> rx = true) /\ (is_Some (sr_tx s) <-> tx = true) /\ rx_mode (sr_open_flag s) = rx /\ tx_mode (sr_open_flag s) = tx.
Lemma opens_ok rx tx oflags s :
  Forall (fun o => supported (sr_flag s) o = true /\ rx_mode o = rx /\ tx_mode o = tx) oflags -> in_modes rx tx s ->
  exists s', opens oflags s = Some (tt, s') /\ in_modes rx tx s' /\ sr_ref_count s' = sr_ref_count s.
Proof using.
  revert s. induction oflags as [|o oflags IH]; intros s Hf Hi; cbn [opens]; [by exists s|]. apply Forall_cons in Hf as [(Hsu & Hr & Ht) Hf].
  destruct (serial_open_ok o s) as (s1 & Hf1 & Hr1 & _ & Ho). rewrite Hsu in Ho. destruct Ho as (E & Hm1 & Hm2 & Hx1 & Hx2'). pose proof (opened_tx_some o (sr_tx s)) as Hx2. rewrite <- Hx2' in Hx2.
  rewrite (bind_run _ _ _ _ _ E). destruct (IH s1) as (s2 & E2 & Hi2 & Href); [by rewrite Hf1| |exists s2; split_and!; [done|done|by rewrite Href]].
  destruct Hi as (Hi1 & Hi2 & _). split; [|split; [|split; [by rewrite Hm1|by rewrite Hm2]]]; [rewrite Hx1, Hi1, Hr|rewrite Hx2, Hi2, Ht]; (split; [by intros [?|?]|by left]).
Qed.

(** ** Properties *)

(** C13: in interrupt mode the receive FIFO is a queue of bufsz - 1 bytes that forgets its
    oldest ones: for every interleaving of receive interrupts and reads, the reads return the
    bytes in the order in which they came, each at most once, and none is missing as long as
    the reader keeps up.  No index leaves the buffer. *)
Theorem serial_int_refines {HF : UartSpec} evs size f q s :
  2 <= size -> int_setup size s -> sr_rx s = Some (RxF f) -> int_fifo size f q -> Forall (event_ok size) evs ->
  exists f' s' outs q', lossy_run (size - 1) q evs = (outs, q') /\ rx_run int_arrive evs s = Some (outs, s') /\
    sr_rx s' = Some (RxF f') /\ int_fifo size f' q' /\
    (keeps_up (size - 1) (Z.of_nat (length q)) evs -> concat outs ++ q' = q ++ arrived evs).
Proof.
  intros H2 Hset Es Hf Hev.
  destruct (rx_run_ok (int_fifo size) (int_setup size) size (size - 1) int_arrive evs f q s) as (f' & s' & E & Es' & Hf' & _); try done.
  - intros s1 s2 [Hs Ho] (_ & Eo & _ & _ & Ec & _). split; unfold size_of in *; congruence.
  - intros. by eapply int_arrive_ok.
  - intros. by eapply int_fetch_ok.
  - pose proof (lossless (size - 1) size q evs Hev) as Hl. destruct (lossy_run (size - 1) q evs) as [outs q']. by exists f', s', outs, q'.
Qed.

(** C14: in DMA mode the receive FIFO is a queue of bufsz bytes that forgets its oldest ones:
    for every interleaving of DMA transfers of at most bufsz bytes with reads, the reads
    return the bytes in the order in which they came, each at most once, and none is missing
    as long as the reader keeps up. *)
Theorem serial_dma_refines evs size f q s :
  size <= 2 ^ 15 -> dma_setup size s -> sr_rx s = Some (RxF f) -> dma_fifo size f q -> Forall (event_ok size) evs ->
  exists f' s' outs q', lossy_run size q evs = (outs, q') /\ rx_run dma_arrive evs s = Some (outs, s') /\
    sr_rx s' = Some (RxF f') /\ dma_fifo size f' q' /\
    (keeps_up size (Z.of_nat (length q)) evs -> concat outs ++ q' = q ++ arrived evs).
Proof.
  intros H15 Hset Es Hf Hev.
  destruct (rx_run_ok (dma_fifo size) (dma_setup size) size size dma_arrive evs f q s) as (f' & s' & E & Es' & Hf' & _); try done.
  - intros s1 s2 (Hs & Hi & Ho) (_ & Eo & _ & _ & Ec & _). split_and!; unfold size_of in *; congruence.
  - intros. by eapply dma_arrive_ok.
  - intros. by eapply dma_fetch_ok.
  - pose proof (lossless size size q evs Hev) as Hl. destruct (lossy_run size q evs) as [outs q']. by exists f', s', outs, q'.
Qed.

(** A serial device gives back what it allocated: after any number of opens that agree on
    whether they use a receive and a transmit structure, the last close frees both, and an
    open with a mode the device does not have is refused with -RT_EIO and changes nothing. *)
Theorem serial_close_releases oflags rx tx s :
  sr_rx s = None -> sr_tx s = None -> oflags <> [] -> sr_ref_count s <= 1 ->
  Forall (fun o => supported (sr_flag s) o = true /\ rx_mode o = rx /\ tx_mode o = tx) oflags ->
  (exists s1 s2, opens oflags s = Some (tt, s1) /\ in_modes rx tx s1 /\ rt_serial_close s1 = Some (RT_EOK, s2) /\ sr_rx s2 = None /\ sr_tx s2 = None) /\
  (forall o, supported (sr_flag s) o = false -> rt_serial_open o s = Some (- RT_EIO, s)).
Proof using.
  intros Er Et Hne Href Hf. split.
  - destruct oflags as [|o oflags]; [done|]. apply Forall_cons in Hf as [(Hsu & Hr & Ht) Hf]. cbn [opens].
    destruct (serial_open_ok o s) as (s1 & Hf1 & Hr1 & _ & Ho). rewrite Hsu in Ho. destruct Ho as (E & Hm1 & Hm2 & Hx1 & Hx2'). pose proof (opened_tx_some o (sr_tx s)) as Hx2. rewrite <- Hx2' in Hx2. rewrite Er in Hx1. rewrite Et in Hx2.
    rewrite (bind_run _ _ _ _ _ E). destruct (opens_ok rx tx oflags s1) as (s2 & E2 & Hi2 & Href2); [by rewrite Hf1| |].
    { split; [|split; [|split; [by rewrite Hm1|by rewrite Hm2]]]; [rewrite Hx1, Hr|rewrite Hx2, Ht]; (split; [by intros [[? ?]|?]|by right]). }
    exists s2. destruct (serial_close_ok s2) as (s3 & E3 & ?); [|lia|by exists s3]. destruct Hi2 as (Ha & Hb & Hc & Hd). split; [by rewrite Hc|by rewrite Hd].
  - intros o Ho. destruct (serial_open_ok o s) as (s1 & _ & _ & _ & H1). rewrite Ho in H1. destruct H1 as [E ->]. done.
Qed.
End Serial.
