(* ===== verification/SerialTx.v ===== *)
(** * Transmission of serial devices (rt-thread/components/drivers/serial/serial.c)

    Interrupt transmission waits on a completion, DMA transmission goes through a data queue,
    so the state [txsys] joins a serial device with the drivers' objects and the kernel. *)
From S2P Require Import Prelude RtList Kernel Sched Timer Object Thread Lifecycle Ipc Sem System Creation DevIpc Device Serial.
From stdpp Require Import base gmap sets list.
From Stdlib Require Import ZArith Lia.
#[local] Open Scope Z_scope.

(** ** State and operations *)

Record txsys {H : Type} := TxSys { ts_drv : dstate; ts_ser : serial H }.
Arguments txsys : clear implicits.
Arguments TxSys {H}.

Section SerialTx.
Context {H : Type} (ops : rt_uart_ops H).
(** The number of the completion of the transmit structure, or of its data queue. *)
Context (n : nat).
Implicit Types (s : txsys H).

Definition set_ts_drv (v : dstate) s : txsys H := TxSys v (ts_ser s).
Definition set_ts_ser (v : serial H) s : txsys H := TxSys (ts_drv s) v.
Definition drv {A} (c : M dstate A) : M (txsys H) A := zoom ts_drv set_ts_drv c.
Definition ser {A} (c : M (serial H) A) : M (txsys H) A := zoom ts_ser set_ts_ser c.

(** rt_serial_open with the objects of the transmit structure it creates; [malloc] is the
    memory for the items of the data queue. *)
Definition open_tx_objects (oflag : Z) (malloc : option (list rt_data_item)) : M (txsys H) unit :=
  if has oflag RT_DEVICE_FLAG_INT_TX then drv (rt_completion_init n)
  else if has oflag RT_DEVICE_FLAG_DMA_TX then drv (rt_data_queue_init n 8 4 false malloc) ;; mret tt
  else mret tt.
Definition serial_open (oflag : Z) (malloc : option (list rt_data_item)) : M (txsys H) Z :=
  tx ← ser (gets sr_tx);
  result ← ser (rt_serial_open ops oflag);
  (if bool_decide (result = RT_EOK) then match tx with None => open_tx_objects oflag malloc | Some _ => mret tt end else mret tt) ;;
  mret result.

(** The loop of _serial_int_tx: [None] when the fuel ran out, [Some (Some (t, rest))] when the
    thread [t] waits with [rest] to be sent. *)
Fixpoint int_tx_loop (fuel : nat) (data : list Z) : M (txsys H) (option (option (nat * list Z))) :=
  match fuel with
  | O => mret None
  | S fuel =>
      match data with
      | [] => mret (Some None)
      | c :: rest =>
          r ← ser (uart (uo_putc ops c));
          if bool_decide (r = -1) then
            w ← drv (rt_completion_wait n RT_WAITING_FOREVER);
            match w with
            | inl _ => int_tx_loop fuel data
            | inr t => mret (Some (Some (t, data)))
            end
          else int_tx_loop fuel rest
      end
  end.
Definition int_tx_result (size : Z) (r : option (option (nat * list Z))) : M (txsys H) (Z + (nat * list Z)) :=
  match r with
  | None => ub
  | Some None => mret (inl size)
  | Some (Some w) => mret (inr w)
  end.
(** A thread that finds its completion done tries again, and then waits. *)
Definition _serial_int_tx (data : list Z) : M (txsys H) (Z + (nat * list Z)) :=
  tx ← ser (gets sr_tx);
  match tx with
  | Some TxF => r ← int_tx_loop (length data + 2) data; int_tx_result (Z.of_nat (length data)) r
  | _ => ub
  end.
(** The rest of a call for [size] bytes after a wait. *)
Definition _serial_int_tx_resume (size : Z) (t : nat) (data : list Z) : M (txsys H) (Z + (nat * list Z)) :=
  _ ← drv (rt_completion_wait_resume n t);
  r ← int_tx_loop (length data + 2) data; int_tx_result size r.

(** serial_tx as a DMA structure. *)
Definition dma_activated : M (txsys H) bool :=
  tx ← ser (gets sr_tx);
  match tx with Some (TxD activated) => mret activated | _ => ub end.
Definition dma_transmit (x : rt_data_item) : M (txsys H) unit :=
  ser (modify (set_sr_tx (Some (TxD true)))) ;;
  ser (uart (fun h => (tt, uo_dma_transmit ops (fst x) (snd x) h))).

(** The masked section after the push. *)
Definition dma_start (x : rt_data_item) : M (txsys H) unit :=
  activated ← dma_activated;
  if (activated : bool) then mret tt else dma_transmit x.
Definition dma_tx_rest (x : rt_data_item) (r : (Z * option Z) + nat) : M (txsys H) (Z + nat) :=
  match r with
  | inl (result, _) =>
      if bool_decide (result = RT_EOK) then dma_start x ;; mret (inl (snd x))
      else ser (modify (set_sr_errno result)) ;; mret (inl 0)
  | inr t => mret (inr t)
  end.
Definition _serial_dma_tx (x : rt_data_item) : M (txsys H) (Z + nat) :=
  r ← drv (rt_data_queue_push n x RT_WAITING_FOREVER); dma_tx_rest x r.
Definition _serial_dma_tx_resume (t : nat) (x : rt_data_item) : M (txsys H) (Z + nat) :=
  r ← drv (rt_data_queue_push_resume n t x RT_WAITING_FOREVER); dma_tx_rest x r.

(** RT_SERIAL_EVENT_TX_DONE. *)
Definition isr_tx_done : M (txsys H) unit :=
  tx ← ser (gets sr_tx);
  match tx with Some TxF => drv (rt_completion_done n) | _ => ub end.
(** RT_SERIAL_EVENT_TX_DMADONE; the result is what tx_complete is called with.  A pop with
    timeout 0 does not wait. *)
Definition isr_tx_dmadone : M (txsys H) (option rt_data_item) :=
  dma_activated ;;
  p ← drv (rt_data_queue_pop n 0);
  '(result, next) ← drv (rt_data_queue_peak n);
  (match next with
   | Some x => if bool_decide (result = RT_EOK) then dma_transmit x else ser (modify (set_sr_tx (Some (TxD false))))
   | None => ser (modify (set_sr_tx (Some (TxD false))))
   end) ;;
  mret (match p with inl (_, last, _) => last | inr _ => None end).

(** The interrupt: the result is what rx_indicate is called with, and what tx_complete. *)
Definition RT_SERIAL_EVENT_RX_IND : Z := 0x01.
Definition RT_SERIAL_EVENT_TX_DONE : Z := 0x02.
Definition RT_SERIAL_EVENT_RX_DMADONE : Z := 0x03.
Definition RT_SERIAL_EVENT_TX_DMADONE : Z := 0x04.
Definition rt_hw_serial_isr (fuel : nat) (event : Z) : M (txsys H) (option Z * option rt_data_item) :=
  let e := Z.land event 0xff in
  if bool_decide (e = RT_SERIAL_EVENT_RX_IND) then r ← ser (isr_rx_ind ops fuel); mret (r, None)
  else if bool_decide (e = RT_SERIAL_EVENT_TX_DONE) then isr_tx_done ;; mret (None, None)
  else if bool_decide (e = RT_SERIAL_EVENT_TX_DMADONE) then x ← isr_tx_dmadone; mret (None, x)
  else if bool_decide (e = RT_SERIAL_EVENT_RX_DMADONE) then
    r ← ser (isr_rx_dmadone (Z.shiftr (Z.land event (Z.lnot 0xff)) 8)); mret (r, None)
  else mret (None, None).

(** [data] is what [buffer] points to. *)
Definition rt_serial_write (buffer : Z) (data : list Z) : M (txsys H) (Z + (nat * list Z)) :=
  if bool_decide (Z.of_nat (length data) = 0) then mret (inl 0)
  else
    open_flag ← ser (gets sr_open_flag);
    if has open_flag RT_DEVICE_FLAG_INT_TX then _serial_int_tx data
    else if has open_flag RT_DEVICE_FLAG_DMA_TX then
      r ← _serial_dma_tx (buffer, Z.of_nat (length data));
      mret (match r with inl z => inl z | inr t => inr (t, data) end)
    else r ← ser (_serial_poll_tx ops data); mret (inl r).

(** ** Interrupt transmission *)

(** What the UART was asked to send: a refused character is not sent, and of a DMA transfer
    the address and the size are noted. *)
Class UartTx (tx_bytes : H -> list Z) (tx_blocks : H -> list rt_data_item) : Prop := {
  putc_sends c h : tx_bytes (snd (uo_putc ops c h)) = tx_bytes h ++ (if bool_decide (fst (uo_putc ops c h) = -1) then [] else [c]);
  dma_sends a z h : tx_blocks (uo_dma_transmit ops a z h) = tx_blocks h ++ [(a, z)];
}.
Context (tx_bytes : H -> list Z) (tx_blocks : H -> list rt_data_item) {HU : UartTx tx_bytes tx_blocks}.
Notation bytes s := (tx_bytes (sr_hw (ts_ser s))).
Notation blocks s := (tx_blocks (sr_hw (ts_ser s))).
Notation kernel_of s := (ds_kernel (ts_drv s)).

Lemma drv_run {A} (c : M dstate A) s a d' : c (ts_drv s) = Some (a, d') -> drv c s = Some (a, set_ts_drv d' s).
Proof. intros E. unfold drv, zoom. by rewrite E. Qed.
Lemma ser_run {A} (c : M (serial H) A) s a (d : serial H) : c (ts_ser s) = Some (a, d) -> ser c s = Some (a, set_ts_ser d s).
Proof. intros E. unfold ser, zoom. by rewrite E. Qed.
Lemma set_ts_ser_id s : set_ts_ser (ts_ser s) s = s.
Proof. by destruct s. Qed.
Lemma set_ts_drv_id s : set_ts_drv (ts_drv s) s = s.
Proof. by destruct s. Qed.
Lemma ser_gets {A} (f : serial H -> A) s : ser (gets f) s = Some (f (ts_ser s), s).
Proof. rewrite (ser_run _ s (f (ts_ser s)) (ts_ser s)) by done. by rewrite set_ts_ser_id. Qed.

(** The thread [t] may wait on the completion of the device. *)
Definition tx_ready (t : nat) (f : Z) s : Prop :=
  drv_inv (ts_drv s) /\ running (kernel_of s) t /\ ds_comps (ts_drv s) !! n = Some f /\ s_queues (k_sched (kernel_of s)) !! QComp n = Some [].

(** The bytes [sent] went out; either all of the data, or the thread sleeps with the rest. *)
Record int_sent (t : nat) (data : list Z) s (r : option (nat * list Z)) s' : Prop := {
  is_drv : drv_inv (ts_drv s');
  is_tx : sr_tx (ts_ser s') = sr_tx (ts_ser s);
  is_data : exists sent rest, data = sent ++ rest /\ bytes s' = bytes s ++ sent /\
    match r with
    | None => rest = [] /\ kernel_of s' = kernel_of s /\ exists f', tx_ready t f' s'
    | Some w => w = (t, rest) /\ rest <> [] /\ slept (QComp n) t RT_WAITING_FOREVER (kernel_of s) (kernel_of s')
    end;
}.

Lemma int_tx_loop_ok fuel data t f s :
  tx_ready t f s -> (length data + (if bool_decide (f = RT_COMPLETED) then 2 else 1) <= fuel)%nat ->
  exists r s', int_tx_loop fuel data s = Some (Some r, s') /\ int_sent t data s r s'.
Proof using HU.
  revert data f s. induction fuel as [|fuel IH]; intros data f s Hr Hfuel; [by case_bool_decide; lia|]. cbn [int_tx_loop]. pose proof Hr as (Hi & Hrun & En & El).
  destruct data as [|c data].
  { exists None, s. split; [done|]. split; [done|done|]. exists [], []. rewrite !app_nil_r. split; [done|]. split; [done|]. split; [done|]. split; [done|]. by exists f. }
  pose proof (putc_sends c (sr_hw (ts_ser s))) as Hp. destruct (uo_putc ops c (sr_hw (ts_ser s))) as [r h] eqn:Eu. cbn in Hp.
  set (s1 := set_ts_ser (set_sr_hw h (ts_ser s)) s). rewrite (bind_run _ _ s r s1) by (apply ser_run; unfold uart; by rewrite Eu).
  assert (Hr1 : tx_ready t f s1) by done. case_bool_decide as Hm.
  - rewrite app_nil_r in Hp. destruct (comp_wait_ok n t RT_WAITING_FOREVER f (ts_drv s1) Hi Hrun En El ltac:(done)) as (w & d & Ew & Ho & Hi').
    rewrite (bind_run _ _ _ _ _ (drv_run _ s1 _ _ Ew)). inversion Ho as [Hf|? ?|k' Hf _ Hsl Eq]; subst; [|done|].
    + destruct (IH (c :: data) RT_UNCOMPLETED (set_ts_drv (set_ds_comps (<[n := RT_UNCOMPLETED]> (ds_comps (ts_drv s1))) (ts_drv s1)) s1)) as (r' & s' & E & [Hd Ht Hx]).
      * split; [done|]. split; [done|]. split; [apply lookup_insert_eq|done].
      * rewrite bool_decide_true in Hfuel by done. rewrite bool_decide_false by done. lia.
      * exists r', s'. split; [exact E|]. split; [done|done|]. cbn in Hx. rewrite Hp in Hx. done.
    + exists (Some (t, c :: data)). eexists. split; [done|]. split; [done|done|]. exists [], (c :: data). cbn. rewrite app_nil_r, Hp. split_and!; done.
  - destruct (IH data f s1 Hr1) as (r' & s' & E & [Hd Ht (sent & rest & -> & Hb & Hx)]); [cbn in Hfuel; lia|]. exists r', s'. split; [exact E|].
    split; [done|done|]. exists (c :: sent), rest. split; [done|]. split; [|done]. cbn in Hb. rewrite Hb, Hp. by rewrite <- app_assoc.
Qed.
Lemma tx_ready_fuel (data : list Z) (f : Z) : (length data + (if bool_decide (f = RT_COMPLETED) then 2 else 1) <= length data + 2)%nat.
Proof. case_bool_decide; lia. Qed.

(** ** DMA transmission *)

(** The queue holds [items]; a transfer is in progress just when it is not empty, and it is
    the one of the first item. *)
Record dma_state (size put : Z) (items : list rt_data_item) s : Prop := {
  dm_drv : drv_inv (ts_drv s);
  dm_holds : holds n size put items (ts_drv s);
  dm_activated : sr_tx (ts_ser s) = Some (TxD (bool_decide (items <> [])));
  dm_current : match items with x :: _ => exists l, blocks s = l ++ [x] | [] => True end;
}.

Lemma dma_activated_run a s : sr_tx (ts_ser s) = Some (TxD a) -> dma_activated s = Some (a, s).
Proof using. intros E. unfold dma_activated. rewrite (bind_run _ _ _ _ _ (ser_gets sr_tx s)). by rewrite E. Qed.
Lemma dma_transmit_run x s : exists s', dma_transmit x s = Some (tt, s') /\ ts_drv s' = ts_drv s /\ sr_tx (ts_ser s') = Some (TxD true) /\ blocks s' = blocks s ++ [x].
Proof using HU.
  eexists. split; [|split; [|split]]; [unfold dma_transmit; rewrite (bind_run _ _ _ _ _ (ser_run (modify (set_sr_tx (Some (TxD true)))) s tt _ eq_refl)); by apply ser_run|done|done|].
  cbn. rewrite dma_sends. by destruct x.
Qed.
Lemma dma_start_run a x s : sr_tx (ts_ser s) = Some (TxD a) -> dma_start x s = if a then Some (tt, s) else dma_transmit x s.
Proof using. intros E. unfold dma_start. rewrite (bind_run _ _ _ _ _ (dma_activated_run a s E)). by destruct a. Qed.
Lemma holds_kernel size put items d k' : holds n size put items d -> holds n size put items (set_ds_kernel k' d).
Proof using. intros (q & ?). by exists q. Qed.

(** Opening a device for DMA transmission. *)
Lemma serial_open_dma oflag mem s :
  drv_inv (ts_drv s) -> no_waiters (kernel_of s) (QDqPush n) -> no_waiters (kernel_of s) (QDqPop n) -> length mem = 8%nat -> sr_tx (ts_ser s) = None ->
  supported (sr_flag (ts_ser s)) oflag = true -> has oflag RT_DEVICE_FLAG_INT_TX = false -> has oflag RT_DEVICE_FLAG_DMA_TX = true ->
  exists s', serial_open oflag (Some mem) s = Some (RT_EOK, s') /\ dma_state 8 0 [] s'.
Proof using.
  intros Hi Hn1 Hn2 Hl Et Hsu Hi1 Hd1. destruct (serial_open_ok ops oflag (ts_ser s)) as (d & _ & _ & _ & Ho). rewrite Hsu in Ho. destruct Ho as (E & _ & _ & _ & Etx).
  rewrite Et in Etx. unfold opened_tx in Etx. rewrite Hi1, Hd1 in Etx.
  destruct (dq_init_ok n 8 4 false mem (ts_drv s) Hi Hn1 Hn2 ltac:(lia) ltac:(lia)) as (d' & E2 & Hi2 & Hh). exists (TxSys d' d). split; [|by split].
  unfold serial_open. rewrite (bind_run _ _ _ _ _ (ser_gets sr_tx s)), Et, (bind_run _ _ _ _ _ (ser_run _ s _ _ E)). rewrite bool_decide_true by done.
  assert (Eo : open_tx_objects oflag (Some mem) (set_ts_ser d s) = Some (tt, TxSys d' d)).
  { unfold open_tx_objects. rewrite Hi1, Hd1. by rewrite (bind_run _ _ _ _ _ (drv_run _ (set_ts_ser d s) _ _ E2)). }
  by rewrite (bind_run _ _ _ _ _ Eo).
Qed.

(** What follows a push with the outcome [r]. *)
Lemma dma_rest_ok t x q items s r d :
  dma_state (dq_size q) (dq_put_index q) items s -> ds_dqs (ts_drv s) !! n = Some q -> dq_rep q items -> 0 < snd x ->
  push_outcome n t x RT_WAITING_FOREVER q items (ts_drv s) r d -> drv_inv d ->
  exists r' s', dma_tx_rest x r (set_ts_drv d s) = Some (r', s') /\
    (r' = inl (snd x) /\ dma_state (dq_size q) (dq_put_index q + 1) (items ++ [x]) s' /\ blocks s' = blocks s ++ (if decide (items = []) then [x] else []) \/
     r' = inr t /\ Z.of_nat (length items) = dq_size q /\ dma_state (dq_size q) (dq_put_index q) items s' /\ blocks s' = blocks s).
Proof using HU.
  intros [Hi Hh Ha Hcur] En Hq Hx Ho Hi'. pose proof (push_holds n t x _ q items (ts_drv s) r d En Hq Ho) as Hd.
  destruct Ho as [q' l k' ev Hl Hq' Hp' Hsz El Hw He|Hl ?|k' Hl _ Hsl]; [|done|].
  - cbn [sent] in Hd. rewrite (bool_decide_true (RT_EOK = RT_EOK)) in Hd by done. cbn [length] in Hd. set (d := set_ds_kernel k' (with_dq n q' (ts_drv s))) in *.
    cbn [dma_tx_rest]. rewrite bool_decide_true by done. pose proof (dma_start_run _ x (set_ts_drv d s) Ha) as Est.
    assert (Hne : items ++ [x] <> []) by (by destruct items). destruct items as [|y items].
    + rewrite bool_decide_false in Est by (by intros []). destruct (dma_transmit_run x (set_ts_drv d s)) as (s' & E & Ed & Et & Eb). rewrite E in Est. rewrite (bind_run _ _ _ _ _ Est).
      eexists _, s'. split; [done|]. left. split; [done|]. split; [|done]. split; [by rewrite Ed|by rewrite Ed|by rewrite bool_decide_true|]. by exists (blocks s).
    + rewrite bool_decide_true in Est by done. rewrite (bind_run _ _ _ _ _ Est). eexists _, _. split; [done|]. left. split; [done|]. split; [|by rewrite decide_False, app_nil_r by done].
      split; [done|done|cbn; by rewrite Ha, !bool_decide_true by done|done].
  - eexists _, _. split; [done|]. right. split; [done|]. split; [done|]. split; [|done]. split; [done|by apply holds_kernel|done|done].
Qed.

(** The queue moves on by one item. *)
Lemma dma_done_ok t size put x rest s :
  dma_state size put (x :: rest) s -> running (kernel_of s) t ->
  exists s', isr_tx_dmadone s = Some (Some x, s') /\ dma_state size put rest s' /\ blocks s' = blocks s ++ (match rest with y :: _ => [y] | [] => [] end).
Proof using HU.
  intros [Hi (q & En & Hq & <- & <-) Ha _] Hr. unfold isr_tx_dmadone. rewrite (bind_run _ _ _ _ _ (dma_activated_run _ s Ha)).
  destruct (pop_ok n t 0 q (x :: rest) (ts_drv s) Hi Hr En Hq ltac:(done)) as (r & d & E & Ho & Hi'). rewrite (bind_run _ _ _ _ _ (drv_run _ s r d E)).
  destruct (pop_holds n t 0 q (x :: rest) (ts_drv s) r d En Hq Ho) as (rest' & Erest & Hh').
  inversion Ho as [x' rest0 q' k' ev Ex Hq' Hp' Hsz _|Hn ?|k' Hn ? ?]; subst; [|done|done]. injection Ex as <- <-. cbn in Erest. injection Erest as <-.
  set (d := set_ds_kernel k' (with_dq n q' (ts_drv s))) in *. set (s1 := set_ts_drv d s). destruct Hh' as (q2 & En2 & Hq2 & Hp2 & Hs2).
  rewrite (bind_run _ _ _ _ _ (drv_run _ s1 _ d (peak_ok n q2 rest d En2 Hq2))). change (set_ts_drv d s1) with s1.
  assert (Hh2 : holds n (dq_size q) (dq_put_index q) rest d) by (by exists q2). destruct rest as [|y rest]; cbn [fst snd].
  - eexists. split; [rewrite (bind_run _ _ _ _ _ (ser_run (modify (set_sr_tx (Some (TxD false)))) s1 tt _ eq_refl)); done|]. split; [|by rewrite app_nil_r]. split; done.
  - rewrite bool_decide_true by done. destruct (dma_transmit_run y s1) as (s' & Et & Ed & Etx & Eb). rewrite (bind_run _ _ _ _ _ Et). eexists. split; [done|]. split; [|done].
    split; [by rewrite Ed|by rewrite Ed|by rewrite bool_decide_true|]. by exists (blocks s).
Qed.

(** ** Runs of writes and transfers *)

(** The block [x] was accepted by a write with the result [r]. *)
Definition accepted (x : rt_data_item) (r : Z + nat) : list rt_data_item := if decide (r = inl (snd x)) then [x] else [].

(** Writes by all threads, each with its push and the start of the transfer undisturbed; the
    interrupt at the end of a transfer; and whatever else happens in the kernel. *)
Inductive dma_step s : list rt_data_item -> txsys H -> Prop :=
| dma_write t x r s' : running (kernel_of s) t -> 0 < snd x -> _serial_dma_tx x s = Some (r, s') -> dma_step s (accepted x r) s'
| dma_write_resume t x r s' : running (kernel_of s) t -> 0 < snd x -> _serial_dma_tx_resume t x s = Some (r, s') -> dma_step s (accepted x r) s'
| dma_transfer_done t r s' : running (kernel_of s) t -> sr_tx (ts_ser s) = Some (TxD true) -> isr_tx_dmadone s = Some (r, s') -> dma_step s [] s'
| dma_kernel k' : sys_inv k' -> lists_shrink (kernel_of s) k' -> dma_step s [] (set_ts_drv (set_ds_kernel k' (ts_drv s)) s).
Inductive dma_run : txsys H -> list rt_data_item -> txsys H -> Prop :=
| dma_run_done s : dma_run s [] s
| dma_run_step s w1 s1 w2 s2 : dma_step s w1 s1 -> dma_run s1 w2 s2 -> dma_run s (w1 ++ w2) s2.

(** After [w] more blocks were accepted: the transferred blocks and those in the queue. *)
Definition dma_after (size put : Z) (items w : list rt_data_item) s s' : Prop :=
  exists items', dma_state size (put + Z.of_nat (length w)) items' s' /\ blocks s' ++ tail items' = (blocks s ++ tail items) ++ w.

Lemma dma_write_ok t x size put items s c :
  dma_state size put items s -> running (kernel_of s) t -> 0 < snd x -> put + 1 < 2 ^ 16 ->
  c (ts_drv s) = push_loop n x RT_WAITING_FOREVER (ts_drv s) ->
  exists r s', (drv c ≫= dma_tx_rest x) s = Some (r, s') /\ dma_after size put items (accepted x r) s s'.
Proof using HU.
  intros Hm Hr Hx Hb Hcq. pose proof Hm as [Hi (q & En & Hq & <- & <-) _ _].
  destruct (push_ok n t x RT_WAITING_FOREVER q items (ts_drv s) Hi Hr En Hq Hb ltac:(done)) as (r0 & d & E & Ho & Hi').
  destruct (dma_rest_ok t x q items s r0 d Hm En Hq Hx Ho Hi') as (r & s' & Er & Hc). exists r, s'.
  rewrite (bind_run _ _ s r0 (set_ts_drv d s)) by (apply drv_run; by rewrite Hcq). split; [done|]. unfold accepted.
  destruct Hc as [(-> & Hs & Hbl)|(-> & _ & Hs & Hbl)].
  - rewrite decide_True by done. exists (items ++ [x]). split; [done|]. rewrite Hbl. destruct items; cbn; [by rewrite !app_nil_r|by rewrite app_nil_r, <- app_assoc].
  - rewrite decide_False by done. exists items. split; [by rewrite Z.add_0_r|]. by rewrite Hbl, app_nil_r.
Qed.

Lemma dma_step_ok size put items w s s' : dma_state size put items s -> put + 1 < 2 ^ 16 -> dma_step s w s' -> dma_after size put items w s s'.
Proof using HU.
  intros Hm Hb Hstep. destruct Hstep as [t x r s' Hr Hx E|t x r s' Hr Hx E|t r s' Hr Ha E|k' Hk Hsh].
  - destruct (dma_write_ok t x size put items s (push_loop n x RT_WAITING_FOREVER) Hm Hr Hx Hb eq_refl) as (r' & s2 & E' & Hd). by injection (eq_trans (eq_sym E) E') as <- <-.
  - pose proof Hr as [_ (th & Et & _)]. destruct (decide (th_error th = RT_EOK)) as [He|He].
    + destruct (dma_write_ok t x size put items s (rt_data_queue_push_resume n t x RT_WAITING_FOREVER) Hm Hr Hx Hb) as (r' & s2 & E' & Hd).
      { unfold rt_data_queue_push_resume. rewrite (bind_run _ _ _ _ _ (kern_run _ (ts_drv s) th _ (get_thread_run _ _ _ Et))), set_ds_kernel_id. by rewrite bool_decide_false by (by intros []). }
      by injection (eq_trans (eq_sym E) E') as <- <-.
    + unfold _serial_dma_tx_resume in E. rewrite (bind_run _ _ s (inl (th_error th, None)) s) in E.
      2:{ rewrite (drv_run _ s (inl (th_error th, None)) (ts_drv s)); [by rewrite set_ts_drv_id|]. unfold rt_data_queue_push_resume.
          rewrite (bind_run _ _ _ _ _ (kern_run _ (ts_drv s) th _ (get_thread_run _ _ _ Et))), set_ds_kernel_id. by rewrite bool_decide_true. }
      cbn [dma_tx_rest] in E. rewrite bool_decide_false in E by done. rewrite (bind_run _ _ _ _ _ (ser_run (modify (set_sr_errno (th_error th))) s tt _ eq_refl)) in E.
      injection E as <- <-. unfold accepted. rewrite decide_False by (intros [= ?]; lia). exists items. rewrite Z.add_0_r, app_nil_r. destruct Hm. by split.
  - pose proof (dm_activated _ _ _ _ Hm) as Hact. rewrite Ha in Hact. injection Hact as Hact. symmetry in Hact. apply bool_decide_eq_true_1 in Hact.
    destruct items as [|x rest]; [done|]. destruct (dma_done_ok t size put x rest s Hm Hr) as (s2 & E' & Hm' & Hbl). rewrite E in E'. injection E' as -> ->.
    exists rest. rewrite Z.add_0_r, app_nil_r. split; [done|]. rewrite Hbl. destruct rest; cbn; [by rewrite !app_nil_r|by rewrite <- app_assoc].
  - exists items. rewrite Z.add_0_r, app_nil_r. destruct Hm as [Hi Hh Ha Hc]. split; [|done]. split; [by apply drv_inv_shrink|by apply holds_kernel|done|done].
Qed.
Lemma dma_run_ok size put items w s s' :
  dma_run s w s' -> dma_state size put items s -> put + Z.of_nat (length w) + 1 < 2 ^ 16 -> dma_after size put items w s s'.
Proof using HU.
  intros Hrun. revert put items. induction Hrun as [s|s w1 s1 w2 s2 Hstep _ IH]; intros put items Hm Hb.
  - exists items. by rewrite Z.add_0_r, app_nil_r.
  - rewrite length_app in Hb. destruct (dma_step_ok size put items w1 s s1 Hm ltac:(lia) Hstep) as (items1 & Hm1 & E1).
    destruct (IH (put + Z.of_nat (length w1)) items1 Hm1 ltac:(lia)) as (items2 & Hm2 & E2). exists items2. rewrite length_app.
    replace (put + Z.of_nat (length w1 + length w2)) with (put + Z.of_nat (length w1) + Z.of_nat (length w2)) by lia. split; [done|]. by rewrite E2, E1, <- app_assoc.
Qed.

(** ** Properties *)


(** Interrupt transmission by the only waiting thread: the bytes go out in order and each
    once; the call returns the size when all of them went, or waits with exactly the rest,
    and after the wait it goes on with the rest in the same way. *)
Theorem serial_int_tx_correct data t f s :
  tx_ready t f s -> sr_tx (ts_ser s) = Some TxF ->
  (exists r s', _serial_int_tx data s = Some (match r with None => inl (Z.of_nat (length data)) | Some w => inr w end, s') /\ int_sent t data s r s') /\
  (forall size, exists r s', _serial_int_tx_resume size t data s = Some (match r with None => inl size | Some w => inr w end, s') /\
     int_sent t data (set_ts_drv (set_ds_comps (<[n := RT_UNCOMPLETED]> (ds_comps (ts_drv s))) (ts_drv s)) s) r s').
Proof using HU.
  intros Hr Ht. split.
  - destruct (int_tx_loop_ok (length data + 2) data t f s Hr (tx_ready_fuel data f)) as (r & s' & E & Hs). exists r, s'. split; [|done].
    unfold _serial_int_tx. rewrite (bind_run _ _ _ _ _ (ser_gets sr_tx s)), Ht, (bind_run _ _ _ _ _ E). by destruct r.
  - intros size. pose proof Hr as (Hi & Hrun & En & El). destruct Hrun as [Hc (th & Et & Hrs)].
    destruct (comp_resume_ok n t th (ts_drv s) Hi ltac:(by eexists) Et) as (d & E & -> & Hi').
    set (s1 := set_ts_drv (set_ds_comps (<[n := RT_UNCOMPLETED]> (ds_comps (ts_drv s))) (ts_drv s)) s).
    assert (Hr1 : tx_ready t RT_UNCOMPLETED s1) by (split; [done|]; split; [split; [done|by exists th]|]; split; [apply lookup_insert_eq|done]).
    destruct (int_tx_loop_ok (length data + 2) data t RT_UNCOMPLETED s1 Hr1 (tx_ready_fuel data RT_UNCOMPLETED)) as (r & s' & E2 & Hs). exists r, s'. split; [|done].
    unfold _serial_int_tx_resume. rewrite (bind_run _ _ _ _ _ (drv_run _ s _ _ E)), (bind_run _ _ _ _ _ E2). by destruct r.
Qed.


(** When a second thread writes between the push of the first and the start of its transfer,
    the block of the second is sent twice and that of the first not at all: [x] is pushed,
    another thread writes [y], and at the end of this transfer the interrupt reports [x] and
    sends [y] again. *)
Theorem dma_tx_race t u x y size put s r d k' :
  dma_state size put [] s -> running (kernel_of s) t -> 1 < size -> put + 2 < 2 ^ 16 ->
  rt_data_queue_push n x RT_WAITING_FOREVER (ts_drv s) = Some (r, d) -> sys_inv k' -> lists_shrink (ds_kernel d) k' -> running k' u ->
  exists s1, _serial_dma_tx y (set_ts_drv (set_ds_kernel k' d) s) = Some (inl (snd y), s1) /\ blocks s1 = blocks s ++ [y] /\
    forall v, running (kernel_of s1) v -> exists s2, isr_tx_dmadone s1 = Some (Some x, s2) /\ blocks s2 = blocks s ++ [y; y].
Proof using HU.
  intros [Hi (q & En & Hq & <- & <-) Ha _] Hrt Hsize Hb E Hk Hsh Hru.
  destruct (push_ok n t x RT_WAITING_FOREVER q [] (ts_drv s) Hi Hrt En Hq ltac:(lia) ltac:(done)) as (r' & d' & E' & Ho & Hid). injection (eq_trans (eq_sym E) E') as <- <-.
  inversion Ho as [q1 l k1 ev Hl Hq1 Hp1 Hs1 _ _ _|Hl ?|k1 Hl _ _]; subst; [|done|cbn in Hl; lia].
  set (d := set_ds_kernel k1 (with_dq n q1 (ts_drv s))) in *. set (d1 := set_ds_kernel k' d). assert (Hi1 : drv_inv d1) by (by apply drv_inv_shrink).
  assert (En1 : ds_dqs d1 !! n = Some q1) by apply lookup_insert_eq.
  destruct (push_ok n u y RT_WAITING_FOREVER q1 [x] d1 Hi1 Hru En1 Hq1 ltac:(lia) ltac:(done)) as (r2 & d2 & E2 & Ho2 & Hi2).
  inversion Ho2 as [q2 l2 k2 ev2 Hl2 Hq2 Hp2 Hs2 _ _ _|Hl2 ?|k2 Hl2 _ _]; subst; [|done|cbn in Hl2; lia].
  set (d2 := set_ds_kernel k2 (with_dq n q2 d1)) in *. destruct (dma_transmit_run y (set_ts_drv d2 s)) as (s1 & E3 & Ed3 & Et3 & Eb3). exists s1. split; [|split; [done|]].
  - unfold _serial_dma_tx. rewrite (bind_run _ _ _ _ _ (drv_run _ (set_ts_drv d1 s) _ _ E2)). cbn [dma_tx_rest]. rewrite bool_decide_true by done.
    change (set_ts_drv d2 (set_ts_drv d1 s)) with (set_ts_drv d2 s). pose proof (dma_start_run _ y (set_ts_drv d2 s) Ha) as Est. cbn in Est. rewrite E3 in Est. by rewrite (bind_run _ _ _ _ _ Est).
  - intros v Hv. assert (En2 : ds_dqs (ts_drv s1) !! n = Some q2) by (rewrite Ed3; apply lookup_insert_eq). assert (Hi3 : drv_inv (ts_drv s1)) by (by rewrite Ed3).
    destruct (pop_ok n v 0 q2 [x; y] (ts_drv s1) Hi3 Hv En2 Hq2 ltac:(done)) as (r3 & d3 & E4 & Ho3 & _).
    destruct (pop_holds n v 0 q2 [x; y] (ts_drv s1) r3 d3 En2 Hq2 Ho3) as (rest & Erest & (q3 & En3 & Hq3 & _)).
    inversion Ho3 as [x' rest0 q' k3 ev3 Ex _ _ _ _|Hn ?|k3 Hn ? ?]; subst; [|done|done]. injection Ex as <- <-. injection Erest as <-.
    set (d3 := set_ds_kernel k3 (with_dq n q' (ts_drv s1))) in *. destruct (dma_transmit_run y (set_ts_drv d3 s1)) as (s2 & E5 & _ & _ & Eb5). exists s2. split.
    + unfold isr_tx_dmadone. rewrite (bind_run _ _ _ _ _ (dma_activated_run _ s1 Et3)), (bind_run _ _ _ _ _ (drv_run _ s1 _ _ E4)).
      rewrite (bind_run _ _ _ _ _ (drv_run _ (set_ts_drv d3 s1) _ d3 (peak_ok n q3 [y] d3 En3 Hq3))). rewrite bool_decide_true by done.
      change (set_ts_drv d3 (set_ts_drv d3 s1)) with (set_ts_drv d3 s1). by rewrite (bind_run _ _ _ _ _ E5).
    + rewrite Eb5. cbn. rewrite Eb3. cbn. by rewrite <- app_assoc.
Qed.
End SerialTx.
