(* ===== verification/I2c.v ===== *)
(** * Bit-banged I2C (rt-thread/components/drivers/i2c/i2c-bit-ops.c)

    The driver moves the two lines of an I2C bus by hand.  The state [i2c] holds the levels the driver
    puts on SCL and SDA, the rest of the hardware, and a monitor: what a receiver that listens on the
    bus has understood so far.  The hardware with the slaves is a parameter ([I2cHw]): how it reacts to
    the outputs, to delays and to the passing of time, and what levels it puts on the pins.  A slave can
    pull SDA down, so a level that the driver reads is the level of the line during this clock pulse.

    The monitor follows the I2C-bus specification: SDA changing while SCL is high is a START or STOP
    condition; otherwise every clock pulse is a bit, and nine bits are a frame, the ninth bit being
    low for an acknowledgement.

    The transactions that the specification allows for a list of messages are a relation ([xfer_trace]);
    the driver is shown to produce one of them, with the result and the data that belong to it. *)
From S2P Require Import Prelude Kernel Thread.
From stdpp Require Import base list.
From Stdlib Require Import ZArith Lia.
#[local] Open Scope Z_scope.

(** ** The bus *)

Inductive bus_event := EStart | EFrame (data : Z) (ack : bool) | EStop.
(** [mo_slot]: the level of SDA in the current clock pulse, if it is a bit so far. *)
Record monitor := Monitor { mo_slot : option bool; mo_bits : list bool; mo_events : list bus_event }.

Definition bits_val (bits : list bool) : Z := fold_left (fun a (b : bool) => 2 * a + (if b then 1 else 0)) bits 0.
Definition mon_bit (v : bool) (bits : list bool) (es : list bus_event) : monitor :=
  if bool_decide (length bits = 8%nat) then Monitor None [] (es ++ [EFrame (bits_val bits) (negb v)])
  else Monitor None (bits ++ [v]) es.
Definition mon_drive (scl sda scl' sda' : bool) (m : monitor) : monitor :=
  match scl, scl' with
  | true, true => if eqb sda sda' then m else Monitor None [] (mo_events m ++ [if sda' then EStop else EStart])
  | false, true => Monitor (Some sda') (mo_bits m) (mo_events m)
  | true, false => match mo_slot m with Some v => mon_bit v (mo_bits m) (mo_events m) | None => m end
  | false, false => m
  end.
Definition mon_sample (b : bool) (m : monitor) : monitor :=
  Monitor (match mo_slot m with Some v => Some (v && b) | None => None end) (mo_bits m) (mo_events m).

(** The hardware: [hw_set scl sda] after the outputs changed, the levels on the pins, delays, and
    the tick counter. *)
Record I2cHw (B : Type) := {
  hw_set : bool -> bool -> B -> B;
  hw_sda : B -> bool;
  hw_scl : B -> bool;
  hw_udelay : Z -> B -> B;
  hw_tick : B -> Z;
  hw_sleep : Z -> B -> B
}.
Arguments hw_set {B}. Arguments hw_sda {B}. Arguments hw_scl {B}. Arguments hw_udelay {B}. Arguments hw_tick {B}. Arguments hw_sleep {B}.

Record i2c (B : Type) := I2c { i_scl : bool; i_sda : bool; i_mon : monitor; i_hw : B }.
Arguments I2c {B}. Arguments i_scl {B}. Arguments i_sda {B}. Arguments i_mon {B}. Arguments i_hw {B}.

(** ** Data *)

Definition RT_I2C_RD : Z := 0x01.
Definition RT_I2C_ADDR_10BIT : Z := 0x04.
Definition RT_I2C_NO_START : Z := 0x10.
Definition RT_I2C_IGNORE_NACK : Z := 0x20.
Definition RT_I2C_NO_READ_ACK : Z := 0x40.
(** The length of a message, below 2^16, is the length of its buffer. *)
Record rt_i2c_msg := I2cMsg { m_addr : Z; m_flags : Z; m_buf : list Z }.
Definition has_mflag (msg : rt_i2c_msg) (f : Z) : bool := bool_decide (Z.land (m_flags msg) f <> 0).
(** [op_get_scl]: whether the clock line can be read. *)
Record rt_i2c_bit_ops := I2cBitOps { op_get_scl : bool; op_delay_us : Z; op_timeout : Z }.

(** ** The transactions of a list of messages *)

Definition is_byte (d : Z) : Prop := 0 <= d < 256.
Definition reads (msg : rt_i2c_msg) : bool := has_mflag msg RT_I2C_RD.
Definition ignores (msg : rt_i2c_msg) : bool := has_mflag msg RT_I2C_IGNORE_NACK.
Definition rw_bit (msg : rt_i2c_msg) : Z := if reads msg then 1 else 0.

(** An address is repeated after a STOP and a START as long as nobody answers, [n] more times. *)
Inductive addressed (addr : Z) : nat -> list bus_event -> bool -> Prop :=
| ad_ack n : addressed addr n [EFrame addr true] true
| ad_nack : addressed addr 0 [EFrame addr false] false
| ad_retry n es ok : addressed addr n es ok -> addressed addr (S n) (EFrame addr false :: EStop :: EStart :: es) ok.

(** The address of a message: one byte of seven bits and the direction, or ten bits in two bytes, and
    for reading the first of them again. *)
Inductive addr_trace (retries : nat) (msg : rt_i2c_msg) : list bus_event -> bool -> Prop :=
| at_seven es ok :
    has_mflag msg RT_I2C_ADDR_10BIT = false -> addressed (2 * m_addr msg + rw_bit msg) (if ignores msg then 0%nat else retries) es ok ->
    addr_trace retries msg es (ok || ignores msg)
| at_ten_first es :
    has_mflag msg RT_I2C_ADDR_10BIT = true -> ignores msg = false ->
    addressed (0xf0 + 2 * (m_addr msg / 256)) retries es false -> addr_trace retries msg es false
| at_ten_second es ok :
    has_mflag msg RT_I2C_ADDR_10BIT = true -> ignores msg = false ->
    addressed (0xf0 + 2 * (m_addr msg / 256)) retries es ok -> ok = true ->
    addr_trace retries msg (es ++ [EFrame (m_addr msg mod 256) false]) false
| at_ten_write es ok ack :
    has_mflag msg RT_I2C_ADDR_10BIT = true -> reads msg = false ->
    addressed (0xf0 + 2 * (m_addr msg / 256)) (if ignores msg then 0%nat else retries) es ok -> (ignores msg = false -> ok = true /\ ack = true) ->
    addr_trace retries msg (es ++ [EFrame (m_addr msg mod 256) ack]) true
| at_ten_read es ok ack es2 ok2 :
    has_mflag msg RT_I2C_ADDR_10BIT = true -> reads msg = true ->
    addressed (0xf0 + 2 * (m_addr msg / 256)) (if ignores msg then 0%nat else retries) es ok -> (ignores msg = false -> ok = true /\ ack = true) ->
    addressed (0xf1 + 2 * (m_addr msg / 256)) (if ignores msg then 0%nat else retries) es2 ok2 ->
    addr_trace retries msg (es ++ EFrame (m_addr msg mod 256) ack :: EStart :: es2) (ok2 || ignores msg).

(** Bytes that are written, up to the first one that is not acknowledged. *)
Inductive sent (ignore : bool) : list Z -> list bus_event -> bool -> Prop :=
| se_done : sent ignore [] [] true
| se_byte d ds ack es ok : ack = true \/ ignore = true -> sent ignore ds es ok -> sent ignore (d :: ds) (EFrame d ack :: es) ok
| se_nack d ds : ignore = false -> sent ignore (d :: ds) [EFrame d false] false.

(** Bytes that are read: the master acknowledges all but the last. *)
Fixpoint recv_events (data : list Z) : list bus_event :=
  match data with
  | [] => []
  | d :: ds => EFrame d (bool_decide (ds <> [])) :: recv_events ds
  end.

Inductive data_trace (msg : rt_i2c_msg) : list bus_event -> list Z -> bool -> Prop :=
| dt_read data : reads msg = true -> Forall is_byte data -> length data = length (m_buf msg) -> data_trace msg (recv_events data) data true
| dt_write es ok : reads msg = false -> sent (ignores msg) (m_buf msg) es ok -> data_trace msg es (m_buf msg) ok.

(** The address of message [i], after a repeated START if it is not the first. *)
Definition head_trace (retries : nat) (i : Z) (msg : rt_i2c_msg) (es : list bus_event) (ok : bool) : Prop :=
  if has_mflag msg RT_I2C_NO_START then es = [] /\ ok = true
  else exists es', es = (if bool_decide (i <> 0) then [EStart] else []) ++ es' /\ addr_trace retries msg es' ok.

Definition with_buf (msg : rt_i2c_msg) (data : list Z) : rt_i2c_msg := I2cMsg (m_addr msg) (m_flags msg) data.

(** The messages from number [i] on: what is on the bus, the result, and the messages with what was read. *)
Inductive xfer_trace (retries : nat) : Z -> list rt_i2c_msg -> list bus_event -> Z -> list rt_i2c_msg -> Prop :=
| xt_done i : xfer_trace retries i [] [] i []
| xt_no_device i msg rest es : head_trace retries i msg es false -> xfer_trace retries i (msg :: rest) es (- RT_EIO) (msg :: rest)
| xt_nack i msg rest es1 es2 data :
    head_trace retries i msg es1 true -> data_trace msg es2 data false ->
    xfer_trace retries i (msg :: rest) (es1 ++ es2) (- RT_ERROR) (with_buf msg data :: rest)
| xt_next i msg rest es1 es2 data es3 ret rest' :
    head_trace retries i msg es1 true -> data_trace msg es2 data true -> xfer_trace retries (i + 1) rest es3 ret rest' ->
    xfer_trace retries i (msg :: rest) (es1 ++ es2 ++ es3) ret (with_buf msg data :: rest').

(** ** The bytes of an address *)

Lemma lor_even_1 n : 0 <= n -> Z.lor (2 * n) 1 = 2 * n + 1.
Proof. intros. rewrite Z.add_comm. by destruct n. Qed.
Lemma seven_bit addr (rd : bool) : 0 <= addr < 128 ->
  (if rd then Z.lor (u8 (Z.shiftl addr 1)) 1 else u8 (Z.shiftl addr 1)) = 2 * addr + (if rd then 1 else 0).
Proof.
  intros. rewrite Z.shiftl_mul_pow2 by lia. change (2 ^ 1) with 2. rewrite (wrap_id 8) by lia. rewrite Z.mul_comm. destruct rd; [apply lor_even_1|]; lia.
Qed.
Lemma low_byte addr : Z.land addr 0xff = addr mod 256.
Proof. change 0xff with (Z.ones 8). by rewrite Z.land_ones. Qed.
Lemma ten_bit_byte addr b : 0 <= addr < 1024 -> 0xf0 <= b <= 0xf1 -> is_byte (b + 2 * (addr / 256)).
Proof. intros. unfold is_byte. pose proof (Z.div_lt_upper_bound addr 256 4 ltac:(lia) ltac:(lia)). pose proof (Z.div_pos addr 256 ltac:(lia) ltac:(lia)). lia. Qed.
Lemma ten_bit_first addr : 0 <= addr < 1024 -> u8 (Z.lor 0xf0 (Z.land (Z.shiftr addr 7) 0x06)) = 0xf0 + 2 * (addr / 256).
Proof.
  intros. pose proof (Z.div_lt_upper_bound addr 256 4 ltac:(lia) ltac:(lia)). pose proof (Z.div_pos addr 256 ltac:(lia) ltac:(lia)).
  rewrite Z.shiftr_div_pow2 by lia. change (2 ^ 7) with 128. change 256 with (128 * 2) in *. rewrite <- Z.div_div in * by lia.
  pose proof (Z.div_lt_upper_bound addr 128 8 ltac:(lia) ltac:(lia)). pose proof (Z.div_pos addr 128 ltac:(lia) ltac:(lia)). set (q := addr / 128) in *. clearbody q.
  assert (q = 0 \/ q = 1 \/ q = 2 \/ q = 3 \/ q = 4 \/ q = 5 \/ q = 6 \/ q = 7) as Hq by lia. by destruct_or! Hq; subst.
Qed.
Lemma ten_bit_again addr : 0 <= addr < 1024 -> Z.lor (0xf0 + 2 * (addr / 256)) 1 = 0xf1 + 2 * (addr / 256).
Proof. intros. pose proof (Z.div_pos addr 256 ltac:(lia) ltac:(lia)). replace (0xf0 + 2 * (addr / 256)) with (2 * (120 + addr / 256)) by lia. rewrite lor_even_1; lia. Qed.

(** ** The driver *)

Section Driver.
Context {B : Type} (hw : I2cHw B) (ops : rt_i2c_bit_ops) (fuel : nat).
Abbreviation MI := (M (i2c B)).

Definition drive (scl sda : bool) (s : i2c B) : i2c B :=
  I2c scl sda (mon_drive (i_scl s) (i_sda s) scl sda (i_mon s)) (hw_set hw scl sda (i_hw s)).
Definition SET_SDA (val : bool) : MI unit := modify (fun s => drive (i_scl s) val s).
Definition SET_SCL (val : bool) : MI unit := modify (fun s => drive val (i_sda s) s).
Definition GET_SDA : MI bool := fun s =>
  let b := hw_sda hw (i_hw s) in Some (b, I2c (i_scl s) (i_sda s) (mon_sample b (i_mon s)) (i_hw s)).
Definition GET_SCL : MI bool := gets (fun s => hw_scl hw (i_hw s)).
Definition SDA_L : MI unit := SET_SDA false.
Definition SDA_H : MI unit := SET_SDA true.
Definition SCL_L : MI unit := SET_SCL false.
Definition on_hw (f : B -> B) : MI unit := modify (fun s => I2c (i_scl s) (i_sda s) (i_mon s) (f (i_hw s))).
Definition udelay (us : Z) : MI unit := on_hw (hw_udelay hw us).
Definition tick_get : MI Z := gets (fun s => hw_tick hw (i_hw s)).

Definition i2c_delay : MI unit := udelay (Z.shiftr (u32 (op_delay_us ops + 1)) 1).
Definition i2c_delay2 : MI unit := udelay (op_delay_us ops).

Fixpoint scl_wait (fuel : nat) (start : Z) : MI Z :=
  match fuel with
  | O => ub
  | S fuel' =>
    scl ← GET_SCL;
    if (scl : bool) then mret RT_EOK
    else
      now ← tick_get;
      if bool_decide (u32 (now - start) > op_timeout ops) then mret (- RT_ETIMEOUT)
      else on_hw (hw_sleep hw (Z.shiftr (u32 (op_timeout ops + 1)) 1)) ;; scl_wait fuel' start
  end.
Definition SCL_H : MI Z :=
  SET_SCL true ;;
  if op_get_scl ops then
    start ← tick_get;
    r ← scl_wait fuel start;
    if bool_decide (r < 0) then mret r else i2c_delay ;; mret RT_EOK
  else i2c_delay ;; mret RT_EOK.

Definition i2c_start : MI unit := SDA_L ;; i2c_delay ;; SCL_L.
Definition i2c_restart : MI unit :=
  SDA_H ;; SCL_H ;; i2c_delay ;; SDA_L ;; i2c_delay ;; SCL_L.
Definition i2c_stop : MI unit :=
  SDA_L ;; i2c_delay ;; SCL_H ;; i2c_delay ;; SDA_H ;; i2c_delay2.

Definition i2c_waitack : MI Z :=
  SDA_H ;; i2c_delay ;;
  r ← SCL_H;
  if bool_decide (r < 0) then mret (- RT_ETIMEOUT)
  else
    sda ← GET_SDA;
    SCL_L ;;
    mret (if (sda : bool) then 0 else 1).

(** Bits [n] - 1 down to 0 of [data]. *)
Fixpoint writeb_loop (n : nat) (data : Z) : MI Z :=
  match n with
  | O => mret RT_EOK
  | S i =>
    SCL_L ;;
    SET_SDA (bool_decide (Z.land (Z.shiftr data (Z.of_nat i)) 1 <> 0)) ;;
    i2c_delay ;;
    r ← SCL_H;
    if bool_decide (r < 0) then mret (- RT_ETIMEOUT) else writeb_loop i data
  end.
Definition i2c_writeb (data : Z) : MI Z :=
  r ← writeb_loop 8 data;
  if bool_decide (r < 0) then mret r
  else SCL_L ;; i2c_delay ;; i2c_waitack.

Fixpoint readb_loop (n : nat) (data : Z) : MI Z :=
  match n with
  | O => mret data
  | S n' =>
    let data := u8 (Z.shiftl data 1) in
    r ← SCL_H;
    if bool_decide (r < 0) then mret (- RT_ETIMEOUT)
    else
      sda ← GET_SDA;
      SCL_L ;; i2c_delay2 ;;
      readb_loop n' (if (sda : bool) then Z.lor data 1 else data)
  end.
Definition i2c_readb : MI Z := SDA_H ;; i2c_delay ;; readb_loop 8 0.

Fixpoint i2c_send_bytes (ignore_nack : bool) (buf : list Z) (bytes : Z) : MI Z :=
  match buf with
  | [] => mret bytes
  | d :: buf' =>
    ret ← i2c_writeb d;
    if bool_decide (ret > 0) || (ignore_nack && bool_decide (ret = 0)) then i2c_send_bytes ignore_nack buf' (bytes + 1)
    else if bool_decide (ret = 0) then mret 0
    else mret ret
  end.

Definition i2c_send_ack_or_nack (ack : bool) : MI Z :=
  (if ack then SET_SDA false else mret tt) ;;
  i2c_delay ;;
  r ← SCL_H;
  if bool_decide (r < 0) then mret (- RT_ETIMEOUT) else SCL_L ;; mret RT_EOK.

(** The result and the contents of the buffer. *)
Fixpoint i2c_recv_bytes (no_read_ack : bool) (buf : list Z) (bytes : Z) : MI (Z * list Z) :=
  match buf with
  | [] => mret (bytes, [])
  | _ :: buf' =>
    val ← i2c_readb;
    if bool_decide (val >= 0) then
      r ← (if no_read_ack then mret RT_EOK else i2c_send_ack_or_nack (bool_decide (buf' <> [])));
      if bool_decide (r < 0) then mret (r, val :: buf')
      else
        rest ← i2c_recv_bytes no_read_ack buf' (bytes + 1);
        mret (fst rest, val :: snd rest)
    else mret (bytes, buf)
  end.

(** [n] more attempts.  The code converts [bus->retries] to a signed 32-bit number; here it is below 2^31. *)
Fixpoint i2c_send_address (addr : Z) (n : nat) : MI Z :=
  ret ← i2c_writeb addr;
  match n with
  | O => mret ret
  | S n' =>
    if bool_decide (ret = 1) then mret ret
    else i2c_stop ;; i2c_delay2 ;; i2c_start ;; i2c_send_address addr n'
  end.

Definition i2c_bit_send_address (retries : nat) (msg : rt_i2c_msg) : MI Z :=
  let ignore_nack := has_mflag msg RT_I2C_IGNORE_NACK in
  let retries := if ignore_nack then 0%nat else retries in
  if has_mflag msg RT_I2C_ADDR_10BIT then
    let addr1 := u8 (Z.lor 0xf0 (Z.land (Z.shiftr (m_addr msg) 7) 0x06)) in
    let addr2 := Z.land (m_addr msg) 0xff in
    ret ← i2c_send_address addr1 retries;
    if bool_decide (ret <> 1) && negb ignore_nack then mret (- RT_EIO)
    else
      ret ← i2c_writeb addr2;
      if bool_decide (ret <> 1) && negb ignore_nack then mret (- RT_EIO)
      else if has_mflag msg RT_I2C_RD then
        i2c_restart ;;
        ret ← i2c_send_address (Z.lor addr1 0x01) retries;
        if bool_decide (ret <> 1) && negb ignore_nack then mret (- RT_EIO) else mret RT_EOK
      else mret RT_EOK
  else
    let addr1 := u8 (Z.shiftl (m_addr msg) 1) in
    let addr1 := if has_mflag msg RT_I2C_RD then Z.lor addr1 1 else addr1 in
    ret ← i2c_send_address addr1 retries;
    if bool_decide (ret <> 1) && negb ignore_nack then mret (- RT_EIO) else mret RT_EOK.

(** The bytes of one message: [Some] of the result with which the transfer ends, and the buffer. *)
Definition xfer_data (msg : rt_i2c_msg) : MI (option Z * list Z) :=
  let len := Z.of_nat (length (m_buf msg)) in
  if has_mflag msg RT_I2C_RD then
    r ← i2c_recv_bytes (has_mflag msg RT_I2C_NO_READ_ACK) (m_buf msg) 0;
    mret (if bool_decide (fst r < len) then Some (if bool_decide (fst r >= 0) then - RT_EIO else fst r) else None, snd r)
  else
    ret ← i2c_send_bytes (has_mflag msg RT_I2C_IGNORE_NACK) (m_buf msg) 0;
    mret (if bool_decide (ret < len) then Some (if bool_decide (ret >= 0) then - RT_ERROR else ret) else None, m_buf msg).

(** The loop over the messages, with the number of the first one; the messages with what was read. *)
Fixpoint xfer_loop (retries : nat) (i : Z) (msgs : list rt_i2c_msg) : MI (Z * list rt_i2c_msg) :=
  match msgs with
  | [] => mret (i, [])
  | msg :: rest =>
    ret ← (if has_mflag msg RT_I2C_NO_START then mret RT_EOK
           else (if bool_decide (i <> 0) then i2c_restart else mret tt) ;; i2c_bit_send_address retries msg);
    if bool_decide (ret <> RT_EOK) && negb (has_mflag msg RT_I2C_IGNORE_NACK) then mret (ret, msgs)
    else
      d ← xfer_data msg;
      let msg' := I2cMsg (m_addr msg) (m_flags msg) (snd d) in
      match fst d with
      | Some e => mret (e, msg' :: rest)
      | None => r ← xfer_loop retries (i + 1) rest; mret (fst r, msg' :: snd r)
      end
  end.
Definition i2c_bit_xfer (retries : nat) (msgs : list rt_i2c_msg) : MI (Z * list rt_i2c_msg) :=
  i2c_start ;;
  r ← xfer_loop retries 0 msgs;
  i2c_stop ;;
  mret r.

(** ** Slaves that do not hold the clock *)

Section Free.
Context (Hfuel : (0 < fuel)%nat) (Hfree : forall sda b, hw_scl hw (hw_set hw true sda b) = true).

Lemma SCL_H_free s : exists h, SCL_H s = Some (RT_EOK, I2c true (i_sda s) (mon_drive (i_scl s) (i_sda s) true (i_sda s) (i_mon s)) h).
Proof.
  unfold SCL_H, SET_SCL, tick_get. munfold. destruct (op_get_scl ops); [|by eexists]. destruct fuel as [|f]; [lia|]. cbn [scl_wait].
  unfold GET_SCL. munfold. cbn [i_hw drive]. rewrite Hfree. cbn. by eexists.
Qed.
Lemma SCL_H_low sda bits es h : exists h', SCL_H (I2c false sda (Monitor None bits es) h) = Some (RT_EOK, I2c true sda (Monitor (Some sda) bits es) h').
Proof. destruct (SCL_H_free (I2c false sda (Monitor None bits es) h)) as (h' & E). by exists h'. Qed.

Lemma start_low m h : exists h', i2c_start (I2c true true m h) = Some (tt, I2c false false (Monitor None [] (mo_events m ++ [EStart])) h').
Proof. by eexists. Qed.
Lemma restart_low sda bits es h : exists h',
  i2c_restart (I2c false sda (Monitor None bits es) h) = Some (tt, I2c false false (Monitor None [] (es ++ [EStart])) h').
Proof.
  unfold i2c_restart. set (s1 := I2c false true (Monitor None bits es) (hw_set hw false true h)).
  rewrite (bind_run SDA_H _ _ tt s1) by done. destruct (SCL_H_low true bits es (i_hw s1)) as (h1 & E). rewrite (bind_run _ _ _ _ _ E). by eexists.
Qed.
Lemma stop_high sda bits es h : exists h',
  i2c_stop (I2c false sda (Monitor None bits es) h) = Some (tt, I2c true true (Monitor None [] (es ++ [EStop])) h').
Proof.
  unfold i2c_stop. rewrite (bind_run SDA_L _ _ tt (I2c false false (Monitor None bits es) (hw_set hw false false h))) by done.
  match goal with |- context [(i2c_delay ≫= ?f) ?s] => rewrite (bind_run i2c_delay f s tt (I2c false false (Monitor None bits es) (hw_udelay hw (Z.shiftr (u32 (op_delay_us ops + 1)) 1) (i_hw s)))) by done end.
  match goal with |- context [(SCL_H ≫= _) (I2c _ _ _ ?x)] => destruct (SCL_H_low false bits es x) as (h1 & E) end.
  rewrite (bind_run _ _ _ _ _ E). by eexists.
Qed.

(** *** Bytes *)

Fixpoint msb_bits (n : nat) (data : Z) : list bool :=
  match n with O => [] | S i => Z.testbit data (Z.of_nat i) :: msb_bits i data end.

Lemma bits_val_app a b : bits_val (a ++ [b]) = 2 * bits_val a + (if b then 1 else 0).
Proof. unfold bits_val. by rewrite fold_left_app. Qed.
Lemma bits_val_range bits : 0 <= bits_val bits < 2 ^ Z.of_nat (length bits).
Proof.
  induction bits as [|b bits IH] using rev_ind; [done|]. rewrite bits_val_app, length_app. cbn [length].
  replace (Z.of_nat (length bits + 1)) with (Z.succ (Z.of_nat (length bits))) by lia. rewrite Z.pow_succ_r by lia. destruct b; lia.
Qed.
Lemma msb_bits_length n data : length (msb_bits n data) = n.
Proof. induction n; cbn; congruence. Qed.
Lemma bit_of data i : bool_decide (Z.land (Z.shiftr data (Z.of_nat i)) 1 <> 0) = Z.testbit data (Z.of_nat i).
Proof.
  change 1 with (Z.ones 1). rewrite Z.land_ones, Z.shiftr_div_pow2 by lia. change (2 ^ 1) with 2. rewrite Z.testbit_eqb by lia.
  pose proof (Z.mod_pos_bound (data / 2 ^ Z.of_nat i) 2 ltac:(lia)). case_bool_decide; destruct (Z.eqb_spec ((data / 2 ^ Z.of_nat i) mod 2) 1); lia || done.
Qed.

(** The bits of a number, the highest first, on top of those before. *)
Lemma msb_bits_val n data bits : bits_val (bits ++ msb_bits n data) = bits_val bits * 2 ^ Z.of_nat n + data mod 2 ^ Z.of_nat n.
Proof.
  revert bits. induction n as [|n IH]; intros bits; cbn [msb_bits].
  - rewrite app_nil_r. change (2 ^ Z.of_nat 0) with 1. rewrite Z.mod_1_r. lia.
  - rewrite cons_middle, app_assoc, IH, bits_val_app. rewrite Nat2Z.inj_succ, Z.pow_succ_r by lia. set (p := 2 ^ Z.of_nat n) in *.
    assert (0 < p) by (unfold p; lia). rewrite Z.testbit_eqb by lia. fold p. rewrite (Z.mul_comm 2 p), Z.rem_mul_r by lia.
    pose proof (Z.mod_pos_bound (data / p) 2 ltac:(lia)). destruct (Z.eqb_spec ((data / p) mod 2) 1); nia.
Qed.

(** The state whose next falling edge of the clock leaves [bits]. *)
Definition falls (bits : list bool) (es : list bus_event) (s : i2c B) : Prop := mon_drive (i_scl s) (i_sda s) false (i_sda s) (i_mon s) = Monitor None bits es.

Lemma writeb_loop_ok n data : forall bits es s, (length bits + n = 8)%nat -> falls bits es s ->
  exists s', writeb_loop n data s = Some (RT_EOK, s') /\ falls (bits ++ msb_bits n data) es s'.
Proof.
  induction n as [|n IH]; intros bits es s Hl Hf; cbn [writeb_loop msb_bits]; [exists s; by rewrite app_nil_r|].
  set (b := bool_decide _). set (h1 := hw_set hw false b (hw_set hw false (i_sda s) (i_hw s))).
  assert (E1 : forall f : unit -> MI Z, (SCL_L ;; SET_SDA b ;; i2c_delay ≫= f) s =
    f tt (I2c false b (Monitor None bits es) (hw_udelay hw (Z.shiftr (u32 (op_delay_us ops + 1)) 1) h1))).
  { intros f. unfold SCL_L, SET_SCL, SET_SDA, i2c_delay, udelay, on_hw. munfold. unfold drive. cbn. unfold falls in Hf. by rewrite Hf. }
  rewrite (E1 (fun _ => _)). destruct (SCL_H_low b bits es (hw_udelay hw (Z.shiftr (u32 (op_delay_us ops + 1)) 1) h1)) as (h2 & E2).
  rewrite (bind_run _ _ _ _ _ E2), bool_decide_false by done. rewrite cons_middle, app_assoc. unfold b in *. rewrite bit_of in *.
  apply (IH (bits ++ [Z.testbit data (Z.of_nat n)])); [rewrite length_app; cbn; lia|].
  unfold falls, mon_drive, mon_bit. cbn. rewrite bool_decide_false by lia. done.
Qed.

Lemma writeb_ok data sda es h : 0 <= data < 256 -> exists (ack : bool) h',
  i2c_writeb data (I2c false sda (Monitor None [] es) h) = Some (if ack then 1 else 0, I2c false true (Monitor None [] (es ++ [EFrame data ack])) h').
Proof.
  intros Hd. destruct (writeb_loop_ok 8 data [] es (I2c false sda (Monitor None [] es) h) eq_refl eq_refl) as (s1 & E1 & Hf).
  unfold i2c_writeb. rewrite (bind_run _ _ _ _ _ E1), bool_decide_false by done. rewrite app_nil_l in Hf.
  set (bits := msb_bits 8 data) in *. set (h1 := hw_udelay hw (Z.shiftr (u32 (op_delay_us ops + 1)) 1) (hw_set hw false (i_sda s1) (i_hw s1))).
  assert (E2 : (SCL_L ;; i2c_delay ;; i2c_waitack) s1 = i2c_waitack (I2c false (i_sda s1) (Monitor None bits es) h1)).
  { unfold SCL_L, SET_SCL, i2c_delay, udelay, on_hw. munfold. unfold drive. cbn. unfold falls in Hf. by rewrite Hf. }
  rewrite E2. unfold i2c_waitack. set (h2 := hw_udelay hw (Z.shiftr (u32 (op_delay_us ops + 1)) 1) (hw_set hw false true h1)).
  assert (E3 : forall f : unit -> MI Z, (SDA_H ;; i2c_delay ≫= f) (I2c false (i_sda s1) (Monitor None bits es) h1) = f tt (I2c false true (Monitor None bits es) h2)) by done.
  rewrite (E3 (fun _ => _)). destruct (SCL_H_low true bits es h2) as (h3 & E4). rewrite (bind_run _ _ _ _ _ E4), bool_decide_false by done.
  exists (negb (hw_sda hw h3)). eexists. unfold GET_SDA, SCL_L, SET_SCL. munfold. unfold drive, mon_drive, mon_sample, mon_bit. cbn [mo_slot mo_bits mo_events i_mon i_hw i_scl i_sda].
  rewrite bool_decide_true by apply msb_bits_length. cbn [andb]. pose proof (msb_bits_val 8 data []) as Hv. rewrite app_nil_l in Hv. fold bits in Hv.
  rewrite Hv. change (2 ^ Z.of_nat 8) with 256. rewrite Z.mod_small by lia. cbn. destruct (hw_sda hw h3); done.
Qed.

Lemma readb_loop_ok n : forall bits es h, (length bits + n = 8)%nat -> exists new h', length new = n /\
  readb_loop n (bits_val bits) (I2c false true (Monitor None bits es) h) = Some (bits_val (bits ++ new), I2c false true (Monitor None (bits ++ new) es) h').
Proof.
  induction n as [|n IH]; intros bits es h Hl; cbn [readb_loop]; [exists [], h; by rewrite app_nil_r|].
  destruct (SCL_H_low true bits es h) as (h1 & E1). rewrite (bind_run _ _ _ _ _ E1), bool_decide_false by done. set (b := hw_sda hw h1).
  set (h2 := hw_udelay hw (op_delay_us ops) (hw_set hw false true h1)).
  assert (E2 : forall f : bool -> MI Z, (sda ← GET_SDA; SCL_L ;; i2c_delay2 ;; f sda) (I2c true true (Monitor (Some true) bits es) h1) =
    f b (I2c false true (Monitor None (bits ++ [b]) es) h2)).
  { intros f. unfold GET_SDA, SCL_L, SET_SCL, i2c_delay2, udelay, on_hw. munfold. unfold drive, mon_drive, mon_sample, mon_bit.
    cbn [mo_slot mo_bits mo_events i_mon i_hw i_scl i_sda andb]. rewrite bool_decide_false by lia. done. }
  rewrite (E2 (fun sda => readb_loop n _)). destruct (IH (bits ++ [b]) es h2) as (new & h' & Hn & E); [rewrite length_app; cbn; lia|].
  exists (b :: new), h'. split; [cbn; lia|]. assert (Eb : bits ++ b :: new = (bits ++ [b]) ++ new) by (by rewrite <- app_assoc).
  rewrite Eb, <- E. f_equal. rewrite bits_val_app.
  pose proof (bits_val_range bits) as Hr. assert (2 ^ Z.of_nat (length bits) <= 2 ^ 7) by (apply Z.pow_le_mono_r; lia).
  rewrite Z.shiftl_mul_pow2 by lia. change (2 ^ 1) with 2. rewrite (wrap_id 8) by lia. rewrite (Z.mul_comm _ 2). destruct b; [|lia].
  rewrite <- Z.lxor_lor, <- Z.add_nocarry_lxor; [done|..]; apply Z.bits_inj'; intros k Hk; rewrite Z.land_spec, Z.bits_0;
    destruct (Z.eq_dec k 0) as [->|]; rewrite ?Z.testbit_even_0; try done; rewrite (Z.bits_above_log2 1 k) by (cbn; lia); apply andb_false_r.
Qed.

(** A byte is read and acknowledged, or not. *)
Lemma read_frame_ok ack sda es h : exists v h1 h', 0 <= v < 256 /\
  i2c_readb (I2c false sda (Monitor None [] es) h) = Some (v, h1) /\
  i2c_send_ack_or_nack ack h1 = Some (RT_EOK, I2c false (negb ack) (Monitor None [] (es ++ [EFrame v ack])) h').
Proof.
  set (h0 := hw_udelay hw (Z.shiftr (u32 (op_delay_us ops + 1)) 1) (hw_set hw false true h)).
  destruct (readb_loop_ok 8 [] es h0 eq_refl) as (new & h1 & Hn & E1). rewrite app_nil_l in E1. change (bits_val []) with 0 in E1.
  pose proof (bits_val_range new) as Hr. rewrite Hn in Hr. exists (bits_val new), (I2c false true (Monitor None new es) h1).
  set (h2 := hw_udelay hw (Z.shiftr (u32 (op_delay_us ops + 1)) 1) (if ack then hw_set hw false false h1 else h1)).
  destruct (SCL_H_low (negb ack) new es h2) as (h3 & E3).
  exists (hw_set hw false (negb ack) h3). split; [done|]. split; [exact E1|].
  unfold i2c_send_ack_or_nack. assert (E2 : forall f : unit -> MI Z, ((if ack then SET_SDA false else mret tt) ;; i2c_delay ≫= f) (I2c false true (Monitor None new es) h1) =
    f tt (I2c false (negb ack) (Monitor None new es) h2)) by (intros f; unfold h2; by destruct ack).
  rewrite (E2 (fun _ => _)), (bind_run _ _ _ _ _ E3), bool_decide_false by done.
  unfold SCL_L, SET_SCL. munfold. unfold drive, mon_drive, mon_bit. cbn [mo_slot mo_bits mo_events i_mon i_hw i_scl i_sda]. rewrite bool_decide_true by done.
  by rewrite negb_involutive.
Qed.

(** *** Messages *)

(** In a transaction with the clock low, between frames. *)
Definition between (es : list bus_event) (s : i2c B) : Prop := i_scl s = false /\ i_mon s = Monitor None [] es.

Lemma between_run {A} (c : MI A) es s (Q : A -> i2c B -> Prop) :
  between es s -> (forall sda h, exists a s', c (I2c false sda (Monitor None [] es) h) = Some (a, s') /\ Q a s') -> exists a s', c s = Some (a, s') /\ Q a s'.
Proof. destruct s as [scl sda m h]. intros [Hs Hm] H. cbn in *. subst. apply H. Qed.

Lemma writeb_between data es s : is_byte data -> between es s ->
  exists (ack : bool) s', i2c_writeb data s = Some (if ack then 1 else 0, s') /\ between (es ++ [EFrame data ack]) s'.
Proof. destruct s as [scl sda m h]. intros Hd [Hs Hm]. cbn in *. subst. destruct (writeb_ok data sda es h Hd) as (ack & h' & E). exists ack. eexists. by split. Qed.
Lemma restart_between es s : between es s -> exists s', i2c_restart s = Some (tt, s') /\ between (es ++ [EStart]) s'.
Proof. destruct s as [scl sda m h]. intros [Hs Hm]. cbn in *. subst. destruct (restart_low sda [] es h) as (h' & E). eexists. by split. Qed.
Lemma again_between es s : between es s ->
  exists s', (i2c_stop ;; i2c_delay2 ;; i2c_start) s = Some (tt, s') /\ between (es ++ [EStop; EStart]) s'.
Proof.
  destruct s as [scl sda m h]. intros [Hs Hm]. cbn in *. subst. destruct (stop_high sda [] es h) as (h1 & E1).
  rewrite (bind_run _ _ _ _ _ E1). rewrite (bind_run i2c_delay2 _ _ tt (I2c true true (Monitor None [] (es ++ [EStop])) (hw_udelay hw (op_delay_us ops) h1))) by done.
  destruct (start_low (Monitor None [] (es ++ [EStop])) (hw_udelay hw (op_delay_us ops) h1)) as (h2 & E2). eexists. split; [exact E2|]. split; [done|]. cbn. by rewrite <- app_assoc.
Qed.
Lemma read_between ack es s : between es s -> exists v s1 s', is_byte v /\ i2c_readb s = Some (v, s1) /\
  i2c_send_ack_or_nack ack s1 = Some (RT_EOK, s') /\ between (es ++ [EFrame v ack]) s'.
Proof.
  destruct s as [scl sda m h]. intros [Hs Hm]. cbn in *. subst. destruct (read_frame_ok ack sda es h) as (v & s1 & h' & Hv & E1 & E2). exists v, s1. eexists. by split_and!.
Qed.

Lemma address_ok addr n : is_byte addr -> forall es s, between es s ->
  exists (ok : bool) es' s', i2c_send_address addr n s = Some (if ok then 1 else 0, s') /\ addressed addr n es' ok /\ between (es ++ es') s'.
Proof.
  intros Ha. induction n as [|n IH]; intros es s Hs; cbn [i2c_send_address]; destruct (writeb_between addr es s Ha Hs) as (ack & s1 & E1 & H1); rewrite (bind_run _ _ _ _ _ E1).
  - exists ack, [EFrame addr ack], s1. split_and!; [done| |done]. destruct ack; constructor.
  - destruct ack; [rewrite bool_decide_true by done; exists true, [EFrame addr true], s1; split_and!; [done|constructor|done]|].
    rewrite bool_decide_false by done. destruct (again_between _ s1 H1) as (s2 & E2 & H2).
    destruct (IH _ s2 H2) as (ok & es' & s3 & E3 & H3 & H4). exists ok, (EFrame addr false :: EStop :: EStart :: es'), s3. split_and!; [|by constructor|].
    + rewrite <- E3. revert E2. munfold. destruct (i2c_stop s1) as [[[] x]|]; [|done]. destruct (i2c_delay2 x) as [[[] y]|]; [|done]. by intros ->.
    + by rewrite <- !app_assoc in H4.
Qed.

Lemma send_bytes_ok ign buf : forall bytes es s, Forall is_byte buf -> between es s -> 0 <= bytes ->
  exists ret es' ok s', i2c_send_bytes ign buf bytes s = Some (ret, s') /\ sent ign buf es' ok /\ between (es ++ es') s' /\
    (if ok then ret = bytes + Z.of_nat (length buf) else ret = 0 /\ buf <> []).
Proof.
  induction buf as [|d buf IH]; intros bytes es s Hb Hs Hn; cbn [i2c_send_bytes].
  - exists bytes, [], true, s. rewrite app_nil_r. split_and!; [done|constructor|done|cbn; lia].
  - apply Forall_cons in Hb as [Hd Hb]. destruct (writeb_between d es s Hd Hs) as (ack & s1 & E1 & H1). rewrite (bind_run _ _ _ _ _ E1).
    assert (Hcase : ack = true \/ ign = true \/ ack = false /\ ign = false) by (destruct ack, ign; auto).
    assert (Hgo : ack = true \/ ign = true -> exists ret es' ok s', i2c_send_bytes ign buf (bytes + 1) s1 = Some (ret, s') /\ sent ign (d :: buf) es' ok /\
      between (es ++ es') s' /\ (if ok then ret = bytes + Z.of_nat (length (d :: buf)) else ret = 0 /\ d :: buf <> [])).
    { intros Hok. destruct (IH (bytes + 1) _ s1 Hb H1 ltac:(lia)) as (ret & es' & ok & s' & E & Hse & Hbt & Hret).
      exists ret, (EFrame d ack :: es'), ok, s'. rewrite <- app_assoc in Hbt. split_and!; [done|by constructor|done|].
      destruct ok; [cbn [length]; lia|]. split; [apply Hret|done]. }
    destruct ack; cbn; [apply Hgo; by left|]. destruct ign; cbn; [apply Hgo; by right|].
    exists 0, [EFrame d false], false, s1. split_and!; [done|by constructor|done..].
Qed.

Lemma recv_bytes_ok buf : forall bytes es s, between es s ->
  exists data s', i2c_recv_bytes false buf bytes s = Some ((bytes + Z.of_nat (length buf), data), s') /\ Forall is_byte data /\ length data = length buf /\
    between (es ++ recv_events data) s'.
Proof.
  induction buf as [|d buf IH]; intros bytes es s Hs; cbn [i2c_recv_bytes].
  - exists [], s. cbn. rewrite app_nil_r, Z.add_0_r. by split_and!.
  - destruct (read_between (bool_decide (buf <> [])) es s Hs) as (v & s1 & s2 & Hv & E1 & E2 & H2). rewrite (bind_run _ _ _ _ _ E1).
    unfold is_byte in Hv. rewrite bool_decide_true by lia. rewrite (bind_run _ _ _ _ _ E2), bool_decide_false by done.
    destruct (IH (bytes + 1) _ s2 H2) as (data & s3 & E3 & Hd & Hl & H3). rewrite (bind_run _ _ _ _ _ E3). exists (v :: data), s3. cbn [fst snd length]. split_and!.
    + unfold mret, M_ret. do 3 f_equal. lia.
    + by constructor.
    + by rewrite Hl.
    + cbn [recv_events]. rewrite <- app_assoc in H3. assert (bool_decide (data <> []) = bool_decide (buf <> [])) as ->; [|apply H3].
      destruct data, buf; done.
Qed.

(** Addresses that fit their form. *)
Definition addr_ok (msg : rt_i2c_msg) : Prop := 0 <= m_addr msg < (if has_mflag msg RT_I2C_ADDR_10BIT then 1024 else 128).

Lemma refused_spec ign (ok : bool) : bool_decide ((if ok then 1 else 0) <> 1) && negb ign = negb (ok || ign).
Proof. by destruct ok, ign. Qed.

Lemma send_address_ok retries msg es s : addr_ok msg -> between es s ->
  exists (ok : bool) es' s', i2c_bit_send_address retries msg s = Some (if ok then RT_EOK else - RT_EIO, s') /\ addr_trace retries msg es' ok /\ between (es ++ es') s'.
Proof.
  intros Ha Hs. unfold addr_ok in Ha. unfold i2c_bit_send_address. fold (ignores msg) (reads msg). destruct (has_mflag msg RT_I2C_ADDR_10BIT) eqn:E10.
  - rewrite (ten_bit_first _ Ha), (low_byte _), (ten_bit_again _ Ha).
    destruct (address_ok (0xf0 + 2 * (m_addr msg / 256)) (if ignores msg then 0%nat else retries) (ten_bit_byte _ 0xf0 Ha ltac:(lia)) es s Hs) as (ok & es1 & s1 & E1 & T1 & H1).
    rewrite (bind_run _ _ _ _ _ E1), refused_spec. destruct (ok || ignores msg) eqn:Eo; cbn [negb].
    2: { apply orb_false_iff in Eo as [-> Hi]. rewrite Hi in T1. exists false, es1, s1. split_and!; [done|by apply at_ten_first|done]. }
    destruct (writeb_between (m_addr msg mod 256) _ s1 (Z.mod_pos_bound _ 256 ltac:(lia)) H1) as (ack & s2 & E2 & H2). rewrite (bind_run _ _ _ _ _ E2), refused_spec. rewrite <- app_assoc in H2.
    destruct (ack || ignores msg) eqn:Ek; cbn [negb].
    2: { apply orb_false_iff in Ek as [-> Hi]. rewrite Hi, orb_false_r in Eo. rewrite Hi in T1. exists false. do 2 eexists. split_and!; [done|by eapply at_ten_second|done]. }
    assert (Hgood : ignores msg = false -> ok = true /\ ack = true) by (intros Hi; by rewrite Hi, !orb_false_r in *).
    destruct (reads msg) eqn:Er; [|exists true; do 2 eexists; split_and!; [done|by eapply at_ten_write|done]].
    destruct (restart_between _ s2 H2) as (s3 & E3 & H3). rewrite (bind_run _ _ _ _ _ E3).
    destruct (address_ok (0xf1 + 2 * (m_addr msg / 256)) (if ignores msg then 0%nat else retries) (ten_bit_byte _ 0xf1 Ha ltac:(lia)) _ s3 H3) as (ok2 & es2 & s4 & E4 & T4 & H4).
    rewrite (bind_run _ _ _ _ _ E4), refused_spec. exists (ok2 || ignores msg), (es1 ++ EFrame (m_addr msg mod 256) ack :: EStart :: es2), s4. split_and!; [by destruct (ok2 || ignores msg)|by eapply at_ten_read|].
    by rewrite <- !app_assoc in H4.
  - rewrite (seven_bit _ _ Ha). destruct (address_ok (2 * m_addr msg + rw_bit msg) (if ignores msg then 0%nat else retries)) with (2 := Hs) as (ok & es1 & s1 & E1 & T1 & H1).
    { unfold is_byte, rw_bit. destruct (reads msg); lia. }
    rewrite (bind_run _ _ _ _ _ E1), refused_spec. exists (ok || ignores msg), es1, s1. split_and!; [by destruct (ok || ignores msg)|by apply at_seven|done].
Qed.
(** Messages that the driver can send: bytes in the buffer, an address of its form, and readers that
    acknowledge. *)
Definition msg_ok (msg : rt_i2c_msg) : Prop :=
  Forall is_byte (m_buf msg) /\ (has_mflag msg RT_I2C_NO_START = false -> addr_ok msg) /\ has_mflag msg RT_I2C_NO_READ_ACK = false.

Lemma xfer_data_ok msg es s : msg_ok msg -> between es s ->
  exists (ok : bool) data es' s', xfer_data msg s = Some ((if ok then None else Some (- RT_ERROR), data), s') /\ data_trace msg es' data ok /\ between (es ++ es') s'.
Proof.
  intros (Hb & _ & Hack) Hs. unfold xfer_data. rewrite Hack. fold (reads msg) (ignores msg). destruct (reads msg) eqn:Er.
  - destruct (recv_bytes_ok (m_buf msg) 0 es s Hs) as (data & s' & E & Hd & Hl & H'). rewrite (bind_run _ _ _ _ _ E). cbn [fst snd]. rewrite bool_decide_false by lia.
    exists true, data, (recv_events data), s'. split_and!; [done|by apply dt_read|done].
  - destruct (send_bytes_ok (ignores msg) (m_buf msg) 0 es s Hb Hs ltac:(lia)) as (ret & es' & ok & s' & E & Hse & H' & Hret). rewrite (bind_run _ _ _ _ _ E).
    exists ok, (m_buf msg), es', s'. split_and!; [|by apply dt_write|done]. destruct ok; [by rewrite bool_decide_false by lia|].
    destruct Hret as [-> Hne]. destruct (m_buf msg); [done|]. by rewrite bool_decide_true by (cbn; lia).
Qed.

Lemma addr_trace_ignores retries msg es : addr_trace retries msg es false -> ignores msg = false.
Proof.
  intros H. remember false as r eqn:Er. destruct H as [? ok| | |?? ?|???? ok2]; try done; [destruct ok|destruct ok2]; done.
Qed.

(** The part of [xfer_loop] before the data. *)
Lemma head_ok retries i msg es s : msg_ok msg -> between es s ->
  exists (ok : bool) es' s', (if has_mflag msg RT_I2C_NO_START then mret RT_EOK
      else (if bool_decide (i <> 0) then i2c_restart else mret tt) ;; i2c_bit_send_address retries msg) s = Some (if ok then RT_EOK else - RT_EIO, s') /\
    head_trace retries i msg es' ok /\ (ok = false -> ignores msg = false) /\ between (es ++ es') s'.
Proof.
  intros (_ & Ha & _) Hs. unfold head_trace. destruct (has_mflag msg RT_I2C_NO_START) eqn:En.
  { exists true, [], s. by rewrite app_nil_r. }
  assert (exists s1, (if bool_decide (i <> 0) then i2c_restart else mret tt) s = Some (tt, s1) /\ between (es ++ (if bool_decide (i <> 0) then [EStart] else [])) s1) as (s1 & E1 & H1).
  { case_bool_decide; [by apply restart_between|exists s; by rewrite app_nil_r]. }
  rewrite (bind_run _ _ _ _ _ E1). destruct (send_address_ok retries msg _ s1 (Ha eq_refl) H1) as (ok & es' & s2 & E2 & T2 & H2). rewrite <- app_assoc in H2.
  do 3 eexists. split_and!; [exact E2|by eexists| |done]. intros ->. by eapply addr_trace_ignores.
Qed.

Lemma xfer_loop_ok retries msgs : forall i es s, Forall msg_ok msgs -> between es s ->
  exists ret msgs' es' s', xfer_loop retries i msgs s = Some ((ret, msgs'), s') /\ xfer_trace retries i msgs es' ret msgs' /\ between (es ++ es') s'.
Proof.
  induction msgs as [|msg msgs IH]; intros i es s Hm Hs; cbn [xfer_loop].
  { exists i, [], [], s. rewrite app_nil_r. split_and!; [done|constructor|done]. }
  apply Forall_cons in Hm as [Hmsg Hm]. destruct (head_ok retries i msg es s Hmsg Hs) as (ok & es1 & s1 & E1 & T1 & Hi & H1). rewrite (bind_run _ _ _ _ _ E1). clear E1.
  fold (ignores msg). destruct ok; cycle 1.
  { rewrite (Hi eq_refl), bool_decide_true by done. do 4 eexists. split_and!; [done|by apply xt_no_device|done]. }
  rewrite bool_decide_false by naive_solver. cbn [andb]. destruct (xfer_data_ok msg _ s1 Hmsg H1) as (ok & data & es2 & s2 & E2 & T2 & H2). rewrite (bind_run _ _ _ _ _ E2). cbn [fst snd].
  destruct ok; cycle 1.
  { do 4 eexists. split_and!; [done|by eapply xt_nack|by rewrite app_assoc]. }
  destruct (IH (i + 1) _ s2 Hm H2) as (ret & msgs' & es3 & s3 & E3 & T3 & H3). rewrite (bind_run _ _ _ _ _ E3).
  do 4 eexists. split_and!; [done|by eapply xt_next|by rewrite !app_assoc].
Qed.
End Free.
End Driver.

(** C21: a transfer on the bit-banged bus.  From an idle bus, with slaves that leave the clock alone and
    answer as they like, [i2c_bit_xfer] ends; what a listener sees between START and STOP is one of the
    transactions that the I2C bus allows for the messages (addresses of seven or ten bits with their
    retries, repeated STARTs, the data up to the first byte that is refused, every byte but the last one
    read acknowledged), the result and the buffers are those of that transaction, and both lines are
    released. *)
Theorem i2c_xfer_refines {B} (hw : I2cHw B) ops fuel retries msgs s :
  (0 < fuel)%nat -> (forall sda b, hw_scl hw (hw_set hw true sda b) = true) -> Forall msg_ok msgs -> i_scl s = true -> i_sda s = true ->
  exists ret msgs' es s', i2c_bit_xfer hw ops fuel retries msgs s = Some ((ret, msgs'), s') /\ xfer_trace retries 0 msgs es ret msgs' /\
    mo_events (i_mon s') = mo_events (i_mon s) ++ EStart :: es ++ [EStop] /\ i_scl s' = true /\ i_sda s' = true.
Proof.
  intros Hfuel Hfree Hm Hc Hd. destruct s as [scl sda m h]. cbn in Hc, Hd. subst. unfold i2c_bit_xfer.
  destruct (start_low hw ops m h) as (h1 & E1). rewrite (bind_run _ _ _ _ _ E1).
  destruct (xfer_loop_ok hw ops fuel Hfuel Hfree retries msgs 0 (mo_events m ++ [EStart]) (I2c false false (Monitor None [] (mo_events m ++ [EStart])) h1) Hm ltac:(done)) as (ret & msgs' & es & s2 & E2 & T & H2).
  rewrite (bind_run _ _ _ _ _ E2). destruct s2 as [scl sda m2 h2], H2 as [Hs2 Hm2]. cbn in Hs2, Hm2. subst.
  destruct (stop_high hw ops fuel Hfuel Hfree sda [] ((mo_events m ++ [EStart]) ++ es) h2) as (h3 & E3). rewrite (bind_run _ _ _ _ _ E3).
  do 4 eexists. split_and!; [done|done| |done|done]. cbn. by rewrite <- !app_assoc.
Qed.

(** ** Slaves that hold the clock *)

(** From every state the operation returns, with a value in [Q]. *)
Definition returns {B A} (Q : A -> Prop) (c : M (i2c B) A) : Prop := forall s, exists a s', c s = Some (a, s') /\ Q a.

Lemma returns_ret {B A} (Q : A -> Prop) (a : A) : Q a -> returns Q (mret a : M (i2c B) A).
Proof. intros H s. by exists a, s. Qed.
Lemma returns_bind {B A C} (P : A -> Prop) (Q : C -> Prop) (c : M (i2c B) A) (f : A -> M (i2c B) C) :
  returns P c -> (forall a, P a -> returns Q (f a)) -> returns Q (c ≫= f).
Proof. intros Hc Hf s. destruct (Hc s) as (a & s1 & E & Ha). rewrite (bind_run _ _ _ _ _ E). by apply Hf. Qed.
Lemma returns_mono {B A} (P Q : A -> Prop) (c : M (i2c B) A) : returns P c -> (forall a, P a -> Q a) -> returns Q c.
Proof. intros Hc H s. destruct (Hc s) as (a & s1 & E & Ha). exists a, s1. auto. Qed.

Section Held.
Context {B : Type} (hw : I2cHw B) (ops : rt_i2c_bit_ops) (fuel : nat).
(** A sleep of [n] ticks, which are at most 2^30, lasts at least that long and less than 2^31 ticks. *)
Definition sleeps : Prop := forall n b, 0 <= n <= 2 ^ 30 -> exists d, n <= d < 2 ^ 31 /\ hw_tick hw (hw_sleep hw n b) = u32 (hw_tick hw b + d).
Context (Hfuel : (4 <= fuel)%nat) (Hsleep : sleeps) (Htime : 1 <= op_timeout ops < 2 ^ 31).

Definition any {A} (a : A) : Prop := True.
(** [RT_EOK] or a timeout. *)
Definition in_time (r : Z) : Prop := r = RT_EOK \/ r = - RT_ETIMEOUT.

Lemma elapsed_add now start d e : e = u32 (now - start) -> 0 <= d -> e + d < 2 ^ 32 -> u32 (u32 (now + d) - start) = e + d.
Proof.
  intros -> Hd He. unfold wrap in *. rewrite Zminus_mod_idemp_l. replace (now + d - start) with (now - start + d) by lia.
  rewrite <- Zplus_mod_idemp_l. pose proof (Z.mod_pos_bound (now - start) (2 ^ 32) ltac:(lia)). apply Z.mod_small. lia.
Qed.

Abbreviation nap := (Z.shiftr (u32 (op_timeout ops + 1)) 1).
Lemma nap_half : nap = (op_timeout ops + 1) / 2.
Proof. rewrite (wrap_id 32) by lia. by rewrite Z.shiftr_div_pow2 by lia. Qed.

Lemma scl_wait_returns f : forall start s e, e = u32 (hw_tick hw (i_hw s) - start) -> (1 <= f)%nat -> op_timeout ops < e + (Z.of_nat f - 1) * nap ->
  exists r s', scl_wait hw ops f start s = Some (r, s') /\ in_time r.
Proof.
  pose proof nap_half as Hn. pose proof (Z.div_mod (op_timeout ops + 1) 2 ltac:(lia)). pose proof (Z.mod_pos_bound (op_timeout ops + 1) 2 ltac:(lia)). rewrite <- Hn in *.
  induction f as [|f IH]; intros start s e He Hf Hlt; [lia|]. cbn [scl_wait]. unfold GET_SCL, tick_get. munfold. destruct (hw_scl hw (i_hw s)); [exists RT_EOK, s; split; [done|by left]|].
  munfold. rewrite <- He. case_bool_decide as Hout; [exists (- RT_ETIMEOUT), s; split; [done|by right]|]. unfold on_hw. munfold.
  destruct (Hsleep nap (i_hw s)) as (d & Hd & Etick); [lia|]. pose proof (wrap_range 32 (hw_tick hw (i_hw s) - start)) as Hr.
  apply (IH start _ (e + d)); cbn [i_hw]; [|nia|nia]. rewrite Etick. symmetry. apply elapsed_add; lia.
Qed.

Lemma SCL_H_returns : returns in_time (SCL_H hw ops fuel).
Proof.
  unfold SCL_H. apply (returns_bind any); [by do 2 eexists|intros _ _]. destruct (op_get_scl ops); [|do 2 eexists; split; [done|by left]].
  intros s. munfold. unfold tick_get. munfold. destruct (scl_wait_returns fuel (hw_tick hw (i_hw s)) s 0) as (r & s' & E & Hr).
  - by rewrite Z.sub_diag.
  - lia.
  - pose proof nap_half as Hn. pose proof (Z.div_mod (op_timeout ops + 1) 2 ltac:(lia)). pose proof (Z.mod_pos_bound (op_timeout ops + 1) 2 ltac:(lia)). nia.
  - rewrite E. case_bool_decide; do 2 eexists; (split; [done|]); [done|by left].
Qed.

Lemma step_returns (f : i2c B -> i2c B) : returns any (modify f).
Proof. intros s. by do 2 eexists. Qed.
Lemma get_sda_returns : returns any (GET_SDA hw).
Proof. intros s. by do 2 eexists. Qed.
Lemma delay_returns : returns any (i2c_delay hw ops).
Proof. apply step_returns. Qed.
Lemma delay2_returns : returns any (i2c_delay2 hw ops).
Proof. apply step_returns. Qed.
#[local] Hint Resolve step_returns get_sda_returns delay_returns delay2_returns SCL_H_returns : i2c.
#[local] Hint Extern 1 (returns _ (SET_SDA _ _)) => apply step_returns : i2c.
#[local] Hint Extern 1 (returns _ (SDA_L _)) => apply step_returns : i2c.
#[local] Hint Extern 1 (returns _ (SDA_H _)) => apply step_returns : i2c.
#[local] Hint Extern 1 (returns _ (SCL_L _)) => apply step_returns : i2c.

Ltac returns_steps := repeat match goal with
  | |- returns _ (mret _) => apply returns_ret
  | |- returns _ (if bool_decide _ then _ else _) => case_bool_decide
  | |- returns _ (if ?b then _ else _) => destruct b eqn:?
  | |- returns _ (_ ≫= _) => eapply returns_bind; [solve [eauto with i2c]|intros ? ?]
  end.

Lemma start_returns : returns any (i2c_start hw ops).
Proof. unfold i2c_start. returns_steps. apply step_returns. Qed.
Lemma restart_returns : returns any (i2c_restart hw ops fuel).
Proof. unfold i2c_restart. returns_steps. apply step_returns. Qed.
Lemma stop_returns : returns any (i2c_stop hw ops fuel).
Proof. unfold i2c_stop. returns_steps. apply step_returns. Qed.
#[local] Hint Resolve start_returns restart_returns stop_returns : i2c.

Definition answered (r : Z) : Prop := r = 0 \/ r = 1 \/ r = - RT_ETIMEOUT.
Lemma waitack_returns : returns answered (i2c_waitack hw ops fuel).
Proof. unfold i2c_waitack, answered. returns_steps; [auto|]. case_match; auto. Qed.
Lemma writeb_loop_returns n data : returns in_time (writeb_loop hw ops fuel n data).
Proof. induction n as [|n IH]; cbn [writeb_loop]; returns_steps; [by left|by right|done]. Qed.
#[local] Hint Resolve waitack_returns writeb_loop_returns : i2c.
Lemma writeb_returns data : returns answered (i2c_writeb hw ops fuel data).
Proof.
  unfold i2c_writeb. returns_steps; [|apply waitack_returns]. right. right. by destruct H as [-> | ->].
Qed.

Definition byte_or_timeout (r : Z) : Prop := 0 <= r \/ r = - RT_ETIMEOUT.
Lemma readb_loop_returns n : forall data, 0 <= data -> returns byte_or_timeout (readb_loop hw ops fuel n data).
Proof.
  induction n as [|n IH]; intros data Hd; cbn [readb_loop]; returns_steps; [by left|by right|]. apply IH.
  pose proof (wrap_range 8 (Z.shiftl data 1) ltac:(lia)). case_match; [|lia]. apply Z.lor_nonneg. lia.
Qed.
Lemma readb_returns : returns byte_or_timeout (i2c_readb hw ops fuel).
Proof. unfold i2c_readb. returns_steps. by apply readb_loop_returns. Qed.
Lemma ack_returns ack : returns in_time (i2c_send_ack_or_nack hw ops fuel ack).
Proof.
  unfold i2c_send_ack_or_nack. eapply (returns_bind any); [destruct ack; [apply step_returns|by apply returns_ret]|intros _ _]. returns_steps; [by right|by left].
Qed.
#[local] Hint Resolve writeb_returns readb_returns ack_returns : i2c.

Lemma send_bytes_returns ign buf : forall bytes,
  returns (fun r => r = bytes + Z.of_nat (length buf) \/ r = 0 \/ r = - RT_ETIMEOUT) (i2c_send_bytes hw ops fuel ign buf bytes).
Proof.
  induction buf as [|d buf IH]; intros bytes; cbn [i2c_send_bytes]; [returns_steps; left; cbn; lia|].
  eapply returns_bind; [apply writeb_returns|]. intros a Ha. destruct (_ || _) eqn:Eo.
  - eapply returns_mono; [apply IH|]. cbn [length]. intros r. lia.
  - apply orb_false_iff in Eo as [Ep%bool_decide_eq_false _]. returns_steps; [auto|]. destruct Ha as [-> | [-> | ->]]; auto; lia.
Qed.
Lemma recv_bytes_returns no_ack buf : forall bytes, 0 <= bytes ->
  returns (fun r => bytes <= fst r \/ fst r = - RT_ETIMEOUT) (i2c_recv_bytes hw ops fuel no_ack buf bytes).
Proof.
  induction buf as [|d buf IH]; intros bytes Hb; cbn [i2c_recv_bytes]; returns_steps; [cbn; lia| |cbn; lia].
  eapply (returns_bind in_time); [destruct no_ack; [by apply returns_ret; left|apply ack_returns]|intros r Hr]. case_bool_decide.
  - apply returns_ret. right. by destruct Hr as [-> | ->].
  - eapply returns_bind; [apply IH; lia|]. intros r' Hr'. apply returns_ret. cbn [fst] in *. lia.
Qed.
Lemma send_address_returns addr n : returns any (i2c_send_address hw ops fuel addr n).
Proof. induction n as [|n IH]; cbn [i2c_send_address]; returns_steps; done. Qed.
#[local] Hint Resolve send_bytes_returns recv_bytes_returns send_address_returns : i2c.

Definition found (r : Z) : Prop := r = RT_EOK \/ r = - RT_EIO.
Lemma bit_send_address_returns retries msg : returns found (i2c_bit_send_address hw ops fuel retries msg).
Proof. unfold i2c_bit_send_address, found. returns_steps; auto. Qed.

(** The errors of a transfer. *)
Definition i2c_error (r : Z) : Prop := r = - RT_EIO \/ r = - RT_ERROR \/ r = - RT_ETIMEOUT.
Lemma xfer_data_returns msg : returns (fun d => match fst d with Some e => i2c_error e | None => True end) (xfer_data hw ops fuel msg).
Proof.
  unfold xfer_data, i2c_error. destruct (has_mflag msg RT_I2C_RD).
  - eapply returns_bind; [by apply recv_bytes_returns|]. intros r Hr. apply returns_ret. cbn [fst] in *. repeat case_bool_decide; auto. right. right. lia.
  - eapply returns_bind; [apply send_bytes_returns|]. intros r Hr. apply returns_ret. cbn [fst] in *. repeat case_bool_decide; auto. right. right. lia.
Qed.
Lemma xfer_loop_returns retries msgs : forall i,
  returns (fun r => fst r = i + Z.of_nat (length msgs) \/ i2c_error (fst r)) (xfer_loop hw ops fuel retries i msgs).
Proof.
  induction msgs as [|msg msgs IH]; intros i; cbn [xfer_loop]; [apply returns_ret; left; cbn; lia|].
  eapply (returns_bind found).
  { destruct (has_mflag msg RT_I2C_NO_START); [by apply returns_ret; left|]. eapply (returns_bind any); [|intros _ _; apply bit_send_address_returns].
    case_bool_decide; [apply restart_returns|by apply returns_ret]. }
  intros r Hr. destruct (bool_decide _ && _) eqn:Eb.
  { apply returns_ret. right. left. cbn [fst]. apply andb_true_iff in Eb as [Eb%bool_decide_eq_true _]. by destruct Hr. }
  eapply returns_bind; [apply xfer_data_returns|]. intros [[e|] data] Hd; cbn [fst snd] in *; [apply returns_ret; by right|].
  eapply returns_bind; [apply IH|]. intros r' Hr'. apply returns_ret. cbn [fst length] in *. destruct Hr' as [-> | ?]; [left; lia|by right].
Qed.

Lemma scl_wait_keeps f : forall start s r s', scl_wait hw ops f start s = Some (r, s') -> i_scl s' = i_scl s.
Proof.
  induction f as [|f IH]; intros start s r s'; cbn [scl_wait]; [done|]. unfold GET_SCL, tick_get, on_hw. munfold.
  destruct (hw_scl hw (i_hw s)); munfold; [by intros [= _ ->]|]. case_bool_decide; munfold; [by intros [= _ ->]|]. intros E. by rewrite (IH _ _ _ _ E).
Qed.
Lemma SCL_H_high s r s' : SCL_H hw ops fuel s = Some (r, s') -> i_scl s' = true.
Proof.
  unfold SCL_H, SET_SCL, tick_get, i2c_delay, udelay, on_hw. munfold. destruct (op_get_scl ops); munfold; [|by intros [= _ <-]].
  destruct (scl_wait _ _ _ _ _) as [[r1 s1]|] eqn:E; [|done]. apply scl_wait_keeps in E. case_bool_decide; munfold; by intros [= _ <-].
Qed.
(** A STOP releases both lines even if a slave holds the clock. *)
Lemma stop_releases s : exists s', i2c_stop hw ops fuel s = Some (tt, s') /\ i_scl s' = true /\ i_sda s' = true.
Proof.
  unfold i2c_stop, SDA_L, SET_SDA, i2c_delay, udelay, on_hw. munfold. match goal with |- context [SCL_H hw ops fuel ?x] => destruct (SCL_H_returns x) as (r & s1 & E & _) end.
  rewrite E. apply SCL_H_high in E. unfold SDA_H, SET_SDA, i2c_delay2, udelay, on_hw. munfold. eexists. split; [done|]. by cbn.
Qed.
End Held.

(** C22: transfers end.  Whatever the slaves do with the two lines, also when one of them holds the clock
    for ever, [i2c_bit_xfer] returns (a wait for the clock takes at most four rounds), with the number of
    messages or one of its three errors, and it leaves both lines released. *)
Theorem i2c_xfer_returns {B} (hw : I2cHw B) ops fuel retries msgs s : (4 <= fuel)%nat -> sleeps hw -> 1 <= op_timeout ops < 2 ^ 31 ->
  exists ret msgs' s', i2c_bit_xfer hw ops fuel retries msgs s = Some ((ret, msgs'), s') /\
    (ret = Z.of_nat (length msgs) \/ i2c_error ret) /\ i_scl s' = true /\ i_sda s' = true.
Proof.
  intros Hf Hs Ht. unfold i2c_bit_xfer. destruct (start_returns hw ops s) as ([] & s1 & E1 & _). rewrite (bind_run _ _ _ _ _ E1).
  destruct (xfer_loop_returns hw ops fuel Hf Hs Ht retries msgs 0 s1) as ([ret msgs'] & s2 & E2 & Hret). rewrite (bind_run _ _ _ _ _ E2).
  destruct (stop_releases hw ops fuel Hf Hs Ht s2) as (s3 & E3 & H3). rewrite (bind_run _ _ _ _ _ E3). by exists ret, msgs', s3.
Qed.
