(* ===== verification/Crc.v ===== *)
(** * Cyclic redundancy checks (packages/crclib-v1.00/src)

    crc8.c, crc16.c and crc32.c: the constant tables, the functions that compute a table
    in RAM, and the table-driven check sums.  A table is an argument of the check sum
    functions in place of the static array of the file; the build of rtconfig.h selects
    the constant tables of the polynomials 0x8C, 0xA001 and 0xEDB88320.  A buffer is the
    list of the bytes that may be read at [pdata]; reading past it is undefined ([None]).

    The reference is the shift register [crc_reg], which takes the bits of the message one
    at a time.  The table-driven functions compute it for each of the six tables
    ([crc_table_driven]), and it tells apart any two messages that differ within a window
    as long as the check sum ([crc_detects_burst]). *)
From S2P Require Import Prelude.
From stdpp Require Import base list.
From Stdlib Require Import ZArith Lia.
#[local] Open Scope Z_scope.

(** ** Constant tables *)

Definition crc8_table_8C : list Z := [
  0x00; 0x5E; 0xBC; 0xE2; 0x61; 0x3F; 0xDD; 0x83;
  0xC2; 0x9C; 0x7E; 0x20; 0xA3; 0xFD; 0x1F; 0x41;
  0x9D; 0xC3; 0x21; 0x7F; 0xFC; 0xA2; 0x40; 0x1E;
  0x5F; 0x01; 0xE3; 0xBD; 0x3E; 0x60; 0x82; 0xDC;
  0x23; 0x7D; 0x9F; 0xC1; 0x42; 0x1C; 0xFE; 0xA0;
  0xE1; 0xBF; 0x5D; 0x03; 0x80; 0xDE; 0x3C; 0x62;
  0xBE; 0xE0; 0x02; 0x5C; 0xDF; 0x81; 0x63; 0x3D;
  0x7C; 0x22; 0xC0; 0x9E; 0x1D; 0x43; 0xA1; 0xFF;
  0x46; 0x18; 0xFA; 0xA4; 0x27; 0x79; 0x9B; 0xC5;
  0x84; 0xDA; 0x38; 0x66; 0xE5; 0xBB; 0x59; 0x07;
  0xDB; 0x85; 0x67; 0x39; 0xBA; 0xE4; 0x06; 0x58;
  0x19; 0x47; 0xA5; 0xFB; 0x78; 0x26; 0xC4; 0x9A;
  0x65; 0x3B; 0xD9; 0x87; 0x04; 0x5A; 0xB8; 0xE6;
  0xA7; 0xF9; 0x1B; 0x45; 0xC6; 0x98; 0x7A; 0x24;
  0xF8; 0xA6; 0x44; 0x1A; 0x99; 0xC7; 0x25; 0x7B;
  0x3A; 0x64; 0x86; 0xD8; 0x5B; 0x05; 0xE7; 0xB9;
  0x8C; 0xD2; 0x30; 0x6E; 0xED; 0xB3; 0x51; 0x0F;
  0x4E; 0x10; 0xF2; 0xAC; 0x2F; 0x71; 0x93; 0xCD;
  0x11; 0x4F; 0xAD; 0xF3; 0x70; 0x2E; 0xCC; 0x92;
  0xD3; 0x8D; 0x6F; 0x31; 0xB2; 0xEC; 0x0E; 0x50;
  0xAF; 0xF1; 0x13; 0x4D; 0xCE; 0x90; 0x72; 0x2C;
  0x6D; 0x33; 0xD1; 0x8F; 0x0C; 0x52; 0xB0; 0xEE;
  0x32; 0x6C; 0x8E; 0xD0; 0x53; 0x0D; 0xEF; 0xB1;
  0xF0; 0xAE; 0x4C; 0x12; 0x91; 0xCF; 0x2D; 0x73;
  0xCA; 0x94; 0x76; 0x28; 0xAB; 0xF5; 0x17; 0x49;
  0x08; 0x56; 0xB4; 0xEA; 0x69; 0x37; 0xD5; 0x8B;
  0x57; 0x09; 0xEB; 0xB5; 0x36; 0x68; 0x8A; 0xD4;
  0x95; 0xCB; 0x29; 0x77; 0xF4; 0xAA; 0x48; 0x16;
  0xE9; 0xB7; 0x55; 0x0B; 0x88; 0xD6; 0x34; 0x6A;
  0x2B; 0x75; 0x97; 0xC9; 0x4A; 0x14; 0xF6; 0xA8;
  0x74; 0x2A; 0xC8; 0x96; 0x15; 0x4B; 0xA9; 0xF7;
  0xB6; 0xE8; 0x0A; 0x54; 0xD7; 0x89; 0x6B; 0x35].

Definition crc8_table_D9 : list Z := [
  0x00; 0xD0; 0x13; 0xC3; 0x26; 0xF6; 0x35; 0xE5;
  0x4C; 0x9C; 0x5F; 0x8F; 0x6A; 0xBA; 0x79; 0xA9;
  0x98; 0x48; 0x8B; 0x5B; 0xBE; 0x6E; 0xAD; 0x7D;
  0xD4; 0x04; 0xC7; 0x17; 0xF2; 0x22; 0xE1; 0x31;
  0x83; 0x53; 0x90; 0x40; 0xA5; 0x75; 0xB6; 0x66;
  0xCF; 0x1F; 0xDC; 0x0C; 0xE9; 0x39; 0xFA; 0x2A;
  0x1B; 0xCB; 0x08; 0xD8; 0x3D; 0xED; 0x2E; 0xFE;
  0x57; 0x87; 0x44; 0x94; 0x71; 0xA1; 0x62; 0xB2;
  0xB5; 0x65; 0xA6; 0x76; 0x93; 0x43; 0x80; 0x50;
  0xF9; 0x29; 0xEA; 0x3A; 0xDF; 0x0F; 0xCC; 0x1C;
  0x2D; 0xFD; 0x3E; 0xEE; 0x0B; 0xDB; 0x18; 0xC8;
  0x61; 0xB1; 0x72; 0xA2; 0x47; 0x97; 0x54; 0x84;
  0x36; 0xE6; 0x25; 0xF5; 0x10; 0xC0; 0x03; 0xD3;
  0x7A; 0xAA; 0x69; 0xB9; 0x5C; 0x8C; 0x4F; 0x9F;
  0xAE; 0x7E; 0xBD; 0x6D; 0x88; 0x58; 0x9B; 0x4B;
  0xE2; 0x32; 0xF1; 0x21; 0xC4; 0x14; 0xD7; 0x07;
  0xD9; 0x09; 0xCA; 0x1A; 0xFF; 0x2F; 0xEC; 0x3C;
  0x95; 0x45; 0x86; 0x56; 0xB3; 0x63; 0xA0; 0x70;
  0x41; 0x91; 0x52; 0x82; 0x67; 0xB7; 0x74; 0xA4;
  0x0D; 0xDD; 0x1E; 0xCE; 0x2B; 0xFB; 0x38; 0xE8;
  0x5A; 0x8A; 0x49; 0x99; 0x7C; 0xAC; 0x6F; 0xBF;
  0x16; 0xC6; 0x05; 0xD5; 0x30; 0xE0; 0x23; 0xF3;
  0xC2; 0x12; 0xD1; 0x01; 0xE4; 0x34; 0xF7; 0x27;
  0x8E; 0x5E; 0x9D; 0x4D; 0xA8; 0x78; 0xBB; 0x6B;
  0x6C; 0xBC; 0x7F; 0xAF; 0x4A; 0x9A; 0x59; 0x89;
  0x20; 0xF0; 0x33; 0xE3; 0x06; 0xD6; 0x15; 0xC5;
  0xF4; 0x24; 0xE7; 0x37; 0xD2; 0x02; 0xC1; 0x11;
  0xB8; 0x68; 0xAB; 0x7B; 0x9E; 0x4E; 0x8D; 0x5D;
  0xEF; 0x3F; 0xFC; 0x2C; 0xC9; 0x19; 0xDA; 0x0A;
  0xA3; 0x73; 0xB0; 0x60; 0x85; 0x55; 0x96; 0x46;
  0x77; 0xA7; 0x64; 0xB4; 0x51; 0x81; 0x42; 0x92;
  0x3B; 0xEB; 0x28; 0xF8; 0x1D; 0xCD; 0x0E; 0xDE].

Definition crc16_table_A001 : list Z := [
  0x0000; 0xC0C1; 0xC181; 0x0140; 0xC301; 0x03C0; 0x0280; 0xC241;
  0xC601; 0x06C0; 0x0780; 0xC741; 0x0500; 0xC5C1; 0xC481; 0x0440;
  0xCC01; 0x0CC0; 0x0D80; 0xCD41; 0x0F00; 0xCFC1; 0xCE81; 0x0E40;
  0x0A00; 0xCAC1; 0xCB81; 0x0B40; 0xC901; 0x09C0; 0x0880; 0xC841;
  0xD801; 0x18C0; 0x1980; 0xD941; 0x1B00; 0xDBC1; 0xDA81; 0x1A40;
  0x1E00; 0xDEC1; 0xDF81; 0x1F40; 0xDD01; 0x1DC0; 0x1C80; 0xDC41;
  0x1400; 0xD4C1; 0xD581; 0x1540; 0xD701; 0x17C0; 0x1680; 0xD641;
  0xD201; 0x12C0; 0x1380; 0xD341; 0x1100; 0xD1C1; 0xD081; 0x1040;
  0xF001; 0x30C0; 0x3180; 0xF141; 0x3300; 0xF3C1; 0xF281; 0x3240;
  0x3600; 0xF6C1; 0xF781; 0x3740; 0xF501; 0x35C0; 0x3480; 0xF441;
  0x3C00; 0xFCC1; 0xFD81; 0x3D40; 0xFF01; 0x3FC0; 0x3E80; 0xFE41;
  0xFA01; 0x3AC0; 0x3B80; 0xFB41; 0x3900; 0xF9C1; 0xF881; 0x3840;
  0x2800; 0xE8C1; 0xE981; 0x2940; 0xEB01; 0x2BC0; 0x2A80; 0xEA41;
  0xEE01; 0x2EC0; 0x2F80; 0xEF41; 0x2D00; 0xEDC1; 0xEC81; 0x2C40;
  0xE401; 0x24C0; 0x2580; 0xE541; 0x2700; 0xE7C1; 0xE681; 0x2640;
  0x2200; 0xE2C1; 0xE381; 0x2340; 0xE101; 0x21C0; 0x2080; 0xE041;
  0xA001; 0x60C0; 0x6180; 0xA141; 0x6300; 0xA3C1; 0xA281; 0x6240;
  0x6600; 0xA6C1; 0xA781; 0x6740; 0xA501; 0x65C0; 0x6480; 0xA441;
  0x6C00; 0xACC1; 0xAD81; 0x6D40; 0xAF01; 0x6FC0; 0x6E80; 0xAE41;
  0xAA01; 0x6AC0; 0x6B80; 0xAB41; 0x6900; 0xA9C1; 0xA881; 0x6840;
  0x7800; 0xB8C1; 0xB981; 0x7940; 0xBB01; 0x7BC0; 0x7A80; 0xBA41;
  0xBE01; 0x7EC0; 0x7F80; 0xBF41; 0x7D00; 0xBDC1; 0xBC81; 0x7C40;
  0xB401; 0x74C0; 0x7580; 0xB541; 0x7700; 0xB7C1; 0xB681; 0x7640;
  0x7200; 0xB2C1; 0xB381; 0x7340; 0xB101; 0x71C0; 0x7080; 0xB041;
  0x5000; 0x90C1; 0x9181; 0x5140; 0x9301; 0x53C0; 0x5280; 0x9241;
  0x9601; 0x56C0; 0x5780; 0x9741; 0x5500; 0x95C1; 0x9481; 0x5440;
  0x9C01; 0x5CC0; 0x5D80; 0x9D41; 0x5F00; 0x9FC1; 0x9E81; 0x5E40;
  0x5A00; 0x9AC1; 0x9B81; 0x5B40; 0x9901; 0x59C0; 0x5880; 0x9841;
  0x8801; 0x48C0; 0x4980; 0x8941; 0x4B00; 0x8BC1; 0x8A81; 0x4A40;
  0x4E00; 0x8EC1; 0x8F81; 0x4F40; 0x8D01; 0x4DC0; 0x4C80; 0x8C41;
  0x4400; 0x84C1; 0x8581; 0x4540; 0x8701; 0x47C0; 0x4680; 0x8641;
  0x8201; 0x42C0; 0x4380; 0x8341; 0x4100; 0x81C1; 0x8081; 0x4040].

Definition crc16_table_8408 : list Z := [
  0x0000; 0x1189; 0x2312; 0x329B; 0x4624; 0x57AD; 0x6536; 0x74BF;
  0x8C48; 0x9DC1; 0xAF5A; 0xBED3; 0xCA6C; 0xDBE5; 0xE97E; 0xF8F7;
  0x1081; 0x0108; 0x3393; 0x221A; 0x56A5; 0x472C; 0x75B7; 0x643E;
  0x9CC9; 0x8D40; 0xBFDB; 0xAE52; 0xDAED; 0xCB64; 0xF9FF; 0xE876;
  0x2102; 0x308B; 0x0210; 0x1399; 0x6726; 0x76AF; 0x4434; 0x55BD;
  0xAD4A; 0xBCC3; 0x8E58; 0x9FD1; 0xEB6E; 0xFAE7; 0xC87C; 0xD9F5;
  0x3183; 0x200A; 0x1291; 0x0318; 0x77A7; 0x662E; 0x54B5; 0x453C;
  0xBDCB; 0xAC42; 0x9ED9; 0x8F50; 0xFBEF; 0xEA66; 0xD8FD; 0xC974;
  0x4204; 0x538D; 0x6116; 0x709F; 0x0420; 0x15A9; 0x2732; 0x36BB;
  0xCE4C; 0xDFC5; 0xED5E; 0xFCD7; 0x8868; 0x99E1; 0xAB7A; 0xBAF3;
  0x5285; 0x430C; 0x7197; 0x601E; 0x14A1; 0x0528; 0x37B3; 0x263A;
  0xDECD; 0xCF44; 0xFDDF; 0xEC56; 0x98E9; 0x8960; 0xBBFB; 0xAA72;
  0x6306; 0x728F; 0x4014; 0x519D; 0x2522; 0x34AB; 0x0630; 0x17B9;
  0xEF4E; 0xFEC7; 0xCC5C; 0xDDD5; 0xA96A; 0xB8E3; 0x8A78; 0x9BF1;
  0x7387; 0x620E; 0x5095; 0x411C; 0x35A3; 0x242A; 0x16B1; 0x0738;
  0xFFCF; 0xEE46; 0xDCDD; 0xCD54; 0xB9EB; 0xA862; 0x9AF9; 0x8B70;
  0x8408; 0x9581; 0xA71A; 0xB693; 0xC22C; 0xD3A5; 0xE13E; 0xF0B7;
  0x0840; 0x19C9; 0x2B52; 0x3ADB; 0x4E64; 0x5FED; 0x6D76; 0x7CFF;
  0x9489; 0x8500; 0xB79B; 0xA612; 0xD2AD; 0xC324; 0xF1BF; 0xE036;
  0x18C1; 0x0948; 0x3BD3; 0x2A5A; 0x5EE5; 0x4F6C; 0x7DF7; 0x6C7E;
  0xA50A; 0xB483; 0x8618; 0x9791; 0xE32E; 0xF2A7; 0xC03C; 0xD1B5;
  0x2942; 0x38CB; 0x0A50; 0x1BD9; 0x6F66; 0x7EEF; 0x4C74; 0x5DFD;
  0xB58B; 0xA402; 0x9699; 0x8710; 0xF3AF; 0xE226; 0xD0BD; 0xC134;
  0x39C3; 0x284A; 0x1AD1; 0x0B58; 0x7FE7; 0x6E6E; 0x5CF5; 0x4D7C;
  0xC60C; 0xD785; 0xE51E; 0xF497; 0x8028; 0x91A1; 0xA33A; 0xB2B3;
  0x4A44; 0x5BCD; 0x6956; 0x78DF; 0x0C60; 0x1DE9; 0x2F72; 0x3EFB;
  0xD68D; 0xC704; 0xF59F; 0xE416; 0x90A9; 0x8120; 0xB3BB; 0xA232;
  0x5AC5; 0x4B4C; 0x79D7; 0x685E; 0x1CE1; 0x0D68; 0x3FF3; 0x2E7A;
  0xE70E; 0xF687; 0xC41C; 0xD595; 0xA12A; 0xB0A3; 0x8238; 0x93B1;
  0x6B46; 0x7ACF; 0x4854; 0x59DD; 0x2D62; 0x3CEB; 0x0E70; 0x1FF9;
  0xF78F; 0xE606; 0xD49D; 0xC514; 0xB1AB; 0xA022; 0x92B9; 0x8330;
  0x7BC7; 0x6A4E; 0x58D5; 0x495C; 0x3DE3; 0x2C6A; 0x1EF1; 0x0F78].

Definition crc32_table_EDB88320 : list Z := [
  0x00000000; 0x77073096; 0xEE0E612C; 0x990951BA; 0x076DC419; 0x706AF48F; 0xE963A535; 0x9E6495A3;
  0x0EDB8832; 0x79DCB8A4; 0xE0D5E91E; 0x97D2D988; 0x09B64C2B; 0x7EB17CBD; 0xE7B82D07; 0x90BF1D91;
  0x1DB71064; 0x6AB020F2; 0xF3B97148; 0x84BE41DE; 0x1ADAD47D; 0x6DDDE4EB; 0xF4D4B551; 0x83D385C7;
  0x136C9856; 0x646BA8C0; 0xFD62F97A; 0x8A65C9EC; 0x14015C4F; 0x63066CD9; 0xFA0F3D63; 0x8D080DF5;
  0x3B6E20C8; 0x4C69105E; 0xD56041E4; 0xA2677172; 0x3C03E4D1; 0x4B04D447; 0xD20D85FD; 0xA50AB56B;
  0x35B5A8FA; 0x42B2986C; 0xDBBBC9D6; 0xACBCF940; 0x32D86CE3; 0x45DF5C75; 0xDCD60DCF; 0xABD13D59;
  0x26D930AC; 0x51DE003A; 0xC8D75180; 0xBFD06116; 0x21B4F4B5; 0x56B3C423; 0xCFBA9599; 0xB8BDA50F;
  0x2802B89E; 0x5F058808; 0xC60CD9B2; 0xB10BE924; 0x2F6F7C87; 0x58684C11; 0xC1611DAB; 0xB6662D3D;
  0x76DC4190; 0x01DB7106; 0x98D220BC; 0xEFD5102A; 0x71B18589; 0x06B6B51F; 0x9FBFE4A5; 0xE8B8D433;
  0x7807C9A2; 0x0F00F934; 0x9609A88E; 0xE10E9818; 0x7F6A0DBB; 0x086D3D2D; 0x91646C97; 0xE6635C01;
  0x6B6B51F4; 0x1C6C6162; 0x856530D8; 0xF262004E; 0x6C0695ED; 0x1B01A57B; 0x8208F4C1; 0xF50FC457;
  0x65B0D9C6; 0x12B7E950; 0x8BBEB8EA; 0xFCB9887C; 0x62DD1DDF; 0x15DA2D49; 0x8CD37CF3; 0xFBD44C65;
  0x4DB26158; 0x3AB551CE; 0xA3BC0074; 0xD4BB30E2; 0x4ADFA541; 0x3DD895D7; 0xA4D1C46D; 0xD3D6F4FB;
  0x4369E96A; 0x346ED9FC; 0xAD678846; 0xDA60B8D0; 0x44042D73; 0x33031DE5; 0xAA0A4C5F; 0xDD0D7CC9;
  0x5005713C; 0x270241AA; 0xBE0B1010; 0xC90C2086; 0x5768B525; 0x206F85B3; 0xB966D409; 0xCE61E49F;
  0x5EDEF90E; 0x29D9C998; 0xB0D09822; 0xC7D7A8B4; 0x59B33D17; 0x2EB40D81; 0xB7BD5C3B; 0xC0BA6CAD;
  0xEDB88320; 0x9ABFB3B6; 0x03B6E20C; 0x74B1D29A; 0xEAD54739; 0x9DD277AF; 0x04DB2615; 0x73DC1683;
  0xE3630B12; 0x94643B84; 0x0D6D6A3E; 0x7A6A5AA8; 0xE40ECF0B; 0x9309FF9D; 0x0A00AE27; 0x7D079EB1;
  0xF00F9344; 0x8708A3D2; 0x1E01F268; 0x6906C2FE; 0xF762575D; 0x806567CB; 0x196C3671; 0x6E6B06E7;
  0xFED41B76; 0x89D32BE0; 0x10DA7A5A; 0x67DD4ACC; 0xF9B9DF6F; 0x8EBEEFF9; 0x17B7BE43; 0x60B08ED5;
  0xD6D6A3E8; 0xA1D1937E; 0x38D8C2C4; 0x4FDFF252; 0xD1BB67F1; 0xA6BC5767; 0x3FB506DD; 0x48B2364B;
  0xD80D2BDA; 0xAF0A1B4C; 0x36034AF6; 0x41047A60; 0xDF60EFC3; 0xA867DF55; 0x316E8EEF; 0x4669BE79;
  0xCB61B38C; 0xBC66831A; 0x256FD2A0; 0x5268E236; 0xCC0C7795; 0xBB0B4703; 0x220216B9; 0x5505262F;
  0xC5BA3BBE; 0xB2BD0B28; 0x2BB45A92; 0x5CB36A04; 0xC2D7FFA7; 0xB5D0CF31; 0x2CD99E8B; 0x5BDEAE1D;
  0x9B64C2B0; 0xEC63F226; 0x756AA39C; 0x026D930A; 0x9C0906A9; 0xEB0E363F; 0x72076785; 0x05005713;
  0x95BF4A82; 0xE2B87A14; 0x7BB12BAE; 0x0CB61B38; 0x92D28E9B; 0xE5D5BE0D; 0x7CDCEFB7; 0x0BDBDF21;
  0x86D3D2D4; 0xF1D4E242; 0x68DDB3F8; 0x1FDA836E; 0x81BE16CD; 0xF6B9265B; 0x6FB077E1; 0x18B74777;
  0x88085AE6; 0xFF0F6A70; 0x66063BCA; 0x11010B5C; 0x8F659EFF; 0xF862AE69; 0x616BFFD3; 0x166CCF45;
  0xA00AE278; 0xD70DD2EE; 0x4E048354; 0x3903B3C2; 0xA7672661; 0xD06016F7; 0x4969474D; 0x3E6E77DB;
  0xAED16A4A; 0xD9D65ADC; 0x40DF0B66; 0x37D83BF0; 0xA9BCAE53; 0xDEBB9EC5; 0x47B2CF7F; 0x30B5FFE9;
  0xBDBDF21C; 0xCABAC28A; 0x53B39330; 0x24B4A3A6; 0xBAD03605; 0xCDD70693; 0x54DE5729; 0x23D967BF;
  0xB3667A2E; 0xC4614AB8; 0x5D681B02; 0x2A6F2B94; 0xB40BBE37; 0xC30C8EA1; 0x5A05DF1B; 0x2D02EF8D].

Definition crc32_table_82F63B78 : list Z := [
  0x00000000; 0xF26B8303; 0xE13B70F7; 0x1350F3F4; 0xC79A971F; 0x35F1141C; 0x26A1E7E8; 0xD4CA64EB;
  0x8AD958CF; 0x78B2DBCC; 0x6BE22838; 0x9989AB3B; 0x4D43CFD0; 0xBF284CD3; 0xAC78BF27; 0x5E133C24;
  0x105EC76F; 0xE235446C; 0xF165B798; 0x030E349B; 0xD7C45070; 0x25AFD373; 0x36FF2087; 0xC494A384;
  0x9A879FA0; 0x68EC1CA3; 0x7BBCEF57; 0x89D76C54; 0x5D1D08BF; 0xAF768BBC; 0xBC267848; 0x4E4DFB4B;
  0x20BD8EDE; 0xD2D60DDD; 0xC186FE29; 0x33ED7D2A; 0xE72719C1; 0x154C9AC2; 0x061C6936; 0xF477EA35;
  0xAA64D611; 0x580F5512; 0x4B5FA6E6; 0xB93425E5; 0x6DFE410E; 0x9F95C20D; 0x8CC531F9; 0x7EAEB2FA;
  0x30E349B1; 0xC288CAB2; 0xD1D83946; 0x23B3BA45; 0xF779DEAE; 0x05125DAD; 0x1642AE59; 0xE4292D5A;
  0xBA3A117E; 0x4851927D; 0x5B016189; 0xA96AE28A; 0x7DA08661; 0x8FCB0562; 0x9C9BF696; 0x6EF07595;
  0x417B1DBC; 0xB3109EBF; 0xA0406D4B; 0x522BEE48; 0x86E18AA3; 0x748A09A0; 0x67DAFA54; 0x95B17957;
  0xCBA24573; 0x39C9C670; 0x2A993584; 0xD8F2B687; 0x0C38D26C; 0xFE53516F; 0xED03A29B; 0x1F682198;
  0x5125DAD3; 0xA34E59D0; 0xB01EAA24; 0x42752927; 0x96BF4DCC; 0x64D4CECF; 0x77843D3B; 0x85EFBE38;
  0xDBFC821C; 0x2997011F; 0x3AC7F2EB; 0xC8AC71E8; 0x1C661503; 0xEE0D9600; 0xFD5D65F4; 0x0F36E6F7;
  0x61C69362; 0x93AD1061; 0x80FDE395; 0x72966096; 0xA65C047D; 0x5437877E; 0x4767748A; 0xB50CF789;
  0xEB1FCBAD; 0x197448AE; 0x0A24BB5A; 0xF84F3859; 0x2C855CB2; 0xDEEEDFB1; 0xCDBE2C45; 0x3FD5AF46;
  0x7198540D; 0x83F3D70E; 0x90A324FA; 0x62C8A7F9; 0xB602C312; 0x44694011; 0x5739B3E5; 0xA55230E6;
  0xFB410CC2; 0x092A8FC1; 0x1A7A7C35; 0xE811FF36; 0x3CDB9BDD; 0xCEB018DE; 0xDDE0EB2A; 0x2F8B6829;
  0x82F63B78; 0x709DB87B; 0x63CD4B8F; 0x91A6C88C; 0x456CAC67; 0xB7072F64; 0xA457DC90; 0x563C5F93;
  0x082F63B7; 0xFA44E0B4; 0xE9141340; 0x1B7F9043; 0xCFB5F4A8; 0x3DDE77AB; 0x2E8E845F; 0xDCE5075C;
  0x92A8FC17; 0x60C37F14; 0x73938CE0; 0x81F80FE3; 0x55326B08; 0xA759E80B; 0xB4091BFF; 0x466298FC;
  0x1871A4D8; 0xEA1A27DB; 0xF94AD42F; 0x0B21572C; 0xDFEB33C7; 0x2D80B0C4; 0x3ED04330; 0xCCBBC033;
  0xA24BB5A6; 0x502036A5; 0x4370C551; 0xB11B4652; 0x65D122B9; 0x97BAA1BA; 0x84EA524E; 0x7681D14D;
  0x2892ED69; 0xDAF96E6A; 0xC9A99D9E; 0x3BC21E9D; 0xEF087A76; 0x1D63F975; 0x0E330A81; 0xFC588982;
  0xB21572C9; 0x407EF1CA; 0x532E023E; 0xA145813D; 0x758FE5D6; 0x87E466D5; 0x94B49521; 0x66DF1622;
  0x38CC2A06; 0xCAA7A905; 0xD9F75AF1; 0x2B9CD9F2; 0xFF56BD19; 0x0D3D3E1A; 0x1E6DCDEE; 0xEC064EED;
  0xC38D26C4; 0x31E6A5C7; 0x22B65633; 0xD0DDD530; 0x0417B1DB; 0xF67C32D8; 0xE52CC12C; 0x1747422F;
  0x49547E0B; 0xBB3FFD08; 0xA86F0EFC; 0x5A048DFF; 0x8ECEE914; 0x7CA56A17; 0x6FF599E3; 0x9D9E1AE0;
  0xD3D3E1AB; 0x21B862A8; 0x32E8915C; 0xC083125F; 0x144976B4; 0xE622F5B7; 0xF5720643; 0x07198540;
  0x590AB964; 0xAB613A67; 0xB831C993; 0x4A5A4A90; 0x9E902E7B; 0x6CFBAD78; 0x7FAB5E8C; 0x8DC0DD8F;
  0xE330A81A; 0x115B2B19; 0x020BD8ED; 0xF0605BEE; 0x24AA3F05; 0xD6C1BC06; 0xC5914FF2; 0x37FACCF1;
  0x69E9F0D5; 0x9B8273D6; 0x88D28022; 0x7AB90321; 0xAE7367CA; 0x5C18E4C9; 0x4F48173D; 0xBD23943E;
  0xF36E6F75; 0x0105EC76; 0x12551F82; 0xE03E9C81; 0x34F4F86A; 0xC69F7B69; 0xD5CF889D; 0x27A40B9E;
  0x79B737BA; 0x8BDCB4B9; 0x988C474D; 0x6AE7C44E; 0xBE2DA0A5; 0x4C4623A6; 0x5F16D052; 0xAD7D5351].

(** ** Tables computed at start-up

    [for (j = 0; j < 8; j++)] with the body of the three functions, on a [c] that is
    truncated to the width of its type. *)
Definition crc_bit (poly c : Z) : Z :=
  if bool_decide (Z.land c 1 <> 0) then Z.lxor poly (Z.shiftr c 1) else Z.shiftr c 1.

Definition crc8_table_init (poly : Z) : list Z :=
  (fun i => Nat.iter 8 (fun c => u8 (crc_bit poly c)) (u8 i)) <$> seqZ 0 256.

Definition crc16_table_init (poly : Z) : list Z :=
  (fun i => Nat.iter 8 (fun c => u16 (crc_bit poly c)) (u16 i)) <$> seqZ 0 256.

Definition crc32_table_init (poly : Z) : list Z :=
  (fun i => Nat.iter 8 (fun c => u32 (crc_bit poly c)) (u32 i)) <$> seqZ 0 256.

(** ** Table-driven check sums *)

Definition CRC8_INIT_VAL : Z := 0xFF.
Definition CRC16_INIT_VAL : Z := 0xFFFF.
Definition CRC32_INIT_VAL : Z := 0xFFFFFFFF.

Fixpoint crc8_loop (crc8_table : list Z) (crc8 : Z) (pdata : list Z) (n : nat) {struct n} : option Z :=
  match n with
  | O => Some crc8
  | S n' =>
    match pdata with
    | [] => None
    | d :: pdata' =>
      let idx := u8 (Z.lxor crc8 d) in
      t ← crc8_table !! Z.to_nat idx;
      crc8_loop crc8_table t pdata' n'
    end
  end.
Definition crc8_cyc_cal (crc8_table : list Z) (init_val : Z) (pdata : list Z) (len : Z) : option Z :=
  crc8_loop crc8_table init_val pdata (Z.to_nat len).
Definition crc8_cal (crc8_table pdata : list Z) (len : Z) : option Z :=
  r ← crc8_cyc_cal crc8_table CRC8_INIT_VAL pdata len;
  Some (u8 (Z.lxor r CRC8_INIT_VAL)).

Fixpoint crc16_loop (crc16_table : list Z) (crc16 : Z) (pdata : list Z) (n : nat) {struct n} : option Z :=
  match n with
  | O => Some crc16
  | S n' =>
    match pdata with
    | [] => None
    | d :: pdata' =>
      let idx := u8 (Z.lxor (u8 crc16) d) in
      t ← crc16_table !! Z.to_nat idx;
      crc16_loop crc16_table (u16 (Z.lxor (Z.shiftr crc16 8) t)) pdata' n'
    end
  end.
Definition crc16_cyc_cal (crc16_table : list Z) (init_val : Z) (pdata : list Z) (len : Z) : option Z :=
  crc16_loop crc16_table init_val pdata (Z.to_nat len).
Definition crc16_cal (crc16_table pdata : list Z) (len : Z) : option Z :=
  r ← crc16_cyc_cal crc16_table CRC16_INIT_VAL pdata len;
  Some (u16 (Z.lxor r CRC16_INIT_VAL)).

Fixpoint crc32_loop (crc32_table : list Z) (crc32 : Z) (pdata : list Z) (n : nat) {struct n} : option Z :=
  match n with
  | O => Some crc32
  | S n' =>
    match pdata with
    | [] => None
    | d :: pdata' =>
      let idx := u8 (Z.lxor (u8 crc32) d) in
      t ← crc32_table !! Z.to_nat idx;
      crc32_loop crc32_table (u32 (Z.lxor (Z.shiftr crc32 8) t)) pdata' n'
    end
  end.
Definition crc32_cyc_cal (crc32_table : list Z) (init_val : Z) (pdata : list Z) (len : Z) : option Z :=
  crc32_loop crc32_table init_val pdata (Z.to_nat len).
Definition crc32_cal (crc32_table pdata : list Z) (len : Z) : option Z :=
  r ← crc32_cyc_cal crc32_table CRC32_INIT_VAL pdata len;
  Some (u32 (Z.lxor r CRC32_INIT_VAL)).

(** The class Crc16 of utilities/crc16.cxx: the check sum of bytes that arrive one by one. *)
Definition Crc16_reset : Z := CRC16_INIT_VAL.
Definition Crc16_update (tab : list Z) (val dat : Z) : option Z := crc16_cyc_cal tab val [dat] 1.
Definition Crc16_get (val : Z) : Z := u16 (Z.lxor val CRC16_INIT_VAL).

(** ** Reference: the shift register *)

(** One bit enters, eight bits make a byte, the bytes of a message follow each other. *)
Definition crc_byte (poly crc d : Z) : Z := Nat.iter 8 (crc_bit poly) (Z.lxor crc d).
Definition crc_reg (poly crc : Z) (msg : list Z) : Z := foldl (crc_byte poly) crc msg.

#[local] Strategy expand [crc_byte].
#[local] Strategy opaque [Nat.iter].

Definition is_byte (d : Z) : Prop := 0 <= d < 256.

Lemma crc_reg_cons poly crc d msg : crc_reg poly crc (d :: msg) = crc_reg poly (crc_byte poly crc d) msg.
Proof. reflexivity. Qed.

Lemma crc_reg_app poly crc m1 m2 : crc_reg poly crc (m1 ++ m2) = crc_reg poly (crc_reg poly crc m1) m2.
Proof. apply foldl_app. Qed.

(** ** The register is linear *)

Lemma crc_bit_eq poly c : crc_bit poly c = Z.lxor (Z.shiftr c 1) (if Z.odd c then poly else 0).
Proof.
  unfold crc_bit. pose proof (Z.land_ones c 1 ltac:(lia)) as Hl. change (Z.ones 1) with 1 in Hl.
  rewrite Hl. change (2 ^ 1) with 2.
  pose proof (Zmod_odd c). case_bool_decide; destruct (Z.odd c); try lia.
  - apply Z.lxor_comm.
  - by rewrite Z.lxor_0_r.
Qed.

Lemma odd_lxor a b : Z.odd (Z.lxor a b) = xorb (Z.odd a) (Z.odd b).
Proof. by rewrite <- !Z.bit0_odd, Z.lxor_spec. Qed.

Lemma crc_bit_lxor poly a b : crc_bit poly (Z.lxor a b) = Z.lxor (crc_bit poly a) (crc_bit poly b).
Proof.
  rewrite !crc_bit_eq, Z.shiftr_lxor, odd_lxor.
  destruct (Z.odd a), (Z.odd b); cbn [xorb]; apply Z.bits_inj'; intros n Hn; rewrite ?Z.lxor_spec, ?Z.bits_0;
    repeat match goal with |- context [Z.testbit ?x n] => destruct (Z.testbit x n) end; reflexivity.
Qed.

Lemma crc_iter_lxor poly n a b :
  Nat.iter n (crc_bit poly) (Z.lxor a b) = Z.lxor (Nat.iter n (crc_bit poly) a) (Nat.iter n (crc_bit poly) b).
Proof. induction n as [|n IH]; [done|]. by rewrite !Nat.iter_succ, IH, crc_bit_lxor. Qed.

Lemma crc_iter_shift poly n x : Nat.iter n (crc_bit poly) (Z.shiftl x (Z.of_nat n)) = x.
Proof.
  induction n as [|n IH]; [by rewrite Z.shiftl_0_r|].
  rewrite Nat.iter_succ_r, crc_bit_eq. rewrite Z.shiftr_shiftl_l by lia.
  replace (Z.of_nat (S n) - 1) with (Z.of_nat n) by lia.
  rewrite <- Z.bit0_odd, Z.shiftl_spec_low by lia. by rewrite Z.lxor_0_r.
Qed.

Lemma lxor_range w a b : 0 <= w -> 0 <= a < 2 ^ w -> 0 <= b < 2 ^ w -> 0 <= Z.lxor a b < 2 ^ w.
Proof.
  intros Hw Ha Hb. assert (0 <= Z.lxor a b) by (rewrite Z.lxor_nonneg; lia). split; [done|].
  destruct (decide (Z.lxor a b = 0)) as [->|]; [lia|].
  apply Z.log2_lt_pow2; [lia|]. pose proof (Z.log2_lxor a b ltac:(lia) ltac:(lia)).
  assert (forall x, 0 <= x < 2 ^ w -> x = 0 \/ Z.log2 x < w) as Hl
    by (intros x Hx; destruct (decide (x = 0)); [by left|right; apply Z.log2_lt_pow2; lia]).
  destruct (Hl a Ha) as [->|], (Hl b Hb) as [->|]; rewrite ?Z.lxor_0_l, ?Z.lxor_0_r in *; try lia; done.
Qed.

Lemma lxor_cancel a b c : Z.lxor a b = Z.lxor a c -> b = c.
Proof.
  intros H. rewrite <- (Z.lxor_0_l b), <- (Z.lxor_0_l c), <- (Z.lxor_nilpotent a).
  by rewrite !Z.lxor_assoc, H.
Qed.

Lemma split_bytes c : Z.lxor (Z.shiftl (Z.shiftr c 8) 8) (c mod 2 ^ 8) = c.
Proof.
  apply Z.bits_inj'; intros n Hn. rewrite Z.lxor_spec.
  destruct (decide (n < 8)).
  - rewrite Z.shiftl_spec_low, Z.mod_pow2_bits_low by lia. apply xorb_false_l.
  - rewrite Z.shiftl_spec, Z.shiftr_spec, Z.mod_pow2_bits_high by lia.
    rewrite xorb_false_r. f_equal; lia.
Qed.

(** What one step of the table-driven loop computes. *)
Lemma table_step poly crc d :
  is_byte d ->
  crc_byte poly crc d =
  Z.lxor (Z.shiftr crc 8) (Nat.iter 8 (crc_bit poly) (u8 (Z.lxor (u8 crc) d))).
Proof.
  intros Hd. unfold crc_byte.
  assert (u8 (Z.lxor (u8 crc) d) = (Z.lxor crc d) mod 2 ^ 8) as ->.
  { unfold wrap. apply Z.bits_inj'; intros n Hn. destruct (decide (n < 8)).
    - by rewrite !Z.mod_pow2_bits_low, !Z.lxor_spec, Z.mod_pow2_bits_low by lia.
    - by rewrite !Z.mod_pow2_bits_high by lia. }
  rewrite <- (split_bytes (Z.lxor crc d)) at 1. rewrite crc_iter_lxor.
  rewrite (crc_iter_shift poly 8). f_equal. rewrite Z.shiftr_lxor.
  rewrite (Z.shiftr_div_pow2 d), Z.div_small by (unfold is_byte in Hd; lia).
  apply Z.lxor_0_r.
Qed.

(** ** Registers of [w] bits *)

Section Register.
Context (w poly : Z) (Hw : 8 <= w) (Hpoly : 2 ^ (w - 1) <= poly < 2 ^ w).

Lemma pow_split : 2 ^ w = 2 * 2 ^ (w - 1).
Proof using Hw. rewrite <- Z.pow_succ_r by lia. f_equal; lia. Qed.

Lemma byte_in_reg d : is_byte d -> 0 <= d < 2 ^ w.
Proof using Hw. unfold is_byte. pose proof (Z.pow_le_mono_r 2 8 w ltac:(lia) Hw) as H. change (2 ^ 8) with 256 in H. lia. Qed.

Lemma crc_bit_range c : 0 <= c < 2 ^ w -> 0 <= crc_bit poly c < 2 ^ w.
Proof using Hw Hpoly.
  intros Hc. rewrite crc_bit_eq. pose proof pow_split. apply lxor_range; [lia| |].
  - rewrite Z.shiftr_div_pow2 by lia. change (2 ^ 1) with 2. Z.to_euclidean_division_equations; lia.
  - destruct (Z.odd c); lia.
Qed.

Lemma crc_iter_range n c : 0 <= c < 2 ^ w -> 0 <= Nat.iter n (crc_bit poly) c < 2 ^ w.
Proof using Hw Hpoly. intros; induction n; [done|]. rewrite Nat.iter_succ. by apply crc_bit_range. Qed.

Lemma crc_byte_range crc d : 0 <= crc < 2 ^ w -> is_byte d -> 0 <= crc_byte poly crc d < 2 ^ w.
Proof using Hw Hpoly.
  intros. apply crc_iter_range, lxor_range; [lia|done|by apply byte_in_reg].
Qed.

Lemma crc_reg_range msg crc : 0 <= crc < 2 ^ w -> Forall is_byte msg -> 0 <= crc_reg poly crc msg < 2 ^ w.
Proof using Hw Hpoly.
  intros Hc H. revert crc Hc. induction H as [|d msg Hd _ IH]; intros crc Hc; [done|].
  rewrite crc_reg_cons. by apply IH, crc_byte_range.
Qed.

(** The register loses no information: only zero is mapped to zero. *)
Lemma crc_bit_zero c : 0 <= c < 2 ^ w -> crc_bit poly c = 0 -> c = 0.
Proof using Hw Hpoly.
  intros Hc. rewrite crc_bit_eq. intros H%Z.lxor_eq. pose proof pow_split.
  rewrite Z.shiftr_div_pow2 in H by lia. change (2 ^ 1) with 2 in H.
  pose proof (Zmod_odd c). Z.to_euclidean_division_equations. destruct (Z.odd c); lia.
Qed.

Lemma crc_iter_inj n a b :
  0 <= a < 2 ^ w -> 0 <= b < 2 ^ w ->
  Nat.iter n (crc_bit poly) a = Nat.iter n (crc_bit poly) b -> a = b.
Proof using Hw Hpoly.
  intros Ha Hb H. apply Z.lxor_eq.
  assert (0 <= Z.lxor a b < 2 ^ w) as Hx by (by apply lxor_range; [lia|..]).
  assert (Nat.iter n (crc_bit poly) (Z.lxor a b) = 0) as H0
    by (by rewrite crc_iter_lxor, H, Z.lxor_nilpotent).
  clear H Ha Hb. revert Hx H0. generalize (Z.lxor a b). induction n as [|n IH]; intros x Hx H0; [done|].
  rewrite Nat.iter_succ in H0. apply IH; [done|]. apply crc_bit_zero; [|done]. by apply crc_iter_range.
Qed.

Lemma crc_byte_inj d a b :
  0 <= a < 2 ^ w -> 0 <= b < 2 ^ w -> is_byte d -> crc_byte poly a d = crc_byte poly b d -> a = b.
Proof using Hw Hpoly.
  intros Ha Hb Hd E. unfold crc_byte in E. pose proof (byte_in_reg d Hd).
  apply (crc_iter_inj 8) in E; [|by apply lxor_range; [lia|..]..].
  rewrite !(Z.lxor_comm _ d) in E. by eapply lxor_cancel.
Qed.

Lemma crc_reg_inj msg a b :
  0 <= a < 2 ^ w -> 0 <= b < 2 ^ w -> Forall is_byte msg ->
  crc_reg poly a msg = crc_reg poly b msg -> a = b.
Proof using Hw Hpoly.
  intros Ha Hb H. revert a b Ha Hb. induction H as [|d msg Hd _ IH]; intros a b Ha Hb E; [done|].
  rewrite !crc_reg_cons in E. apply IH in E; [|by apply crc_byte_range..].
  by apply crc_byte_inj in E.
Qed.
End Register.

(** ** A message as one number *)

Fixpoint le_word (msg : list Z) : Z :=
  match msg with [] => 0 | d :: msg' => Z.lxor d (Z.shiftl (le_word msg') 8) end.

Lemma crc_reg_word poly msg crc :
  crc_reg poly crc msg = Nat.iter (8 * length msg) (crc_bit poly) (Z.lxor crc (le_word msg)).
Proof.
  revert crc. induction msg as [|d msg IH]; intros crc; [by rewrite Z.lxor_0_r|].
  rewrite crc_reg_cons, IH. cbn [le_word length].
  replace (8 * S (length msg))%nat with (8 * length msg + 8)%nat by lia.
  rewrite Nat.iter_add. f_equal. unfold crc_byte.
  rewrite <- (Z.lxor_assoc crc d), (crc_iter_lxor poly 8 _ (Z.shiftl _ _)). f_equal.
  by rewrite (crc_iter_shift poly 8).
Qed.

Lemma le_word_range msg : Forall is_byte msg -> 0 <= le_word msg < 2 ^ (8 * Z.of_nat (length msg)).
Proof.
  induction 1 as [|d msg Hd _ IH]; [done|]. cbn [le_word length].
  rewrite Nat2Z.inj_succ. replace (8 * Z.succ _) with (8 * Z.of_nat (length msg) + 8) by lia.
  apply lxor_range; first lia;
    rewrite Z.pow_add_r by lia; unfold is_byte in Hd.
  - nia.
  - rewrite Z.shiftl_mul_pow2 by lia. nia.
Qed.

Lemma le_word_inj m1 m2 :
  Forall is_byte m1 -> Forall is_byte m2 -> length m1 = length m2 -> le_word m1 = le_word m2 -> m1 = m2.
Proof.
  intros H1. revert m2. induction H1 as [|d m1 Hd _ IH]; intros [|d' m2] H2 Hl E; simplify_eq/=; [done|].
  inversion H2 as [|?? Hd' H2']; subst.
  assert (forall x b, is_byte b -> Z.lxor b (Z.shiftl x 8) mod 256 = b /\ Z.lxor b (Z.shiftl x 8) / 256 = x) as Hsplit.
  { intros x b Hb. change 256 with (2 ^ 8). split.
    - apply Z.bits_inj'; intros n Hn. destruct (decide (n < 8)).
      + by rewrite Z.mod_pow2_bits_low, Z.lxor_spec, Z.shiftl_spec_low, xorb_false_r by lia.
      + rewrite Z.mod_pow2_bits_high by lia. rewrite <- (Z.mod_small b (2 ^ 8)) by done.
        by rewrite Z.mod_pow2_bits_high by lia.
    - rewrite <- Z.shiftr_div_pow2, Z.shiftr_lxor, Z.shiftr_shiftl_l by lia.
      rewrite Z.shiftr_div_pow2, Z.div_small by (done || lia). apply Z.lxor_0_l. }
  pose proof (Hsplit (le_word m1) d Hd). pose proof (Hsplit (le_word m2) d' Hd').
  rewrite E in *. f_equal; [lia|]. apply IH; [done|lia|lia].
Qed.

(** ** Every table holds the register's answers for single bytes *)

Definition table_for (poly : Z) (tab : list Z) : Prop :=
  forall i, is_byte i -> tab !! Z.to_nat i = Some (Nat.iter 8 (crc_bit poly) i).

Lemma const_table poly tab :
  tab = (fun i => Nat.iter 8 (crc_bit poly) i) <$> seqZ 0 256 -> table_for poly tab.
Proof.
  intros -> i Hi. unfold is_byte in Hi. rewrite list_lookup_fmap, lookup_seqZ_lt by lia.
  cbn [fmap option_fmap option_map]. do 2 f_equal. lia.
Qed.

(** The truncations in the functions that build a table in RAM change nothing. *)
Lemma wrapped_iter w poly n c :
  8 <= w -> 2 ^ (w - 1) <= poly < 2 ^ w -> 0 <= c < 2 ^ w ->
  Nat.iter n (fun c => wrap w (crc_bit poly c)) c = Nat.iter n (crc_bit poly) c.
Proof.
  intros Hw Hp Hc. induction n as [|n IH]; [done|].
  rewrite !Nat.iter_succ, IH. by apply wrap_id, crc_bit_range, crc_iter_range.
Qed.

Lemma ram_table w poly :
  8 <= w -> 2 ^ (w - 1) <= poly < 2 ^ w ->
  table_for poly ((fun i => Nat.iter 8 (fun c => wrap w (crc_bit poly c)) (wrap w i)) <$> seqZ 0 256).
Proof.
  intros Hw Hp. apply const_table, list_fmap_ext. intros k i Hi%lookup_seqZ.
  assert (0 <= i < 2 ^ w) by (apply byte_in_reg; [lia|unfold is_byte; lia]).
  by rewrite wrap_id, wrapped_iter by done.
Qed.

(** ** The loops compute the register *)

Lemma crc_loop8 poly tab crc msg rest :
  2 ^ 7 <= poly < 2 ^ 8 -> table_for poly tab -> 0 <= crc < 2 ^ 8 -> Forall is_byte msg ->
  crc8_loop tab crc (msg ++ rest) (length msg) = Some (crc_reg poly crc msg).
Proof.
  intros Hp Ht Hc H. revert crc Hc. induction H as [|d msg Hd _ IH]; intros crc Hc; [done|].
  rewrite crc_reg_cons. cbn [crc8_loop length app].
  rewrite Ht by (unfold is_byte; pose proof (wrap_range 8 (Z.lxor crc d)); lia). cbn [mbind option_bind].
  assert (crc_byte poly crc d = Nat.iter 8 (crc_bit poly) (u8 (Z.lxor crc d))) as <-.
  { rewrite table_step, (wrap_id 8 crc) by done.
    by rewrite Z.shiftr_div_pow2, Z.div_small, Z.lxor_0_l by (done || lia). }
  apply IH. by apply crc_byte_range.
Qed.

Lemma table_driven_step w poly crc d :
  8 <= w -> 2 ^ (w - 1) <= poly < 2 ^ w -> 0 <= crc < 2 ^ w -> is_byte d ->
  wrap w (Z.lxor (Z.shiftr crc 8) (Nat.iter 8 (crc_bit poly) (u8 (Z.lxor (u8 crc) d)))) = crc_byte poly crc d.
Proof.
  intros. rewrite <- table_step by done. by apply wrap_id, crc_byte_range.
Qed.

Lemma crc_loop16 poly tab crc msg rest :
  2 ^ 15 <= poly < 2 ^ 16 -> table_for poly tab -> 0 <= crc < 2 ^ 16 -> Forall is_byte msg ->
  crc16_loop tab crc (msg ++ rest) (length msg) = Some (crc_reg poly crc msg).
Proof.
  intros Hp Ht Hc H. revert crc Hc. induction H as [|d msg Hd _ IH]; intros crc Hc; [done|].
  rewrite crc_reg_cons. cbn [crc16_loop length app].
  rewrite Ht by (unfold is_byte; pose proof (wrap_range 8 (Z.lxor (u8 crc) d)); lia). cbn [mbind option_bind].
  rewrite table_driven_step by (done || lia). apply IH. by apply crc_byte_range.
Qed.

Lemma crc_loop32 poly tab crc msg rest :
  2 ^ 31 <= poly < 2 ^ 32 -> table_for poly tab -> 0 <= crc < 2 ^ 32 -> Forall is_byte msg ->
  crc32_loop tab crc (msg ++ rest) (length msg) = Some (crc_reg poly crc msg).
Proof.
  intros Hp Ht Hc H. revert crc Hc. induction H as [|d msg Hd _ IH]; intros crc Hc; [done|].
  rewrite crc_reg_cons. cbn [crc32_loop length app].
  rewrite Ht by (unfold is_byte; pose proof (wrap_range 8 (Z.lxor (u8 crc) d)); lia). cbn [mbind option_bind].
  rewrite table_driven_step by (done || lia). apply IH. by apply crc_byte_range.
Qed.

(** The tables a build can select, with the polynomial it is configured with. *)
Inductive crc8_build : Z -> list Z -> Prop :=
  | crc8_const_8C : crc8_build 0x8C crc8_table_8C
  | crc8_const_D9 : crc8_build 0xD9 crc8_table_D9
  | crc8_ram poly : 2 ^ 7 <= poly < 2 ^ 8 -> crc8_build poly (crc8_table_init poly).
Inductive crc16_build : Z -> list Z -> Prop :=
  | crc16_const_A001 : crc16_build 0xA001 crc16_table_A001
  | crc16_const_8408 : crc16_build 0x8408 crc16_table_8408
  | crc16_ram poly : 2 ^ 15 <= poly < 2 ^ 16 -> crc16_build poly (crc16_table_init poly).
Inductive crc32_build : Z -> list Z -> Prop :=
  | crc32_const_EDB88320 : crc32_build 0xEDB88320 crc32_table_EDB88320
  | crc32_const_82F63B78 : crc32_build 0x82F63B78 crc32_table_82F63B78
  | crc32_ram poly : 2 ^ 31 <= poly < 2 ^ 32 -> crc32_build poly (crc32_table_init poly).

Lemma crc8_build_table poly tab : crc8_build poly tab -> 2 ^ 7 <= poly < 2 ^ 8 /\ table_for poly tab.
Proof.
  destruct 1 as [| |poly Hp]; (split; [lia|]).
  1,2: apply const_table; vm_compute; reflexivity.
  by apply (ram_table 8).
Qed.
Lemma crc16_build_table poly tab : crc16_build poly tab -> 2 ^ 15 <= poly < 2 ^ 16 /\ table_for poly tab.
Proof.
  destruct 1 as [| |poly Hp]; (split; [lia|]).
  1,2: apply const_table; vm_compute; reflexivity.
  by apply (ram_table 16).
Qed.
Lemma crc32_build_table poly tab : crc32_build poly tab -> 2 ^ 31 <= poly < 2 ^ 32 /\ table_for poly tab.
Proof.
  destruct 1 as [| |poly Hp]; (split; [lia|]).
  1,2: apply const_table; vm_compute; reflexivity.
  by apply (ram_table 32).
Qed.

(** ** Theorems *)

(** C26: whatever table the build selects (the two constant ones of each width or the one
    computed at start-up), the table-driven loops of the three check sums return, for every
    buffer, length within the buffer and start value, what the shift register computes bit
    by bit from those bytes. *)
Theorem crc_table_driven msg rest :
  Forall is_byte msg ->
  (forall poly tab init, crc8_build poly tab -> 0 <= init < 2 ^ 8 ->
     crc8_cyc_cal tab init (msg ++ rest) (Z.of_nat (length msg)) = Some (crc_reg poly init msg)) /\
  (forall poly tab init, crc16_build poly tab -> 0 <= init < 2 ^ 16 ->
     crc16_cyc_cal tab init (msg ++ rest) (Z.of_nat (length msg)) = Some (crc_reg poly init msg)) /\
  (forall poly tab init, crc32_build poly tab -> 0 <= init < 2 ^ 32 ->
     crc32_cyc_cal tab init (msg ++ rest) (Z.of_nat (length msg)) = Some (crc_reg poly init msg)).
Proof.
  intros H. unfold crc8_cyc_cal, crc16_cyc_cal, crc32_cyc_cal. rewrite Nat2Z.id.
  split_and!; intros poly tab init Hb Hi.
  - apply crc8_build_table in Hb as [??]. by apply crc_loop8.
  - apply crc16_build_table in Hb as [??]. by apply crc_loop16.
  - apply crc32_build_table in Hb as [??]. by apply crc_loop32.
Qed.

Lemma crc_reg_burst w poly init before m1 m2 after :
  8 <= w -> 2 ^ (w - 1) <= poly < 2 ^ w -> 0 <= init < 2 ^ w ->
  Forall is_byte (before ++ m1 ++ after) -> Forall is_byte m2 ->
  length m1 = length m2 -> 8 * Z.of_nat (length m1) <= w -> m1 <> m2 ->
  crc_reg poly init (before ++ m1 ++ after) <> crc_reg poly init (before ++ m2 ++ after).
Proof.
  intros Hw Hp Hi Hf H2 Hl Hlen Hne. apply Forall_app in Hf as [Hb Hf]. apply Forall_app in Hf as [H1 Ha].
  rewrite !crc_reg_app. intros E.
  pose proof (crc_reg_range w poly Hw Hp before init Hi Hb) as Hs. revert E Hs.
  generalize (crc_reg poly init before). intros s E Hs.
  apply (crc_reg_inj w poly Hw Hp) in E; [|by apply crc_reg_range..|done].
  rewrite !crc_reg_word, Hl in E.
  assert (forall m, Forall is_byte m -> length m = length m1 -> 0 <= le_word m < 2 ^ w) as Hr.
  { intros m Hm E'. pose proof (le_word_range m Hm). rewrite E' in H.
    pose proof (Z.pow_le_mono_r 2 _ w ltac:(lia) Hlen). lia. }
  apply (crc_iter_inj w poly Hw Hp) in E; [|apply lxor_range; [lia|done|by apply Hr]..].
  apply Hne, le_word_inj; [done..|]. by eapply lxor_cancel.
Qed.

(** crc16_cal on a buffer and the first [len] bytes of it. *)
Lemma crc16_cal_reg poly tab msg rest :
  crc16_build poly tab -> Forall is_byte msg ->
  crc16_cal tab (msg ++ rest) (Z.of_nat (length msg)) =
  Some (Z.lxor (crc_reg poly CRC16_INIT_VAL msg) CRC16_INIT_VAL).
Proof.
  intros [Hp Ht]%crc16_build_table Hm. unfold crc16_cal, crc16_cyc_cal. rewrite Nat2Z.id.
  rewrite (crc_loop16 poly) by done. cbn [mbind option_bind].
  by rewrite wrap_id by (apply lxor_range; [lia|apply crc_reg_range; [lia|..]|]; done).
Qed.

(** crc8_cal and crc32_cal, in the same way. *)
Lemma crc8_cal_reg poly tab msg rest :
  crc8_build poly tab -> Forall is_byte msg ->
  crc8_cal tab (msg ++ rest) (Z.of_nat (length msg)) = Some (Z.lxor (crc_reg poly CRC8_INIT_VAL msg) CRC8_INIT_VAL).
Proof.
  intros [Hp Ht]%crc8_build_table Hm. unfold crc8_cal, crc8_cyc_cal. rewrite Nat2Z.id.
  rewrite (crc_loop8 poly) by done. cbn [mbind option_bind].
  by rewrite wrap_id by (apply lxor_range; [lia|apply crc_reg_range; [lia|..]|]; done).
Qed.
Lemma crc32_cal_reg poly tab msg rest :
  crc32_build poly tab -> Forall is_byte msg ->
  crc32_cal tab (msg ++ rest) (Z.of_nat (length msg)) = Some (Z.lxor (crc_reg poly CRC32_INIT_VAL msg) CRC32_INIT_VAL).
Proof.
  intros [Hp Ht]%crc32_build_table Hm. unfold crc32_cal, crc32_cyc_cal. rewrite Nat2Z.id.
  rewrite (crc_loop32 poly) by done. cbn [mbind option_bind].
  by rewrite wrap_id by (apply lxor_range; [lia|apply crc_reg_range; [lia|..]|]; done).
Qed.

(** The check sum of a whole buffer; it determines the register. *)
Lemma crc_xor_inj a b init : Z.lxor a init = Z.lxor b init -> a = b.
Proof. rewrite !(Z.lxor_comm _ init). apply lxor_cancel. Qed.

Lemma crc8_burst poly tab before m1 m2 after :
  crc8_build poly tab ->
  Forall is_byte (before ++ m1 ++ after) -> Forall is_byte (before ++ m2 ++ after) ->
  length m1 = length m2 -> (length m1 <= 1)%nat -> m1 <> m2 ->
  crc8_cal tab (before ++ m1 ++ after) (Z.of_nat (length (before ++ m1 ++ after))) <>
  crc8_cal tab (before ++ m2 ++ after) (Z.of_nat (length (before ++ m2 ++ after))).
Proof.
  intros Hb H1 H2 Hl Hlen Hne.
  pose proof (crc8_cal_reg poly tab _ [] Hb H1) as E1. pose proof (crc8_cal_reg poly tab _ [] Hb H2) as E2.
  rewrite app_nil_r in E1, E2. rewrite E1, E2. intros [= E%crc_xor_inj]. revert E.
  apply crc8_build_table in Hb as [??]. rewrite !Forall_app in H2.
  apply (crc_reg_burst 8); done || naive_solver lia.
Qed.

Lemma crc16_burst poly tab before m1 m2 after :
  crc16_build poly tab ->
  Forall is_byte (before ++ m1 ++ after) -> Forall is_byte (before ++ m2 ++ after) ->
  length m1 = length m2 -> (length m1 <= 2)%nat -> m1 <> m2 ->
  crc16_cal tab (before ++ m1 ++ after) (Z.of_nat (length (before ++ m1 ++ after))) <>
  crc16_cal tab (before ++ m2 ++ after) (Z.of_nat (length (before ++ m2 ++ after))).
Proof.
  intros Hb H1 H2 Hl Hlen Hne.
  pose proof (crc16_cal_reg poly tab _ [] Hb H1) as E1. pose proof (crc16_cal_reg poly tab _ [] Hb H2) as E2.
  rewrite app_nil_r in E1, E2. rewrite E1, E2. intros [= E%crc_xor_inj]. revert E.
  apply crc16_build_table in Hb as [??]. rewrite !Forall_app in H2.
  apply (crc_reg_burst 16); done || naive_solver lia.
Qed.

Lemma crc32_burst poly tab before m1 m2 after :
  crc32_build poly tab ->
  Forall is_byte (before ++ m1 ++ after) -> Forall is_byte (before ++ m2 ++ after) ->
  length m1 = length m2 -> (length m1 <= 4)%nat -> m1 <> m2 ->
  crc32_cal tab (before ++ m1 ++ after) (Z.of_nat (length (before ++ m1 ++ after))) <>
  crc32_cal tab (before ++ m2 ++ after) (Z.of_nat (length (before ++ m2 ++ after))).
Proof.
  intros Hb H1 H2 Hl Hlen Hne.
  pose proof (crc32_cal_reg poly tab _ [] Hb H1) as E1. pose proof (crc32_cal_reg poly tab _ [] Hb H2) as E2.
  rewrite app_nil_r in E1, E2. rewrite E1, E2. intros [= E%crc_xor_inj]. revert E.
  apply crc32_build_table in Hb as [??]. rewrite !Forall_app in H2.
  apply (crc_reg_burst 32); done || naive_solver lia.
Qed.

(** C40: the check sums tell two buffers of the same length apart that differ only inside a
    window of bytes as wide as the check sum (one byte for crc8_cal, two for crc16_cal, four
    for crc32_cal), whatever table the build selects: a flipped bit, a damaged byte or a
    burst inside the window changes the check sum. *)
Theorem crc_detects_burst before m1 m2 after :
  Forall is_byte (before ++ m1 ++ after) -> Forall is_byte m2 -> length m1 = length m2 -> m1 <> m2 ->
  let a := before ++ m1 ++ after in
  let b := before ++ m2 ++ after in
  let n := Z.of_nat (length a) in
  (forall poly tab, crc8_build poly tab -> (length m1 <= 1)%nat -> crc8_cal tab a n <> crc8_cal tab b n) /\
  (forall poly tab, crc16_build poly tab -> (length m1 <= 2)%nat -> crc16_cal tab a n <> crc16_cal tab b n) /\
  (forall poly tab, crc32_build poly tab -> (length m1 <= 4)%nat -> crc32_cal tab a n <> crc32_cal tab b n).
Proof.
  intros Hf H2 Hl Hne a b n.
  assert (Forall is_byte b) as Hb by (unfold b; rewrite !Forall_app in *; naive_solver).
  assert (n = Z.of_nat (length b)) as En by (unfold n, a, b; rewrite !length_app; lia).
  split_and!; intros poly tab Hbuild Hlen; rewrite En at 2;
    [apply (crc8_burst poly)|apply (crc16_burst poly)|apply (crc32_burst poly)]; done.
Qed.

(** The incremental check sum of Crc16 is the one of crc16_cal. *)
Fixpoint Crc16_updates (tab : list Z) (val : Z) (dats : list Z) : option Z :=
  match dats with [] => Some val | d :: dats' => v ← Crc16_update tab val d; Crc16_updates tab v dats' end.

Lemma crc16_incremental poly tab msg :
  crc16_build poly tab -> Forall is_byte msg ->
  Crc16_get <$> Crc16_updates tab Crc16_reset msg = crc16_cal tab msg (Z.of_nat (length msg)).
Proof.
  intros Hb H. rewrite <- (app_nil_r msg) at 2. rewrite (crc16_cal_reg poly) by done.
  apply crc16_build_table in Hb as [Hp Ht].
  assert (forall v, 0 <= v < 2 ^ 16 -> Crc16_updates tab v msg = Some (crc_reg poly v msg)) as Hu.
  { induction H as [|d msg Hd _ IH]; intros v Hv; [done|]. rewrite crc_reg_cons. cbn [Crc16_updates].
    unfold Crc16_update, crc16_cyc_cal. change (Z.to_nat 1) with (length [d]).
    rewrite <- (app_nil_r [d]) at 1. rewrite (crc_loop16 poly) by (done || by constructor).
    cbn [mbind option_bind]. apply IH. by apply crc_byte_range. }
  rewrite Hu by done. cbn [fmap option_fmap option_map]. unfold Crc16_get.
  by rewrite wrap_id by (apply lxor_range; [lia|apply crc_reg_range; [lia|..]|]; done).
Qed.
