(* ===== verification/Flash.v ===== *)
(** * On-chip flash: HAL and driver

    libraries/STM32F1xx_HAL_Driver/Src/stm32f1xx_hal_flash.c and _flash_ex.c (the polling
    functions) and drivers/drv_flash_f1.c, for the STM32F103xE of the board: one bank, 512
    KiB from 0x08000000, pages of 2 KiB.

    The state [flash] is the memory, the registers of the flash controller (FPEC) as far as
    the code uses them, and the handle pFlash.  The controller itself is hardware: the class
    [Fpec] holds its reactions and [FpecSpec] what its programming manual (PM0075) says of
    them: two keys unlock it; a half-word store with PG set programs an erased half-word (or
    programs zero), and otherwise sets PGERR; STRT with PER set erases the page of AR; a
    protected page is left alone and WRPRTERR is set; an operation ends in time. *)
From S2P Require Import Prelude Kernel.
From stdpp Require Import base list.
From Stdlib Require Import ZArith Lia.
#[local] Open Scope Z_scope.

(** ** State *)

Record cr_bits := CR { LOCK : bool; PG : bool; PER : bool; MER : bool }.
Record sr_bits := SR { EOP : bool; PGERR : bool; WRPRTERR : bool }.

Record flash := Flash {
  cell : Z -> Z;          (** the bytes of the memory, by address *)
  cr : cr_bits;           (** FLASH->CR *)
  sr : sr_bits;           (** FLASH->SR without BSY *)
  ar : Z;                 (** FLASH->AR *)
  opterr : bool;          (** FLASH->OBR & FLASH_OBR_OPTERR *)
  busy : nat;             (** how many more reads of SR find BSY set *)
  tick : Z;               (** rt_tick *)
  keys : nat;             (** the keys KEYR has seen *)
  Lock : bool;            (** pFlash.Lock *)
  ErrorCode : Z           (** pFlash.ErrorCode *)
}.

Definition set_cell f s := Flash f (cr s) (sr s) (ar s) (opterr s) (busy s) (tick s) (keys s) (Lock s) (ErrorCode s).
Definition set_cr c s := Flash (cell s) c (sr s) (ar s) (opterr s) (busy s) (tick s) (keys s) (Lock s) (ErrorCode s).
Definition set_sr r s := Flash (cell s) (cr s) r (ar s) (opterr s) (busy s) (tick s) (keys s) (Lock s) (ErrorCode s).
Definition set_ar a s := Flash (cell s) (cr s) (sr s) a (opterr s) (busy s) (tick s) (keys s) (Lock s) (ErrorCode s).
Definition set_opterr b s := Flash (cell s) (cr s) (sr s) (ar s) b (busy s) (tick s) (keys s) (Lock s) (ErrorCode s).
Definition set_busy n t s := Flash (cell s) (cr s) (sr s) (ar s) (opterr s) n t (keys s) (Lock s) (ErrorCode s).
Definition set_keys k s := Flash (cell s) (cr s) (sr s) (ar s) (opterr s) (busy s) (tick s) k (Lock s) (ErrorCode s).
Definition set_Lock b s := Flash (cell s) (cr s) (sr s) (ar s) (opterr s) (busy s) (tick s) (keys s) b (ErrorCode s).
Definition set_ErrorCode e s := Flash (cell s) (cr s) (sr s) (ar s) (opterr s) (busy s) (tick s) (keys s) (Lock s) e.

(** SET_BIT and CLEAR_BIT on the bits of CR. *)
Definition set_LOCK b s := set_cr (CR b (PG (cr s)) (PER (cr s)) (MER (cr s))) s.
Definition set_PG b s := set_cr (CR (LOCK (cr s)) b (PER (cr s)) (MER (cr s))) s.
Definition set_PER b s := set_cr (CR (LOCK (cr s)) (PG (cr s)) b (MER (cr s))) s.
Definition set_MER b s := set_cr (CR (LOCK (cr s)) (PG (cr s)) (PER (cr s)) b) s.

(** ** Constants of the headers *)

Inductive HAL_StatusTypeDef := HAL_OK | HAL_ERROR | HAL_BUSY | HAL_TIMEOUT.
#[export] Instance HAL_eq_dec : EqDecision HAL_StatusTypeDef.
Proof. solve_decision. Defined.

Definition FLASH_TIMEOUT_VALUE : Z := 50000.
Definition HAL_MAX_DELAY : Z := 0xFFFFFFFF.
Definition FLASH_KEY1 : Z := 0x45670123.
Definition FLASH_KEY2 : Z := 0xCDEF89AB.
Definition HAL_FLASH_ERROR_NONE : Z := 0.
Definition HAL_FLASH_ERROR_PROG : Z := 1.
Definition HAL_FLASH_ERROR_WRP : Z := 2.
Definition HAL_FLASH_ERROR_OPTV : Z := 4.
Definition FLASH_PAGE_SIZE : Z := 0x800.
Definition FLASH_BANK_1 : Z := 1.

Definition STM32_FLASH_START_ADRESS : Z := 0x08000000.
Definition STM32_FLASH_SIZE : Z := 512 * 1024.
Definition STM32_FLASH_END_ADDRESS : Z := STM32_FLASH_START_ADRESS + STM32_FLASH_SIZE.

Inductive TypeProgram := FLASH_TYPEPROGRAM_HALFWORD | FLASH_TYPEPROGRAM_WORD | FLASH_TYPEPROGRAM_DOUBLEWORD.
Inductive TypeErase := FLASH_TYPEERASE_PAGES | FLASH_TYPEERASE_MASSERASE.
Record FLASH_EraseInitTypeDef := EraseInit {
  ei_TypeErase : TypeErase; ei_Banks : Z; ei_PageAddress : Z; ei_NbPages : Z }.

(** HAL_GetTick of drivers/drv_common.c on the tick of the kernel, with RT_TICK_PER_SECOND = 1000. *)
Definition HAL_GetTick (rt_tick : Z) : Z := u32 (rt_tick * 1000) / 1000.

(** ** The controller *)

(** The reactions of the hardware to a write of KEYR, to a half-word store into the memory
    and to setting STRT; [fpec_lapse] is the number of ticks between two reads of BSY. *)
Class Fpec := {
  fpec_lapse : Z;
  fpec_protected : Z -> bool;
  fpec_key : Z -> flash -> flash;
  fpec_halfword : Z -> Z -> flash -> flash;
  fpec_start : flash -> flash
}.

Definition put16 (a d : Z) (f : Z -> Z) : Z -> Z := fun x =>
  if bool_decide (x = a) then d mod 256 else if bool_decide (x = a + 1) then d / 256 else f x.
Definition page_of (a : Z) : Z := FLASH_PAGE_SIZE * (a / FLASH_PAGE_SIZE).
Definition erase_page (p : Z) (f : Z -> Z) : Z -> Z := fun x =>
  if bool_decide (p <= x < p + FLASH_PAGE_SIZE) then 0xFF else f x.

(** How an operation ends: BSY is seen [n] more times, then the flags tell the outcome. *)
Definition op_done (f : (Z -> Z) -> Z -> Z) (n : nat) (s : flash) : flash :=
  set_busy n (tick s) (set_sr (SR true (PGERR (sr s)) (WRPRTERR (sr s))) (set_cell (f (cell s)) s)).
Definition op_pgerr (n : nat) (s : flash) : flash :=
  set_busy n (tick s) (set_sr (SR (EOP (sr s)) true (WRPRTERR (sr s))) s).
Definition op_wrperr (n : nat) (s : flash) : flash :=
  set_busy n (tick s) (set_sr (SR (EOP (sr s)) (PGERR (sr s)) true) s).

Definition in_flash (a : Z) : Prop := STM32_FLASH_START_ADRESS <= a < STM32_FLASH_END_ADDRESS.
Definition blank16 (a : Z) (s : flash) : Prop := cell s a = 0xFF /\ cell s (a + 1) = 0xFF.
#[export] Instance blank16_dec a s : Decision (blank16 a s).
Proof. unfold blank16. apply _. Defined.

(** The longest times of the data sheet in ticks of a millisecond, rounded up: 70 microseconds
    for a half-word, 40 milliseconds for a page. *)
Definition PROG_TIME : Z := 1.
Definition ERASE_TIME : Z := 40.
Definition WORD_TIME : Z := 2 * PROG_TIME.

Class FpecSpec `{!Fpec} : Prop := {
  lapse_pos : 0 <= fpec_lapse;
  keys_unlock s : LOCK (cr s) = true -> exists k,
    fpec_key FLASH_KEY2 (fpec_key FLASH_KEY1 s) = set_keys k (set_LOCK false s);
  protected_page a b : page_of a = page_of b -> fpec_protected a = fpec_protected b;
  halfword_reaction a d s :
    LOCK (cr s) = false -> PG (cr s) = true -> busy s = 0%nat ->
    in_flash a -> a mod 2 = 0 -> 0 <= d < 2 ^ 16 ->
    exists n, Z.of_nat n * fpec_lapse <= PROG_TIME /\
      fpec_halfword a d s =
      if fpec_protected a then op_wrperr n s
      else if decide (blank16 a s \/ d = 0) then op_done (put16 a d) n s
      else op_pgerr n s;
  start_reaction s :
    LOCK (cr s) = false -> PER (cr s) = true -> MER (cr s) = false -> busy s = 0%nat -> in_flash (ar s) ->
    exists n, Z.of_nat n * fpec_lapse <= ERASE_TIME /\
      fpec_start s =
      if fpec_protected (ar s) then op_wrperr n s
      else op_done (erase_page (page_of (ar s))) n s
}.

Section HAL.
Context `{!Fpec}.

(** ** stm32f1xx_hal_flash.c *)

Definition HAL_FLASH_Unlock : M flash HAL_StatusTypeDef :=
  locked ← gets (fun s => LOCK (cr s));
  if (locked : bool) then
    modify (fpec_key FLASH_KEY1);; modify (fpec_key FLASH_KEY2);;
    still ← gets (fun s => LOCK (cr s));
    mret (if (still : bool) then HAL_ERROR else HAL_OK)
  else mret HAL_OK.

Definition HAL_FLASH_Lock : M flash HAL_StatusTypeDef :=
  modify (set_LOCK true);; mret HAL_OK.

(** FLASH_SetErrorCode; the flags to clear are written back to SR at the end. *)
Definition FLASH_SetErrorCode : M flash unit :=
  wrp ← gets (fun s => WRPRTERR (sr s));
  (if (wrp : bool) then modify (fun s => set_ErrorCode (Z.lor (ErrorCode s) HAL_FLASH_ERROR_WRP) s) else mret tt);;
  prog ← gets (fun s => PGERR (sr s));
  (if (prog : bool) then modify (fun s => set_ErrorCode (Z.lor (ErrorCode s) HAL_FLASH_ERROR_PROG) s) else mret tt);;
  optv ← gets opterr;
  (if (optv : bool) then
     modify (fun s => set_opterr false (set_ErrorCode (Z.lor (ErrorCode s) HAL_FLASH_ERROR_OPTV) s))
   else mret tt);;
  modify (fun s => set_sr (SR (EOP (sr s)) (PGERR (sr s) && negb prog) (WRPRTERR (sr s) && negb wrp)) s).

(** The loop on BSY: [n] is how often BSY is still set; time passes between two reads.  The
    result says whether the time ran out. *)
Fixpoint wait_busy (n : nat) (Timeout tickstart now : Z) : bool * nat * Z :=
  match n with
  | O => (false, O, now)
  | S n' =>
    let now := u32 (now + fpec_lapse) in
    if bool_decide (Timeout <> HAL_MAX_DELAY) &&
       (bool_decide (Timeout = 0) || bool_decide (u32 (HAL_GetTick now - tickstart) > Timeout))
    then (true, n', now)
    else wait_busy n' Timeout tickstart now
  end.

Definition FLASH_WaitForLastOperation (Timeout : Z) : M flash HAL_StatusTypeDef :=
  tickstart ← gets (fun s => HAL_GetTick (tick s));
  r ← gets (fun s => wait_busy (busy s) Timeout tickstart (tick s));
  modify (set_busy r.1.2 r.2);;
  if (r.1.1 : bool) then mret HAL_TIMEOUT else
  modify (fun s => if EOP (sr s) then set_sr (SR false (PGERR (sr s)) (WRPRTERR (sr s))) s else s);;
  err ← gets (fun s => WRPRTERR (sr s) || opterr s || PGERR (sr s));
  if (err : bool) then FLASH_SetErrorCode;; mret HAL_ERROR
  else mret HAL_OK.

Definition FLASH_Program_HalfWord (Address Data : Z) : M flash unit :=
  modify (set_ErrorCode HAL_FLASH_ERROR_NONE);;
  modify (set_PG true);;
  modify (fpec_halfword Address Data).

(** for (index = 0; index < nbiterations; index++), with the status of the last round. *)
Fixpoint program_loop (todo : nat) (index Address Data : Z) (status : HAL_StatusTypeDef) : M flash HAL_StatusTypeDef :=
  match todo with
  | O => mret status
  | S todo' =>
    FLASH_Program_HalfWord (u32 (Address + 2 * index)) (u16 (Z.shiftr Data (16 * index)));;
    status ← FLASH_WaitForLastOperation FLASH_TIMEOUT_VALUE;
    modify (set_PG false);;
    if bool_decide (status <> HAL_OK) then mret status
    else program_loop todo' (index + 1) Address Data status
  end.

Definition nbiterations (t : TypeProgram) : nat :=
  match t with
  | FLASH_TYPEPROGRAM_HALFWORD => 1
  | FLASH_TYPEPROGRAM_WORD => 2
  | FLASH_TYPEPROGRAM_DOUBLEWORD => 4
  end.

Definition HAL_FLASH_Program (t : TypeProgram) (Address Data : Z) : M flash HAL_StatusTypeDef :=
  locked ← gets Lock;
  if (locked : bool) then mret HAL_BUSY else
  modify (set_Lock true);;
  status ← FLASH_WaitForLastOperation FLASH_TIMEOUT_VALUE;
  status ← (if bool_decide (status = HAL_OK) then program_loop (nbiterations t) 0 Address Data status
            else mret status);
  modify (set_Lock false);;
  mret status.

(** ** stm32f1xx_hal_flash_ex.c *)

Definition FLASH_MassErase (Banks : Z) : M flash unit :=
  modify (set_ErrorCode HAL_FLASH_ERROR_NONE);;
  modify (set_MER true);;
  modify fpec_start.

Definition FLASH_PageErase (PageAddress : Z) : M flash unit :=
  modify (set_ErrorCode HAL_FLASH_ERROR_NONE);;
  modify (set_PER true);;
  modify (set_ar PageAddress);;
  modify fpec_start.

(** for (address = PageAddress; address < NbPages * FLASH_PAGE_SIZE + PageAddress; ...);
    the result is the status of the last round and *PageError. *)
Fixpoint erase_loop (fuel : nat) (address limit : Z) (status : HAL_StatusTypeDef) (PageError : Z) :
    M flash (HAL_StatusTypeDef * Z) :=
  if bool_decide (address < limit) then
    match fuel with
    | O => ub
    | S fuel' =>
      FLASH_PageErase address;;
      status ← FLASH_WaitForLastOperation FLASH_TIMEOUT_VALUE;
      modify (set_PER false);;
      if bool_decide (status <> HAL_OK) then mret (status, address)
      else erase_loop fuel' (u32 (address + FLASH_PAGE_SIZE)) limit status PageError
    end
  else mret (status, PageError).

Definition HAL_FLASHEx_Erase (e : FLASH_EraseInitTypeDef) (PageError : Z) : M flash (HAL_StatusTypeDef * Z) :=
  locked ← gets Lock;
  if (locked : bool) then mret (HAL_BUSY, PageError) else
  modify (set_Lock true);;
  r ← match ei_TypeErase e with
      | FLASH_TYPEERASE_MASSERASE =>
        w ← FLASH_WaitForLastOperation FLASH_TIMEOUT_VALUE;
        if bool_decide (w = HAL_OK) then
          FLASH_MassErase FLASH_BANK_1;;
          status ← FLASH_WaitForLastOperation FLASH_TIMEOUT_VALUE;
          modify (set_MER false);;
          mret (status, PageError)
        else mret (HAL_ERROR, PageError)
      | FLASH_TYPEERASE_PAGES =>
        w ← FLASH_WaitForLastOperation FLASH_TIMEOUT_VALUE;
        if bool_decide (w = HAL_OK) then
          let limit := u32 (u32 (ei_NbPages e * FLASH_PAGE_SIZE) + ei_PageAddress e) in
          erase_loop (Z.to_nat (ei_NbPages e)) (ei_PageAddress e) limit HAL_ERROR 0xFFFFFFFF
        else mret (HAL_ERROR, PageError)
      end;
  modify (set_Lock false);;
  mret r.

(** ** drv_flash_f1.c *)


(** RT_ALIGN_DOWN(addr, FLASH_PAGE_SIZE) *)
Definition GetPage (addr : Z) : Z := Z.land addr (Z.lnot (FLASH_PAGE_SIZE - 1)).

(** The result with the bytes stored at [buf]. *)
Definition stm32_flash_read (addr size : Z) : M flash (Z * list Z) :=
  if bool_decide (u32 (addr + size) > STM32_FLASH_END_ADDRESS) then mret (- RT_EINVAL, [])
  else
    bytes ← gets (fun s => (fun i => cell s (u32 (addr + i))) <$> seqZ 0 size);
    mret (s32 size, bytes).

(** *(rt_uint32_t * )buf: four bytes have to be there. *)
Definition load32 (buf : list Z) : option Z :=
  match buf with
  | b0 :: b1 :: b2 :: b3 :: _ => Some (b0 + 256 * b1 + 65536 * b2 + 16777216 * b3)
  | _ => None
  end.
Definition cell32 (a : Z) (s : flash) : Z :=
  cell s a + 256 * cell s (a + 1) + 65536 * cell s (a + 2) + 16777216 * cell s (a + 3).

Fixpoint write_loop (fuel : nat) (addr end_addr : Z) (buf : list Z) : M flash Z :=
  if bool_decide (addr < end_addr) then
    match fuel with
    | O => ub
    | S fuel' =>
      w ← liftO (load32 buf);
      st ← HAL_FLASH_Program FLASH_TYPEPROGRAM_WORD addr w;
      if bool_decide (st = HAL_OK) then
        v ← gets (cell32 addr);
        if bool_decide (v <> w) then mret (- RT_ERROR)
        else write_loop fuel' (u32 (addr + 4)) end_addr (drop 4 buf)
      else mret (- RT_ERROR)
    end
  else mret 0.

Definition stm32_flash_write (addr : Z) (buf : list Z) (size : Z) : M flash Z :=
  let end_addr := u32 (addr + size) in
  if bool_decide (addr mod 4 <> 0) then mret (- RT_EINVAL)
  else if bool_decide (end_addr > STM32_FLASH_END_ADDRESS) then mret (- RT_EINVAL)
  else
    HAL_FLASH_Unlock;;
    result ← write_loop (Z.to_nat ((size + 3) / 4)) addr end_addr buf;
    HAL_FLASH_Lock;;
    mret (if bool_decide (result <> 0) then result else s32 size).

Definition stm32_flash_erase_bank (bank addr size : Z) : M flash Z :=
  if bool_decide (u32 (addr + size) > STM32_FLASH_END_ADDRESS) then mret (- RT_EINVAL)
  else
    HAL_FLASH_Unlock;;
    r ← HAL_FLASHEx_Erase (EraseInit FLASH_TYPEERASE_PAGES bank (GetPage addr)
                             (u32 (size + FLASH_PAGE_SIZE - 1) / FLASH_PAGE_SIZE)) 0;
    HAL_FLASH_Lock;;
    mret (if bool_decide (r.1 <> HAL_OK) then - RT_ERROR else s32 size).

(** FLASH_BANK2_END is not defined for this chip. *)
Definition stm32_flash_erase (addr size : Z) : M flash Z := stm32_flash_erase_bank FLASH_BANK_1 addr size.

(** The functions of stm32_onchip_flash. *)
Definition fal_flash_read (offset size : Z) : M flash (Z * list Z) :=
  stm32_flash_read (u32 (STM32_FLASH_START_ADRESS + offset)) size.
Definition fal_flash_write (offset : Z) (buf : list Z) (size : Z) : M flash Z :=
  stm32_flash_write (u32 (STM32_FLASH_START_ADRESS + offset)) buf size.
Definition fal_flash_erase (offset size : Z) : M flash Z :=
  stm32_flash_erase (u32 (STM32_FLASH_START_ADRESS + offset)) size.
End HAL.

(** ** Lemmas on the HAL *)

(** Between two calls of the driver: the handle is free and no operation selected. *)
Definition at_rest (lock : bool) (s : flash) : Prop := Lock s = false /\ cr s = CR lock false false false.

(** The controller is idle and shows no error, and the clock of HAL_GetTick, which jumps back to
    zero every 2^32 / 1000 ticks, does not do so during the next [c] ticks. *)
Definition prompt (c : Z) (s : flash) : Prop :=
  busy s = 0%nat /\ PGERR (sr s) = false /\ WRPRTERR (sr s) = false /\ opterr s = false /\
  0 <= tick s < 2 ^ 32 /\ u32 (tick s * 1000) + 1000 * c < 2 ^ 32.

(** What waiting leaves alone. *)
Definition kept (s s' : flash) : Prop := cell s' = cell s /\ cr s' = cr s /\ Lock s' = Lock s.

(** Arithmetic on addresses of the memory. *)
Ltac flash_consts :=
  unfold STM32_FLASH_END_ADDRESS, STM32_FLASH_START_ADRESS, STM32_FLASH_SIZE, FLASH_PAGE_SIZE in *.
Ltac flash_arith := flash_consts; Z.to_euclidean_division_equations; lia.

Lemma hal_tick_add t e :
  0 <= e -> u32 (t * 1000) + 1000 * e < 2 ^ 32 ->
  u32 (u32 (t + e) * 1000) = u32 (t * 1000) + 1000 * e /\ HAL_GetTick (u32 (t + e)) = HAL_GetTick t + e.
Proof.
  intros He H. pose proof (wrap_range 32 (t * 1000) ltac:(lia)) as Hr.
  assert (u32 (u32 (t + e) * 1000) = u32 (t * 1000) + 1000 * e) as E.
  { unfold wrap in *. rewrite Zmult_mod_idemp_l. replace ((t + e) * 1000) with (t * 1000 + 1000 * e) by lia.
    rewrite <- Zplus_mod_idemp_l. apply Z.mod_small. lia. }
  split; [done|]. unfold HAL_GetTick. rewrite E. Z.to_euclidean_division_equations. lia.
Qed.

Section HALlemmas.
Context {fpec : Fpec} {Hspec : FpecSpec}.

(** The loop on BSY returns; without a jump of the clock, it returns when the operation has ended. *)
Lemma wait_busy_any n T st now : forall b m t, wait_busy n T st now = (b, m, t) -> b = false -> m = 0%nat.
Proof. revert now. induction n as [|n IH]; intros now b m t; cbn; [by intros [= <- <- <-]|]. case_match; [by intros [= <- <- <-]|apply IH]. Qed.

Lemma wait_busy_done n t0 e c :
  0 <= e -> e + Z.of_nat n * fpec_lapse <= c -> c <= FLASH_TIMEOUT_VALUE -> u32 (t0 * 1000) + 1000 * c < 2 ^ 32 ->
  exists e', 0 <= e' <= c /\ wait_busy n FLASH_TIMEOUT_VALUE (HAL_GetTick t0) (u32 (t0 + e)) = (false, 0%nat, u32 (t0 + e')).
Proof.
  pose proof lapse_pos as HL. revert e. induction n as [|n IH]; intros e H1 H2 Hc H3; [exists e; split; [lia|done]|].
  cbn [wait_busy]. assert (u32 (u32 (t0 + e) + fpec_lapse) = u32 (t0 + (e + fpec_lapse))) as ->.
  { unfold wrap. rewrite Zplus_mod_idemp_l. f_equal. lia. }
  destruct (hal_tick_add t0 (e + fpec_lapse)) as [_ ->]; [lia|nia|].
  replace (HAL_GetTick t0 + (e + fpec_lapse) - HAL_GetTick t0) with (e + fpec_lapse) by lia.
  rewrite (wrap_id 32 (e + _)) by (unfold FLASH_TIMEOUT_VALUE in *; nia).
  rewrite (bool_decide_true (FLASH_TIMEOUT_VALUE <> HAL_MAX_DELAY)) by done.
  rewrite (bool_decide_false (FLASH_TIMEOUT_VALUE = 0)), bool_decide_false by (done || nia).
  apply IH; nia.
Qed.

(** Waiting returns; HAL_OK means that the operation ended without an error flag. *)
Lemma wait_any s :
  exists st s', FLASH_WaitForLastOperation FLASH_TIMEOUT_VALUE s = Some (st, s') /\ kept s s' /\
    (st = HAL_OK -> busy s' = 0%nat /\ PGERR (sr s) = false /\ WRPRTERR (sr s) = false).
Proof.
  unfold FLASH_WaitForLastOperation, FLASH_SetErrorCode, kept. munfold.
  destruct (wait_busy _ _ _ _) as [[b m] t] eqn:E. pose proof (wait_busy_any _ _ _ _ _ _ _ E) as Hm. clear E.
  destruct s as [ce c [e p w] a o bu ti k l er]. cbn.
  destruct b; [by eexists _, _|]. rewrite (Hm eq_refl).
  destruct e, p, w, o; cbn; eexists _, _; (split; [reflexivity|]); (split; [done|]); intros ?; split_and!; done.
Qed.

Lemma wait_prompt c d s :
  prompt c (set_busy 0 (tick s) s) -> Z.of_nat (busy s) * fpec_lapse <= d -> 0 <= d <= c -> d <= FLASH_TIMEOUT_VALUE ->
  exists s', FLASH_WaitForLastOperation FLASH_TIMEOUT_VALUE s = Some (HAL_OK, s') /\ kept s s' /\ prompt (c - d) s'.
Proof.
  intros (_ & Hp & Hw & Ho & Ht & Hc) Hb Hd Hl. cbn in *.
  destruct (wait_busy_done (busy s) (tick s) 0 d) as (e & He & E); [lia..|].
  rewrite Z.add_0_r, (wrap_id 32 (tick s)) in E by done.
  pose proof (wrap_range 32 (tick s + e) ltac:(lia)). destruct (hal_tick_add (tick s) e) as [Ee _]; [lia..|].
  unfold FLASH_WaitForLastOperation, kept, prompt. munfold. rewrite E.
  destruct s as [ce cc [ev p w] a o b ti k l er]. cbn in *. subst.
  destruct ev; cbn; eexists; (split; [reflexivity|]); cbn; (split; [done|]); split_and!; done || lia.
Qed.

(** One half-word: it is programmed or left alone; HAL_OK means programmed; what can be
    programmed is, if the clock does not jump. *)
Definition can_program (a d : Z) (s : flash) : Prop := fpec_protected a = false /\ (blank16 a s \/ d = 0).

Lemma halfword_ok a d s :
  busy s = 0%nat -> LOCK (cr s) = false -> in_flash a -> a mod 2 = 0 -> 0 <= d < 2 ^ 16 ->
  exists st s',
    (FLASH_Program_HalfWord a d;; st ← FLASH_WaitForLastOperation FLASH_TIMEOUT_VALUE;
     modify (set_PG false);; mret st) s = Some (st, s') /\
    Lock s' = Lock s /\ cr s' = CR false false (PER (cr s)) (MER (cr s)) /\
    (cell s' = put16 a d (cell s) \/ cell s' = cell s) /\
    (st = HAL_OK -> busy s' = 0%nat /\ cell s' = put16 a d (cell s)) /\
    (forall c, prompt c s -> PROG_TIME <= c -> can_program a d s -> st = HAL_OK /\ prompt (c - PROG_TIME) s').
Proof.
  intros Hb HL Ha He Hd.
  set (s1 := set_PG true (set_ErrorCode HAL_FLASH_ERROR_NONE s)).
  destruct (halfword_reaction a d s1) as (n & Hn & Er); [done..|].
  set (s2 := fpec_halfword a d s1) in *.
  assert (busy s2 = n /\ opterr s2 = opterr s /\ tick s2 = tick s /\ Lock s2 = Lock s /\ cr s2 = cr s1) as (H1 & H2 & H3 & H4 & H5).
  { rewrite Er. by repeat case_match. }
  destruct (wait_any s2) as (st & s3 & E3 & (Hc & Hcr & Hl) & Hok).
  exists st, (set_PG false s3). split_and!.
  - unfold FLASH_Program_HalfWord. munfold. fold s1. fold s2. by rewrite E3.
  - cbn. by rewrite Hl.
  - cbn. rewrite Hcr, H5. cbn. by rewrite HL.
  - cbn [cell set_PG set_cr]. rewrite Hc, Er. repeat case_match; auto.
  - intros Est. destruct (Hok Est) as (Hb3 & Hp3 & Hw3). cbn [cell busy set_PG set_cr]. split; [done|].
    rewrite Hc. rewrite Er in Hp3, Hw3 |- *. by repeat case_match.
  - intros c (_ & Hp & Hw & Ho & Ht & Htc) Hle [Hpr Hbl].
    assert (s2 = op_done (put16 a d) n s1) as E2. { rewrite Er, Hpr. by rewrite decide_True by done. }
    destruct (wait_prompt c PROG_TIME s2) as (s4 & E4 & _ & Hp4); [by rewrite E2|by rewrite H1|unfold PROG_TIME in *; lia|done|].
    rewrite E3 in E4. injection E4 as -> ->. done.
Qed.

Lemma program_loop_step n i A D st0 st s s' :
  (FLASH_Program_HalfWord (u32 (A + 2 * i)) (u16 (Z.shiftr D (16 * i)));;
   st ← FLASH_WaitForLastOperation FLASH_TIMEOUT_VALUE; modify (set_PG false);; mret st) s = Some (st, s') ->
  program_loop (S n) i A D st0 s =
  if bool_decide (st <> HAL_OK) then Some (st, s') else program_loop n (i + 1) A D st s'.
Proof.
  cbn [program_loop]. munfold. intros H.
  destruct (FLASH_Program_HalfWord _ _ s) as [[[] s1]|]; [|done].
  destruct (FLASH_WaitForLastOperation _ s1) as [[st1 s2]|]; [|done]. simplify_eq.
  by case_bool_decide.
Qed.

Lemma in_flash_word a i : in_flash a -> a mod 4 = 0 -> 0 <= i < 4 -> in_flash (a + i).
Proof.
  unfold in_flash, STM32_FLASH_END_ADDRESS, STM32_FLASH_START_ADRESS, STM32_FLASH_SIZE. intros.
  Z.to_euclidean_division_equations. lia.
Qed.

Lemma in_flash_u32 a : in_flash a -> 0 <= a < 2 ^ 32.
Proof. unfold in_flash, STM32_FLASH_END_ADDRESS, STM32_FLASH_START_ADRESS, STM32_FLASH_SIZE. lia. Qed.

Definition put32 (a w : Z) (f : Z -> Z) : Z -> Z := put16 (a + 2) (w / 2 ^ 16) (put16 a (w mod 2 ^ 16) f).

Lemma put16_frame a d f x : x <> a -> x <> a + 1 -> put16 a d f x = f x.
Proof. intros. unfold put16. by rewrite !bool_decide_false. Qed.

Lemma program_word a w s :
  busy s = 0%nat -> cr s = CR false false false false -> in_flash a -> a mod 4 = 0 -> 0 <= w < 2 ^ 32 ->
  exists st s',
    program_loop 2 0 a w HAL_OK s = Some (st, s') /\
    Lock s' = Lock s /\ cr s' = CR false false false false /\
    (forall x, ~ a <= x < a + 4 -> cell s' x = cell s x) /\
    (st = HAL_OK -> cell s' = put32 a w (cell s)) /\
    (forall c, prompt c s -> WORD_TIME <= c -> can_program a (w mod 2 ^ 16) s -> can_program (a + 2) (w / 2 ^ 16) s ->
     st = HAL_OK /\ prompt (c - WORD_TIME) s').
Proof.
  intros Hs Hcr Ha Hal Hw.
  assert (in_flash (a + 2)) as Ha2 by (by apply in_flash_word).
  pose proof (in_flash_u32 _ Ha). pose proof (in_flash_u32 _ Ha2).
  assert (0 <= w mod 2 ^ 16 < 2 ^ 16 /\ 0 <= w / 2 ^ 16 < 2 ^ 16) as [Hlo Hhi]
    by (Z.to_euclidean_division_equations; lia).
  assert (u32 (a + 2 * 0) = a /\ u32 (a + 2 * (0 + 1)) = a + 2) as [Ea Ea2]
    by (split; rewrite wrap_id by lia; lia).
  assert (u16 (Z.shiftr w (16 * 0)) = w mod 2 ^ 16) as Elo by (by rewrite Z.shiftr_0_r).
  assert (u16 (Z.shiftr w (16 * (0 + 1))) = w / 2 ^ 16) as Ehi
    by (rewrite Z.shiftr_div_pow2 by lia; by apply wrap_id).
  assert (a mod 2 = 0 /\ (a + 2) mod 2 = 0) as [He He2] by (Z.to_euclidean_division_equations; lia).
  destruct (halfword_ok a (w mod 2 ^ 16) s) as (st1 & s1 & E1 & Hl1 & Hc1 & Hf1 & Hok1 & Hp1); [done|by rewrite Hcr|done..|].
  rewrite (program_loop_step _ _ _ _ _ st1 s s1) by (by rewrite Ea, Elo).
  rewrite Hcr in Hc1. cbn in Hc1.
  destruct (decide (st1 = HAL_OK)) as [->|Hst].
  2: { rewrite bool_decide_true by done. exists st1, s1. split_and!; try done.
       - intros x Hx. destruct Hf1 as [->| ->]; rewrite ?put16_frame; lia || done.
       - intros c Hp Hle H1 _. by destruct (Hp1 c Hp) as [? _]; [unfold WORD_TIME, PROG_TIME in *; lia|done|]. }
  destruct (Hok1 eq_refl) as [Hb1 E1c]. rewrite bool_decide_false by (intros F; by apply F).
  destruct (halfword_ok (a + 2) (w / 2 ^ 16) s1) as (st2 & s2 & E2 & Hl2 & Hc2 & Hf2 & Hok2 & Hp2); [done|by rewrite Hc1|done..|].
  rewrite (program_loop_step _ _ _ _ _ st2 s1 s2) by (by rewrite Ea2, Ehi).
  exists st2, s2. rewrite Hc1 in Hc2. split_and!; [by destruct st2|congruence|done| | |].
  - intros x Hx. destruct Hf2 as [->| ->]; rewrite ?E1c, !put16_frame; lia || done.
  - intros Est. destruct (Hok2 Est) as [_ ->]. by rewrite E1c.
  - intros c Hp Hle H1 [Hpr Hbl]. unfold WORD_TIME, PROG_TIME in *.
    destruct (Hp1 c Hp) as [_ Hpc]; [lia|done|].
    replace (c - 2 * 1) with (c - 1 - 1) by lia. apply Hp2; [done|lia|]. split; [done|].
    destruct Hbl as [[B1 B2]|]; [left|by right]. unfold blank16. rewrite E1c, !put16_frame by lia. done.
Qed.

(** The wait before an operation, with the handle taken. *)
Lemma wait_before s lock : at_rest lock s ->
  exists st s', FLASH_WaitForLastOperation FLASH_TIMEOUT_VALUE (set_Lock true s) = Some (st, s') /\
    cell s' = cell s /\ cr s' = CR lock false false false /\ Lock s' = true /\ (st = HAL_OK -> busy s' = 0%nat) /\
    (forall c, prompt c s -> 0 <= c -> st = HAL_OK /\ prompt c s').
Proof.
  intros [Hl Hc]. destruct (wait_any (set_Lock true s)) as (st & s' & E & (Hce & Hcr & Hlk) & Hok).
  exists st, s'. split_and!; [done|done|rewrite Hcr; exact Hc|done| |].
  - intros Est. by apply Hok.
  - intros c Hp Hc0. destruct (wait_prompt c 0 (set_Lock true s)) as (s2 & E2 & _ & Hp2); [|cbn; destruct Hp as (-> & _); done|lia|done|].
    { destruct Hp as [_ Hp]. exact (conj eq_refl Hp). }
    rewrite E in E2. injection E2 as -> ->. by rewrite Z.sub_0_r in Hp2.
Qed.

Lemma HAL_FLASH_Program_ok a w s :
  at_rest false s -> in_flash a -> a mod 4 = 0 -> 0 <= w < 2 ^ 32 ->
  exists st s',
    HAL_FLASH_Program FLASH_TYPEPROGRAM_WORD a w s = Some (st, s') /\ at_rest false s' /\
    (forall x, ~ a <= x < a + 4 -> cell s' x = cell s x) /\
    (st = HAL_OK -> cell s' = put32 a w (cell s)) /\
    (forall c, prompt c s -> WORD_TIME <= c -> can_program a (w mod 2 ^ 16) s -> can_program (a + 2) (w / 2 ^ 16) s ->
     st = HAL_OK /\ prompt (c - WORD_TIME) s').
Proof.
  intros Hr Ha Hal Hw. pose proof (proj1 Hr) as Hl.
  destruct (wait_before s false Hr) as (st1 & s1 & E1 & Hc1 & Hcr1 & Hl1 & Hb1 & Hp1).
  unfold HAL_FLASH_Program. munfold. rewrite Hl, E1.
  destruct (decide (st1 = HAL_OK)) as [->|Hst].
  - destruct (program_word a w s1) as (st & s2 & E2 & Hl2 & Hc2 & Hf & Hok & Hcan); [by apply Hb1|done..|].
    rewrite bool_decide_true by done. cbn [nbiterations]. rewrite E2. exists st, (set_Lock false s2).
    rewrite Hc1 in *. split; [done|split; [done|split_and!]]; [done|done|].
    intros c Hp Hle H1 H2. unfold WORD_TIME, PROG_TIME in *. destruct (Hp1 c Hp) as [_ Hp2]; [lia|].
    unfold can_program, blank16 in *. rewrite Hc1 in Hcan. by destruct (Hcan c Hp2).
  - rewrite bool_decide_false by done. exists st1, (set_Lock false s1).
    split; [done|split; [done|split_and!]]; [intros; cbn; by rewrite Hc1|done|].
    intros c Hp Hle. unfold WORD_TIME, PROG_TIME in *. by destruct (Hp1 c Hp) as [? _]; [lia|].
Qed.

Lemma page_of_aligned p : p mod FLASH_PAGE_SIZE = 0 -> page_of p = p.
Proof. unfold page_of, FLASH_PAGE_SIZE. intros. Z.to_euclidean_division_equations. lia. Qed.

Lemma page_ok p s :
  busy s = 0%nat -> cr s = CR false false false false -> in_flash p -> p mod FLASH_PAGE_SIZE = 0 ->
  exists st s',
    (FLASH_PageErase p;; st ← FLASH_WaitForLastOperation FLASH_TIMEOUT_VALUE;
     modify (set_PER false);; mret st) s = Some (st, s') /\
    Lock s' = Lock s /\ cr s' = CR false false false false /\
    (cell s' = erase_page p (cell s) \/ cell s' = cell s) /\
    (st = HAL_OK -> busy s' = 0%nat /\ cell s' = erase_page p (cell s)) /\
    (forall c, prompt c s -> ERASE_TIME <= c -> fpec_protected p = false -> st = HAL_OK /\ prompt (c - ERASE_TIME) s').
Proof.
  intros Hb HC Ha Hal.
  set (s1 := set_ar p (set_PER true (set_ErrorCode HAL_FLASH_ERROR_NONE s))).
  destruct (start_reaction s1) as (n & Hn & Er); [by cbn; rewrite ?HC..|].
  set (s2 := fpec_start s1) in *. cbn [ar s1 set_ar] in Er. rewrite page_of_aligned in Er by done.
  assert (busy s2 = n /\ Lock s2 = Lock s /\ cr s2 = cr s1) as (H1 & H4 & H5) by (rewrite Er; by case_match).
  destruct (wait_any s2) as (st & s3 & E3 & (Hc & Hcr & Hl) & Hok).
  exists st, (set_PER false s3). split_and!.
  - unfold FLASH_PageErase. munfold. fold s1. fold s2. by rewrite E3.
  - cbn. by rewrite Hl.
  - cbn. rewrite Hcr, H5. cbn. by rewrite HC.
  - cbn [cell set_PER set_cr]. rewrite Hc, Er. case_match; auto.
  - intros Est. destruct (Hok Est) as (Hb3 & Hp3 & Hw3). cbn [cell busy set_PER set_cr]. split; [done|].
    rewrite Hc. rewrite Er in Hp3, Hw3 |- *. by case_match.
  - intros c (_ & Hp & Hw & Ho & Ht & Htc) Hle Hpr.
    assert (s2 = op_done (erase_page p) n s1) as E2 by (by rewrite Er, Hpr).
    destruct (wait_prompt c ERASE_TIME s2) as (s4 & E4 & _ & Hp4); [by rewrite E2|by rewrite H1|unfold ERASE_TIME in *; lia|done|].
    rewrite E3 in E4. injection E4 as -> ->. done.
Qed.

Lemma erase_loop_step n a limit st0 pe st s s' :
  a < limit ->
  (FLASH_PageErase a;; st ← FLASH_WaitForLastOperation FLASH_TIMEOUT_VALUE;
   modify (set_PER false);; mret st) s = Some (st, s') ->
  erase_loop (S n) a limit st0 pe s =
  if bool_decide (st <> HAL_OK) then Some ((st, a), s') else erase_loop n (u32 (a + FLASH_PAGE_SIZE)) limit st pe s'.
Proof.
  intros Ha. cbn [erase_loop]. rewrite bool_decide_true by done. munfold. intros H.
  destruct (FLASH_PageErase a s) as [[[] s1]|]; [|done].
  destruct (FLASH_WaitForLastOperation _ s1) as [[st1 s2]|]; [|done]. simplify_eq.
  by case_bool_decide.
Qed.

(** [n] pages from [a] on. *)
Lemma erase_loop_ok n a st0 pe s :
  busy s = 0%nat -> cr s = CR false false false false ->
  STM32_FLASH_START_ADRESS <= a -> a mod FLASH_PAGE_SIZE = 0 ->
  a + Z.of_nat n * FLASH_PAGE_SIZE <= STM32_FLASH_END_ADDRESS ->
  exists st pe' s',
    erase_loop n a (a + Z.of_nat n * FLASH_PAGE_SIZE) st0 pe s = Some ((st, pe'), s') /\
    Lock s' = Lock s /\ cr s' = CR false false false false /\
    (forall x, ~ a <= x < a + Z.of_nat n * FLASH_PAGE_SIZE -> cell s' x = cell s x) /\
    (st = HAL_OK -> st0 = HAL_OK \/ (0 < n)%nat) /\
    (st = HAL_OK -> forall x, a <= x < a + Z.of_nat n * FLASH_PAGE_SIZE -> cell s' x = 0xFF) /\
    (forall c, prompt c s -> Z.of_nat n * ERASE_TIME <= c -> st0 = HAL_OK \/ (0 < n)%nat ->
     (forall x, a <= x < a + Z.of_nat n * FLASH_PAGE_SIZE -> fpec_protected x = false) ->
     st = HAL_OK /\ prompt (c - Z.of_nat n * ERASE_TIME) s').
Proof.
  revert a st0 s. induction n as [|n IH]; intros a st0 s Hs Hc Hlo Hal Hhi.
  { exists st0, pe, s. cbn [erase_loop]. rewrite bool_decide_false by lia.
    split_and!; auto with lia.
    intros c Hp _ [?|?] _; [|lia]. by rewrite Z.mul_0_l, Z.sub_0_r. }
  assert (0 < FLASH_PAGE_SIZE) by done.
  assert (in_flash a) as Ha by (unfold in_flash; lia).
  destruct (page_ok a s) as (st1 & s1 & E1 & Hl1 & Hc1 & Hf1 & Hok1 & Hp1); [done..|].
  rewrite (erase_loop_step n a _ st0 pe st1 s s1) by (done || lia).
  destruct (decide (st1 = HAL_OK)) as [->|Hst].
  2: { rewrite bool_decide_true by done. exists st1, a, s1. split_and!; try done.
       - intros x Hx. destruct Hf1 as [->| ->]; [|done]. unfold erase_page. by rewrite bool_decide_false by lia.
       - intros c Hp Hle _ Hpr. unfold ERASE_TIME in *. by destruct (Hp1 c Hp) as [? _]; [lia|apply Hpr; lia|]. }
  destruct (Hok1 eq_refl) as [Hb1 E]. rewrite bool_decide_false by (intros F; by apply F).
  pose proof (in_flash_u32 _ Ha).
  assert (u32 (a + FLASH_PAGE_SIZE) = a + FLASH_PAGE_SIZE) as ->.
  { apply wrap_id. unfold STM32_FLASH_END_ADDRESS, STM32_FLASH_START_ADRESS, STM32_FLASH_SIZE in Hhi. lia. }
  destruct (IH (a + FLASH_PAGE_SIZE) HAL_OK s1) as (st & pe' & s' & E2 & Hl2 & Hc2 & Hf & _ & Hok & Hcan);
    [done|done|lia| |lia|].
  { rewrite <- Zplus_mod_idemp_r, Z_mod_same_full, Z.add_0_r. done. }
  replace (a + FLASH_PAGE_SIZE + Z.of_nat n * FLASH_PAGE_SIZE) with (a + Z.of_nat (S n) * FLASH_PAGE_SIZE) in * by lia.
  exists st, pe', s'. split_and!; [done|congruence|done| |intros _; right; lia| |].
  - intros x Hx. rewrite Hf by lia. rewrite E. unfold erase_page. by rewrite bool_decide_false by lia.
  - intros Hst x Hx. destruct (decide (a + FLASH_PAGE_SIZE <= x)); [apply Hok; [done|lia]|].
    rewrite Hf by lia. rewrite E. unfold erase_page. by rewrite bool_decide_true by lia.
  - intros c Hp Hle _ Hpr. assert (0 < ERASE_TIME) by done. destruct (Hp1 c Hp) as [_ Hp2]; [lia|apply Hpr; lia|].
    replace (c - Z.of_nat (S n) * ERASE_TIME) with (c - ERASE_TIME - Z.of_nat n * ERASE_TIME) by lia.
    apply Hcan; [done|lia|by left|]. intros x Hx. apply Hpr. lia.
Qed.

Lemma HAL_FLASHEx_Erase_ok n a bank pe s :
  at_rest false s -> STM32_FLASH_START_ADRESS <= a -> a mod FLASH_PAGE_SIZE = 0 ->
  a + Z.of_nat n * FLASH_PAGE_SIZE <= STM32_FLASH_END_ADDRESS ->
  exists st pe' s',
    HAL_FLASHEx_Erase (EraseInit FLASH_TYPEERASE_PAGES bank a (Z.of_nat n)) pe s = Some ((st, pe'), s') /\
    at_rest false s' /\
    (forall x, ~ a <= x < a + Z.of_nat n * FLASH_PAGE_SIZE -> cell s' x = cell s x) /\
    (st = HAL_OK -> (0 < n)%nat) /\
    (st = HAL_OK -> forall x, a <= x < a + Z.of_nat n * FLASH_PAGE_SIZE -> cell s' x = 0xFF) /\
    (forall c, prompt c s -> Z.of_nat n * ERASE_TIME <= c -> (0 < n)%nat ->
     (forall x, a <= x < a + Z.of_nat n * FLASH_PAGE_SIZE -> fpec_protected x = false) ->
     st = HAL_OK /\ prompt (c - Z.of_nat n * ERASE_TIME) s').
Proof.
  intros Hr Hlo Hal Hhi. pose proof (proj1 Hr) as Hl.
  destruct (wait_before s false Hr) as (st1 & s1 & E1 & Hc1 & Hcr1 & Hl1 & Hb1 & Hp1).
  unfold HAL_FLASHEx_Erase. munfold. rewrite Hl. cbn [ei_TypeErase ei_NbPages ei_PageAddress]. rewrite E1.
  assert (0 < ERASE_TIME) by done.
  destruct (decide (st1 = HAL_OK)) as [->|Hst].
  - destruct (erase_loop_ok n a HAL_ERROR 0xFFFFFFFF s1)
      as (st & pe' & s2 & E2 & Hl2 & Hc2 & Hf & Hst & Hok & Hcan); [by apply Hb1|done..|].
    rewrite bool_decide_true by done. rewrite Nat2Z.id.
    assert (u32 (u32 (Z.of_nat n * FLASH_PAGE_SIZE) + a) = a + Z.of_nat n * FLASH_PAGE_SIZE) as ->.
    { flash_consts. rewrite (wrap_id 32 (Z.of_nat n * _)), wrap_id by lia. lia. }
    rewrite E2. exists st, pe', (set_Lock false s2). rewrite Hc1 in Hf.
    split; [done|split; [done|split_and!]]; [done| |done|].
    + intros E. by destruct (Hst E).
    + intros c Hp Hle Hn Hpr. destruct (Hp1 c Hp) as [_ Hp2]; [lia|]. by apply Hcan; [..|right|].
  - rewrite bool_decide_false by done. exists HAL_ERROR, pe, (set_Lock false s1).
    split; [done|split; [done|split_and!]]; [intros; cbn; by rewrite Hc1|done|done|].
    intros c Hp Hle Hn. by destruct (Hp1 c Hp) as [? _]; [lia|].
Qed.

Lemma unlock_ok s :
  at_rest true s -> exists s', HAL_FLASH_Unlock s = Some (HAL_OK, s') /\ at_rest false s' /\ cell s' = cell s /\
    (forall c, prompt c s -> prompt c s').
Proof.
  intros (Hl & Hc). destruct (keys_unlock s) as [k E]; [by rewrite Hc|].
  exists (set_keys k (set_LOCK false s)). split; [|split; [|done]].
  - unfold HAL_FLASH_Unlock. munfold. rewrite Hc. cbn [LOCK]. by rewrite E.
  - split; [done|]. cbn. by rewrite Hc.
Qed.

Lemma lock_ok s : at_rest false s -> HAL_FLASH_Lock s = Some (HAL_OK, set_LOCK true s) /\ at_rest true (set_LOCK true s).
Proof. intros (Hl & Hc). split; [done|]. split; [done|]. cbn. by rewrite Hc. Qed.

Definition byte_list (l : list Z) : Prop := Forall (fun b => 0 <= b < 256) l.

Lemma load32_some buf :
  (4 <= length buf)%nat -> byte_list buf ->
  exists b0 b1 b2 b3, buf = b0 :: b1 :: b2 :: b3 :: drop 4 buf /\ byte_list [b0; b1; b2; b3] /\
    load32 buf = Some (b0 + 256 * b1 + 65536 * b2 + 16777216 * b3).
Proof.
  intros Hl H. destruct buf as [|b0 [|b1 [|b2 [|b3 buf]]]]; cbn in Hl; try lia.
  exists b0, b1, b2, b3. split; [done|]. split; [|done].
  apply (Forall_app _ [b0; b1; b2; b3] buf) in H. tauto.
Qed.

Lemma put32_bytes a f b0 b1 b2 b3 :
  byte_list [b0; b1; b2; b3] ->
  let g := put32 a (b0 + 256 * b1 + 65536 * b2 + 16777216 * b3) f in
  g a = b0 /\ g (a + 1) = b1 /\ g (a + 2) = b2 /\ g (a + 3) = b3.
Proof.
  intros H. repeat (apply Forall_cons in H as [? H]). cbn zeta. unfold put32, put16.
  split_and!; repeat case_bool_decide; try lia; Z.to_euclidean_division_equations; lia.
Qed.

Definition blank (a n : Z) (s : flash) : Prop := forall x, a <= x < a + n -> cell s x = 0xFF /\ fpec_protected x = false.

Lemma write_loop_ok k addr end_addr buf s :
  at_rest false s -> STM32_FLASH_START_ADRESS <= addr -> addr mod 4 = 0 ->
  addr + 4 * Z.of_nat k - 4 < end_addr -> end_addr <= addr + 4 * Z.of_nat k -> end_addr <= STM32_FLASH_END_ADDRESS ->
  (4 * k <= length buf)%nat -> byte_list buf ->
  exists r s',
    write_loop k addr end_addr buf s = Some (r, s') /\ at_rest false s' /\
    (r = 0 \/ r = - RT_ERROR) /\
    (forall x, ~ addr <= x < addr + 4 * Z.of_nat k -> cell s' x = cell s x) /\
    (r = 0 -> forall i, (i < 4 * k)%nat -> buf !! i = Some (cell s' (addr + Z.of_nat i))) /\
    (forall c, prompt c s -> Z.of_nat k * WORD_TIME <= c -> blank addr (4 * Z.of_nat k) s ->
     r = 0 /\ prompt (c - Z.of_nat k * WORD_TIME) s').
Proof.
  revert addr buf s. induction k as [|k IH]; intros addr buf s Hq Hlo Hal H1 H2 Hend Hlen Hb.
  { exists 0, s. cbn [write_loop]. rewrite bool_decide_false by lia.
    split; [done|split; [done|split_and!]]; auto with lia. intros c Hp _ _. by rewrite Z.mul_0_l, Z.sub_0_r. }
  cbn [write_loop]. rewrite bool_decide_true by lia.
  destruct (load32_some buf) as (b0 & b1 & b2 & b3 & Eb & Hbs & El); [lia|done|].
  set (w := b0 + 256 * b1 + 65536 * b2 + 16777216 * b3) in *.
  assert (in_flash addr) as Ha by (unfold in_flash; lia). assert (0 < WORD_TIME) by done.
  assert (0 <= w < 2 ^ 32) as Hw by (repeat (apply Forall_cons in Hbs as [? Hbs]); lia).
  destruct (HAL_FLASH_Program_ok addr w s) as (st & s1 & E1 & Hq1 & Hf1 & Hok1 & Hcan1); [done..|].
  munfold. rewrite El, E1.
  assert (forall c, prompt c s -> Z.of_nat (S k) * WORD_TIME <= c -> blank addr (4 * Z.of_nat (S k)) s ->
            st = HAL_OK /\ prompt (c - WORD_TIME) s1) as Hstep.
  { intros c Hp Hle Hbl. apply Hcan1; [done|lia|..]; (split; [apply Hbl; lia|left; split; apply Hbl; lia]). }
  destruct (decide (st = HAL_OK)) as [->|Hst].
  2: { rewrite bool_decide_false by done. exists (- RT_ERROR), s1.
       split; [done|split; [done|split_and!]]; [by right|intros; apply Hf1; lia|done|].
       intros c Hp Hle Hbl. by destruct (Hstep c Hp Hle Hbl). }
  rewrite bool_decide_true by done. specialize (Hok1 eq_refl).
  pose proof (put32_bytes addr (cell s) b0 b1 b2 b3 Hbs) as (P0 & P1 & P2 & P3). fold w in P0, P1, P2, P3.
  assert (cell32 addr s1 = w) as Ew by (unfold cell32; rewrite Hok1, P0, P1, P2, P3; done).
  rewrite Ew, bool_decide_false by (intros F; by apply F).
  pose proof (in_flash_u32 _ Ha).
  assert (u32 (addr + 4) = addr + 4) as -> by (apply wrap_id; unfold in_flash in *; flash_consts; lia).
  destruct (IH (addr + 4) (drop 4 buf) s1) as (r & s2 & E2 & Hq2 & Hr & Hf2 & Hok2 & Hcan2);
    [done|lia|Z.to_euclidean_division_equations; lia|lia..|rewrite length_drop; lia|by apply Forall_drop|].
  exists r, s2. split; [done|split; [done|split_and!]]; [done| | |].
  - intros x Hx. rewrite Hf2, Hf1 by lia. done.
  - intros Hr0 i Hi. destruct (decide (i < 4)%nat) as [Hi4|Hi4].
    + rewrite Hf2, Hok1 by lia. rewrite Eb. destruct i as [|[|[|[|i]]]]; cbn [lookup list_lookup]; [..|lia];
        [rewrite Z.add_0_r, P0|change (Z.of_nat 1) with 1; rewrite P1|change (Z.of_nat 2) with 2; rewrite P2
        |change (Z.of_nat 3) with 3; rewrite P3]; done.
    + specialize (Hok2 Hr0 (i - 4)%nat ltac:(lia)). rewrite lookup_drop in Hok2.
      replace (4 + (i - 4))%nat with i in Hok2 by lia. rewrite Hok2. do 2 f_equal. lia.
  - intros c Hp Hle Hbl. destruct (Hstep c Hp Hle Hbl) as [_ Hp2].
    replace (c - Z.of_nat (S k) * WORD_TIME) with (c - WORD_TIME - Z.of_nat k * WORD_TIME) by lia.
    apply Hcan2; [done|lia|]. intros x Hx. rewrite Hf1 by lia. apply Hbl. lia.
Qed.

Lemma GetPage_eq a : GetPage a = page_of a.
Proof.
  unfold GetPage, page_of. change (Z.lnot (FLASH_PAGE_SIZE - 1)) with (Z.lnot (Z.ones 11)).
  rewrite <- Z.ldiff_land, Z.ldiff_ones_r by lia. rewrite Z.shiftl_mul_pow2, Z.shiftr_div_pow2 by lia.
  change (2 ^ 11) with FLASH_PAGE_SIZE. lia.
Qed.

(** ** The driver *)

(** The byte at an offset of the device. *)
Definition flash_at (s : flash) (o : Z) : Z := cell s (STM32_FLASH_START_ADRESS + o).

(** The bytes a write programs and the bytes an erase clears, from the given offset on. *)
Definition write_span (size : Z) : Z := 4 * ((size + 3) / 4).
Definition erase_span (size : Z) : Z := FLASH_PAGE_SIZE * ((size + FLASH_PAGE_SIZE - 1) / FLASH_PAGE_SIZE).

(** The ticks they take at most. *)
Definition write_time (size : Z) : Z := (size + 3) / 4 * WORD_TIME.
Definition erase_time (size : Z) : Z := (size + FLASH_PAGE_SIZE - 1) / FLASH_PAGE_SIZE * ERASE_TIME.

Lemma flash_u32 o : 0 <= o <= STM32_FLASH_SIZE -> u32 (STM32_FLASH_START_ADRESS + o) = STM32_FLASH_START_ADRESS + o.
Proof. intros. apply wrap_id. flash_consts. lia. Qed.

Lemma size_s32 n : 0 <= n <= STM32_FLASH_SIZE -> s32 n = n.
Proof. intros. apply swrap_id; [lia|]. flash_consts. lia. Qed.

Lemma fal_flash_read_ok o size s :
  0 <= o -> 0 <= size -> o + size <= STM32_FLASH_SIZE ->
  fal_flash_read o size s = Some ((size, flash_at s <$> seqZ o size), s).
Proof.
  intros Ho Hs He. unfold fal_flash_read, stm32_flash_read.
  rewrite flash_u32 by lia. rewrite <- Z.add_assoc, flash_u32 by lia.
  rewrite bool_decide_false by (flash_consts; lia). munfold. rewrite size_s32 by lia. do 3 f_equal.
  replace (seqZ o size) with (Z.add o <$> seqZ 0 size) by (rewrite fmap_add_seqZ; f_equal; lia).
  rewrite <- list_fmap_compose.
  apply list_fmap_ext. intros k x [Ex Hk]%lookup_seqZ. cbn.
  unfold flash_at. rewrite <- Z.add_assoc, flash_u32 by lia. done.
Qed.

Lemma fal_flash_write_ok o buf size s :
  at_rest true s -> 0 <= o -> 0 <= size -> o mod 4 = 0 -> o + size <= STM32_FLASH_SIZE ->
  write_span size <= Z.of_nat (length buf) -> byte_list buf ->
  exists r s',
    fal_flash_write o buf size s = Some (r, s') /\ at_rest true s' /\ (r = size \/ r < 0) /\
    (forall x, ~ o <= x < o + write_span size -> flash_at s' x = flash_at s x) /\
    (0 <= r -> forall i, (Z.of_nat i < write_span size) -> buf !! i = Some (flash_at s' (o + Z.of_nat i))) /\
    (forall c, prompt c s -> write_time size <= c ->
     (forall x, o <= x < o + write_span size -> flash_at s x = 0xFF /\ fpec_protected (STM32_FLASH_START_ADRESS + x) = false) ->
     r = size /\ prompt (c - write_time size) s').
Proof.
  intros Hq Ho Hs Hal He Hlen Hb. unfold write_span in *.
  unfold fal_flash_write, stm32_flash_write. rewrite flash_u32 by lia.
  rewrite <- Z.add_assoc, flash_u32 by lia. set (A := STM32_FLASH_START_ADRESS) in *.
  assert ((A + o) mod 4 = 0) as HalA by (subst A; flash_arith).
  rewrite (bool_decide_false ((A + o) mod 4 <> 0)) by lia.
  rewrite bool_decide_false by (subst A; flash_consts; lia).
  destruct (unlock_ok s Hq) as (s1 & E1 & Hq1 & Hc1 & Hpr1).
  set (k := Z.to_nat ((size + 3) / 4)).
  assert (Z.of_nat k = (size + 3) / 4) as Hk by (apply Z2Nat.id; flash_arith).
  destruct (write_loop_ok k (A + o) (A + (o + size)) buf s1) as (r & s2 & E2 & Hq2 & Hr & Hf & Hok & Hcan);
    [done|lia|done|rewrite Hk; flash_arith..|rewrite ?Hk; subst A; flash_consts; lia|lia|done|].
  destruct (lock_ok s2 Hq2) as [E3 Hq3].
  exists (if bool_decide (r <> 0) then r else s32 size), (set_LOCK true s2).
  rewrite size_s32 by lia. unfold flash_at, RT_ERROR in *. cbn [cell set_LOCK set_cr].
  rewrite Hc1 in Hf. fold A.
  split; [|split; [done|split_and!]].
  - munfold. by rewrite E1, E2, E3.
  - case_bool_decide; lia.
  - intros x Hx. apply Hf. lia.
  - intros Hr0 i Hi. case_bool_decide; [lia|]. rewrite (Hok ltac:(lia) i) by lia. do 2 f_equal. lia.
  - intros c Hp Hle Hbl. unfold write_time in *. rewrite <- Hk in *.
    destruct (Hcan c (Hpr1 c Hp) Hle) as [-> Hp2]; [|by rewrite bool_decide_false by (intros F; by apply F)].
    intros x Hx. rewrite Hc1. replace x with (A + (x - A)) by lia. apply Hbl. lia.
Qed.

Lemma fal_flash_erase_ok o size s :
  at_rest true s -> 0 <= o -> 0 <= size -> o + size <= STM32_FLASH_SIZE ->
  exists r s',
    fal_flash_erase o size s = Some (r, s') /\ at_rest true s' /\ (r = size /\ 0 < size \/ r < 0) /\
    (forall x, ~ page_of o <= x < page_of o + erase_span size -> flash_at s' x = flash_at s x) /\
    (0 <= r -> forall x, page_of o <= x < page_of o + erase_span size -> flash_at s' x = 0xFF) /\
    (forall c, prompt c s -> erase_time size <= c -> 0 < size ->
     (forall x, page_of o <= x < page_of o + erase_span size -> fpec_protected (STM32_FLASH_START_ADRESS + x) = false) ->
     r = size /\ prompt (c - erase_time size) s').
Proof.
  intros Hq Ho Hs He. unfold erase_span in *.
  unfold fal_flash_erase, stm32_flash_erase, stm32_flash_erase_bank. rewrite flash_u32 by lia.
  rewrite <- Z.add_assoc, flash_u32 by lia. rewrite bool_decide_false by (flash_consts; lia).
  rewrite GetPage_eq. rewrite (wrap_id 32 (size + _ - _)) by (flash_consts; lia).
  destruct (unlock_ok s Hq) as (s1 & E1 & Hq1 & Hc1 & Hpr1).
  assert (page_of (STM32_FLASH_START_ADRESS + o) = STM32_FLASH_START_ADRESS + page_of o) as ->
    by (unfold page_of; flash_arith).
  set (k := Z.to_nat ((size + FLASH_PAGE_SIZE - 1) / FLASH_PAGE_SIZE)).
  assert (Z.of_nat k = (size + FLASH_PAGE_SIZE - 1) / FLASH_PAGE_SIZE) as Hk by (apply Z2Nat.id; flash_arith).
  rewrite <- Hk.
  destruct (HAL_FLASHEx_Erase_ok k (STM32_FLASH_START_ADRESS + page_of o) FLASH_BANK_1 0 s1)
    as (st & pe & s2 & E2 & Hq2 & Hf & Hn & Hok & Hcan); [done|unfold page_of; flash_arith..|rewrite Hk; unfold page_of; flash_arith|].
  destruct (lock_ok s2 Hq2) as [E3 Hq3].
  exists (if bool_decide (st <> HAL_OK) then - RT_ERROR else s32 size), (set_LOCK true s2).
  rewrite size_s32 by lia. unfold flash_at, RT_ERROR in *. cbn [cell set_LOCK set_cr].
  rewrite Hc1 in Hf. set (A := STM32_FLASH_START_ADRESS) in *.
  split; [|split; [done|split_and!]].
  - munfold. rewrite E1, E2, E3. done.
  - case_bool_decide as Hst; [by right|]. left. split; [done|].
    destruct (decide (st = HAL_OK)) as [E|]; [|done]. specialize (Hn E).
    destruct (decide (size = 0)) as [->|]; [|lia]. exfalso. revert Hk. flash_arith.
  - intros x Hx. apply Hf. lia.
  - case_bool_decide as Hst; [lia|]. intros _ x Hx. apply Hok; [|lia]. by destruct (decide (st = HAL_OK)).
  - intros c Hp Hle Hpos Hopen. unfold erase_time in *. rewrite <- Hk in *.
    destruct (Hcan c (Hpr1 c Hp) Hle) as [-> Hp2]; [| |by rewrite bool_decide_false by (intros F; by apply F)].
    + destruct k; [|lia]. exfalso. revert Hk. flash_arith.
    + intros x Hx. replace x with (A + (x - A)) by lia. apply Hopen. lia.
Qed.

Lemma fal_flash_range_error o size buf s :
  0 <= o -> 0 <= size -> STM32_FLASH_SIZE < o + size -> STM32_FLASH_START_ADRESS + o + size < 2 ^ 32 -> o mod 4 = 0 ->
  fal_flash_read o size s = Some ((- RT_EINVAL, []), s) /\
  fal_flash_write o buf size s = Some (- RT_EINVAL, s) /\
  fal_flash_erase o size s = Some (- RT_EINVAL, s).
Proof.
  intros Ho Hs He Hw Hal.
  assert (u32 (STM32_FLASH_START_ADRESS + o) = STM32_FLASH_START_ADRESS + o) as E1 by (apply wrap_id; flash_consts; lia).
  unfold fal_flash_read, fal_flash_write, fal_flash_erase, stm32_flash_read, stm32_flash_write,
    stm32_flash_erase, stm32_flash_erase_bank. rewrite E1.
  rewrite (wrap_id 32 (_ + _ + _)) by (flash_consts; lia).
  rewrite (bool_decide_true (_ > _)) by (flash_consts; lia).
  rewrite bool_decide_false; [done|]. flash_arith.
Qed.
End HALlemmas.
