(* ===== verification/Fal.v ===== *)
(** * The flash abstraction layer (packages/fal-v0.5.0/src)

    fal.c, fal_flash.c and fal_partition.c, with the partition table in the program
    (FAL_PART_HAS_TABLE_CFG, as rtconfig.h selects).  The state [fal] holds the static
    variables of the three files and the state [S] of the flash devices; the device table and
    the partition table of fal_cfg.h are arguments.  FAL_DEBUG is 1: an assertion that fails
    stops the program in an endless loop, which counts as not returning ([None]).  Log output
    is left out.  A pointer to a partition is the partition, NULL is [None].

    The class [FlashDev] is what FAL relies on in a flash device; the theorems on partitions are
    proved against it. *)
From S2P Require Import Prelude.
From stdpp Require Import base list strings.
From Stdlib Require Import ZArith Lia.
#[local] Open Scope Z_scope.

(** ** Data *)

Record fal_flash_dev (S : Type) := FlashDevice {
  fd_name : string;
  fd_addr : Z;
  fd_len : Z;
  fd_blk_size : Z;
  fd_init : option (M S Z);
  fd_read : Z -> Z -> M S (Z * list Z);
  fd_write : Z -> list Z -> Z -> M S Z;
  fd_erase : Z -> Z -> M S Z
}.
Arguments FlashDevice {S}.
Arguments fd_name {S}.
Arguments fd_addr {S}.
Arguments fd_len {S}.
Arguments fd_blk_size {S}.
Arguments fd_init {S}.
Arguments fd_read {S}.
Arguments fd_write {S}.
Arguments fd_erase {S}.

Record fal_partition := Partition {
  fp_magic : Z;
  fp_name : string;
  fp_flash_name : string;
  fp_offset : Z;
  fp_len : Z
}.
#[export] Instance fal_partition_eq_dec : EqDecision fal_partition.
Proof. solve_decision. Defined.

Record fal (S : Type) := Fal {
  devs : S;
  flash_init_ok : bool;                     (** init_ok of fal_flash.c *)
  part_init_ok : bool;                      (** init_ok of fal_partition.c *)
  partition_table : list fal_partition;     (** empty stands for NULL *)
  partition_table_len : Z;
  fal_init_ok : bool                        (** init_ok of fal.c *)
}.
Arguments Fal {S}.
Arguments devs {S}.
Arguments flash_init_ok {S}.
Arguments part_init_ok {S}.
Arguments partition_table {S}.
Arguments partition_table_len {S}.
Arguments fal_init_ok {S}.

Definition FAL_DEV_NAME_MAX : nat := 24.
Definition FAL_PART_MAGIC_WORD : Z := 0x45503130.

(** !strncmp(a, b, FAL_DEV_NAME_MAX) *)
Definition same_dev_name (a b : string) : bool :=
  bool_decide (String.substring 0 FAL_DEV_NAME_MAX a = String.substring 0 FAL_DEV_NAME_MAX b).

Section Code.
Context {S : Type} (device_table : list (fal_flash_dev S)) (partition_table_def : list fal_partition).
Implicit Types (s : fal S).

Definition set_devs (d : S) s : fal S := Fal d (flash_init_ok s) (part_init_ok s) (partition_table s) (partition_table_len s) (fal_init_ok s).
Definition set_flash_init b s : fal S := Fal (devs s) b (part_init_ok s) (partition_table s) (partition_table_len s) (fal_init_ok s).
Definition set_part_init b s : fal S := Fal (devs s) (flash_init_ok s) b (partition_table s) (partition_table_len s) (fal_init_ok s).
Definition set_table t n s : fal S := Fal (devs s) (flash_init_ok s) (part_init_ok s) t n (fal_init_ok s).
Definition set_fal_init b s : fal S := Fal (devs s) (flash_init_ok s) (part_init_ok s) (partition_table s) (partition_table_len s) b.

Definition on_dev {A} (c : M S A) : M (fal S) A := zoom devs set_devs c.

(** assert of fal_def.h *)
Definition assertion (b : bool) : M (fal S) unit := if b then mret tt else ub.

(** ** fal_flash.c *)

Fixpoint init_devices (ds : list (fal_flash_dev S)) : M (fal S) unit :=
  match ds with
  | [] => mret tt
  | d :: ds' =>
    match fd_init d with
    | Some init => r ← on_dev init; init_devices ds'
    | None => init_devices ds'
    end
  end.

Definition fal_flash_init : M (fal S) Z :=
  ok ← gets flash_init_ok;
  if (ok : bool) then mret 0 else
  init_devices device_table;;
  modify (set_flash_init true);;
  mret 0.

Fixpoint find_flash_dev (ds : list (fal_flash_dev S)) (name : string) : option (fal_flash_dev S) :=
  match ds with
  | [] => None
  | d :: ds' => if same_dev_name name (fd_name d) then Some d else find_flash_dev ds' name
  end.

Definition fal_flash_device_find (name : string) : M (fal S) (option (fal_flash_dev S)) :=
  ok ← gets flash_init_ok;
  assertion ok;;
  mret (find_flash_dev device_table name).

(** ** fal_partition.c *)

(** for (i = 0; i < partition_table_len; i++): the check of the offsets; [true] when it
    reaches the end of the table. *)
Fixpoint check_loop (todo i : nat) : M (fal S) bool :=
  match todo with
  | O => mret true
  | Datatypes.S todo' =>
    t ← gets partition_table;
    p ← liftO (t !! i);
    d ← fal_flash_device_find (fp_flash_name p);
    match d with
    | None => check_loop todo' (Datatypes.S i)
    | Some d =>
      if bool_decide (fp_offset p >= s32 (fd_len d)) then
        modify (fun s => set_table (partition_table s) 0 s);; mret false
      else check_loop todo' (Datatypes.S i)
    end
  end.

Definition fal_partition_init : M (fal S) Z :=
  ok ← gets part_init_ok;
  if (ok : bool) then n ← gets partition_table_len; mret (s32 n) else
  modify (set_table partition_table_def (Z.of_nat (length partition_table_def)));;
  n ← gets partition_table_len;
  ok ← check_loop (Z.to_nat n) 0;
  (if (ok : bool) then modify (set_part_init true) else mret tt);;
  n ← gets partition_table_len;
  mret (s32 n).

Fixpoint find_loop (todo i : nat) (name : string) : M (fal S) (option fal_partition) :=
  match todo with
  | O => mret None
  | Datatypes.S todo' =>
    t ← gets partition_table;
    p ← liftO (t !! i);
    if bool_decide (name = fp_name p) then mret (Some p)
    else find_loop todo' (Datatypes.S i) name
  end.

Definition fal_partition_find (name : string) : M (fal S) (option fal_partition) :=
  ok ← gets part_init_ok;
  assertion ok;;
  n ← gets partition_table_len;
  find_loop (Z.to_nat n) 0 name.

Definition fal_get_partition_table : M (fal S) (list fal_partition * Z) :=
  ok ← gets part_init_ok;
  assertion ok;;
  gets (fun s => (partition_table s, partition_table_len s)).

Definition fal_set_partition_table_temp (table : list fal_partition) (len : Z) : M (fal S) unit :=
  ok ← gets part_init_ok;
  assertion ok;;
  modify (set_table table len).

Definition fal_partition_read (part : option fal_partition) (addr size : Z) : M (fal S) (Z * list Z) :=
  match part with
  | None => ub
  | Some part =>
    if bool_decide (u32 (addr + size) > fp_len part) then mret (-1, []) else
    flash_dev ← fal_flash_device_find (fp_flash_name part);
    match flash_dev with
    | None => mret (-1, [])
    | Some d => on_dev (fd_read d (s32 (fp_offset part + addr)) size)
    end
  end.

Definition fal_partition_write (part : option fal_partition) (addr : Z) (buf : list Z) (size : Z) : M (fal S) Z :=
  match part with
  | None => ub
  | Some part =>
    if bool_decide (u32 (addr + size) > fp_len part) then mret (-1) else
    flash_dev ← fal_flash_device_find (fp_flash_name part);
    match flash_dev with
    | None => mret (-1)
    | Some d => on_dev (fd_write d (s32 (fp_offset part + addr)) buf size)
    end
  end.

Definition fal_partition_erase (part : option fal_partition) (addr size : Z) : M (fal S) Z :=
  match part with
  | None => ub
  | Some part =>
    if bool_decide (u32 (addr + size) > fp_len part) then mret (-1) else
    flash_dev ← fal_flash_device_find (fp_flash_name part);
    match flash_dev with
    | None => mret (-1)
    | Some d => on_dev (fd_erase d (s32 (fp_offset part + addr)) size)
    end
  end.

Definition fal_partition_erase_all (part : option fal_partition) : M (fal S) Z :=
  match part with
  | None => ub
  | Some p => fal_partition_erase part 0 (fp_len p)
  end.

(** ** fal.c *)

Definition fal_init : M (fal S) Z :=
  result ← fal_flash_init;
  result ← (if bool_decide (result < 0) then mret result else fal_partition_init);
  ok ← gets fal_init_ok;
  (if bool_decide (result > 0) && negb ok then modify (set_fal_init true)
   else if bool_decide (result <= 0) then modify (set_fal_init false)
   else mret tt);;
  mret result.

Definition fal_init_check : M (fal S) Z :=
  ok ← gets fal_init_ok; mret (if (ok : bool) then 1 else 0).
End Code.

(** The static variables at start-up. *)
Definition fal_reset {S} (d : S) : fal S := Fal d false false [] 0 false.

(** ** What FAL relies on in a device *)

Definition round_up (g n : Z) : Z := g * ((n + g - 1) / g).
Definition round_down (g n : Z) : Z := g * (n / g).
Definition bytes (buf : list Z) : Prop := Forall (fun b => 0 <= b < 256) buf.

(** [dev_at] is the byte at an offset, [dev_gran] the unit of a write in bytes, [dev_open] tells
    which bytes are not protected; [dev_prompt c] says that the device is free of errors and has
    [c] ticks of undisturbed time, of which a write takes [dev_write_time] and an erase
    [dev_erase_time].  Reads return the bytes; a write programs whole units from
    an aligned offset on and succeeds on erased bytes in time; an erase sets as many blocks as the
    size takes to 0xFF, from the block of the offset on; nothing else changes, whatever the
    result. *)
Class FlashDev {S} (d : fal_flash_dev S) := {
  dev_inv : S -> Prop;
  dev_at : S -> Z -> Z;
  dev_gran : Z;
  dev_open : Z -> bool;
  dev_prompt : Z -> S -> Prop;
  dev_write_time : Z -> Z;
  dev_erase_time : Z -> Z;
  dev_gran_pos : 0 < dev_gran;
  dev_block : 0 < fd_blk_size d /\ fd_blk_size d mod dev_gran = 0;
  dev_len : 0 <= fd_len d < 2 ^ 31;
  dev_read_law o n s :
    dev_inv s -> 0 <= o -> 0 <= n -> o + n <= fd_len d ->
    fd_read d o n s = Some ((n, dev_at s <$> seqZ o n), s);
  dev_write_law o buf n s :
    dev_inv s -> 0 <= o -> 0 <= n -> o + n <= fd_len d ->
    round_up dev_gran n <= Z.of_nat (length buf) -> bytes buf ->
    exists r s',
      fd_write d o buf n s = Some (r, s') /\ dev_inv s' /\ (r = n \/ r < 0) /\
      (forall x, ~ (o mod dev_gran = 0 /\ o <= x < o + round_up dev_gran n) -> dev_at s' x = dev_at s x) /\
      (0 <= r -> forall i, Z.of_nat i < round_up dev_gran n -> buf !! i = Some (dev_at s' (o + Z.of_nat i))) /\
      (forall c, dev_prompt c s -> dev_write_time n <= c -> o mod dev_gran = 0 ->
       (forall x, o <= x < o + round_up dev_gran n -> dev_at s x = 0xFF /\ dev_open x = true) ->
       r = n /\ dev_prompt (c - dev_write_time n) s');
  dev_erase_law o n s :
    dev_inv s -> 0 <= o -> 0 <= n -> o + n <= fd_len d ->
    exists r s',
      fd_erase d o n s = Some (r, s') /\ dev_inv s' /\ (r = n \/ r < 0) /\
      (forall x, ~ round_down (fd_blk_size d) o <= x < round_down (fd_blk_size d) o + round_up (fd_blk_size d) n ->
                 dev_at s' x = dev_at s x) /\
      (0 <= r -> forall x, round_down (fd_blk_size d) o <= x < round_down (fd_blk_size d) o + round_up (fd_blk_size d) n ->
                 dev_at s' x = 0xFF) /\
      (forall c, dev_prompt c s -> dev_erase_time n <= c -> 0 < n ->
       (forall x, round_down (fd_blk_size d) o <= x < round_down (fd_blk_size d) o + round_up (fd_blk_size d) n ->
                 dev_open x = true) ->
       r = n /\ dev_prompt (c - dev_erase_time n) s')
}.
Arguments dev_inv {S} d {_}.
Arguments dev_at {S} d {_}.
Arguments dev_gran {S} d {_}.
Arguments dev_open {S} d {_}.
Arguments dev_prompt {S} d {_}.
Arguments dev_write_time {S} d {_}.
Arguments dev_erase_time {S} d {_}.
Arguments dev_gran_pos {S} d {_}.
Arguments dev_block {S} d {_}.
Arguments dev_len {S} d {_}.
Arguments dev_read_law {S} d {_}.
Arguments dev_write_law {S} d {_}.
Arguments dev_erase_law {S} d {_}.

(** A partition that lies on a device, in whole blocks of it. *)
Record placed {S} (d : fal_flash_dev S) (p : fal_partition) : Prop := {
  placed_start : 0 <= fp_offset p;
  placed_size : 0 <= fp_len p;
  placed_end : fp_offset p + fp_len p <= fd_len d;
  placed_block : fp_offset p mod fd_blk_size d = 0;
  placed_blocks : fp_len p mod fd_blk_size d = 0
}.
#[export] Instance placed_dec {S} (d : fal_flash_dev S) p : Decision (placed d p).
Proof.
  refine (cast_if (decide (0 <= fp_offset p /\ 0 <= fp_len p /\ fp_offset p + fp_len p <= fd_len d /\
                           fp_offset p mod fd_blk_size d = 0 /\ fp_len p mod fd_blk_size d = 0)));
    [abstract (constructor; tauto)|abstract (intros []; tauto)].
Defined.

(** A byte of the device that belongs to the partition. *)
Definition inside (p : fal_partition) (x : Z) : Prop := fp_offset p <= x < fp_offset p + fp_len p.

Lemma round_up_bounds g n : 0 < g -> 0 <= n -> n <= round_up g n < n + g /\ round_up g n mod g = 0.
Proof.
  intros Hg Hn. unfold round_up.
  pose proof (Z_div_mod_eq_full (n + g - 1) g). pose proof (Z.mod_pos_bound (n + g - 1) g Hg).
  split; [lia|]. rewrite Z.mul_comm. apply Z_mod_mult.
Qed.
Lemma round_down_bounds g n : 0 < g -> 0 <= n -> n - g < round_down g n <= n /\ 0 <= round_down g n /\ round_down g n mod g = 0.
Proof.
  intros Hg Hn. unfold round_down.
  pose proof (Z_div_mod_eq_full n g). pose proof (Z.mod_pos_bound n g Hg). pose proof (Z.div_pos n g Hn Hg).
  split_and!; [lia|lia|nia|]. rewrite Z.mul_comm. apply Z_mod_mult.
Qed.

(** Whole units of [g] that start below a multiple of [g] end at most there. *)
Lemma unit_fits g a b : 0 < g -> a mod g = 0 -> b mod g = 0 -> a < b + g -> a <= b.
Proof.
  intros Hg Ha Hb H. apply Z_div_exact_full_2 in Ha; [|lia]. apply Z_div_exact_full_2 in Hb; [|lia].
  revert Ha Hb. generalize (a / g) (b / g). intros q r -> ->. apply Z.mul_le_mono_nonneg_l; [lia|].
  apply Z.lt_succ_r, (Z.mul_lt_mono_pos_l g); lia.
Qed.

Lemma mod_add g a b : a mod g = 0 -> b mod g = 0 -> (a + b) mod g = 0.
Proof. intros Ha Hb. rewrite <- Zplus_mod_idemp_l, Ha, Z.add_0_l. done. Qed.

Lemma mod_mod_unit g b n : 0 < g -> 0 < b -> b mod g = 0 -> n mod b = 0 -> n mod g = 0.
Proof.
  intros Hg Hb Hbg Hn. apply Z_div_exact_full_2 in Hn; [|lia]. rewrite Hn.
  rewrite <- Zmult_mod_idemp_l, Hbg. done.
Qed.

Section Partitions.
Context {S : Type} (device_table : list (fal_flash_dev S)) (d : fal_flash_dev S) `{!FlashDev d}.
Context (part : fal_partition) (Hfound : find_flash_dev device_table (fp_flash_name part) = Some d) (Hplaced : placed d part).
Implicit Types (s : fal S).

Definition fal_ready s : Prop := flash_init_ok s = true /\ dev_inv d (devs s).

Lemma find_run name s : flash_init_ok s = true ->
  fal_flash_device_find device_table name s = Some (find_flash_dev device_table name, s).
Proof. intros H. unfold fal_flash_device_find, assertion. munfold. by rewrite H. Qed.

Lemma part_offset addr : 0 <= addr -> addr <= fp_len part -> s32 (fp_offset part + addr) = fp_offset part + addr.
Proof using Hplaced FlashDev0.
  intros. destruct Hplaced. pose proof (dev_len d). apply swrap_id; lia.
Qed.

Lemma out_of_range addr size buf s :
  fp_len part < addr + size -> addr + size < 2 ^ 32 -> 0 <= addr -> 0 <= size ->
  fal_partition_read device_table (Some part) addr size s = Some ((-1, []), s) /\
  fal_partition_write device_table (Some part) addr buf size s = Some (-1, s) /\
  fal_partition_erase device_table (Some part) addr size s = Some (-1, s).
Proof.
  intros H1 H2 Ha Hs. unfold fal_partition_read, fal_partition_write, fal_partition_erase.
  rewrite wrap_id by lia. by rewrite bool_decide_true by lia.
Qed.

Section InRange.
Context (addr size : Z) (Ha : 0 <= addr) (Hsz : 0 <= size) (Hin : addr + size <= fp_len part).

Lemma no_wrap : u32 (addr + size) = addr + size.
Proof using All. destruct Hplaced. pose proof (dev_len d). apply wrap_id. lia. Qed.

Lemma part_read s : fal_ready s ->
  fal_partition_read device_table (Some part) addr size s =
  Some ((size, dev_at d (devs s) <$> seqZ (fp_offset part + addr) size), s).
Proof using All.
  intros [Hi Hv]. unfold fal_partition_read. rewrite no_wrap, bool_decide_false by lia.
  rewrite (bind_run _ _ _ _ _ (find_run _ _ Hi)), Hfound. rewrite part_offset by lia.
  unfold on_dev. munfold. destruct Hplaced. rewrite (dev_read_law d) by (done || lia). by destruct s.
Qed.

Lemma write_inside x :
  (fp_offset part + addr) mod dev_gran d = 0 ->
  fp_offset part + addr <= x < fp_offset part + addr + round_up (dev_gran d) size -> inside part x.
Proof using All.
  intros Hal Hx. destruct Hplaced, (dev_block d). pose proof (dev_gran_pos d).
  pose proof (round_up_bounds (dev_gran d) size). unfold inside. split; [lia|].
  enough (fp_offset part + addr + round_up (dev_gran d) size <= fp_offset part + fp_len part) by lia.
  apply (unit_fits (dev_gran d)); [done|apply mod_add; [done|naive_solver lia]| |lia].
  by apply (mod_mod_unit (dev_gran d) (fd_blk_size d)); [..|apply mod_add].
Qed.

Lemma erase_inside x :
  round_down (fd_blk_size d) (fp_offset part + addr) <= x <
  round_down (fd_blk_size d) (fp_offset part + addr) + round_up (fd_blk_size d) size -> inside part x.
Proof using All.
  intros Hx. destruct Hplaced, (dev_block d).
  pose proof (round_up_bounds (fd_blk_size d) size). pose proof (round_down_bounds (fd_blk_size d) (fp_offset part + addr)).
  unfold inside. split.
  - enough (fp_offset part <= round_down (fd_blk_size d) (fp_offset part + addr)) by lia.
    apply (unit_fits (fd_blk_size d)); naive_solver lia.
  - set (rd := round_down _ _) in *. set (ru := round_up _ _) in *.
    enough (rd + ru <= fp_offset part + fp_len part) by lia.
    (* the end of the partition is a multiple of the block: compare with the request *)
    enough (ru <= fp_offset part + fp_len part - rd) by lia.
    apply (unit_fits (fd_blk_size d)); [done|naive_solver lia| |lia].
    rewrite Zminus_mod, (mod_add _ (fp_offset part)) by done. replace (rd mod _) with 0 by naive_solver lia. done.
Qed.

Lemma part_write buf s : fal_ready s -> round_up (dev_gran d) size <= Z.of_nat (length buf) -> bytes buf ->
  exists r s',
    fal_partition_write device_table (Some part) addr buf size s = Some (r, s') /\ fal_ready s' /\
    s' = set_devs (devs s') s /\ (r = size \/ r < 0) /\
    (forall x, ~ inside part x -> dev_at d (devs s') x = dev_at d (devs s) x) /\
    (0 <= r -> forall i, Z.of_nat i < round_up (dev_gran d) size ->
       buf !! i = Some (dev_at d (devs s') (fp_offset part + addr + Z.of_nat i))) /\
    (forall c, dev_prompt d c (devs s) -> dev_write_time d size <= c -> (fp_offset part + addr) mod dev_gran d = 0 ->
     (forall x, fp_offset part + addr <= x < fp_offset part + addr + round_up (dev_gran d) size ->
        dev_at d (devs s) x = 0xFF /\ dev_open d x = true) ->
     r = size /\ dev_prompt d (c - dev_write_time d size) (devs s')).
Proof using All.
  intros [Hi Hv] Hlen Hb. unfold fal_partition_write. rewrite no_wrap, bool_decide_false by lia.
  rewrite (bind_run _ _ _ _ _ (find_run _ _ Hi)), Hfound. rewrite part_offset by lia.
  destruct Hplaced.
  destruct (dev_write_law d (fp_offset part + addr) buf size (devs s)) as (r & ds & E & Hv' & Hr & Hf & Hok & Hcan); [done|lia..|done|done|].
  exists r, (set_devs ds s). unfold on_dev. munfold. rewrite E.
  split; [done|split; [done|split_and!]]; [done|done| |done|done].
  intros x Hx. apply Hf. intros [Hal Hx']. by apply Hx, write_inside.
Qed.

Lemma part_erase s : fal_ready s ->
  exists r s',
    fal_partition_erase device_table (Some part) addr size s = Some (r, s') /\ fal_ready s' /\
    s' = set_devs (devs s') s /\ (r = size \/ r < 0) /\
    (forall x, ~ inside part x -> dev_at d (devs s') x = dev_at d (devs s) x) /\
    (0 <= r -> forall x, round_down (fd_blk_size d) (fp_offset part + addr) <= x <
       round_down (fd_blk_size d) (fp_offset part + addr) + round_up (fd_blk_size d) size -> dev_at d (devs s') x = 0xFF) /\
    (forall c, dev_prompt d c (devs s) -> dev_erase_time d size <= c -> 0 < size ->
     (forall x, inside part x -> dev_open d x = true) ->
     r = size /\ dev_prompt d (c - dev_erase_time d size) (devs s')).
Proof using All.
  intros [Hi Hv]. unfold fal_partition_erase. rewrite no_wrap, bool_decide_false by lia.
  rewrite (bind_run _ _ _ _ _ (find_run _ _ Hi)), Hfound. rewrite part_offset by lia.
  destruct Hplaced.
  destruct (dev_erase_law d (fp_offset part + addr) size (devs s)) as (r & ds & E & Hv' & Hr & Hf & Hok & Hcan); [done|lia..|].
  exists r, (set_devs ds s). unfold on_dev. munfold. rewrite E.
  split; [done|split; [done|split_and!]]; [done|done| |done|].
  - intros x Hx. apply Hf. intros Hx'. by apply Hx, erase_inside.
  - intros c Hpr Hle Hpos Ho. apply Hcan; [done..|]. intros x Hx. by apply Ho, erase_inside.
Qed.
End InRange.
End Partitions.

(** ** Partitions do not touch each other *)

Definition apart (p q : fal_partition) : Prop :=
  fp_offset p + fp_len p <= fp_offset q \/ fp_offset q + fp_len q <= fp_offset p.

Section Isolation.
Context {S : Type} (device_table : list (fal_flash_dev S)) (d : fal_flash_dev S) `{!FlashDev d}.
Context (p q : fal_partition) (Hp : find_flash_dev device_table (fp_flash_name p) = Some d) (Pp : placed d p).
Implicit Types (s : fal S).

(** A call that changes only bytes inside [p], whatever it returns. *)
Definition confined (s : fal S) (c : M (fal S) Z) : Prop :=
  exists r s', c s = Some (r, s') /\ fal_ready d s' /\ s' = set_devs (devs s') s /\
    forall x, ~ inside p x -> dev_at d (devs s') x = dev_at d (devs s) x.

Lemma confined_ret s r : fal_ready d s -> forall c, c s = Some (r, s) -> confined s c.
Proof. intros H c E. exists r, s. destruct s; done. Qed.

Lemma write_confined addr buf size s :
  fal_ready d s -> 0 <= addr -> 0 <= size -> addr + size < 2 ^ 32 ->
  round_up (dev_gran d) size <= Z.of_nat (length buf) -> bytes buf ->
  confined s (fal_partition_write device_table (Some p) addr buf size).
Proof using All.
  intros Hr Ha Hs Hw Hl Hb. destruct (decide (addr + size <= fp_len p)) as [Hin|Hout].
  - destruct (part_write device_table d p Hp Pp addr size Ha Hs Hin buf s) as (r & s' & E & ? & ? & _ & ? & _); [done..|].
    by exists r, s'.
  - eapply confined_ret; [done|]. apply (out_of_range device_table p addr size buf); lia.
Qed.

Lemma erase_confined addr size s :
  fal_ready d s -> 0 <= addr -> 0 <= size -> addr + size < 2 ^ 32 ->
  confined s (fal_partition_erase device_table (Some p) addr size).
Proof using All.
  intros Hr Ha Hs Hw. destruct (decide (addr + size <= fp_len p)) as [Hin|Hout].
  - destruct (part_erase device_table d p Hp Pp addr size Ha Hs Hin s) as (r & s' & E & ? & ? & _ & ? & _); [done..|].
    by exists r, s'.
  - eapply confined_ret; [done|]. apply (out_of_range device_table p addr size [] s); lia.
Qed.

(** Reading another partition gives the same bytes before and after. *)
Lemma confined_read s c :
  confined s c -> find_flash_dev device_table (fp_flash_name q) = Some d -> placed d q -> apart p q -> fal_ready d s ->
  exists r s' got, c s = Some (r, s') /\ fal_ready d s' /\
    fal_partition_read device_table (Some q) 0 (fp_len q) s = Some ((fp_len q, got), s) /\
    fal_partition_read device_table (Some q) 0 (fp_len q) s' = Some ((fp_len q, got), s').
Proof using FlashDev0.
  intros (r & s' & E & Hr' & _ & Hf) Hq Pq Hap Hr.
  exists r, s', (dev_at d (devs s) <$> seqZ (fp_offset q + 0) (fp_len q)).
  pose proof (placed_size _ _ Pq).
  split_and!; [done|apply Hr'..|by apply (part_read device_table d q Hq Pq 0 (fp_len q) ltac:(lia) ltac:(lia) ltac:(lia))|].
  rewrite (part_read device_table d q Hq Pq 0 (fp_len q) ltac:(lia) ltac:(lia) ltac:(lia) s' Hr'). do 3 f_equal.
  apply list_fmap_ext. intros k x [-> Hk]%lookup_seqZ. apply Hf. unfold inside, apart in *. lia.
Qed.
End Isolation.
