(* ===== verification/Conf.v ===== *)
(** * The configuration store of the charging pile

    fal_cfg.h (the device and partition tables of the two builds), stm32_onchip_flash of
    drivers/drv_flash_f1.c as a device of FAL, and components/lower/lower_conf.cxx, which keeps
    the configuration in the partition "conf" behind a CRC-16.

    The driver keeps the contract [FlashDev] of Fal.v ([onchip_dev]); on top of it: the
    partitions of the lower board are isolated from each other, a written configuration
    survives a restart, and a damaged or erased one is replaced by the default. *)
From S2P Require Import Prelude Kernel Crc Flash Fal.
From stdpp Require Import base list strings.
From Stdlib Require Import ZArith Lia.
#[local] Open Scope Z_scope.

(** ** fal_cfg.h *)

Definition lower_table : list fal_partition :=
  [ Partition FAL_PART_MAGIC_WORD "bl" "onchip_flash" 0 (36 * 1024);
    Partition FAL_PART_MAGIC_WORD "app" "onchip_flash" (36 * 1024) (200 * 1024);
    Partition FAL_PART_MAGIC_WORD "backup" "onchip_flash" (236 * 1024) (58 * 1024);
    Partition FAL_PART_MAGIC_WORD "conf" "onchip_flash" (294 * 1024) (2 * 1024);
    Partition FAL_PART_MAGIC_WORD "download" "onchip_flash" (296 * 1024) (216 * 1024) ].

Definition upper_table : list fal_partition :=
  [ Partition FAL_PART_MAGIC_WORD "bl" "onchip_flash" 0 (36 * 1024);
    Partition FAL_PART_MAGIC_WORD "app" "onchip_flash" (36 * 1024) (476 * 1024);
    Partition FAL_PART_MAGIC_WORD "fdb_kvdb" "norflash0" 0 (8 * 1024);
    Partition FAL_PART_MAGIC_WORD "download" "norflash0" (1024 * 1024) (1024 * 1024) ].

Section Board.
Context `{!Fpec}.

Definition stm32_onchip_flash : fal_flash_dev flash :=
  FlashDevice "onchip_flash" STM32_FLASH_START_ADRESS STM32_FLASH_SIZE FLASH_PAGE_SIZE
    None fal_flash_read fal_flash_write fal_flash_erase.

Definition lower_devices : list (fal_flash_dev flash) := [stm32_onchip_flash].

(** ** lower_conf.cxx *)

Record DevConfig := MkDevConfig {
  currentLimit : Z; uploadThr : Z; fuzedThr : Z; noloadCurrThr : Z; doneCurrThr : Z }.

Definition defualtConf : DevConfig := MkDevConfig 4000 100 0 44 80.

(** An [int] in memory, least significant byte first. *)
Definition int_bytes (z : Z) : list Z :=
  let u := u32 z in [u mod 256; u / 256 mod 256; u / 65536 mod 256; u / 16777216].
Definition bytes_int (l : list Z) : Z := match load32 l with Some w => s32 w | None => 0 end.

(** Meta<DevConfig>: the hash at offset 0, two bytes of padding, the data from offset 4 on. *)
Definition sizeof_data : Z := 20.
Definition sizeof_meta : Z := 24.
Definition conf_bytes (c : DevConfig) : list Z :=
  int_bytes (currentLimit c) ++ int_bytes (uploadThr c) ++ int_bytes (fuzedThr c) ++
  int_bytes (noloadCurrThr c) ++ int_bytes (doneCurrThr c).
Definition bytes_conf (l : list Z) : DevConfig :=
  MkDevConfig (bytes_int l) (bytes_int (drop 4 l)) (bytes_int (drop 8 l)) (bytes_int (drop 12 l)) (bytes_int (drop 16 l)).
Definition hash_of (meta : list Z) : Z := match meta with b0 :: b1 :: _ => b0 + 256 * b1 | _ => 0 end.
Definition meta_bytes (hash : Z) (pad data : list Z) : list Z := [hash mod 256; hash / 256] ++ pad ++ data.

(** LowerConf::LowerConf *)
Definition LowerConf_part : M (fal flash) (option fal_partition) := fal_partition_find "conf".

(** LowerConf::read: the bytes that were read replace those of the zeroed [meta]. *)
Definition LowerConf_read (part : option fal_partition) : M (fal flash) DevConfig :=
  r ← fal_partition_read lower_devices part 0 sizeof_meta;
  let meta := r.2 ++ drop (length r.2) (replicate (Z.to_nat sizeof_meta) 0) in
  let data := drop 4 meta in
  crcVal ← liftO (crc16_cal crc16_table_A001 data sizeof_data);
  mret (if bool_decide (crcVal <> hash_of meta) then defualtConf else bytes_conf data).

(** LowerConf::write; [pad] is what the padding of [meta] happens to hold. *)
Definition LowerConf_write (part : option fal_partition) (pad : list Z) (conf : DevConfig) : M (fal flash) unit :=
  let data := conf_bytes conf in
  hash ← liftO (crc16_cal crc16_table_A001 data sizeof_data);
  let meta := meta_bytes hash pad data in
  r ← fal_partition_erase lower_devices part 0 sizeof_meta;
  r ← fal_partition_write lower_devices part 0 meta sizeof_meta;
  mret tt.
End Board.

(** ** The driver keeps the contract of FAL *)

Lemma write_span_eq n : write_span n = round_up 4 n.
Proof. unfold write_span, round_up. do 2 f_equal. lia. Qed.

#[export] Program Instance onchip_dev {fp : Fpec} {Hs : FpecSpec} : FlashDev stm32_onchip_flash := {|
  dev_inv := at_rest true;
  dev_at := flash_at;
  dev_gran := 4;
  dev_open x := negb (fpec_protected (STM32_FLASH_START_ADRESS + x));
  dev_prompt := prompt;
  dev_write_time := write_time;
  dev_erase_time := erase_time
|}.
Next Obligation. done. Qed.
Next Obligation. done. Qed.
Next Obligation. done. Qed.
Next Obligation. intros fp Hs o n s _ Ho Hn He. by apply fal_flash_read_ok. Qed.
Next Obligation.
  intros fp Hs o buf n s Hq Ho Hn He Hl Hb. cbn [fd_write fd_len stm32_onchip_flash] in *.
  destruct (decide (o mod 4 = 0)) as [Hal|Hal].
  - destruct (fal_flash_write_ok o buf n s) as (r & s' & E & Hq' & Hr & Hf & Hok & Hcan);
      [done..|by rewrite write_span_eq|done|].
    rewrite write_span_eq in *. exists r, s'. split_and!; [done|apply Hq'..|done| |done|].
    + intros x Hx. apply Hf. tauto.
    + intros c Hp Hle _ Hbl. apply Hcan; [done..|]. intros x Hx. destruct (Hbl x Hx) as [? ?%negb_true_iff]. done.
  - exists (- RT_EINVAL), s. split_and!; [|apply Hq..|by right|done|done|done].
    unfold fal_flash_write, stm32_flash_write. rewrite flash_u32 by lia.
    rewrite bool_decide_true; [done|]. intros F. apply Hal. revert F. flash_arith.
Qed.
Next Obligation.
  intros fp Hs o n s Hq Ho Hn He. cbn [fd_erase fd_len fd_blk_size stm32_onchip_flash] in *.
  destruct (fal_flash_erase_ok o n s) as (r & s' & E & Hq' & Hr & Hf & Hok & Hcan); [done..|].
  exists r, s'. split_and!; [done|apply Hq'..|naive_solver|done|done|].
  intros c Hp Hle Hpos Ho'. apply Hcan; [done..|]. intros x Hx. by apply negb_true_iff, Ho'.
Qed.

(** ** The tables *)

Lemma lower_table_placed {fp : Fpec} p : p ∈ lower_table ->
  find_flash_dev lower_devices (fp_flash_name p) = Some stm32_onchip_flash /\ placed stm32_onchip_flash p.
Proof.
  intros H. repeat (apply elem_of_cons in H as [->|H]); [..|by apply elem_of_nil in H];
    (split; [reflexivity|constructor; done]).
Qed.

Lemma lower_table_apart p q : p ∈ lower_table -> q ∈ lower_table -> p <> q -> apart p q.
Proof.
  intros H1 H2 Hne. unfold apart.
  repeat (apply elem_of_cons in H1 as [->|H1]); [..|by apply elem_of_nil in H1];
    (repeat (apply elem_of_cons in H2 as [->|H2]); [..|by apply elem_of_nil in H2]);
    try done; cbn [fp_offset fp_len]; lia.
Qed.

(** The partitions of the upper board on the same device are in place and apart, too. *)
Lemma upper_table_placed {fp : Fpec} p : p ∈ upper_table -> fp_flash_name p = "onchip_flash"%string ->
  placed stm32_onchip_flash p.
Proof.
  intros H. repeat (apply elem_of_cons in H as [->|H]); [..|by apply elem_of_nil in H]; try done;
    intros _; constructor; done.
Qed.

Definition conf_part : fal_partition := Partition FAL_PART_MAGIC_WORD "conf" "onchip_flash" (294 * 1024) (2 * 1024).

Section Store.
Context {fp : Fpec} {Hspec : FpecSpec}.

(** FAL is initialised for the lower board. *)
Definition lower_ready (s : fal flash) : Prop :=
  fal_ready stm32_onchip_flash s /\ part_init_ok s = true /\
  partition_table s = lower_table /\ partition_table_len s = 5.

Lemma lower_boot f : fal_init lower_devices lower_table (fal_reset f) = Some (5, Fal f true true lower_table 5 true).
Proof. reflexivity. Qed.

Lemma conf_found s : lower_ready s -> LowerConf_part s = Some (Some conf_part, s).
Proof.
  intros (_ & Hp & Ht & Hn). destruct s. cbn in Hp, Ht, Hn. subst. reflexivity.
Qed.

Lemma lower_ready_devs s d : lower_ready s -> at_rest true d -> lower_ready (set_devs d s).
Proof. intros ([H1 _] & H2 & H3 & H4) Hq. split; [split; done|done]. Qed.

(** ** Bytes of a configuration *)

Definition int_ok (z : Z) : Prop := - 2 ^ 31 <= z < 2 ^ 31.
Definition conf_ok (c : DevConfig) : Prop :=
  int_ok (currentLimit c) /\ int_ok (uploadThr c) /\ int_ok (fuzedThr c) /\ int_ok (noloadCurrThr c) /\ int_ok (doneCurrThr c).

Lemma int_bytes_ok z : Forall is_byte (int_bytes z).
Proof.
  unfold int_bytes, is_byte. pose proof (wrap_range 32 z ltac:(lia)).
  repeat constructor; Z.to_euclidean_division_equations; lia.
Qed.

Lemma swrap_wrap w z : 0 <= w -> swrap w (wrap w z) = swrap w z.
Proof. intros. unfold swrap. assert (wrap w (wrap w z) = wrap w z) as -> by apply Zmod_mod. done. Qed.

Lemma bytes_int_ok z l : int_ok z -> bytes_int (int_bytes z ++ l) = z.
Proof.
  intros Hz. unfold bytes_int, int_bytes. cbn [app load32]. pose proof (wrap_range 32 z ltac:(lia)) as Hr.
  replace (_ + _ + _ + _) with (u32 z) by (revert Hr; generalize (u32 z); intros; Z.to_euclidean_division_equations; lia).
  rewrite swrap_wrap by lia. apply swrap_id; [lia|done].
Qed.

Lemma conf_bytes_ok c : length (conf_bytes c) = 20%nat /\ Forall is_byte (conf_bytes c).
Proof. split; [done|]. unfold conf_bytes. rewrite !Forall_app. split_and!; apply int_bytes_ok. Qed.

Lemma bytes_conf_ok c : conf_ok c -> bytes_conf (conf_bytes c) = c.
Proof.
  intros (H1 & H2 & H3 & H4 & H5). unfold bytes_conf, conf_bytes.
  change (drop 4 (_ ++ ?l)) with l. change (drop 8 (_ ++ _ ++ ?l)) with l.
  change (drop 12 (_ ++ _ ++ _ ++ ?l)) with l. change (drop 16 (_ ++ _ ++ _ ++ _ ++ ?l)) with l.
  rewrite <- (app_nil_r (int_bytes (doneCurrThr c))). rewrite !bytes_int_ok by done. by destruct c.
Qed.

Lemma conf_hash data :
  length data = 20%nat -> Forall is_byte data ->
  exists h, crc16_cal crc16_table_A001 data sizeof_data = Some h /\ 0 <= h < 2 ^ 16.
Proof.
  intros Hl Hb. change sizeof_data with (Z.of_nat 20). rewrite <- Hl.
  pose proof (crc16_cal_reg 0xA001 _ data [] crc16_const_A001 Hb) as E. rewrite app_nil_r in E. rewrite E.
  eexists. split; [done|].
  apply lxor_range; [lia|by apply crc_reg_range|done].
Qed.

(** ** Reading and writing the partition *)

Definition stored (s : fal flash) (meta : list Z) : Prop :=
  flash_at (devs s) <$> seqZ (294 * 1024) sizeof_meta = meta.

Lemma conf_in : conf_part ∈ lower_table.
Proof. apply list_elem_of_lookup. by exists 3%nat. Qed.

Lemma meta_length h pad data : length pad = 2%nat -> length data = 20%nat -> length (meta_bytes h pad data) = 24%nat.
Proof. intros Hp Hd. unfold meta_bytes. rewrite !length_app. cbn. lia. Qed.

Lemma meta_data h pad data : length pad = 2%nat -> drop 4 (meta_bytes h pad data) = data.
Proof. intros Hp. destruct pad as [|a [|b [|]]]; try done. Qed.

Lemma meta_hash h pad data : 0 <= h < 2 ^ 16 -> hash_of (meta_bytes h pad data) = h.
Proof. intros Hh. cbn. Z.to_euclidean_division_equations. lia. Qed.

Lemma conf_read s meta :
  lower_ready s -> stored s meta -> Forall is_byte (drop 4 meta) ->
  exists h, crc16_cal crc16_table_A001 (drop 4 meta) sizeof_data = Some h /\
    LowerConf_read (Some conf_part) s =
    Some (if bool_decide (h <> hash_of meta) then defualtConf else bytes_conf (drop 4 meta), s).
Proof.
  intros [Hr _] Hst Hb. destruct (lower_table_placed conf_part conf_in) as [Hf Hp].
  assert (length meta = 24%nat) as Hl by (rewrite <- Hst, length_fmap, length_seqZ; done).
  destruct (conf_hash (drop 4 meta)) as (h & Eh & _); [rewrite length_drop; lia|done|].
  exists h. split; [done|]. unfold LowerConf_read.
  erewrite bind_run; [|by apply (part_read lower_devices stm32_onchip_flash conf_part Hf Hp 0 sizeof_meta)].
  cbn [snd]. change (dev_at _ (devs s)) with (flash_at (devs s)).
  change (fp_offset conf_part + 0) with (294 * 1024). unfold stored in Hst. rewrite Hst.
  change (Z.to_nat sizeof_meta) with 24%nat. rewrite Hl, drop_replicate, Nat.sub_diag, app_nil_r.
  munfold. by rewrite Eh.
Qed.

(** The ticks an erase and a write of the configuration take at most. *)
Definition conf_time : Z := erase_time sizeof_meta + write_time sizeof_meta.

Lemma conf_written s pad c :
  lower_ready s -> prompt conf_time (devs s) -> length pad = 2%nat -> Forall is_byte pad ->
  (forall x, inside conf_part x -> fpec_protected (STM32_FLASH_START_ADRESS + x) = false) ->
  exists h s',
    crc16_cal crc16_table_A001 (conf_bytes c) sizeof_data = Some h /\ 0 <= h < 2 ^ 16 /\
    LowerConf_write (Some conf_part) pad c s = Some (tt, s') /\ lower_ready s' /\
    stored s' (meta_bytes h pad (conf_bytes c)) /\
    (forall x, ~ inside conf_part x -> flash_at (devs s') x = flash_at (devs s) x).
Proof.
  intros Hs Hpt Hpl Hpb Hopen. pose proof Hs as [Hr _].
  destruct (lower_table_placed conf_part conf_in) as [Hf Hp]. destruct (conf_bytes_ok c) as [Hcl Hcb].
  destruct (conf_hash (conf_bytes c)) as (h & Eh & Hh); [done..|].
  set (meta := meta_bytes h pad (conf_bytes c)).
  assert (length meta = 24%nat) as Hml by (by apply meta_length).
  assert (bytes meta) as Hmb.
  { apply Forall_app. split; [|by apply Forall_app]. repeat constructor; Z.to_euclidean_division_equations; lia. }
  destruct (part_erase lower_devices stm32_onchip_flash conf_part Hf Hp 0 sizeof_meta ltac:(done) ltac:(done) ltac:(done) s)
    as (r1 & s1 & E1 & Hr1 & Es1 & _ & Hf1 & Hok1 & Hcan1); [done|].
  destruct (Hcan1 conf_time) as [-> Hpt1]; [done|done|done|intros x Hx; by apply negb_true_iff, Hopen|].
  destruct (part_write lower_devices stm32_onchip_flash conf_part Hf Hp 0 sizeof_meta ltac:(done) ltac:(done) ltac:(done) meta s1)
    as (r2 & s2 & E2 & Hr2 & Es2 & _ & Hf2 & Hok2 & Hcan2); [done|by rewrite Hml|done|].
  assert (r2 = sizeof_meta) as ->.
  { apply (Hcan2 (conf_time - dev_erase_time stm32_onchip_flash sizeof_meta)); [done|done|done|]. change (fp_offset conf_part + 0) with 301056.
    change (round_up (dev_gran stm32_onchip_flash) sizeof_meta) with 24. intros x Hx. split.
    - apply Hok1; [done|]. change (round_down _ _) with 301056. change (round_up _ _) with 2048. lia.
    - apply negb_true_iff, Hopen. unfold inside. cbn [fp_offset fp_len conf_part]. lia. }
  exists h, s2. split; [done|split; [done|split; [|split; [|split]]]].
  - unfold LowerConf_write. rewrite (bind_run _ _ _ h s) by (munfold; by rewrite Eh).
    rewrite (bind_run _ _ _ _ _ E1), (bind_run _ _ _ _ _ E2). done.
  - rewrite Es2, Es1. apply lower_ready_devs; [|apply Hr2]. apply lower_ready_devs; [done|apply Hr1].
  - unfold stored. fold meta. apply list_eq. intros i. destruct (decide (i < 24)%nat) as [Hi|Hi].
    + rewrite list_lookup_fmap, lookup_seqZ_lt by (unfold sizeof_meta; lia). cbn [fmap option_fmap option_map].
      symmetry. apply (Hok2 ltac:(done) i). change (round_up _ _) with 24. lia.
    + rewrite !lookup_ge_None_2; [done|rewrite Hml; lia|]. rewrite length_fmap, length_seqZ. change (Z.to_nat sizeof_meta) with 24%nat. lia.
  - intros x Hx. transitivity (flash_at (devs s1) x); [by apply Hf2|by apply Hf1].
Qed.

(** ** Theorems *)

(** C23: on the lower board, a write or an erase through one partition, at any address and of
    any size whose sum stays below 2^32, whatever it returns, leaves every byte of every
    other partition as it was. *)
Theorem partition_isolation p q addr size buf s :
  lower_ready s -> p ∈ lower_table -> q ∈ lower_table -> p <> q ->
  0 <= addr -> 0 <= size -> addr + size < 2 ^ 32 ->
  round_up 4 size <= Z.of_nat (length buf) -> bytes buf ->
  (exists r s' got, fal_partition_write lower_devices (Some p) addr buf size s = Some (r, s') /\
     fal_ready stm32_onchip_flash s' /\
     fal_partition_read lower_devices (Some q) 0 (fp_len q) s = Some ((fp_len q, got), s) /\
     fal_partition_read lower_devices (Some q) 0 (fp_len q) s' = Some ((fp_len q, got), s')) /\
  (exists r s' got, fal_partition_erase lower_devices (Some p) addr size s = Some (r, s') /\
     fal_ready stm32_onchip_flash s' /\
     fal_partition_read lower_devices (Some q) 0 (fp_len q) s = Some ((fp_len q, got), s) /\
     fal_partition_read lower_devices (Some q) 0 (fp_len q) s' = Some ((fp_len q, got), s')).
Proof.
  intros [Hr _] Hp Hq Hne Ha Hsz Hw Hl Hb.
  pose proof (lower_table_apart p q Hp Hq Hne).
  destruct (lower_table_placed p Hp) as [Fp Pp], (lower_table_placed q Hq) as [Fq Pq].
  split; apply (confined_read lower_devices stm32_onchip_flash p q); try done.
  - by apply write_confined.
  - by apply erase_confined.
Qed.

(** C24: a configuration that LowerConf::write stored on a freshly started board is the one that
    LowerConf::read returns after a restart (the memory keeps its bytes, everything else starts
    anew), as long as the page of the partition is not write-protected and the clock of
    HAL_GetTick does not jump back while the 24 bytes are erased and written; the bytes outside
    the partition are those from before. *)
Theorem conf_survives_restart f pad c :
  at_rest true f -> prompt conf_time f -> conf_ok c -> length pad = 2%nat -> Forall is_byte pad ->
  (forall x, inside conf_part x -> fpec_protected (STM32_FLASH_START_ADRESS + x) = false) ->
  exists s,
    (fal_init lower_devices lower_table;; part ← LowerConf_part; LowerConf_write part pad c) (fal_reset f) = Some (tt, s) /\
    (forall x, ~ inside conf_part x -> flash_at (devs s) x = flash_at f x) /\
    (forall f', at_rest true f' -> (forall x, cell f' x = cell (devs s) x) ->
     exists s', (fal_init lower_devices lower_table;; part ← LowerConf_part; LowerConf_read part) (fal_reset f') = Some (c, s')).
Proof.
  intros Hf Hpt Hc Hpl Hpb Hopen.
  assert (forall f, at_rest true f -> lower_ready (Fal f true true lower_table 5 true)) as Hready by done.
  destruct (conf_written (Fal f true true lower_table 5 true) pad c) as (h & s & Eh & Hh & E & Hs & Hst & Hfr);
    [by apply Hready|done..|].
  exists s. split_and!; [|done|].
  - rewrite (bind_run _ _ _ _ _ (lower_boot f)), (bind_run _ _ _ _ _ (conf_found _ (Hready f Hf))). done.
  - intros f' Hf' Hcells. set (s' := Fal f' true true lower_table 5 true).
    rewrite (bind_run _ _ _ _ _ (lower_boot f')), (bind_run _ _ _ _ _ (conf_found _ (Hready f' Hf'))).
    destruct (conf_bytes_ok c) as [Hcl Hcb].
    destruct (conf_read s' (meta_bytes h pad (conf_bytes c))) as (h' & Eh' & E'); [by apply Hready| |by rewrite meta_data|].
    { unfold stored in *. rewrite <- Hst. apply list_fmap_ext. intros k x _. apply Hcells. }
    rewrite meta_data in Eh', E' by done. rewrite meta_hash in E' by done.
    rewrite Eh in Eh'. injection Eh' as <-. rewrite bool_decide_false in E' by (intros F; by apply F).
    rewrite bytes_conf_ok in E' by done. by exists s'.
Qed.

(** C25: a stored configuration whose data bytes were damaged inside a window of two bytes (a
    flipped bit, a lost byte), or whose hash was damaged, is not used: LowerConf::read
    returns the default; so it does when the partition is erased, as it is when the power
    fails between the erase and the write. *)
Theorem conf_damage_gives_default s h pad before m1 m2 after :
  lower_ready s -> length pad = 2%nat ->
  crc16_cal crc16_table_A001 (before ++ m1 ++ after) sizeof_data = Some h ->
  length (before ++ m1 ++ after) = 20%nat -> Forall is_byte (before ++ m1 ++ after) -> Forall is_byte m2 ->
  length m1 = length m2 -> (length m1 <= 2)%nat ->
  (stored s (meta_bytes h pad (before ++ m2 ++ after)) -> m1 <> m2 ->
   LowerConf_read (Some conf_part) s = Some (defualtConf, s)) /\
  (forall h', stored s (meta_bytes h' pad (before ++ m1 ++ after)) -> h' <> h -> 0 <= h' < 2 ^ 16 ->
   LowerConf_read (Some conf_part) s = Some (defualtConf, s)) /\
  (stored s (replicate 24 0xFF) -> LowerConf_read (Some conf_part) s = Some (defualtConf, s)).
Proof.
  intros Hs Hpl Eh Hl Hb H2 Hlm Hw. split_and!.
  - intros Hst Hne.
    assert (length (before ++ m2 ++ after) = 20%nat) as Hl2 by (rewrite !length_app in *; lia).
    assert (Forall is_byte (before ++ m2 ++ after)) as Hb2 by (rewrite !Forall_app in *; naive_solver).
    destruct (conf_read s _ Hs Hst) as (h' & Eh' & ->); [by rewrite meta_data|].
    rewrite meta_data in Eh' by done. rewrite meta_hash.
    2: { destruct (conf_hash _ Hl Hb) as (h0 & E0 & ?). rewrite Eh in E0. by injection E0 as <-. }
    rewrite bool_decide_true; [done|]. intros ->.
    apply (crc16_burst 0xA001 crc16_table_A001 before m1 m2 after); try done; [constructor|].
    rewrite Hl, Hl2. change (Z.of_nat 20) with sizeof_data. by rewrite Eh, Eh'.
  - intros h' Hst Hne Hh'. destruct (conf_read s _ Hs Hst) as (h0 & Eh0 & ->); [by rewrite meta_data|].
    rewrite meta_data in Eh0 by done. rewrite meta_hash by done. rewrite Eh in Eh0. injection Eh0 as <-.
    by rewrite bool_decide_true by done.
  - intros Hst. destruct (conf_read s _ Hs Hst) as (h0 & Eh0 & ->).
    { by repeat constructor. }
    vm_compute in Eh0. injection Eh0 as <-. reflexivity.
Qed.
End Store.
