(* ===== verification/Syscalls.v ===== *)
(** * Runs of the kernel

    The calls a running thread can make, as one type [syscall], and the timer interrupt
    that ends the wait of a thread.  A step of the system is one of them; every state that
    is reachable from a state with the system invariant has it, and no call in such a
    state is undefined. *)
From S2P Require Import Prelude RtList Kernel Sched Timer Object Thread Lifecycle Ipc Sem Mutex Event Mailbox MsgQueue MemPool Mem Malloc System Ticks Creation.
From stdpp Require Import base gmap sets list relations.
From Stdlib Require Import ZArith Lia.
#[local] Open Scope Z_scope.

(** ** The calls of a running thread *)

Section Calls.
Context (k : kernel) (t : nat) (Hs : sys_inv k) (Hr : running k t).

Lemma sem_take_safe n sem time : k_sems k !! n = Some sem -> time < HALF -> safe (rt_sem_take n time) k.
Proof using Hs Hr.
  intros En Ht. destruct (sem_take_ok k n sem t time (sy_kinv _ Hs) (sy_sems _ Hs) En Hr (half_bound _ Ht)) as (r & k' & E & Hk & Hi & Hp).
  apply (safe_calm PSem _ k r k'); try done. by apply (sem_take_calm _ _ _ _ _ _ _ Ht Hp).
Qed.
Lemma sem_release_safe n sem : k_sems k !! n = Some sem -> safe (rt_sem_release n) k.
Proof using Hs Hr.
  intros En. destruct (sy_sems _ Hs n sem En) as (_ & _ & l & El & _).
  destruct (sem_release_ok k n sem l t (sy_kinv _ Hs) (sy_sems _ Hs) En El (proj1 Hr)) as (k' & E & Hk & Hi & Hp).
  apply (safe_calm PSem _ k RT_EOK k'); try done. by apply (sem_release_calm n sem l).
Qed.
Lemma mutex_take_safe n mx time :
  k_mutexes k !! n = Some mx -> time < HALF -> (mx_owner mx = Some t -> mx_hold mx < 255) -> safe (rt_mutex_take n time) k.
Proof using Hs Hr.
  intros En Ht Hh. destruct (mutex_take_ok k n mx t time (sy_kinv _ Hs) (sy_mutexes _ Hs) En Hr (half_bound _ Ht) Hh) as (r & k' & E & Hk & Hi & Hp).
  apply (safe_calm PMutex _ k r k'); try done. by apply (mutex_take_calm _ _ _ _ _ _ _ Ht Hp).
Qed.
Lemma mutex_release_safe n mx : k_mutexes k !! n = Some mx -> safe (rt_mutex_release n) k.
Proof using Hs Hr.
  intros En. destruct (decide (mx_owner mx = Some t)) as [Ho|Ho].
  - destruct (sy_mutexes _ Hs n mx En) as (_ & l & El & _).
    destruct (mutex_release_ok k n mx t l (sy_kinv _ Hs) (sy_mutexes _ Hs) En Ho Hr El) as (k' & E & Hk & Hi & Hp).
    apply (safe_calm PMutex _ k RT_EOK k'); try done. by apply (mutex_release_calm _ _ _ _ _ _ El Hp).
  - apply (safe_calm PMutex _ k (- RT_ERROR) (with_error t (- RT_ERROR) k)); try done.
    + destruct Hr as [Hc (th & Et & _)]. unfold rt_mutex_release. munfold. rewrite (self_run _ _ Hc), (get_mutex_run _ _ _ En).
      rewrite bool_decide_true by done. by rewrite (set_error_run t _ k) by (by eexists).
    + apply kinv_with_error, (sy_kinv _ Hs).
    + apply mutex_inv_error, (sy_mutexes _ Hs).
    + apply calm_error.
Qed.
Lemma event_send_safe n ev set : k_events k !! n = Some ev -> 0 < set -> safe (rt_event_send n set) k.
Proof using Hs Hr.
  intros En Hset. destruct (sy_events _ Hs n ev En) as (_ & _ & l & El & _).
  destruct (scan_spec (s_threads (k_sched k)) l (Z.lor (ev_set ev) set)) as [w set'] eqn:Hw.
  destruct (event_send_ok k n ev l set t w set' (sy_kinv _ Hs) (sy_events _ Hs) En El (proj1 Hr) Hset Hw) as (k' & E & Hk & Hi & _ & _ & _ & Hsent).
  apply (safe_calm PEvent _ k RT_EOK k'); try done. by apply (event_sent_calm w).
Qed.
Lemma event_recv_safe n ev set opts timeout :
  k_events k !! n = Some ev -> 0 < set -> timeout < HALF -> safe (rt_event_recv n set opts timeout) k.
Proof using Hs Hr.
  intros En Hset Ht. destruct (event_recv_ok k n ev t set opts timeout (sy_kinv _ Hs) (sy_events _ Hs) En Hr Hset (half_bound _ Ht)) as (r & k' & E & Hk & Hi & Hp).
  apply (safe_calm PEvent _ k r k'); try done. apply (event_recv_calm n ev t set opts timeout k r); [done| |done]. destruct Hr as [_ (th & Et & _)]. eauto.
Qed.

Lemma mb_send_safe n mb value timeout :
  k_mbs k !! n = Some mb -> timeout < HALF -> safe (rt_mb_send_wait n value timeout) k.
Proof using Hs Hr.
  intros En Ht. destruct (sy_mbs _ Hs n mb En) as (_ & _ & [lr El] & _).
  destruct (mb_send_ok k n mb t value timeout lr (sy_kinv _ Hs) (sy_mbs _ Hs) En Hr (half_bound _ Ht) El) as (r & k' & E & Hk & Hi & Hp).
  apply (safe_calm PMailbox _ k r k'); try done. by apply (mb_send_calm _ _ _ _ _ _ _ _ _ Ht El Hp).
Qed.
Lemma mb_recv_safe n mb timeout : k_mbs k !! n = Some mb -> timeout < HALF -> safe (rt_mb_recv n timeout) k.
Proof using Hs Hr.
  intros En Ht. destruct (sy_mbs _ Hs n mb En) as (_ & _ & _ & [ls El]).
  destruct (mb_recv_ok k n mb t timeout ls (sy_kinv _ Hs) (sy_mbs _ Hs) En Hr (half_bound _ Ht) El) as (r & k' & E & Hk & Hi & Hp).
  apply (safe_calm PMailbox _ k r k'); try done. by apply (mb_recv_calm _ _ _ _ _ _ _ _ Ht El Hp).
Qed.
Lemma mq_send_safe n mq buffer timeout :
  k_mqs k !! n = Some mq -> timeout < HALF -> safe (rt_mq_send_wait n buffer timeout) k.
Proof using Hs Hr.
  intros En Ht. destruct (sy_mqs _ Hs n mq En) as ((msgs & Hh) & _ & [lr El] & _).
  destruct (mq_send_ok k n mq t buffer timeout msgs lr (sy_kinv _ Hs) (sy_mqs _ Hs) En Hr (half_bound _ Ht) Hh El) as (r & k' & E & Hk & Hi & Hp).
  apply (safe_calm PMsgQueue _ k r k'); try done. by apply (mq_send_calm _ _ _ _ _ _ _ _ _ _ Ht El Hp).
Qed.
Lemma mq_urgent_safe n mq buffer : k_mqs k !! n = Some mq -> safe (rt_mq_urgent n buffer) k.
Proof using Hs Hr.
  intros En. destruct (sy_mqs _ Hs n mq En) as ((msgs & Hh) & _ & [lr El] & _).
  destruct (mq_urgent_ok k n mq t buffer msgs lr (sy_kinv _ Hs) (sy_mqs _ Hs) En (proj1 Hr) Hh El) as (r & k' & E & Hk & Hi & Hp).
  apply (safe_calm PMsgQueue _ k r k'); try done. by apply (mq_urgent_calm _ _ _ _ _ _ _ _ El Hp).
Qed.
Lemma mq_recv_safe n mq size timeout :
  k_mqs k !! n = Some mq -> timeout < HALF -> safe (rt_mq_recv n size timeout) k.
Proof using Hs Hr.
  intros En Ht. destruct (sy_mqs _ Hs n mq En) as ((msgs & Hh) & _ & _ & [ls El]).
  destruct (mq_recv_ok k n mq t size timeout msgs ls (sy_kinv _ Hs) (sy_mqs _ Hs) En Hr (half_bound _ Ht) Hh El) as (r & k' & E & Hk & Hi & Hp).
  apply (safe_calm PMsgQueue _ k r k'); try done. by apply (mq_recv_calm _ _ _ _ _ _ _ _ _ _ Ht El Hp).
Qed.
Lemma mp_alloc_loop_safe n mp time : k_mps k !! n = Some mp -> time < HALF -> safe (mp_alloc_loop n time) k.
Proof using Hs Hr.
  intros En Ht. destruct (sy_mps _ Hs n mp En) as (_ & [l El]).
  destruct (mp_alloc_loop_ok k n mp t time l (sy_kinv _ Hs) (sy_mps _ Hs) En Hr (half_bound _ Ht) El) as (r & k' & E & Hk & Hi & Hp).
  apply (safe_calm PMemPool _ k r k'); try done. by apply (mp_alloc_calm _ _ _ _ _ _ _ _ Ht Hp).
Qed.
Lemma mp_free_safe n mp i :
  k_mps k !! n = Some mp -> mp_words mp !! i = Some (MpPool n) -> Z.of_nat i < mp_block_total_count mp -> safe (rt_mp_free n i) k.
Proof using Hs Hr.
  intros En Ei Hlt. destruct (sy_mps _ Hs n mp En) as (_ & [l El]).
  destruct (mp_free_ok k n mp i t l (sy_kinv _ Hs) (sy_mps _ Hs) En Ei Hlt (proj1 Hr) El) as (mp' & k' & E & Hk & Hi & _ & _ & _ & Hp).
  apply (safe_calm PMemPool _ k tt k'); try done. by apply (mp_free_calm n mp' l).
Qed.
Lemma malloc_safe size : 0 <= size < 2 ^ 32 - 3 -> safe (rt_malloc size) k.
Proof using Hs Hr.
  intros Hsz. destruct (sy_lock _ Hs) as [sem Es], (sy_heap _ Hs) as (l & bs & Hrep & El).
  destruct (decide (size = 0)) as [->|Hnz]; [exists (inl None), k; by destruct k|].
  assert (Hst : heap_state (k_heap k) (allocs 0 bs)) by (by exists bs).
  destruct (malloc_here k t sem bs size (sys_heap_ready k t sem _ Hs Es Hr Hst) Hrep) as (r & h' & Hm & [[_ E]|(k' & E & Hw)]); [lia| |].
  - exists (inl r), (set_k_heap h' k). split; [done|]. destruct r as [p|]; [|destruct Hm as [-> _]; by destruct k].
    destruct Hm as (o & nx & _ & Hg). destruct (gr_state _ _ _ _ _ _ Hg) as (l1 & l2 & _ & Hs'). by apply (heap_sys k h' _ Hs Hs').
  - exists (inr t), k'. split; [done|]. by apply (heap_waits_sys k t sem).
Qed.
Lemma free_safe l1 o nx l2 :
  heap_state (k_heap k) (l1 ++ (o, nx) :: l2) -> safe (rt_free (hp_ptr (k_heap k) + (o + SIZEOF_STRUCT_MEM))) k.
Proof using Hs Hr.
  intros Hst. destruct (sy_lock _ Hs) as [sem Es].
  destruct (free_here k t sem l1 o nx l2 (sys_heap_ready k t sem _ Hs Es Hr Hst)) as (h' & Hs' & _ & _ & [[_ E]|(k' & E & Hw)]).
  - exists (inl tt), (set_k_heap h' k). split; [done|]. by apply (heap_sys k h' _ Hs Hs').
  - exists (inr t), k'. split; [done|]. by apply (heap_waits_sys k t sem).
Qed.
End Calls.

(** A thread that runs again within half the tick range of the start of its wait. *)
Definition in_range (k : kernel) (start : Z) : Prop := u32 (t_tick (k_timers k) - start) < 2 ^ 31.
Lemma remaining_bound timeout start now : timeout < HALF -> u32 (now - start) < 2 ^ 31 -> remaining timeout start now < HALF.
Proof.
  intros Ht He. pose proof (wrap_range 32 (now - start) ltac:(lia)) as Hw. unfold remaining. case_bool_decide; [|done].
  unfold HALF in *. rewrite swrap_id by lia. case_bool_decide; lia.
Qed.

(** ** What a thread does when it runs again after a wait *)

Section Resumptions.
Context (k : kernel) (t : nat) (Hs : sys_inv k) (Hr : running k t).

(** The common beginning of the resumed calls: an error ends the call, otherwise the
    waiting loop goes on with the rest of the timeout. *)
Lemma resume_safe {A} (err : Z -> A) (loop : Z -> M kernel A) timeout start :
  (forall time, time < HALF -> safe (loop time) k) -> timeout < HALF -> in_range k start ->
  safe (th ← get_thread t;
        if bool_decide (th_error th <> RT_EOK) then mret (err (th_error th))
        else now ← on_timers rt_tick_get; loop (remaining timeout start now)) k.
Proof using Hs Hr.
  intros Hl Ht Hin. destruct (proj2 Hr) as (th & Et & _). apply (safe_bind _ _ k th k); [by apply get_thread_run|].
  case_bool_decide; [by apply safe_ret|]. apply (safe_bind _ _ k (t_tick (k_timers k)) k); [unfold rt_tick_get; by rewrite (on_timers_run _ k _ _ eq_refl), set_timers_id|].
  apply Hl. by apply remaining_bound.
Qed.

Lemma mb_send_resume_safe n mb value timeout start :
  k_mbs k !! n = Some mb -> timeout < HALF -> in_range k start -> safe (rt_mb_send_wait_resume n value (t, timeout, start)) k.
Proof using Hs Hr.
  intros En Ht Hin. apply (resume_safe (fun e => inl e) (mb_send_loop n value)); [|done|done]. intros time Htime.
  destruct (sy_mbs _ Hs n mb En) as (_ & _ & [lr El] & _).
  destruct (mb_send_loop_ok k n mb t value time lr (sy_kinv _ Hs) (sy_mbs _ Hs) En Hr (half_bound _ Htime) El) as (r & k' & E & Hk & Hi & Hp).
  apply (safe_calm PMailbox _ k r k'); try done. destruct Hp as [Hp|[(_ & _ & _ & ->)|Hp]]; [|apply calm_error|];
    apply (mb_send_calm n mb t value time lr k r k' Htime El); [by left|by right; right].
Qed.
Lemma mb_recv_resume_safe n mb timeout start :
  k_mbs k !! n = Some mb -> timeout < HALF -> in_range k start -> safe (rt_mb_recv_resume n (t, timeout, start)) k.
Proof using Hs Hr.
  intros En Ht Hin. apply (resume_safe (fun e => inl (e, None)) (mb_recv_loop n)); [|done|done]. intros time Htime.
  destruct (sy_mbs _ Hs n mb En) as (_ & _ & _ & [ls El]).
  destruct (mb_recv_loop_ok k n mb t time ls (sy_kinv _ Hs) (sy_mbs _ Hs) En Hr (half_bound _ Htime) El) as (r & k' & E & Hk & Hi & Hp).
  apply (safe_calm PMailbox _ k r k'); try done. destruct Hp as [Hp|[(_ & _ & _ & ->)|Hp]]; [|etransitivity; [apply (calm_error _ t RT_EOK)|apply calm_error]|];
    apply (mb_recv_calm n mb t time ls k r k' Htime El); [by left|by right; right].
Qed.
Lemma mq_send_resume_safe n mq buffer timeout start :
  k_mqs k !! n = Some mq -> Z.of_nat (length buffer) <= mq_msg_size mq -> timeout < HALF -> in_range k start ->
  safe (rt_mq_send_wait_resume n buffer (t, timeout, start)) k.
Proof using Hs Hr.
  intros En Hlen Ht Hin. apply (resume_safe (fun e => inl e) (mq_send_loop n buffer)); [|done|done]. intros time Htime.
  destruct (sy_mqs _ Hs n mq En) as ((msgs & Hh) & _ & [lr El] & _).
  destruct (mq_send_loop_ok k n mq t buffer time msgs lr (sy_kinv _ Hs) (sy_mqs _ Hs) En Hr (half_bound _ Htime) Hlen Hh El) as (r & k' & E & Hk & Hi & Hp).
  apply (safe_calm PMsgQueue _ k r k'); try done. destruct Hp as [Hp|[(_ & _ & _ & ->)|Hp]]; [|apply calm_error|];
    apply (mq_send_calm n mq t buffer time msgs lr k r k' Htime El); right; (split; [done|]); [by left|by right; right].
Qed.
Lemma mq_recv_resume_safe n mq size timeout start :
  k_mqs k !! n = Some mq -> timeout < HALF -> in_range k start -> safe (rt_mq_recv_resume n size (t, timeout, start)) k.
Proof using Hs Hr.
  intros En Ht Hin. apply (resume_safe (fun e => inl (e, None)) (mq_recv_loop n size)); [|done|done]. intros time Htime.
  destruct (sy_mqs _ Hs n mq En) as ((msgs & Hh) & _ & _ & [ls El]).
  destruct (mq_recv_loop_ok k n mq t size time msgs ls (sy_kinv _ Hs) (sy_mqs _ Hs) En Hr (half_bound _ Htime) Hh El) as (r & k' & E & Hk & Hi & Hp).
  apply (safe_calm PMsgQueue _ k r k'); try done. destruct Hp as [Hp|[(_ & _ & _ & ->)|Hp]]; [|etransitivity; [apply (calm_error _ t RT_EOK)|apply calm_error]|];
    apply (mq_recv_calm n mq t size time msgs ls k r k' Htime El); [by left|by right; right].
Qed.
Lemma mp_alloc_resume_safe n mp timeout start :
  k_mps k !! n = Some mp -> timeout < HALF -> in_range k start -> safe (rt_mp_alloc_resume n (t, timeout, start)) k.
Proof using Hs Hr.
  intros En Ht Hin. apply (resume_safe (fun _ => inl None) (mp_alloc_loop n)); [|done|done]. intros time Htime.
  by apply (mp_alloc_loop_safe k t Hs Hr n mp).
Qed.

(** A thread that was handed the lock of the heap. *)
Lemma heap_section_safe {A} (c : M heap A) a h' l :
  c (k_heap k) = Some (a, h') -> heap_state h' l -> safe (heap_section c) k.
Proof using Hs Hr.
  intros E Hl. destruct (sy_lock _ Hs) as [sem Es]. apply (safe_bind _ _ k a (set_k_heap h' k)); [by apply on_heap_run|].
  pose proof (heap_sys k h' l Hs Hl) as Hs1. apply safe_then; [by apply (sem_release_safe (set_k_heap h' k) t Hs1 Hr heap_sem sem)|].
  intros _ k' Hk'. by apply safe_ret.
Qed.
Lemma sem_resume_run : exists e, rt_sem_take_resume t k = Some (e, k).
Proof using Hr. destruct (proj2 Hr) as (th & Et & _). eexists. by apply sem_take_resume_run. Qed.
Lemma malloc_resume_safe size : 0 < size < 2 ^ 32 - 3 -> safe (rt_malloc_resume t size) k.
Proof using Hs Hr.
  intros Hsz. destruct sem_resume_run as [e E]. apply (safe_bind _ _ k e k E). destruct (sy_heap _ Hs) as (l & bs & Hrep & El).
  pose proof (hc_size _ _ (hr_core _ _ Hrep)) as [Hmin Hmod]. destruct (malloc_size_run size (k_heap k)) as (Es & _); [lia|done..|].
  eapply (safe_bind _ _ k); [apply (on_heap_run _ _ _ _ Es)|]. replace (set_k_heap (k_heap k) k) with k by (by destruct k).
  destruct (decide (size <= hp_mem_size_aligned (k_heap k))) as [Hle|]; [|by apply safe_ret].
  destruct (malloc_section_ok _ _ _ Hrep Hsz Hle) as (r & h' & Em & Hm). destruct r as [p|].
  - destruct Hm as (o & nx & _ & Hg). destruct (gr_state _ _ _ _ _ _ Hg) as (l1 & l2 & _ & Hs'). by apply (heap_section_safe _ _ _ _ Em Hs').
  - destruct Hm as [-> _]. apply (heap_section_safe _ _ _ l Em). by exists bs.
Qed.
Lemma free_resume_safe l1 o nx l2 :
  heap_state (k_heap k) (l1 ++ (o, nx) :: l2) -> safe (rt_free_resume t (hp_ptr (k_heap k) + (o + SIZEOF_STRUCT_MEM))) k.
Proof using Hs Hr.
  intros Hst. destruct sem_resume_run as [e E]. apply (safe_bind _ _ k e k E).
  destruct (free_state _ _ _ _ _ Hst) as (h' & Ef & Hs' & _). apply (heap_section_safe _ tt h' (l1 ++ l2)); [|done].
  unfold free_section. munfold. by replace (hp_ptr (k_heap k) + (o + SIZEOF_STRUCT_MEM) - hp_ptr (k_heap k)) with (o + SIZEOF_STRUCT_MEM) by lia.
Qed.
End Resumptions.

(** ** Threads and the timer interrupt *)

Section Threads.
Context (k : kernel) (Hs : sys_inv k).

Lemma schedule_safe c : s_current (k_sched k) = Some c -> safe (on_sched rt_schedule) k.
Proof using Hs.
  intros Hc. destruct (kschedule_ok k c (sy_kinv _ Hs) Hc) as (s' & E & Hk & (_ & Hf & _)).
  apply (safe_calm PThread _ k tt _ Hs E Hk); [done|]. by apply calm_frame.
Qed.
Lemma suspend_safe t th : s_threads (k_sched k) !! t = Some th -> active th -> safe (rt_thread_suspend t) k.
Proof using Hs.
  intros Et Ha. destruct (suspend_ok k t th (sy_kinv _ Hs) Et Ha) as (g & tms' & E & Hk & _ & _ & _ & Htl).
  apply (safe_calm PThread _ k _ _ Hs E Hk); [done|]. etransitivity; [by apply calm_unready|apply calm_timers, Htl].
Qed.
Lemma resume_thread_safe t th : s_threads (k_sched k) !! t = Some th -> stat_of th = RT_THREAD_SUSPEND -> safe (rt_thread_resume t) k.
Proof using Hs.
  intros Et Ha. destruct (resume_ok k t th (sy_kinv _ Hs) Et Ha) as (l & tms' & _ & E & Hk & _ & _ & Htl).
  apply (safe_calm PThread _ k _ _ Hs E Hk); [done|]. etransitivity; [by apply (calm_resumed _ t th)|apply calm_timers, Htl].
Qed.
Lemma sleep_safe t tick : running k t -> 0 <= tick < HALF -> safe (rt_thread_sleep tick) k.
Proof using Hs.
  intros [Hc (th & Et & Hr)] Htick. destruct (suspend_ok k t th (sy_kinv _ Hs) Et) as (g & tms1 & E1 & Hk1 & _ & Hf1 & _ & Htl1); [by right|].
  cbn zeta in *. set (s1 := unready t g _ _) in *. set (k1 := set_k_timers tms1 (set_k_sched s1 k)) in *.
  assert (Et1 : s_threads s1 !! t = Some (with_stat RT_THREAD_SUSPEND th)) by apply lookup_insert_eq.
  destruct (start_thread_timer_ok k1 t _ tick Hk1 Et1) as (tms2 & E2 & Hk2 & _ & _ & Htl2); [by rewrite stat_with_suspend|done|unfold HALF in *; lia|].
  destruct (kschedule_ok (set_k_timers tms2 k1) t Hk2) as (s' & E3 & Hk3 & (_ & Hf3 & _)); [done|].
  apply (safe_calm PThread _ k t (set_k_sched s' (set_k_timers tms2 k1)) Hs); [|done|done|].
  - rewrite (sleep_run _ _ _ Hc). unfold sleep_for. munfold. by rewrite E1, E2, E3.
  - etransitivity; [by apply (calm_unready _ t g RT_THREAD_SUSPEND th)|]. etransitivity; [apply (calm_timers _ tms1), Htl1|].
    etransitivity; [apply (calm_timers _ tms2), Htl2; lia|]. by apply calm_frame.
Qed.

(** Starting and stopping a hard timer of the application. *)
Lemma armed_timely n tm l1 l2 d :
  t_timers (k_timers k) !! n = Some tm -> Z.testbit (tm_flag tm) 2 = false -> d + tm_init_tick tm < HALF ->
  rt_timer_start n k = Some (RT_EOK, set_k_timers (armed n tm l1 l2 (k_timers k)) k) -> timely d (k_timers k) (armed n tm l1 l2 (k_timers k)).
Proof using Hs.
  intros En H2 Hi E. split; [done| |].
  - intros base Hb Ho. assert (Etl : timer_list_of (tm_flag tm) = TLHard) by (by rewrite list_of_flag_testbit, H2).
    destruct (arm_sorted base n (k_timers k) tm (ki_timers _ _ (sy_kinv _ Hs)) Ho En) as (l' & l1' & l2' & _ & _ & Ea & _ & Hso & _); [rewrite Etl; lia|].
    pose proof (timer_start_run k n tm l1' l2' Ea H2) as E'. rewrite E in E'. apply (f_equal (fun o => default (k_timers k) ((fun p => k_timers (snd p)) <$> o))) in E' as Heq.
    change (armed n tm l1 l2 (k_timers k) = armed n tm l1' l2' (k_timers k)) in Heq. by rewrite Heq.
  - intros Hp a tma. cbn [t_timers armed set_t_lists set_t_timers]. rewrite lookup_insert. case_decide as Hd; [|apply Hp]. subst a.
    intros [= <-] H1 _. apply (Hp n tm En); [|done]. revert H1. unfold armed_timer.
    cbn [tm_flag timer_set_flag set_tm_flag timer_clear_flag set_tm_timeout_tick]. rewrite Z.lor_spec, Z.land_spec.
    change (Z.testbit RT_TIMER_FLAG_ACTIVATED 1) with false. rewrite orb_false_r. by intros [? _]%andb_prop.
Qed.
Lemma timer_start_safe m tm :
  t_timers (k_timers k) !! UserTimer m = Some tm -> Z.testbit (tm_flag tm) 2 = false -> tm_init_tick tm < HALF ->
  safe (rt_timer_start (UserTimer m)) k.
Proof using Hs.
  intros En H2 Hi. destruct (timer_start_hard k (UserTimer m) tm (sy_kinv _ Hs) En H2) as (l & l1 & l2 & _ & _ & E & Hk); [done|].
  apply (safe_calm PThread _ k _ _ Hs E Hk); [done|]. apply calm_timers. by apply (armed_timely (UserTimer m) tm).
Qed.
Lemma timer_stop_safe m tm : t_timers (k_timers k) !! UserTimer m = Some tm -> safe (on_timers (rt_timer_stop (UserTimer m))) k.
Proof using Hs.
  intros En. pose proof (sy_kinv _ Hs) as Hk. destruct (stop_ok _ _ _ (ki_timers _ _ Hk) En) as (e & tms' & E & Hcase & _ & _ & Hord).
  destruct Hcase as [(_ & _ & ->)|(_ & _ & ->)].
  - set (k1 := set_k_timers (tremoved (UserTimer m) (k_timers k)) k).
    pose proof (kinv_clear k1 (UserTimer m) tm (kinv_removed k _ Hk) En (tremoved_free _ _)) as Hk2.
    apply (safe_calm PThread _ k e (set_k_timers (stopped (UserTimer m) tm (k_timers k)) k) Hs); [by apply on_timers_run|exact Hk2|done|].
    apply calm_timers. split; [done|by intros base _; apply Hord|]. intros Hp a tma. cbn [t_timers stopped set_t_timers]. rewrite lookup_insert.
    case_decide as Hd; [|apply Hp]. subst a. intros [= <-]. cbn [tm_flag timer_clear_flag set_tm_flag tm_init_tick]. rewrite !Z.land_spec.
    intros [H1 _]%andb_prop. rewrite andb_true_r. by apply (Hp (UserTimer m) tm).
  - apply (safe_calm PThread _ k e k Hs); [rewrite (on_timers_run _ _ _ _ E); by rewrite set_timers_id|done|done|done].
Qed.
End Threads.

(** ** Steps of the system *)

(** The calls that make, reset and remove objects.  [Some] address of a new object is the
    number it gets; a mailbox or message queue gets memory for its contents. *)
Inductive manage :=
| Sem_init (n : nat) (name : list Z) (value flag : Z) | Sem_create (n : nat) (name : list Z) (value flag : Z)
| Sem_detach (n : nat) | Sem_delete (n : nat) | Sem_control (n : nat) (cmd : bool) (arg : Z)
| Mutex_init (n : nat) (name : list Z) (flag : Z) | Mutex_create (n : nat) (name : list Z) (flag : Z)
| Mutex_detach (n : nat) | Mutex_delete (n : nat)
| Event_init (n : nat) (name : list Z) (flag : Z) | Event_create (n : nat) (name : list Z) (flag : Z)
| Event_detach (n : nat) | Event_delete (n : nat) | Event_control (n : nat) (cmd : bool)
| Mb_init (n : nat) (name msgpool : list Z) (size flag : Z) | Mb_create (n : nat) (name msgpool : list Z) (size flag : Z)
| Mb_detach (n : nat) | Mb_delete (n : nat) | Mb_control (n : nat) (cmd : bool)
| Mq_init (n : nat) (name msgpool : list Z) (msg_size pool_size flag : Z)
| Mq_create (n : nat) (name msgpool : list Z) (msg_size max_msgs flag : Z)
| Mq_detach (n : nat) | Mq_delete (n : nat) | Mq_control (n : nat) (cmd : bool)
| Mp_init (n : nat) (name : list Z) (size block_size : Z) | Mp_create (n : nat) (name : list Z) (block_count block_size : Z)
| Mp_detach (n : nat) | Mp_delete (n : nat)
| Thread_init (u : nat) (name : list Z) (entry parameter stack_start stack_size priority tick : Z)
| Thread_startup (u : nat) | Thread_detach (u : nat) | Thread_exit.

Definition perform_manage (c : manage) : M kernel unit :=
  match c with
  | Sem_init n name value flag => rt_sem_init n name value flag ;; mret tt
  | Sem_create n name value flag => rt_sem_create name value flag (Some n) ;; mret tt
  | Sem_detach n => rt_sem_detach n ;; mret tt
  | Sem_delete n => rt_sem_delete n ;; mret tt
  | Sem_control n cmd arg => rt_sem_control n cmd arg ;; mret tt
  | Mutex_init n name flag => rt_mutex_init n name flag ;; mret tt
  | Mutex_create n name flag => rt_mutex_create name flag (Some n) ;; mret tt
  | Mutex_detach n => rt_mutex_detach n ;; mret tt
  | Mutex_delete n => rt_mutex_delete n ;; mret tt
  | Event_init n name flag => rt_event_init n name flag ;; mret tt
  | Event_create n name flag => rt_event_create name flag (Some n) ;; mret tt
  | Event_detach n => rt_event_detach n ;; mret tt
  | Event_delete n => rt_event_delete n ;; mret tt
  | Event_control n cmd => rt_event_control n cmd ;; mret tt
  | Mb_init n name msgpool size flag => rt_mb_init n name msgpool size flag ;; mret tt
  | Mb_create n name msgpool size flag => rt_mb_create name size flag (Some n) (Some msgpool) ;; mret tt
  | Mb_detach n => rt_mb_detach n ;; mret tt
  | Mb_delete n => rt_mb_delete n ;; mret tt
  | Mb_control n cmd => rt_mb_control n cmd ;; mret tt
  | Mq_init n name msgpool msg_size pool_size flag => rt_mq_init n name msgpool msg_size pool_size flag ;; mret tt
  | Mq_create n name msgpool msg_size max_msgs flag => rt_mq_create name msg_size max_msgs flag (Some n) (Some msgpool) ;; mret tt
  | Mq_detach n => rt_mq_detach n ;; mret tt
  | Mq_delete n => rt_mq_delete n ;; mret tt
  | Mq_control n cmd => rt_mq_control n cmd ;; mret tt
  | Mp_init n name size block_size => rt_mp_init n name size block_size ;; mret tt
  | Mp_create n name block_count block_size => rt_mp_create name block_count block_size (Some n) true ;; mret tt
  | Mp_detach n => rt_mp_detach n ;; mret tt
  | Mp_delete n => rt_mp_delete n ;; mret tt
  | Thread_init u name entry parameter stack_start stack_size priority tick =>
      rt_thread_init u name entry parameter stack_start stack_size priority tick ;; mret tt
  | Thread_startup u => rt_thread_startup u ;; mret tt
  | Thread_detach u => rt_thread_detach u ;; mret tt
  | Thread_exit => rt_thread_exit ;; mret tt
  end.

(** A new object is in no container and nobody waits for it; an object to remove exists and
    was registered; sizes fit the memory. *)
Definition manageable (k : kernel) (t : nat) (c : manage) : Prop :=
  let unlisted o := q_free (o_lists (k_objs k)) o in
  let listed o := is_Some (o_objs (k_objs k) !! o) in
  match c with
  | Sem_init n _ _ flag => can_lock k /\ unlisted (OSem n) /\ no_waiters k (QSem n) /\ ipc_flag_ok flag
  | Sem_create n _ _ flag => unlisted (OSem n) /\ no_waiters k (QSem n) /\ ipc_flag_ok flag
  | Sem_detach n => is_Some (k_sems k !! n) /\ listed (OSem n)
  | Sem_delete n => is_Some (k_sems k !! n) /\ n <> heap_sem /\ listed (OSem n)
  | Sem_control n _ _ => is_Some (k_sems k !! n)
  | Mutex_init n _ flag => can_lock k /\ unlisted (OMutex n) /\ no_waiters k (QMutex n) /\ ipc_flag_ok flag
  | Mutex_create n _ flag => unlisted (OMutex n) /\ no_waiters k (QMutex n) /\ ipc_flag_ok flag
  | Mutex_detach n | Mutex_delete n => is_Some (k_mutexes k !! n) /\ listed (OMutex n)
  | Event_init n _ flag => can_lock k /\ unlisted (OEvent n) /\ no_waiters k (QEvent n) /\ ipc_flag_ok flag
  | Event_create n _ flag => unlisted (OEvent n) /\ no_waiters k (QEvent n) /\ ipc_flag_ok flag
  | Event_detach n | Event_delete n => is_Some (k_events k !! n) /\ listed (OEvent n)
  | Event_control n _ => is_Some (k_events k !! n)
  | Mb_init n _ msgpool size flag =>
      can_lock k /\ unlisted (OMailBox n) /\ no_waiters k (QMbRecv n) /\ no_waiters k (QMbSend n) /\ ipc_flag_ok flag /\
      0 < size < 2 ^ 16 /\ Z.of_nat (length msgpool) = size
  | Mb_create n _ msgpool size flag =>
      unlisted (OMailBox n) /\ no_waiters k (QMbRecv n) /\ no_waiters k (QMbSend n) /\ ipc_flag_ok flag /\
      0 < size < 2 ^ 16 /\ Z.of_nat (length msgpool) = size
  | Mb_detach n | Mb_delete n => is_Some (k_mbs k !! n) /\ listed (OMailBox n)
  | Mb_control n _ => is_Some (k_mbs k !! n)
  | Mq_init n _ msgpool _ pool_size flag =>
      can_lock k /\ unlisted (OMessageQueue n) /\ no_waiters k (QMqRecv n) /\ no_waiters k (QMqSend n) /\ ipc_flag_ok flag /\
      0 <= pool_size <= Z.of_nat (length msgpool)
  | Mq_create n _ msgpool msg_size max_msgs flag =>
      unlisted (OMessageQueue n) /\ no_waiters k (QMqRecv n) /\ no_waiters k (QMqSend n) /\ ipc_flag_ok flag /\
      u16 max_msgs * (u16 (RT_ALIGN msg_size) + MSG_HDR) <= Z.of_nat (length msgpool)
  | Mq_detach n | Mq_delete n => is_Some (k_mqs k !! n) /\ listed (OMessageQueue n)
  | Mq_control n _ => is_Some (k_mqs k !! n)
  | Mp_init n _ size block_size =>
      can_lock k /\ unlisted (OMemPool n) /\ no_waiters k (QMempool n) /\ 0 <= size < 2 ^ 32 /\ 0 <= block_size /\
      RT_ALIGN block_size + MP_HDR < 2 ^ 32 /\ RT_ALIGN block_size + MP_HDR <= RT_ALIGN_DOWN size
  | Mp_create n _ block_count block_size =>
      unlisted (OMemPool n) /\ no_waiters k (QMempool n) /\ 0 <= block_size /\ 0 < block_count /\
      (RT_ALIGN block_size + MP_HDR) * block_count < 2 ^ 32
  | Mp_detach n | Mp_delete n => is_Some (k_mps k !! n) /\ listed (OMemPool n)
  | Thread_init u _ _ _ _ _ priority _ => can_lock k /\ fresh_thread k u /\ 0 <= priority < RT_THREAD_PRIORITY_MAX
  | Thread_startup u => exists th, s_threads (k_sched k) !! u = Some th /\ stat_of th = RT_THREAD_INIT /\ 0 <= th_init_priority th < 32
  | Thread_detach u => exists th, s_threads (k_sched k) !! u = Some th /\ stat_of th <> RT_THREAD_INIT /\
      listed (OThread u) /\ listed (OTimer (ThreadTimer u))
  | Thread_exit => listed (OThread t) /\ listed (OTimer (ThreadTimer t))
  end.

Lemma manage_safe k t c : sys_inv k -> running k t -> manageable k t c -> safe (perform_manage c) k.
Proof.
  intros Hs Hr Ha. pose proof (proj1 Hr) as Hc. destruct c; cbn in Ha |- *; apply safe_unit; destruct_and?.
  - by apply sem_init_safe.
  - by apply sem_create_safe.
  - by apply sem_detach_safe.
  - by apply sem_delete_safe.
  - by apply (sem_control_safe k Hs n cmd arg t).
  - by apply mutex_init_safe.
  - by apply mutex_create_safe.
  - by apply mutex_detach_safe.
  - by apply mutex_delete_safe.
  - by apply event_init_safe.
  - by apply event_create_safe.
  - by apply event_detach_safe.
  - by apply event_delete_safe.
  - by apply (event_control_safe k Hs n cmd t).
  - by apply mb_init_safe.
  - by apply mb_create_safe.
  - by apply mb_detach_safe.
  - by apply mb_delete_safe.
  - by apply (mb_control_safe k Hs n cmd t).
  - by apply mq_init_safe.
  - by apply mq_create_safe.
  - by apply mq_detach_safe.
  - by apply mq_delete_safe.
  - by apply (mq_control_safe k Hs n cmd t).
  - by apply mp_init_safe.
  - by apply mp_create_safe.
  - by apply mp_detach_safe.
  - by apply mp_delete_safe.
  - by apply thread_init_safe.
  - destruct Ha as (th & Et & Hst & Hp). apply (thread_startup_safe k Hs u th); eauto.
  - destruct Ha as (th & Et & Hst & Ho & Hot). by apply (thread_detach_safe k Hs u th).
  - by apply (thread_exit_safe k Hs t).
Qed.

(** The calls, and ([_again]) what is left of one when its thread runs after a wait. *)
Inductive syscall :=
| Sem_take (n : nat) (time : Z) | Sem_release (n : nat)
| Mutex_take (n : nat) (time : Z) | Mutex_release (n : nat)
| Event_send (n : nat) (set : Z) | Event_recv (n : nat) (set opts timeout : Z)
| Mb_send (n : nat) (value timeout : Z) | Mb_send_again (n : nat) (value timeout start : Z)
| Mb_recv (n : nat) (timeout : Z) | Mb_recv_again (n : nat) (timeout start : Z)
| Mq_send (n : nat) (buffer : list Z) (timeout : Z) | Mq_send_again (n : nat) (buffer : list Z) (timeout start : Z)
| Mq_urgent (n : nat) (buffer : list Z)
| Mq_recv (n : nat) (size timeout : Z) | Mq_recv_again (n : nat) (size timeout start : Z)
| Mp_alloc (n : nat) (time : Z) | Mp_alloc_again (n : nat) (time start : Z) | Mp_free (n i : nat)
| Malloc (size : Z) | Malloc_again (size : Z) | Free (o nx : Z) | Free_again (o nx : Z)
| Sleep (tick : Z) | Yield | Suspend (u : nat) | Resume (u : nat)
| Timer_start (m : nat) | Timer_stop (m : nat)
| Manage (c : manage).

(** What thread [t] does in a call. *)
Definition perform (t : nat) (c : syscall) : M kernel unit :=
  match c with
  | Sem_take n time => rt_sem_take n time ;; mret tt
  | Sem_release n => rt_sem_release n ;; mret tt
  | Mutex_take n time => rt_mutex_take n time ;; mret tt
  | Mutex_release n => rt_mutex_release n ;; mret tt
  | Event_send n set => rt_event_send n set ;; mret tt
  | Event_recv n set opts timeout => rt_event_recv n set opts timeout ;; mret tt
  | Mb_send n value timeout => rt_mb_send_wait n value timeout ;; mret tt
  | Mb_send_again n value timeout start => rt_mb_send_wait_resume n value (t, timeout, start) ;; mret tt
  | Mb_recv n timeout => rt_mb_recv n timeout ;; mret tt
  | Mb_recv_again n timeout start => rt_mb_recv_resume n (t, timeout, start) ;; mret tt
  | Mq_send n buffer timeout => rt_mq_send_wait n buffer timeout ;; mret tt
  | Mq_send_again n buffer timeout start => rt_mq_send_wait_resume n buffer (t, timeout, start) ;; mret tt
  | Mq_urgent n buffer => rt_mq_urgent n buffer ;; mret tt
  | Mq_recv n size timeout => rt_mq_recv n size timeout ;; mret tt
  | Mq_recv_again n size timeout start => rt_mq_recv_resume n size (t, timeout, start) ;; mret tt
  | Mp_alloc n time => rt_mp_alloc n time ;; mret tt
  | Mp_alloc_again n time start => rt_mp_alloc_resume n (t, time, start) ;; mret tt
  | Mp_free n i => rt_mp_free n i ;; mret tt
  | Malloc size => rt_malloc size ;; mret tt
  | Malloc_again size => rt_malloc_resume t size ;; mret tt
  | Free o nx => heap_ptr ← on_heap (gets hp_ptr); rt_free (heap_ptr + (o + SIZEOF_STRUCT_MEM)) ;; mret tt
  | Free_again o nx => heap_ptr ← on_heap (gets hp_ptr); rt_free_resume t (heap_ptr + (o + SIZEOF_STRUCT_MEM)) ;; mret tt
  | Sleep tick => rt_thread_sleep tick ;; mret tt
  | Yield => rt_thread_yield ;; mret tt
  | Suspend u => rt_thread_suspend u ;; mret tt
  | Resume u => rt_thread_resume u ;; mret tt
  | Timer_start m => rt_timer_start (UserTimer m) ;; mret tt
  | Timer_stop m => on_timers (rt_timer_stop (UserTimer m)) ;; mret tt
  | Manage c => perform_manage c
  end.

(** The object exists, timeouts fit their type, and only what was allocated is freed. *)
Definition allowed (k : kernel) (t : nat) (c : syscall) : Prop :=
  match c with
  | Sem_take n time => is_Some (k_sems k !! n) /\ time < HALF
  | Sem_release n => is_Some (k_sems k !! n)
  | Mutex_take n time => exists mx, k_mutexes k !! n = Some mx /\ time < HALF /\ (mx_owner mx = Some t -> mx_hold mx < 255)
  | Mutex_release n => is_Some (k_mutexes k !! n)
  | Event_send n set => is_Some (k_events k !! n) /\ 0 < set
  | Event_recv n set opts timeout => is_Some (k_events k !! n) /\ 0 < set /\ timeout < HALF
  | Mb_send n _ timeout | Mb_recv n timeout => is_Some (k_mbs k !! n) /\ timeout < HALF
  | Mb_send_again n _ timeout start | Mb_recv_again n timeout start => is_Some (k_mbs k !! n) /\ timeout < HALF /\ in_range k start
  | Mq_send n _ timeout | Mq_recv n _ timeout => is_Some (k_mqs k !! n) /\ timeout < HALF
  | Mq_recv_again n _ timeout start => is_Some (k_mqs k !! n) /\ timeout < HALF /\ in_range k start
  | Mq_send_again n buffer timeout start =>
      exists mq, k_mqs k !! n = Some mq /\ Z.of_nat (length buffer) <= mq_msg_size mq /\ timeout < HALF /\ in_range k start
  | Mq_urgent n _ => is_Some (k_mqs k !! n)
  | Mp_alloc n time => is_Some (k_mps k !! n) /\ time < HALF
  | Mp_alloc_again n time start => is_Some (k_mps k !! n) /\ time < HALF /\ in_range k start
  | Mp_free n i => exists mp, k_mps k !! n = Some mp /\ mp_words mp !! i = Some (MpPool n) /\ Z.of_nat i < mp_block_total_count mp
  | Malloc size | Malloc_again size => 0 < size < 2 ^ 32 - 3
  | Free o nx | Free_again o nx => exists l1 l2, heap_state (k_heap k) (l1 ++ (o, nx) :: l2)
  | Sleep tick => 0 <= tick < HALF
  | Yield => True
  | Suspend u => exists th, s_threads (k_sched k) !! u = Some th /\ active th
  | Resume u => exists th, s_threads (k_sched k) !! u = Some th /\ stat_of th = RT_THREAD_SUSPEND
  | Timer_start m => exists tm, t_timers (k_timers k) !! UserTimer m = Some tm /\ Z.testbit (tm_flag tm) 2 = false /\ tm_init_tick tm < HALF
  | Timer_stop m => is_Some (t_timers (k_timers k) !! UserTimer m)
  | Manage c => manageable k t c
  end.

Lemma call_safe k t c : sys_inv k -> running k t -> allowed k t c -> safe (perform t c) k.
Proof.
  intros Hs Hr Ha. destruct c; cbn in Ha |- *; try apply safe_unit.
  - destruct Ha as [[x En] Ht]. by apply (sem_take_safe k t Hs Hr n x).
  - destruct Ha as [x En]. by apply (sem_release_safe k t Hs Hr n x).
  - destruct Ha as (x & En & ? & ?). by apply (mutex_take_safe k t Hs Hr n x).
  - destruct Ha as [x En]. by apply (mutex_release_safe k t Hs Hr n x).
  - destruct Ha as [[x En] Ht]. by apply (event_send_safe k t Hs Hr n x).
  - destruct Ha as [[x En] [? ?]]. by apply (event_recv_safe k t Hs Hr n x).
  - destruct Ha as [[x En] Ht]. by apply (mb_send_safe k t Hs Hr n x).
  - destruct Ha as [[x En] [? ?]]. by apply (mb_send_resume_safe k t Hs Hr n x).
  - destruct Ha as [[x En] Ht]. by apply (mb_recv_safe k t Hs Hr n x).
  - destruct Ha as [[x En] [? ?]]. by apply (mb_recv_resume_safe k t Hs Hr n x).
  - destruct Ha as [[x En] Ht]. by apply (mq_send_safe k t Hs Hr n x).
  - destruct Ha as (x & En & ? & ? & ?). by apply (mq_send_resume_safe k t Hs Hr n x).
  - destruct Ha as [x En]. by apply (mq_urgent_safe k t Hs Hr n x).
  - destruct Ha as [[x En] Ht]. by apply (mq_recv_safe k t Hs Hr n x).
  - destruct Ha as [[x En] [? ?]]. by apply (mq_recv_resume_safe k t Hs Hr n x).
  - destruct Ha as [[x En] Ht]. by apply (mp_alloc_loop_safe k t Hs Hr n x).
  - destruct Ha as [[x En] [? ?]]. by apply (mp_alloc_resume_safe k t Hs Hr n x).
  - destruct Ha as (x & En & ? & ?). by apply (mp_free_safe k t Hs Hr n x).
  - apply (malloc_safe k t Hs Hr). lia.
  - by apply (malloc_resume_safe k t Hs Hr).
  - destruct Ha as (l1 & l2 & Hl). destruct (free_safe k t Hs Hr l1 o nx l2 Hl) as (a & k' & E & Hs'). exists a, k'.
    split; [|done]. cbn. by replace (set_k_heap (k_heap k) k) with k by (by destruct k).
  - destruct Ha as (l1 & l2 & Hl). destruct (free_resume_safe k t Hs Hr l1 o nx l2 Hl) as (a & k' & E & Hs'). exists a, k'.
    split; [|done]. cbn. by replace (set_k_heap (k_heap k) k) with k by (by destruct k).
  - by apply (sleep_safe k Hs t).
  - apply safe_then; [by apply (schedule_safe k Hs t), Hr|]. intros _ k' Hk'. by apply safe_ret.
  - destruct Ha as (x & Et & ?). by apply (suspend_safe k Hs u x).
  - destruct Ha as (x & Et & ?). by apply (resume_thread_safe k Hs u x).
  - destruct Ha as (x & En & ? & ?). by apply (timer_start_safe k Hs m x).
  - destruct Ha as [x En]. by apply (timer_stop_safe k Hs m x).
  - by apply (manage_safe k t).
Qed.

(** The steps, for given timeout functions of the application. *)
Section Steps.
Context (ut : nat -> M kernel unit) `{!SysTimeout ut}.

Inductive sys_step (k k' : kernel) : Prop :=
| step_call t c : running k t -> allowed k t c -> perform t c k = Some (tt, k') -> sys_step k k'
| step_tick c fuel : s_current (k_sched k) = Some c -> (ndue (k_timers (ticked k)) < fuel)%nat ->
    rt_tick_increase ut fuel k = Some (true, k') -> sys_step k k'.

Lemma step_inv k k' : sys_inv k -> sys_step k k' -> sys_inv k'.
Proof using SysTimeout0.
  intros Hs [t c Hr Ha E|c fuel Hc Hf E].
  - destruct (call_safe k t c Hs Hr Ha) as (a & k2 & E2 & Hs2). rewrite E in E2. by injection E2 as _ <-.
  - destruct (tick_sys ut k c fuel SysTimeout0 Hs Hc Hf) as (k2 & E2 & Hs2 & _). rewrite E in E2. by injection E2 as <-.
Qed.

(** C1: in every state that any sequence of calls of the running threads and of tick
    interrupts can reach from a state with the system invariant, all invariants of all
    components hold, and the next call and the next tick are defined: no call of a running
    thread that is allowed to make it, and no tick interrupt, can reach undefined
    behaviour.  The calls include those that create, reset and remove IPC objects, pools
    and threads while other threads wait on them. *)
Theorem system_safe k0 k :
  sys_inv k0 -> rtc sys_step k0 k ->
  sys_inv k /\ (forall t c, running k t -> allowed k t c -> exists k', perform t c k = Some (tt, k')) /\
  (forall c fuel, s_current (k_sched k) = Some c -> (ndue (k_timers (ticked k)) < fuel)%nat ->
     exists k', rt_tick_increase ut fuel k = Some (true, k')).
Proof using SysTimeout0.
  intros H0 Hrun. assert (Hs : sys_inv k) by (induction Hrun; eauto using step_inv). split; [done|]. split.
  - intros t c Hr Ha. destruct (call_safe k t c Hs Hr Ha) as ([] & k' & E & _). by exists k'.
  - intros c fuel Hc Hf. destruct (tick_sys ut k c fuel SysTimeout0 Hs Hc Hf) as (k' & E & _). by exists k'.
Qed.
End Steps.
