(* ===== verification/Checks.v ===== *)
(** * Deciding the invariants

    Executable forms of the invariants of all components, for concrete kernels: the
    chains of message queues, memory pools and the heap are followed by evaluation. *)
From S2P Require Import Prelude RtList Kernel Sched Timer Object Thread Lifecycle Idle Boot Ipc Sem Mutex Event Mailbox MsgQueue MemPool Mem Malloc System.
From stdpp Require Import base gmap sets list.
From Stdlib Require Import ZArith Lia.
#[local] Open Scope Z_scope.

(** ** IPC objects *)

#[global] Instance ipc_flag_ok_dec f : Decision (ipc_flag_ok f).
Proof. unfold ipc_flag_ok. apply _. Defined.

Definition sem_check (k : kernel) : Prop :=
  map_Forall (fun n sem => 0 <= sem_value sem < 2 ^ 16 /\ ipc_flag_ok (sem_flag sem) /\
    opt_prop (fun l => sem_value sem = 0 \/ l = []) (s_queues (k_sched k) !! QSem n)) (k_sems k).
#[global] Instance sem_check_dec k : Decision (sem_check k).
Proof. unfold sem_check. apply _. Defined.
Lemma sem_check_ok k : sem_check k -> sem_inv k.
Proof. intros Hc n sem E. destruct (Hc n sem E) as (Hv & Hf & Hq). split_and!; try done; try lia. by apply opt_prop_ex. Qed.

#[global] Instance rt_mutex_eq_dec : EqDecision rt_mutex.
Proof. solve_decision. Defined.
Definition mutex_check (k : kernel) : Prop :=
  map_Forall (fun n mx => ipc_flag_ok (mx_flag mx) /\
    opt_prop (fun l => match mx_owner mx with
      | None => mx = free_mutex (mx_flag mx) /\ l = []
      | Some o => mx_value mx = 0 /\ 0 < mx_hold mx < 256 /\ 0 <= mx_original_priority mx < 32 /\
          is_Some (s_threads (k_sched k) !! o) /\ o ∉ l
      end) (s_queues (k_sched k) !! QMutex n)) (k_mutexes k).
#[global] Instance mutex_check_dec k : Decision (mutex_check k).
Proof.
  unfold mutex_check. apply map_Forall_dec. intros n mx. apply and_dec; [apply _|]. apply opt_prop_dec. intros l.
  destruct (mx_owner mx); apply _.
Defined.
Lemma mutex_check_ok k : mutex_check k -> mutex_inv k.
Proof. intros Hc n mx E. destruct (Hc n mx E) as (Hf & Hq). split; [done|]. by apply opt_prop_ex. Qed.

Definition event_check (k : kernel) : Prop :=
  map_Forall (fun n ev => ipc_flag_ok (ev_flag ev) /\ 0 <= ev_set ev /\
    opt_prop (fun l => Forall (fun t => opt_prop (fun th => event_sat (th_event_info th) (th_event_set th) (ev_set ev) = false)
      (s_threads (k_sched k) !! t)) l) (s_queues (k_sched k) !! QEvent n)) (k_events k).
#[global] Instance event_check_dec k : Decision (event_check k).
Proof. unfold event_check. apply _. Defined.
Lemma event_check_ok k : event_check k -> event_inv k.
Proof.
  intros Hc n ev E. destruct (Hc n ev E) as (Hf & Hs & Hq). split; [done|]. split; [done|].
  destruct (opt_prop_ex _ _ Hq) as (l & El & Hl). exists l. split; [done|]. intros t th Hin Et.
  rewrite Forall_forall in Hl. specialize (Hl t Hin). by rewrite Et in Hl.
Qed.

#[global] Instance mb_wf_dec mb : Decision (mb_wf mb).
Proof. unfold mb_wf. apply _. Defined.
Definition mb_check (k : kernel) : Prop :=
  map_Forall (fun n mb => mb_wf mb /\ ipc_flag_ok (mb_flag mb) /\ is_Some (s_queues (k_sched k) !! QMbRecv n) /\
    is_Some (s_queues (k_sched k) !! QMbSend n)) (k_mbs k).
#[global] Instance mb_check_dec k : Decision (mb_check k).
Proof. unfold mb_check. apply _. Defined.
Lemma mb_check_ok k : mb_check k -> mb_inv k.
Proof. intros Hc n mb E. by apply (Hc n mb E). Qed.

Definition running_check (k : kernel) (t : nat) : Prop :=
  s_current (k_sched k) = Some t /\ opt_prop (fun th => stat_of th = RT_THREAD_RUNNING) (s_threads (k_sched k) !! t).
#[global] Instance running_check_dec k t : Decision (running_check k t).
Proof. unfold running_check. apply _. Defined.
Lemma running_check_ok k t : running_check k t -> running k t.
Proof. intros [Hc Hr]. split; [done|]. by apply opt_prop_ex. Qed.

(** ** Message queues *)

Fixpoint chain_check (next : gmap nat (option nat)) (o : option nat) (l : list nat) : Prop :=
  match l with
  | [] => o = None
  | i :: l => o = Some i /\ opt_prop (fun o' => chain_check next o' l) (next !! i)
  end.
#[global] Instance chain_check_dec next o l : Decision (chain_check next o l).
Proof. revert o. induction l as [|i l IH]; intros o; cbn; apply _. Defined.
Lemma chain_check_ok next o l : chain_check next o l -> chain_from next o l.
Proof.
  revert o. induction l as [|i l IH]; intros o; cbn; [done|]. intros [-> Hc]. split; [done|].
  destruct (opt_prop_ex _ _ Hc) as (o' & E & Ho). exists o'. split; [done|by apply IH].
Qed.

(** [q] and [fr] are the blocks of the two chains, [msgs] the stored messages. *)
Definition mq_check (mq : rt_messagequeue) (q fr : list nat) (msgs : list (list Z)) : Prop :=
  NoDup (q ++ fr) /\ chain_check (mq_next mq) (mq_head mq) q /\ mq_tail mq = last q /\
  chain_check (mq_next mq) (mq_free mq) fr /\ mq_entry mq = Z.of_nat (length q) /\
  (Z.of_nat (length (q ++ fr)) = mq_max_msgs mq /\ mq_max_msgs mq < 2 ^ 16) /\
  Forall (fun i => opt_prop (fun d => Z.of_nat (length d) = mq_msg_size mq) (mq_data mq !! i)) (q ++ fr) /\
  Forall2 (fun i d => mq_data mq !! i = Some d) q msgs.
#[global] Instance mq_check_dec mq q fr msgs : Decision (mq_check mq q fr msgs).
Proof. unfold mq_check. apply _. Defined.
Lemma mq_check_ok mq q fr msgs : mq_check mq q fr msgs -> mq_holds mq msgs.
Proof.
  intros (Hn & Hq & Ht & Hf & He & Hm & Hd & Hms). exists q, fr, []. split; [|done].
  split; rewrite ?app_nil_r; try done; try by apply chain_check_ok.
  - by intros i Hi%not_elem_of_nil.
  - intros i Hi. rewrite Forall_forall in Hd. by apply opt_prop_ex, Hd.
Qed.

(** The blocks of a chain. *)
Fixpoint follow (fuel : nat) (next : gmap nat (option nat)) (o : option nat) : list nat :=
  match fuel, o with
  | S fuel, Some i => i :: follow fuel next (default None (next !! i))
  | _, _ => []
  end.
Definition mq_self_check (mq : rt_messagequeue) : Prop :=
  let q := follow (Z.to_nat (mq_max_msgs mq)) (mq_next mq) (mq_head mq) in
  mq_check mq q (follow (Z.to_nat (mq_max_msgs mq)) (mq_next mq) (mq_free mq)) ((fun i => default [] (mq_data mq !! i)) <$> q).
#[global] Instance mq_self_check_dec mq : Decision (mq_self_check mq).
Proof. unfold mq_self_check. apply _. Defined.
Definition mqs_check (k : kernel) : Prop :=
  map_Forall (fun n mq => mq_self_check mq /\ ipc_flag_ok (mq_flag mq) /\ is_Some (s_queues (k_sched k) !! QMqRecv n) /\
    is_Some (s_queues (k_sched k) !! QMqSend n)) (k_mqs k).
#[global] Instance mqs_check_dec k : Decision (mqs_check k).
Proof. unfold mqs_check. apply _. Defined.
Lemma mqs_check_ok k : mqs_check k -> mq_inv k.
Proof.
  intros Hc n mq E. destruct (Hc n mq E) as (Hm & Hf & Hr & Hs). split; [|done]. eexists. by apply (mq_check_ok _ _ _ _ Hm).
Qed.

(** ** Memory pools *)

Fixpoint mp_follow (fuel : nat) (words : gmap nat mp_word) (o : option nat) : list nat :=
  match fuel, o with
  | S fuel, Some i => i :: mp_follow fuel words (match words !! i with Some (MpNext next) => next | _ => None end)
  | _, _ => []
  end.
Fixpoint free_chain_check (words : gmap nat mp_word) (o : option nat) (l : list nat) : Prop :=
  match l with
  | [] => o = None
  | i :: l => o = Some i /\ opt_prop (fun w => match w with MpNext next => free_chain_check words next l | MpPool _ => False end) (words !! i)
  end.
#[global] Instance free_chain_check_dec words o l : Decision (free_chain_check words o l).
Proof.
  revert o. induction l as [|i l IH]; intros o; cbn; [apply _|]. apply and_dec; [apply _|]. apply opt_prop_dec. intros []; apply _.
Defined.
Lemma free_chain_check_ok words o l : free_chain_check words o l -> free_chain words o l.
Proof.
  revert o. induction l as [|i l IH]; intros o; cbn; [done|]. intros [-> Hc]. split; [done|].
  destruct (opt_prop_ex _ _ Hc) as (w & E & Hw). destruct w as [next|]; [|done]. exists next. split; [done|by apply IH].
Qed.
Definition mp_check (n : nat) (mp : rt_mempool) (fr : list nat) : Prop :=
  NoDup fr /\ free_chain_check (mp_words mp) (mp_block_list mp) fr /\ mp_block_free_count mp = Z.of_nat (length fr) /\
  (0 <= mp_block_total_count mp /\ mp_block_total_count mp < 2 ^ 32) /\ Forall (fun i => Z.of_nat i < mp_block_total_count mp) fr /\
  Forall (fun i => i ∈ fr \/ mp_words mp !! i = Some (MpPool n)) (seq 0 (Z.to_nat (mp_block_total_count mp))).
#[global] Instance mp_check_dec n mp fr : Decision (mp_check n mp fr).
Proof. unfold mp_check. apply _. Defined.
Lemma mp_check_ok n mp fr : mp_check n mp fr -> mp_rep n mp fr.
Proof.
  intros (Hn & Hc & Hl & Ht & Hf & Hu). split; try done.
  - by apply free_chain_check_ok.
  - intros i Hi. rewrite Forall_forall in Hf. by apply Hf.
  - intros i Hi Hni. rewrite Forall_forall in Hu. destruct (Hu i) as [?|?]; [|done|done]. apply elem_of_seq. lia.
Qed.
Definition mps_check (k : kernel) : Prop :=
  map_Forall (fun n mp => mp_check n mp (mp_follow (Z.to_nat (mp_block_total_count mp)) (mp_words mp) (mp_block_list mp)) /\
    is_Some (s_queues (k_sched k) !! QMempool n)) (k_mps k).
#[global] Instance mps_check_dec k : Decision (mps_check k).
Proof. unfold mps_check. apply _. Defined.
Lemma mps_check_ok k : mps_check k -> mp_inv k.
Proof. intros Hc n mp E. destruct (Hc n mp E) as (Hm & Hq). split; [|done]. eexists. by apply mp_check_ok. Qed.

(** ** The heap *)

(** The chain of headers from [off] to the end. *)
Fixpoint walk (fuel : nat) (m : gmap Z Z) (off e : Z) : list (Z * bool) :=
  match fuel with
  | O => []
  | S fuel => if decide (off = e) then [] else
      let nx := default e (m !! (off + 4)) in (nx, bool_decide (m !! off = Some (word0 true))) :: walk fuel m nx e
  end.
Definition heap_bs (h : heap) : list (Z * bool) := walk (heap_fuel h) (hp_mem h) 0 (hp_end h).

#[global] Instance header_dec m off u nx pv : Decision (header m off u nx pv).
Proof. unfold header. apply _. Defined.
Fixpoint seg_check (m : gmap Z Z) (pv off : Z) (bs : list (Z * bool)) (e : Z) : Prop :=
  match bs with
  | [] => off = e
  | (nx, u) :: bs => header m off u nx pv /\ off + SIZEOF_STRUCT_MEM < nx /\ nx mod 4 = 0 /\ seg_check m off nx bs e
  end.
#[global] Instance seg_check_dec m pv off bs e : Decision (seg_check m pv off bs e).
Proof. revert pv off. induction bs as [|[nx u] bs IH]; intros pv off; cbn; apply _. Defined.
Lemma seg_check_ok m pv off bs e : seg_check m pv off bs e -> exists pl, seg m pv off bs pl e.
Proof.
  revert pv off. induction bs as [|[nx u] bs IH]; intros pv off; cbn; [intros ->; by exists pv|].
  intros (Hh & Hn & Hm & Hs). destruct (IH _ _ Hs) as (pl & H). exists pl. by repeat (split; [done|]).
Qed.
#[global] Instance merged_dec bs : Decision (merged bs).
Proof. induction bs as [|[nx []] bs IH]; cbn; [apply _..|]. destruct bs as [|[? []] bs]; apply _. Defined.

Definition heap_check (h : heap) (bs : list (Z * bool)) : Prop :=
  (MIN_SIZE_ALIGNED <= hp_mem_size_aligned h /\ hp_mem_size_aligned h mod 4 = 0) /\
  hp_end h = hp_mem_size_aligned h + SIZEOF_STRUCT_MEM /\
  (0 < hp_ptr h /\ hp_ptr h mod 4 = 0 /\ hp_ptr h + hp_end h + SIZEOF_STRUCT_MEM <= 2 ^ 32) /\
  Forall (fun i => is_Some (hp_mem h !! (4 * i))) (seqZ 0 ((hp_end h + SIZEOF_STRUCT_MEM) / 4)) /\
  seg_check (hp_mem h) 0 0 bs (hp_end h) /\
  opt_prop (fun pv => header (hp_mem h) (hp_end h) true (hp_end h) pv) (hp_mem h !! (hp_end h + 8)) /\
  merged bs /\ (hp_lfree h = hp_end h \/ hp_lfree h ∈ starts 0 bs) /\ hp_used_mem h = used_bytes 0 bs.
#[global] Instance heap_check_dec h bs : Decision (heap_check h bs).
Proof. unfold heap_check. apply _. Defined.
Lemma heap_check_ok h bs : heap_check h bs -> heap_rep h bs.
Proof.
  intros (Hsz & He & Hb & Hw & Hs & Hl & Hm & Hlf & Hu). split; [split| | |]; try done.
  - intros x Hx Hxm. rewrite Forall_forall in Hw. pose proof (Z.div_mod x 4 ltac:(lia)) as Hd.
    replace x with (4 * (x / 4)) by lia. apply Hw, elem_of_seqZ.
    assert (Hem : (hp_end h + SIZEOF_STRUCT_MEM) mod 4 = 0).
    { rewrite He. unfold SIZEOF_STRUCT_MEM. rewrite <- Z.add_assoc, Z.add_mod, (proj2 Hsz) by lia. done. }
    pose proof (Z.div_mod (hp_end h + SIZEOF_STRUCT_MEM) 4 ltac:(lia)). lia.
  - by apply seg_check_ok.
  - destruct (opt_prop_ex _ _ Hl) as (pv & _ & Hh). by exists pv.
Qed.

(** ** Timers *)

Fixpoint sorted_check (base : Z) (m : gmap timer_id rt_timer) (l : list timer_id) : Prop :=
  match l with
  | [] => True
  | a :: l => off base m a < HALF /\ Forall (fun b => off base m a <= off base m b) l /\ sorted_check base m l
  end.
#[global] Instance sorted_check_dec base m l : Decision (sorted_check base m l).
Proof. induction l as [|a l IH]; cbn; apply _. Defined.
Lemma sorted_check_ok base m l : sorted_check base m l -> list_sorted base m l.
Proof.
  induction l as [|a l IH]; cbn; [split; constructor|]. intros (Ha & Hf & Hl). destruct (IH Hl) as [H1 H2]. split; by constructor.
Qed.
Definition list_check (base : tlhead -> Z) (tms : timers) (h : tlhead) : Prop :=
  sorted_check (base h) (t_timers tms) (default [] (t_lists tms !! h)).
Definition period_check (tms : timers) : Prop :=
  map_Forall (fun _ tm => Z.testbit (tm_flag tm) 1 = true -> Z.testbit (tm_flag tm) 2 = false -> 0 < tm_init_tick tm < HALF - 1) (t_timers tms).
(** The soft list is seen from tick 0. *)
Definition time_check (k : kernel) : Prop :=
  let base := based (t_tick (k_timers k)) 0 in
  list_check base (k_timers k) TLHard /\ list_check base (k_timers k) TLSoft /\ period_check (k_timers k).
#[global] Instance time_check_dec k : Decision (time_check k).
Proof. unfold time_check, list_check, period_check. apply _. Defined.
Lemma time_check_ok k : time_check k -> timed k.
Proof.
  intros (Hh & Hs & Hp). exists 0. split; [|intros n tm E; exact (Hp n tm E)]. intros h l El. apply sorted_check_ok.
  unfold list_check in Hh, Hs. destruct h; [rewrite El in Hh|rewrite El in Hs]; done.
Qed.

(** ** The system *)

Definition sys_check (k : kernel) : Prop :=
  kinv_check k /\ oinv_check (k_objs k) /\ sem_check k /\ mutex_check k /\ event_check k /\ mb_check k /\ mqs_check k /\ mps_check k /\
  heap_check (k_heap k) (heap_bs (k_heap k)) /\ is_Some (k_sems k !! heap_sem) /\ time_check k.
#[global] Instance sys_check_dec k : Decision (sys_check k).
Proof. unfold sys_check. apply _. Defined.
Lemma sys_check_ok k : sys_check k -> sys_inv k.
Proof.
  intros (H1 & H2 & H3 & H4 & H5 & H6 & H7 & H8 & H9 & H10 & H11). split; [|by apply time_check_ok]. split.
  - by apply kinv_check_ok.
  - by apply oinv_check_ok.
  - by apply sem_check_ok.
  - by apply mutex_check_ok.
  - by apply event_check_ok.
  - by apply mb_check_ok.
  - by apply mqs_check_ok.
  - by apply mps_check_ok.
  - eexists. eexists. split; [by apply heap_check_ok|done].
  - done.
Qed.
