(* ===== verification/Startup.v ===== *)
(** * From power-on to the running system (board.c, components.c, mem.c)

    rt_hw_board_init gives the memory between the end of the program and the end of the
    RAM to the heap, then rtthread_startup brings up the kernel.  The result has the
    system invariant, so everything that Syscalls.v says of reachable states holds of
    every state of the running system. *)
From S2P Require Import Prelude RtList Kernel Sched Timer Object Thread Lifecycle Idle Boot Ipc Sem Mutex Event Mailbox MsgQueue MemPool Mem Malloc System Syscalls Checks.
From stdpp Require Import base gmap sets list relations.
From Stdlib Require Import ZArith Lia.
#[local] Open Scope Z_scope.

(** The heap part of rt_hw_board_init, then rtthread_startup. *)
Definition power_on (begin_addr end_addr : Z) (memory : gmap Z Z) (malloc : option nat) (stack : option Z)
    (timer_stack idle_stack : Z) : M kernel unit :=
  rt_system_heap_init begin_addr end_addr memory ;;
  rtthread_startup malloc stack timer_stack idle_stack.

(** What follows heap_init, for any heap. *)
Definition after_heap (stack timer_stack idle_stack : Z) : M kernel unit :=
  rt_sem_init heap_sem heap_name 1 RT_IPC_FLAG_FIFO ;;
  rtthread_startup (Some 2%nat) (Some stack) timer_stack idle_stack.
Definition started_with (h : heap) (stack timer_stack idle_stack : Z) : kernel :=
  default zero_kernel (snd <$> after_heap stack timer_stack idle_stack (set_k_heap h zero_kernel)).

(** A kernel without objects other than the lock of the heap. *)
Lemma fresh_sys k l :
  kinv None k -> oinv (k_objs k) -> k_sems k = {[heap_sem := RtSemaphore RT_IPC_FLAG_FIFO 1]} -> k_mutexes k = ∅ -> k_events k = ∅ ->
  k_mbs k = ∅ -> k_mqs k = ∅ -> k_mps k = ∅ -> s_queues (k_sched k) !! QSem heap_sem = Some [] -> heap_state (k_heap k) l -> timed k -> sys_inv k.
Proof.
  intros Hk Ho Es Em Ee Eb Eq Ep El Hh Ht. split; [|done]. split; try done.
  - intros n sem E. rewrite Es in E. apply lookup_singleton_Some in E as [<- <-]. split; [done|]. split; [by left|]. exists []. split; [exact El|by right].
  - intros n mx E. rewrite Em in E. by rewrite lookup_empty in E.
  - intros n ev E. rewrite Ee in E. by rewrite lookup_empty in E.
  - intros n mb E. rewrite Eb in E. by rewrite lookup_empty in E.
  - intros n mq E. rewrite Eq in E. by rewrite lookup_empty in E.
  - intros n mp E. rewrite Ep in E. by rewrite lookup_empty in E.
  - by exists l.
  - rewrite Es, lookup_singleton_eq. eauto.
Qed.

Section Started.
Context (h : heap) (stack timer_stack idle_stack : Z).
Let k := started_with h stack timer_stack idle_stack.

Lemma started_run : after_heap stack timer_stack idle_stack (set_k_heap h zero_kernel) = Some (tt, k).
Proof.
  assert (H : is_Some (after_heap stack timer_stack idle_stack (set_k_heap h zero_kernel))) by evaluate.
  destruct H as [[[] k'] E]. unfold k, started_with. by rewrite E.
Qed.
Lemma started_kinv : kinv None k.
Proof. apply kinv_check_ok. evaluate. Qed.
Lemma started_oinv : oinv (k_objs k).
Proof. apply oinv_check_ok. evaluate. Qed.
Lemma started_timed : timed k.
Proof. apply time_check_ok. evaluate. Qed.
Lemma started_stores :
  k_sems k = {[heap_sem := RtSemaphore RT_IPC_FLAG_FIFO 1]} /\ k_mutexes k = ∅ /\ k_events k = ∅ /\ k_mbs k = ∅ /\ k_mqs k = ∅ /\
  k_mps k = ∅ /\ k_heap k = h /\ s_queues (k_sched k) !! QSem heap_sem = Some [] /\
  s_current (k_sched k) = Some timer_thread /\ s_lock_nest (k_sched k) = 0 /\
  s_queues (k_sched k) !! QReady RT_MAIN_THREAD_PRIORITY = Some [2%nat] /\
  s_queues (k_sched k) !! QReady (RT_THREAD_PRIORITY_MAX - 1) = Some [idle_thread].
Proof. repeat (split; [vm_compute; reflexivity|]). vm_compute. reflexivity. Qed.

End Started.

