(* ===== verification/Scenarios.v ===== *)
(** * Concrete runs

    A kernel booted by [power_on] in which the main thread initialises one
    object of every kind and a worker thread, and the theorems of the development
    applied to the states of such runs: their hypotheses hold there. *)
From S2P Require Import Prelude RtList RingBuffer Kservice KString Kernel Sched Timer Object Thread Lifecycle Idle Boot.
From S2P Require Import Ipc Sem Mutex Event Mailbox MsgQueue MemPool Mem Malloc System Ticks Syscalls Checks Startup.
From stdpp Require Import base gmap sets list sorting.
From Stdlib Require Import ZArith Lia.
#[local] Open Scope Z_scope.

(** ** The demonstration kernel *)

(** 200 bytes of RAM for the heap, from an odd address. *)
Definition demo_memory : gmap Z Z := list_to_map ((fun i => (4 * i, 0)) <$> seqZ 0 50).
Definition demo_setup : M kernel unit :=
  power_on 0x20000001 0x200000c9 demo_memory (Some 2%nat) (Some 0) 0 0 ;;
  rt_thread_timer_entry_wait ;;
  rt_sem_init 0 [115] 1 RT_IPC_FLAG_FIFO ;;
  rt_mutex_init 0 [109] RT_IPC_FLAG_PRIO ;;
  rt_event_init 0 [101] RT_IPC_FLAG_FIFO ;;
  rt_mb_init 0 [98] [0; 0] 2 RT_IPC_FLAG_FIFO ;;
  rt_mq_init 0 [113] (replicate 24 0) 5 24 RT_IPC_FLAG_FIFO ;;
  mret tt.
(** The worker outranks the main thread, runs at once and waits for two bits of the event. *)
Definition demo_worker : M kernel unit :=
  demo_setup ;;
  rt_thread_init 3 [119] 0 0 0 256 8 5 ;;
  rt_thread_startup 3 ;;
  rt_event_recv 0 5 (Z.lor RT_EVENT_FLAG_AND RT_EVENT_FLAG_CLEAR) (-1) ;;
  mret tt.

Definition after {A} (c : M kernel A) : kernel := default zero_kernel (snd <$> c zero_kernel).
Definition demo : kernel := after demo_worker.

Lemma demo_defined : is_Some (demo_worker zero_kernel).
Proof. evaluate. Qed.
Lemma demo_sys : sys_inv demo.
Proof. apply sys_check_ok. evaluate. Qed.
Lemma demo_kinv : kinv None demo.
Proof. exact (sy_kinv _ demo_sys). Qed.
Lemma demo_oinv : oinv (k_objs demo).
Proof. exact (sy_objs _ demo_sys). Qed.
Lemma demo_current : s_current (k_sched demo) = Some 2%nat.
Proof. vm_compute. reflexivity. Qed.

(** The control blocks and objects of the demonstration kernel. *)
Definition the_thread (k : kernel) (t : nat) : rt_thread := default (old_thread zero_kernel t) (s_threads (k_sched k) !! t).
Lemma the_thread_lookup k t : is_Some (s_threads (k_sched k) !! t) -> s_threads (k_sched k) !! t = Some (the_thread k t).
Proof. intros [th E]. unfold the_thread. by rewrite E. Qed.

Lemma demo_running : running demo 2.
Proof. apply running_check_ok. evaluate. Qed.

(** Closing a goal with the facts at hand, without evaluating kernels. *)
Ltac conclude := split_and!; assumption.

(** ** Scheduler, threads and ticks *)

Lemma schedule_runs_highest_witness :
  exists s' c' th', rt_schedule (k_sched demo) = Some (tt, s') /\ s_current s' = Some c' /\
    s_threads s' !! c' = Some th' /\ dominates s' th'.
Proof.
  destruct (schedule_runs_highest (k_sched demo) 2 (the_thread demo 2)) as (t & l & p & s' & c' & th' & _ & _ & E & _ & _ & _ & Hc & Et & _ & Hd).
  - apply (ki_sched _ _ demo_kinv).
  - exact demo_current.
  - apply the_thread_lookup. evaluate.
  - evaluate.
  - evaluate.
  - exists s', c', th'. conclude.
Defined.

(** The main thread and a second thread of its priority, the main thread at the end of
    its time slice. *)
Definition rr_setup : M kernel unit :=
  demo_setup ;;
  rt_thread_init 4 [120] 0 0 0 256 RT_MAIN_THREAD_PRIORITY 5 ;;
  rt_thread_startup 4 ;;
  set_thread 2 (fun th => set_th_stat (Z.lor (th_stat th) RT_THREAD_STAT_YIELD) th).
Definition rr : kernel := after rr_setup.

Definition no_higher (s : sched) (p : Z) : Prop :=
  map_Forall (fun h l => match h with QReady q => p <= q \/ l = [] | _ => True end) (s_queues s).
#[global] Instance no_higher_dec s p : Decision (no_higher s p).
Proof. unfold no_higher. apply map_Forall_dec. intros [] l; apply _. Defined.
Lemma no_higher_ok s p : no_higher s p -> forall q, q < p -> s_queues s !! QReady q ∈ [None; Some []].
Proof.
  intros Hn q Hq. destruct (s_queues s !! QReady q) as [l|] eqn:E; [|set_solver].
  destruct (Hn _ _ E) as [?| ->]; [lia|set_solver].
Qed.

Lemma schedule_round_robin_witness :
  exists s', rt_schedule (k_sched rr) = Some (tt, s') /\ s_current s' = Some 4%nat /\
    s_queues s' !! QReady RT_MAIN_THREAD_PRIORITY = Some [2%nat].
Proof.
  destruct (schedule_round_robin (k_sched rr) 2 (the_thread rr 2) 4 []) as (s' & E & _ & Hc & Hq & _).
  - apply sinv_check_ok. evaluate.
  - evaluate.
  - apply the_thread_lookup. evaluate.
  - evaluate.
  - evaluate.
  - evaluate.
  - evaluate.
  - apply no_higher_ok. evaluate.
  - assert (Ep : th_current_priority (the_thread rr 2) = RT_MAIN_THREAD_PRIORITY) by evaluate. rewrite Ep in Hq.
    exists s'. conclude.
Defined.

Lemma critical_section_protects_witness :
  exists s1 s', rt_enter_critical (k_sched demo) = Some (tt, s1) /\ rt_exit_critical s1 = Some (tt, s').
Proof.
  destruct (critical_section_protects (k_sched demo) 2) as (s1 & s' & E1 & _ & E2 & _).
  - apply (ki_sched _ _ demo_kinv).
  - evaluate.
  - exact demo_current.
  - exists s1, s'. conclude.
Defined.

Lemma thread_start_correct_witness :
  exists k1 k2 th, rt_thread_init 7 [110] 0 0 0 256 20 5 demo = Some (RT_EOK, k1) /\
    rt_thread_startup 7 k1 = Some (RT_EOK, k2) /\ s_threads (k_sched k2) !! 7%nat = Some th /\ active th.
Proof.
  destruct (thread_start_correct demo 7 [110] 0 0 0 256 20 5 2) as (k1 & k2 & th & E1 & E2 & _ & _ & Et & Ha & _).
  - exact demo_kinv.
  - exact demo_oinv.
  - unfold can_lock. evaluate.
  - split; [evaluate|unfold q_free; evaluate|unfold q_free; evaluate].
  - evaluate.
  - exact demo_current.
  - exists k1, k2, th. conclude.
Defined.

Lemma thread_sleep_correct_witness :
  exists k', rt_thread_sleep 10 demo = Some (2%nat, k') /\ timer_pending 2 10 (k_timers k').
Proof.
  destruct (thread_sleep_correct demo 2 (the_thread demo 2) 10) as (k' & E & Hs).
  - exact demo_kinv.
  - exact demo_current.
  - apply the_thread_lookup. evaluate.
  - evaluate.
  - evaluate.
  - exists k'. split; [exact E|]. assert (E10 : u32 (t_tick (k_timers demo) + 10) = 10) by evaluate.
    rewrite E10 in Hs. exact (sl_timer _ _ _ _ _ Hs).
Defined.

(** Tick 2; the last wake-up was at tick 0 and the period is 5: the timer is set to 9. *)
Definition late : kernel := set_k_timers (set_t_tick 2 (k_timers demo)) demo.
Lemma delay_until_oversleeps_witness :
  exists k', rt_thread_delay_until 0 5 late = Some (inr 2%nat, k') /\ timer_pending 2 9 (k_timers k').
Proof.
  destruct (delay_until_oversleeps late 2 (the_thread late 2) 0 5) as (k' & E & Hs).
  - apply kinv_check_ok. evaluate.
  - evaluate.
  - apply the_thread_lookup. evaluate.
  - evaluate.
  - evaluate.
  - exists k'. split; [exact E|]. assert (E9 : u32 (0 + 5 + 2 * (t_tick (k_timers late) - 0)) = 9) by evaluate.
    rewrite E9 in Hs. exact (sl_timer _ _ _ _ _ Hs).
Defined.

Definition ready_above (s : sched) (p : Z) : Prop :=
  map_Forall (fun h l => match h with QReady q => l = [] \/ p <= q | _ => True end) (s_queues s).
#[global] Instance ready_above_dec s p : Decision (ready_above s p).
Proof. unfold ready_above. apply map_Forall_dec. intros [] l; apply _. Defined.

(** Threads 2 and 4 have the same priority. *)
Definition equals : kernel :=
  after (demo_setup ;; rt_thread_init 4 [120] 0 0 0 256 RT_MAIN_THREAD_PRIORITY 5 ;; rt_thread_startup 4).
Lemma yield_keeps_processor_witness :
  exists k', rt_thread_yield equals = Some (RT_EOK, k') /\ s_current (k_sched k') = Some 2%nat.
Proof.
  apply (yield_keeps_processor equals 2 (the_thread equals 2) RT_MAIN_THREAD_PRIORITY [4%nat]).
  - apply kinv_check_ok. evaluate.
  - evaluate.
  - apply the_thread_lookup. evaluate.
  - evaluate.
  - evaluate.
  - evaluate.
  - evaluate.
  - done.
  - intros p' l' E Hne. assert (H : ready_above (k_sched equals) 10) by evaluate.
    assert (Ep : th_current_priority (the_thread equals 2) = 10) by evaluate. rewrite Ep.
    destruct (H _ _ E) as [Hl|Hp]; [by destruct (Hne Hl)|exact Hp].
Defined.

Lemma thread_timeout_wakes_witness :
  exists k' th', rt_thread_timeout 3 demo = Some (tt, k') /\ s_threads (k_sched k') !! 3%nat = Some th' /\
    th_error th' = - RT_ETIMEOUT.
Proof.
  destruct (thread_timeout_wakes demo 3 (the_thread demo 3) 2) as (k' & th' & E & _ & Et & _ & He & _).
  - exact demo_kinv.
  - apply the_thread_lookup. evaluate.
  - evaluate.
  - unfold q_free. evaluate.
  - exact demo_current.
  - exists k', th'. conclude.
Defined.

Definition the_obj (k : kernel) (o : obj_id) : rt_object := default (RtObject 0 []) (o_objs (k_objs k) !! o).
Lemma the_obj_lookup k o : is_Some (o_objs (k_objs k) !! o) -> o_objs (k_objs k) !! o = Some (the_obj k o).
Proof. intros [ob E]. unfold the_obj. by rewrite E. Qed.


Lemma thread_detach_correct_witness : exists k', rt_thread_detach 3 demo = Some (RT_EOK, k') /\ ended 3 demo k'.
Proof.
  apply (thread_detach_correct demo 3 (the_thread demo 3) (the_obj demo (OThread 3)) (the_obj demo (OTimer (ThreadTimer 3)))).
  - exact demo_kinv.
  - exact demo_oinv.
  - apply the_thread_lookup. evaluate.
  - evaluate.
  - apply the_obj_lookup. evaluate.
  - apply the_obj_lookup. evaluate.
Defined.

(** *** Ticks *)

(** Timeout functions that do nothing. *)
#[global] Instance noop_timeout base : TimeoutSpec base (fun _ => mret tt).
Proof.
  split.
  - intros m k Hk. exists k. split_and!; try done. intros n tm En Hf Hq Hb. by exists tm.
  - intros m k k' Hk [= <-]. split; [done|]. by left.
Qed.

#[global] Instance noop_sys_timeout : SysTimeout (fun _ => mret tt).
Proof. split; [intros base; apply noop_timeout|]. by intros m k k' Hk [= <-]. Qed.

(** The main thread sleeps for one tick. *)
Definition sleeping : kernel := after (demo_worker ;; rt_thread_sleep 1).
Lemma sleeping_sys : sys_inv sleeping.
Proof. apply sys_check_ok. evaluate. Qed.
Lemma sleeping_sorted : tsorted (based (t_tick (k_timers sleeping)) 0) (k_timers sleeping).
Proof.
  intros h l E. assert (El : t_lists (k_timers sleeping) !! h = Some (match h with TLHard => [ThreadTimer 2] | TLSoft => [] end))
    by (destruct h; vm_compute; reflexivity).
  rewrite El in E. injection E as <-. destruct h; split; repeat constructor.
Qed.

(** The tick wakes the main thread. *)
Lemma tick_interrupt_correct_witness :
  exists k', rt_tick_increase (fun _ => mret tt) 2 sleeping = Some (true, k') /\ t_tick (k_timers k') = 1 /\ awake k' 2.
Proof.
  destruct (tick_interrupt_correct (fun _ => mret tt) sleeping idle_thread 2) as (k' & E & _ & Ht & _ & Hw).
  - exact noop_sys_timeout.
  - exact sleeping_sys.
  - vm_compute. reflexivity.
  - evaluate.
  - exists k'. split; [exact E|]. split.
    + rewrite Ht. evaluate.
    + apply Hw. left. split; [evaluate|]. apply (@checked _ (due_now_dec _ _)). vm_compute. reflexivity.
Defined.

Lemma timer_start_ordered_witness :
  exists s' l1 l2, rt_timer_arm (ThreadTimer 3) (k_timers sleeping) = Some (tt, s') /\
    t_lists s' !! TLHard = Some (l1 ++ ThreadTimer 3 :: l2).
Proof.
  destruct (timer_start_ordered (based (t_tick (k_timers sleeping)) 0) (ThreadTimer 3) (k_timers sleeping)
    (RtTimer (TF_thread_timeout 3) 0 0 0)) as (s' & l1 & l2 & E & _ & _ & El & _).
  - apply (ki_timers _ _ (sy_kinv _ sleeping_sys)).
  - exact sleeping_sorted.
  - vm_compute. reflexivity.
  - evaluate.
  - exists s', l1, l2. conclude.
Defined.

Lemma restarted_timer_unstoppable_witness :
  exists k', timer_rearm (ThreadTimer 2) sleeping = Some (tt, k') /\
    on_timers (rt_timer_stop (ThreadTimer 2)) k' = Some (- RT_ERROR, k').
Proof.
  destruct (restarted_timer_unstoppable sleeping (ThreadTimer 2) (RtTimer (TF_thread_timeout 2) 1 1 1) [ThreadTimer 2]) as (k' & E & _ & Es).
  - vm_compute. reflexivity.
  - reflexivity.
  - vm_compute. reflexivity.
  - set_solver.
  - exists k'. conclude.
Defined.

(** A soft timer started at tick 0 with the largest delay wakes the timer thread. *)
Definition sentinel : kernel :=
  after (demo_setup ;; rt_timer_init (UserTimer 0) [108] (TF_user 0) RT_TICK_MAX RT_TIMER_FLAG_SOFT_TIMER ;; rt_timer_start (UserTimer 0)).
Lemma soft_timer_sentinel_witness :
  exists k' th', rt_thread_timer_entry_wait sentinel = Some (tt, k') /\
    s_threads (k_sched k') !! timer_thread = Some th' /\ stat_of th' = RT_THREAD_SUSPEND.
Proof.
  destruct (soft_timer_sentinel sentinel timer_thread (the_thread sentinel timer_thread) (UserTimer 0)
    (RtTimer (TF_user 0) RT_TICK_MAX RT_TICK_MAX 5) []) as (k' & th' & E & _ & Et & Hs & _).
  - apply kinv_check_ok. evaluate.
  - evaluate.
  - apply the_thread_lookup. evaluate.
  - evaluate.
  - vm_compute. reflexivity.
  - vm_compute. reflexivity.
  - reflexivity.
  - exists k', th'. conclude.
Defined.

(** *** Reaping *)

#[global] Instance noop_cleanup : CleanupSpec (fun _ => mret tt).
Proof. split. intros t k Hk. by exists k. Qed.

Definition idle_check (k : kernel) (l : list nat) : Prop :=
  s_queues (k_sched k) !! QDefunct = Some l /\ opt_prop (fun c => c ∉ l) (s_current (k_sched k)) /\
  Forall (fun t => is_Some (o_objs (k_objs k) !! OThread t)) l.
#[global] Instance idle_check_dec k l : Decision (idle_check k l).
Proof. unfold idle_check. apply _. Defined.
Lemma idle_check_ok k l :
  kinv_check k -> oinv_check (k_objs k) -> 0 <= s_lock_nest (k_sched k) < 2 ^ 15 - 1 -> idle_check k l -> idle_pre k l.
Proof.
  intros Hk Ho Hn (Hl & Hc & Hob). split; try done.
  - by apply kinv_check_ok.
  - by apply oinv_check_ok.
  - intros c E. by rewrite E in Hc.
  - by apply Forall_forall.
Qed.

(** A dynamic thread was deleted; the idle thread frees it. *)
Definition deleted : kernel :=
  after (demo_setup ;; rt_thread_create [100] 0 0 256 20 5 (Some 4%nat) (Some 0) ;; rt_thread_startup 4 ;; rt_thread_delete 4).

(** Behind a static thread the dynamic one stays. *)
Definition deleted2 : kernel :=
  after (demo_worker ;; rt_thread_create [100] 0 0 256 20 5 (Some 4%nat) (Some 0) ;; rt_thread_startup 4 ;; rt_thread_delete 4 ;; rt_thread_delete 3).
Lemma idle_stops_at_static_witness :
  exists k', rt_thread_idle_excute (fun _ => mret tt) 3 deleted2 = Some (true, k') /\
    s_queues (k_sched k') !! QDefunct = Some [4%nat].
Proof.
  apply (idle_stops_at_static (fun _ => mret tt) deleted2 3 [4%nat]).
  - apply idle_check_ok; evaluate.
  - evaluate.
Defined.
