(* ===== verification/IpcRuns.v ===== *)
(** * Concrete runs: semaphores, mutexes, events, mailboxes and message queues

    The theorems on the IPC objects applied to states reached by running the model
    from the demonstration kernel of Scenarios.v. *)
From S2P Require Import Prelude RtList Kservice KString Kernel Sched Timer Object Thread Lifecycle Idle Boot.
From S2P Require Import Ipc Sem Mutex Event Mailbox MsgQueue MemPool Mem Malloc System Checks Scenarios.
From stdpp Require Import base gmap sets list sorting.
From Stdlib Require Import ZArith Lia.
#[local] Open Scope Z_scope.

(** ** Semaphores *)

Definition the_sem (k : kernel) : rt_semaphore := default (RtSemaphore 0 0) (k_sems k !! 0%nat).

(** Taking the only unit. *)
Lemma sem_take_correct_witness :
  exists k', rt_sem_take 0 (-1) demo = Some (inl RT_EOK, k') /\ k' = sem_taken 0 (the_sem demo) demo.
Proof.
  destruct (sem_take_correct demo 0 (the_sem demo) 2 (-1)) as (r & k' & E & _ & [(_ & -> & Ek)|[(Hv & _)|(Hv & _)]]).
  - exact demo_sys.
  - vm_compute. reflexivity.
  - exact demo_running.
  - reflexivity.
  - exists k'. conclude.
  - exfalso. vm_compute in Hv. discriminate Hv.
  - exfalso. vm_compute in Hv. discriminate Hv.
Defined.

(** The worker, which outranks the main thread, waits for the semaphore. *)
Definition sem_waiting : kernel :=
  after (demo_setup ;; rt_thread_init 3 [119] 0 0 0 256 8 5 ;; rt_thread_startup 3 ;;
         rt_sem_take 0 (-1) ;; rt_sem_take 0 (-1)).
Lemma sem_release_refines_witness :
  exists k', rt_sem_release 0 sem_waiting = Some (RT_EOK, k') /\ csem_of k' 0 = Some (CSem 0 []) /\
    exists th', s_threads (k_sched k') !! 3%nat = Some th' /\ active th'.
Proof.
  destruct (sem_release_refines sem_waiting 0 (CSem 0 [3%nat]) 2) as (k' & E & _ & _ & Ec & th & th' & _ & Et & Ha & _).
  - apply kinv_check_ok. evaluate.
  - apply sem_check_ok. evaluate.
  - vm_compute. reflexivity.
  - vm_compute. reflexivity.
  - reflexivity.
  - exists k'. split; [exact E|]. split; [exact Ec|]. exists th'. conclude.
Defined.

Lemma sem_reset_correct_witness :
  exists k', rt_sem_control 0 true 3 sem_waiting = Some (RT_EOK, k') /\ s_queues (k_sched k') !! QSem 0 = Some [] /\
    exists th, s_threads (k_sched k') !! 3%nat = Some th /\ th_error th = - RT_ERROR.
Proof.
  destruct (sem_reset_correct sem_waiting 0 (the_sem sem_waiting) [3%nat] 2 3) as (k' & E & _ & _ & _ & Eq & Hw).
  - apply kinv_check_ok. evaluate.
  - apply sem_check_ok. evaluate.
  - vm_compute. reflexivity.
  - vm_compute. reflexivity.
  - vm_compute. reflexivity.
  - exists k'. split; [exact E|]. split; [exact Eq|]. destruct (Hw 3%nat) as (th & Et & _ & He); [by apply list_elem_of_singleton|]. exists th. conclude.
Defined.

(** A semaphore initialised with the largest value. *)
Definition sem_full : kernel := after (demo_setup ;; rt_sem_init 1 [102] 65535 RT_IPC_FLAG_FIFO).
Lemma sem_release_overflows_witness :
  exists k', rt_sem_release 1 sem_full = Some (RT_EOK, k') /\ csem_of k' 1 = Some (CSem 0 []).
Proof.
  apply (sem_release_overflows sem_full 1 (RtSemaphore 0 65535) 2).
  - apply kinv_check_ok. evaluate.
  - apply sem_check_ok. evaluate.
  - vm_compute. reflexivity.
  - vm_compute. reflexivity.
  - vm_compute. reflexivity.
  - reflexivity.
Defined.

(** ** Mutexes *)

Lemma mutex_take_correct_witness :
  exists k', rt_mutex_take 0 0 demo = Some (inl RT_EOK, k') /\ sys_inv k'.
Proof.
  destruct (mutex_take_correct demo 0 (free_mutex RT_IPC_FLAG_PRIO) 2 0) as (r & k' & E & Hm & -> & _).
  - exact demo_sys.
  - vm_compute. reflexivity.
  - exact demo_running.
  - reflexivity.
  - discriminate.
  - exists k'. conclude.
Defined.

(** The main thread (priority 10) holds the mutex, the worker (priority 8) waits
    for it and the main thread runs with the worker's priority. *)
Definition inverted : kernel :=
  after (demo_setup ;; rt_mutex_take 0 (-1) ;; rt_thread_init 3 [119] 0 0 0 256 8 5 ;; rt_thread_startup 3 ;;
         rt_mutex_take 0 (-1)).
Lemma mutex_release_correct_witness :
  exists k' mx, rt_mutex_release 0 inverted = Some (RT_EOK, k') /\
    k_mutexes k' !! 0%nat = Some mx /\ mx_owner mx = Some 3%nat.
Proof.
  destruct (mutex_release_correct inverted 0 (RtMutex RT_IPC_FLAG_PRIO 0 10 1 (Some 2%nat)) 2 [3%nat])
    as (k' & E & _ & s1 & _ & thu & _ & Hw).
  - apply sys_check_ok. evaluate.
  - vm_compute. reflexivity.
  - reflexivity.
  - apply running_check_ok. evaluate.
  - vm_compute. reflexivity.
  - exists k', (RtMutex RT_IPC_FLAG_PRIO 0 (th_current_priority thu) 1 (Some 3%nat)). split; [exact E|]. split; [|reflexivity].
    rewrite (ik_mutexes _ _ (wk_keep _ _ _ _ Hw)). apply lookup_insert_eq.
Defined.

(** The main thread took the mutex 255 times. *)
Definition held : kernel := after (demo_worker ;; upd_mutex 0 (fun _ => RtMutex RT_IPC_FLAG_PRIO 0 10 255 (Some 2%nat))).
Lemma mutex_hold_overflows_witness :
  exists k1 k2 mx2, rt_mutex_take 0 0 held = Some (inl RT_EOK, k1) /\ rt_mutex_take 0 0 k1 = Some (inl RT_EOK, k2) /\
    k_mutexes k2 !! 0%nat = Some mx2 /\ mx_owner mx2 = Some 2%nat /\ mx_hold mx2 = 1.
Proof.
  apply (mutex_hold_overflows held 0 (RtMutex RT_IPC_FLAG_PRIO 0 10 255 (Some 2%nat)) 2).
  - vm_compute. reflexivity.
  - reflexivity.
  - reflexivity.
  - apply running_check_ok. evaluate.
Defined.

(** ** Events *)

(** Both bits arrive and the worker is woken with them. *)
Lemma event_send_correct_witness :
  exists k' th', rt_event_send 0 7 demo = Some (RT_EOK, k') /\ s_queues (k_sched k') !! QEvent 0 = Some [] /\
    s_threads (k_sched k') !! 3%nat = Some th' /\ active th' /\ th_event_set th' = 5.
Proof.
  destruct (event_send_correct demo 0 (RtEvent 0 0) [3%nat] 7 2 [(3%nat, 5)] 2) as (k' & E & _ & _ & Eq & Hw).
  - exact demo_sys.
  - vm_compute. reflexivity.
  - vm_compute. reflexivity.
  - exact demo_current.
  - reflexivity.
  - vm_compute. reflexivity.
  - destruct (Hw 3%nat 5) as (th & th' & _ & Et & Ha & Hs & _); [by apply list_elem_of_singleton|].
    exists k', th'. split; [exact E|]. split; [exact Eq|]. conclude.
Defined.

(** The main thread polls for a bit that is not set. *)
Lemma event_recv_correct_witness :
  exists k', rt_event_recv 0 2 RT_EVENT_FLAG_OR 0 demo = Some (inl (- RT_ETIMEOUT, None), k') /\ sys_inv k'.
Proof.
  destruct (event_recv_correct demo 0 (RtEvent 0 0) 2 2 RT_EVENT_FLAG_OR 0)
    as (r & k' & E & Hi & [(Hs & _)|[(_ & _ & -> & _)|(_ & Ht & _)]]).
  - exact demo_sys.
  - vm_compute. reflexivity.
  - exact demo_running.
  - reflexivity.
  - reflexivity.
  - discriminate Hs.
  - exists k'. conclude.
  - by destruct Ht.
Defined.

(** ** Mailboxes *)

Definition mb0 : rt_mailbox := RtMailbox 0 [0; 0] 2 0 0 0.
Lemma mb_send_correct_witness :
  exists k' mb', rt_mb_send_wait 0 41 0 demo = Some (inl RT_EOK, k') /\
    k_mbs k' !! 0%nat = Some mb' /\ mb_contents mb' = [41].
Proof.
  destruct (mb_send_correct demo 0 mb0 2 41 0 [])
    as (r & k' & E & _ & [(_ & -> & mb' & Hc & _ & Em & _)|[(He & _)|(He & _)]]).
  - exact demo_sys.
  - vm_compute. reflexivity.
  - exact demo_running.
  - reflexivity.
  - vm_compute. reflexivity.
  - exists k', mb'. split; [exact E|]. split; [rewrite Em; apply lookup_insert_eq|]. exact Hc.
  - discriminate He.
  - discriminate He.
Defined.

(** The mailbox was filled; receiving gives the mails in order. *)
Definition mailed : kernel := after (demo_worker ;; rt_mb_send 0 41 ;; rt_mb_send 0 42).
Definition mb_full : rt_mailbox := RtMailbox 0 [41; 42] 2 2 0 0.
Lemma mb_recv_correct_witness :
  exists k' mb', rt_mb_recv 0 0 mailed = Some (inl (RT_EOK, Some 41), k') /\
    k_mbs k' !! 0%nat = Some mb' /\ mb_contents mb' = [42].
Proof.
  destruct (mb_recv_correct mailed 0 mb_full 2 0 [])
    as (r & k' & E & _ & [(v & l & mb' & Hc & -> & Hc' & _ & Em & _)|[(He & _)|(He & _)]]).
  - apply sys_check_ok. evaluate.
  - vm_compute. reflexivity.
  - apply running_check_ok. evaluate.
  - reflexivity.
  - vm_compute. reflexivity.
  - vm_compute in Hc. injection Hc as <- <-.
    exists k', mb'. split; [exact E|]. split; [rewrite Em; apply lookup_insert_eq|]. exact Hc'.
  - discriminate He.
  - discriminate He.
Defined.

(** ** Message queues *)

Definition mq_demo : rt_messagequeue := default (mq_pool [] 0 0 0) (k_mqs demo !! 0%nat).
Definition queued : kernel := after (demo_worker ;; rt_mq_send 0 [7; 8] ;; rt_mq_send 0 [9]).
Definition mq_queued : rt_messagequeue := default (mq_pool [] 0 0 0) (k_mqs queued !! 0%nat).

Lemma queued_mq_holds : mq_holds mq_queued [[7; 8; 0; 0; 0; 0; 0; 0]; [9; 0; 0; 0; 0; 0; 0; 0]].
Proof. apply (mq_check_ok _ [1%nat; 0%nat] []). evaluate. Qed.
Lemma queued_mq_inv : mq_inv queued.
Proof. apply mqs_check_ok. evaluate. Qed.

Lemma mq_send_correct_witness :
  exists k' mq' rest, rt_mq_send_wait 0 [7; 8] 0 demo = Some (inl RT_EOK, k') /\
    k_mqs k' !! 0%nat = Some mq' /\ mq_holds mq' [[7; 8] ++ rest].
Proof.
  destruct (mq_send_correct demo 0 mq_demo 2 [7; 8] 0 [] [])
    as (r & k' & E & _ & [(Hl & _)|(_ & [(_ & -> & [(mq' & rest & Em & Hm & _)])|[(Hf & _)|(Hf & _)]])]).
  - exact demo_sys.
  - vm_compute. reflexivity.
  - exact demo_running.
  - reflexivity.
  - apply (mq_check_ok _ [] [1%nat; 0%nat]). evaluate.
  - vm_compute. reflexivity.
  - exfalso. vm_compute in Hl. discriminate Hl.
  - exists k', mq', rest. split; [exact E|]. split; [rewrite Em; apply lookup_insert_eq|]. exact Hm.
  - exfalso. vm_compute in Hf. discriminate Hf.
  - exfalso. vm_compute in Hf. discriminate Hf.
Defined.

(** The first message comes out, truncated to the four bytes the receiver asks for. *)
Lemma mq_recv_correct_witness :
  exists k' mq', rt_mq_recv 0 4 0 queued = Some (inl (RT_EOK, Some [7; 8; 0; 0]), k') /\
    k_mqs k' !! 0%nat = Some mq' /\ mq_holds mq' [[9; 0; 0; 0; 0; 0; 0; 0]].
Proof.
  destruct (mq_recv_correct queued 0 mq_queued 2 4 0 [[7; 8; 0; 0; 0; 0; 0; 0]; [9; 0; 0; 0; 0; 0; 0; 0]] [])
    as (r & k' & E & _ & [(d & l & mq' & Hl & Hr & Hm & _ & Em & _)|[(Hf & _)|(Hf & _)]]).
  - apply sys_check_ok. evaluate.
  - vm_compute. reflexivity.
  - apply running_check_ok. evaluate.
  - reflexivity.
  - exact queued_mq_holds.
  - vm_compute. reflexivity.
  - injection Hl as <- <-.
    replace (Z.to_nat (Z.min 4 (mq_msg_size mq_queued))) with 4%nat in Hr by (vm_compute; reflexivity).
    exists k', mq'. split; [rewrite E, Hr; reflexivity|]. split; [rewrite Em; apply lookup_insert_eq|]. exact Hm.
  - discriminate Hf.
  - discriminate Hf.
Defined.

Lemma mq_reset_correct_witness :
  exists mq' k', rt_mq_control 0 true queued = Some (RT_EOK, k') /\ k_mqs k' !! 0%nat = Some mq' /\ mq_holds mq' [].
Proof.
  destruct (mq_reset_correct queued 0 mq_queued [] [] 2) as (mq' & k' & E & _ & Em & Hm & _).
  - apply kinv_check_ok. evaluate.
  - exact queued_mq_inv.
  - vm_compute. reflexivity.
  - vm_compute. reflexivity.
  - vm_compute. reflexivity.
  - vm_compute. reflexivity.
  - exists mq', k'. split; [exact E|]. split; [rewrite Em; apply lookup_insert_eq|]. exact Hm.
Defined.

(** Two senders claim their blocks one after the other; the second one finishes
    first, and the receiver gets its message first. *)
Definition mq_after {A} (op : mqs A) (mq : rt_messagequeue) : rt_messagequeue := default mq (snd <$> op mq).
Definition il1 := mq_after mq_alloc mq_demo.
Definition il2 := mq_after mq_alloc il1.
Definition il3 := mq_after (set_msg_next 0 None) il2.
Definition il4 := mq_after (mq_fill 0 [5]) il3.
Definition il5 := mq_after (mq_link_tail 0) il4.
Definition il6 := mq_after (set_msg_next 1 None) il5.
Definition il7 := mq_after (mq_fill 1 [6]) il6.
Definition il8 := mq_after (mq_link_tail 1) il7.
Lemma interleaved_run : mq_run (mq_demo, []) [EvSend [5]; EvSend [6]] (il8, []).
Proof.
  eapply run_tau; [apply (step_alloc _ il1 1); vm_compute; reflexivity|].
  eapply run_tau; [apply (step_alloc _ il2 0); vm_compute; reflexivity|].
  eapply run_tau; [apply (step_clear _ il3 0 _ [(1%nat, Claimed)]); [reflexivity|vm_compute; reflexivity]|].
  eapply run_tau; [apply (step_fill _ il4 0 [5] _ [(1%nat, Claimed)]); [reflexivity|vm_compute; discriminate|vm_compute; reflexivity]|].
  eapply run_event; [apply (step_link_tail _ il5 0 [5] _ [(1%nat, Claimed)]); [reflexivity|vm_compute; reflexivity]|].
  eapply run_tau; [apply (step_clear _ il6 1 _ []); [reflexivity|vm_compute; reflexivity]|].
  eapply run_tau; [apply (step_fill _ il7 1 [6] _ []); [reflexivity|vm_compute; discriminate|vm_compute; reflexivity]|].
  eapply run_event; [apply (step_link_tail _ il8 1 [6] _ []); [reflexivity|vm_compute; reflexivity]|].
  constructor.
Qed.
Lemma mq_interleaving_refines_witness :
  exists l, fifo_run [] [EvSend [5]; EvSend [6]] l /\ mq_sim (il8, []) l.
Proof.
  destruct (mq_interleaving_refines (replicate 24 0) 8 2 0 mq_demo [EvSend [5]; EvSend [6]] (il8, [])) as (l & Hf & Hs & _).
  - lia.
  - lia.
  - vm_compute. discriminate.
  - vm_compute. reflexivity.
  - exact interleaved_run.
  - exists l. conclude.
Defined.

(** ** Kernel objects *)

Definition fresh_id : obj_id := OSem 7.
Lemma object_init_find_witness :
  exists k1 k2, rt_object_init fresh_id RT_Object_Class_Semaphore [122] demo = Some (tt, k1) /\
    rt_object_find (Some [122]) RT_Object_Class_Semaphore k1 = Some (Some fresh_id, k2).
Proof.
  destruct (object_init_find fresh_id RT_Object_Class_Semaphore [122] demo) as (k1 & k2 & E1 & E2 & _).
  - apply (ki_sched _ _ demo_kinv).
  - unfold can_lock. evaluate.
  - exact demo_oinv.
  - evaluate.
  - evaluate.
  - unfold cstr. evaluate.
  - exists k1, k2. conclude.
Defined.
