(* ===== verification/MemRuns.v ===== *)
(** * Concrete runs: memory pools, the heap and the running system

    The theorems on memory pools, on the heap and on reachable states applied to states
    reached by running the model from the demonstration kernel of Scenarios.v. *)
From S2P Require Import Prelude RtList Kernel Sched Timer Object Thread Lifecycle Idle Boot HeapBytes KMem.
From S2P Require Import Ipc Sem Mutex Event Mailbox MsgQueue MemPool Mem Malloc System MallocAlign Ticks Syscalls Checks Startup Scenarios.
From stdpp Require Import base gmap sets list relations.
From Stdlib Require Import ZArith Lia.
#[local] Open Scope Z_scope.

(** The result of a run, by evaluation. *)
Definition result {A} (c : M kernel A) (k : kernel) : option A := fst <$> c k.
Lemma result_run {A} (c : M kernel A) k a r k' : result c k = Some a -> c k = Some (r, k') -> r = a.
Proof. unfold result. intros H E. rewrite E in H. by injection H. Qed.

(** The kernel after one more call. *)
Definition next {A} (c : M kernel A) (k : kernel) : kernel := default k (snd <$> c k).
Lemma next_run {A} (c : M kernel A) k a : result c k = Some a -> c k = Some (a, next c k).
Proof. unfold result, next. destruct (c k) as [[b k']|]; [|done]. by intros [= ->]. Qed.

(** ** Memory pools *)

(** A pool of 24 bytes with two blocks of eight; then one of the blocks is taken. *)
Definition pooled : kernel := after (demo_worker ;; rt_mp_init 0 [112] 24 8).
Definition taken : kernel := after (demo_worker ;; rt_mp_init 0 [112] 24 8 ;; rt_mp_alloc 0 0).
Definition the_mp (k : kernel) : rt_mempool := default (RtMempool 0 0 None 0 0 ∅) (k_mps k !! 0%nat).
Lemma the_mp_lookup k : is_Some (k_mps k !! 0%nat) -> k_mps k !! 0%nat = Some (the_mp k).
Proof. intros [mp E]. unfold the_mp. by rewrite E. Qed.

Lemma mp_alloc_correct_witness :
  exists k' mp', rt_mp_alloc 0 0 pooled = Some (inl (Some 0%nat), k') /\ sys_inv k' /\ mp_allocated 0 0 (the_mp pooled) mp'.
Proof.
  assert (Hr : result (rt_mp_alloc 0 0) pooled = Some (inl (Some 0%nat))) by (vm_compute; reflexivity).
  destruct (mp_alloc_correct pooled 0 (the_mp pooled) 2 0 []) as (r & k' & E & Hs & Hp).
  - apply sys_check_ok. evaluate.
  - apply the_mp_lookup. evaluate.
  - apply running_check_ok. evaluate.
  - reflexivity.
  - vm_compute. reflexivity.
  - pose proof (result_run _ _ _ _ _ Hr E) as ->. exists k'.
    destruct Hp as [(_ & i & mp' & [= <-] & Ha & _)|[(_ & _ & [=] & _)|(_ & _ & [=] & _)]]. exists mp'. conclude.
Defined.

Lemma mp_free_correct_witness :
  exists k', rt_mp_free 0 0 taken = Some (tt, k') /\ sys_inv k'.
Proof.
  destruct (mp_free_correct taken 0 (the_mp taken) 0 2 []) as (mp' & k' & E & Hs & _).
  - apply sys_check_ok. evaluate.
  - apply the_mp_lookup. evaluate.
  - vm_compute. reflexivity.
  - vm_compute. reflexivity.
  - vm_compute. reflexivity.
  - vm_compute. reflexivity.
  - exists k'. conclude.
Defined.

Lemma mp_alloc_free_roundtrip_witness :
  exists i k', rt_mp_alloc 0 0 pooled = Some (inl (Some i), k') /\ rt_mp_free 0 i k' = Some (tt, pooled).
Proof.
  apply (mp_alloc_free_roundtrip pooled 0 (the_mp pooled) 2 0).
  - apply kinv_check_ok. evaluate.
  - apply mps_check_ok. evaluate.
  - apply the_mp_lookup. evaluate.
  - apply running_check_ok. evaluate.
  - lia.
  - vm_compute. reflexivity.
  - vm_compute. reflexivity.
Defined.

(** ** The heap *)

(** Two blocks are allocated, at offsets 0 and 28. *)
Definition heaped : kernel := after (demo_worker ;; rt_malloc 16 ;; rt_malloc 20).
Lemma heaped_sys : sys_inv heaped.
Proof. apply sys_check_ok. evaluate. Qed.
Lemma heaped_running : running heaped 2.
Proof. apply running_check_ok. evaluate. Qed.
Definition lock : rt_semaphore := RtSemaphore RT_IPC_FLAG_FIFO 1.
Lemma heaped_lock : k_sems heaped !! heap_sem = Some lock.
Proof. vm_compute. reflexivity. Qed.
Definition heaped_bs : list (Z * bool) := [(28, true); (60, true); (184, false)].
Lemma heaped_rep : heap_rep (k_heap heaped) heaped_bs.
Proof. apply heap_check_ok. evaluate. Qed.
Lemma heaped_state : heap_state (k_heap heaped) ([] ++ (0, 28) :: [(28, 60)]).
Proof. exists heaped_bs. split; [exact heaped_rep|reflexivity]. Qed.

(** The block behind the two others is granted: its data starts 72 bytes into the heap. *)
Lemma malloc_correct_witness :
  exists h' nx, rt_malloc 8 heaped = Some (inl (Some 0x2000004c), set_k_heap h' heaped) /\
    granted (k_heap heaped) [(0, 28); (28, 60)] 8 60 nx h'.
Proof.
  assert (Hr : result (rt_malloc 8) heaped = Some (inl (Some 0x2000004c))) by (vm_compute; reflexivity).
  assert (Hp : hp_ptr (k_heap heaped) = 0x20000004) by (vm_compute; reflexivity).
  destruct (malloc_correct heaped 2 lock heaped_bs 8 heaped_sys heaped_running heaped_lock heaped_rep) as (r & k' & E & _ & Hm).
  - lia.
  - pose proof (result_run _ _ _ _ _ Hr E) as ->. destruct Hm as (o & nx & h' & Ho & -> & Hg & _). rewrite Hp in Ho.
    assert (o = 60) as -> by (unfold SIZEOF_STRUCT_MEM in Ho; lia). exists h', nx. conclude.
Defined.

Lemma free_correct_witness :
  exists h', rt_free 0x20000010 heaped = Some (inl tt, set_k_heap h' heaped) /\ heap_state h' [(28, 60)].
Proof.
  assert (Hr : result (rt_free 0x20000010) heaped = Some (inl tt)) by (vm_compute; reflexivity).
  assert (Hp : hp_ptr (k_heap heaped) + (0 + SIZEOF_STRUCT_MEM) = 0x20000010) by (vm_compute; reflexivity).
  destruct (free_correct heaped 2 lock [] 0 28 [(28, 60)] heaped_sys heaped_running heaped_lock heaped_state) as (r & k' & E & _ & Hm).
  rewrite Hp in E. pose proof (result_run _ _ _ _ _ Hr E) as ->. destruct Hm as (h' & -> & Hs & _). exists h'. conclude.
Defined.


(** The bytes of the heap; the first block copied over the second one. *)
Definition heaped_bytes : gmap Z Z :=
  list_to_map (omap (fun i => (fun b => (0x20000004 + Z.of_nat i, b)) <$> heap_byte (k_heap heaped) (Z.of_nat i)) (seq 0 196)).
Lemma heaped_viewed : viewed (k_heap heaped) heaped_bytes.
Proof.
  intros x Hx. assert (He : hp_end (k_heap heaped) + SIZEOF_STRUCT_MEM = 196) by (vm_compute; reflexivity). rewrite He in Hx.
  assert (H : Forall (fun i => heaped_bytes !! (hp_ptr (k_heap heaped) + Z.of_nat i) = heap_byte (k_heap heaped) (Z.of_nat i)) (seq 0 196))
    by (apply (bool_decide_unpack _); vm_compute; exact I).
  rewrite Forall_forall in H. specialize (H (Z.to_nat x)). rewrite Z2Nat.id in H by lia. apply H. apply elem_of_seq. lia.
Qed.
Lemma heaped_words off n : 0 <= off -> off + n <= 196 -> words (k_heap heaped) off n.
Proof.
  intros H0 Hn x Hx H4. assert (H : Forall (fun i => is_Some (hp_mem (k_heap heaped) !! (4 * Z.of_nat i))) (seq 0 49))
    by (apply (bool_decide_unpack _); vm_compute; exact I).
  pose proof (Z.div_mod x 4 ltac:(lia)). rewrite Forall_forall in H. specialize (H (Z.to_nat (x / 4))).
  replace (4 * Z.of_nat (Z.to_nat (x / 4))) with x in H by lia. apply H. apply elem_of_seq. lia.
Qed.
Lemma heap_copy_is_memcpy_witness :
  exists h' m', copy_words 4 40 12 (k_heap heaped) = Some (tt, h') /\
    rt_memcpy 0x2000002c 0x20000010 16 heaped_bytes = Some (0x2000002c, m') /\ viewed h' m'.
Proof.
  assert (Hp : hp_ptr (k_heap heaped) = 0x20000004) by (vm_compute; reflexivity).
  assert (He : hp_end (k_heap heaped) + SIZEOF_STRUCT_MEM = 196) by (vm_compute; reflexivity).
  pose proof (heap_copy_is_memcpy (k_heap heaped) heaped_bytes 4 40 12) as H. rewrite Hp, He in H. apply H.
  - exact heaped_viewed.
  - apply (bool_decide_unpack _). vm_compute. exact I.
  - reflexivity.
  - reflexivity.
  - apply heaped_words; lia.
  - apply heaped_words; lia.
  - lia.
  - lia.
  - lia.
  - lia.
  - lia.
  - lia.
Defined.

(** Zeroed memory where a freed block had held data. *)
Definition dirty : kernel :=
  after (demo_worker ;; rt_malloc 16 ;; on_heap (st 12 0xffffffff) ;; rt_free 0x20000010).
Definition dirty_bs : list (Z * bool) := [(184, false)].
Lemma dirty_sys : sys_inv dirty.
Proof. apply sys_check_ok. evaluate. Qed.
Lemma dirty_rep : heap_rep (k_heap dirty) dirty_bs.
Proof. apply heap_check_ok. evaluate. Qed.
Lemma calloc_correct_witness :
  exists h', rt_calloc 3 2 dirty = Some (inl (Some 0x20000010), set_k_heap h' dirty) /\
    (forall i, 0 <= i < 6 -> heap_byte h' (12 + i) = Some 0).
Proof.
  assert (Hr : result (rt_calloc 3 2) dirty = Some (inl (Some 0x20000010))) by (vm_compute; reflexivity).
  assert (Hp : hp_ptr (k_heap dirty) = 0x20000004) by (vm_compute; reflexivity).
  destruct (calloc_correct dirty 2 lock dirty_bs 3 2 dirty_sys) as (r & h' & E & _ & Hm).
  - apply running_check_ok. evaluate.
  - vm_compute. reflexivity.
  - exact dirty_rep.
  - reflexivity.
  - lia.
  - pose proof (result_run _ _ _ _ _ Hr E) as [= ->]. destruct Hm as (o & nx & Ho & _ & Hz). rewrite Hp in Ho.
    assert (o = 0) as -> by (unfold SIZEOF_STRUCT_MEM in Ho; lia). exists h'. split; [exact E|exact Hz].
Defined.

Definition granted8 : kernel := next (rt_malloc 8) heaped.
Lemma malloc_free_roundtrip_witness :
  exists h', rt_free 0x2000004c granted8 = Some (inl tt, set_k_heap h' heaped) /\ hp_used_mem h' = hp_used_mem (k_heap heaped).
Proof.
  destruct (malloc_free_roundtrip heaped 2 lock heaped_bs 8 0x2000004c granted8) as (h' & E & _ & _ & Hu).
  - apply (sys_heap_ready heaped 2 lock _ heaped_sys heaped_lock heaped_running heaped_state).
  - exact heaped_rep.
  - lia.
  - reflexivity.
  - apply (next_run (rt_malloc 8) heaped (inl (Some 0x2000004c))). vm_compute. reflexivity.
  - exists h'. conclude.
Defined.

(** Sixteen bytes at a multiple of 32, and back. *)
Lemma malloc_align_roundtrip_witness :
  exists p h1 h2, rt_malloc_align 16 32 heaped = Some (inl (Some p), set_k_heap h1 heaped) /\ p mod 32 = 0 /\
    rt_free_align p (set_k_heap h1 heaped) = Some (inl tt, set_k_heap h2 heaped) /\ hp_used_mem h2 = hp_used_mem (k_heap heaped).
Proof.
  destruct (malloc_align_roundtrip heaped 2 lock heaped_bs 16 32 5) as [E|(p & o & nx & h1 & h2 & E1 & _ & Hp & _ & _ & _ & E2 & _ & _ & _ & Hu)].
  - exact heaped_sys.
  - exact heaped_running.
  - exact heaped_lock.
  - exact heaped_rep.
  - reflexivity.
  - reflexivity.
  - lia.
  - lia.
  - vm_compute. reflexivity.
  - exfalso. apply (f_equal (fmap fst)) in E. vm_compute in E. discriminate E.
  - exists p, h1, h2. conclude.
Defined.

(** rt_realloc that shrinks a block does not lower lfree: with the rest of the heap
    taken, the 36 bytes it gives up are free and yet not found by rt_malloc. *)
Definition shrunk : kernel := after (demo_worker ;; rt_malloc 60 ;; rt_malloc 96 ;; rt_realloc 0x20000010 12).
Example realloc_hides_block :
  heap_bs (k_heap shrunk) = [(24, true); (72, false); (184, true)] /\ result (rt_malloc 12) shrunk = Some (inl None).
Proof. split; vm_compute; reflexivity. Qed.

(** The last block has 112 bytes of room behind [heaped]; a request for all of them fails. *)
Example malloc_misses_exact_fit :
  result (rt_malloc 112) heaped = Some (inl None) /\ result (rt_malloc 108) heaped = Some (inl (Some 0x2000004c)).
Proof. split; vm_compute; reflexivity. Qed.

(** RT_ALIGN wraps for the largest sizes: rt_malloc grants twelve bytes. *)
Example malloc_wraps :
  result (rt_malloc (2 ^ 32 - 1)) demo = Some (inl (Some 0x20000010)) /\
  heap_bs (k_heap (next (rt_malloc (2 ^ 32 - 1)) demo)) = [(24, true); (184, false)].
Proof. split; vm_compute; reflexivity. Qed.

(** The product of rt_calloc wraps: four bytes are granted for 2^30 + 1 elements of four. *)
Example calloc_wraps :
  result (rt_calloc (2 ^ 30 + 1) 4) demo = Some (inl (Some 0x20000010)) /\
  heap_bs (k_heap (next (rt_calloc (2 ^ 30 + 1) 4) demo)) = [(24, true); (184, false)].
Proof. split; vm_compute; reflexivity. Qed.

(** ** Start-up and reachable states *)

Lemma demo_memory_words x : 0 <= x < 200 -> x mod 4 = 0 -> is_Some (demo_memory !! x).
Proof.
  intros Hx Hm. assert (Hall : Forall (fun i => is_Some (demo_memory !! (4 * i))) (seqZ 0 50)) by evaluate.
  rewrite Forall_forall in Hall. pose proof (Z.div_mod x 4 ltac:(lia)) as Hd.
  replace x with (4 * (x / 4)) by lia. apply Hall, elem_of_seqZ. lia.
Qed.

(** The main thread takes the semaphore and waits for it a second time; the tick comes. *)
Definition run1 : kernel := next (perform 2 (Sem_take 0 1)) demo.
Definition run2 : kernel := next (perform 2 (Sem_take 0 1)) run1.
Definition run3 : kernel := next (rt_tick_increase (fun _ => mret tt) 2) run2.
Lemma run3_reached : rtc (sys_step (fun _ => mret tt)) demo run3.
Proof.
  apply (rtc_l _ _ run1); [|apply (rtc_l _ _ run2); [|apply rtc_once]].
  - apply (step_call _ _ _ 2 (Sem_take 0 1)); [exact demo_running|split; [evaluate|reflexivity]|].
    apply (next_run (perform 2 (Sem_take 0 1)) demo tt). vm_compute. reflexivity.
  - apply (step_call _ _ _ 2 (Sem_take 0 1)); [apply running_check_ok; evaluate|split; [evaluate|reflexivity]|].
    apply (next_run (perform 2 (Sem_take 0 1)) run1 tt). vm_compute. reflexivity.
  - apply (step_tick _ _ _ idle_thread 2).
    + vm_compute. reflexivity.
    + evaluate.
    + unfold run3. apply next_run. vm_compute. reflexivity.
Qed.
(** The main thread runs again. *)
Lemma system_safe_witness : sys_inv run3 /\ exists k', perform 2 (Sem_release 0) run3 = Some (tt, k').
Proof.
  destruct (system_safe (fun _ => mret tt) demo run3 demo_sys run3_reached) as (Hs & Hc & _). split; [exact Hs|]. apply Hc.
  - apply running_check_ok. evaluate.
  - evaluate.
Defined.
