(* ===== verification/DevRuns.v ===== *)
(** * Concrete runs: devices, the console and the serial driver

    The theorems of DevCalls.v and Serial.v applied to a system with two devices that share a
    simple driver, and to a small serial device; and runs that show where the code does not
    do what it means to. *)
From S2P Require Import Prelude RtList RingBuffer KString KMem Kprintf Kernel Sched Timer Object Thread Idle Ipc System Creation.
From S2P Require Import Device DevCalls Serial Syscalls Checks Startup Scenarios.
From Stdlib Require Import Ascii.
From stdpp Require Import base gmap sets list relations.
From Stdlib Require Import ZArith Lia.
Import RingBuffer.
#[local] Open Scope Z_scope.

(** ** Drivers *)

(** The first driver sends bytes to a wire, the second one cannot be closed. *)
Notation wire := (list Z).
Fixpoint load_bytes (n : nat) (a : Z) : M (gmap Z Z) (list Z) :=
  match n with O => mret [] | S n => c ← ldb a; r ← load_bytes n (a + 1); mret (c :: r) end.
Definition wire_write (n : nat) (pos buffer size : Z) : M (dsys wire) Z :=
  bytes ← on_mem (load_bytes (Z.to_nat size) buffer);
  modify (fun s => Dsys (d_kernel s) (d_devs s) (d_console s) (d_errno s) (d_nest s) (d_mem s) (d_drv s ++ bytes)) ;;
  mret size.
Definition wire_ops : device_ops wire :=
  DeviceOps (Some (fun _ => mret RT_EOK)) None (Some (fun _ => mret RT_EOK)) None (Some wire_write) (Some (fun _ _ _ => mret RT_EOK)).
Definition stuck_ops : device_ops wire := DeviceOps None None (Some (fun _ => mret (- RT_EIO))) None None None.
Definition drivers (i : nat) : device_ops wire := match i with O => wire_ops | 1%nat => stuck_ops | _ => no_ops end.
Definition log_buf : Z := 1000.
Definition accepts_all (i : nat) (cmd arg : Z) (s : dsys wire) : Prop := True.

Lemma load_bytes_ok n a m : mapped m a (Z.of_nat n) -> exists l, load_bytes n a m = Some (l, m).
Proof.
  revert a. induction n as [|n IH]; intros a Hm; [by exists []|]. cbn [load_bytes]. unfold ldb. munfold.
  destruct (Hm a) as [c ->]; [lia|]. destruct (IH (a + 1)) as [l E]; [intros x Hx; apply Hm; lia|]. rewrite E. by eexists.
Qed.
Lemma steady_drv n s l : steady n s (Dsys (d_kernel s) (d_devs s) (d_console s) (d_errno s) (d_nest s) (d_mem s) l : dsys wire).
Proof. split; [by split|]. intros d E. exists d. by split. Qed.
Lemma still_open_same n (s s' : dsys wire) : d_devs s' = d_devs s -> still_open n s s'.
Proof. intros E d d' E1 E2. unfold keeps_open. congruence. Qed.
Lemma behaves_ret i pre r (post : nat -> Z -> dsys wire -> dsys wire -> Prop) :
  (forall n s, post n r s s) -> behaves log_buf i pre (fun _ => mret r) post.
Proof. intros Hp n d s _ _ _ _. exists r, s. split; [done|]. split; [|done]. split; [by split|]. intros d' E. by exists d'. Qed.

#[global] Instance drivers_spec : DriverSpec drivers log_buf accepts_all.
Proof.
  split; intros i h.
  - intros E. destruct i as [|[|i]]; cbn in E; simplify_eq. apply behaves_ret. intros n s. split; [by apply still_open_same|by split].
  - intros oflag E. destruct i as [|[|i]]; cbn in E; simplify_eq.
  - intros E. destruct i as [|[|i]]; cbn in E; simplify_eq; by apply behaves_ret.
  - intros pos buffer size E. destruct i as [|[|i]]; cbn in E; simplify_eq.
  - intros pos buffer size E. destruct i as [|[|i]]; cbn in E; simplify_eq. intros n d s _ _ _ [_ Hm].
    destruct (load_bytes_ok (Z.to_nat size) buffer (d_mem s)) as [l El]; [intros x Hx; apply Hm; lia|].
    exists size. eexists. split; [unfold wire_write, on_mem; munfold; by rewrite El|].
    split; [|by apply still_open_same]. destruct s. apply (steady_drv n (Dsys _ _ _ _ _ _ _)).
  - intros cmd arg E. destruct i as [|[|i]]; cbn in E; simplify_eq. apply behaves_ret. intros n s. by apply still_open_same.
Qed.

(** ** A system with devices *)

Definition log_memory : gmap Z Z := list_to_map ((fun i => (1000 + Z.of_nat i, 0)) <$> seq 0 256).
Lemma log_memory_mapped : mapped log_memory log_buf RT_CONSOLEBUF_SIZE.
Proof.
  intros x Hx. unfold log_buf, RT_CONSOLEBUF_SIZE in Hx. assert (H : Forall (fun i => is_Some (log_memory !! (1000 + Z.of_nat i))) (seq 0 256))
    by (apply (bool_decide_unpack _); vm_compute; exact I).
  rewrite Forall_forall in H. specialize (H (Z.to_nat (x - 1000))). replace (1000 + Z.of_nat (Z.to_nat (x - 1000))) with x in H by lia.
  apply H. apply elem_of_seq. lia.
Qed.
(** Devices 0 and 1 have the first driver, device 2 is standalone and has the second one. *)
Definition dev_new (driver : nat) : rt_device := RtDevice 0 0 0 0 0 None None (Some driver) 0.
Definition dev_demo : dsys wire :=
  Dsys demo {[ 0%nat := dev_new 0; 1%nat := dev_new 0; 2%nat := dev_new 1 ]} None 0 0 log_memory [].
Lemma dev_new_ok i : dev_ok (dev_new i).
Proof. split; cbn; done. Qed.
Lemma demo_no_devices : o_lists (k_objs demo) !! RT_Object_Class_Device = Some [].
Proof. vm_compute. reflexivity. Qed.
Lemma dev_demo_inv : dinv log_buf dev_demo.
Proof.
  split.
  - exact demo_sys.
  - split; [vm_compute; discriminate|vm_compute; reflexivity].
  - intros n d. unfold dev_demo. cbn [d_devs]. rewrite !lookup_insert_Some, lookup_singleton_Some.
    intros [[_ <-]|[_ [[_ <-]|[_ [_ <-]]]]]; apply dev_new_ok.
  - intros l o. change (d_kernel dev_demo) with demo. rewrite demo_no_devices. intros [= <-] Ho. by apply not_elem_of_nil in Ho.
  - done.
  - exact log_memory_mapped.
  - split; [done|]. vm_compute. reflexivity.
Qed.

(** A call and the state behind it, by evaluation. *)
Definition dnext {A} (c : M (dsys wire) A) (s : dsys wire) : dsys wire := default s (snd <$> c s).
Lemma dnext_run {A} (c : M (dsys wire) A) s a : fst <$> c s = Some a -> c s = Some (a, dnext c s).
Proof. unfold dnext. destruct (c s) as [[b s']|]; [|done]. by intros [= ->]. Qed.

Definition uart_name : list Z := map ch ["u"; "a"; "r"; "t"; "1"]%char.
Definition perform_dev := dev_perform drivers log_buf 68.
Definition ready_dev := dev_ready log_buf 68 (accepts := accepts_all).
(** Device 0 is registered and becomes the console. *)
Definition dev1 : dsys wire := dnext (perform_dev (DevRegister 0 uart_name 3)) dev_demo.
Definition dev2 : dsys wire := dnext (perform_dev (DevConsole uart_name)) dev1.

Lemma free_device n : q_free (o_lists (k_objs demo)) (ODevice n).
Proof.
  intros c l El Hin. destruct (oi_nodes _ demo_oinv c l (ODevice n) El Hin) as (ob & Eo & _).
  assert (H : map_Forall (fun o _ => forall m, o <> ODevice m) (o_objs (k_objs demo))).
  { apply map_Forall_to_list. assert (Hb : Forall (fun p => match fst p with ODevice _ => False | _ => True end) (map_to_list (o_objs (k_objs demo))))
      by (vm_compute; repeat constructor).
    eapply Forall_impl; [exact Hb|]. intros [o ob']. cbn. intros Ho m ->. done. }
  by apply (H (ODevice n) ob Eo n).
Qed.
Lemma dev1_run : perform_dev (DevRegister 0 uart_name 3) dev_demo = Some (tt, dev1).
Proof. apply (dnext_run (perform_dev (DevRegister 0 uart_name 3)) dev_demo tt). vm_compute. reflexivity. Qed.
Lemma dev2_run : perform_dev (DevConsole uart_name) dev1 = Some (tt, dev2).
Proof. apply (dnext_run (perform_dev (DevConsole uart_name)) dev1 tt). vm_compute. reflexivity. Qed.
Lemma dev1_named : named 0 dev1.
Proof.
  exists (default (RtObject 0 []) (o_objs (k_objs (d_kernel dev1)) !! ODevice 0)), uart_name.
  split; [vm_compute; reflexivity|]. split; [vm_compute; reflexivity|]. split; [repeat constructor|cbn; lia].
Qed.
Lemma found_only (s : dsys wire) name m n :
  o_lists (k_objs (d_kernel s)) !! RT_Object_Class_Device = Some [ODevice m] -> found s name (Some n) -> n = m.
Proof. intros E (l & El & Hf). rewrite E in El. injection El as <-. cbn [List.find] in Hf. destruct (has_name _ _ _); cbn in Hf; by simplify_eq. Qed.
Lemma dev1_list : o_lists (k_objs (d_kernel dev1)) !! RT_Object_Class_Device = Some [ODevice 0].
Proof. vm_compute. reflexivity. Qed.
Lemma dev2_reached : rtc (dev_step drivers log_buf 68 (accepts := accepts_all)) dev_demo dev2.
Proof.
  apply (rtc_l _ _ dev1); [|apply rtc_once].
  - apply (dev_step_call drivers log_buf 68 dev_demo dev1 (DevRegister 0 uart_name 3)); [|exact dev1_run]. split; [vm_compute; eauto|apply free_device].
  - apply (dev_step_call drivers log_buf 68 dev1 dev2 (DevConsole uart_name)); [|exact dev2_run]. intros n Hn. rewrite (found_only dev1 uart_name 0 n dev1_list Hn). exact dev1_named.
Qed.
Lemma device_calls_safe_witness : dinv log_buf dev2 /\ exists s', perform_dev (DevIo (IoClose 0)) dev2 = Some (tt, s').
Proof.
  destruct (device_calls_safe drivers log_buf 68 dev_demo dev2 dev_demo_inv dev2_reached) as [Hi Hc]. split; [exact Hi|]. apply Hc. vm_compute. eauto.
Defined.

(** An open, two closes and a read of the closed device. *)
Definition io_demo : list (io_call * Z) :=
  [(IoOpen 0 3, RT_EOK); (IoClose 0, RT_EOK); (IoClose 0, - RT_ERROR); (IoRead 0 0 1000 4, 0)].
Definition do_io := io_perform drivers log_buf.
Definition io1 : dsys wire := dnext (do_io (IoOpen 0 3)) dev1.
Definition io2 : dsys wire := dnext (do_io (IoClose 0)) io1.
Definition io3 : dsys wire := dnext (do_io (IoClose 0)) io2.
Definition io4 : dsys wire := dnext (do_io (IoRead 0 0 1000 4)) io3.
Lemma io_demo_trace : io_trace drivers log_buf (accepts := accepts_all) io_demo dev1 io4.
Proof.
  apply (io_trace_cons drivers log_buf (IoOpen 0 3) RT_EOK _ dev1 io1);
    [split; [vm_compute; eauto|split; [exact dev1_named|lia]]|apply (dnext_run (do_io (IoOpen 0 3)) dev1); vm_compute; reflexivity|].
  apply (io_trace_cons drivers log_buf (IoClose 0) RT_EOK _ io1 io2); [vm_compute; eauto|apply (dnext_run (do_io (IoClose 0)) io1); vm_compute; reflexivity|].
  apply (io_trace_cons drivers log_buf (IoClose 0) (- RT_ERROR) _ io2 io3); [vm_compute; eauto|apply (dnext_run (do_io (IoClose 0)) io2); vm_compute; reflexivity|].
  apply (io_trace_cons drivers log_buf (IoRead 0 0 1000 4) 0 _ io3 io4);
    [|apply (dnext_run (do_io (IoRead 0 0 1000 4)) io3); vm_compute; reflexivity|apply io_trace_nil].
  split; [vm_compute; eauto|]. assert (E : d_mem io3 = log_memory) by (vm_compute; reflexivity). rewrite E.
  intros x Hx. apply log_memory_mapped. unfold log_buf, RT_CONSOLEBUF_SIZE. lia.
Qed.
Lemma run_inv {A} (c : M (dsys wire) A) s a b s1 s2 : c s = Some (a, s1) -> c s = Some (b, s2) -> dinv log_buf s2 -> dinv log_buf s1.
Proof. intros -> [= _ ->]. done. Qed.
Lemma dev1_inv : dinv log_buf dev1.
Proof.
  destruct (dev_call_ok drivers log_buf 68 (DevRegister 0 uart_name 3) dev_demo dev_demo_inv) as (s' & E & Hi).
  - split; [vm_compute; eauto|apply free_device].
  - exact (run_inv _ _ _ _ _ _ dev1_run E Hi).
Qed.
Lemma dev1_closed : counts (fun _ => 0) dev1.
Proof.
  assert (H : map_Forall (fun _ d => dv_ref_count d = 0) (d_devs dev1)) by (apply (bool_decide_unpack _); vm_compute; exact I).
  intros n d E. exact (H n d E).
Qed.

Lemma device_register_find_witness :
  exists s1 s2 s3, rt_device_register (Some 0%nat) uart_name 3 dev_demo = Some (RT_EOK, s1) /\
    rt_device_find uart_name s1 = Some (Some 0%nat, s2) /\ rt_device_register (Some 1%nat) uart_name 3 s2 = Some (- RT_ERROR, s3).
Proof.
  destruct (device_register_find log_buf 0 1 uart_name 3 dev_demo) as (s1 & s2 & s3 & E1 & _ & _ & E2 & _ & E3 & _).
  - exact dev_demo_inv.
  - vm_compute. eauto.
  - vm_compute. eauto.
  - lia.
  - apply free_device.
  - apply free_device.
  - exists []. split; [exact demo_no_devices|reflexivity].
  - repeat constructor.
  - exists s1, s2, s3. conclude.
Defined.

(** The console is device 0 and open: five characters go to the wire. *)
Definition greeting : list Z := map ch ["h"; "i"; "%"; "d"]%char.
Lemma dev2_inv : dinv log_buf dev2.
Proof.
  destruct (dev_call_ok drivers log_buf 68 (DevConsole uart_name) dev1 dev1_inv) as (s' & E & Hi).
  - intros n Hn. rewrite (found_only dev1 uart_name 0 n dev1_list Hn). exact dev1_named.
  - exact (run_inv _ _ _ _ _ _ dev2_run E Hi).
Qed.
Definition console_dev : rt_device := default (dev_new 0) (d_devs dev2 !! 0%nat).
Lemma kprintf_console_witness :
  exists s', rt_kprintf drivers log_buf greeting [AWord 123] dev2 = Some (tt, s') /\ dinv log_buf s'.
Proof.
  destruct (kprintf_console drivers log_buf greeting [AWord 123] (map ch ["h"; "i"; "1"; "2"; "3"]%char) 0 console_dev dev2) as (m & r & s2 & d2 & s' & _ & _ & _ & E & _ & Hi).
  - exact dev2_inv.
  - vm_compute. reflexivity.
  - vm_compute. reflexivity.
  - vm_compute. reflexivity.
  - vm_compute. reflexivity.
  - exists s'. split; assumption.
Defined.
Example greeting_sent : d_drv (dnext (rt_kprintf drivers log_buf greeting [AWord 123]) dev2) = map ch ["h"; "i"; "1"; "2"; "3"]%char.
Proof. vm_compute. reflexivity. Qed.

(** ** Where the code does not do what it means to *)

Fixpoint open_times (n dev : nat) : M (dsys wire) unit :=
  match n with O => mret tt | S n => _ ← rt_device_open drivers log_buf dev 3; open_times n dev end.
(** The 256th open of a device takes its reference count back to zero: the device is open and
    cannot be closed or used. *)
Theorem device_open_wraps :
  let s := dnext (open_times 256 1) dev_demo in
  (exists d, d_devs s !! 1%nat = Some d /\ dv_ref_count d = 0 /\ has (dv_open_flag d) RT_DEVICE_OFLAG_OPEN = true) /\
  fst <$> rt_device_close drivers 1 s = Some (- RT_ERROR) /\ fst <$> rt_device_write drivers 1 0 1000 4 s = Some 0.
Proof. cbv zeta. split; [eexists; split; [vm_compute; reflexivity|split; reflexivity]|split; vm_compute; reflexivity]. Qed.

(** A standalone device whose driver fails to close it is neither open nor closed: there is
    no reference left to close and every open reports that it is busy. *)
Definition standalone : dsys wire := dnext (rt_device_register (Some 2%nat) uart_name RT_DEVICE_FLAG_STANDALONE) dev_demo.
Theorem failed_close_locks_device :
  let s := dnext (rt_device_open drivers log_buf 2 3 ;; rt_device_close drivers 2) standalone in
  fst <$> rt_device_close drivers 2 s = Some (- RT_ERROR) /\ fst <$> rt_device_open drivers log_buf 2 3 s = Some (- RT_EBUSY).
Proof. split; vm_compute; reflexivity. Qed.

(** A text longer than the buffer: the console gets 255 bytes, the last of which is the NUL. *)
Theorem long_kprintf_sends_nul :
  let s := dnext (rt_kprintf drivers log_buf (replicate 300 (ch "x")) []) dev2 in
  d_drv s = replicate 254 (ch "x") ++ [0].
Proof. vm_compute. reflexivity. Qed.

(** ** A serial device *)

(** The UART holds the bytes that were received and not taken yet. *)
Definition line_ops : rt_uart_ops (list Z) :=
  {| uo_configure := None; uo_control := fun _ _ h => (0, h); uo_putc := fun _ h => (1, h);
     uo_getc := fun h => match h with [] => (-1, []) | c :: h => (c, h) end; uo_dma_receive := fun _ h => h; uo_dma_transmit := fun _ _ h => h |}.
Definition line_feed (bytes h : list Z) : list Z := bytes.
#[global] Instance line_spec : UartSpec line_ops line_feed.
Proof.
  intros bytes h Hb. exists []. unfold line_feed. induction Hb as [|c bytes Hc Hb IH]; cbn; [done|]. split; [done|]. by exists bytes.
Qed.
Definition config4 : serial_configure := SerialConfigure 115200 8 1 0 0 0 4 0.
Definition closed_serial : serial (list Z) := Serial 0xf03 0 0 false config4 None None false 0 [].
Definition snext {A} (c : M (serial (list Z)) A) (s : serial (list Z)) : serial (list Z) := default s (snd <$> c s).
Definition int_serial : serial (list Z) := snext (rt_serial_open line_ops (Z.lor 3 RT_DEVICE_FLAG_INT_RX)) closed_serial.
Definition dma_serial : serial (list Z) := snext (rt_serial_open line_ops (Z.lor 3 RT_DEVICE_FLAG_DMA_RX)) closed_serial.

Lemma new_fifo_holds cap : 0 <= cap <= 4 -> fifo_holds 4 cap (new_fifo 4) [].
Proof. intros Hc. split; cbn; try lia; try reflexivity. repeat constructor; lia. Qed.
(** Five bytes arrive, three are kept; then one more comes. *)
Definition rx_demo : list rx_event := [Arrive [1; 2]; Fetch 1; Arrive [3; 4; 5]; Fetch 2; Arrive [6]; Fetch 9].
Lemma rx_demo_ok : Forall (event_ok 4) rx_demo.
Proof. repeat constructor; cbn; lia. Qed.

Lemma serial_int_refines_witness :
  exists s', rx_run line_ops (int_arrive line_ops line_feed) rx_demo int_serial = Some ([[1]; [3; 4]; [5; 6]], s').
Proof.
  destruct (serial_int_refines line_ops line_feed rx_demo 4 (new_fifo 4) [] int_serial) as (f' & s' & outs & q' & E & Er & _).
  - lia.
  - split; vm_compute; reflexivity.
  - vm_compute. reflexivity.
  - split; [apply new_fifo_holds; lia|discriminate].
  - exact rx_demo_ok.
  - exists s'. rewrite Er. vm_compute in E. injection E as <- _. reflexivity.
Defined.
Lemma serial_dma_refines_witness :
  exists s', rx_run line_ops (dma_arrive (H := list Z)) rx_demo dma_serial = Some ([[1]; [2; 3]; [4; 5; 6]], s').
Proof.
  destruct (serial_dma_refines line_ops rx_demo 4 (new_fifo 4) [] dma_serial) as (f' & s' & outs & q' & E & Er & _).
  - lia.
  - split; [|split]; vm_compute; reflexivity.
  - vm_compute. reflexivity.
  - split; [apply new_fifo_holds; lia|reflexivity].
  - exact rx_demo_ok.
  - exists s'. rewrite Er. vm_compute in E. injection E as <- _. reflexivity.
Defined.
Lemma serial_close_releases_witness :
  exists s1 s2, opens line_ops [0x103; 0x103] closed_serial = Some (tt, s1) /\ rt_serial_close line_ops s1 = Some (RT_EOK, s2) /\ sr_rx s2 = None.
Proof.
  destruct (serial_close_releases line_ops [0x103; 0x103] true false closed_serial) as [(s1 & s2 & E1 & _ & E2 & Er & _) _].
  - reflexivity.
  - reflexivity.
  - discriminate.
  - vm_compute. discriminate.
  - repeat constructor.
  - exists s1, s2. split_and!; assumption.
Defined.

(** Two opens in different modes: the second one forgets the receive interrupt, and the last
    close leaves the FIFO allocated and the interrupt on. *)
Theorem serial_reopen_leaks :
  let s := snext (opens line_ops [0x103; 0x003] ;; rt_serial_close line_ops) closed_serial in
  has (sr_open_flag s) RT_DEVICE_FLAG_INT_RX = false /\ is_Some (sr_rx s).
Proof. split; [vm_compute; reflexivity|vm_compute; eauto]. Qed.
(** A FIFO that is re-configured while it is open: the result is positive, not -RT_EBUSY. *)
Theorem serial_config_busy_is_positive :
  let s := Serial 0xf03 0x103 1 false config4 None None false 0 [] in
  fst <$> rt_serial_control line_ops RT_DEVICE_CTRL_CONFIG 0 (Some (SerialConfigure 115200 8 1 0 0 0 64 0)) s = Some RT_EBUSY.
Proof. vm_compute. reflexivity. Qed.
