(* ===== verification/DriverRuns.v ===== *)
(** * Concrete runs: completions, data queues and serial transmission

    The theorems of DevIpc.v and SerialTx.v applied to the demonstration kernel of Scenarios.v with a
    completion, a data queue of two items and a UART that notes what it is given. *)
From S2P Require Import Prelude RtList Kernel Sched Timer Object Thread Boot Ipc System Creation DevIpc Device Serial SerialTx Syscalls Checks Startup Scenarios.
From stdpp Require Import base gmap sets list.
From Stdlib Require Import ZArith Lia.
#[local] Open Scope Z_scope.

(** The state after a call. *)
Definition after {S A} (c : M S A) (s : S) : S := default s (snd <$> c s).
Lemma after_run {S A} (c : M S A) s a : fst <$> c s = Some a -> c s = Some (a, after c s).
Proof. unfold after. destruct (c s) as [[b s']|]; [|done]. by intros [= ->]. Qed.
Lemma after_eq {S A} (c : M S A) s a s' : c s = Some (a, s') -> after c s = s'.
Proof. unfold after. by intros ->. Qed.

(** ** A completion and a data queue *)

Definition drv0 : dstate := DState demo ∅ ∅.
Definition drv1 : dstate := after (rt_completion_init 0) drv0.
Definition drv2 : dstate := after (rt_data_queue_init 0 2 1 false (Some [(0, 0); (0, 0)])) drv1.

Lemma drv0_inv : drv_inv drv0.
Proof. exact (drv_inv_empty demo demo_sys). Qed.
Lemma drv1_inv : drv_inv drv1.
Proof.
  destruct (comp_init_ok 0 drv0 drv0_inv) as (s' & E & Hi & _); [left; vm_compute; reflexivity|]. unfold drv1. by rewrite (after_eq _ _ _ _ E).
Qed.
Lemma drv2_inv : drv_inv drv2 /\ holds 0 2 0 [] drv2.
Proof.
  destruct (dq_init_ok 0 2 1 false [(0, 0); (0, 0)] drv1 drv1_inv) as (s' & E & Hi); [left; vm_compute; reflexivity|left; vm_compute; reflexivity|lia|done|].
  assert (Ed : drv2 = s') by exact (after_eq _ _ _ _ E). rewrite Ed. exact Hi.
Qed.
Lemma drv1_running : running (ds_kernel drv1) 2.
Proof. apply running_check_ok. evaluate. Qed.
Lemma drv2_running : running (ds_kernel drv2) 2.
Proof. apply running_check_ok. evaluate. Qed.

Lemma completion_handshake_witness :
  (exists s1, rt_completion_wait 0 5 drv1 = Some (inr 2%nat, s1) /\ drv_inv s1) /\
  (exists s1, rt_completion_done 0 drv1 = Some (tt, s1) /\ rt_completion_wait 0 5 s1 = Some (inl RT_EOK, drv1)).
Proof.
  destruct (completion_handshake 0 2 5 drv1) as [(s1 & E & Hi & _) (s2 & E2 & _ & E3 & _)].
  - exact drv1_inv.
  - exact drv1_running.
  - vm_compute. reflexivity.
  - vm_compute. reflexivity.
  - lia.
  - reflexivity.
  - split; [exists s1; split; assumption|exists s2; split; assumption].
Defined.

(** Two items go in, a third one is refused, one comes out. *)
Definition dq1 : dstate := after (rt_data_queue_push 0 (100, 4) 0) drv2.
Definition dq2 : dstate := after (rt_data_queue_push 0 (200, 5) 0) dq1.
Definition dq3 : dstate := after (rt_data_queue_push 0 (300, 6) 0) dq2.
Definition dq4 : dstate := after (rt_data_queue_pop 0 0) dq3.
Lemma dq_demo_run : dq_run 0 drv2 [(100, 4); (200, 5)] [(100, 4)] dq4.
Proof.
  apply (run_step 0 drv2 [(100, 4)] [] dq1 [(200, 5)] [(100, 4)]).
  { apply (step_push 0 drv2 2 (100, 4) 0 (inl (RT_EOK, None)) dq1); [exact drv2_running|reflexivity|]. apply (after_run (rt_data_queue_push 0 (100, 4) 0) drv2 (inl (RT_EOK, None))). vm_compute. reflexivity. }
  apply (run_step 0 dq1 [(200, 5)] [] dq2 [] [(100, 4)]).
  { apply (step_push 0 dq1 2 (200, 5) 0 (inl (RT_EOK, None)) dq2); [apply running_check_ok; evaluate|reflexivity|]. apply (after_run (rt_data_queue_push 0 (200, 5) 0) dq1 (inl (RT_EOK, None))). vm_compute. reflexivity. }
  apply (run_step 0 dq2 [] [] dq3 [] [(100, 4)]).
  { apply (step_push 0 dq2 2 (300, 6) 0 (inl (- RT_ETIMEOUT, None)) dq3); [apply running_check_ok; evaluate|reflexivity|]. apply (after_run (rt_data_queue_push 0 (300, 6) 0) dq2 (inl (- RT_ETIMEOUT, None))). vm_compute. reflexivity. }
  apply (run_step 0 dq3 [] [(100, 4)] dq4 [] []); [|apply run_done].
  apply (step_pop 0 dq3 2 0 (inl (RT_EOK, Some (100, 4), None)) dq4); [apply running_check_ok; evaluate|reflexivity|]. apply (after_run (rt_data_queue_pop 0 0) dq3 (inl (RT_EOK, Some (100, 4), None))). vm_compute. reflexivity.
Qed.
Lemma data_queue_fifo_witness : exists q', ds_dqs dq4 !! 0%nat = Some q' /\ dq_rep q' [(200, 5)].
Proof.
  destruct (data_queue_fifo 0 2 0 [] drv2 [(100, 4); (200, 5)] [(100, 4)] dq4) as (q' & items' & E & _ & Hq & Ei & _).
  - apply drv2_inv.
  - apply drv2_inv.
  - exact dq_demo_run.
  - reflexivity.
  - exists q'. split; [exact E|]. injection Ei as <-. exact Hq.
Defined.

(** After 65536 pushes the put index is below the get index and a full queue is not recognised:
    the queue of eight items accepts a ninth one, in the place of the oldest. *)
Definition wrapped_dq : rt_data_queue := RtDataQueue 8 4 65530 2 ((fun i => (Z.of_nat i, 1)) <$> seq 0 8) false.
Definition wrapped : dstate := DState (ds_kernel drv2) ∅ {[ 0%nat := wrapped_dq ]}.
Theorem data_queue_overruns :
  dq_first wrapped_dq = Some (2, 1) /\ fst <$> rt_data_queue_push 0 (99, 1) 0 wrapped = Some (inl (RT_EOK, None)) /\
  fst <$> rt_data_queue_pop 0 0 (after (rt_data_queue_push 0 (99, 1) 0) wrapped) = Some (inl (RT_EOK, Some (99, 1), None)).
Proof. split_and!; vm_compute; reflexivity. Qed.

(** ** Transmission *)

(** The UART takes every character and notes it, and notes the blocks of DMA transfers. *)
Notation uart_log := (list Z * list rt_data_item)%type.
Definition log_ops : rt_uart_ops uart_log :=
  {| uo_configure := None; uo_control := fun _ _ h => (0, h); uo_putc := fun c h => (1, (fst h ++ [c], snd h));
     uo_getc := fun h => (-1, h); uo_dma_receive := fun _ h => h; uo_dma_transmit := fun a z h => (fst h, snd h ++ [(a, z)]) |}.
#[global] Instance log_spec : UartTx log_ops fst snd.
Proof. split; done. Qed.
Definition tx_serial : serial uart_log := Serial 0xf03 0x80b 1 false (SerialConfigure 115200 8 1 0 0 0 64 0) None (Some (TxD false)) false 0 ([], []).
Definition tx0 : txsys uart_log := TxSys drv2 tx_serial.
Definition tx1 : txsys uart_log := after (_serial_dma_tx log_ops 0 (100, 4)) tx0.
Definition tx2 : txsys uart_log := after (_serial_dma_tx log_ops 0 (200, 5)) tx1.
Definition tx3 : txsys uart_log := after (isr_tx_dmadone log_ops 0) tx2.
Lemma tx0_state : dma_state 0 snd 2 0 [] tx0.
Proof. split; [apply drv2_inv|apply drv2_inv|reflexivity|exact I]. Qed.
Lemma tx_demo_run : dma_run log_ops 0 tx0 [(100, 4); (200, 5)] tx3.
Proof.
  apply (dma_run_step log_ops 0 tx0 [(100, 4)] tx1 [(200, 5)]).
  { apply (dma_write log_ops 0 tx0 2 (100, 4) (inl 4) tx1); [exact drv2_running|reflexivity|]. apply (after_run (_serial_dma_tx log_ops 0 (100, 4)) tx0 (inl 4)). vm_compute. reflexivity. }
  apply (dma_run_step log_ops 0 tx1 [(200, 5)] tx2 []).
  { apply (dma_write log_ops 0 tx1 2 (200, 5) (inl 5) tx2); [apply running_check_ok; evaluate|reflexivity|]. apply (after_run (_serial_dma_tx log_ops 0 (200, 5)) tx1 (inl 5)). vm_compute. reflexivity. }
  apply (dma_run_step log_ops 0 tx2 [] tx3 []); [|apply dma_run_done].
  apply (dma_transfer_done log_ops 0 tx2 2 (Some (100, 4)) tx3); [apply running_check_ok; evaluate|vm_compute; reflexivity|]. apply (after_run (isr_tx_dmadone log_ops 0) tx2 (Some (100, 4))). vm_compute. reflexivity.
Qed.
