(* ===== verification/FlashRuns.v ===== *)
(** * Runs of the check sums, the flash driver and the configuration store

    A controller that behaves as the manual says ([bench]), a flash memory on it, and the
    theorems of Crc.v and Conf.v applied to concrete data.  The last section shows what the
    code does at the edges: a sum of address and size that wraps, an erase that does not start
    at a page, an erase of nothing, a clock that jumps back. *)
From S2P Require Import Prelude Crc Flash Fal Conf.
From stdpp Require Import base list strings.
From Stdlib Require Import ZArith Lia.
#[local] Open Scope Z_scope.

(** ** Check sums *)

(** The digits 1 to 9, on which check sums are usually compared. *)
Definition digits : list Z := [0x31; 0x32; 0x33; 0x34; 0x35; 0x36; 0x37; 0x38; 0x39].

Lemma nine_digits_ok : Forall is_byte digits.
Proof. by repeat constructor. Qed.

(** The table-driven sums of the digits, with their published values (CRC-16/MODBUS before the
    final exclusive or, CRC-32), followed in the buffer by bytes that are not read. *)
Lemma crc_table_driven_witness :
  crc16_cyc_cal crc16_table_A001 0xFFFF (digits ++ [0]) 9 = Some 0x4B37 /\
  crc32_cyc_cal crc32_table_EDB88320 0xFFFFFFFF (digits ++ [0]) 9 = Some (Z.lxor 0xCBF43926 0xFFFFFFFF) /\
  crc8_cyc_cal (crc8_table_init 0x8C) 0xFF (digits ++ [0]) 9 = Some (crc_reg 0x8C 0xFF digits).
Proof.
  destruct (crc_table_driven digits [0] nine_digits_ok) as (H8 & H16 & H32). split_and!.
  - transitivity (Some (crc_reg 0xA001 0xFFFF digits)); [apply H16; [constructor|lia]|vm_compute; reflexivity].
  - transitivity (Some (crc_reg 0xEDB88320 0xFFFFFFFF digits)); [apply H32; [constructor|lia]|vm_compute; reflexivity].
  - apply H8; [constructor; lia|lia].
Defined.

Lemma crc_detects_burst_witness :
  crc16_cal crc16_table_A001 ([0x31] ++ [0x32; 0x33] ++ [0x34]) 4 <>
  crc16_cal crc16_table_A001 ([0x31] ++ [0x33; 0x32] ++ [0x34]) 4.
Proof.
  destruct (crc_detects_burst [0x31] [0x32; 0x33] [0x33; 0x32] [0x34]) as (_ & H & _);
    [by repeat constructor..|done|].
  exact (H 0xA001 crc16_table_A001 crc16_const_A001 ltac:(cbn; lia)).
Defined.

(** ** A controller *)

Definition bench : Fpec := {|
  fpec_lapse := 1;
  fpec_protected := fun _ => false;
  fpec_key := fun k s =>
    if bool_decide (k = FLASH_KEY1) then set_keys 1 s
    else if bool_decide (k = FLASH_KEY2) && bool_decide (keys s = 1%nat) then set_keys 2 (set_LOCK false s)
    else s;
  fpec_halfword := fun a d s =>
    if LOCK (cr s) || negb (PG (cr s)) then s
    else if decide (blank16 a s \/ d = 0) then op_done (put16 a d) 1 s else op_pgerr 1 s;
  fpec_start := fun s =>
    if LOCK (cr s) then s
    else if Flash.PER (cr s) then op_done (erase_page (page_of (ar s))) 20 s
    else if MER (cr s) then op_done (fun f x => if bool_decide (in_flash x) then 0xFF else f x) 20 s
    else s
|}.

#[export] Instance bench_spec : @FpecSpec bench.
Proof.
  split.
  - done.
  - intros s H. exists 2%nat. by destruct s as [? [] ?].
  - done.
  - intros a d s HL HP _ _ _ _. exists 1%nat. split; [done|]. cbn. by rewrite HL, HP.
  - intros s HL HP _ _ _. exists 20%nat. split; [done|]. cbn. by rewrite HL, HP.
Qed.

(** An erased memory, and one that holds zeros, after a reset of the chip. *)
Definition blank_flash : flash := Flash (fun _ => 0xFF) (CR true false false false) (SR false false false) 0 false 0 7 0 false 0.
Definition full_flash : flash := set_cell (fun _ => 0) blank_flash.
Definition booted (f : flash) : fal flash := Fal f true true lower_table 5 true.

Lemma blank_flash_rest : at_rest true blank_flash.
Proof. split_and!; done. Qed.

#[local] Existing Instance bench.

Lemma booted_ready f : at_rest true f -> lower_ready (booted f).
Proof. done. Qed.

Definition backup_part : fal_partition := Partition FAL_PART_MAGIC_WORD "backup" "onchip_flash" (236 * 1024) (58 * 1024).

Lemma backup_in : backup_part ∈ lower_table.
Proof. apply list_elem_of_lookup. by exists 2%nat. Qed.

(** A write of four bytes into "conf" leaves "backup" alone. *)
Lemma partition_isolation_witness :
  exists r s' got,
    fal_partition_write lower_devices (Some conf_part) 8 [1; 2; 3; 4] 4 (booted blank_flash) = Some (r, s') /\
    fal_ready stm32_onchip_flash s' /\
    fal_partition_read lower_devices (Some backup_part) 0 (fp_len backup_part) (booted blank_flash) =
      Some ((fp_len backup_part, got), booted blank_flash) /\
    fal_partition_read lower_devices (Some backup_part) 0 (fp_len backup_part) s' = Some ((fp_len backup_part, got), s').
Proof.
  assert (bytes [1; 2; 3; 4]) as Hb by (by repeat constructor).
  assert (conf_part <> backup_part) as Hne by done.
  destruct (partition_isolation conf_part backup_part 8 4 [1; 2; 3; 4] (booted blank_flash)
              (booted_ready _ blank_flash_rest) conf_in backup_in Hne
              ltac:(lia) ltac:(lia) ltac:(lia) ltac:(vm_compute; discriminate) Hb) as [H _].
  exact H.
Defined.

Definition some_conf : DevConfig := MkDevConfig 3500 (-1) 7 44 80.

(** A configuration is written over an older memory and read after a restart. *)
Lemma conf_survives_restart_witness :
  exists s,
    (fal_init lower_devices lower_table;; part ← LowerConf_part; LowerConf_write part [0; 0] some_conf)
      (fal_reset full_flash) = Some (tt, s) /\
    forall f', at_rest true f' -> (forall x, cell f' x = cell (devs s) x) ->
      exists s', (fal_init lower_devices lower_table;; part ← LowerConf_part; LowerConf_read part) (fal_reset f') =
                 Some (some_conf, s').
Proof.
  destruct (conf_survives_restart full_flash [0; 0] some_conf) as (s & E & _ & H).
  - done.
  - by repeat split.
  - by repeat split.
  - done.
  - by repeat constructor.
  - done.
  - exists s. exact (conj E H).
Defined.

(** A memory with a stored configuration in which the byte 0x2C of noloadCurrThr became 0x2D. *)
Definition hash_default : Z := Eval vm_compute in
  match crc16_cal crc16_table_A001 (conf_bytes defualtConf) sizeof_data with Some h => h | None => 0 end.
Definition damaged_bytes : list Z :=
  meta_bytes hash_default [0; 0] (<[12%nat := 0x2D]> (conf_bytes defualtConf)).
Definition damaged_flash : flash :=
  set_cell (fun x => default 0xFF (damaged_bytes !! Z.to_nat (x - (STM32_FLASH_START_ADRESS + 294 * 1024)))) blank_flash.

Lemma conf_damage_gives_default_witness :
  LowerConf_read (Some conf_part) (booted damaged_flash) = Some (defualtConf, booted damaged_flash).
Proof.
  destruct (conf_damage_gives_default (booted damaged_flash) hash_default [0; 0]
              (take 12 (conf_bytes defualtConf)) [0x2C] [0x2D] (drop 13 (conf_bytes defualtConf)))
    as [H _]; [|done|vm_compute; reflexivity|vm_compute; reflexivity|by repeat constructor|by repeat constructor|done|cbn; lia|].
  - by apply booted_ready.
  - apply H; [vm_compute; reflexivity|done].
Defined.

(** ** At the edges *)

Definition cells_of (r : option (Z * fal flash)) (o : Z) (n : nat) : option (Z * list Z) :=
  match r with Some (v, s) => Some (v, flash_at (devs s) <$> seqZ o (Z.of_nat n)) | None => None end.

(** The bound check adds in 32 bits: a write at the address -4 of "conf" passes it and
    programs the last four bytes of "backup". *)
Lemma partition_bound_wraps :
  cells_of (fal_partition_write lower_devices (Some conf_part) 0xFFFFFFFC [1; 2; 3; 4] 4 (booted blank_flash))
    (294 * 1024 - 4) 4 = Some (4, [1; 2; 3; 4]).
Proof. vm_compute. reflexivity. Qed.

(** An erase of 2048 bytes from the middle of a page reports 2048 bytes, but the second half
    of them keeps its contents: the number of pages is computed from the size alone. *)
Lemma erase_misses_tail :
  cells_of (fal_partition_erase lower_devices (Some (Partition FAL_PART_MAGIC_WORD "download" "onchip_flash" (296 * 1024) (216 * 1024)))
      0x400 0x800 (booted full_flash)) (296 * 1024 + 0x7FF) 2 = Some (0x800, [0xFF; 0]).
Proof. vm_compute. reflexivity. Qed.

(** Erasing nothing is reported as an error. *)
Lemma erase_nothing_fails :
  cells_of (fal_partition_erase lower_devices (Some conf_part) 0 0 (booted full_flash)) (294 * 1024) 1 = Some (-1, [0]).
Proof. vm_compute. reflexivity. Qed.

(** HAL_GetTick multiplies in 32 bits: it counts up to 4294967 and starts again at zero, after
    72 minutes in place of the 49 days of the tick.  A write that is under way then is
    reported as failed by the timeout of 50 seconds, with its first half-word in the memory. *)
Definition late_flash : flash := set_busy 0 4294967 blank_flash.
Lemma flash_write_times_out :
  HAL_GetTick 4294967 = 4294967 /\ HAL_GetTick 4294968 = 0 /\
  cells_of (fal_partition_write lower_devices (Some conf_part) 0 [1; 2; 3; 4] 4 (booted late_flash)) (294 * 1024) 4 =
  Some (-1, [1; 2; 0xFF; 0xFF]).
Proof. vm_compute. split_and!; reflexivity. Qed.
