(* ===== verification/QueueRuns.v ===== *)
(** * Concrete runs: wait queues and work queues

    The theorems of WaitQueue.v and WorkQueue.v applied to the demonstration kernel of Scenarios.v, in
    which the main thread (thread 2) runs and the worker (thread 3) waits for an event; and runs that
    show what happens outside the conditions of the theorems. *)
From S2P Require Import Prelude RtList Kernel Sched Timer Object Thread Boot Ipc Sem Event System Parking WaitQueue WorkQueue Syscalls Checks Startup Scenarios DriverRuns.
From stdpp Require Import base gmap sets list relations.
From Stdlib Require Import ZArith Lia.
#[local] Open Scope Z_scope.

(** ** A wait queue *)

(** The wakeup functions of the application refuse. *)
Definition refuse : nat -> nat -> Z -> Z := fun _ _ _ => 1.

Definition wq0 : wstate := WState demo ∅ ∅ ∅.
Definition wq1 : wstate := DriverRuns.after (rt_wqueue_init 0) wq0.
(** The main thread waits for ever with its node at 100. *)
Definition wq2 : wstate := DriverRuns.after (rt_wqueue_wait 0 100 false (-1)) wq1.

Lemma wq1_inv : wq_inv wq1.
Proof.
  destruct (wqueue_init_ok 0 wq0 (wq_inv_empty demo demo_sys) eq_refl) as (s' & E & Hi & _).
  assert (Ed : wq1 = s') by exact (after_eq _ _ _ _ E). rewrite Ed. exact Hi.
Qed.
Lemma wq_demo_run : rtc (wq_step refuse) (wq1, ∅) (wq2, {[ 2%nat := (0%nat, 100%nat) ]}).
Proof.
  apply rtc_once. apply (step_wait refuse wq1 ∅ 2 0 100 false (-1) (inr 2%nat) wq2).
  - apply running_check_ok. evaluate.
  - reflexivity.
  - vm_compute. eexists. reflexivity.
  - reflexivity.
  - unfold HALF. lia.
  - apply (after_run (rt_wqueue_wait 0 100 false (-1)) wq1 (inr 2%nat)). vm_compute. reflexivity.
Qed.
Lemma wqueue_waiters_reachable_witness :
  waits wq2 2 0 100 /\
  exists s' th', rt_wqueue_wakeup refuse 0 7 wq2 = Some (tt, s') /\ thread_at (ws_kernel s') 2 = Some th' /\ active th'.
Proof.
  destruct (wqueue_waiters_reachable refuse wq1 wq2 {[ 2%nat := (0%nat, 100%nat) ]} wq1_inv wq_demo_run) as (_ & Hw & Hwake & _).
  split; [exact (Hw 2%nat 0%nat 100%nat (lookup_singleton_eq _ _))|].
  destruct (Hwake 0%nat 7 [100%nat]) as (s' & E & _ & H).
  - vm_compute. reflexivity.
  - vm_compute. eexists. reflexivity.
  - destruct (H 2%nat 100%nat [] [] (lookup_singleton_eq _ _) eq_refl) as (th' & Et & Ha & _).
    + intros v Hv. destruct (not_elem_of_nil _ Hv).
    + exists s', th'. exact (conj E (conj Et Ha)).
Defined.

(** *** A lost wakeup *)

(** A second thread of lower priority; the main thread waits for five milliseconds, the second one for
    ever; thread 3 gets its event and runs while the timer of the main thread expires; then it wakes
    the queue. *)
Definition two_waiters : M wstate unit :=
  wkern (rt_thread_init 4 [98] 0 0 0 256 20 5) ;;
  wkern (rt_thread_startup 4) ;;
  rt_wqueue_wait 0 100 false 5 ;;
  rt_wqueue_wait 0 101 false (-1) ;;
  wkern (rt_event_send 0 5) ;;
  wkern (rt_tick_increase (fun _ => mret tt) 3) ;; wkern (rt_tick_increase (fun _ => mret tt) 3) ;;
  wkern (rt_tick_increase (fun _ => mret tt) 3) ;; wkern (rt_tick_increase (fun _ => mret tt) 3) ;;
  wkern (rt_tick_increase (fun _ => mret tt) 3) ;;
  mret tt.
Definition wq3 : wstate := DriverRuns.after two_waiters wq1.
Definition status (k : kernel) (t : nat) : option Z := stat_of <$> thread_at k t.

Lemma wqueue_wakeup_lost_run :
  ws_lists wq3 !! 0%nat = Some [100; 101]%nat /\ status (ws_kernel wq3) 2 = Some RT_THREAD_READY /\
  let s := DriverRuns.after (rt_wqueue_wakeup refuse 0 7) wq3 in
  let s' := DriverRuns.after (rt_wqueue_wait_resume 0 100) s in
  fst <$> rt_wqueue_wakeup refuse 0 7 wq3 = Some tt /\ ws_flags s' !! 0%nat = Some RT_WQ_FLAG_CLEAN /\
  ws_lists s' !! 0%nat = Some [101%nat] /\ status (ws_kernel s') 4 = Some RT_THREAD_SUSPEND.
Proof. cbn zeta. split_and!; vm_compute; reflexivity. Qed.

(** ** A work queue *)

(** Queue 0 with semaphore 5 and thread 7, of lower priority than the main thread, and two works. *)
Definition make_queue (priority : Z) : M qstate unit :=
  rt_workqueue_create [119] 256 priority 0 (Some 0%nat) 5 (Some 7%nat) (Some 0x20001000) ;;
  rt_work_init 0 10 ;;
  rt_work_init 1 11 ;;
  mret tt.
Definition wk0 : qstate := DriverRuns.after (make_queue 20) (QState demo ∅ ∅ ∅).
Definition wk1 : qstate := DriverRuns.after (rt_workqueue_dowork 0 0) wk0.
Definition wk2 : qstate := DriverRuns.after (rt_workqueue_dowork 0 1) wk1.
(** The main thread sleeps and the thread of the queue runs. *)
Definition wk3 : qstate := set_qs_kernel (DriverRuns.after (rt_thread_sleep 5) (qs_kernel wk2)) wk2.
Definition wk3' : qstate := DriverRuns.after (worker_check 0) wk3.
Definition wk4 : qstate := DriverRuns.after (worker_take 0) wk3'.

Lemma wk0_defined : fst <$> make_queue 20 (QState demo ∅ ∅ ∅) = Some tt.
Proof. vm_compute. reflexivity. Qed.
Lemma wk0_inv : work_inv 0 7 5 [] wk0 PCheck.
Proof.
  split.
  - apply sys_check_ok. evaluate.
  - assert (E : qs_lists wk0 = {[ 0%nat := [] ]}) by (vm_compute; reflexivity). rewrite E; clear E. split.
    + intros h l [_ <-]%lookup_singleton_Some. apply NoDup_nil_2.
    + intros h1 h2 l1 l2 w [<- <-]%lookup_singleton_Some [<- _]%lookup_singleton_Some. done.
  - vm_compute. reflexivity.
  - assert (E : qs_lists wk0 = {[ 0%nat := [] ]}) by (vm_compute; reflexivity). rewrite E; clear E. by intros m lm w [<- _]%lookup_singleton_Some.
  - vm_compute. reflexivity.
  - assert (E : qs_works wk0 = {[ 0%nat := RtWork 0 0 10 None; 1%nat := RtWork 0 0 11 None ]}) by (vm_compute; reflexivity). rewrite E; clear E.
    intros w. split; [intros Hw; destruct (not_elem_of_nil _ Hw)|].
    intros (x & [[_ <-]|[_ [_ <-]%lookup_singleton_Some]]%lookup_insert_Some & Hp); discriminate Hp.
  - vm_compute. eexists. reflexivity.
  - eexists. split; vm_compute; reflexivity.
  - exact I.
Qed.
Lemma wk_demo_run : work_run 0 7 5 (wk0, PCheck) [ESubmit 0; ESubmit 1; ETake 0] (wk4, PBusy 0).
Proof.
  apply (wrun_step 0 7 5 _ [ESubmit 0] (wk1, PCheck) [ESubmit 1; ETake 0]).
  { apply (st_submit 0 7 5 wk0 PCheck 0 RT_EOK wk1); [vm_compute; eexists; reflexivity..|done|].
    apply (after_run (rt_workqueue_dowork 0 0) wk0 RT_EOK). vm_compute. reflexivity. }
  apply (wrun_step 0 7 5 _ [ESubmit 1] (wk2, PCheck) [ETake 0]).
  { apply (st_submit 0 7 5 wk1 PCheck 1 RT_EOK wk2); [vm_compute; eexists; reflexivity..|done|].
    apply (after_run (rt_workqueue_dowork 0 1) wk1 RT_EOK). vm_compute. reflexivity. }
  apply (wrun_step 0 7 5 _ [] (wk3, PCheck) [ETake 0]).
  { apply (st_other 0 7 5 wk2 PCheck); [apply sys_check_ok; evaluate|vm_compute; eexists; reflexivity|vm_compute; reflexivity|discriminate]. }
  apply (wrun_step 0 7 5 _ [] (wk3', PTake) [ETake 0]).
  { apply (st_check 0 7 5 wk3 false wk3'); [apply running_check_ok; evaluate|]. apply (after_run (worker_check 0) wk3 false). vm_compute. reflexivity. }
  apply (wrun_step 0 7 5 _ [ETake 0] (wk4, PBusy 0) []); [|apply wrun_done].
  apply (st_take 0 7 5 wk3' 0 wk4); [apply running_check_ok; evaluate|]. apply (after_run (worker_take 0) wk3' 0%nat). vm_compute. reflexivity.
Qed.

(** *** Outside the conditions *)

(** The thread of the queue found the list empty and sleeps; the main thread runs again. *)
Definition wk_idle : qstate :=
  DriverRuns.after (qkern (rt_thread_sleep 5) ;; worker_suspend ;; qkern (rt_thread_resume 2) ;; qkern (on_sched rt_schedule)) wk0.

(** A work that is cancelled after it has woken the thread: the thread takes the list head for a
    work. *)
Lemma cancelled_work_taken :
  status (qs_kernel wk_idle) 7 = Some RT_THREAD_SUSPEND /\
  let s := DriverRuns.after (rt_workqueue_dowork 0 0 ;; rt_workqueue_cancel_work 0 0) wk_idle in
  fst <$> (rt_workqueue_dowork 0 0 ;; rt_workqueue_cancel_work 0 0) wk_idle = Some RT_EOK /\
  status (qs_kernel s) 7 = Some RT_THREAD_READY /\
  let s' := DriverRuns.after (qkern (rt_thread_sleep 5)) s in
  s_current (k_sched (qs_kernel s')) = Some 7%nat /\ worker_take 0 s' = None.
Proof. cbn zeta. split_and!; vm_compute; reflexivity. Qed.

(** A work that is submitted (by an interrupt) between the test and the suspension: the thread sleeps with
    the work in its list. *)
Definition wk_running : qstate := DriverRuns.after (qkern (rt_thread_sleep 5)) wk0.
Lemma submitted_work_sleeps :
  s_current (k_sched (qs_kernel wk_running)) = Some 7%nat /\ fst <$> worker_check 0 wk_running = Some true /\
  fst <$> rt_workqueue_dowork 0 0 wk_running = Some RT_EOK /\
  let s := DriverRuns.after (rt_workqueue_dowork 0 0 ;; worker_suspend) wk_running in
  qs_lists s !! 0%nat = Some [0%nat] /\ status (qs_kernel s) 7 = Some RT_THREAD_SUSPEND.
Proof. cbn zeta. split_and!; vm_compute; reflexivity. Qed.

(** rt_workqueue_cancel_all_work leaves the works marked as pending: they cannot be submitted again. *)
Lemma cancelled_works_stay_pending :
  let s := DriverRuns.after (rt_workqueue_cancel_all_work 0) wk2 in
  fst <$> rt_workqueue_cancel_all_work 0 wk2 = Some RT_EOK /\ qs_lists s !! 0%nat = Some [] /\
  fst <$> rt_workqueue_dowork 0 0 s = Some (- RT_EBUSY) /\ fst <$> rt_workqueue_dowork 0 1 s = Some (- RT_EBUSY).
Proof. cbn zeta. split_and!; vm_compute; reflexivity. Qed.

(** A critical work is not marked as pending: a second submission moves it behind the others. *)
Lemma critical_work_moved :
  let s := DriverRuns.after (rt_workqueue_critical_work 0 0 ;; rt_workqueue_dowork 0 1) wk0 in
  qs_lists s !! 0%nat = Some [0; 1]%nat /\
  fst <$> rt_workqueue_dowork 0 0 s = Some RT_EOK /\ qs_lists (DriverRuns.after (rt_workqueue_dowork 0 0) s) !! 0%nat = Some [1; 0]%nat.
Proof. cbn zeta. split_and!; vm_compute; reflexivity. Qed.

(** rt_workqueue_destroy frees the queue with its semaphore still in the container of semaphores. *)
Lemma destroyed_queue_keeps_semaphore :
  let s := DriverRuns.after (rt_workqueue_destroy 0) wk0 in
  fst <$> rt_workqueue_destroy 0 wk0 = Some RT_EOK /\ qs_queues s !! 0%nat = None /\
  bool_decide (OSem 5 ∈ default [] (o_lists (k_objs (qs_kernel s)) !! RT_Object_Class_Semaphore)) = true.
Proof. cbn zeta. split_and!; vm_compute; reflexivity. Qed.

(** A delayed work: its timer is armed; when it expires the work is in the list. *)
Lemma delayed_work_submitted :
  let s := DriverRuns.after (rt_workqueue_submit_work 0 0 3) wk0 in
  fst <$> rt_workqueue_submit_work 0 0 3 wk0 = Some RT_EOK /\ qs_lists s !! 0%nat = Some [] /\
  t_lists (k_timers (qs_kernel s)) !! TLSoft = Some [UserTimer 10] /\
  let s' := DriverRuns.after (_delayed_work_timeout_handler 0) s in
  qs_lists s' !! 0%nat = Some [0%nat] /\ t_lists (k_timers (qs_kernel s')) !! TLSoft = Some [] /\
  qs_works s' !! 0%nat = Some (RtWork RT_WORK_STATE_PENDING 0 10 (Some 0%nat)).
Proof. cbn zeta. split_and!; vm_compute; reflexivity. Qed.
