(* ===== verification/I2cRuns.v ===== *)
(** * Runs of the bit-banged I2C driver: witnesses, and a reading mode that leaves the frame open *)
From S2P Require Import Prelude Kernel Thread I2c.
From stdpp Require Import base list.
From Stdlib Require Import ZArith Lia.
#[local] Open Scope Z_scope.

(** A slave with a script: at every rising edge of the clock it puts the next level on SDA.  [hold]: it
    keeps the clock low for ever. *)
Record scripted := Scripted { sc_scl : bool; sc_script : list bool; sc_level : bool; sc_tick : Z }.
Definition scripted_hw (hold : bool) : I2cHw scripted := {|
  hw_set scl sda b :=
    if scl && negb (sc_scl b) then Scripted true (tail (sc_script b)) (from_option id true (head (sc_script b))) (sc_tick b)
    else Scripted scl (sc_script b) (sc_level b) (sc_tick b);
  hw_sda b := sc_level b;
  hw_scl b := negb hold;
  hw_udelay _ b := b;
  hw_tick b := sc_tick b;
  hw_sleep n b := Scripted (sc_scl b) (sc_script b) (sc_level b) (u32 (sc_tick b + n))
|}.
Definition demo_ops : rt_i2c_bit_ops := I2cBitOps true 2 100.
Definition idle_bus (script : list bool) : i2c scripted := I2c true true (Monitor None [] []) (Scripted true script true 0xffffffff).

(** The levels of a slave: released during the bits of the master, and its answer. *)
Definition listen (ack : bool) : list bool := replicate 8 true ++ [negb ack].
Definition speak (d : Z) : list bool := map (fun i => Z.testbit d (Z.of_nat i)) [7; 6; 5; 4; 3; 2; 1; 0]%nat ++ [true].

(** A register is selected and two bytes are read from it; the slave is busy at the first attempt.  (A STOP and
    a START take one clock pulse each.) *)
Definition demo_script : list bool := listen false ++ [true] ++ listen true ++ listen true ++ [true] ++ listen true ++ speak 0xa5 ++ speak 0x3c.
Definition demo_msgs : list rt_i2c_msg := [I2cMsg 0x50 0 [0x10]; I2cMsg 0x50 RT_I2C_RD [0; 0]].
Lemma demo_transfer :
  (p ← i2c_bit_xfer (scripted_hw false) demo_ops 4 3 demo_msgs (idle_bus demo_script); Some (fst p, mo_events (i_mon (snd p)))) =
  Some ((2, [I2cMsg 0x50 0 [0x10]; I2cMsg 0x50 RT_I2C_RD [0xa5; 0x3c]]),
        [EStart; EFrame 0xa0 false; EStop; EStart; EFrame 0xa0 true; EFrame 0x10 true; EStart; EFrame 0xa1 true; EFrame 0xa5 true; EFrame 0x3c false; EStop]).
Proof. vm_compute. reflexivity. Qed.

Lemma demo_msgs_ok : Forall msg_ok demo_msgs.
Proof. repeat constructor; cbn; try lia; done. Qed.
Lemma i2c_xfer_refines_witness :
  exists ret msgs' es s', i2c_bit_xfer (scripted_hw false) demo_ops 4 3 demo_msgs (idle_bus demo_script) = Some ((ret, msgs'), s') /\
    xfer_trace 3 0 demo_msgs es ret msgs' /\ mo_events (i_mon s') = [] ++ EStart :: es ++ [EStop] /\ i_scl s' = true /\ i_sda s' = true.
Proof.
  apply (i2c_xfer_refines (scripted_hw false) demo_ops 4 3 demo_msgs (idle_bus demo_script)); [lia| |apply demo_msgs_ok|reflexivity|reflexivity].
  intros sda b. reflexivity.
Defined.

Lemma scripted_sleeps hold : sleeps (scripted_hw hold).
Proof. intros n b Hn. exists n. split; [lia|done]. Qed.
Lemma i2c_xfer_returns_witness :
  exists ret msgs' s', i2c_bit_xfer (scripted_hw true) demo_ops 4 0 demo_msgs (idle_bus []) = Some ((ret, msgs'), s') /\
    (ret = 2 \/ i2c_error ret) /\ i_scl s' = true /\ i_sda s' = true.
Proof.
  apply (i2c_xfer_returns (scripted_hw true) demo_ops 4 0 demo_msgs (idle_bus [])); [lia|apply scripted_sleeps|cbn; lia].
Defined.

(** With the clock held low the first bit of the address times out, and the transfer reports an I/O error. *)
Lemma held_clock_is_eio :
  (p ← i2c_bit_xfer (scripted_hw true) demo_ops 4 0 demo_msgs (idle_bus []); Some (fst p)) = Some (- RT_EIO, demo_msgs).
Proof. vm_compute. reflexivity. Qed.

(** Reading with RT_I2C_NO_READ_ACK does not refuse the byte: the ninth clock pulse is missing, and a listener
    has only eight bits of the frame when the STOP comes. *)
Lemma no_read_ack_leaves_frame_open :
  (p ← i2c_bit_xfer (scripted_hw false) demo_ops 4 0 [I2cMsg 0x50 (RT_I2C_RD + RT_I2C_NO_READ_ACK) [0]] (idle_bus (listen true ++ speak 0xa5));
   Some (fst p, mo_events (i_mon (snd p)))) =
  Some ((1, [I2cMsg 0x50 (RT_I2C_RD + RT_I2C_NO_READ_ACK) [0xa5]]), [EStart; EFrame 0xa1 true; EStop]).
Proof. vm_compute. reflexivity. Qed.
